(* ===== verification/_CoqProject ===== *)
-Q . S2P
Prelude.v
StateMachines.v
Domain.v
Json.v
Seal.v
Pubky.v
Text.v
Store.v
Commands.v
Actions.v
LocksKeys.v
EventStream.v
ReserveSecrecy.v
Reviews.v
Drops.v
Holds.v
Pickup.v
PickupDetails.v
DigitalManual.v
Digital.v
Fulfillment.v
Cancellation.v
Payment.v
Auction.v
ListingView.v
Postal.v
LockResource.v
AwardTerms.v
Fx.v
Validation.v
ValidPayloads.v
Checkout.v
Records.v
ContentLock.v
Locks.v
ListingDeletion.v
Within.v
Registration.v
RecordContract.v
Offers.v
OfferCheckout.v
Executor.v
Inventory.v
Grants.v
Webhooks.v
Samples.v
Leases.v
Outbox.v
LateMoney.v
PaymentMethods.v
BitcoinReview.v
LocksVerification.v
Workers.v
ReviewContract.v
DropBooks.v
OrderActions.v
Ledger.v
Books.v
PaymentBooks.v
LateMoneyContract.v
StockBooks.v
RegistrationBooks.v
CheckoutBooks.v
OfferBooks.v
DetailsBooks.v
WorkerBooks.v
InventoryBooks.v
System.v
OfferContract.v
Logs.v
Idempotency.v
LocksContract.v
Sweep.v
Totals.v
Disclosure.v
DropContract.v
Ranking.v
GrantContract.v
WebhookContract.v
PaymentContract.v
