(* ===== verification/Prelude.v ===== *)
(** * A verification library for the Pubky marketplace service

    The service (crates/domain and crates/service under src/) settles a
    marketplace: sellers register listings, buyers reserve, bid, make offers
    and check out, payments confirm, orders ship, are handed over, returned or
    cancelled, and timed drops sell limited editions.  Every write of a client
    is a command: [executor.rs] validates it, looks up its stored result,
    opens one PostgreSQL transaction, dispatches to a handler, stores the
    result and commits; a refusal or a database error rolls back.  Background
    tasks ([workers.rs]) run under leases in transactions of their own, a
    seller's tools adjust stock through [inventory.rs], sign-in goes through
    [auth.rs] and [grant.rs], and [automation.rs] feeds events to sellers and
    their webhooks.

    ** How the code is modelled

    A handler is a function of the transaction monad [Tx] of this file: from a
    store to [Done], [Refused] (a business refusal, with the store reached so
    far, because a caller may tolerate it and go on), [Failed] (a database
    error: a violated constraint, no row, a protocol error) or [Panicked] (a
    failed [debug_assert!], [expect] or index, kept so that its absence is a
    theorem).  The store is [Db] of [Store]: one finite map or list per table,
    with the columns the modelled handlers read or write and the CHECK and
    UNIQUE constraints of the migrations; [select], [update_where],
    [update_one] and [insert] are the statements.  Time is microseconds
    since the epoch, integers are [Z] with the [i64] wrap-around written out
    where the code does not bound it (checkout and auction sums, FX
    mantissas), and UUIDs are numbers.  The code serialises transactions by
    row locks and by the advisory lock of the executor: a transaction is
    atomic here, a run is a sequence of whole transactions, and the locks and
    the order they are taken in are not modelled.

    Sessions and grant flows ([Grants]) and webhooks ([Webhooks]) have stores
    of their own: they share no table with the commands except the event log
    that webhooks read, which is an input there.  Their statements interleave,
    so each has a step relation whose steps are single transactions and
    statements ([GrantContract], [WebhookContract]).

    Code that is not under src/ is a parameter, a class or a record field: the
    [uuid] crate ([UuidCrate]), JSON text ([JsonText], [Serde]), base32
    ([Base32Crate]), hashes, HMAC and encodings ([LocksCrates],
    [InventoryCrates], [AuthCrates], [WebhookCrates]), the ciphers
    ([SealCrates], seen by handlers as [SealKeys]), pubky signatures
    ([GrantCrates]), the seller's homeserver ([HomeserverListingClient]), the
    Lock Server ([LocksRuntime]), Paykit's answers, the network behind a
    webhook, URLs and form bodies ([PaymentCrates]).  What a theorem needs of them is a named law ([SealLaws],
    [WebhookLaws], ...), and its witness has a concrete instance.

    ** Files

    - [Prelude] (this file): integers, record update, the transaction monad
      with its weakest precondition [wp], sums over finite maps, tactics.
    - Vocabulary: [StateMachines] (state_machines.rs), [Domain] (error.rs,
      money.rs, ids.rs), [Json], [Text] (strings and the patterns of
      commands.rs), [Pubky] (pubky.rs), [Postal] (postal.rs), [Commands] (the
      types of commands.rs), [LockResource], [Validation] and [ValidPayloads]
      (parse_command and what it guarantees).
    - Store: [Store] (the rows and projections of model.rs, result.rs, the
      schema), [ListingView] (the listing serializer of model.rs),
      [ReserveSecrecy] (reserve_secrecy.rs), [Seal] (seal.rs and the key
      rings), [LocksKeys] (the secrets and client of locks.rs).
    - Records: [EventStream], [AwardTerms] and [Records] (homeserver.rs),
      [ContentLock] (content_lock.rs), [ListingDeletion]
      (listing_deletion.rs), [RecordContract] (what a record registers).
    - Handlers: [Actions] (handlers/mod.rs), [Drops], [Holds] (holds.rs,
      reserve_inventory.rs and expiry.rs), [Pickup], [PickupDetails],
      [DigitalManual] (digital_orders.rs and digital_manual.rs), [Digital],
      [Fulfillment] (fulfillment.rs and returns.rs), [Reviews] (attestor.rs,
      reviews.rs, attestation.rs), [Cancellation], [Payment], [Auction],
      [Checkout], [Locks], [Registration] (register_listing.rs and
      sync_listing.rs), [Offers], [OfferCheckout]: one definition per Rust
      function; a function of several hundred lines is split into its stages,
      composed in the order of the code.  [Executor] is executor.rs.
    - Workers: [Leases], [Outbox], [LocksVerification], [Workers] (the sweeps
      of workers.rs), [Fx] (fx.rs and its sampler), [LateMoney] and
      [BitcoinReview] (bitcoin_review.rs).
    - Around the commands: [Inventory] (inventory.rs), [PaymentMethods]
      (payment_methods.rs and paypal_refund.rs, with the checks, clients and
      references of payments.rs and the cache of payment_availability.rs),
      [Grants] (auth.rs, grant.rs), [Webhooks] (automation.rs).
    - [Samples]: concrete rows and a concrete deployment for the witnesses.
    - Invariants and what every operation does to them: [Within] (relations a
      transaction keeps), [Ledger], [Books], [DropBooks], [PaymentBooks],
      [StockBooks], [RegistrationBooks], [CheckoutBooks], [OfferBooks],
      [DetailsBooks], [WorkerBooks], [InventoryBooks], [Logs].
    - Properties: [System], [OrderActions], [OfferContract], [Idempotency],
      [LocksContract], [Sweep], [Totals], [Disclosure], [DropContract],
      [Ranking], [ReviewContract], [LateMoneyContract], [PaymentContract],
      [GrantContract], [WebhookContract], and the ones stated next to their
      component ([Fx], [Leases], [Outbox], [Pubky], [EventStream],
      [ReserveSecrecy], [ValidPayloads], [InventoryBooks]).

    ** What is proved

    - Stock ([System], from [Ledger]): along every run in which auctions are
      kept apart (below) the units of a listing balance and the reserved ones
      are exactly those owed to active reservations and to orders that hold
      stock; an order holds stock only while it waits for payment; a confirmation runs only for an order that
      can be paid, converts exactly its units and issues one receipt; an
      adjustment moves what it was asked to.
    - Drops ([System], [DropContract]): remaining units and buyers' counts add
      up to the announced total, the per-buyer limit holds, the gate and the
      edition numbers are as specified.
    - Offers ([OfferContract]): an offer is its negotiation, an award is sold
      once, on the accepted terms.
    - Absence of panics ([System]): no assertion or [expect] of a handler, of
      the executor or of a worker task fails in a state reachable with
      auctions kept apart.
    - Order commands ([OrderActions]) refine the published order machine: each
      follows a transition declared for that very command, or, for the four
      commands about a delivery or a review ([keeps_state]), leaves state and
      hold as they were.
    - The executor ([Idempotency]): exact replay, atomicity, append-only
      history; adjustments replay too.
    - Payments ([ReviewContract], [LateMoneyContract], [LocksContract]): a
      review is decided once, late money has three outcomes, a Locks
      preparation binds the terms of the checkout and a lookup moves only its
      own payment; the FX quote is fair ([Fx]).
    - Payment methods ([PaymentContract]): a method is bound as a whole or not
      at all, verified fiat money is confirmed or kept for review, no PayPal
      refund notification is lost, and a paid order follows the money that
      went back.
    - Workers ([Sweep], [Leases], [Outbox]): the sweep expires exactly what is
      due, leases exclude, the outbox drains.
    - Sign-in ([GrantContract]): tickets, claims and AuthTokens are served
      once, a claimed bearer opens the right session, a flow row keeps
      secrets only while its status needs them.
    - Event delivery ([WebhookContract]): the feed read by its cursors is
      complete while events arrive and age, deliveries are enqueued in order
      and once and end within their attempts, signatures verify, the address filter is the list of
      special-purpose blocks.
    - Auctions ([Ranking]): the leader, the visible price and the anti-sniping
      end.  Privacy ([Disclosure], [ReserveSecrecy]): who can see a delivery
      address and an auction's reserve.  Checkout totals at 64 bits ([Totals]), the machines ([StateMachines]), the pubky encoder ([Pubky]),
      what validation guarantees ([ValidPayloads]), what a seller record
      registers ([RecordContract]), the event-stream format ([EventStream]).

    ** Assumptions on runs

    A step of [System] is a command, a worker task run under its lease (one
    step), a transaction of the inventory automation, or time.  Runs start in
    any store that satisfies [Books.inv]; the invariant holds of concrete
    stores ([System.shelf_inv] and the witnesses).  [inv] asks that every hold
    carries an instant ([Books.modern]): holds written before migration 0012
    do not, and their cancellation tolerates missing units by design.
    [System.admissible] has two parts.  [System.validated] is what command
    validation guarantees (line counts and quantities, confirmations 0..6).
    [System.auctions_apart] is a restriction the code does not enforce: an
    auction is registered with one unit, and only a fixed-price listing is
    reserved directly or promised by an accepted offer; likewise only
    fixed-price stock is adjusted ([InventoryBooks.not_auctioned]).  What
    happens otherwise is proved: [OfferContract.offered_auction_panics] and
    [Ranking.reserved_auction_cannot_close].  The Locks
    verification and the seller-window sweep are modelled but are not steps of
    [System]: late money can strand stock
    ([LateMoneyContract.late_money_strands_stock]), so they do not keep the
    invariant.  [Outbox.drain_outbox] is the pass of a deployment without the
    Paykit client.  Random draws of grant flows are assumed not to collide.
    [WebhookContract.webhook_step] makes events visible in the order of their
    sequences; [WebhookContract.late_event_skipped] shows what happens
    otherwise.  More corner behaviours are theorems:
    [DropContract.resold_unit_cannot_be_confirmed],
    [Ranking.late_bid_ends_auction], [Totals.checkout_subtotal_wraps],
    [WebhookContract.overtaken_failure_dead_letters].

    ** Termination and fuel

    Handlers and passes are structural recursion over lines, bids, bindings or
    due rows, so they are total by construction.  Five definitions count
    turns.  The encoder drains its accumulator in two rounds a byte
    ([Pubky.drain_enough], and the reference theorem); [ilog10] of an [i64] has at most 19
    digits ([Reviews]); the business-day loop is given turns that are proved
    enough ([ReviewContract.add_business_days_ends]); the reachability closure
    of [StateMachines] iterates once per declared state, and each round that
    changes anything adds a state; a payment reference emits at most two
    symbols a byte ([PaymentMethods.emit_groups_enough]).

    ** Not modelled

    - payments.rs: the HTTP side of the clients, whose answers are arguments of
      the definitions that read them, Paykit's invoice status, activation and
      voiding, and the configuration of the runtime.
    - workers.rs: delivery and verification through Paykit, released attempts,
      autocompletion, statistics attestations and the worker loop itself;
      resolve_delivery.rs and the rest of paykit_attempts.rs belong to them.
    - refusal_audit.rs, refusal_audit_admin.rs: an asynchronous audit that no
      handler reads; command_flight.rs: in-process coalescing of equal
      requests in front of the executor.
    - automation.rs: the listing and order exports and the batched sync, which
      are reads and repeated commands.
    - http.rs, queries.rs, config.rs, main.rs, logging.rs, migrations.rs,
      address_search.rs, shipping.rs: routing, SQL reads for display,
      configuration and network clients.
    - The refusal kind of a failure (an audit label) and the receipt's content
      hash are not kept. *)


From stdpp Require Export base gmap strings list fin_maps numbers option.

#[global] Open Scope Z_scope.

(** ** Scalars *)

(** [DateTime<Utc>] at the resolution of PostgreSQL's [TIMESTAMPTZ]:
    microseconds since the epoch. *)
Abbreviation Time := Z (only parsing).

(** A UUID is its 128-bit number. *)
Abbreviation Uuid := N (only parsing).

(** A pubky, an aggregate id and every other identifier is a string. *)
Abbreviation Pubky := string (only parsing).

Definition seconds (n : Z) : Z := n * 1000000.

Definition i64_min : Z := - 2 ^ 63.
Definition i64_max : Z := 2 ^ 63 - 1.

Definition in_i64 (z : Z) : bool := (i64_min <=? z) && (z <=? i64_max).

(** Two's complement wrap-around of a release build's [i64] arithmetic. *)
Definition wrap64 (z : Z) : Z := (z + 2 ^ 63) mod 2 ^ 64 - 2 ^ 63.

(** [i64::saturating_add]. *)
Definition saturating_add (a b : Z) : Z := Z.max i64_min (Z.min i64_max (a + b)).

Lemma in_i64_spec z : in_i64 z = true <-> i64_min <= z <= i64_max.
Proof. unfold in_i64. rewrite andb_true_iff, !Z.leb_le. tauto. Qed.

Lemma wrap64_id z : in_i64 z = true -> wrap64 z = z.
Proof.
  rewrite in_i64_spec. unfold wrap64, i64_min, i64_max. intros Hz.
  rewrite Z.mod_small; lia.
Qed.

Lemma wrap64_in_range z : in_i64 (wrap64 z) = true.
Proof.
  rewrite in_i64_spec. unfold wrap64, i64_min, i64_max.
  pose proof (Z.mod_pos_bound (z + 2 ^ 63) (2 ^ 64)). lia.
Qed.

Lemma saturating_add_exact a b :
  in_i64 (a + b) = true -> saturating_add a b = a + b.
Proof. rewrite in_i64_spec. unfold saturating_add. lia. Qed.

(** ** Record update

    A record type declares its eta expansion; [r <| field := v |>] is then
    the record with one field replaced. *)

Class Updater {R T : Type} (p : R -> T) := upd : (T -> T) -> R -> R.
Arguments upd {R T} p {_} _ _ : simpl never.

Ltac updater_from eta p :=
  let b := eval cbv delta [eta] in eta in
  match eval pattern p in b with
  | ?g _ => exact (fun f => g (fun r => f (p r)))
  end.

Notation "r <| p := v |>" := (upd p (fun _ => v) r)
  (at level 1, left associativity, format "r  <| p  :=  v |>").

(** ** The transaction monad

    A handler runs inside one PostgreSQL transaction.  Its Rust type
    [Result<Result<A, CommandFailure>, sqlx::Error>] has three outcomes, and
    a panic (a failed [debug_assert!] or [expect]) is a fourth.  A refusal
    keeps the state reached so far: a caller may inspect the refusal and go
    on in the same transaction; only the executor rolls back. *)

Inductive SqlError :=
| UniqueViolation
| CheckViolation
| ForeignKeyViolation
| NotNullViolation
| RowNotFound
| Protocol (message : string).

#[export] Instance SqlError_eq_dec : EqDecision SqlError.
Proof. solve_decision. Defined.

Inductive Outcome (S F A : Type) :=
| Done (a : A) (s : S)
| Refused (f : F) (s : S)
| Failed (e : SqlError)
| Panicked (message : string).
Arguments Done {S F A} _ _.
Arguments Refused {S F A} _ _.
Arguments Failed {S F A} _.
Arguments Panicked {S F A} _.

Definition Tx (S F A : Type) : Type := S -> Outcome S F A.

Section Monad.
Context {S F : Type}.

Definition ret {A} (a : A) : Tx S F A := fun s => Done a s.

Definition bind {A B} (m : Tx S F A) (k : A -> Tx S F B) : Tx S F B :=
  fun s =>
    match m s with
    | Done a s' => k a s'
    | Refused f s' => Refused f s'
    | Failed e => Failed e
    | Panicked msg => Panicked msg
    end.

Definition gets {A} (q : S -> A) : Tx S F A := fun s => Done (q s) s.
Definition modify (q : S -> S) : Tx S F unit := fun s => Done tt (q s).
Definition refuse {A} (f : F) : Tx S F A := fun s => Refused f s.
Definition sql_fail {A} (e : SqlError) : Tx S F A := fun _ => Failed e.
Definition panic {A} (msg : string) : Tx S F A := fun _ => Panicked msg.

(** [debug_assert!(b)]. *)
Definition debug_assert (b : bool) (msg : string) : Tx S F unit :=
  if b then ret tt else panic msg.

(** [i32::try_from(z).expect(msg)]. *)
Definition expect_i32 (z : Z) (msg : string) : Tx S F Z :=
  if (- 2 ^ 31 <=? z) && (z <? 2 ^ 31) then ret z else panic msg.

(** A guard with an early return. *)
Definition refuse_if (b : bool) (f : F) : Tx S F unit :=
  if b then refuse f else ret tt.

(** [let Some(x) = o else { return refusal }]. *)
Definition or_refuse {A} (o : option A) (f : F) : Tx S F A :=
  match o with Some a => ret a | None => refuse f end.

(** [fetch_one]: no row is an error, not a refusal. *)
Definition or_fail {A} (o : option A) (e : SqlError) : Tx S F A :=
  match o with Some a => ret a | None => sql_fail e end.

(** The caller receives the inner [Result] instead of returning it. *)
Definition attempt {A} (m : Tx S F A) : Tx S F (A + F) :=
  fun s =>
    match m s with
    | Done a s' => Done (inl a) s'
    | Refused f s' => Done (inr f) s'
    | Failed e => Failed e
    | Panicked msg => Panicked msg
    end.

(** A [for] loop whose body may return early. *)
Fixpoint for_each {A} (l : list A) (body : A -> Tx S F unit) : Tx S F unit :=
  match l with
  | [] => ret tt
  | x :: l' => bind (body x) (fun _ => for_each l' body)
  end.

(** A loop that pushes one value per element. *)
Fixpoint map_each {A B} (l : list A) (body : A -> Tx S F B) : Tx S F (list B) :=
  match l with
  | [] => ret []
  | x :: l' =>
      bind (body x) (fun b => bind (map_each l' body) (fun bs => ret (b :: bs)))
  end.
End Monad.

Declare Scope tx_scope.
Delimit Scope tx_scope with tx.
Notation "'let*' x ':=' m 'in' k" := (bind m (fun x => k))
  (at level 10, x name, m at level 100, k at level 200,
   format "'let*'  x  ':='  m  'in' '//' k") : tx_scope.
Notation "'do*' m 'in' k" := (bind m (fun _ => k))
  (at level 10, m at level 100, k at level 200,
   format "'do*'  m  'in' '//' k") : tx_scope.
#[global] Open Scope tx_scope.

(** ** Weakest preconditions of transactions

    [wp m Q R s]: run from [s], [m] never panics, a normal end satisfies [Q],
    a refusal satisfies [R].  A database error leaves no state behind (the
    transaction is rolled back), so nothing is claimed of it. *)

Section Wp.
Context {S F : Type}.

Definition wp {A} (m : Tx S F A) (Q : A -> S -> Prop) (R : F -> S -> Prop) (s : S) : Prop :=
  match m s with
  | Done a s' => Q a s'
  | Refused f s' => R f s'
  | Failed _ => True
  | Panicked _ => False
  end.

Lemma wp_mono {A} (m : Tx S F A) (Q Q' : A -> S -> Prop) (R R' : F -> S -> Prop) s :
  wp m Q' R' s -> (forall a s', Q' a s' -> Q a s') -> (forall f s', R' f s' -> R f s') ->
  wp m Q R s.
Proof. unfold wp. destruct (m s); auto. Qed.

Lemma wp_ret {A} (a : A) (Q : A -> S -> Prop) (R : F -> S -> Prop) s :
  Q a s -> wp (ret a) Q R s.
Proof. exact id. Qed.

Lemma wp_bind {A B} (m : Tx S F A) (k : A -> Tx S F B) Q (R : F -> S -> Prop) s :
  wp m (fun a s' => wp (k a) Q R s') R s -> wp (bind m k) Q R s.
Proof. unfold wp, bind. destruct (m s); auto. Qed.

Lemma wp_gets {A} (q : S -> A) (Q : A -> S -> Prop) (R : F -> S -> Prop) s :
  Q (q s) s -> wp (gets q) Q R s.
Proof. exact id. Qed.

Lemma wp_modify (q : S -> S) (Q : unit -> S -> Prop) (R : F -> S -> Prop) s :
  Q tt (q s) -> wp (modify q) Q R s.
Proof. exact id. Qed.

Lemma wp_refuse {A} (f : F) (Q : A -> S -> Prop) (R : F -> S -> Prop) s :
  R f s -> wp (refuse f) Q R s.
Proof. exact id. Qed.

Lemma wp_sql_fail {A} e (Q : A -> S -> Prop) (R : F -> S -> Prop) s : wp (sql_fail e) Q R s.
Proof. exact I. Qed.

Lemma wp_refuse_if (b : bool) (f : F) (Q : unit -> S -> Prop) (R : F -> S -> Prop) s :
  (b = true -> R f s) -> (b = false -> Q tt s) -> wp (refuse_if b f) Q R s.
Proof. unfold wp, refuse_if. destruct b; cbn; auto. Qed.

Lemma wp_or_refuse {A} (o : option A) (f : F) (Q : A -> S -> Prop) (R : F -> S -> Prop) s :
  (o = None -> R f s) -> (forall a, o = Some a -> Q a s) -> wp (or_refuse o f) Q R s.
Proof. unfold wp. destruct o; cbn; auto. Qed.

Lemma wp_or_fail {A} (o : option A) e (Q : A -> S -> Prop) (R : F -> S -> Prop) s :
  (forall a, o = Some a -> Q a s) -> wp (or_fail o e) Q R s.
Proof. unfold wp. destruct o; cbn; auto. Qed.

Lemma wp_debug_assert (b : bool) msg (Q : unit -> S -> Prop) (R : F -> S -> Prop) s :
  b = true -> Q tt s -> wp (debug_assert b msg) Q R s.
Proof. intros -> HQ. exact HQ. Qed.

Lemma wp_expect_i32 z msg (Q : Z -> S -> Prop) (R : F -> S -> Prop) s :
  - 2 ^ 31 <= z < 2 ^ 31 -> Q z s -> wp (expect_i32 z msg) Q R s.
Proof.
  intros Hz HQ. unfold wp, expect_i32.
  destruct (_ && _) eqn:E; [exact HQ|].
  apply andb_false_iff in E. rewrite Z.leb_gt, Z.ltb_ge in E. lia.
Qed.

Lemma wp_attempt {A} (m : Tx S F A) (Q : A + F -> S -> Prop) (R : F -> S -> Prop) s :
  wp m (fun a => Q (inl a)) (fun f => Q (inr f)) s -> wp (attempt m) Q R s.
Proof. unfold wp, attempt. destruct (m s); auto. Qed.

(** The loop rule: [I] speaks of the elements still to come. *)
Lemma wp_for_each {A} (I : list A -> S -> Prop) (R : F -> S -> Prop) (l : list A) body s :
  I l s ->
  (forall x l' s', I (x :: l') s' -> wp (body x) (fun _ => I l') R s') ->
  wp (for_each l body) (fun _ => I []) R s.
Proof.
  intros HI Hbody. revert s HI. induction l as [|x l IH]; cbn [for_each]; intros s HI.
  - by apply wp_ret.
  - apply wp_bind. eapply wp_mono; [apply Hbody, HI| |auto]. intros [] s'. apply IH.
Qed.

Lemma wp_map_each {A B} (I : list A -> list B -> S -> Prop) (R : F -> S -> Prop) (l : list A)
    (body : A -> Tx S F B) done s :
  I l done s ->
  (forall x l' done' s', I (x :: l') done' s' ->
     wp (body x) (fun b => I l' (done' ++ [b])) R s') ->
  wp (map_each l body) (fun bs => I [] (done ++ bs)) R s.
Proof.
  intros HI Hbody. revert done s HI. induction l as [|x l IH]; cbn [map_each]; intros done s HI.
  - apply wp_ret. by rewrite app_nil_r.
  - apply wp_bind. eapply wp_mono; [apply Hbody, HI| |auto]. intros b s' Hs'. cbn beta in Hs'.
    apply wp_bind. eapply wp_mono; [apply (IH _ _ Hs')| |auto]. intros bs s'' H''.
    apply wp_ret. cbn beta in H''. by rewrite <- app_assoc in H''.
Qed.

(** Two claims of one run. *)
Lemma wp_and {A} (m : Tx S F A) (Q1 Q2 : A -> S -> Prop) (R1 R2 : F -> S -> Prop) s :
  wp m Q1 R1 s -> wp m Q2 R2 s ->
  wp m (fun a s' => Q1 a s' /\ Q2 a s') (fun f s' => R1 f s' /\ R2 f s') s.
Proof. unfold wp. destruct (m s); auto. Qed.

Lemma wp_Done {A} (m : Tx S F A) Q R s a s' : wp m Q R s -> m s = Done a s' -> Q a s'.
Proof. unfold wp. intros Hw E. by rewrite E in Hw. Qed.

Lemma wp_Refused {A} (m : Tx S F A) Q R s f s' : wp m Q R s -> m s = Refused f s' -> R f s'.
Proof. unfold wp. intros Hw E. by rewrite E in Hw. Qed.

Lemma wp_no_panic {A} (m : Tx S F A) Q R s msg : wp m Q R s -> m s <> Panicked msg.
Proof. unfold wp. intros Hw E. by rewrite E in Hw. Qed.

(** What a normal end alone shows joins a claim. *)
Lemma wp_Done_and {A} (m : Tx S F A) (Q Q' : A -> S -> Prop) (R : F -> S -> Prop) s :
  wp m Q R s -> (forall a s', m s = Done a s' -> Q' a s') ->
  wp m (fun a s' => Q a s' /\ Q' a s') R s.
Proof. unfold wp. intros Hw Hd. destruct (m s); auto. Qed.

(** [I] is kept on every branch that ends with a state. *)
Definition preserves {A} (I : S -> Prop) (m : Tx S F A) : Prop :=
  forall s, I s -> wp m (fun _ => I) (fun _ => I) s.

Lemma bind_Done {A B} (m : Tx S F A) (k : A -> Tx S F B) s b s' :
  bind m k s = Done b s' <-> exists a s1, m s = Done a s1 /\ k a s1 = Done b s'.
Proof.
  unfold bind. destruct (m s); split; intros H; try discriminate;
    try (destruct H as (? & ? & ? & ?); congruence); eauto.
Qed.
End Wp.

(** ** Automation *)

Create HintDb tx.

(** Facts about booleans are read as propositions. *)
Ltac reflect_bools :=
  repeat match goal with
  | H : negb _ = true |- _ => apply negb_true_iff in H
  | H : negb _ = false |- _ => apply negb_false_iff in H
  | H : _ && _ = true |- _ => apply andb_true_iff in H as [? ?]
  | H : _ || _ = false |- _ => apply orb_false_iff in H as [? ?]
  | H : bool_decide _ = true |- _ => apply bool_decide_eq_true in H
  | H : bool_decide _ = false |- _ => apply bool_decide_eq_false in H
  | H : (_ <? _) = true |- _ => apply Z.ltb_lt in H
  | H : (_ <? _) = false |- _ => apply Z.ltb_ge in H
  | H : (_ <=? _) = true |- _ => apply Z.leb_le in H
  | H : (_ <=? _) = false |- _ => apply Z.leb_gt in H
  | H : (_ =? _) = true |- _ => apply Z.eqb_eq in H
  | H : (_ =? _) = false |- _ => apply Z.eqb_neq in H
  | H : (_ =? _)%string = true |- _ => apply String.eqb_eq in H
  | H : (_ =? _)%string = false |- _ => apply String.eqb_neq in H
  | H : N.eqb _ _ = true |- _ => apply N.eqb_eq in H
  | H : N.eqb _ _ = false |- _ => apply N.eqb_neq in H
  end.

(** ** Sums over finite maps *)

Section MapSum.
Context {K V : Type} `{!EqDecision K, !Countable K}.

Definition map_sum (f : K -> V -> Z) (m : gmap K V) : Z :=
  map_fold (fun k v acc => f k v + acc) 0 m.

Lemma map_sum_empty f : map_sum f ∅ = 0.
Proof. apply map_fold_empty. Qed.

Lemma map_sum_insert f (m : gmap K V) k v :
  m !! k = None -> map_sum f (<[k:=v]> m) = f k v + map_sum f m.
Proof.
  intros Hk. unfold map_sum.
  rewrite map_fold_insert_L; [done| |done]. intros; lia.
Qed.

Lemma map_sum_delete f (m : gmap K V) k v :
  m !! k = Some v -> map_sum f m = f k v + map_sum f (delete k m).
Proof.
  intros Hk. rewrite <- (insert_delete_id m k v Hk) at 1.
  by rewrite map_sum_insert by apply lookup_delete_eq.
Qed.

Lemma map_sum_update f (m : gmap K V) k v v' :
  m !! k = Some v -> map_sum f (<[k:=v']> m) = map_sum f m - f k v + f k v'.
Proof.
  intros Hk. rewrite (map_sum_delete f m k v Hk).
  rewrite <- (insert_delete_eq m k v').
  rewrite map_sum_insert by apply lookup_delete_eq. lia.
Qed.

(** Whether or not there was a row. *)
Lemma map_sum_put f (m : gmap K V) k v :
  map_sum f (<[k:=v]> m) = map_sum f m - from_option (f k) 0 (m !! k) + f k v.
Proof.
  destruct (m !! k) as [v0|] eqn:Hk; simpl.
  - by apply map_sum_update.
  - rewrite map_sum_insert by done. lia.
Qed.

Lemma map_sum_nonneg f (m : gmap K V) :
  (forall k v, m !! k = Some v -> 0 <= f k v) -> 0 <= map_sum f m.
Proof.
  induction m as [|k v m Hk IH] using map_ind; intros Hf.
  - rewrite map_sum_empty; lia.
  - rewrite map_sum_insert by done.
    pose proof (Hf k v (lookup_insert_eq _ _ _)).
    enough (0 <= map_sum f m) by lia.
    apply IH. intros k' v' Hk'. apply (Hf k' v').
    rewrite lookup_insert_ne; [done|congruence].
Qed.

Lemma map_sum_ge f (m : gmap K V) k v :
  (forall k v, m !! k = Some v -> 0 <= f k v) ->
  m !! k = Some v -> f k v <= map_sum f m.
Proof.
  intros Hf Hk. rewrite (map_sum_delete f m k v Hk).
  enough (0 <= map_sum f (delete k m)) by lia.
  apply map_sum_nonneg. intros k' v'. rewrite lookup_delete_Some. intros [_ Hk']. by apply Hf.
Qed.

Lemma map_sum_ext f g (m : gmap K V) :
  (forall k v, m !! k = Some v -> f k v = g k v) -> map_sum f m = map_sum g m.
Proof.
  induction m as [|k v m Hk IH] using map_ind; intros Hfg.
  - by rewrite !map_sum_empty.
  - rewrite !map_sum_insert by done.
    rewrite (Hfg k v) by apply lookup_insert_eq. f_equal. apply IH.
    intros k' v' Hk'. apply Hfg. rewrite lookup_insert_ne; [done|congruence].
Qed.

Lemma map_sum_fmap (f : K -> V -> Z) (g : V -> V) (m : gmap K V) :
  map_sum f (g <$> m) = map_sum (fun k v => f k (g v)) m.
Proof.
  induction m as [|k v m Hk IH] using map_ind; [done|].
  rewrite fmap_insert, !map_sum_insert; [by rewrite IH|done|]. by rewrite lookup_fmap, Hk.
Qed.

Lemma map_sum_add f g (m : gmap K V) :
  map_sum (fun k v => f k v + g k v) m = map_sum f m + map_sum g m.
Proof.
  induction m as [|k v m Hk IH] using map_ind; [done|].
  rewrite !map_sum_insert by done. lia.
Qed.

Lemma map_sum_zero (m : gmap K V) : map_sum (fun _ _ => 0) m = 0.
Proof.
  induction m as [|k v m Hk IH] using map_ind; [done|]. by rewrite map_sum_insert, IH.
Qed.
End MapSum.

(** Sum of a list of integers. *)
Definition sum_list (l : list Z) : Z := foldr Z.add 0 l.

Lemma sum_list_app l1 l2 : sum_list (l1 ++ l2) = sum_list l1 + sum_list l2.
Proof. induction l1 as [|x l1 IH]; [done|]. unfold sum_list in *. cbn [app foldr]. lia. Qed.

Lemma sum_list_nonneg l : Forall (fun x => 0 <= x) l -> 0 <= sum_list l.
Proof. unfold sum_list. induction 1; cbn [foldr]; lia. Qed.
