(* ===== verification/StateMachines.v ===== *)
(** * The canonical state machines ([crates/domain/src/state_machines.rs])

    One table per aggregate, with the states, the initial state, the
    transitions with their triggers, the accepted commands and the states
    declared unreachable; [can_transition] is the query the handlers ask.
    The theorems relate the tables to the graph they describe: which states a
    path from the initial state reaches, and which states are terminal. *)

From S2P Require Import Prelude.

Module Machines.

Inductive Via :=
| Command (name : string)
| Server (name : string).

#[export] Instance Via_eq_dec : EqDecision Via.
Proof. solve_decision. Defined.

Record Transition := mkTransition {
  from : string;
  to : string;
  via : list Via;
}.

Record AggregateMachine := mkMachine {
  aggregate : string;
  states : list string;
  initial : string;
  transitions : list Transition;
  commands : list string;
  unreachable_states : list string;
}.

Definition t (from to : string) (via : list Via) : Transition :=
  mkTransition from to via.

Definition listing_machine : AggregateMachine := {|
  aggregate := "listing";
  states :=
    ["available"; "reserved"; "sold"];
  initial := "available";
  transitions := [
    t "available" "reserved"
      [Command "inventory.reserve";
       Command "checkout.create";
       Command "offer.accept";
       Command "auction.close"];
    t "reserved" "available"
      [Server "reservation_expiry";
       Command "order.cancel_request";
       Command "order.cancel_approve"];
    t "reserved" "sold" [Command "payment.sandbox_advance"; Server "payment_confirmation"];
    t "sold" "available" [Command "order.cancel_approve"; Command "order.cancel_request"]
  ];
  commands :=
    ["listing.register"; "listing.sync"; "inventory.reserve"; "checkout.create";
     "offer.accept"; "auction.close"];
  unreachable_states := []
|}.

Definition reservation_machine : AggregateMachine := {|
  aggregate := "reservation";
  states :=
    ["active"; "converted"; "released"; "expired"];
  initial := "active";
  transitions := [
    t "active" "expired" [Server "reservation_expiry"];
    t "active" "released" [Command "order.cancel_request"; Command "order.cancel_approve"];
    t "active" "converted"
      [Command "payment.sandbox_advance";
       Server "payment_confirmation"]
  ];
  commands :=
    ["inventory.reserve"];
  unreachable_states := []
|}.

Definition offer_machine : AggregateMachine := {|
  aggregate := "offer";
  states :=
    ["pending"; "countered"; "accepted"; "converted"; "rejected"; "withdrawn"; "expired"];
  initial := "pending";
  transitions := [
    t "pending" "countered" [Command "offer.counter"];
    t "pending" "accepted" [Command "offer.accept"];
    t "pending" "rejected" [Command "offer.reject"];
    t "pending" "withdrawn" [Command "offer.withdraw"];
    t "pending" "expired" [Server "offer_expiry"];
    t "countered" "countered" [Command "offer.counter"];
    t "countered" "accepted" [Command "offer.accept"];
    t "countered" "rejected" [Command "offer.reject"];
    t "countered" "withdrawn" [Command "offer.withdraw"];
    t "countered" "expired" [Server "offer_expiry"];
    t "accepted" "converted" [Command "offer.checkout"];
    t "accepted" "expired" [Server "award_expiry"]
  ];
  commands :=
    ["offer.create"; "offer.counter"; "offer.accept"; "offer.reject"; "offer.withdraw";
     "offer.checkout"];
  unreachable_states := []
|}.

Definition auction_machine : AggregateMachine := {|
  aggregate := "auction";
  states :=
    ["scheduled"; "active"; "sold"; "unsold"; "cancelled"];
  initial := "scheduled";
  transitions := [
    t "scheduled" "active" [Server "auction_start"];
    t "active" "sold" [Command "auction.close"; Server "auction_close"];
    t "active" "unsold" [Command "auction.close"; Server "auction_close"]
  ];
  commands :=
    ["listing.register"; "auction.place_bid"; "auction.close"];
  unreachable_states := ["cancelled"]
|}.

Definition order_machine : AggregateMachine := {|
  aggregate := "order";
  states :=
    ["pending_payment"; "paid"; "ready_for_pickup"; "processing"; "shipped"; "delivered";
     "completed"; "cancel_requested"; "cancelled"; "return_requested"; "return_approved";
     "return_received"; "refunded_external"; "closed"];
  initial := "pending_payment";
  transitions := [
    t "pending_payment" "paid"
      [Command "payment.sandbox_advance";
       Server "payment_confirmation"];
    t "pending_payment" "cancelled"
      [Command "order.cancel_request";
       Server "payment_window"];
    t "paid" "shipped" [Command "fulfillment.ship"];
    t "paid" "ready_for_pickup" [Command "fulfillment.mark_ready"];
    t "paid" "delivered"
      [Command "fulfillment.confirm_pickup";
       Command "fulfillment.deliver_digital";
       Server "digital_delivery"];
    t "ready_for_pickup" "delivered" [Command "fulfillment.confirm_pickup"];
    t "ready_for_pickup" "cancel_requested" [Command "order.cancel_request"];
    t "paid" "cancelled" [Command "order.cancel_request"];
    t "ready_for_pickup" "cancelled" [Command "order.cancel_request"];
    t "paid" "cancel_requested" [Command "order.cancel_request"];
    t "processing" "shipped" [Command "fulfillment.ship"];
    t "processing" "cancel_requested" [Command "order.cancel_request"];
    t "cancel_requested" "cancelled" [Command "order.cancel_approve"];
    t "shipped" "delivered"
      [Command "fulfillment.confirm_delivery";
       Server "delivery_assume"];
    t "delivered" "return_requested" [Command "return.request"];
    t "delivered" "completed" [Command "review.create"; Server "order_auto_complete"];
    t "completed" "return_requested" [Command "return.request"];
    t "return_requested" "return_approved" [Command "return.approve"];
    t "return_approved" "return_received" [Command "return.receive"];
    t "return_received" "refunded_external"
      [Command "refund.record_external";
       Server "paypal_refund"];
    t "cancelled" "refunded_external"
      [Command "refund.record_external";
       Server "paypal_refund"];
    t "paid" "refunded_external" [Server "paypal_refund"];
    t "ready_for_pickup" "refunded_external" [Server "paypal_refund"];
    t "shipped" "refunded_external" [Server "paypal_refund"];
    t "delivered" "refunded_external"
      [Command "refund.record_external";
       Server "paypal_refund"];
    t "completed" "refunded_external"
      [Command "refund.record_external";
       Server "paypal_refund"];
    t "cancel_requested" "refunded_external" [Server "paypal_refund"];
    t "return_requested" "refunded_external" [Server "paypal_refund"];
    t "return_approved" "refunded_external" [Server "paypal_refund"];
    t "refunded_external" "paid" [Server "paypal_reversal_cancelled"];
    t "refunded_external" "ready_for_pickup" [Server "paypal_reversal_cancelled"];
    t "refunded_external" "shipped" [Server "paypal_reversal_cancelled"];
    t "refunded_external" "delivered" [Server "paypal_reversal_cancelled"];
    t "refunded_external" "completed" [Server "paypal_reversal_cancelled"];
    t "refunded_external" "cancel_requested" [Server "paypal_reversal_cancelled"];
    t "refunded_external" "cancelled" [Server "paypal_reversal_cancelled"];
    t "refunded_external" "return_requested" [Server "paypal_reversal_cancelled"];
    t "refunded_external" "return_approved" [Server "paypal_reversal_cancelled"];
    t "refunded_external" "return_received" [Server "paypal_reversal_cancelled"];
    t "cancelled" "paid" [Server "paykit_resolution"; Server "late_completion"]
  ];
  commands :=
    ["checkout.create"; "payment.sandbox_advance"; "order.cancel_request";
     "order.cancel_approve"; "fulfillment.ship"; "fulfillment.confirm_delivery";
     "fulfillment.mark_ready"; "fulfillment.confirm_pickup";
     "fulfillment.deliver_digital"; "order.set_delivery_email"; "return.request";
     "return.approve"; "return.receive"; "refund.record_external"; "review.create";
     "review.update"];
  unreachable_states := ["processing"; "closed"]
|}.

Definition return_machine : AggregateMachine := {|
  aggregate := "return";
  states :=
    ["requested"; "approved"; "received"; "refunded"];
  initial := "requested";
  transitions := [
    t "requested" "approved" [Command "return.approve"];
    t "approved" "received" [Command "return.receive"];
    t "received" "refunded" [Command "refund.record_external"; Server "paypal_refund"];
    t "requested" "refunded" [Server "paypal_refund"];
    t "approved" "refunded" [Server "paypal_refund"];
    t "refunded" "requested" [Server "paypal_reversal_cancelled"];
    t "refunded" "approved" [Server "paypal_reversal_cancelled"];
    t "refunded" "received" [Server "paypal_reversal_cancelled"]
  ];
  commands :=
    ["return.request"; "return.approve"; "return.receive"; "refund.record_external"];
  unreachable_states := []
|}.

Definition payment_machine : AggregateMachine := {|
  aggregate := "payment";
  states :=
    ["awaiting_entitlement"; "detected"; "confirmed"; "expired"; "manual_review"];
  initial := "awaiting_entitlement";
  transitions := [
    t "awaiting_entitlement" "detected" [Command "payment.sandbox_advance"];
    t "awaiting_entitlement" "confirmed"
      [Command "payment.sandbox_advance";
       Server "locks_verification";
       Server "late_completion"];
    t "awaiting_entitlement" "expired"
      [Command "payment.sandbox_advance";
       Command "order.cancel_request";
       Server "payment_window"];
    t "awaiting_entitlement" "manual_review"
      [Command "payment.sandbox_advance";
       Server "locks_verification";
       Server "late_completion"];
    t "detected" "confirmed" [Command "payment.sandbox_advance"];
    t "detected" "manual_review" [Command "payment.sandbox_advance"];
    t "expired" "manual_review" [Server "locks_late_completion"; Server "late_completion"];
    t "expired" "confirmed" [Server "late_completion"];
    t "manual_review" "confirmed" [Server "paykit_resolution"];
    t "manual_review" "expired" [Server "paykit_resolution"]
  ];
  commands :=
    ["payment.sandbox_advance"; "payment.prepare_locks"; "payment.register_locks"];
  unreachable_states := []
|}.

Definition drop_machine : AggregateMachine := {|
  aggregate := "drop";
  states :=
    ["announced"; "live"; "ended_sold_out"; "ended_closed"; "ended_cancelled"];
  initial := "announced";
  transitions := [
    t "announced" "live"
      [Command "inventory.reserve";
       Command "checkout.create";
       Server "drop_start"];
    t "announced" "ended_closed" [Server "drop_end"];
    t "live" "ended_closed" [Server "drop_end"];
    t "live" "ended_sold_out"
      [Command "payment.sandbox_advance";
       Server "payment_confirmation"];
    t "announced" "ended_cancelled" [Command "drop.cancel"];
    t "live" "ended_cancelled" [Command "drop.cancel"]
  ];
  commands :=
    ["drop.sync"; "drop.cancel"; "drop.release_listings"; "inventory.reserve";
     "checkout.create"];
  unreachable_states := []
|}.

Definition all_machines : list AggregateMachine :=
  [listing_machine; reservation_machine; offer_machine; auction_machine;
   order_machine; payment_machine; return_machine; drop_machine].

Definition str_in (x : string) (l : list string) : bool := existsb (String.eqb x) l.

(** [can_transition]: staying in a declared state is always allowed. *)
Definition can_transition (machine : AggregateMachine) (f t : string) : bool :=
  if (f =? t)%string then str_in f (states machine)
  else existsb (fun tr => ((from tr =? f) && (to tr =? t))%string) (transitions machine).

(** ** The transition graph *)

Definition edge (m : AggregateMachine) (f t : string) : Prop :=
  exists tr, In tr (transitions m) /\ from tr = f /\ to tr = t.

Inductive reachable (m : AggregateMachine) : string -> Prop :=
| reachable_initial : reachable m (initial m)
| reachable_step f t : reachable m f -> edge m f t -> reachable m t.

Lemma str_in_spec x l : str_in x l = true <-> In x l.
Proof.
  unfold str_in. rewrite existsb_exists. split.
  - intros (y & Hy & Heq). apply String.eqb_eq in Heq. congruence.
  - intros Hx. exists x. split; [done|apply String.eqb_refl].
Qed.

(** [can_transition] is exactly: stay in a declared state, or take an edge. *)
Lemma can_transition_spec m f t :
  can_transition m f t = true <-> (f = t /\ In f (states m)) \/ (f <> t /\ edge m f t).
Proof.
  unfold can_transition, edge. destruct (String.eqb_spec f t) as [->|Hne].
  - rewrite str_in_spec. split; [auto|intros [[_ ?]|[? _]]; [done|congruence]].
  - rewrite existsb_exists. split.
    + intros (tr & Hin & Htr). apply andb_true_iff in Htr as [H1 H2].
      apply String.eqb_eq in H1, H2. right. eauto.
    + intros [[? _]|(_ & tr & Hin & <- & <-)]; [congruence|].
      exists tr. rewrite !String.eqb_refl. auto.
Qed.

(** The transition is declared under this trigger. *)
Definition declared (m : AggregateMachine) (f t : string) (v : Via) : bool :=
  existsb (fun tr => (from tr =? f)%string && (to tr =? t)%string &&
                     bool_decide (v ∈ via tr)) (transitions m).

(** One breadth-first round: add the states one edge away from [seen]. *)
Definition grow (m : AggregateMachine) (seen : list string) : list string :=
  seen ++ filter (fun s =>
    Is_true (negb (str_in s seen) &&
      existsb (fun tr => str_in (from tr) seen && (to tr =? s)%string) (transitions m)))
    (states m).

Fixpoint closure (m : AggregateMachine) (fuel : nat) : list string :=
  match fuel with
  | O => [initial m]
  | S fuel => grow m (closure m fuel)
  end.

(** As many rounds as there are states reach everything reachable. *)
Definition reach_set (m : AggregateMachine) : list string :=
  closure m (length (states m)).

Definition closed_under (m : AggregateMachine) (l : list string) : bool :=
  str_in (initial m) l &&
  forallb (fun tr => implb (str_in (from tr) l) (str_in (to tr) l)) (transitions m).

Lemma closure_sound m fuel s : In s (closure m fuel) -> reachable m s.
Proof.
  revert s. induction fuel as [|fuel IH]; cbn [closure]; intros s.
  - intros [<-|[]]. constructor.
  - unfold grow. rewrite in_app_iff. intros [Hs|Hs]; [auto|].
    apply list_elem_of_In, list_elem_of_filter in Hs as [Hs _].
    apply Is_true_true, andb_true_iff in Hs as [_ Hs].
    apply existsb_exists in Hs as (tr & Hin & Htr).
    apply andb_true_iff in Htr as [Hf Ht].
    apply str_in_spec in Hf. apply String.eqb_eq in Ht as <-.
    eapply reachable_step; [apply IH, Hf|]. exists tr. auto.
Qed.

Lemma closed_complete m l s :
  closed_under m l = true -> reachable m s -> In s l.
Proof.
  unfold closed_under. rewrite andb_true_iff, forallb_forall, str_in_spec.
  intros [Hi Hcl]. induction 1 as [|f t Hf IH (tr & Hin & <- & <-)]; [done|].
  specialize (Hcl tr Hin). apply str_in_spec in IH. rewrite IH in Hcl.
  by apply str_in_spec.
Qed.

Lemma reach_set_spec m s :
  closed_under m (reach_set m) = true -> (reachable m s <-> In s (reach_set m)).
Proof. intros Hcl. split; [by apply closed_complete|apply closure_sound]. Qed.

(** Boolean form of the reachability contract of one machine. *)
Definition reach_contract (m : AggregateMachine) : bool :=
  closed_under m (reach_set m) &&
  forallb (fun s => str_in s (states m) && negb (str_in s (unreachable_states m)))
    (reach_set m) &&
  forallb (fun s => str_in s (unreachable_states m) || str_in s (reach_set m)) (states m).

Lemma reach_contract_sound m s :
  reach_contract m = true ->
  (reachable m s <-> In s (states m) /\ ~ In s (unreachable_states m)).
Proof.
  unfold reach_contract. rewrite !andb_true_iff, !forallb_forall.
  intros [[Hcl Hsub] Hsup]. rewrite reach_set_spec by done. split.
  - intros Hs. specialize (Hsub s Hs).
    rewrite andb_true_iff, negb_true_iff, str_in_spec in Hsub.
    destruct Hsub as [? Hn]. split; [done|]. rewrite <- str_in_spec. congruence.
  - intros [Hs Hn]. specialize (Hsup s Hs).
    rewrite orb_true_iff, !str_in_spec in Hsup. tauto.
Qed.

(** In every machine, the states a path from the initial state can reach
    are exactly the declared states that are not listed as unreachable. *)
Theorem reachable_states_exact m s :
  In m all_machines ->
  (reachable m s <-> In s (states m) /\ ~ In s (unreachable_states m)).
Proof.
  intros Hm. apply reach_contract_sound.
  assert (Hall : forallb reach_contract all_machines = true) by (vm_compute; reflexivity).
  rewrite forallb_forall in Hall. auto.
Qed.

Lemma reachable_states_exact_witness :
  In order_machine all_machines /\
  (reachable order_machine "return_received" <->
   In "return_received" (states order_machine) /\
   ~ In "return_received" (unreachable_states order_machine)).
Proof.
  assert (H : In order_machine all_machines) by (cbn; tauto).
  split; [exact H|exact (reachable_states_exact order_machine "return_received" H)].
Defined.

(** The states with no edge out of them. *)
Definition terminal (m : AggregateMachine) (s : string) : bool :=
  forallb (fun tr => negb (from tr =? s)%string) (transitions m).

Lemma terminal_stays m s s' :
  terminal m s = true -> can_transition m s s' = true -> s' = s.
Proof.
  unfold terminal. rewrite forallb_forall, can_transition_spec.
  intros Hterm [[-> _]|(_ & tr & Hin & <- & <-)]; [done|].
  specialize (Hterm tr Hin). by rewrite String.eqb_refl in Hterm.
Qed.

(** The aggregate states nothing leaves: a confirmed payment is never
    un-paid, an ended drop never reopens, a settled reservation stays
    settled, a closed auction stays closed. *)
Definition settled_states : list (AggregateMachine * string) :=
  [(payment_machine, "confirmed");
   (drop_machine, "ended_sold_out"); (drop_machine, "ended_closed");
   (drop_machine, "ended_cancelled");
   (reservation_machine, "converted"); (reservation_machine, "released");
   (reservation_machine, "expired");
   (auction_machine, "sold"); (auction_machine, "unsold");
   (offer_machine, "converted"); (offer_machine, "rejected");
   (offer_machine, "withdrawn"); (offer_machine, "expired")].

(** A settled state admits no transition to another state: confirmed
    payments, ended drops, settled reservations, closed auctions and closed
    offers are final. *)
Theorem settled_states_are_final m s s' :
  In (m, s) settled_states -> can_transition m s s' = true -> s' = s.
Proof.
  intros Hin. apply terminal_stays.
  assert (Hall : forallb (fun ms => terminal (fst ms) (snd ms)) settled_states = true)
    by (vm_compute; reflexivity).
  rewrite forallb_forall in Hall. exact (Hall _ Hin).
Qed.

Lemma settled_states_are_final_witness :
  In (payment_machine, "confirmed") settled_states /\
  can_transition payment_machine "confirmed" "confirmed" = true /\
  "confirmed" = "confirmed".
Proof.
  assert (H : In (payment_machine, "confirmed") settled_states) by (left; reflexivity).
  assert (H' : can_transition payment_machine "confirmed" "confirmed" = true)
    by (vm_compute; reflexivity).
  split; [exact H|split; [exact H'|]].
  exact (settled_states_are_final payment_machine "confirmed" "confirmed" H H').
Defined.

End Machines.
