(* ===== verification/Domain.v ===== *)
(** * Domain vocabulary ([crates/domain/src])

    The wire error codes with their HTTP status ([error.rs]), money
    ([money.rs]), the fulfillment and digital-delivery enums of
    [commands.rs], and the aggregate ids ([ids.rs]).  The text form of a UUID
    and the random draws of [Uuid::new_v4] belong to the [uuid] crate: they
    are the fields of the class [UuidCrate]. *)

From S2P Require Import Prelude.

(** ** The [uuid] crate *)

(** What the service relies on: two different UUIDs print differently.  The
    [n]-th random draw is unconstrained; a repeated draw is a unique
    violation in the table it is inserted in. *)
Class UuidCrate := {
  uuid_text : Uuid -> string;
  uuid_text_inj : forall a b, uuid_text a = uuid_text b -> a = b;
  new_v4 : N -> Uuid;
}.

(** ** Error codes *)

Inductive ErrorCode :=
| InvalidCommand
| Unauthorized
| NotFound
| RevisionConflict
| IdempotencyConflict
| InsufficientInventory
| InvariantViolation
| OfferExpired
| InvalidState
| AuctionClosed
| BidTooLow
| SellerRegistrationRequired
| UpstreamUnavailable
| AwardExpired
| AwardAlreadyConverted
| AwardQuantityMismatch
| AwardVariantMismatch
| AwardListingChanged
| AwardHoldMissing.

#[export] Instance ErrorCode_eq_dec : EqDecision ErrorCode.
Proof. solve_decision. Defined.

Definition http_status (code : ErrorCode) : Z :=
  match code with
  | InvalidCommand => 422
  | Unauthorized => 403
  | NotFound => 404
  | RevisionConflict | IdempotencyConflict | InsufficientInventory
  | InvariantViolation | OfferExpired | InvalidState | AuctionClosed
  | BidTooLow | SellerRegistrationRequired => 409
  | AwardExpired | AwardAlreadyConverted | AwardQuantityMismatch
  | AwardVariantMismatch | AwardListingChanged | AwardHoldMissing => 409
  | UpstreamUnavailable => 503
  end.

(** ** Money *)

Definition MAX_SAFE_INTEGER : Z := 9007199254740991.

Record Money := mkMoney {
  amount_minor : Z;
  currency : string;
  exponent : Z;
}.

#[export] Instance Money_eq_dec : EqDecision Money.
Proof. solve_decision. Defined.

Definition with_amount (m : Money) (amount_minor : Z) : Money :=
  mkMoney amount_minor (currency m) (exponent m).

Definition same_asset (m other : Money) : bool :=
  ((currency m =? currency other)%string && (exponent m =? exponent other)).

(** ** Fulfillment and digital delivery *)

Inductive FulfillmentMethod := Shipping | Pickup | Digital.

#[export] Instance FulfillmentMethod_eq_dec : EqDecision FulfillmentMethod.
Proof. solve_decision. Defined.

Definition fulfillment_str (m : FulfillmentMethod) : string :=
  match m with Shipping => "shipping" | Pickup => "pickup" | Digital => "digital" end.

Inductive DigitalDeliveryKind := DFile | DLink | DText | DEmail | DMessage.

#[export] Instance DigitalDeliveryKind_eq_dec : EqDecision DigitalDeliveryKind.
Proof. solve_decision. Defined.

Definition digital_kind_str (k : DigitalDeliveryKind) : string :=
  match k with
  | DFile => "file" | DLink => "link" | DText => "text"
  | DEmail => "email" | DMessage => "message"
  end.

(** [DigitalDeliveryKind::parse]. *)
Definition digital_kind_parse (value : string) : option DigitalDeliveryKind :=
  (if value =? "file" then Some DFile
   else if value =? "link" then Some DLink
   else if value =? "text" then Some DText
   else if value =? "email" then Some DEmail
   else if value =? "message" then Some DMessage
   else None)%string.

(** [DigitalDeliveryKind::is_instant]. *)
Definition is_instant (k : DigitalDeliveryKind) : bool :=
  match k with DFile | DLink | DText => true | DEmail | DMessage => false end.

(** ** Delivery addresses *)

Record DeliveryAddress := mkDeliveryAddress {
  da_name : string;
  da_line1 : string;
  da_line2 : string;
  da_city : string;
  da_region : string;
  da_postal_code : string;
  da_country_code : string;
}.

(** ** Aggregate ids *)

Section Ids.
Context `{!UuidCrate}.

Definition listing_aggregate_id (seller_pubky listing_id : string) : string :=
  "listing:" +:+ seller_pubky +:+ "_" +:+ listing_id.

Definition drop_aggregate_id (seller_pubky drop_id : string) : string :=
  "drop:" +:+ seller_pubky +:+ "_" +:+ drop_id.

Definition checkout_aggregate_id (command_id : Uuid) : string :=
  "checkout:" +:+ uuid_text command_id.

Definition order_aggregate_id (order_id : Uuid) : string :=
  "order:" +:+ uuid_text order_id.

Definition payment_aggregate_id (payment_id : Uuid) : string :=
  "payment:" +:+ uuid_text payment_id.

Definition offer_aggregate_id (offer_id : Uuid) : string :=
  "offer:" +:+ uuid_text offer_id.

Definition seller_settings_aggregate_id (seller_pubky : string) : string :=
  "seller_settings:" +:+ seller_pubky.

Lemma order_aggregate_id_inj a b :
  order_aggregate_id a = order_aggregate_id b -> a = b.
Proof. intros Heq. apply uuid_text_inj. by apply (inj (String.append "order:")) in Heq. Qed.

Lemma payment_aggregate_id_inj a b :
  payment_aggregate_id a = payment_aggregate_id b -> a = b.
Proof. intros Heq. apply uuid_text_inj. by apply (inj (String.append "payment:")) in Heq. Qed.
End Ids.
