(* ===== verification/Json.v ===== *)
(** * JSON values ([serde_json::Value])

    The values the service reads out of seller records, with the accessors it
    uses.  An integer is kept exactly; a number that is not an integer of 64
    bits has no integer reading. *)

From S2P Require Import Prelude.

Inductive Json :=
| JNull
| JBool (b : bool)
| JInt (z : Z)
| JFloat
| JString (s : string)
| JArray (l : list Json)
| JObject (fields : list (string * Json)).

(** [serde_json::to_vec] and [serde_json::from_slice], and chrono's reading of
    a timestamp. *)
Class JsonText := {
  to_vec : Json -> string;
  from_slice : string -> option Json;
  parse_datetime : string -> option Time;
}.

(** Induction through arrays and objects. *)
Lemma Json_nested_ind (P : Json -> Prop) :
  P JNull -> (forall b, P (JBool b)) -> (forall z, P (JInt z)) -> P JFloat ->
  (forall s, P (JString s)) ->
  (forall l, (forall v, In v l -> P v) -> P (JArray l)) ->
  (forall fields, (forall k v, In (k, v) fields -> P v) -> P (JObject fields)) ->
  forall v, P v.
Proof.
  intros Hn Hb Hi Hf Hs Ha Ho. fix IH 1. intros [|b|z| |s|l|fields];
    [exact Hn|exact (Hb b)|exact (Hi z)|exact Hf|exact (Hs s)| |].
  - apply Ha. induction l as [|v l IHl]; [intros ? []|]. intros w [<-|Hw]; [apply IH|by apply IHl].
  - apply Ho. induction fields as [|[k v] fields IHl]; [intros ? ? []|].
    intros k' w [[= <- <-]|Hw]; [apply IH|by eapply IHl].
Qed.

(** The lookup of a key. *)
Definition field (key : string) (fields : list (string * Json)) : option Json :=
  snd <$> find (fun kv => fst kv =? key)%string fields.

Definition as_object (v : Json) : option (list (string * Json)) :=
  match v with JObject fields => Some fields | _ => None end.

Definition as_array (v : Json) : option (list Json) :=
  match v with JArray l => Some l | _ => None end.

Definition as_str (v : Json) : option string :=
  match v with JString s => Some s | _ => None end.

Definition as_bool (v : Json) : option bool :=
  match v with JBool b => Some b | _ => None end.

Definition as_i64 (v : Json) : option Z :=
  match v with JInt z => if in_i64 z then Some z else None | _ => None end.

(** [Value::get]: an object's field, nothing of another value. *)
Definition get (key : string) (v : Json) : option Json := as_object v ≫= field key.

(** [Option::filter]. *)
Definition keep {A} (p : A -> bool) (o : option A) : option A :=
  o ≫= fun a => if p a then Some a else None.

(** ** Structs

    [serde] reads a struct from an object by name and from an array by
    position; an absent field is an error unless it has a default. *)

Abbreviation Read A := (Json -> option A).

(** The fields of a struct with these names. *)
Definition struct_fields (names : list string) (v : Json) : option (list (string * Json)) :=
  match v with
  | JObject fields => Some fields
  | JArray l => if (length l <=? length names)%nat then Some (zip names l) else None
  | _ => None
  end.

Section Fields.
Context {A : Type} (fields : list (string * Json)) (name : string) (read : Read A).

Definition required : option A := field name fields ≫= read.

Definition defaulted (otherwise : A) : option A :=
  match field name fields with Some v => read v | None => Some otherwise end.

(** An [Option] with a default: absent and null are [None]. *)
Definition optional : option (option A) :=
  match field name fields with
  | None | Some JNull => Some None
  | Some v => Some <$> read v
  end.
End Fields.

Definition read_vec {A} (read : Read A) : Read (list A) := fun v => as_array v ≫= mapM read.

(** ** Results *)

Definition ok_or {A E} (o : option A) (e : E) : A + E :=
  match o with Some a => inl a | None => inr e end.

Definition and_then {A B E} (r : A + E) (f : A -> B + E) : B + E :=
  match r with inl a => f a | inr e => inr e end.

Notation "'let?' x ':=' r 'in' k" := (and_then r (fun x => k))
  (at level 10, x name, r at level 100, k at level 200,
   format "'let?'  x  ':='  r  'in' '//' k") : tx_scope.

(** [collect::<Result<Vec<_>, _>>]: the first error. *)
Fixpoint collect {A E} (l : list (A + E)) : list A + E :=
  match l with
  | [] => inl []
  | r :: rest => let? a := r in let? done := collect rest in inl (a :: done)
  end.

Lemma and_then_inl {A B E} (r : A + E) (f : A -> B + E) b :
  and_then r f = inl b <-> exists a, r = inl a /\ f a = inl b.
Proof. destruct r; cbn; split; [eauto|by intros (? & [= <-] & ?)|done|by intros (? & ? & ?)]. Qed.

Lemma ok_or_inl {A E} (o : option A) (e : E) a : ok_or o e = inl a <-> o = Some a.
Proof. destruct o; cbn; split; congruence. Qed.

Lemma collect_inl {A E} (l : list (A + E)) l' : collect l = inl l' <-> l = map inl l'.
Proof.
  revert l'. induction l as [|r l IH]; intros l'; cbn.
  - split; [by intros [= <-]|by destruct l'].
  - rewrite and_then_inl. split.
    + intros (a & -> & H). apply and_then_inl in H as (rest & Hr & [= <-]).
      apply IH in Hr as ->. done.
    + destruct l' as [|a rest]; [done|]. intros [= -> ->]. exists a. split; [done|].
      apply and_then_inl. exists rest. split; [by apply IH|done].
Qed.
