(* ===== verification/Seal.v ===== *)
(** * Sealing ([seal.rs], [rotating_keys.rs], [pickup.rs], [digital.rs])

    Every secret at rest is sealed with one construction: a random 24-byte
    nonce followed by the ciphertext, bound to its row by the associated
    data.  The cipher and the random generator are library code
    ([SealCrates]); the key window of a rotation is modelled.

    Handlers see keys through [SealKeys]: the two methods they call and the
    law they rely on. *)

From stdpp Require Import pretty.
From S2P Require Import Prelude Domain.

(** ** The interface *)

(** [n] is the index of the random draw the nonce comes from. *)
Record SealKeys := mkSealKeys {
  sk_seal : forall (n : N) (aad plaintext : string), string;
  sk_open : forall (aad sealed : string), option string;
}.

(** What was sealed opens again under the same associated data. *)
Class SealLaws (keys : SealKeys) : Prop :=
  open_seal n aad plaintext : sk_open keys aad (sk_seal keys n aad plaintext) = Some plaintext.

(** ** The construction *)

Definition XNONCE_LEN : nat := 24.
Definition KEY_LEN : nat := 32.

(** The [chacha20poly1305] and [rand] crates. *)
Class SealCrates := {
  encrypt : forall (key nonce aad plaintext : string), string;
  decrypt : forall (key nonce aad ciphertext : string), option string;
  fill_bytes : N -> string;
}.

(** Their documentation: decryption inverts encryption, a ciphertext carries
    a tag, the nonce buffer is filled. *)
Class SealCratesLaws `{SealCrates} : Prop := {
  decrypt_encrypt key nonce aad plaintext :
    decrypt key nonce aad (encrypt key nonce aad plaintext) = Some plaintext;
  encrypt_tag key nonce aad plaintext : encrypt key nonce aad plaintext <> "";
  fill_bytes_length n : String.length (fill_bytes n) = XNONCE_LEN;
}.

(** [slice::split_at]. *)
Fixpoint split_at (n : nat) (s : string) : string * string :=
  match n, s with
  | O, _ => ("", s)
  | S n', String c s' => let '(a, b) := split_at n' s' in (String c a, b)
  | S _, EmptyString => ("", "")
  end.

Section Seal.
Context `{!SealCrates}.

Definition seal (n : N) (key aad plaintext : string) : string :=
  let nonce := fill_bytes n in nonce +:+ encrypt key nonce aad plaintext.

Definition open (key aad sealed : string) : option string :=
  if (String.length sealed <=? XNONCE_LEN)%nat then None
  else
    let '(nonce, ciphertext) := split_at XNONCE_LEN sealed in
    decrypt key nonce aad ciphertext.

(** ** Rotating keys *)

Record RotatingKeys := mkRotatingKeys {
  rk_current : string;
  rk_previous : option string;
}.

Definition has_previous (k : RotatingKeys) : bool := bool_decide (is_Some (rk_previous k)).

Definition rk_seal (k : RotatingKeys) (n : N) (aad plaintext : string) : string :=
  seal n (rk_current k) aad plaintext.

(** The dual-key read window. *)
Definition rk_open (k : RotatingKeys) (aad sealed : string) : option string :=
  match open (rk_current k) aad sealed with
  | Some plaintext => Some plaintext
  | None =>
      match rk_previous k with
      | Some previous => open previous aad sealed
      | None => None
      end
  end.

Definition opens_under_current (k : RotatingKeys) (aad sealed : string) : bool :=
  bool_decide (is_Some (open (rk_current k) aad sealed)).

Definition open_under_previous (k : RotatingKeys) (aad sealed : string) : option string :=
  match rk_previous k with
  | Some previous => open previous aad sealed
  | None => None
  end.

(** A configured key pair, as the handlers see it. *)
Definition rotating (k : RotatingKeys) : SealKeys := mkSealKeys (rk_seal k) (rk_open k).
End Seal.

(** ** Associated data *)

(** [char::from(10)], the separator of the pickup families. *)
Definition newline : string := String (Ascii.ascii_of_nat 10) "".

(** [Uuid::as_bytes]: sixteen bytes, most significant first. *)
Fixpoint be_bytes (k : nat) (n : N) : string :=
  match k with
  | O => ""
  | S k' => be_bytes k' (n / 256) +:+ String (Ascii.ascii_of_N (n mod 256)) ""
  end.

Definition uuid_bytes (id : Uuid) : string := be_bytes 16 id.

Definition details_aad (aggregate_id : string) (version : Z) : string :=
  aggregate_id +:+ newline +:+ pretty version.

Definition snapshot_aad (order_id : Uuid) (line_index : nat) (version : Z) : string :=
  uuid_bytes order_id +:+ newline +:+ pretty line_index +:+ newline +:+ pretty version.

Definition version_aad (listing_aggregate_id deliverable_id : string) (version : Z)
    (kind : DigitalDeliveryKind) : string :=
  "digital-version/v1|" +:+ listing_aggregate_id +:+ "|" +:+ deliverable_id +:+ "|" +:+
  pretty version +:+ "|" +:+ digital_kind_str kind.

Section Aads.
Context `{!UuidCrate}.

Definition pin_aad (order_id : Uuid) (line_index : nat) (listing_aggregate_id deliverable_id : string)
    (version : Z) : string :=
  "digital-pin/v1|" +:+ uuid_text order_id +:+ "|" +:+ pretty line_index +:+ "|" +:+
  listing_aggregate_id +:+ "|" +:+ deliverable_id +:+ "|" +:+ pretty version.

Definition email_aad (order_id : Uuid) (buyer_pubky : Pubky) : string :=
  "buyer-email/v1|" +:+ uuid_text order_id +:+ "|" +:+ buyer_pubky.
End Aads.

Arguments details_aad : simpl never.
Arguments snapshot_aad : simpl never.
Arguments version_aad : simpl never.
Arguments pin_aad : simpl never.
Arguments email_aad : simpl never.

(** ** The construction satisfies the interface *)

Section SealProofs.
Context `{!SealCrates, !SealCratesLaws}.

Lemma split_at_app a b : split_at (String.length a) (a +:+ b) = (a, b).
Proof.
  induction a as [|c a IH]; [by destruct b|].
  change (String c a +:+ b) with (String c (a +:+ b)). cbn. by rewrite IH.
Qed.

Lemma length_append a b :
  (String.length (a +:+ b) = String.length a + String.length b)%nat.
Proof.
  induction a as [|c a IH]; [done|].
  change (String c a +:+ b) with (String c (a +:+ b)). cbn. by rewrite IH.
Qed.

Lemma open_own_seal n key aad plaintext :
  open key aad (seal n key aad plaintext) = Some plaintext.
Proof.
  unfold open, seal. set (nonce := fill_bytes n). set (c := encrypt key nonce aad plaintext).
  assert (Hn : String.length nonce = XNONCE_LEN) by apply fill_bytes_length.
  assert (Hc : (0 < String.length c)%nat).
  { subst c. pose proof (encrypt_tag key nonce aad plaintext).
    destruct (encrypt _ _ _ _); simpl; [done|lia]. }
  rewrite length_append, Hn. destruct (Nat.leb_spec (XNONCE_LEN + String.length c) XNONCE_LEN); [lia|].
  rewrite <- Hn, split_at_app. apply decrypt_encrypt.
Qed.

#[export] Instance rotating_laws k : SealLaws (rotating k).
Proof. intros n aad p. simpl. unfold rk_open, rk_seal. by rewrite open_own_seal. Qed.
End SealProofs.
