(* ===== verification/Pubky.v ===== *)
(** * Pubky identifiers ([crates/domain/src/pubky.rs])

    [is_valid_pubky] and [encode_pubky], the z-base-32 encoder with its 64-bit
    accumulator.  The encoder is proved equal to the arithmetic reference (the
    52 base-32 digits of the key read as a big-endian number, padded by four
    zero bits), and from that valid and injective. *)

From Stdlib Require Import Ascii.
From S2P Require Import Prelude.

Module Pubky.

Definition Z_BASE_32_ALPHABET : string := "ybndrfg8ejkmcpqxot1uwisza345h769".

Definition alphabet : list ascii := String.list_ascii_of_string Z_BASE_32_ALPHABET.

Definition is_valid_pubky (value : string) : bool :=
  (String.length value =? 52)%nat &&
  forallb (fun c => existsb (Ascii.eqb c) alphabet) (String.list_ascii_of_string value).

(** [u64] left shift: the bits above 63 are lost. *)
Definition shl64 (x n : Z) : Z := Z.shiftl x n mod 2 ^ 64.

Record Encoder := mkEncoder {
  accumulator : Z;
  bit_count : Z;
  output : list ascii;
}.

(** [alphabet[(x & 31) as usize]]. *)
Definition symbol (x : Z) : ascii := nth (Z.to_nat (Z.land x 31)) alphabet "y"%char.

(** The inner [while bit_count >= 5] loop. *)
Fixpoint drain (fuel : nat) (e : Encoder) : Encoder :=
  match fuel with
  | O => e
  | S fuel =>
      if 5 <=? bit_count e then
        let bit_count' := bit_count e - 5 in
        drain fuel (mkEncoder (accumulator e) bit_count'
          (output e ++ [symbol (Z.shiftr (accumulator e) bit_count')]))
      else e
  end.

(** One iteration of [for &byte in key].  At most 12 bits are pending, so two
    rounds empty the inner loop ([drain_enough]). *)
Definition feed (e : Encoder) (byte : Z) : Encoder :=
  drain 2 (mkEncoder (Z.lor (shl64 (accumulator e) 8) byte) (bit_count e + 8) (output e)).

Definition encode_symbols (key : list Z) : list ascii :=
  let e := fold_left feed key (mkEncoder 0 0 []) in
  output e ++ [symbol (shl64 (accumulator e) (5 - bit_count e))].

Definition encode_pubky (key : list Z) : string :=
  String.string_of_list_ascii (encode_symbols key).

(** ** The reference *)

Definition is_byte (b : Z) : Prop := 0 <= b < 256.

(** The key as a big-endian number. *)
Definition be_value (key : list Z) : Z := fold_left (fun a b => a * 256 + b) key 0.

(** The [n] low base-32 digits of [x], most significant first. *)
Fixpoint digits (n : nat) (x : Z) : list Z :=
  match n with
  | O => []
  | S n => digits n (x / 32) ++ [x mod 32]
  end.

Definition digit_symbol (d : Z) : ascii := nth (Z.to_nat d) alphabet "y"%char.

Definition reference_encoding (key : list Z) : string :=
  String.string_of_list_ascii (map digit_symbol (digits 52 (be_value key * 16))).

(** ** Correctness of the encoder *)

Lemma symbol_digit x : symbol x = digit_symbol (x mod 32).
Proof. unfold symbol, digit_symbol. change 31 with (Z.ones 5). by rewrite Z.land_ones by lia. Qed.

(** The encoder's invariant after the bytes with value [a]: the low bits of
    the accumulator are those of [a], [b < 5] bits are pending and the output
    is the digits of the rest. *)
Definition encoder_inv (k a : Z) (e : Encoder) : Prop :=
  0 <= a /\
  accumulator e = a mod 2 ^ 64 /\
  0 <= bit_count e < 5 /\
  exists d : nat, 5 * Z.of_nat d + bit_count e = 8 * k /\
    output e = map digit_symbol (digits d (a / 2 ^ bit_count e)).

Lemma byte_high_bit b n : is_byte b -> 8 <= n -> Z.testbit b n = false.
Proof.
  unfold is_byte. intros Hb Hn.
  destruct (decide (b = 0)) as [->|]; [apply Z.testbit_0_l|].
  apply Z.bits_above_log2; [lia|].
  assert (Z.log2 b < 8) by (apply Z.log2_lt_pow2; lia). lia.
Qed.

(** Appending a byte: the shifted value and the byte share no bit. *)
Lemma shiftl_byte a b : is_byte b -> Z.lor (Z.shiftl a 8) b = a * 256 + b.
Proof.
  intros Hb. change 256 with (2 ^ 8). rewrite <- Z.shiftl_mul_pow2 by lia.
  assert (Hdisj : Z.land (Z.shiftl a 8) b = 0).
  { apply Z.bits_inj'. intros n Hn.
    rewrite Z.land_spec, Z.testbit_0_l, Z.shiftl_spec by lia.
    destruct (decide (n < 8)); [by rewrite (Z.testbit_neg_r a (n - 8)) by lia|].
    rewrite (byte_high_bit b n) by (done || lia). apply andb_false_r. }
  by rewrite Z.add_nocarry_lxor, Z.lxor_lor.
Qed.

Lemma lor_byte a b : is_byte b -> Z.lor (shl64 (a mod 2 ^ 64) 8) b = (a * 256 + b) mod 2 ^ 64.
Proof.
  unfold shl64. intros Hb. rewrite <- !Z.land_ones, <- shiftl_byte by (done || lia).
  apply Z.bits_inj'. intros n Hn.
  rewrite !Z.land_spec, !Z.lor_spec, !Z.land_spec, !Z.shiftl_spec, !Z.land_spec by lia.
  destruct (decide (n < 64)) as [Hlt|Hge].
  - rewrite (Z.ones_spec_low 64 n), !andb_true_r by lia.
    destruct (decide (8 <= n)) as [H8|H8].
    + by rewrite (Z.ones_spec_low 64 (n - 8)), andb_true_r by lia.
    + by rewrite !(Z.testbit_neg_r _ (n - 8)) by lia.
  - rewrite (Z.ones_spec_high 64 n), !andb_false_r by lia. cbn.
    apply byte_high_bit; [done|lia].
Qed.

(** One extracted group of five bits. *)
Lemma group_digit a n :
  0 <= a -> 0 <= n -> n + 5 <= 64 ->
  symbol (Z.shiftr (a mod 2 ^ 64) n) = digit_symbol ((a / 2 ^ n) mod 32).
Proof.
  intros Ha Hn Hle. rewrite symbol_digit. f_equal.
  rewrite Z.shiftr_div_pow2 by lia. change 32 with (2 ^ 5).
  rewrite <- !(Z.land_ones _ 5), <- Z.land_ones by lia.
  rewrite <- !Z.shiftr_div_pow2 by lia.
  apply Z.bits_inj'. intros i Hi. rewrite !Z.land_spec, !Z.shiftr_spec, Z.land_spec by lia.
  destruct (decide (i < 5)) as [Hlt|Hge].
  - rewrite (Z.ones_spec_low 5 i), (Z.ones_spec_low 64 (i + n)) by lia. by rewrite !andb_true_r.
  - rewrite (Z.ones_spec_high 5 i) by lia. by rewrite !andb_false_r.
Qed.

Lemma digits_snoc d x y :
  y / 32 = x -> digits (S d) y = digits d x ++ [y mod 32].
Proof. by intros <-. Qed.

Lemma pow_split a n m : 0 <= n -> 0 <= m -> a / 2 ^ (n + m) = a / 2 ^ n / 2 ^ m.
Proof. intros. rewrite Z.pow_add_r, Z.div_div by lia. done. Qed.

(** Reading five bits keeps the invariant with [b >= 5] bits pending. *)
Lemma drain_step a b d out :
  0 <= a -> 5 <= b <= 12 ->
  out = map digit_symbol (digits d (a / 2 ^ b)) ->
  out ++ [symbol (Z.shiftr (a mod 2 ^ 64) (b - 5))] =
  map digit_symbol (digits (S d) (a / 2 ^ (b - 5))).
Proof.
  intros Ha Hb ->. rewrite group_digit by lia.
  rewrite (digits_snoc d (a / 2 ^ b)).
  - by rewrite map_app.
  - replace b with (b - 5 + 5) at 2 by lia. by rewrite pow_split by lia.
Qed.

Lemma feed_inv k a e b :
  0 <= k -> is_byte b -> encoder_inv k a e -> encoder_inv (k + 1) (a * 256 + b) (feed e b).
Proof.
  intros Hk Hb (Ha & Hacc & Hbc & d & Hd & Hout).
  unfold is_byte in Hb. set (a' := a * 256 + b).
  assert (Hmid : output e = map digit_symbol (digits d (a' / 2 ^ (bit_count e + 8)))).
  { rewrite Hout. do 2 f_equal. rewrite Z.add_comm, pow_split by lia. f_equal.
    unfold a'. change (2 ^ 8) with 256.
    rewrite Z.add_comm, Z.div_add, Z.div_small by lia. lia. }
  unfold feed. rewrite Hacc, lor_byte by done. fold a'. cbn [drain bit_count accumulator output].
  destruct (5 <=? bit_count e + 8) eqn:E1; [|apply Z.leb_gt in E1; lia].
  pose proof (drain_step a' (bit_count e + 8) d (output e) ltac:(lia) ltac:(lia) Hmid) as H1.
  rewrite H1.
  destruct (5 <=? bit_count e + 8 - 5) eqn:E2; [apply Z.leb_le in E2|apply Z.leb_gt in E2].
  - pose proof (drain_step a' (bit_count e + 8 - 5) (S d) _ ltac:(lia) ltac:(lia) eq_refl) as H2.
    rewrite H2. split; [lia|]. cbn. split; [done|]. split; [lia|].
    exists (S (S d)). split; [lia|done].
  - split; [lia|]. cbn. split; [done|]. split; [lia|].
    exists (S d). split; [lia|done].
Qed.

Lemma fold_feed_inv key k a e :
  0 <= k -> Forall is_byte key -> encoder_inv k a e ->
  encoder_inv (k + Z.of_nat (length key))
    (fold_left (fun a b => a * 256 + b) key a) (fold_left feed key e).
Proof.
  revert k a e. induction key as [|b key IH]; intros k a e Hk Hkey He; cbn [fold_left length].
  - by rewrite Z.add_0_r.
  - inversion Hkey; subst. rewrite Nat2Z.inj_succ, <- Z.add_1_l, Z.add_assoc.
    apply IH; [lia|done|]. by apply feed_inv.
Qed.

(** The inner loop is really empty after its two rounds. *)
Lemma drain_enough k a e b :
  0 <= k -> is_byte b -> encoder_inv k a e -> bit_count (feed e b) < 5.
Proof. intros Hk Hb He. destruct (feed_inv k a e b Hk Hb He) as (_ & _ & ? & _). lia. Qed.

Lemma encode_symbols_reference key :
  length key = 32%nat -> Forall is_byte key ->
  encode_symbols key = map digit_symbol (digits 52 (be_value key * 16)).
Proof.
  intros Hlen Hkey.
  assert (H0 : encoder_inv 0 0 (mkEncoder 0 0 [])).
  { split; [lia|]. split; [done|]. split; [cbn; lia|]. by exists 0%nat. }
  pose proof (fold_feed_inv key 0 0 _ ltac:(lia) Hkey H0) as (Ha & Hacc & Hbc & d & Hd & Hout).
  rewrite Hlen in Hd. unfold encode_symbols.
  set (e := fold_left feed key (mkEncoder 0 0 [])) in *.
  change (fold_left _ key 0) with (be_value key) in *. set (a := be_value key) in *.
  assert (bit_count e = 1 /\ d = 51%nat) as [Hb ->] by lia.
  rewrite Hout, Hb, Hacc. rewrite (digits_snoc 51 (a / 2 ^ 1)).
  - rewrite map_app. f_equal. cbn [map]. f_equal. rewrite symbol_digit. f_equal.
    unfold shl64. change (5 - 1) with 4. rewrite Z.shiftl_mul_pow2 by lia.
    change 32 with (2 ^ 5). change 16 with (2 ^ 4).
    rewrite <- !(Z.land_ones _ 5), <- !(Z.land_ones _ 64) by lia.
    rewrite <- !(Z.shiftl_mul_pow2 _ 4) by lia.
    apply Z.bits_inj'. intros i Hi.
    rewrite !Z.land_spec, !Z.shiftl_spec, Z.land_spec by lia.
    destruct (decide (i < 5)) as [Hlt|Hge].
    + rewrite (Z.ones_spec_low 5 i), (Z.ones_spec_low 64 i) by lia. rewrite !andb_true_r.
      destruct (decide (4 <= i)).
      * rewrite (Z.ones_spec_low 64 (i - 4)) by lia. by rewrite andb_true_r.
      * by rewrite !(Z.testbit_neg_r _ (i - 4)) by lia.
    + rewrite (Z.ones_spec_high 5 i) by lia. by rewrite !andb_false_r.
  - replace 32 with (16 * 2) by lia. rewrite <- Z.div_div by lia.
    by rewrite Z.div_mul by lia.
Qed.

Lemma digits_length n x : length (digits n x) = n.
Proof. revert x. induction n as [|n IH]; intros x; cbn; [done|]. rewrite length_app, IH. cbn. lia. Qed.

Lemma digits_range n x : Forall (fun d => 0 <= d < 32) (digits n x).
Proof.
  revert x. induction n as [|n IH]; intros x; cbn [digits]; [constructor|].
  apply Forall_app. split; [apply IH|]. constructor; [|constructor].
  apply Z.mod_pos_bound. lia.
Qed.

Lemma digits_inj n x y :
  0 <= x < 32 ^ Z.of_nat n -> 0 <= y < 32 ^ Z.of_nat n ->
  digits n x = digits n y -> x = y.
Proof.
  revert x y. induction n as [|n IH]; intros x y Hx Hy Hd.
  - change (32 ^ Z.of_nat 0) with 1 in *. lia.
  - cbn [digits] in Hd. apply app_inj_tail in Hd as [Hq Hr].
    rewrite Nat2Z.inj_succ, Z.pow_succ_r in Hx, Hy by lia.
    assert (Hq' : x / 32 = y / 32).
    { apply IH; [split; [apply Z.div_pos; lia|apply Z.div_lt_upper_bound; lia]..|done]. }
    rewrite (Z.div_mod x 32), (Z.div_mod y 32), Hq', Hr by lia. done.
Qed.

Lemma digit_symbol_inj d1 d2 :
  0 <= d1 < 32 -> 0 <= d2 < 32 -> digit_symbol d1 = digit_symbol d2 -> d1 = d2.
Proof.
  intros H1 H2 Heq.
  assert (Hnd : NoDup alphabet) by (apply (bool_decide_unpack _); vm_compute; exact I).
  assert (Z.to_nat d1 = Z.to_nat d2); [|lia].
  apply (proj1 (NoDup_nth alphabet "y"%char) (proj1 (NoDup_ListNoDup alphabet) Hnd)); [cbn; lia..|exact Heq].
Qed.

Lemma map_digit_symbol_inj l1 l2 :
  Forall (fun d => 0 <= d < 32) l1 -> Forall (fun d => 0 <= d < 32) l2 ->
  map digit_symbol l1 = map digit_symbol l2 -> l1 = l2.
Proof.
  intros H1. revert l2. induction H1 as [|d l1 Hd _ IH]; intros [|d2 l2] H2 Heq; try done.
  inversion H2; subst. injection Heq as Hs Ht.
  f_equal; [by apply digit_symbol_inj|by apply IH].
Qed.

Lemma be_value_bound key a :
  Forall is_byte key -> 0 <= a ->
  a * 256 ^ Z.of_nat (length key) <= fold_left (fun a b => a * 256 + b) key a
    < (a + 1) * 256 ^ Z.of_nat (length key).
Proof.
  intros Hkey. revert a. induction Hkey as [|b key Hb _ IH]; intros a Ha; cbn [fold_left length].
  - change (256 ^ Z.of_nat 0) with 1. lia.
  - unfold is_byte in Hb. rewrite Nat2Z.inj_succ, Z.pow_succ_r by lia.
    specialize (IH (a * 256 + b) ltac:(lia)).
    assert (0 < 256 ^ Z.of_nat (length key)) by (apply Z.pow_pos_nonneg; lia). nia.
Qed.

Lemma be_value_inj key1 key2 a1 a2 :
  length key1 = length key2 -> Forall is_byte key1 -> Forall is_byte key2 ->
  0 <= a1 -> 0 <= a2 ->
  fold_left (fun a b => a * 256 + b) key1 a1 = fold_left (fun a b => a * 256 + b) key2 a2 ->
  a1 = a2 /\ key1 = key2.
Proof.
  intros Hlen H1. revert key2 a1 a2 Hlen.
  induction H1 as [|b1 key1 Hb1 _ IH]; intros [|b2 key2] a1 a2 Hlen H2 Ha1 Ha2 Heq;
    try discriminate; [done|].
  inversion H2 as [|? ? Hb2 H2']; subst. cbn in Heq. unfold is_byte in *.
  apply IH in Heq as [Heq ->]; [|cbn in Hlen; lia|done|lia|lia].
  assert (b1 = b2 /\ a1 = a2) as [-> ->] by lia. done.
Qed.

(** C32. On a 32-byte key the encoder, with its 64-bit accumulator, computes
    the arithmetic reference: the 52 base-32 digits of the big-endian key
    padded by four low zero bits. *)
Theorem encode_pubky_reference key :
  length key = 32%nat -> Forall is_byte key ->
  encode_pubky key = reference_encoding key.
Proof.
  intros Hlen Hkey. unfold encode_pubky, reference_encoding.
  by rewrite encode_symbols_reference.
Qed.

Definition counting_key : list Z := map Z.of_nat (seq 0 32).

Lemma counting_key_ok : length counting_key = 32%nat /\ Forall is_byte counting_key.
Proof.
  split; [reflexivity|]. unfold counting_key, is_byte.
  rewrite Forall_map. apply Forall_seq. cbn. lia.
Qed.

Lemma encode_pubky_reference_witness :
  encode_pubky counting_key = reference_encoding counting_key.
Proof. exact (encode_pubky_reference counting_key (proj1 counting_key_ok) (proj2 counting_key_ok)). Defined.

Lemma symbols_valid l :
  Forall (fun d => 0 <= d < 32) l ->
  forallb (fun c => existsb (Ascii.eqb c) alphabet) (map digit_symbol l) = true.
Proof.
  intros Hl. apply forallb_forall. intros c Hc.
  apply in_map_iff in Hc as (d & <- & Hd). rewrite List.Forall_forall in Hl.
  specialize (Hl d Hd).
  apply existsb_exists. exists (digit_symbol d). split; [|apply Ascii.eqb_refl].
  apply nth_In. cbn. lia.
Qed.

Lemma length_string_of_list_ascii l : String.length (String.string_of_list_ascii l) = length l.
Proof. induction l as [|c l IH]; cbn; [done|]. by rewrite IH. Qed.

(** Every encoded key is accepted by [is_valid_pubky], and two different
    keys never share a pubky. *)
Theorem encode_pubky_valid_injective key1 key2 :
  length key1 = 32%nat -> Forall is_byte key1 ->
  length key2 = 32%nat -> Forall is_byte key2 ->
  is_valid_pubky (encode_pubky key1) = true /\
  (encode_pubky key1 = encode_pubky key2 -> key1 = key2).
Proof.
  intros Hl1 Hk1 Hl2 Hk2. unfold encode_pubky. rewrite !encode_symbols_reference by done.
  split.
  - unfold is_valid_pubky. rewrite String.list_ascii_of_string_of_list_ascii.
    rewrite symbols_valid by apply digits_range. rewrite andb_true_r.
    apply Nat.eqb_eq.
    by rewrite length_string_of_list_ascii, length_map, digits_length.
  - intros Heq. apply (f_equal String.list_ascii_of_string) in Heq.
    rewrite !String.list_ascii_of_string_of_list_ascii in Heq.
    apply map_digit_symbol_inj in Heq; [|apply digits_range..].
    assert (Hbound : forall key, length key = 32%nat -> Forall is_byte key ->
              0 <= be_value key * 16 < 32 ^ Z.of_nat 52).
    { intros key Hl Hk. pose proof (be_value_bound key 0 Hk ltac:(lia)) as Hb.
      rewrite Hl in Hb. fold (be_value key) in Hb.
      change (32 ^ Z.of_nat 52) with (256 ^ Z.of_nat 32 * 16). lia. }
    apply digits_inj in Heq; [|by apply Hbound..].
    eapply (be_value_inj key1 key2 0 0); [congruence|done..|]. unfold be_value in Heq. lia.
Qed.

Lemma encode_pubky_valid_injective_witness :
  is_valid_pubky (encode_pubky counting_key) = true.
Proof.
  destruct counting_key_ok as [Hl Hk].
  exact (proj1 (encode_pubky_valid_injective counting_key counting_key Hl Hk Hl Hk)).
Defined.

End Pubky.
