(* ===== verification/Text.v ===== *)
(** * Text

    A Rust string is a sequence of bytes that is valid UTF-8; [chars] decodes
    it into scalar values, [segments] keeps the bytes of each.  The string
    methods the sources use ([trim], [strip_prefix], [split_once], ...), the
    shapes of the [regex] patterns of [commands.rs] and
    [DeliveryEmail::is_well_formed] are written on these. *)

From S2P Require Import Prelude.
From Stdlib Require Import Ascii.

Definition byte_of (c : ascii) : Z := Z.of_N (N_of_ascii c).
Arguments byte_of : simpl never.

(** The bytes of a string. *)
Fixpoint bytes (s : string) : list Z :=
  match s with
  | EmptyString => []
  | String c s' => byte_of c :: bytes s'
  end.

(** [str::chars] on valid UTF-8: the number of bytes a scalar takes is read
    off its first byte. *)
Fixpoint chars (l : list Z) : list Z :=
  match l with
  | [] => []
  | a :: l1 =>
      if a <? 128 then a :: chars l1
      else
        match l1 with
        | [] => []
        | b :: l2 =>
            if a <? 224 then (Z.land a 31 * 64 + Z.land b 63) :: chars l2
            else
              match l2 with
              | [] => []
              | c :: l3 =>
                  if a <? 240
                  then (Z.land a 15 * 4096 + Z.land b 63 * 64 + Z.land c 63) :: chars l3
                  else
                    match l3 with
                    | [] => []
                    | d :: l4 =>
                        (Z.land a 7 * 262144 + Z.land b 63 * 4096 + Z.land c 63 * 64
                         + Z.land d 63) :: chars l4
                    end
              end
        end
  end.

(** [char::is_whitespace]: the Unicode property [White_Space]. *)
Definition is_whitespace (c : Z) : bool :=
  ((9 <=? c) && (c <=? 13)) || (c =? 32) || (c =? 133) || (c =? 160) || (c =? 5760) ||
  ((8192 <=? c) && (c <=? 8202)) || (c =? 8232) || (c =? 8233) || (c =? 8239) ||
  (c =? 8287) || (c =? 12288).

(** [char::is_control]: the category [Cc]. *)
Definition is_control (c : Z) : bool :=
  ((0 <=? c) && (c <=? 31)) || ((127 <=? c) && (c <=? 159)).

(** [str::split_once] on one character. *)
Fixpoint split_once (c : Z) (l : list Z) : option (list Z * list Z) :=
  match l with
  | [] => None
  | x :: l' =>
      if x =? c then Some ([], l')
      else match split_once c l' with
           | Some (before, after) => Some (x :: before, after)
           | None => None
           end
  end.

Definition DELIVERY_EMAIL_MAX_CHARS : Z := 254.

Definition nonempty {A} (l : list A) : bool := match l with [] => false | _ => true end.

(** [DeliveryEmail::is_well_formed]. *)
Definition is_well_formed (email : string) : bool :=
  let value := chars (bytes email) in
  match split_once 64 value with
  | None => false
  | Some (local, domain) =>
      (Z.of_nat (length value) <=? DELIVERY_EMAIL_MAX_CHARS) &&
      nonempty local && nonempty domain && negb (existsb (Z.eqb 64) domain) &&
      negb (existsb (fun c => is_whitespace c || is_control c) value)
  end.

(** ** Scalars with their text *)

(** [str::char_indices]: each scalar with the bytes that encode it. *)
Fixpoint segments (s : string) : list (Z * string) :=
  match s with
  | EmptyString => []
  | String a s1 =>
      let x := byte_of a in
      if x <? 128 then (x, String a "") :: segments s1
      else
        match s1 with
        | EmptyString => []
        | String b s2 =>
            let y := Z.land (byte_of b) 63 in
            if x <? 224 then (Z.land x 31 * 64 + y, String a (String b "")) :: segments s2
            else
              match s2 with
              | EmptyString => []
              | String c s3 =>
                  let z := Z.land (byte_of c) 63 in
                  if x <? 240
                  then (Z.land x 15 * 4096 + y * 64 + z, String a (String b (String c "")))
                         :: segments s3
                  else
                    match s3 with
                    | EmptyString => []
                    | String d s4 =>
                        (Z.land x 7 * 262144 + y * 4096 + z * 64 + Z.land (byte_of d) 63,
                         String a (String b (String c (String d "")))) :: segments s4
                    end
              end
        end
  end.

(** The text of a sequence of scalars. *)
Definition join (l : list (Z * string)) : string :=
  foldr (fun seg acc => snd seg +:+ acc) "" l.

Fixpoint drop_while {A} (p : A -> bool) (l : list A) : list A :=
  match l with
  | x :: l' => if p x then drop_while p l' else l
  | [] => []
  end.

Definition trim_segments (l : list (Z * string)) : list (Z * string) :=
  let blank := fun seg => is_whitespace (fst seg) in
  reverse (drop_while blank (reverse (drop_while blank l))).

(** [str::trim]. *)
Definition trim (s : string) : string := join (trim_segments (segments s)).

(** [value.chars().count()]. *)
Definition chars_count (s : string) : Z := Z.of_nat (length (chars (bytes s))).

(** [value.chars().any(p)]. *)
Definition chars_any (p : Z -> bool) (s : string) : bool := existsb p (chars (bytes s)).

(** ** Patterns and ASCII case *)

(** [value.bytes().all(p)]. *)
Definition bytes_all (p : Z -> bool) (s : string) : bool := forallb p (bytes s).

Definition byte_len (s : string) : Z := Z.of_nat (String.length s).

Definition in_range (lo hi : Z) (b : Z) : bool := (lo <=? b) && (b <=? hi).
Definition is_digit : Z -> bool := in_range 48 57.
Definition is_upper : Z -> bool := in_range 65 90.
Definition is_lower : Z -> bool := in_range 97 122.

(** [^[class]{lo,hi}$] for an ASCII class. *)
Definition repeats (class : Z -> bool) (lo hi : Z) (s : list Z) : bool :=
  (lo <=? Z.of_nat (length s)) && (Z.of_nat (length s) <=? hi) && forallb class s.

Definition map_bytes (f : Z -> Z) (s : string) : string :=
  String.string_of_list_ascii
    (map (fun c => ascii_of_N (Z.to_N (f (byte_of c)))) (String.list_ascii_of_string s)).

Definition to_upper (b : Z) : Z := if is_lower b then b - 32 else b.
Definition to_lower (b : Z) : Z := if is_upper b then b + 32 else b.

Definition to_ascii_uppercase : string -> string := map_bytes to_upper.
Definition to_ascii_lowercase : string -> string := map_bytes to_lower.

Definition eq_ignore_ascii_case (a b : string) : bool :=
  (to_ascii_lowercase a =? to_ascii_lowercase b)%string.

(** ** Prefixes, suffixes, separators *)

Fixpoint strip_prefix (p s : string) : option string :=
  match p, s with
  | EmptyString, _ => Some s
  | String a p', String b s' => if Ascii.eqb a b then strip_prefix p' s' else None
  | String _ _, EmptyString => None
  end.

Lemma strip_prefix_app p rest : strip_prefix p (p +:+ rest) = Some rest.
Proof.
  induction p as [|c p IH]; [done|]. change (String c p +:+ rest) with (String c (p +:+ rest)).
  cbn. by rewrite Ascii.eqb_refl.
Qed.

Lemma app_assoc_str a b c : (a +:+ b) +:+ c = a +:+ (b +:+ c).
Proof.
  induction a as [|x a IH]; [done|].
  change (String x ((a +:+ b) +:+ c) = String x (a +:+ (b +:+ c))). by rewrite IH.
Qed.

Fixpoint strip_suffix (p s : string) : option string :=
  if (s =? p)%string then Some ""
  else match s with
       | EmptyString => None
       | String c s' => String c <$> strip_suffix p s'
       end.

(** [str::split_once] on a string: at its first occurrence. *)
Fixpoint split_once_str (p s : string) : option (string * string) :=
  match strip_prefix p s with
  | Some rest => Some ("", rest)
  | None =>
      match s with
      | EmptyString => None
      | String c s' =>
          match split_once_str p s' with
          | Some (before, after) => Some (String c before, after)
          | None => None
          end
      end
  end.

(** ** Facts *)

Lemma segments_chars s : map fst (segments s) = chars (bytes s).
Proof.
  induction s as [s IH] using (induction_ltof1 _ String.length). unfold ltof in IH.
  destruct s as [|a s1]; [done|]. cbn. destruct (byte_of a <? 128).
  { cbn. rewrite IH; [done|cbn; lia]. }
  destruct s1 as [|b s2]; [done|]. cbn. destruct (byte_of a <? 224).
  { cbn. rewrite IH; [done|cbn; lia]. }
  destruct s2 as [|c s3]; [done|]. cbn. destruct (byte_of a <? 240).
  { cbn. rewrite IH; [done|cbn; lia]. }
  destruct s3 as [|d s4]; [done|]. cbn. rewrite IH; [done|cbn; lia].
Qed.

(** A segment is read back whatever follows it. *)
Definition stable (seg : Z * string) : Prop :=
  forall rest, segments (snd seg +:+ rest) = seg :: segments rest.

Lemma segments_stable s : Forall stable (segments s).
Proof.
  induction s as [s IH] using (induction_ltof1 _ String.length). unfold ltof in IH.
  destruct s as [|a s1]; [by constructor|]. cbn. destruct (byte_of a <? 128) eqn:E1.
  { constructor; [|apply IH; cbn; lia]. intros rest. unfold String.append. cbn. by rewrite E1. }
  destruct s1 as [|b s2]; [by constructor|]. destruct (byte_of a <? 224) eqn:E2.
  { constructor; [|apply IH; cbn; lia]. intros rest. unfold String.append. cbn. by rewrite E1, E2. }
  destruct s2 as [|c s3]; [by constructor|]. destruct (byte_of a <? 240) eqn:E3.
  { constructor; [|apply IH; cbn; lia]. intros rest. unfold String.append. cbn. by rewrite E1, E2, E3. }
  destruct s3 as [|d s4]; [by constructor|]. constructor; [|apply IH; cbn; lia].
  intros rest. unfold String.append. cbn. by rewrite E1, E2, E3.
Qed.

Lemma segments_join l : Forall stable l -> segments (join l) = l.
Proof.
  induction 1 as [|seg l Hs _ IH]; [done|].
  change (join (seg :: l)) with (snd seg +:+ join l). by rewrite Hs, IH.
Qed.

Lemma drop_while_suffix {A} (p : A -> bool) l : exists k, l = k ++ drop_while p l.
Proof.
  induction l as [|x l [k IH]]; [by exists []|]. cbn. destruct (p x); [|by exists []].
  exists (x :: k). cbn. by rewrite <- IH.
Qed.

Lemma drop_while_idem {A} (p : A -> bool) l : drop_while p (drop_while p l) = drop_while p l.
Proof. induction l as [|x l IH]; [done|]. cbn. destruct (p x) eqn:E; [done|]. cbn. by rewrite E. Qed.

Lemma drop_while_fixed {A} (p : A -> bool) x l :
  drop_while p (x :: l) = x :: l <-> p x = false.
Proof.
  cbn. destruct (p x); [|done]. split; [|done]. intros E.
  destruct (drop_while_suffix p l) as [j Hj]. rewrite E in Hj.
  apply (f_equal length) in Hj. rewrite length_app in Hj. cbn in Hj. lia.
Qed.

(** What is trimmed at both ends stays as it is. *)
Lemma trim_segments_idem l : trim_segments (trim_segments l) = trim_segments l.
Proof.
  unfold trim_segments. set (p := fun seg : Z * string => is_whitespace (fst seg)).
  set (m := drop_while p l). set (n := drop_while p (reverse m)).
  assert (Hn : drop_while p n = n) by apply drop_while_idem.
  assert (Hr : drop_while p (reverse n) = reverse n).
  { destruct (drop_while_suffix p (reverse m)) as [k Hk]. fold n in Hk.
    apply (f_equal reverse) in Hk. rewrite reverse_involutive, reverse_app in Hk.
    assert (Hm : drop_while p m = m) by apply drop_while_idem.
    destruct (decide (n = [])) as [->|Hne]; [done|].
    destruct (reverse n) as [|x r] eqn:Er.
    { apply (f_equal reverse) in Er. by rewrite reverse_involutive in Er. }
    rewrite Hk in Hm. apply drop_while_fixed in Hm. by apply drop_while_fixed. }
  by rewrite Hr, reverse_involutive, Hn.
Qed.

Lemma trim_stable l : Forall stable l -> Forall stable (trim_segments l).
Proof.
  intros Hl. unfold trim_segments. set (p := fun seg : Z * string => is_whitespace (fst seg)).
  destruct (drop_while_suffix p l) as [k Hk]. rewrite Hk in Hl. apply Forall_app in Hl as [_ Hl].
  destruct (drop_while_suffix p (reverse (drop_while p l))) as [j Hj].
  apply Forall_reverse in Hl. rewrite Hj in Hl. apply Forall_app in Hl as [_ Hl].
  by apply Forall_reverse.
Qed.

Lemma segments_trim s : segments (trim s) = trim_segments (segments s).
Proof. apply segments_join, trim_stable, segments_stable. Qed.

Lemma trim_idem s : trim (trim s) = trim s.
Proof. unfold trim at 1. by rewrite segments_trim, trim_segments_idem. Qed.
