(* ===== verification/Store.v ===== *)
(** * The transactional store ([model.rs], [result.rs] and the schema)

    The rows of the PostgreSQL tables the command handlers read and write,
    with the columns those handlers use, the [CHECK] and [UNIQUE] constraints
    of [crates/service/migrations], and the statements the handlers are made
    of: [SELECT], [UPDATE .. WHERE .. RETURNING] and [INSERT].  A violated
    constraint is a database error.  Transactions run one after the other:
    the row and advisory locks the handlers take serialize them. *)

From Stdlib Require Import SpecFloat.
From S2P Require Import Prelude Json Domain Text.

(** ** Column enums (the [CHECK (state IN (..))] vocabularies) *)

Inductive ListingState := LAvailable | LReserved | LSold.
Inductive ReservationStatus := RActive | RConverted | RReleased | RExpired.
Inductive OrderState :=
| OPendingPayment | OPaid | OReadyForPickup | OProcessing | OShipped
| ODelivered | OCompleted | OCancelRequested | OCancelled
| OReturnRequested | OReturnApproved | OReturnReceived
| ORefundedExternal | OClosed.
Inductive PaymentState :=
| PAwaitingEntitlement | PDetected | PConfirmed | PExpired | PManualReview.
Inductive DropState :=
| DAnnounced | DLive | DEndedSoldOut | DEndedClosed | DEndedCancelled.
Inductive AuctionStatus := AScheduled | AActive | ASold | AUnsold | ACancelled.
Inductive ReturnState := RtRequested | RtApproved | RtReceived | RtRefunded.
Inductive ShipmentState := ShShipped | ShDelivered.
Inductive OfferState :=
| OfPending | OfCountered | OfAccepted | OfConverted | OfRejected | OfWithdrawn | OfExpired.
Inductive SaleFormat := FixedPrice | Auction.
Inductive Role := RBuyer | RSeller.

#[export] Instance ListingState_eq_dec : EqDecision ListingState.
Proof. solve_decision. Defined.
#[export] Instance ReservationStatus_eq_dec : EqDecision ReservationStatus.
Proof. solve_decision. Defined.
#[export] Instance OrderState_eq_dec : EqDecision OrderState.
Proof. solve_decision. Defined.
#[export] Instance PaymentState_eq_dec : EqDecision PaymentState.
Proof. solve_decision. Defined.
#[export] Instance DropState_eq_dec : EqDecision DropState.
Proof. solve_decision. Defined.
#[export] Instance AuctionStatus_eq_dec : EqDecision AuctionStatus.
Proof. solve_decision. Defined.
#[export] Instance ReturnState_eq_dec : EqDecision ReturnState.
Proof. solve_decision. Defined.
#[export] Instance OfferState_eq_dec : EqDecision OfferState.
Proof. solve_decision. Defined.
#[export] Instance SaleFormat_eq_dec : EqDecision SaleFormat.
Proof. solve_decision. Defined.
#[export] Instance Role_eq_dec : EqDecision Role.
Proof. solve_decision. Defined.

Definition listing_state_str (s : ListingState) : string :=
  match s with LAvailable => "available" | LReserved => "reserved" | LSold => "sold" end.

Definition reservation_status_str (s : ReservationStatus) : string :=
  match s with
  | RActive => "active" | RConverted => "converted"
  | RReleased => "released" | RExpired => "expired"
  end.

Definition order_state_str (s : OrderState) : string :=
  match s with
  | OPendingPayment => "pending_payment" | OPaid => "paid"
  | OReadyForPickup => "ready_for_pickup" | OProcessing => "processing"
  | OShipped => "shipped" | ODelivered => "delivered" | OCompleted => "completed"
  | OCancelRequested => "cancel_requested" | OCancelled => "cancelled"
  | OReturnRequested => "return_requested" | OReturnApproved => "return_approved"
  | OReturnReceived => "return_received" | ORefundedExternal => "refunded_external"
  | OClosed => "closed"
  end.

Definition payment_state_str (s : PaymentState) : string :=
  match s with
  | PAwaitingEntitlement => "awaiting_entitlement" | PDetected => "detected"
  | PConfirmed => "confirmed" | PExpired => "expired"
  | PManualReview => "manual_review"
  end.

Definition drop_state_str (s : DropState) : string :=
  match s with
  | DAnnounced => "announced" | DLive => "live"
  | DEndedSoldOut => "ended_sold_out" | DEndedClosed => "ended_closed"
  | DEndedCancelled => "ended_cancelled"
  end.

Definition auction_status_str (s : AuctionStatus) : string :=
  match s with
  | AScheduled => "scheduled" | AActive => "active" | ASold => "sold"
  | AUnsold => "unsold" | ACancelled => "cancelled"
  end.

Definition return_state_str (s : ReturnState) : string :=
  match s with
  | RtRequested => "requested" | RtApproved => "approved"
  | RtReceived => "received" | RtRefunded => "refunded"
  end.

Definition offer_state_str (s : OfferState) : string :=
  match s with
  | OfPending => "pending" | OfCountered => "countered" | OfAccepted => "accepted"
  | OfConverted => "converted" | OfRejected => "rejected" | OfWithdrawn => "withdrawn"
  | OfExpired => "expired"
  end.

Definition role_str (r : Role) : string :=
  match r with RBuyer => "buyer" | RSeller => "seller" end.

(** ** Rows *)

(** [AuctionState], the [listings.auction] sub-document. *)
Record AuctionState := mkAuctionState {
  a_starts_at : Time;
  a_ends_at : Time;
  a_minimum_increment : Money;
  a_anti_sniping_window_seconds : Z;
  a_anti_sniping_extension_seconds : Z;
  a_status : AuctionStatus;
  a_current_price : Money;
  a_leader_pubky : option Pubky;
  a_bid_count : Z;
}.

Definition eta_auction (a : AuctionState) : AuctionState :=
  mkAuctionState (a_starts_at a) (a_ends_at a) (a_minimum_increment a)
    (a_anti_sniping_window_seconds a) (a_anti_sniping_extension_seconds a)
    (a_status a) (a_current_price a) (a_leader_pubky a) (a_bid_count a).

#[export] Hint Extern 1 (@Updater AuctionState _ ?p) => updater_from eta_auction p
  : typeclass_instances.

Record ListingRow := mkListing {
  l_aggregate_id : string;
  l_seller_pubky : Pubky;
  l_listing_id : string;
  l_title : string;
  l_listing_revision : Z;
  l_content_hash : string;
  l_server_revision : Z;
  l_state : ListingState;
  l_total_quantity : Z;
  l_available_quantity : Z;
  l_reserved_quantity : Z;
  l_sold_quantity : Z;
  l_unit_price_amount_minor : Z;
  l_unit_price_currency : string;
  l_unit_price_exponent : Z;
  l_shipping_minor : Z;
  l_sale_format : SaleFormat;
  l_auction : option AuctionState;
  l_fulfillment_methods : list FulfillmentMethod;
  l_digital_lock_policy_uri : option string;
  l_digital_lock_criterion_id : option string;
  l_updated_at : Time;
  l_digital_delivery_kind : option string;
  l_digital_delivery_content_type : option string;
  l_digital_delivery_size_bytes : option Z;
  l_deleted_at : option Time;
  l_recreated_at : option Time;
  l_generation : Z;
  l_deleted_event_cursor : option Z;
  l_record_epoch : Z;
  l_revived_from_cursor : option Z;
}.

Definition eta_listing (l : ListingRow) : ListingRow :=
  mkListing (l_aggregate_id l) (l_seller_pubky l) (l_listing_id l) (l_title l)
    (l_listing_revision l) (l_content_hash l) (l_server_revision l) (l_state l)
    (l_total_quantity l) (l_available_quantity l) (l_reserved_quantity l)
    (l_sold_quantity l) (l_unit_price_amount_minor l) (l_unit_price_currency l)
    (l_unit_price_exponent l) (l_shipping_minor l) (l_sale_format l) (l_auction l)
    (l_fulfillment_methods l) (l_digital_lock_policy_uri l)
    (l_digital_lock_criterion_id l) (l_updated_at l) (l_digital_delivery_kind l)
    (l_digital_delivery_content_type l) (l_digital_delivery_size_bytes l)
    (l_deleted_at l) (l_recreated_at l) (l_generation l) (l_deleted_event_cursor l)
    (l_record_epoch l) (l_revived_from_cursor l).

#[export] Hint Extern 1 (@Updater ListingRow _ ?p) => updater_from eta_listing p
  : typeclass_instances.

Definition is_deleted (l : ListingRow) : bool := bool_decide (is_Some (l_deleted_at l)).

(** A commitment made before a deletion or a revival takes no stock. *)
Definition accepts_commitment_created_at (l : ListingRow) (created_at : Time) : bool :=
  negb (is_deleted l) &&
  match l_recreated_at l with
  | None => true
  | Some recreated_at => recreated_at <=? created_at
  end.

Record AuctionReserveRow := mkAuctionReserve {
  ar_listing_aggregate_id : string;
  ar_listing_revision : Z;
  ar_record_revision : Z;
  ar_reserve_price : option Money;
  ar_last_command_id : Uuid;
  ar_updated_at : Time;
}.

Record ReservationRow := mkReservation {
  r_id : Uuid;
  r_listing_aggregate_id : string;
  r_buyer_pubky : Pubky;
  r_quantity : Z;
  r_status : ReservationStatus;
  r_expires_at : Time;
  r_created_at : Time;
  r_updated_at : Time;
  r_drop_aggregate_id : option string;
  r_offer_award_id : option Uuid;
}.

Definition eta_reservation (r : ReservationRow) : ReservationRow :=
  mkReservation (r_id r) (r_listing_aggregate_id r) (r_buyer_pubky r) (r_quantity r)
    (r_status r) (r_expires_at r) (r_created_at r) (r_updated_at r)
    (r_drop_aggregate_id r) (r_offer_award_id r).

#[export] Hint Extern 1 (@Updater ReservationRow _ ?p) => updater_from eta_reservation p
  : typeclass_instances.

(** The seller-signed terms an offer was made or countered on
    ([terms_listing_revision], [terms_listing_record_sha256],
    [terms_snapshot]; written together). *)
Record OfferTerms := mkOfferTermsRow {
  tm_listing_revision : Z;
  tm_record_sha256 : string;
  tm_title : string;
  tm_currency : string;
  tm_exponent : Z;
  tm_shipping_minor : Z;
  tm_variant : option string;
}.

(** The award columns [offer.accept] writes together. *)
Record OfferAward := mkAward {
  aw_award_id : Uuid;
  aw_accepted_at : Time;
  aw_award_expires_at : Time;
  aw_reservation_id : Uuid;
  aw_unit_price_minor : Z;
  aw_currency : string;
  aw_exponent : Z;
  aw_quantity : Z;
  aw_listing_aggregate_id : string;
  aw_listing_title : string;
  aw_listing_revision : Z;
  aw_listing_record_sha256 : string;
  aw_variant_id : string;
  aw_variant_sku : option string;
  aw_variant_options : list (string * string);
  aw_shipping_minor : Z;
  aw_subtotal_minor : Z;
  aw_total_minor : Z;
  aw_fulfillment_methods : option (list FulfillmentMethod);
}.

Record OfferHistory := mkOfferHistory {
  oh_revision : Z;
  oh_actor : Pubky;
  oh_action : string;
  oh_amount : Money;
  oh_quantity : Z;
  oh_message : string;
  oh_occurred_at : Time;
}.

Record OfferRow := mkOffer {
  of_id : Uuid;
  of_aggregate_id : string;
  of_listing_aggregate_id : string;
  of_buyer_pubky : Pubky;
  of_seller_pubky : Pubky;
  of_revision : Z;
  of_state : OfferState;
  of_offered_by : Pubky;
  of_amount_minor : Z;
  of_currency : string;
  of_exponent : Z;
  of_quantity : Z;
  of_message : string;
  of_history : list OfferHistory;
  of_expires_at : Time;
  of_created_at : Time;
  of_updated_at : Time;
  of_variant_id : option string;
  of_terms : option OfferTerms;
  of_award : option OfferAward;
  of_converted : option (Uuid * Time);
  of_expiry_reason : option string;
}.

Definition eta_offer (o : OfferRow) : OfferRow :=
  mkOffer (of_id o) (of_aggregate_id o) (of_listing_aggregate_id o) (of_buyer_pubky o)
    (of_seller_pubky o) (of_revision o) (of_state o) (of_offered_by o) (of_amount_minor o)
    (of_currency o) (of_exponent o) (of_quantity o) (of_message o) (of_history o)
    (of_expires_at o) (of_created_at o) (of_updated_at o) (of_variant_id o) (of_terms o)
    (of_award o) (of_converted o) (of_expiry_reason o).

#[export] Hint Extern 1 (@Updater OfferRow _ ?p) => updater_from eta_offer p
  : typeclass_instances.

Record BidRow := mkBid {
  b_id : Uuid;
  b_listing_aggregate_id : string;
  b_bidder_pubky : Pubky;
  b_maximum_amount_minor : Z;
  b_currency : string;
  b_exponent : Z;
  b_sequence : Z;
  b_created_at : Time;
  b_visible_amount_minor : option Z;
}.

Definition eta_bid (b : BidRow) : BidRow :=
  mkBid (b_id b) (b_listing_aggregate_id b) (b_bidder_pubky b)
    (b_maximum_amount_minor b) (b_currency b) (b_exponent b) (b_sequence b)
    (b_created_at b) (b_visible_amount_minor b).

#[export] Hint Extern 1 (@Updater BidRow _ ?p) => updater_from eta_bid p
  : typeclass_instances.

(** One object of the order's [lines] array. *)
Record OrderLine := mkLine {
  ln_listing_aggregate_id : string;
  ln_listing_revision : Z;
  ln_content_hash : string;
  ln_title : string;
  ln_quantity : Z;
  ln_unit_price : Money;
  ln_subtotal : Money;
  ln_fulfillment : option FulfillmentMethod;
  ln_digital_kind : option string;
  ln_version_at_payment : option Z;
  ln_variant_id : option string;
  ln_variant_options : option (list (string * string));
}.

Definition eta_line (x : OrderLine) : OrderLine :=
  mkLine (ln_listing_aggregate_id x) (ln_listing_revision x) (ln_content_hash x)
    (ln_title x) (ln_quantity x) (ln_unit_price x) (ln_subtotal x)
    (ln_fulfillment x) (ln_digital_kind x) (ln_version_at_payment x) (ln_variant_id x)
    (ln_variant_options x).

#[export] Hint Extern 1 (@Updater OrderLine _ ?p) => updater_from eta_line p
  : typeclass_instances.

Record Shipment := mkShipment {
  sh_carrier : string;
  sh_tracking_number : string;
  sh_state : ShipmentState;
  sh_shipped_at : Time;
  sh_delivered_at : option Time;
}.

Definition eta_shipment (x : Shipment) : Shipment :=
  mkShipment (sh_carrier x) (sh_tracking_number x) (sh_state x) (sh_shipped_at x)
    (sh_delivered_at x).

#[export] Hint Extern 1 (@Updater Shipment _ ?p) => updater_from eta_shipment p
  : typeclass_instances.

Record ReturnRequest := mkReturnRequest {
  rr_state : ReturnState;
  rr_reason : string;
  rr_requested_amount_minor : Z;
  rr_requested_at : Time;
  rr_updated_at : Time;
}.

Definition eta_return (x : ReturnRequest) : ReturnRequest :=
  mkReturnRequest (rr_state x) (rr_reason x) (rr_requested_amount_minor x)
    (rr_requested_at x) (rr_updated_at x).

#[export] Hint Extern 1 (@Updater ReturnRequest _ ?p) => updater_from eta_return p
  : typeclass_instances.

Record ExternalRefund := mkExternalRefund {
  er_amount_minor : Z;
  er_transaction_id : string;
  er_recorded_at : Time;
}.

(** The columns of a fiat payment. *)
Record FiatColumns := mkFiat {
  fc_checkout_url : option string;
  fc_reported_at : option Time;
  fc_transaction_ref : option string;
  fc_verified_by : option string;
}.

Definition eta_fiat (f : FiatColumns) : FiatColumns :=
  mkFiat (fc_checkout_url f) (fc_reported_at f) (fc_transaction_ref f) (fc_verified_by f).

#[export] Hint Extern 1 (@Updater FiatColumns _ ?p) => updater_from eta_fiat p
  : typeclass_instances.

(** The FX quote a Bitcoin bind pins; its columns are null together. *)
Record BitcoinQuote := mkBitcoinQuote {
  bq_rate : string;
  bq_fetched_at : Time;
  bq_sats : Z;
  bq_expires_at : Time;
  bq_currency : string;
  bq_exponent : Z;
}.

(** The columns of a Paykit request only the bind writes. *)
Record BindColumns := mkBind {
  bd_attempt : Z;
  bd_delivery_state : option string;
  bd_expires_at : option Time;
  bd_prepare_expires_at : option Time;
  bd_allocation_mode : option string;
  bd_address_fingerprint : option string;
  bd_quote : option BitcoinQuote;
}.

Definition eta_bind (b : BindColumns) : BindColumns :=
  mkBind (bd_attempt b) (bd_delivery_state b) (bd_expires_at b) (bd_prepare_expires_at b)
    (bd_allocation_mode b) (bd_address_fingerprint b) (bd_quote b).

#[export] Hint Extern 1 (@Updater BindColumns _ ?p) => updater_from eta_bind p
  : typeclass_instances.

(** The verified PayPal payment of an order and its reversals. *)
Record PaypalColumns := mkPaypal {
  pp_txn_id : option string;
  pp_receiver_email : option string;
  pp_receiver_id : option string;
  pp_reversal_cancelled_at : option Time;
  pp_review_at : option Time;
}.

Definition eta_paypal (p : PaypalColumns) : PaypalColumns :=
  mkPaypal (pp_txn_id p) (pp_receiver_email p) (pp_receiver_id p) (pp_reversal_cancelled_at p)
    (pp_review_at p).

#[export] Hint Extern 1 (@Updater PaypalColumns _ ?p) => updater_from eta_paypal p
  : typeclass_instances.

Record OrderRow := mkOrder {
  o_id : Uuid;
  o_checkout_command_id : option Uuid;
  o_auction_aggregate_id : option string;
  o_drop_aggregate_id : option string;
  o_buyer_pubky : Pubky;
  o_seller_pubky : Pubky;
  o_revision : Z;
  o_state : OrderState;
  o_lines : list OrderLine;
  o_delivery_address : option DeliveryAddress;
  o_subtotal_minor : Z;
  o_shipping_minor : Z;
  o_total_minor : Z;
  o_currency : string;
  o_exponent : Z;
  o_guarantee_policy_version : Z;
  o_payment_id : Uuid;
  o_receipt_id : option Uuid;
  o_edition : option Z;
  o_cancellation_reason : option string;
  o_stock_held : bool;
  o_hold_expires_at : option Time;
  o_hold_source : option string;
  o_shipment : option Shipment;
  o_delivery_assumed : bool;
  o_return_request : option ReturnRequest;
  o_external_refund : option ExternalRefund;
  o_payment_method : option string;
  o_paykit_request_reference : option string;
  o_paykit_request_state : option string;
  o_paykit_invoice_id : option Uuid;
  o_paykit_stack_id : option string;
  o_paykit_stack_endpoint : option string;
  o_paykit_total_sats : option Z;
  o_paykit_observed_sats : option Z;
  o_paykit_observation : option Json;
  o_paykit_seller_confirmation_entered_at : option Time;
  o_paykit_seller_confirmation_deadline : option Time;
  o_paykit_activation_state : option string;
  o_fulfillment : FulfillmentMethod;
  o_first_revealed_at : option Time;
  o_created_at : Time;
  o_updated_at : Time;
  o_offer_award_id : option Uuid;
  o_priced_from : string;
  o_digital_delivered_at : option Time;
  o_digital_message_delivered_at : option Time;
  o_payment_reversed_at : option Time;
  o_fiat : FiatColumns;
  o_bind : BindColumns;
  o_paypal : PaypalColumns;
}.

Definition eta_order (o : OrderRow) : OrderRow :=
  mkOrder (o_id o) (o_checkout_command_id o) (o_auction_aggregate_id o)
    (o_drop_aggregate_id o) (o_buyer_pubky o) (o_seller_pubky o) (o_revision o)
    (o_state o) (o_lines o) (o_delivery_address o) (o_subtotal_minor o)
    (o_shipping_minor o) (o_total_minor o) (o_currency o) (o_exponent o)
    (o_guarantee_policy_version o) (o_payment_id o) (o_receipt_id o) (o_edition o)
    (o_cancellation_reason o) (o_stock_held o) (o_hold_expires_at o) (o_hold_source o)
    (o_shipment o) (o_delivery_assumed o) (o_return_request o) (o_external_refund o)
    (o_payment_method o) (o_paykit_request_reference o) (o_paykit_request_state o)
    (o_paykit_invoice_id o) (o_paykit_stack_id o) (o_paykit_stack_endpoint o)
    (o_paykit_total_sats o) (o_paykit_observed_sats o) (o_paykit_observation o)
    (o_paykit_seller_confirmation_entered_at o) (o_paykit_seller_confirmation_deadline o)
    (o_paykit_activation_state o) (o_fulfillment o) (o_first_revealed_at o)
    (o_created_at o) (o_updated_at o) (o_offer_award_id o) (o_priced_from o)
    (o_digital_delivered_at o) (o_digital_message_delivered_at o) (o_payment_reversed_at o)
    (o_fiat o) (o_bind o) (o_paypal o).

#[export] Hint Extern 1 (@Updater OrderRow _ ?p) => updater_from eta_order p
  : typeclass_instances.

Record PaymentRow := mkPayment {
  p_id : Uuid;
  p_order_id : Uuid;
  p_buyer_pubky : Pubky;
  p_seller_pubky : Pubky;
  p_revision : Z;
  p_adapter : string;
  p_state : PaymentState;
  p_confirmations : Z;
  p_amount_minor : Z;
  p_currency : string;
  p_exponent : Z;
  p_merchandise_amount_minor : option Z;
  p_merchandise_currency : option string;
  p_merchandise_exponent : option Z;
  p_manual_review_entered_at : option Time;
  p_manual_review_sla_alerted_at : option Time;
  p_resolution_id : option Uuid;
  p_resolution_outcome : option string;
  p_resolution_basis : option string;
  p_resolved_at : option Time;
  p_resolved_by_pubky : option string;
  p_refund_reference : option string;
  p_review_reason : option string;
  p_created_at : Time;
  p_updated_at : Time;
}.

Definition eta_payment (p : PaymentRow) : PaymentRow :=
  mkPayment (p_id p) (p_order_id p) (p_buyer_pubky p) (p_seller_pubky p) (p_revision p)
    (p_adapter p) (p_state p) (p_confirmations p) (p_amount_minor p) (p_currency p)
    (p_exponent p) (p_merchandise_amount_minor p) (p_merchandise_currency p)
    (p_merchandise_exponent p) (p_manual_review_entered_at p)
    (p_manual_review_sla_alerted_at p) (p_resolution_id p) (p_resolution_outcome p)
    (p_resolution_basis p) (p_resolved_at p) (p_resolved_by_pubky p) (p_refund_reference p)
    (p_review_reason p) (p_created_at p) (p_updated_at p).

#[export] Hint Extern 1 (@Updater PaymentRow _ ?p) => updater_from eta_payment p
  : typeclass_instances.

Record ReceiptRow := mkReceipt {
  rc_id : Uuid;
  rc_order_id : Uuid;
  rc_payment_id : Uuid;
  rc_issuer_pubky : Pubky;
  rc_recipient_pubky : Pubky;
  rc_total_minor : Z;
  rc_currency : string;
  rc_exponent : Z;
  rc_merchandise_total_minor : Z;
  rc_issued_at : Time;
}.

Record DropRow := mkDrop {
  d_aggregate_id : string;
  d_seller_pubky : Pubky;
  d_drop_id : string;
  d_record_revision : Z;
  d_revision : Z;
  d_state : DropState;
  d_starts_at : Time;
  d_ends_at : option Time;
  d_total_quantity : Z;
  d_per_buyer_limit : Z;
  d_remaining_quantity : Z;
  d_paid_quantity : Z;
  d_stock_display : string;
  d_listing_ids : list string;
  d_created_at : Time;
  d_updated_at : Time;
}.

Definition eta_drop (d : DropRow) : DropRow :=
  mkDrop (d_aggregate_id d) (d_seller_pubky d) (d_drop_id d) (d_record_revision d)
    (d_revision d) (d_state d) (d_starts_at d) (d_ends_at d) (d_total_quantity d)
    (d_per_buyer_limit d) (d_remaining_quantity d) (d_paid_quantity d)
    (d_stock_display d) (d_listing_ids d) (d_created_at d) (d_updated_at d).

#[export] Hint Extern 1 (@Updater DropRow _ ?p) => updater_from eta_drop p
  : typeclass_instances.

(** A [drop_listings] row; its key is (drop, seller, listing). *)
Record DropListingRow := mkDropListing {
  dl_active : bool;
  dl_released : bool;
  dl_listing_generation : Z;
}.

(** A [drop_purchases] row; its key is (drop, buyer). *)
Record DropPurchaseRow := mkDropPurchase {
  dp_quantity : Z;
  dp_per_buyer_limit : Z;
}.

Record Event := mkEvent {
  e_id : Uuid;
  e_command_id : Uuid;
  e_aggregate_id : string;
  e_revision : Z;
  e_actor_pubky : Pubky;
  e_kind : string;
  e_occurred_at : Time;
}.

(** Why a Bitcoin payment waits for the seller's decision. *)
Inductive BitcoinReviewNotice :=
| LateSettlement | AmountMismatch | ConfirmationFailed | SellerConfirmationWindowElapsed
| SellerResponseOverdue.

#[export] Instance BitcoinReviewNotice_eq_dec : EqDecision BitcoinReviewNotice.
Proof. solve_decision. Defined.

(** Why a notification can never be delivered. *)
Inductive OutboxQuarantine :=
| UnroutableKind | MissingRecipientPubky | MissingActorPubky | MissingAggregateId.

(** The payloads of the outbox: those the handlers enqueue, typed, and any
    other document. *)
Inductive OutboxPayload :=
| NotificationIntent (recipient actor aggregate_id : string) (amount : option Money)
| PaykitVoid (invoice_id order_id : Uuid) (stack_id stack_endpoint reason : string)
| PaykitActivate (order_id invoice_id : Uuid) (stack_id : string) (total_sats : Z) (stack_endpoint : string)
    (activation_attempt : Z)
| BitcoinReviewIntent (recipient aggregate_id : string) (reason : BitcoinReviewNotice)
(** Any other document the JSONB column holds. *)
| StoredPayload (document : Json).

Record OutboxRow := mkOutbox {
  ob_event_id : Uuid;
  ob_kind : string;
  ob_payload : OutboxPayload;
  ob_created_at : Time;
  ob_lease_until : option Time;
  ob_delivered_at : option Time;
  ob_quarantine : option (Time * OutboxQuarantine);
}.

Definition eta_outbox (r : OutboxRow) : OutboxRow :=
  mkOutbox (ob_event_id r) (ob_kind r) (ob_payload r) (ob_created_at r) (ob_lease_until r)
    (ob_delivered_at r) (ob_quarantine r).

#[export] Hint Extern 1 (@Updater OutboxRow _ ?p) => updater_from eta_outbox p
  : typeclass_instances.

(** A [notifications] row; its key is (event, recipient). *)
Record NotificationRow := mkNotification {
  nt_id : Uuid;
  nt_actor_pubky : string;
  nt_type : string;
  nt_aggregate_id : string;
  nt_amount : option Json;
  nt_review_reason : option string;
  nt_created_at : Time;
}.

(** A [listing_pickup_details] row; its key is (listing, version). *)
Record PickupDetailsRow := mkPickupDetailsRow {
  pk_aggregate_id : string;
  pk_seller_pubky : Pubky;
  pk_version : Z;
  pk_ciphertext : string;
  pk_created_at : Time;
  pk_updated_at : Time;
}.

(** A [pickup_line_snapshots] row: the terms pinned at payment. *)
Record PickupPin := mkPickupPin {
  pp_order_id : Uuid;
  pp_line_index : nat;
  pp_listing_aggregate_id : string;
  pp_version : Z;
  pp_ciphertext : string;
  pp_adapter : string;
  pp_created_at : Time;
}.

(** A [listing_digital_versions] row. *)
Record DigitalVersionRow := mkDigitalVersion {
  dv_listing_aggregate_id : string;
  dv_seller_pubky : Pubky;
  dv_deliverable_id : string;
  dv_version : Z;
  dv_kind : string;
  dv_ciphertext : string;
  dv_ciphertext_blake3 : option string;
  dv_size_bytes : option Z;
  dv_content_type : option string;
  dv_created_at : Time;
  dv_superseded_at : option Time;
}.

Definition eta_digital_version (v : DigitalVersionRow) : DigitalVersionRow :=
  mkDigitalVersion (dv_listing_aggregate_id v) (dv_seller_pubky v) (dv_deliverable_id v)
    (dv_version v) (dv_kind v) (dv_ciphertext v) (dv_ciphertext_blake3 v) (dv_size_bytes v)
    (dv_content_type v) (dv_created_at v) (dv_superseded_at v).

#[export] Hint Extern 1 (@Updater DigitalVersionRow _ ?p) => updater_from eta_digital_version p
  : typeclass_instances.

(** An [order_digital_pins] row. *)
Record DigitalPin := mkDigitalPin {
  gp_order_id : Uuid;
  gp_line_index : nat;
  gp_listing_aggregate_id : string;
  gp_deliverable_id : string;
  gp_version : Z;
  gp_kind : string;
  gp_ciphertext : string;
  gp_adapter : string;
  gp_created_at : Time;
}.

(** A [payment_locks_checkout_snapshots] row: the seller's lock as the cart saw
    it, its resource sealed. *)
Record LocksSnapshot := mkLocksSnapshot {
  ls_order_id : Uuid;
  ls_expected_resource_ciphertext : string;
  ls_expected_resource_hash : string;
  ls_criterion_id : string;
  ls_amount_minor : Z;
  ls_asset : string;
  ls_exponent : Z;
  ls_expected_reader_pubky : Pubky;
  ls_expected_recipient_pubky : Pubky;
  ls_created_at : Time;
}.

Inductive PreparationState := PrPrepared | PrRegistered.
Inductive VerificationState := VfPending | VfCompleted | VfUpstreamFailed | VfUpstreamExpired.

#[export] Instance PreparationState_eq_dec : EqDecision PreparationState.
Proof. solve_decision. Defined.
#[export] Instance VerificationState_eq_dec : EqDecision VerificationState.
Proof. solve_decision. Defined.

(** A [payment_locks_correlations] row. *)
Record CorrelationRow := mkCorrelation {
  cr_id : Uuid;
  cr_payment_id : Uuid;
  cr_order_id : Uuid;
  cr_buyer_pubky : Pubky;
  cr_creator_pubky : Pubky;
  cr_lock_resource_hash : string;
  cr_amount_minor : Z;
  cr_asset : string;
  cr_exponent : Z;
  cr_policy_version : Z;
  cr_bundle_id_ciphertext : option string;
  cr_bundle_lookup_token : option string;
  cr_verification_state : VerificationState;
  cr_window_expires_at : Time;
  cr_last_checked_at : option Time;
  cr_last_observed_status : option string;
  cr_completed_at : option Time;
  cr_expected_resource_ciphertext : option string;
  cr_expected_resource_hash : option string;
  cr_criterion_id : option string;
  cr_expected_reader_pubky : option Pubky;
  cr_expected_recipient_pubky : option Pubky;
  cr_client_reference_ciphertext : option string;
  cr_preparation_state : PreparationState;
  cr_binding_outcome : option string;
  cr_created_at : Time;
  cr_updated_at : Time;
}.

Definition eta_correlation (c : CorrelationRow) : CorrelationRow :=
  mkCorrelation (cr_id c) (cr_payment_id c) (cr_order_id c) (cr_buyer_pubky c)
    (cr_creator_pubky c) (cr_lock_resource_hash c) (cr_amount_minor c) (cr_asset c)
    (cr_exponent c) (cr_policy_version c) (cr_bundle_id_ciphertext c)
    (cr_bundle_lookup_token c) (cr_verification_state c) (cr_window_expires_at c)
    (cr_last_checked_at c) (cr_last_observed_status c) (cr_completed_at c)
    (cr_expected_resource_ciphertext c) (cr_expected_resource_hash c) (cr_criterion_id c)
    (cr_expected_reader_pubky c) (cr_expected_recipient_pubky c)
    (cr_client_reference_ciphertext c) (cr_preparation_state c) (cr_binding_outcome c)
    (cr_created_at c) (cr_updated_at c).

#[export] Hint Extern 1 (@Updater CorrelationRow _ ?p) => updater_from eta_correlation p
  : typeclass_instances.

(** A [payment_locks_binding_outcomes] row. *)
Record BindingOutcomeRow := mkBindingOutcome {
  bo_id : Uuid;
  bo_payment_id : Uuid;
  bo_command_id : Uuid;
  bo_outcome : string;
  bo_recorded_at : Time;
}.

(** A [payment_locks_observations] row. *)
Record ObservationRow := mkObservation {
  ob_correlation_id : Uuid;
  ob_observed_status : string;
  ob_outcome : string;
  ob_observed_at : Time;
}.

Record ReviewRow := mkReview {
  rw_id : Uuid;
  rw_order_id : Uuid;
  rw_reviewer_pubky : Pubky;
  rw_reviewer_role : Role;
  rw_subject_pubky : Pubky;
  rw_rating : Z;
  rw_text : string;
  rw_created_at : Time;
  rw_updated_at : Time;
}.

Definition eta_review (r : ReviewRow) : ReviewRow :=
  mkReview (rw_id r) (rw_order_id r) (rw_reviewer_pubky r) (rw_reviewer_role r)
    (rw_subject_pubky r) (rw_rating r) (rw_text r) (rw_created_at r) (rw_updated_at r).

#[export] Hint Extern 1 (@Updater ReviewRow _ ?p) => updater_from eta_review p
  : typeclass_instances.

(** The claims of a purchase attestation ([attestor.rs]).  The completion
    date is kept as the day since the epoch that [%Y-%m-%d] prints. *)
Record PurchaseClaims := mkPurchaseClaims {
  pc_iss : Pubky;
  pc_sub : Pubky;
  pc_cpk : Pubky;
  pc_role : string;
  pc_listing : string;
  pc_order_ref : string;
  pc_completed_on : Z;
  pc_amount_band : option string;
  pc_iat : Z;
}.

(** A [review_attestations] row; its key is (order, reviewer). *)
Record AttestationRow := mkAttestation {
  rt_order_ref : string;
  rt_jws : string;
  rt_claims : PurchaseClaims;
  rt_issued_at : Time;
}.

(** An [attestation_band_consents] row; its key is the seller. *)
Record BandConsent := mkBandConsent {
  bn_allows_amount_band : bool;
  bn_revision : Z;
  bn_updated_at : Time;
}.

(** A [listing_pickup_version_counters] or [listing_digital_counters] row; its
    key is the listing. *)
Record VersionCounter := mkCounter {
  vc_seller_pubky : Pubky;
  vc_last_version : Z;
  vc_cleared_at : option Time;
  vc_updated_at : Time;
}.

Definition eta_counter (c : VersionCounter) : VersionCounter :=
  mkCounter (vc_seller_pubky c) (vc_last_version c) (vc_cleared_at c) (vc_updated_at c).

#[export] Hint Extern 1 (@Updater VersionCounter _ ?p) => updater_from eta_counter p
  : typeclass_instances.

(** An [order_delivery_emails] row, with the sealed address; a purge leaves
    none. *)
Record DeliveryEmailRow := mkDeliveryEmailRow {
  em_buyer_pubky : Pubky;
  em_ciphertext : option string;
  em_emailed_at : option Time;
  em_purged_at : option Time;
  em_created_at : Time;
  em_updated_at : Time;
}.

Definition eta_email (e : DeliveryEmailRow) : DeliveryEmailRow :=
  mkDeliveryEmailRow (em_buyer_pubky e) (em_ciphertext e) (em_emailed_at e) (em_purged_at e)
    (em_created_at e) (em_updated_at e).

#[export] Hint Extern 1 (@Updater DeliveryEmailRow _ ?p) => updater_from eta_email p
  : typeclass_instances.

(** ** Order projections ([model.rs]) *)

Inductive ProjectionContext :=
| BuyerSingleOrder (authenticated_actor : Pubky)
| SellerSingleOrder (authenticated_actor : Pubky)
| ParticipantList (authenticated_actor : Pubky)
| CommandResult (authenticated_actor : Pubky)
| ReceiptContext
| Attestation
| NotificationContext.

Definition can_reveal_delivery_address (actor seller : Pubky) (fulfillment : FulfillmentMethod)
    (state : OrderState) : bool :=
  (actor =? seller)%string && bool_decide (fulfillment = Shipping) &&
  match state with OPaid | OProcessing => true | _ => false end.

Definition eligible_delivery_address (o : OrderRow) (actor : Pubky) : option DeliveryAddress :=
  if can_reveal_delivery_address actor (o_seller_pubky o) (o_fulfillment o) (o_state o)
  then o_delivery_address o else None.

(** A bitcoin-bound order in a bitcoin asset shows the sats it charges. *)
Definition displayed_total (o : OrderRow) : Z :=
  if (o_currency o =? "SAT")%string || (o_currency o =? "BTC")%string
  then default (o_total_minor o) (o_paykit_total_sats o) else o_total_minor o.

(** An order as a response shows it: the row without its address, the total
    displayed, and the address where the context discloses it. *)
Record OrderView := mkOrderView {
  ov_order : OrderRow;
  ov_total : Z;
  ov_delivery_address : option DeliveryAddress;
}.

(** The columns of the payment observation, which only the seller is shown. *)
Definition without_evidence (o : OrderRow) : OrderRow :=
  o <| o_paykit_observation := None |> <| o_paykit_observed_sats := None |>
    <| o_paykit_seller_confirmation_entered_at := None |>
    <| o_paykit_seller_confirmation_deadline := None |>.

(** [OrderRow::project]. *)
Definition project (o : OrderRow) (context : ProjectionContext) : OrderView :=
  mkOrderView (without_evidence (o <| o_delivery_address := None |>)) (displayed_total o)
    (match context with
     | SellerSingleOrder actor => eligible_delivery_address o actor
     | _ => None
     end).

(** The projection of every command result. *)
Definition command_view (o : OrderRow) : OrderView := project o (CommandResult "").

(** ** The Bitcoin review *)

(** [paykit_seller_confirmations]: the observation a seller acted on. *)
Record SellerConfirmationRow := mkSellerConfirmation {
  sc_payment_id : Uuid;
  sc_confirmed_by_pubky : Pubky;
  sc_confirmed_at : Time;
  sc_confirmed_txid : option string;
  sc_confirmed_amount_sats : option Z;
  sc_confirmed_reason : option string;
  sc_paykit_observation : Json;
  sc_event_id : Uuid;
}.

(** What the seller of an order is shown of its bitcoin payment. *)
Record PaymentEvidence := mkPaymentEvidence {
  ev_paykit_observation : Json;
  ev_paykit_observed_sats : option Z;
  ev_entered_at : option Time;
  ev_deadline : option Time;
}.

(** The stored answer of a resolution. *)
Record ResolutionResponse := mkResolutionResponse {
  rr_order : OrderView;
  rr_evidence : option PaymentEvidence;
  rr_order_id : Uuid;
  rr_resolution_id : Uuid;
  rr_outcome : string;
  rr_basis : string;
  rr_resolved_at : Time;
  rr_resolved_by_pubky : option string;
}.

(** What was observed and charged when the review was resolved. *)
Record ObservedPayment := mkObservedPayment {
  op_observation : option Json;
  op_payment_amount_minor : Z;
  op_currency : string;
  op_exponent : Z;
  op_paykit_observed_sats : option Z;
}.

(** [paykit_manual_resolutions]. *)
Record ManualResolutionRow := mkManualResolution {
  mr_payment_id : Uuid;
  mr_resolution_id : Uuid;
  mr_outcome : string;
  mr_basis : string;
  mr_resolved_at : Time;
  mr_resolved_by_pubky : option string;
  mr_reason : option string;
  mr_refund_reference : option string;
  mr_observed_payment_snapshot : ObservedPayment;
  mr_request_hash : string;
  mr_response : ResolutionResponse;
  mr_event_id : Uuid;
}.

Inductive DeliveryState := DQueued | DDelivered | DTerminalUnresolved.

#[export] Instance DeliveryState_eq_dec : EqDecision DeliveryState.
Proof. solve_decision. Defined.

(** [paykit_resolve_outbox]: the outcome Paykit has to be told, to the stack
    and endpoint the order was bound to. *)
Record ResolveRow := mkResolve {
  rv_payment_id : Uuid;
  rv_event_id : Uuid;
  rv_invoice_id : Uuid;
  rv_resolution : string;
  rv_resolved_at : Time;
  rv_stack_id : string;
  rv_stack_endpoint : string;
  rv_delivery_state : DeliveryState;
  rv_acknowledged_at : option Time;
  rv_next_attempt_at : Time;
  rv_delivery_deadline : Time;
  rv_created_at : Time;
}.

(** ** Handler results ([result.rs]) *)

Record ValidationIssue := mkIssue {
  vi_path : string;
  vi_message : string;
}.

(** A refused command, without its audit classification. *)
Record CommandFailure := mkFailure {
  f_code : ErrorCode;
  f_message : string;
  f_current_revision : option Z;
  f_issues : option (list ValidationIssue);
  f_reason : option string;
}.

Definition refused (code : ErrorCode) (message : string) : CommandFailure :=
  mkFailure code message None None None.

Definition refused_with_reason (code : ErrorCode) (message reason : string) : CommandFailure :=
  mkFailure code message None None (Some reason).

Definition refused_with_revision (code : ErrorCode) (message : string) (current_revision : Z)
    : CommandFailure :=
  mkFailure code message (Some current_revision) None None.

Definition refused_with_issues (code : ErrorCode) (message : string)
    (issues : list ValidationIssue) : CommandFailure :=
  mkFailure code message None (Some issues) None.

Definition invalid_envelope (issues : list ValidationIssue) : CommandFailure :=
  refused_with_issues InvalidCommand "The marketplace command is invalid." issues.

(** The order an offer checkout answers with. *)
Record OfferOrderView := mkOfferOrderView {
  oo_id : Uuid;
  oo_offer_award_id : Uuid;
  oo_lines : list OrderLine;
  oo_subtotal : Money;
  oo_shipping : Money;
  oo_total : Money;
  oo_payment_id : Uuid;
  oo_hold_expires_at : Time;
}.

(** The rows a handler returns; an order passes its projection. *)
(** The reserve fields an auction's seller reads. *)
Record ReserveView := mkReserveView {
  rv_reserve_price : option Money;
  rv_reserve_met : bool;
  rv_reserve_record_revision : Z;
  rv_last_reserve_command_id : Uuid;
}.

(** A listing as one actor reads it: with their own bid (maximum and minimum
    next bid), and the reserve fields. *)
Record ListingProjection := mkListingProjection {
  lp_listing : ListingRow;
  lp_viewer_bid : option (Money * Money);
  lp_reserve : option ReserveView;
}.

Inductive HandlerValue :=
| VOrder (order : OrderView) (reviews : list ReviewRow)
| VReservation (listing : ListingRow) (reservation : ReservationRow)
| VDrop (drop : DropRow)
| VBid (listing : ListingRow) (bid : BidRow)
| VAuctionResult (winner : option Pubky) (listing : ListingRow)
    (reservation : option ReservationRow) (order : option OrderView)
    (payment : option PaymentRow)
| VPayment (payment : PaymentRow) (order : OrderView) (receipt : option ReceiptRow)
| VCheckout (orders : list OrderView) (payments : list PaymentRow)
| VOffer (offer : OfferRow)
| VAcceptedOffer (offer : OfferRow) (listing : ListingRow) (reservation : ReservationRow)
| VOfferOrder (order : OfferOrderView)
| VReview (order : OrderView) (reviews : list ReviewRow) (review : ReviewRow)
    (attestation : option (string * PurchaseClaims))
| VBandConsent (seller_pubky : Pubky) (consent : BandConsent)
| VPickupDetails (listing_aggregate_id : string) (version : Z) (cleared : bool)
    (updated_at : Time)
| VDigitalDelivery (listing_aggregate_id : string)
    (delivery : option (DigitalDeliveryKind * string)) (version : Z) (updated_at : Time)
| VListing (projection : ListingProjection)
| VDeletedListing (aggregate_id : string) (seller_pubky : Pubky) (listing_id : string)
    (server_revision : Z) (deleted_at : option Time)
| VLocksRegistered (payment : PaymentRow) (window_expires_at : Time)
| VPrepareLocks (client_reference : string) (window_expires_at : Time)
| VPrepareLocksSealed (client_reference_sealed : string) (window_expires_at : Time).

Record HandlerSuccess := mkSuccess {
  hs_revision : Z;
  hs_event_ids : list Uuid;
  hs_result : HandlerValue;
}.

(** The response envelope of [success_body]. *)
Record SuccessBody := mkSuccessBody {
  sb_command_id : Uuid;
  sb_aggregate_id : string;
  sb_revision : Z;
  sb_event_ids : list Uuid;
  sb_result : HandlerValue;
}.

Record StoredResult := mkStoredResult {
  sr_request_hash : string;
  sr_result : SuccessBody;
  sr_created_at : Time;
}.

(** One row per background task. *)
Record LeaseRow := mkLease {
  wl_holder : Uuid;
  wl_lease_until : Time;
  wl_fence : Z;
}.

(** How far the deletion follower read a seller's events. *)
Record DeletionCursorRow := mkDeletionCursor {
  dc_event_cursor : option Z;
  dc_polled_at : Time;
}.

Record RevivalCheckRow := mkRevivalCheck {
  rc_checked_generation : option Z;
  rc_attempted_at : Time;
}.

(** ** Inventory automation ([inventory.rs], migration 0034) *)

(** A row of [inventory_adjustment_results], by seller and idempotency key. *)
Record AdjustmentResultRow := mkAdjustmentResult {
  ar_request_hash : string;
  ar_aggregate_id : string;
  ar_event_id : Uuid;
  ar_result_json : string;
  ar_created_at : Time;
}.

(** A row of [inventory_adjustment_conflicts]. *)
Record AdjustmentConflictRow := mkAdjustmentConflict {
  ac_seller_pubky : Pubky;
  ac_idempotency_key : Uuid;
  ac_aggregate_id : string;
  ac_original_request_hash : string;
  ac_conflicting_request_hash : string;
  ac_observed_at : Time;
}.

(** A row of [inventory_external_refs], by seller, channel and external id. *)
Record ExternalRefRow := mkExternalRef {
  xr_aggregate_id : string;
  xr_event_id : Uuid;
  xr_request_hash : string;
  xr_created_at : Time;
}.

(** A token bucket of [inventory_rate_limits]; the tokens are a double. *)
Record RateLimitRow := mkRateLimit {
  rt_tokens : spec_float;
  rt_updated_at : Time;
}.

(** ** The database *)

(** The refund-class notifications of PayPal. *)
Inductive GatewayStatus := GRefunded | GReversed | GCanceledReversal.

#[export] Instance GatewayStatus_eq_dec : EqDecision GatewayStatus.
Proof. solve_decision. Defined.

Record GatewayRefundRow := mkGatewayRefund {
  gw_order_id : Uuid;
  gw_parent_txn_id : string;
  gw_status : GatewayStatus;
  gw_amount_minor : Z;
  gw_from_state : option OrderState;
  gw_from_return_state : option ReturnState;
  gw_recorded_at : Time;
}.

Definition eta_gateway (g : GatewayRefundRow) : GatewayRefundRow :=
  mkGatewayRefund (gw_order_id g) (gw_parent_txn_id g) (gw_status g) (gw_amount_minor g)
    (gw_from_state g) (gw_from_return_state g) (gw_recorded_at g).

#[export] Hint Extern 1 (@Updater GatewayRefundRow _ ?p) => updater_from eta_gateway p
  : typeclass_instances.

Record RefundInboxRow := mkRefundInbox {
  ib_parent_txn_id : option string;
  ib_status : GatewayStatus;
  ib_reason : string;
  ib_order_id : option Uuid;
  ib_fields : gmap string string;
  ib_received_at : Time;
  ib_resolved_at : option Time;
}.

Definition eta_inbox (r : RefundInboxRow) : RefundInboxRow :=
  mkRefundInbox (ib_parent_txn_id r) (ib_status r) (ib_reason r) (ib_order_id r) (ib_fields r)
    (ib_received_at r) (ib_resolved_at r).

#[export] Hint Extern 1 (@Updater RefundInboxRow _ ?p) => updater_from eta_inbox p
  : typeclass_instances.

(** [seller_payment_configs]; the restricted key is sealed. *)
Record PaymentConfigRow := mkPaymentConfig {
  cf_bitcoin_enabled : bool;
  cf_stripe_payment_link : option string;
  cf_stripe_restricted_key : option string;
  cf_paypal_merchant_email : option string;
  cf_created_at : Time;
  cf_updated_at : Time;
}.

Record Db := mkDb {
  listings : gmap string ListingRow;
  auction_reserves : gmap string AuctionReserveRow;
  reservations : gmap Uuid ReservationRow;
  offers : gmap Uuid OfferRow;
  bids : gmap Uuid BidRow;
  orders : gmap Uuid OrderRow;
  payments : gmap Uuid PaymentRow;
  receipts : gmap Uuid ReceiptRow;
  drops : gmap string DropRow;
  drop_listings : gmap (string * string * string) DropListingRow;
  drop_purchases : gmap (string * string) DropPurchaseRow;
  pickup_handovers : gmap Uuid (Role * Time);
  pickup_details : gmap (string * Z) PickupDetailsRow;
  pickup_counters : gmap string VersionCounter;
  pickup_pins : list PickupPin;
  digital_versions : list DigitalVersionRow;
  digital_counters : gmap string VersionCounter;
  digital_pins : list DigitalPin;
  (** [order_digital_access] (order, line, instant). *)
  digital_access : list (Uuid * nat * Time);
  (** [order_gateway_refunds] by refund transaction. *)
  gateway_refunds : gmap string GatewayRefundRow;
  gateway_refund_inbox : gmap string RefundInboxRow;
  seller_payment_configs : gmap Pubky PaymentConfigRow;
  (** [paykit_superseded_attempts] (order, invoice). *)
  superseded_attempts : list (Uuid * Uuid);
  (** [attestation_annotations] (order reference, outcome, instant). *)
  annotations : list (string * string * Time);
  reviews : gmap Uuid ReviewRow;
  review_attestations : gmap (Uuid * string) AttestationRow;
  band_consents : gmap string BandConsent;
  delivery_emails : gmap Uuid DeliveryEmailRow;
  (** [paykit_manual_resolutions], [paykit_seller_confirmations] and
      [paykit_resolve_outbox] hold one row per order. *)
  manual_resolutions : gmap Uuid ManualResolutionRow;
  seller_confirmations : gmap Uuid SellerConfirmationRow;
  resolve_outbox : gmap Uuid ResolveRow;
  locks_snapshots : gmap Uuid LocksSnapshot;
  locks_correlations : gmap Uuid CorrelationRow;
  binding_outcomes : list BindingOutcomeRow;
  locks_observations : list ObservationRow;
  events : list Event;
  outbox : list OutboxRow;
  notifications : gmap (Uuid * string) NotificationRow;
  command_results : gmap (string * Uuid) StoredResult;
  worker_leases : gmap string LeaseRow;
  deletion_cursors : gmap Pubky DeletionCursorRow;
  revival_checks : gmap string RevivalCheckRow;
  adjustment_results : gmap (string * Uuid) AdjustmentResultRow;
  adjustment_conflicts : list AdjustmentConflictRow;
  external_refs : gmap (string * string * string) ExternalRefRow;
  inventory_rate_limits : gmap (string * string) RateLimitRow;
  (** Random values drawn so far. *)
  draws : N;
}.

Definition eta_db (d : Db) : Db :=
  mkDb (listings d) (auction_reserves d) (reservations d) (offers d) (bids d) (orders d)
    (payments d) (receipts d) (drops d) (drop_listings d) (drop_purchases d)
    (pickup_handovers d) (pickup_details d) (pickup_counters d) (pickup_pins d)
    (digital_versions d) (digital_counters d) (digital_pins d) (digital_access d)
    (gateway_refunds d) (gateway_refund_inbox d) (seller_payment_configs d) (superseded_attempts d) (annotations d) (reviews d)
    (review_attestations d) (band_consents d) (delivery_emails d)
    (manual_resolutions d) (seller_confirmations d) (resolve_outbox d)
    (locks_snapshots d) (locks_correlations d) (binding_outcomes d) (locks_observations d)
    (events d) (outbox d) (notifications d) (command_results d)
    (worker_leases d) (deletion_cursors d) (revival_checks d)
    (adjustment_results d) (adjustment_conflicts d) (external_refs d) (inventory_rate_limits d)
    (draws d).

#[export] Hint Extern 1 (@Updater Db _ ?p) => updater_from eta_db p
  : typeclass_instances.

Definition empty_db : Db :=
  mkDb ∅ ∅ ∅ ∅ ∅ ∅ ∅ ∅ ∅ ∅ ∅ ∅ ∅ ∅ [] [] ∅ [] [] ∅ ∅ ∅ [] [] ∅ ∅ ∅ ∅ ∅ ∅ ∅ ∅ ∅ [] [] [] [] ∅ ∅ ∅ ∅ ∅ ∅ [] ∅ ∅ 0.

(** A handler: a transaction over the store that may be refused. *)
Abbreviation H A := (Tx Db CommandFailure A).

(** ** Row constraints *)

Definition between (lo x hi : Z) : bool := (lo <=? x) && (x <=? hi).

(** The [listings] checks; the quantities and the revision are [BIGINT]. *)
Definition listing_check (l : ListingRow) : bool :=
  (0 <? l_listing_revision l) &&
  (0 <? l_server_revision l) && (l_server_revision l <=? i64_max) &&
  (0 <=? l_total_quantity l) && (l_total_quantity l <=? i64_max) &&
  (0 <=? l_available_quantity l) && (0 <=? l_reserved_quantity l) &&
  (0 <=? l_sold_quantity l) &&
  (0 <? l_unit_price_amount_minor l) &&
  between 0 (l_unit_price_exponent l) 18 &&
  (l_available_quantity l + l_reserved_quantity l + l_sold_quantity l
     =? l_total_quantity l).

Definition reservation_check (r : ReservationRow) : bool := 0 <? r_quantity r.

Definition hold_sources : list string := ["checkout"; "locks"; "bind"; "sandbox"; "drop_claim"].

Definition paykit_request_states : list string :=
  ["preparing"; "pending"; "detected"; "confirmed"; "awaiting_seller_confirmation"].

(** The [orders] checks on the columns the handlers write: the table of
    migration 0001 with the total of 0018 (no tax), the edition of 0011, the
    refund bound and the seller window of 0023, the observed amount of 0024
    and the hold sources of 0038. *)
(** [orders_fx_quote_check]: a pinned quote is of this order and this request. *)
Definition quote_check (o : OrderRow) : bool :=
  match bd_quote (o_bind o) with
  | None => true
  | Some q =>
      between 1 (bq_sats q) 100000000 &&
      bool_decide (bd_expires_at (o_bind o) = Some (bq_expires_at q)) &&
      (bq_currency q =? o_currency o)%string && (bq_exponent q =? o_exponent o)
  end.

(** [orders_paypal_txn_id_check]. *)
Definition paypal_check (p : PaypalColumns) : bool :=
  match pp_txn_id p with
  | None => bool_decide (pp_receiver_email p = None) && bool_decide (pp_receiver_id p = None)
  | Some id =>
      between 1 (chars_count id) 64 &&
      match pp_receiver_email p with None => true | Some e => between 1 (chars_count e) 254 end &&
      match pp_receiver_id p with
      | None => true
      | Some i => between 1 (chars_count i) 64 && bool_decide (is_Some (pp_receiver_email p))
      end
  end.

Definition order_check (o : OrderRow) : bool :=
  (0 <? o_revision o) && (o_revision o <=? i64_max) &&
  (0 <=? o_subtotal_minor o) && (0 <=? o_shipping_minor o) &&
  (0 <=? o_total_minor o) &&
  between 0 (o_exponent o) 18 &&
  (o_total_minor o =? o_subtotal_minor o + o_shipping_minor o) &&
  match o_edition o with None => true | Some e => 1 <=? e end &&
  match o_external_refund o with
  | None => true
  | Some r => between 1 (er_amount_minor r)
                (Z.max (o_total_minor o) (default (o_total_minor o) (o_paykit_total_sats o)))
  end &&
  match o_hold_source o with
  | None => true
  | Some s => existsb (String.eqb s) hold_sources
  end &&
  match o_paykit_request_state o with
  | None => true
  | Some s => existsb (String.eqb s) paykit_request_states &&
      Bool.eqb (s =? "awaiting_seller_confirmation")%string
        (bool_decide (is_Some (o_paykit_seller_confirmation_entered_at o)) &&
         bool_decide (is_Some (o_paykit_seller_confirmation_deadline o)))
  end &&
  match o_paykit_observed_sats o with
  | None => true
  | Some s => (0 <? s) && bool_decide (is_Some (o_paykit_total_sats o))
  end &&
  match o_payment_method o with
  | None => true
  | Some s => existsb (String.eqb s) ["bitcoin"; "stripe"; "paypal"]
  end &&
  match bd_delivery_state (o_bind o) with
  | None => true
  | Some s => existsb (String.eqb s) ["pending"; "delivered"; "failed"]
  end &&
  quote_check o && paypal_check (o_paypal o) &&
  between (- 2 ^ 31) (bd_attempt (o_bind o)) (2 ^ 31 - 1).

Definition review_reasons : list string :=
  ["late_settlement"; "refund_required"; "amount_mismatch"; "unpinned_legacy"].

(** Unresolved, or resolved completely and no longer in review. *)
Definition resolution_check (p : PaymentRow) : bool :=
  match p_resolution_outcome p, p_resolution_basis p, p_resolved_at p, p_resolution_id p with
  | None, None, None, None =>
      bool_decide (p_resolved_by_pubky p = None) && bool_decide (p_refund_reference p = None)
  | Some outcome, Some basis, Some _, Some _ =>
      existsb (String.eqb outcome) ["paid"; "refunded"; "abandoned"] &&
      existsb (String.eqb basis) ["seller_attestation"; "seller_unresponsive"] &&
      negb (bool_decide (p_state p = PManualReview)) &&
      Bool.eqb (basis =? "seller_attestation")%string
        (bool_decide (is_Some (p_resolved_by_pubky p))) &&
      Bool.eqb (outcome =? "refunded")%string (bool_decide (is_Some (p_refund_reference p)))
  | _, _, _, _ => false
  end.

(** The [payments] checks: migration 0001, the review entry and the
    resolution of 0023, the review reasons of 0038. *)
Definition payment_check (p : PaymentRow) : bool :=
  (0 <? p_revision p) && (p_revision p <=? i64_max) &&
  (0 <=? p_confirmations p) && (0 <=? p_amount_minor p) &&
  between 0 (p_exponent p) 18 &&
  bool_decide ((p_state p = PManualReview) <-> is_Some (p_manual_review_entered_at p)) &&
  resolution_check p &&
  match p_review_reason p with
  | None => true
  | Some s => existsb (String.eqb s) review_reasons
  end.

(** The shape of a [paykit_manual_resolutions] row. *)
Definition manual_resolution_check (r : ManualResolutionRow) : bool :=
  existsb (String.eqb (mr_outcome r)) ["paid"; "refunded"; "abandoned"] &&
  existsb (String.eqb (mr_basis r)) ["seller_attestation"; "seller_unresponsive"] &&
  Bool.eqb (mr_basis r =? "seller_unresponsive")%string
    (bool_decide (mr_resolved_by_pubky r = None)) &&
  Bool.eqb (mr_outcome r =? "refunded")%string (bool_decide (is_Some (mr_refund_reference r))).

Definition resolve_check (r : ResolveRow) : bool :=
  existsb (String.eqb (rv_resolution r)) ["paid_manually"; "refunded"; "abandoned"].

Definition drop_check (d : DropRow) : bool :=
  (0 <? d_record_revision d) && (0 <? d_revision d) && (d_revision d <=? i64_max) &&
  between 1 (d_total_quantity d) 1000000 &&
  between 1 (d_per_buyer_limit d) 100 && (d_per_buyer_limit d <=? d_total_quantity d) &&
  between 0 (d_remaining_quantity d) (d_total_quantity d) &&
  between 0 (d_paid_quantity d) (d_total_quantity d) &&
  match d_ends_at d with None => true | Some e => d_starts_at d <? e end.

Definition drop_purchase_check (p : DropPurchaseRow) : bool :=
  between 0 (dp_quantity p) (dp_per_buyer_limit p).

Definition bid_check (b : BidRow) : bool :=
  (0 <? b_maximum_amount_minor b) && (0 <? b_sequence b) && between 0 (b_exponent b) 18.

Definition receipt_check (r : ReceiptRow) : bool :=
  (0 <=? rc_total_minor r) && between 0 (rc_exponent r) 18.

(** The [offers] checks: migration 0001 with the award snapshot of 0025 and the
    accepted methods of 0044. *)
Definition award_check (a : OfferAward) : bool :=
  (0 <? aw_unit_price_minor a) && between 0 (aw_exponent a) 18 && (0 <? aw_quantity a) &&
  (0 <? aw_listing_revision a) && (0 <=? aw_shipping_minor a) &&
  (0 <? aw_subtotal_minor a) && (0 <? aw_total_minor a) &&
  match aw_fulfillment_methods a with
  | None => true
  | Some ms =>
      between 1 (Z.of_nat (length ms)) 2 && negb (bool_decide (Digital ∈ ms)) &&
      (bool_decide (Shipping ∈ ms) || (aw_shipping_minor a =? 0))
  end.

Definition offer_check (o : OfferRow) : bool :=
  (0 <? of_revision o) && (of_revision o <=? i64_max) &&
  (0 <? of_amount_minor o) && between 0 (of_exponent o) 18 && (0 <? of_quantity o) &&
  match of_award o with
  | Some a => award_check a
  | None => match of_state o with OfAccepted | OfConverted => false | _ => true end
  end &&
  match of_state o with OfConverted => bool_decide (is_Some (of_converted o)) | _ => true end.

(** The [payment_locks_correlations] checks: migrations 0006, 0026 and 0027. *)
Definition correlation_check (c : CorrelationRow) : bool :=
  (0 <=? cr_amount_minor c) && between 0 (cr_exponent c) 18 &&
  match cr_preparation_state c with
  | PrPrepared =>
      bool_decide (is_Some (cr_expected_resource_ciphertext c)) &&
      bool_decide (is_Some (cr_expected_resource_hash c)) &&
      bool_decide (is_Some (cr_criterion_id c)) &&
      bool_decide (is_Some (cr_expected_reader_pubky c)) &&
      bool_decide (is_Some (cr_expected_recipient_pubky c)) &&
      bool_decide (is_Some (cr_client_reference_ciphertext c)) &&
      bool_decide (cr_bundle_id_ciphertext c = None) &&
      bool_decide (cr_bundle_lookup_token c = None)
  | PrRegistered =>
      bool_decide (is_Some (cr_bundle_id_ciphertext c)) &&
      bool_decide (is_Some (cr_bundle_lookup_token c))
  end.

Definition review_check (r : ReviewRow) : bool := between 1 (rw_rating r) 5.

Arguments listing_check : simpl never.
Arguments offer_check : simpl never.
Arguments order_check : simpl never.
Arguments payment_check : simpl never.
Arguments drop_check : simpl never.
Arguments bid_check : simpl never.

(** ** Statements *)

Section Statements.
Context {K V : Type} `{!EqDecision K, !Countable K}.
Context (table : Db -> gmap K V) `{!Updater table} (check : V -> bool).

(** [SELECT .. WHERE key = $1]. *)
Definition select (k : K) : H (option V) := gets (fun db => table db !! k).

Definition write (k : K) (v : V) : H unit :=
  if check v then modify (upd table (<[k := v]>)) else sql_fail CheckViolation.

(** [UPDATE .. SET .. WHERE key = $1 AND cond RETURNING *]: the new row, or
    nothing when no row matches. *)
Definition update_where (k : K) (cond : V -> bool) (f : V -> V) : H (option V) :=
  let* row := select k in
  match row with
  | Some v =>
      if cond v then do* write k (f v) in ret (Some (f v)) else ret None
  | None => ret None
  end.

(** [UPDATE .. RETURNING *] read with [fetch_one]. *)
Definition update_one (k : K) (cond : V -> bool) (f : V -> V) : H V :=
  let* row := update_where k cond f in or_fail row RowNotFound.

(** [INSERT] with its primary key and the other unique indexes. *)
Definition insert (k : K) (v : V) (clashes : Db -> bool) : H unit :=
  let* row := select k in
  let* clash := gets clashes in
  match row with
  | Some _ => sql_fail UniqueViolation
  | None => if clash then sql_fail UniqueViolation else write k v
  end.
End Statements.

Arguments select {K V _ _} table k.
Arguments update_where {K V _ _} table {_} check k cond f.
Arguments update_one {K V _ _} table {_} check k cond f.
Arguments insert {K V _ _} table {_} check k v clashes.
Arguments write {K V _ _} table {_} check k v.

Definition no_clash (_ : Db) : bool := false.
Definition always {V} (_ : V) : bool := true.

(** Some row of the table satisfies [p]. *)
Definition table_any {K V} `{!EqDecision K, !Countable K} (p : V -> bool) (m : gmap K V) : bool :=
  existsb (fun kv => p (snd kv)) (map_to_list m).

Lemma table_any_true {K V} `{!EqDecision K, !Countable K} (p : V -> bool) (m : gmap K V) :
  table_any p m = true <-> exists k v, m !! k = Some v /\ p v = true.
Proof.
  unfold table_any. rewrite existsb_exists. split.
  - intros ([k v] & Hin & Hp). exists k, v. split; [|done].
    by apply elem_of_map_to_list, list_elem_of_In.
  - intros (k & v & Hk & Hp). exists (k, v). split; [|done].
    by apply list_elem_of_In, elem_of_map_to_list.
Qed.
