(* ===== verification/Commands.v ===== *)
(** * Commands ([crates/domain/src/commands.rs])

    The command envelope, the payload of every command kind and the [kind]
    names.  The command text itself (serde parsing, canonical JSON, the
    SHA-256 request hash) is a parameter of validation and of the executor. *)

From S2P Require Import Prelude Domain Store.

Record AuctionTerms := mkAuctionTerms {
  at_starts_at : Time;
  at_ends_at : Time;
  at_minimum_increment : Money;
  at_anti_sniping_window_seconds : Z;
  at_anti_sniping_extension_seconds : Z;
}.

Record AuctionReserve := mkReserve {
  rs_expected_record_revision : Z;
  rs_record_revision : Z;
  rs_reserve_price : option Money;
}.

Record DigitalLockMetadata := mkDigitalLock {
  dk_policy_uri : string;
  dk_criterion_id : string;
}.

Record RegisterListingPayload := mkRegisterListing {
  rl_seller_pubky : Pubky;
  rl_listing_id : string;
  rl_title : string;
  rl_listing_revision : Z;
  rl_content_hash : string;
  rl_quantity : Z;
  rl_unit_price : Money;
  rl_shipping_minor : Z;
  rl_sale_format : SaleFormat;
  rl_auction_terms : option AuctionTerms;
  rl_auction_reserve : option AuctionReserve;
  rl_fulfillment_methods : list FulfillmentMethod;
  rl_digital_lock : option DigitalLockMetadata;
}.

Definition UNLIMITED_STOCK_QUANTITY : Z := 1000000.

Definition registers_unlimited_cap_with_physical_methods (p : RegisterListingPayload) : bool :=
  (rl_quantity p =? UNLIMITED_STOCK_QUANTITY) &&
  existsb (fun m => match m with Shipping | Pickup => true | Digital => false end)
    (rl_fulfillment_methods p).

Record SyncListingPayload := mkSyncListing {
  sl_seller_pubky : Pubky;
  sl_listing_id : string;
}.

Record SyncDropPayload := mkSyncDrop {
  sd_seller_pubky : Pubky;
  sd_drop_id : string;
}.

Record ReserveInventoryPayload := mkReserveInventory {
  ri_quantity : Z;
  ri_reservation_ttl_seconds : Z;
}.

Record CheckoutLine := mkCheckoutLine {
  cl_listing_aggregate_id : string;
  cl_expected_revision : Z;
  cl_quantity : Z;
  cl_variant_id : option string;
  cl_variant_options : option (list (string * string));
  cl_fulfillment : option FulfillmentMethod;
}.

Record CreateCheckoutPayload := mkCreateCheckout {
  cc_lines : list CheckoutLine;
  cc_delivery_address : option DeliveryAddress;
  cc_delivery_email : option string;
  cc_guarantee_policy_version : Z;
}.

Record OfferTermsPayload := mkOfferTerms {
  ot_amount : Money;
  ot_quantity : Z;
  ot_expires_in_seconds : Z;
  ot_message : string;
}.

Record CounterOfferPayload := mkCounterOffer {
  co_offer_id : Uuid;
  co_amount : Money;
  co_quantity : Z;
  co_expires_in_seconds : Z;
  co_message : string;
}.

Record OfferActionPayload := mkOfferAction { oa_offer_id : Uuid }.

Record OfferCheckoutPayload := mkOfferCheckout {
  oc_offer_id : Uuid;
  oc_award_id : Uuid;
  oc_listing_aggregate_id : string;
  oc_listing_revision : Z;
  oc_listing_record_sha256 : string;
  oc_variant_id : string;
  oc_quantity : Z;
  oc_delivery_address : option DeliveryAddress;
  oc_fulfillment : option FulfillmentMethod;
  oc_guarantee_policy_version : Z;
}.

Record PlaceBidPayload := mkPlaceBid { pb_maximum_amount : Money }.

Inductive SandboxPaymentTarget := TDetected | TConfirmed | TExpired | TManualReview.

#[export] Instance SandboxPaymentTarget_eq_dec : EqDecision SandboxPaymentTarget.
Proof. solve_decision. Defined.

(** [SandboxPaymentTarget::as_str], as the payment state it names. *)
Definition target_state (t : SandboxPaymentTarget) : PaymentState :=
  match t with
  | TDetected => PDetected
  | TConfirmed => PConfirmed
  | TExpired => PExpired
  | TManualReview => PManualReview
  end.

Record AdvanceSandboxPaymentPayload := mkAdvancePayment {
  ap_payment_id : Uuid;
  ap_target : SandboxPaymentTarget;
  ap_confirmations : Z;
}.

Record RegisterLocksPayload := mkRegisterLocks {
  rk_payment_id : Uuid;
  rk_bundle_id : string;
}.

Record PrepareLocksPayload := mkPrepareLocks { pl_payment_id : Uuid }.

Record OrderActionPayload := mkOrderAction { ac_order_id : Uuid }.

Record RequestCancellationPayload := mkRequestCancellation {
  rcn_order_id : Uuid;
  rcn_reason : string;
}.

Record ShipOrderPayload := mkShipOrder {
  so_order_id : Uuid;
  so_carrier : string;
  so_tracking_number : string;
}.

Record SetDeliveryEmailPayload := mkSetDeliveryEmail {
  se_order_id : Uuid;
  se_delivery_email : string;
}.

Inductive DigitalDeliveryChannel := ChannelEmail | ChannelMessage.

Definition channel_kind (c : DigitalDeliveryChannel) : DigitalDeliveryKind :=
  match c with ChannelEmail => DEmail | ChannelMessage => DMessage end.

Record DeliverDigitalPayload := mkDeliverDigital {
  dd_order_id : Uuid;
  dd_channel : DigitalDeliveryChannel;
}.

Record RequestReturnPayload := mkRequestReturn {
  rq_order_id : Uuid;
  rq_reason : string;
  rq_requested_amount_minor : Z;
}.

Record RecordExternalRefundPayload := mkRecordRefund {
  rf_order_id : Uuid;
  rf_amount_minor : Z;
  rf_transaction_id : string;
}.

Record ReviewTermsPayload := mkReviewTerms {
  rv_order_id : Uuid;
  rv_rating : Z;
  rv_text : string;
  rv_allow_amount_band : bool;
}.

(** ** The versioned seller documents *)

Inductive PickupDetailsKind := KAddress | KSpot.

Record PickupWindow := mkPickupWindow {
  pw_day : string;
  pw_start : string;
  pw_end : string;
}.

Record PickupAvailability := mkPickupAvailability {
  pv_windows : option (list PickupWindow);
  pv_zone : string;
}.

Record PickupDetails := mkPickupDetails {
  pd_kind : PickupDetailsKind;
  pd_address : option DeliveryAddress;
  pd_spot : option string;
  pd_instructions : string;
  pd_availability : PickupAvailability;
}.

Record SetPickupDetailsPayload := mkSetPickupDetails {
  sp_expected_version : Z;
  sp_details : PickupDetails;
}.

Record ClearPickupDetailsPayload := mkClearPickupDetails { cp_expected_version : Z }.

Record DigitalFile := mkDigitalFile {
  df_deliverable_id : string;
  df_version : Z;
  df_key : string;
  df_iv : string;
  df_ciphertext_blake3 : string;
  df_plaintext_blake3 : string;
  df_size_bytes : Z;
  df_content_type : string;
  df_file_name : string;
}.

Inductive DigitalDelivery :=
| DeliverFile (file : DigitalFile)
| DeliverLink (url : string)
| DeliverText (text : string)
| DeliverEmail
| DeliverMessage.

(** [DigitalDelivery::kind]. *)
Definition delivery_kind (d : DigitalDelivery) : DigitalDeliveryKind :=
  match d with
  | DeliverFile _ => DFile
  | DeliverLink _ => DLink
  | DeliverText _ => DText
  | DeliverEmail => DEmail
  | DeliverMessage => DMessage
  end.

Record SetDigitalDeliveryPayload := mkSetDigitalDelivery {
  sg_expected_version : Z;
  sg_delivery : DigitalDelivery;
}.

Record ClearDigitalDeliveryPayload := mkClearDigitalDelivery { cg_expected_version : Z }.

Record SetBandConsentPayload := mkSetBandConsent { bc_allows_amount_band : bool }.

Inductive CommandPayload :=
| RegisterListing (p : RegisterListingPayload)
| SyncListing (p : SyncListingPayload)
| SyncDrop (p : SyncDropPayload)
| CancelDrop
| ReleaseDropListings
| ReserveInventory (p : ReserveInventoryPayload)
| CreateCheckout (p : CreateCheckoutPayload)
| CreateOffer (p : OfferTermsPayload)
| CounterOffer (p : CounterOfferPayload)
| AcceptOffer (p : OfferActionPayload)
| OfferCheckout (p : OfferCheckoutPayload)
| RejectOffer (p : OfferActionPayload)
| WithdrawOffer (p : OfferActionPayload)
| PlaceBid (p : PlaceBidPayload)
| CloseAuction
| AdvanceSandboxPayment (p : AdvanceSandboxPaymentPayload)
| PrepareLocks (p : PrepareLocksPayload)
| RegisterLocks (p : RegisterLocksPayload)
| RequestCancellation (p : RequestCancellationPayload)
| ApproveCancellation (p : OrderActionPayload)
| ShipOrder (p : ShipOrderPayload)
| ConfirmDelivery (p : OrderActionPayload)
| SetPickupDetails (p : SetPickupDetailsPayload)
| ClearPickupDetails (p : ClearPickupDetailsPayload)
| SetDigitalDelivery (p : SetDigitalDeliveryPayload)
| ClearDigitalDelivery (p : ClearDigitalDeliveryPayload)
| SetDeliveryEmail (p : SetDeliveryEmailPayload)
| DeliverDigital (p : DeliverDigitalPayload)
| MarkReadyForPickup (p : OrderActionPayload)
| ConfirmPickup (p : OrderActionPayload)
| RequestReturn (p : RequestReturnPayload)
| ApproveReturn (p : OrderActionPayload)
| ReceiveReturn (p : OrderActionPayload)
| RecordExternalRefund (p : RecordExternalRefundPayload)
| CreateReview (p : ReviewTermsPayload)
| UpdateReview (p : ReviewTermsPayload)
| SetBandConsent (p : SetBandConsentPayload).

Record Command := mkCommand {
  c_command_id : Uuid;
  c_aggregate_id : string;
  c_expected_revision : Z;
  c_issued_at : Time;
  c_payload : CommandPayload;
}.

(** [Command::kind]. *)
Definition kind (payload : CommandPayload) : string :=
  match payload with
  | RegisterListing _ => "listing.register"
  | SyncListing _ => "listing.sync"
  | SyncDrop _ => "drop.sync"
  | CancelDrop => "drop.cancel"
  | ReleaseDropListings => "drop.release_listings"
  | ReserveInventory _ => "inventory.reserve"
  | CreateCheckout _ => "checkout.create"
  | CreateOffer _ => "offer.create"
  | CounterOffer _ => "offer.counter"
  | AcceptOffer _ => "offer.accept"
  | OfferCheckout _ => "offer.checkout"
  | RejectOffer _ => "offer.reject"
  | WithdrawOffer _ => "offer.withdraw"
  | PlaceBid _ => "auction.place_bid"
  | CloseAuction => "auction.close"
  | AdvanceSandboxPayment _ => "payment.sandbox_advance"
  | PrepareLocks _ => "payment.prepare_locks"
  | RegisterLocks _ => "payment.register_locks"
  | RequestCancellation _ => "order.cancel_request"
  | ApproveCancellation _ => "order.cancel_approve"
  | ShipOrder _ => "fulfillment.ship"
  | ConfirmDelivery _ => "fulfillment.confirm_delivery"
  | SetPickupDetails _ => "pickup_details.set"
  | ClearPickupDetails _ => "pickup_details.clear"
  | SetDigitalDelivery _ => "digital_delivery.set"
  | ClearDigitalDelivery _ => "digital_delivery.clear"
  | SetDeliveryEmail _ => "order.set_delivery_email"
  | DeliverDigital _ => "fulfillment.deliver_digital"
  | MarkReadyForPickup _ => "fulfillment.mark_ready"
  | ConfirmPickup _ => "fulfillment.confirm_pickup"
  | RequestReturn _ => "return.request"
  | ApproveReturn _ => "return.approve"
  | ReceiveReturn _ => "return.receive"
  | RecordExternalRefund _ => "refund.record_external"
  | CreateReview _ => "review.create"
  | UpdateReview _ => "review.update"
  | SetBandConsent _ => "attestation.set_band_consent"
  end.
