(* ===== verification/Actions.v ===== *)
(** * Shared handler steps ([executor.rs] [insert_event], [handlers/mod.rs])

    The event log and outbox writes, the guards and the tail every order
    action shares, the listing reads and the listing lock order, with the
    Hoare rules of the statements they are made of. *)

From Stdlib Require Import Sorting.
From stdpp Require Import sorting.
From S2P Require Import Prelude Domain StateMachines Store Commands.

(** ** Rules for the statements *)

Section StatementRules.
Context {K V : Type} `{!EqDecision K, !Countable K}.
Context (table : Db -> gmap K V) `{!Updater table} (check : V -> bool).
Context (R : CommandFailure -> Db -> Prop) (db : Db).

Lemma wp_select k Q : Q (table db !! k) db -> wp (select table k) Q R db.
Proof. exact id. Qed.

Lemma wp_write k v Q :
  (check v = true -> Q tt (upd table (<[k := v]>) db)) -> wp (write table check k v) Q R db.
Proof. intros HQ. unfold wp, write. destruct (check v); [by apply HQ|exact I]. Qed.

Lemma wp_update_where k cond f (Q : option V -> Db -> Prop) :
  (forall v, table db !! k = Some v -> cond v = true -> check (f v) = true ->
     Q (Some (f v)) (upd table (<[k := f v]>) db)) ->
  ((forall v, table db !! k = Some v -> cond v = false) -> Q None db) ->
  wp (update_where table check k cond f) Q R db.
Proof.
  intros HS HN. unfold wp, update_where, bind, select, gets.
  destruct (table db !! k) as [v|] eqn:Ek; [|apply HN; congruence].
  destruct (cond v) eqn:Ec; [|apply HN; congruence].
  unfold write. destruct (check (f v)) eqn:Ew; [|exact I]. by apply HS.
Qed.

Lemma wp_update_one k cond f (Q : V -> Db -> Prop) :
  (forall v, table db !! k = Some v -> cond v = true -> check (f v) = true ->
     Q (f v) (upd table (<[k := f v]>) db)) ->
  wp (update_one table check k cond f) Q R db.
Proof.
  intros HS. apply wp_bind, wp_update_where; [|intros _; apply wp_sql_fail].
  intros v Hk Hc Hf. by apply wp_ret, HS.
Qed.

Lemma wp_insert k v clashes (Q : unit -> Db -> Prop) :
  (table db !! k = None -> clashes db = false -> check v = true ->
     Q tt (upd table (<[k := v]>) db)) ->
  wp (insert table check k v clashes) Q R db.
Proof.
  intros HQ. unfold wp, insert, bind, select, gets.
  destruct (table db !! k) eqn:Ek; [exact I|].
  destruct (clashes db) eqn:Ec; [exact I|].
  unfold write. destruct (check v) eqn:Ev; [by apply HQ|exact I].
Qed.

(** What a statement that ended did. *)
Lemma update_where_Done k cond f v db' :
  update_where table check k cond f db = Done v db' ->
  match v with
  | Some w => exists v0, table db !! k = Some v0 /\ cond v0 = true /\ check w = true /\
                w = f v0 /\ db' = upd table (<[k := w]>) db
  | None => db' = db /\ forall v0, table db !! k = Some v0 -> cond v0 = false
  end.
Proof.
  unfold update_where, bind, select, gets. destruct (table db !! k) as [v0|]; [|by intros [= <- <-]].
  destruct (cond v0) eqn:Ec; [|intros [= <- <-]; split; [done|by intros ? [= <-]]]. unfold write.
  destruct (check (f v0)) eqn:Ek; [|discriminate]. intros [= <- <-]. by exists v0.
Qed.

Lemma update_one_Done k cond f v db' :
  update_one table check k cond f db = Done v db' ->
  exists v0, table db !! k = Some v0 /\ cond v0 = true /\ check v = true /\ v = f v0 /\
    db' = upd table (<[k := v]>) db.
Proof.
  intros E. apply bind_Done in E as (w & db1 & E1 & E2).
  apply update_where_Done in E1. destruct w as [w|]; [|discriminate]. by injection E2 as -> ->.
Qed.

Lemma insert_Done k v clashes db' :
  insert table check k v clashes db = Done tt db' ->
  table db !! k = None /\ check v = true /\ db' = upd table (<[k := v]>) db.
Proof.
  unfold insert, bind, select, gets. destruct (table db !! k); [discriminate|].
  destruct (clashes db); [discriminate|]. unfold write. destruct (check v); [|discriminate].
  by intros [= <-].
Qed.
End StatementRules.

(** ** Reads *)

Definition fetch_listing (aggregate_id : string) : H (option ListingRow) :=
  select listings aggregate_id.

(** The row lock is a serialization device: the read is the same. *)
Definition fetch_listing_for_update (aggregate_id : string) : H (option ListingRow) :=
  select listings aggregate_id.

Definition live (o : option ListingRow) : option ListingRow :=
  match o with
  | Some l => if is_deleted l then None else Some l
  | None => None
  end.

Definition fetch_live_listing (aggregate_id : string) : H (option ListingRow) :=
  let* l := fetch_listing aggregate_id in ret (live l).

Definition fetch_live_listing_for_update (aggregate_id : string) : H (option ListingRow) :=
  let* l := fetch_listing_for_update aggregate_id in ret (live l).

Definition fetch_auction_reserve (aggregate_id : string) : H (option AuctionReserveRow) :=
  select auction_reserves aggregate_id.

Definition current_listing_revision (aggregate_id : string) : H Z :=
  gets (fun db => match listings db !! aggregate_id with
                  | Some l => l_server_revision l
                  | None => 0
                  end).

Definition fetch_order_for_update (order_id : Uuid) : H (option OrderRow) :=
  select orders order_id.

(** [SELECT .. FROM orders WHERE id = $1], without the lock. *)
Definition fetch_order (order_id : Uuid) : H (option OrderRow) := select orders order_id.

(** [ORDER BY created_at, id]. *)
Definition review_le (a b : ReviewRow) : Prop :=
  rw_created_at a < rw_created_at b \/
  (rw_created_at a = rw_created_at b /\ (rw_id a <= rw_id b)%N).

#[export] Instance review_le_dec a b : Decision (review_le a b).
Proof. unfold review_le. solve_decision. Defined.

Definition order_reviews (db : Db) (order_id : Uuid) : list ReviewRow :=
  merge_sort review_le
    (List.filter (fun r => N.eqb (rw_order_id r) order_id) (map snd (map_to_list (reviews db)))).

Definition fetch_order_reviews (order_id : Uuid) : H (list ReviewRow) :=
  gets (fun db => order_reviews db order_id).

(** ** Ids *)

Definition string_le (a b : string) : Prop := String.leb a b = true.

#[export] Instance string_le_dec a b : Decision (string_le a b).
Proof. unfold string_le. solve_decision. Defined.

(** ** Events and the outbox *)

Section Events.
Context `{!UuidCrate}.

(** The next draw of the random generator: a sealing nonce. *)
Definition fresh_nonce : H N :=
  let* n := gets draws in
  do* modify (upd draws N.succ) in
  ret n.

(** [Uuid::new_v4]. *)
Definition fresh_uuid : H Uuid :=
  let* n := gets draws in
  do* modify (upd draws N.succ) in
  ret (new_v4 n).

(** The unique indexes of [events]. *)
Definition event_clash (e : Event) (log : list Event) : bool :=
  existsb (fun e' =>
    N.eqb (e_id e') (e_id e)
    || ((e_aggregate_id e' =? e_aggregate_id e)%string && (e_revision e' =? e_revision e))
    || ((e_kind e =? "payment.confirmed") && (e_kind e' =? "payment.confirmed")
        && (e_aggregate_id e' =? e_aggregate_id e))%string) log.

Definition insert_event (command_id : Uuid) (aggregate_id : string) (revision : Z)
    (actor kind : string) (occurred_at : Time) : H Uuid :=
  let* event_id := fresh_uuid in
  let e := mkEvent event_id command_id aggregate_id revision actor kind occurred_at in
  let* log := gets events in
  if event_clash e log then sql_fail UniqueViolation
  else if revision <=? 0 then sql_fail CheckViolation
  else do* modify (upd events (fun l => l ++ [e])) in ret event_id.

(** [enqueue_notification]; the outbox row references its event. *)
Definition enqueue (event_id : Uuid) (kind : string) (payload : OutboxPayload) (now : Time)
    : H unit :=
  modify (upd outbox (fun l => l ++ [mkOutbox event_id kind payload now None None None])).

Definition insert_notification_intent (event_id : Uuid) (notification_type : string)
    (recipient_pubky actor_pubky aggregate_id : string) (amount : option Money) (now : Time)
    : H unit :=
  enqueue event_id ("notification." +:+ notification_type)
    (NotificationIntent recipient_pubky actor_pubky aggregate_id amount) now.

(** ** Order actions *)

(** [guard_order_action]: participant, aggregate identity, revision. *)
Definition guard_order_action (actor : string) (command : Command) (order : OrderRow)
    : option CommandFailure :=
  if (negb (actor =? o_buyer_pubky order) && negb (actor =? o_seller_pubky order))%string then
    Some (refused Unauthorized "Only order participants may act on it.")
  else if negb (c_aggregate_id command =? order_aggregate_id (o_id order))%string then
    Some (refused InvalidCommand "The order aggregate id is invalid.")
  else if negb (c_expected_revision command =? o_revision order) then
    Some (refused_with_revision RevisionConflict "The order revision is stale."
            (o_revision order))
  else None.

Definition guard (o : option CommandFailure) : H unit :=
  match o with Some f => refuse f | None => ret tt end.

(** [finish_order_action]: one event on the order, one notification. *)
Definition finish_order_action (actor : string) (command : Command) (order : OrderRow)
    (event_kind notification_type notification_recipient : string) (now : Time)
    : H HandlerSuccess :=
  let aggregate := order_aggregate_id (o_id order) in
  let* event_id := insert_event (c_command_id command) aggregate (o_revision order)
                     actor event_kind now in
  do* insert_notification_intent event_id notification_type notification_recipient
        actor aggregate None now in
  let* reviews := fetch_order_reviews (o_id order) in
  ret (mkSuccess (o_revision order) [event_id] (VOrder (command_view order) reviews)).

(** The fetch and the guards every order action begins with. *)
Definition load_order_action (actor : string) (command : Command) (order_id : Uuid)
    : H OrderRow :=
  let* row := fetch_order_for_update order_id in
  let* order := or_refuse row (refused NotFound "The order was not found.") in
  do* guard (guard_order_action actor command order) in
  ret order.
End Events.

(** [UPDATE orders SET revision = revision + 1, .. WHERE id = $1 AND
    revision = $2 RETURNING ..] read with [fetch_one]. *)
Definition bump_order (order : OrderRow) (f : OrderRow -> OrderRow) : H OrderRow :=
  update_one orders order_check (o_id order)
    (fun o => o_revision o =? o_revision order)
    (fun o => f (o <| o_revision := o_revision o + 1 |>)).

(** [can_transition] on the order machine, as the handlers assert it. *)
Definition assert_order_transition (f t : OrderState) : H unit :=
  debug_assert
    (Machines.can_transition Machines.order_machine (order_state_str f) (order_state_str t))
    "order transition".

Definition listing_can (f t : ListingState) : bool :=
  Machines.can_transition Machines.listing_machine (listing_state_str f) (listing_state_str t).

(** ** Rules for the shared steps *)

Lemma wp_fresh_nonce (R : CommandFailure -> Db -> Prop) Q db :
  Q (draws db) (upd draws N.succ db) -> wp fresh_nonce Q R db.
Proof. exact id. Qed.

(** One symbolic step through a handler; a refusal whose claim is trivial is
    discharged. *)
Ltac wp_step :=
  cbn beta;
  lazymatch goal with
  | |- wp (bind _ _) _ _ _ => apply wp_bind
  | |- wp (ret _) _ _ _ => apply wp_ret
  | |- wp (gets _) _ _ _ => apply wp_gets
  | |- wp (modify _) _ _ _ => apply wp_modify
  | |- wp (refuse _) _ _ _ => apply wp_refuse; try exact I
  | |- wp (sql_fail _) _ _ _ => apply wp_sql_fail
  | |- wp (refuse_if _ _) _ _ _ => apply wp_refuse_if; intros ?; [try exact I|]
  | |- wp (or_refuse _ _) _ _ _ => apply wp_or_refuse; [intros ?; try exact I|intros ? ?]
  | |- wp (or_fail _ _) _ _ _ => apply wp_or_fail; intros ? ?
  | |- wp (attempt _) _ _ _ => apply wp_attempt
  | |- wp fresh_nonce _ _ _ => apply wp_fresh_nonce
  | |- wp (select _ _) _ _ _ => apply wp_select
  | |- wp (write _ _ _ _) _ _ _ => apply wp_write; intros ?
  | |- wp (update_where _ _ _ _ _) _ _ _ => apply wp_update_where; [intros ? ? ? ?|intros ?]
  | |- wp (update_one _ _ _ _ _) _ _ _ => apply wp_update_one; intros ? ? ? ?
  | |- wp (insert _ _ _ _ _) _ _ _ => apply wp_insert; intros ? ? ?
  | |- wp (if ?b then _ else _) _ _ _ => destruct b eqn:?
  | |- wp (match ?x with _ => _ end) _ _ _ => destruct x eqn:?
  end.

(** No row matched although [Hk] has one: read off the condition. *)
Ltac no_row Hk :=
  match goal with
  | Hn : forall v, _ = Some v -> _ = false |- _ => specialize (Hn _ Hk); simpl in Hn
  end; reflect_bools.

Definition any_refusal (_ : CommandFailure) (_ : Db) : Prop := True.

Lemma wp_both {A} (m : H A) (Q1 Q2 : A -> Db -> Prop) db :
  wp m Q1 any_refusal db -> wp m Q2 any_refusal db ->
  wp m (fun a db' => Q1 a db' /\ Q2 a db') any_refusal db.
Proof. intros H1 H2. eapply wp_mono; [exact (wp_and _ _ _ _ _ _ H1 H2)|done|done]. Qed.

Section Rules.
Context `{!UuidCrate} (R : CommandFailure -> Db -> Prop).

Lemma wp_fresh_uuid Q db :
  Q (new_v4 (draws db)) (upd draws N.succ db) -> wp fresh_uuid Q R db.
Proof. exact id. Qed.

(** The event [insert_event] appends from [db]. *)
Definition event_of (db : Db) (command_id : Uuid) (aggregate_id : string) (revision : Z)
    (actor kind : string) (occurred_at : Time) : Event :=
  mkEvent (new_v4 (draws db)) command_id aggregate_id revision actor kind occurred_at.

Lemma wp_insert_event command_id aggregate_id revision actor kind occurred_at Q db :
  (let e := event_of db command_id aggregate_id revision actor kind occurred_at in
   event_clash e (events db) = false -> 0 < revision ->
   Q (e_id e) (upd events (fun l => l ++ [e]) (upd draws N.succ db))) ->
  wp (insert_event command_id aggregate_id revision actor kind occurred_at) Q R db.
Proof.
  intros HQ. unfold insert_event.
  apply wp_bind, wp_fresh_uuid, wp_bind, wp_gets.
  destruct (event_clash _ _) eqn:Ec; [apply wp_sql_fail|].
  destruct (revision <=? 0) eqn:Er; [apply wp_sql_fail|].
  apply wp_bind, wp_modify, wp_ret. apply HQ; [exact Ec|]. reflect_bools. lia.
Qed.

Lemma wp_guard o Q db : (o = None -> Q tt db) -> wp (guard o) Q any_refusal db.
Proof. destruct o; intros HQ; [exact I|by apply HQ]. Qed.

Lemma wp_load_order_action actor command order_id Q db :
  (forall order, orders db !! order_id = Some order ->
     guard_order_action actor command order = None -> Q order db) ->
  wp (load_order_action actor command order_id) Q any_refusal db.
Proof.
  intros HQ. unfold load_order_action, fetch_order_for_update.
  do 5 wp_step. apply wp_guard. intros Hg. wp_step. by apply HQ.
Qed.

Lemma wp_bump_order order o f Q db :
  orders db !! o_id order = Some o -> o_revision o = o_revision order ->
  (let o' := f (o <| o_revision := o_revision o + 1 |>) in
   order_check o' = true -> Q o' (upd orders (<[o_id order := o']>) db)) ->
  wp (bump_order order f) Q R db.
Proof.
  intros Ho Hr HQ. apply wp_update_one. intros o1 Ho' _ Hc.
  rewrite Ho in Ho'. injection Ho' as <-. by apply HQ.
Qed.

(** The store a finished order action leaves behind. *)
Definition finished (db : Db) (e : Event) (notification : string) (intent : OutboxPayload)
    (now : Time) : Db :=
  upd outbox (fun l => l ++ [mkOutbox (e_id e) ("notification." +:+ notification) intent now None None None])
    (upd events (fun l => l ++ [e]) (upd draws N.succ db)).

Lemma wp_finish_order_action actor command order ek nt recipient now Q db :
  (let e := event_of db (c_command_id command) (order_aggregate_id (o_id order))
              (o_revision order) actor ek now in
   event_clash e (events db) = false ->
   Q (mkSuccess (o_revision order) [e_id e]
        (VOrder (command_view order) (order_reviews db (o_id order))))
     (finished db e nt
        (NotificationIntent recipient actor (order_aggregate_id (o_id order)) None) now)) ->
  wp (finish_order_action actor command order ek nt recipient now) Q R db.
Proof.
  intros HQ. apply wp_bind, wp_insert_event. intros e Hc _. exact (HQ Hc).
Qed.

Lemma wp_assert_order_transition f t Q db :
  Machines.can_transition Machines.order_machine (order_state_str f) (order_state_str t) = true ->
  Q tt db -> wp (assert_order_transition f t) Q R db.
Proof. apply wp_debug_assert. Qed.
End Rules.
