(* ===== verification/LocksKeys.v ===== *)
(** * The Locks secrets and the Lock Server client ([locks.rs], [seal.rs])

    The bundle id of a payment and the server-minted client reference are
    bearer secrets.  They are sealed under one configured key, bound to the
    payment, and looked up by a keyed token.  The hash, the HMAC, the random
    generator and base64 are library code ([LocksCrates]); reading the key
    material of a deployment and the Lock Server's answers is modelled. *)

From Stdlib Require Import Ascii.
From Stdlib.Strings Require Import Byte.
From S2P Require Import Prelude Domain Seal Text Json.

(** ** UTF-8 *)

(** [String::from_utf8] accepts exactly the well-formed sequences. *)
Fixpoint valid_utf8 (l : list Z) : bool :=
  let tail b := (128 <=? b) && (b <=? 191) in
  match l with
  | [] => true
  | a :: l1 =>
      if a <? 128 then valid_utf8 l1
      else
        match l1 with
        | [] => false
        | b :: l2 =>
            if (194 <=? a) && (a <=? 223) then tail b && valid_utf8 l2
            else
              match l2 with
              | [] => false
              | c :: l3 =>
                  if (224 <=? a) && (a <=? 239)
                  then
                    (if a =? 224 then (160 <=? b) && (b <=? 191)
                     else if a =? 237 then (128 <=? b) && (b <=? 159) else tail b)
                    && tail c && valid_utf8 l3
                  else
                    match l3 with
                    | [] => false
                    | d :: l4 =>
                        (240 <=? a) && (a <=? 244) &&
                        (if a =? 240 then (144 <=? b) && (b <=? 191)
                         else if a =? 244 then (128 <=? b) && (b <=? 143) else tail b)
                        && tail c && tail d && valid_utf8 l4
                    end
              end
        end
  end.

Definition from_utf8 (s : string) : option string :=
  if valid_utf8 (bytes s) then Some s else None.

Definition ascii_only (s : string) : bool := forallb (fun b => b <? 128) (bytes s).

Lemma ascii_valid l : forallb (fun b => b <? 128) l = true -> valid_utf8 l = true.
Proof.
  induction l as [|a l IH]; [done|]. cbn. rewrite andb_true_iff. intros [Ha Hl].
  rewrite Ha. by apply IH.
Qed.

Lemma from_utf8_ascii s : ascii_only s = true -> from_utf8 s = Some s.
Proof. unfold from_utf8, ascii_only. intros Hs. by rewrite (ascii_valid _ Hs). Qed.

(** ** Key material *)

Definition hex_digit (b : Z) : option Z :=
  if (48 <=? b) && (b <=? 57) then Some (b - 48)
  else if (97 <=? b) && (b <=? 102) then Some (b - 87)
  else if (65 <=? b) && (b <=? 70) then Some (b - 55)
  else None.

(** [hex::decode]: pairs of digits, either case. *)
Fixpoint hex_decode (l : list Z) : option (list Z) :=
  match l with
  | [] => Some []
  | a :: b :: rest =>
      hi ← hex_digit a; lo ← hex_digit b; tail ← hex_decode rest; Some (hi * 16 + lo :: tail)
  | _ => None
  end.

Definition string_of_bytes (l : list Z) : string :=
  fold_right (fun b s => String (ascii_of_N (Z.to_N b)) s) "" l.

(** [parse_key]. *)
Definition parse_key (name hex_value : string) : string + string :=
  match hex_decode (bytes (trim hex_value)) with
  | None => inr (name +:+ " must be 64 hexadecimal characters")
  | Some key =>
      if (length key =? KEY_LEN)%nat then inl (string_of_bytes key)
      else inr (name +:+ " must decode to exactly 32 bytes")
  end.

(** [KeyFamily]: the environment names of one rotating family. *)
Record KeyFamily := mkKeyFamily { kf_current_env : string; kf_previous_env : string }.

(** [RotatingKeys::from_hex]. *)
Definition rotating_from_hex (family : KeyFamily) (current_hex : string)
    (previous_hex : option string) : RotatingKeys + string :=
  match parse_key (kf_current_env family) current_hex with
  | inr e => inr e
  | inl current =>
      match parse_key (kf_previous_env family) <$> previous_hex with
      | Some (inr e) => inr e
      | None => inl (mkRotatingKeys current None)
      | Some (inl previous) =>
          if (previous =? current)%string
          then inr (kf_current_env family +:+ " and " +:+ kf_previous_env family +:+
                    " must be distinct keys")
          else inl (mkRotatingKeys current (Some previous))
      end
  end.

(** [RotatingKeys::from_env]: [None] is a family that is off. *)
Definition rotating_from_env (family : KeyFamily) (env : string -> option string)
    : option RotatingKeys + string :=
  match env (kf_current_env family) with
  | None =>
      match env (kf_previous_env family) with
      | Some _ => inr (kf_previous_env family +:+ " requires " +:+ kf_current_env family)
      | None => inl None
      end
  | Some current =>
      match rotating_from_hex family current (env (kf_previous_env family)) with
      | inl keys => inl (Some keys)
      | inr e => inr e
      end
  end.

Definition ENV_LOCKS_SERVER_URL : string := "LOCKS_SERVER_URL".
Definition ENV_BUNDLE_ENCRYPTION_KEY : string := "LOCKS_BUNDLE_ENCRYPTION_KEY".
Definition ENV_LOOKUP_HMAC_KEY : string := "LOCKS_LOOKUP_HMAC_KEY".

(** [LocksKeys]: both keys are needed together and differ. *)
Record LocksKeyMaterial := mkLocksKeyMaterial {
  lkm_encryption : string;
  lkm_lookup_hmac : string;
}.

Definition locks_keys_from_hex (encryption_hex lookup_hmac_hex : string)
    : LocksKeyMaterial + string :=
  match parse_key ENV_BUNDLE_ENCRYPTION_KEY encryption_hex with
  | inr e => inr e
  | inl encryption =>
      match parse_key ENV_LOOKUP_HMAC_KEY lookup_hmac_hex with
      | inr e => inr e
      | inl lookup_hmac =>
          if (encryption =? lookup_hmac)%string
          then inr (ENV_BUNDLE_ENCRYPTION_KEY +:+ " and " +:+ ENV_LOOKUP_HMAC_KEY +:+
                    " must be distinct keys")
          else inl (mkLocksKeyMaterial encryption lookup_hmac)
      end
  end.

(** [HttpLocksClient::new]: the base URL. *)
Fixpoint trim_end_matches (c : ascii) (s : string) : string :=
  match s with
  | EmptyString => ""
  | String x s' =>
      match trim_end_matches c s' with
      | EmptyString => if Ascii.eqb x c then "" else String x ""
      | t => String x t
      end
  end.

Definition locks_base_url (url : string) : string + string :=
  let base_url := trim_end_matches "/" url in
  if bool_decide (strip_prefix "http://" base_url = None) &&
     bool_decide (strip_prefix "https://" base_url = None)
  then inr (ENV_LOCKS_SERVER_URL +:+ " must be an http(s) URL")
  else inl base_url.

(** [runtime_from_env]: all three settings or none. *)
Definition runtime_from_env (env : string -> option string)
    : option (LocksKeyMaterial * string) + string :=
  match env ENV_LOCKS_SERVER_URL, env ENV_BUNDLE_ENCRYPTION_KEY, env ENV_LOOKUP_HMAC_KEY with
  | None, None, None => inl None
  | Some url, Some encryption_key, Some hmac_key =>
      match locks_keys_from_hex encryption_key hmac_key with
      | inr e => inr e
      | inl keys =>
          match locks_base_url url with
          | inr e => inr e
          | inl base_url => inl (Some (keys, base_url))
          end
      end
  | _, _, _ =>
      inr ("Locks verification is partially configured: set all of " +:+ ENV_LOCKS_SERVER_URL +:+
           ", " +:+ ENV_BUNDLE_ENCRYPTION_KEY +:+ ", and " +:+ ENV_LOOKUP_HMAC_KEY +:+
           ", or none of them")
  end.

(** ** The Lock Server *)

Inductive LocksTaskStatus := TaskPending | TaskInProgress | TaskCompleted | TaskFailed | TaskExpired.

#[export] Instance LocksTaskStatus_eq_dec : EqDecision LocksTaskStatus.
Proof. solve_decision. Defined.

Definition task_status_str (s : LocksTaskStatus) : string :=
  match s with
  | TaskPending => "pending"
  | TaskInProgress => "in_progress"
  | TaskCompleted => "completed"
  | TaskFailed => "failed"
  | TaskExpired => "expired"
  end.

Inductive LocksLookupOutcome :=
| LookupStatus (s : LocksTaskStatus)
| LookupNotFound
| LookupUnavailable.

(** What the HTTP call returned: nothing, or a status with its JSON body (none
    when the body is not JSON). *)
Inductive HttpAnswer :=
| TransportFailure
| HttpAnswered (status : Z) (body : option Json).

Definition parse_task_status (s : string) : option LocksTaskStatus :=
  find (fun t => task_status_str t =? s)%string
    [TaskPending; TaskInProgress; TaskCompleted; TaskFailed; TaskExpired].

(** [ErrorDetail]. *)
Definition read_error_detail : Read string := fun v =>
  fs ← struct_fields ["code"] v; required fs "code" as_str.

(** [lookup_inner]. *)
Definition lookup_outcome (answer : HttpAnswer) : LocksLookupOutcome :=
  match answer with
  | TransportFailure => LookupUnavailable
  | HttpAnswered status body =>
      if status =? 404 then
        match (b ← body; fs ← struct_fields ["error"] b; required fs "error" read_error_detail) with
        | Some code =>
            if (code =? "verification_task_not_found")%string then LookupNotFound
            else LookupUnavailable
        | None => LookupUnavailable
        end
      else if negb ((200 <=? status) && (status <=? 299)) then LookupUnavailable
      else
        match (b ← body; fs ← struct_fields ["status"] b; s ← required fs "status" as_str;
               parse_task_status s) with
        | Some s => LookupStatus s
        | None => LookupUnavailable
        end
  end.

(** ** Sealing *)

(** [DateTime<FixedOffset>]: the local clock, the nanosecond and the offset. *)
Record OffsetTime := mkOffsetTime {
  ot_local_seconds : Z;
  ot_nanosecond : Z;
  ot_offset_seconds : Z;
}.

(** The [blake3], [hmac], [rand] and [base64] crates, the pubky key parser (a
    key in either spelling, answered as [pubky<z32>]), the RFC 8785
    serializer, and [chrono]'s RFC 3339 reader and formatters.  [minted n] is
    the base64 text of the 32 random bytes of draw [n]. *)
Class LocksCrates := {
  blake3_hash : string -> list byte;
  to_hex : list byte -> string;
  hmac_sha256 : forall (key message : string), string;
  minted : N -> string;
  minted_ascii : forall n, ascii_only (minted n) = true;
  public_key : string -> option string;
  canonicalize : Json -> option string;
  parse_from_rfc3339 : string -> option OffsetTime;
  (** [%Y-%m-%dT%H:%M:%S] of a local clock. *)
  clock_text : Z -> string;
  (** [to_rfc3339_opts(Secs, false)], and the offset's [Display]. *)
  rfc3339_seconds : OffsetTime -> string;
  offset_text : Z -> string;
}.

(** [LocksKeys] as its methods use it: the sealing key and the token key. *)
Record LocksKeys := mkLocksKeys {
  lk_sealing : SealKeys;
  lk_lookup_hmac : string;
}.

(** [LocksRuntime]: the keys and the Lock Server. *)
Record LocksRuntime := mkLocksRuntime {
  lo_keys : LocksKeys;
  lo_lookup : forall (creator bundle_id : string), LocksLookupOutcome;
}.

Definition locks_keys `{!SealCrates} (material : LocksKeyMaterial) : LocksKeys :=
  mkLocksKeys (mkSealKeys (fun n => seal n (lkm_encryption material)) (open (lkm_encryption material)))
    (lkm_lookup_hmac material).

#[export] Instance locks_keys_laws `{!SealCrates, !SealCratesLaws} material :
  SealLaws (lk_sealing (locks_keys material)).
Proof. intros n aad p. apply open_own_seal. Qed.

Definition CLIENT_REFERENCE_DOMAIN : string := "locks-client-reference:".
Definition CHECKOUT_RESOURCE_DOMAIN : string := "locks-checkout-resource:".
Definition RESOURCE_DOMAIN : string := "locks-resource:".

Definition prepared_aad (domain : string) (payment_id : Uuid) : string :=
  domain +:+ uuid_bytes payment_id.

Definition reference_aad (payment_id : Uuid) (buyer : string) : string :=
  CLIENT_REFERENCE_DOMAIN +:+ uuid_bytes payment_id +:+ buyer.

Definition encrypt_bundle_id (keys : LocksKeys) (n : N) (payment_id : Uuid) (bundle_id : string)
    : string := sk_seal (lk_sealing keys) n (uuid_bytes payment_id) bundle_id.

Definition decrypt_bundle_id (keys : LocksKeys) (payment_id : Uuid) (sealed : string)
    : option string := sk_open (lk_sealing keys) (uuid_bytes payment_id) sealed ≫= from_utf8.

Definition encrypt_prepared_value (keys : LocksKeys) (n : N) (payment_id : Uuid)
    (domain value : string) : string :=
  sk_seal (lk_sealing keys) n (prepared_aad domain payment_id) value.

Definition open_prepared_value (keys : LocksKeys) (payment_id : Uuid) (domain sealed : string)
    : option string :=
  sk_open (lk_sealing keys) (prepared_aad domain payment_id) sealed ≫= from_utf8.

Definition seal_result_client_reference (keys : LocksKeys) (n : N) (payment_id : Uuid)
    (buyer client_reference : string) : string :=
  sk_seal (lk_sealing keys) n (reference_aad payment_id buyer) client_reference.

Definition open_result_client_reference (keys : LocksKeys) (payment_id : Uuid)
    (buyer sealed : string) : option string :=
  sk_open (lk_sealing keys) (reference_aad payment_id buyer) sealed ≫= from_utf8.

Definition mint_client_reference `{!LocksCrates} (n : N) : string := minted n.

Definition lookup_token `{!LocksCrates} (keys : LocksKeys) (creator bundle_id : string) : string :=
  hmac_sha256 (lk_lookup_hmac keys) (creator +:+ newline +:+ bundle_id).

Arguments prepared_aad : simpl never.
Arguments reference_aad : simpl never.

Lemma open_encrypted_prepared keys `{!SealLaws (lk_sealing keys)} n payment domain value :
  from_utf8 value = Some value ->
  open_prepared_value keys payment domain (encrypt_prepared_value keys n payment domain value)
  = Some value.
Proof.
  intros Hv. unfold open_prepared_value, encrypt_prepared_value. rewrite open_seal. exact Hv.
Qed.
