(* ===== verification/EventStream.v ===== *)
(** * The homeserver's event stream ([homeserver.rs], [listing_deletion.rs])

    The batch format of [/events-stream] and the proof that a seller deleted a
    listing record: the record is gone and the latest event for its path is a
    [DEL]. *)

From Stdlib Require Import Ascii.
From S2P Require Import Prelude Domain Json Text.

(** ** Lines *)

Definition LF : ascii := "010"%char.
Definition CR : ascii := "013"%char.

(** [split_inclusive('\n')]: each line, and whether a newline ended it. *)
Fixpoint raw_lines (s : string) : list (string * bool) :=
  match s with
  | EmptyString => []
  | String c s' =>
      if Ascii.eqb c LF then ("", true) :: raw_lines s'
      else match raw_lines s' with
           | [] => [(String c "", false)]
           | (line, ended) :: rest => (String c line, ended) :: rest
           end
  end.

(** [str::lines]: an ended line loses one carriage return. *)
Definition lines (s : string) : list string :=
  map (fun le : string * bool =>
         if snd le then default (fst le) (strip_suffix (String CR "") (fst le)) else fst le)
    (raw_lines s).

(** ** Events *)

Inductive HomeserverEventKind := EvPut | EvDel.

#[export] Instance HomeserverEventKind_eq_dec : EqDecision HomeserverEventKind.
Proof. solve_decision. Defined.

Record HomeserverEvent := mkHomeserverEvent {
  ev_kind : HomeserverEventKind;
  ev_uri : string;
  ev_cursor : string;
}.

Inductive HomeserverEventsOutcome :=
| EvEvents (events : list HomeserverEvent)
| EvUnknownUser
| EvUnavailable.

Inductive HomeserverFetchOutcome :=
| FetchFound (record : Json)
| FetchNotFound
| FetchUnavailable.

(** The entry being read. *)
Record Pending := mkPending {
  pe_kind : option HomeserverEventKind;
  pe_uri : option string;
  pe_cursor : option string;
}.

Definition nothing : Pending := mkPending None None None.

(** [finish]: an entry is complete, or there is none. *)
Definition finish (p : Pending) (events : list HomeserverEvent) : option (list HomeserverEvent) :=
  match p with
  | mkPending None None None => Some events
  | mkPending (Some kind) (Some uri) (Some cursor) =>
      Some (events ++ [mkHomeserverEvent kind uri cursor])
  | _ => None
  end.

Definition cursor_ok (value : string) : bool :=
  negb (value =? "")%string && (byte_len value <=? 20) && bytes_all is_digit value.

Definition event_kind (name : string) : option HomeserverEventKind :=
  if (name =? "PUT")%string then Some EvPut
  else if (name =? "DEL")%string then Some EvDel else None.

(** One [data] line. *)
Definition read_data (p : Pending) (data : string) : option Pending :=
  match strip_prefix "cursor: " data with
  | Some value =>
      match pe_cursor p with
      | Some _ => None
      | None => if cursor_ok value then Some (mkPending (pe_kind p) (pe_uri p) (Some value)) else None
      end
  | None =>
      match strip_prefix "pubky://" data with
      | Some _ =>
          match pe_uri p with
          | Some _ => None
          | None => Some (mkPending (pe_kind p) (Some data) (pe_cursor p))
          end
      | None =>
          match strip_prefix "content_hash: " data with
          | Some _ => Some p
          | None => None
          end
      end
  end.

(** A line that is neither empty nor a comment. *)
Definition read_field (p : Pending) (line : string) : option Pending :=
  match strip_prefix "event: " line with
  | Some name =>
      match pe_kind p with
      | Some _ => None
      | None => (fun kind => mkPending (Some kind) (pe_uri p) (pe_cursor p)) <$> event_kind name
      end
  | None =>
      match strip_prefix "data: " line with
      | Some data => read_data p data
      | None => None
      end
  end.

Fixpoint read_lines (ls : list string) (p : Pending) (events : list HomeserverEvent)
    : option (list HomeserverEvent) :=
  match ls with
  | [] => finish p events
  | line :: rest =>
      if (line =? "")%string then finish p events ≫= read_lines rest nothing
      else match strip_prefix ":" line with
           | Some _ => read_lines rest p events
           | None => read_field p line ≫= fun p' => read_lines rest p' events
           end
  end.

(** [parse_event_stream]. *)
Definition parse_event_stream (body : string) : option (list HomeserverEvent) :=
  read_lines (lines body) nothing [].

(** ** The deletion proof *)

Definition LISTINGS_PATH : string := "/pub/pubky.app/marketplace/v1/listings/".
Definition CONFIRM_WINDOW : Z := 20.

Definition listing_record_path (listing_id : string) : string := LISTINGS_PATH +:+ listing_id.

Definition listing_record_uri (seller_pubky : Pubky) (listing_id : string) : string :=
  "pubky://" +:+ seller_pubky +:+ listing_record_path listing_id.

Inductive DeletionCheck :=
| ChkDeleted (cursor : string)
| ChkNotDeleted
| ChkUnavailable.

(** [listing_events(user, path, cursor, reverse, limit)]. *)
Definition EventsFetch : Type :=
  Pubky -> string -> option string -> bool -> Z -> HomeserverEventsOutcome.

Definition latest_event_is_delete (listing_events : EventsFetch) (seller_pubky : Pubky)
    (listing_id : string) : DeletionCheck :=
  match listing_events seller_pubky (listing_record_path listing_id) None true CONFIRM_WINDOW with
  | EvEvents events =>
      match List.find (fun e => ev_uri e =? listing_record_uri seller_pubky listing_id)%string
              events with
      | Some e => match ev_kind e with EvDel => ChkDeleted (ev_cursor e) | EvPut => ChkNotDeleted end
      | None => ChkNotDeleted
      end
  | EvUnknownUser => ChkNotDeleted
  | EvUnavailable => ChkUnavailable
  end.

Definition confirm_deleted (fetch_listing : Pubky -> string -> HomeserverFetchOutcome)
    (listing_events : EventsFetch) (seller_pubky : Pubky) (listing_id : string) : DeletionCheck :=
  match fetch_listing seller_pubky listing_id with
  | FetchNotFound => latest_event_is_delete listing_events seller_pubky listing_id
  | FetchFound _ => ChkNotDeleted
  | FetchUnavailable => ChkUnavailable
  end.

Definition contains_slash (s : string) : bool := negb (bytes_all (fun b => negb (b =? 47)) s).

(** The listing an event of the seller names. *)
Definition event_listing_id (seller_pubky : Pubky) (uri : string) : option string :=
  keep (fun id => negb (id =? "")%string && negb (contains_slash id))
    ((strip_prefix "pubky://" uri ≫= strip_prefix seller_pubky) ≫= strip_prefix LISTINGS_PATH).

(** [cursor::numeric]. *)
Definition cursor_value (cursor : string) : Z :=
  fold_left (fun n b => 10 * n + (b - 48)) (bytes cursor) 0.

(** ** Round trip *)

(** The batch format as documented: a [PUT] also carries the hash of its
    content, before or after the cursor; lines end with LF or CRLF. *)
Record Layout := mkLayout {
  ly_crlf : bool;
  ly_hash_first : bool;
}.

Definition entry_lines (ly : Layout) (entry : HomeserverEvent * string) : list string :=
  let '(e, content_hash) := entry in
  let cursor := "data: cursor: " +:+ ev_cursor e in
  let hash := "data: content_hash: " +:+ content_hash in
  match ev_kind e with
  | EvDel => ["event: DEL"; "data: " +:+ ev_uri e; cursor; ""]
  | EvPut =>
      if ly_hash_first ly then ["event: PUT"; "data: " +:+ ev_uri e; hash; cursor; ""]
      else ["event: PUT"; "data: " +:+ ev_uri e; cursor; hash; ""]
  end.

Definition eol (crlf : bool) (rest : string) : string :=
  if crlf then String CR (String LF rest) else String LF rest.

Fixpoint unlines (crlf : bool) (ls : list string) : string :=
  match ls with
  | [] => ""
  | line :: rest => line +:+ eol crlf (unlines crlf rest)
  end.

Definition render_all (ly : Layout) (entries : list (HomeserverEvent * string)) : string :=
  unlines (ly_crlf ly) (concat (map (entry_lines ly) entries)).

(** A line of text: no newline in it, no carriage return at its end. *)
Definition one_line (s : string) : Prop :=
  bytes_all (fun b => negb (b =? 10)) s = true /\ strip_suffix (String CR "") s = None.

Definition event_ok (e : HomeserverEvent) : Prop :=
  (exists rest, ev_uri e = "pubky://" +:+ rest) /\ one_line (ev_uri e) /\
  cursor_ok (ev_cursor e) = true.

Lemma raw_line s rest :
  bytes_all (fun b => negb (b =? 10)) s = true ->
  raw_lines (s +:+ String LF rest) = (s, true) :: raw_lines rest.
Proof.
  induction s as [|c s IH]; [done|]. intros Hs.
  change (String c s +:+ String LF rest) with (String c (s +:+ String LF rest)).
  unfold bytes_all in Hs. cbn in Hs. reflect_bools. cbn [raw_lines].
  destruct (Ascii.eqb_spec c LF) as [->|_]; [by vm_compute in H|]. by rewrite IH.
Qed.

Lemma bytes_all_app p a b : bytes_all p (a +:+ b) = bytes_all p a && bytes_all p b.
Proof.
  induction a as [|c a IH]; [done|]. change (String c a +:+ b) with (String c (a +:+ b)).
  unfold bytes_all in *. cbn. by rewrite IH, andb_assoc.
Qed.

Lemma no_return_app a b :
  b <> "" -> strip_suffix (String CR "") b = None -> strip_suffix (String CR "") (a +:+ b) = None.
Proof.
  intros Hne Hb. induction a as [|c a IH]; [done|].
  change (String c a +:+ b) with (String c (a +:+ b)). cbn [strip_suffix]. rewrite IH.
  destruct (String.eqb_spec (String c (a +:+ b)) (String CR "")) as [E|_]; [|done].
  injection E as _ E. by destruct a, b.
Qed.

Lemma one_line_app a b : one_line a -> one_line b -> one_line (a +:+ b).
Proof.
  intros [Ha Hca] [Hb Hc]. split; [by rewrite bytes_all_app, Ha, Hb|].
  destruct b as [|c b]; [|by apply no_return_app].
  assert (E : a +:+ "" = a) by (clear; induction a as [|c a IH]; [done|]; change (String c a +:+ "") with (String c (a +:+ "")); by rewrite IH). by rewrite E.
Qed.

Lemma strip_return a : strip_suffix (String CR "") (a +:+ String CR "") = Some a.
Proof.
  induction a as [|c a IH]; [done|]. change (String c a +:+ String CR "") with (String c (a +:+ String CR "")).
  cbn [strip_suffix]. rewrite IH. destruct (String.eqb_spec (String c (a +:+ String CR "")) (String CR "")) as [E|_]; [|done].
  injection E as _ E. by destruct a.
Qed.

Lemma lines_cons crlf s rest : one_line s -> lines (s +:+ eol crlf rest) = s :: lines rest.
Proof.
  intros [Hs Hc]. unfold lines, eol. destruct crlf.
  - replace (s +:+ String CR (String LF rest)) with ((s +:+ String CR "") +:+ String LF rest) by apply app_assoc_str.
    rewrite raw_line by (by rewrite bytes_all_app, Hs). cbn [map fst snd]. by rewrite strip_return.
  - rewrite raw_line by done. cbn [map fst snd]. by rewrite Hc.
Qed.

Lemma lines_unlines crlf ls : List.Forall one_line ls -> lines (unlines crlf ls) = ls.
Proof. induction 1 as [|line ls Hl Hls IH]; [done|]. cbn [unlines]. by rewrite lines_cons, IH. Qed.

Lemma digits_one_line s : bytes_all is_digit s = true -> one_line s.
Proof.
  intros Hd. split.
  - unfold bytes_all in *. rewrite forallb_forall in *. intros x Hx. specialize (Hd x Hx).
    unfold is_digit, in_range in Hd. reflect_bools. destruct (Z.eqb_spec x 10); [lia|done].
  - induction s as [|c s IH]; [done|]. unfold bytes_all in Hd. cbn in Hd. reflect_bools.
    cbn [strip_suffix]. rewrite IH by done.
    destruct (String.eqb_spec (String c s) (String CR "")) as [E|_]; [|done].
    injection E as -> _. by vm_compute in H.
Qed.

Lemma entry_one_lines ly e h : event_ok e -> one_line h -> List.Forall one_line (entry_lines ly (e, h)).
Proof.
  intros (_ & Huri & Hcur) Hh. unfold cursor_ok in Hcur. reflect_bools.
  assert (Hu : one_line ("data: " +:+ ev_uri e)) by (by apply one_line_app).
  assert (Hc : one_line ("data: cursor: " +:+ ev_cursor e)) by (apply one_line_app; [done|by apply digits_one_line]).
  assert (Hx : one_line ("data: content_hash: " +:+ h)) by (by apply one_line_app).
  unfold entry_lines. destruct (ev_kind e), (ly_hash_first ly); repeat (apply List.Forall_cons; [done|]); apply List.Forall_nil.
Qed.

Lemma read_uri k c u :
  read_field (mkPending k None c) ("data: " +:+ "pubky://" +:+ u) = Some (mkPending k (Some ("pubky://" +:+ u)) c).
Proof. done. Qed.

Lemma read_cursor k v cursor :
  cursor_ok cursor = true ->
  read_field (mkPending k v None) ("data: " +:+ "cursor: " +:+ cursor) = Some (mkPending k v (Some cursor)).
Proof.
  intros Hcur. unfold read_field.
  change (strip_prefix "event: " ("data: " +:+ "cursor: " +:+ cursor)) with (@None string).
  change (strip_prefix "data: " ("data: " +:+ "cursor: " +:+ cursor)) with (Some ("cursor: " +:+ cursor)).
  unfold read_data. rewrite strip_prefix_app. simpl. by rewrite Hcur.
Qed.

(** The hash is passed over. *)
Lemma read_hash p h : read_field p ("data: " +:+ "content_hash: " +:+ h) = Some p.
Proof. done. Qed.

Lemma read_entry ly e h rest events :
  event_ok e ->
  read_lines (entry_lines ly (e, h) ++ rest) nothing events = read_lines rest nothing (events ++ [e]).
Proof.
  intros ([u Hu] & _ & Hcur). destruct e as [kind uri cursor]. simpl in Hu, Hcur. subst uri.
  assert (Hstep : forall s ls p, read_lines (("data: " +:+ s) :: ls) p events =
    (read_field p ("data: " +:+ s) ≫= fun p' => read_lines ls p' events)) by done.
  assert (Hkind : forall k name ls, event_kind name = Some k ->
    read_lines (("event: " +:+ name) :: ls) nothing events = read_lines ls (mkPending (Some k) None None) events).
  { intros k name ls E. change (read_lines (("event: " +:+ name) :: ls) nothing events) with
      (read_field nothing ("event: " +:+ name) ≫= fun p' => read_lines ls p' events).
    unfold read_field. rewrite strip_prefix_app. simpl. by rewrite E. }
  unfold entry_lines. cbn [ev_kind ev_uri ev_cursor].
  change ("data: cursor: " +:+ cursor) with ("data: " +:+ "cursor: " +:+ cursor).
  change ("data: content_hash: " +:+ h) with ("data: " +:+ "content_hash: " +:+ h).
  destruct kind; [destruct (ly_hash_first ly)|]; cbn [app].
  - change "event: PUT" with ("event: " +:+ "PUT"). rewrite (Hkind EvPut) by done.
    rewrite Hstep, read_uri. cbn [mbind option_bind]. rewrite Hstep, read_hash. cbn [mbind option_bind].
    rewrite Hstep, read_cursor by done. done.
  - change "event: PUT" with ("event: " +:+ "PUT"). rewrite (Hkind EvPut) by done.
    rewrite Hstep, read_uri. cbn [mbind option_bind]. rewrite Hstep, read_cursor by done. cbn [mbind option_bind].
    rewrite Hstep, read_hash. done.
  - change "event: DEL" with ("event: " +:+ "DEL"). rewrite (Hkind EvDel) by done.
    rewrite Hstep, read_uri. cbn [mbind option_bind]. rewrite Hstep, read_cursor by done. done.
Qed.

(** What a parsed batch carries. *)
Definition pending_ok (p : Pending) : Prop :=
  (forall u, pe_uri p = Some u -> is_Some (strip_prefix "pubky://" u)) /\
  (forall c, pe_cursor p = Some c -> cursor_ok c = true).

Lemma read_field_ok p line p' : pending_ok p -> read_field p line = Some p' -> pending_ok p'.
Proof.
  intros [Hu Hc] E. unfold read_field in E. destruct (strip_prefix "event: " line) as [name|].
  { destruct (pe_kind p); [done|]. by apply fmap_Some in E as (kind & _ & ->). }
  destruct (strip_prefix "data: " line) as [data|]; [|done]. unfold read_data in E.
  destruct (strip_prefix "cursor: " data) as [value|].
  { destruct (pe_cursor p); [done|]. destruct (cursor_ok value) eqn:Ev; [|done]. injection E as <-.
    split; [done|]. by intros c [= <-]. }
  destruct (strip_prefix "pubky://" data) eqn:Ep.
  { destruct (pe_uri p); [done|]. injection E as <-. split; [|done]. intros u [= <-]. by rewrite Ep. }
  destruct (strip_prefix "content_hash: " data); [|done]. by injection E as <-.
Qed.

Definition parsed_ok (e : HomeserverEvent) : Prop :=
  is_Some (strip_prefix "pubky://" (ev_uri e)) /\ cursor_ok (ev_cursor e) = true.

Lemma finish_ok p events events' :
  pending_ok p -> List.Forall parsed_ok events -> finish p events = Some events' ->
  List.Forall parsed_ok events'.
Proof.
  intros [Hu Hc] He E. destruct p as [[kind|] [uri|] [cursor|]]; try discriminate;
    injection E as <-; [|done].
  apply List.Forall_app. split; [done|]. constructor; [|done]. split; [by apply Hu|by apply Hc].
Qed.

Lemma read_lines_ok ls p events events' :
  pending_ok p -> List.Forall parsed_ok events -> read_lines ls p events = Some events' ->
  List.Forall parsed_ok events'.
Proof.
  revert p events. induction ls as [|line ls IH]; intros p events Hp He; cbn [read_lines].
  - by apply finish_ok.
  - destruct (_ =? "")%string.
    + intros E. apply bind_Some in E as (events1 & E1 & E). apply (IH nothing events1); [done| |done].
      by eapply finish_ok.
    + destruct (strip_prefix ":" line); [by apply IH|]. intros E.
      apply bind_Some in E as (p' & Ep & E). apply (IH p' events); [|done|done].
      by eapply read_field_ok.
Qed.

(** C36. A batch of the event stream is read exactly: events written in the
    documented format (a [PUT] with the line of its content hash, which is
    ignored, before or after its cursor; lines ended by LF or by CRLF) are read
    back in order, and whatever is read names a [pubky://] resource and carries
    a cursor of one to twenty digits. *)
Theorem event_stream_round_trip ly entries :
  (List.Forall (fun entry => event_ok (fst entry) /\ one_line (snd entry)) entries ->
   parse_event_stream (render_all ly entries) = Some (map fst entries)) /\
  (forall body events, parse_event_stream body = Some events -> List.Forall parsed_ok events).
Proof.
  split.
  - intros He. unfold parse_event_stream, render_all. rewrite lines_unlines.
    + rewrite <- (app_nil_l (map fst entries)). generalize (@nil HomeserverEvent).
      induction He as [|[e h] rest [Hok _] He IH]; intros before; cbn [map concat].
      * by rewrite app_nil_r.
      * rewrite read_entry, IH by done. by rewrite <- app_assoc.
    + induction He as [|[e h] rest [Hok Hh] He IH]; [constructor|]. cbn [map concat].
      apply List.Forall_app. split; [by apply entry_one_lines|done].
  - intros body events E. eapply (read_lines_ok _ nothing []); [|done|exact E]. done.
Qed.

Definition sample_events : list (HomeserverEvent * string) :=
  [(mkHomeserverEvent EvPut "pubky://abc/pub/a" "7", "nbzz4bm");
   (mkHomeserverEvent EvDel "pubky://abc/pub/a" "12", "")].

Lemma event_stream_round_trip_witness :
  parse_event_stream (render_all (mkLayout true false) sample_events) = Some (map fst sample_events) /\
  List.Forall parsed_ok (map fst sample_events).
Proof.
  assert (E : parse_event_stream (render_all (mkLayout true false) sample_events) = Some (map fst sample_events)).
  { apply (proj1 (event_stream_round_trip (mkLayout true false) sample_events)).
    repeat constructor; try (by eexists). }
  split; [exact E|]. exact (proj2 (event_stream_round_trip (mkLayout true false) sample_events) _ _ E).
Defined.
