(* ===== verification/ReserveSecrecy.v ===== *)
(** * Reserve secrecy ([reserve_secrecy.rs])

    An auction's reserve is the seller's secret.  Two guards read raw JSON: a
    public record must not carry a reserve field at any depth, and a command
    answer may carry one only directly on an object of the asking seller. *)

From S2P Require Import Prelude Json.

Definition FORBIDDEN_RESERVE_KEYS : list string :=
  ["reserve_price"; "reservePrice"; "reserve_met"; "reserveMet"].

Definition SELLER_ONLY_RESERVE_METADATA_KEYS : list string :=
  ["reserve_record_revision"; "last_reserve_command_id"].

Definition contains (l : list string) (s : string) : bool := existsb (String.eqb s) l.

Definition is_reserve_audience_key (key : string) : bool :=
  contains FORBIDDEN_RESERVE_KEYS key || contains SELLER_ONLY_RESERVE_METADATA_KEYS key.

(** [ensure_reserve_free]: true is [Ok]. *)
Fixpoint ensure_reserve_free (value : Json) : bool :=
  match value with
  | JObject object =>
      forallb (fun kv : string * Json =>
        negb (is_reserve_audience_key (fst kv)) && ensure_reserve_free (snd kv)) object
  | JArray values => forallb ensure_reserve_free values
  | _ => true
  end.

(** The spellings an authenticated seller may read. *)
Definition seller_keys : list string :=
  ["reserve_price"; "reserve_met"; "reserve_record_revision"; "last_reserve_command_id"].

Definition seller_object (actor : string) (object : list (string * Json)) : bool :=
  match field "seller_pubky" object ≫= as_str with
  | Some seller => (seller =? actor)%string
  | None => false
  end.

Fixpoint ensure_actor_reserve_audience (value : Json) (actor : string) : bool :=
  match value with
  | JObject object =>
      forallb (fun kv : string * Json =>
        negb (is_reserve_audience_key (fst kv) &&
              negb (seller_object actor object && contains seller_keys (fst kv))) &&
        ensure_actor_reserve_audience (snd kv) actor) object
  | JArray values => forallb (fun v => ensure_actor_reserve_audience v actor) values
  | _ => true
  end.

(** The envelope that replaces a leaking body. *)
Definition INTERNAL_BODY : Json :=
  JObject [("ok", JBool false);
           ("error", JObject [("code", JString "INTERNAL");
                              ("message", JString "The command could not be processed.")])].

Definition guard_command_result (actor : string) (body : Json) : Json + Json :=
  if ensure_actor_reserve_audience body actor then inl body else inr INTERNAL_BODY.

(** ** What the guards decide *)

(** [within v w]: [v] occurs in [w], at any depth. *)
Inductive within : Json -> Json -> Prop :=
| within_refl v : within v v
| within_array v w l : In w l -> within v w -> within v (JArray l)
| within_object v k w fields : In (k, w) fields -> within v w -> within v (JObject fields).

(** A test of every object of a value, object by object. *)
Lemma every_object (test : Json -> bool) (local : list (string * Json) -> string -> bool) :
  (forall fields, test (JObject fields) =
     forallb (fun kv => local fields (fst kv) && test (snd kv)) fields) ->
  (forall l, test (JArray l) = forallb test l) ->
  (forall v, match v with JObject _ | JArray _ => True | _ => test v = true end) ->
  forall v, test v = true <->
    forall fields key w, within (JObject fields) v -> In (key, w) fields -> local fields key = true.
Proof.
  intros Hobj Harr Hleaf v. split.
  - intros Ht fields key w Hw Hin. remember (JObject fields) as x eqn:Ex.
    induction Hw as [v|v w' l Hl Hw IH|v k w' fs Hl Hw IH]; subst.
    + rewrite Hobj, forallb_forall in Ht. specialize (Ht _ Hin). by reflect_bools.
    + apply IH; [|done]. rewrite Harr, forallb_forall in Ht. by apply Ht.
    + apply IH; [|done]. rewrite Hobj, forallb_forall in Ht. specialize (Ht _ Hl). by reflect_bools.
  - induction v as [|b|z| |s|l IH|fs IH] using Json_nested_ind; intros Hall;
      try match goal with |- test ?v = true => exact (Hleaf v) end.
    + rewrite Harr. apply forallb_forall. intros w Hw. apply IH; [done|].
      intros fields key x Hx. apply Hall. by eapply within_array.
    + rewrite Hobj. apply forallb_forall. intros [k w] Hw. apply andb_true_iff. split.
      * by eapply Hall; [apply within_refl|].
      * eapply IH; [done|]. intros fields key x Hx. apply Hall. by eapply within_object.
Qed.

Lemma reserve_free_iff v :
  ensure_reserve_free v = true <->
  forall fields key w, within (JObject fields) v -> In (key, w) fields ->
    is_reserve_audience_key key = false.
Proof.
  rewrite (every_object ensure_reserve_free (fun _ key => negb (is_reserve_audience_key key)));
    try done; [|by intros []].
  split; intros H fields key w Hw Hin; specialize (H fields key w Hw Hin); by apply negb_true_iff.
Qed.

Lemma audience_iff v actor :
  ensure_actor_reserve_audience v actor = true <->
  forall fields key w, within (JObject fields) v -> In (key, w) fields ->
    is_reserve_audience_key key = true ->
    field "seller_pubky" fields = Some (JString actor) /\ In key seller_keys.
Proof.
  rewrite (every_object (fun v => ensure_actor_reserve_audience v actor)
    (fun fields key => negb (is_reserve_audience_key key &&
       negb (seller_object actor fields && contains seller_keys key))));
    try done; [|by intros []].
  assert (Hs : forall fields, seller_object actor fields = true <->
                 field "seller_pubky" fields = Some (JString actor)).
  { intros fields. unfold seller_object. destruct (field "seller_pubky" fields) as [[]|];
      cbn; try (split; congruence). destruct (String.eqb_spec s actor); split; congruence. }
  assert (Hk : forall key, contains seller_keys key = true <-> In key seller_keys).
  { intros key. unfold contains. rewrite existsb_exists. split.
    - intros (x & Hx & E). apply String.eqb_eq in E as ->. done.
    - intros Hin. exists key. split; [done|apply String.eqb_refl]. }
  split; intros H fields key w Hw Hin; specialize (H fields key w Hw Hin).
  - intros Ha. rewrite Ha in H. apply negb_true_iff, negb_false_iff, andb_true_iff in H as [H1 H2].
    by rewrite <- Hs, <- Hk.
  - destruct (is_reserve_audience_key key) eqn:Ea; [|done]. destruct (H eq_refl) as [H1 H2].
    rewrite <- Hs in H1. rewrite <- Hk in H2. by rewrite H1, H2.
Qed.

(** C34. The reserve stays with the seller.  The public guard accepts exactly
    the values without a reserve field at any depth.  The answer guard lets a
    body pass unchanged exactly when every reserve field in it sits directly
    on an object of the asking seller, in its internal spelling; the body it
    sends otherwise is the same for every caller and carries no reserve
    field. *)
Theorem reserve_stays_with_seller actor body :
  (ensure_reserve_free body = true <->
     forall fields key w, within (JObject fields) body -> In (key, w) fields ->
       is_reserve_audience_key key = false) /\
  ((forall fields key w, within (JObject fields) body -> In (key, w) fields ->
      is_reserve_audience_key key = true ->
      field "seller_pubky" fields = Some (JString actor) /\ In key seller_keys) <->
   guard_command_result actor body = inl body) /\
  (guard_command_result actor body = inl body \/
   guard_command_result actor body = inr INTERNAL_BODY) /\
  ensure_reserve_free INTERNAL_BODY = true.
Proof.
  split; [apply reserve_free_iff|]. rewrite <- audience_iff. unfold guard_command_result.
  destruct (ensure_actor_reserve_audience body actor); repeat split; auto; discriminate.
Qed.
