(* ===== verification/Reviews.v ===== *)
(** * The attestor, reviews and consent
    ([attestor.rs], [handlers/reviews.rs], [handlers/attestation.rs])

    The claims of a purchase attestation and the amount band they may carry;
    the review commands that record them.  The salted hash behind [order_ref]
    and the signature over the claims are library code: they are fields of
    [Attestor]. *)

From stdpp Require Import pretty.
From S2P Require Import Prelude StateMachines Domain Store Commands Actions Text.

(** The attestor identity. *)
Record Attestor := mkAttestor {
  at_pubky : Pubky;
  (** Blake3 of the order id and the private salt, in hex. *)
  at_order_ref : Uuid -> string;
  (** The compact JWS over the claims, with its [typ]. *)
  at_sign_compact : string -> PurchaseClaims -> string;
}.

Definition PURCHASE_ATTESTATION_TYP : string := "pubky-purchase-attestation+v1".

Record IssuedAttestation := mkIssued {
  is_jws : string;
  is_claims : PurchaseClaims;
  is_order_ref : string;
}.

(** The day and the second an instant falls in. *)
Definition day_of (t : Time) : Z := t / seconds 86400.
Definition timestamp (t : Time) : Z := t / seconds 1.

Definition issue_purchase_attestation (attestor : Attestor) (order_id : Uuid)
    (reviewer_pubky counterparty_pubky : Pubky) (role listing_uri : string) (completed_on : Z)
    (amount_band : option string) (now : Time) : IssuedAttestation :=
  let order_ref := at_order_ref attestor order_id in
  let claims := mkPurchaseClaims (at_pubky attestor) reviewer_pubky counterparty_pubky role
    listing_uri order_ref completed_on amount_band (timestamp now) in
  mkIssued (at_sign_compact attestor PURCHASE_ATTESTATION_TYP claims) claims order_ref.

Definition claim_role (reviewer_role : Role) : string :=
  match reviewer_role with
  | RBuyer => "buyer_reviewing_seller"
  | RSeller => "seller_reviewing_buyer"
  end.

(** [i64::ilog10] of a positive number: an [i64] has at most nineteen digits. *)
Fixpoint ilog10_fuel (fuel : nat) (n : Z) : Z :=
  match fuel with
  | O => 0
  | S fuel' => if n <? 10 then 0 else 1 + ilog10_fuel fuel' (n / 10)
  end.

Definition ilog10 (n : Z) : Z := ilog10_fuel 19 n.

Definition amount_band (currency : string) (total_minor : Z) : option string :=
  if total_minor <? 1 then None else Some (currency +:+ ":" +:+ pretty (ilog10 total_minor)).

Lemma ilog10_fuel_decade fuel n :
  1 <= n < 10 ^ Z.of_nat fuel ->
  0 <= ilog10_fuel fuel n /\ 10 ^ ilog10_fuel fuel n <= n < 10 ^ (ilog10_fuel fuel n + 1).
Proof.
  revert n. induction fuel as [|fuel IH]; intros n Hn; [simpl in Hn; lia|].
  simpl ilog10_fuel. destruct (Z.ltb_spec n 10); [simpl; lia|].
  rewrite Nat2Z.inj_succ, Z.pow_succ_r in Hn by lia.
  destruct (IH (n / 10)) as (H0 & Hlo & Hhi).
  { split; [apply Z.div_le_lower_bound; lia|apply Z.div_lt_upper_bound; lia]. }
  split; [lia|]. rewrite Z.add_1_l, !Z.add_1_r in *. rewrite !Z.pow_succ_r in * by lia.
  pose proof (Z.mul_div_le n 10). pose proof (Z.mod_pos_bound n 10).
  pose proof (Z.div_mod n 10). lia.
Qed.

(** The band of an [i64] total is its decimal order of magnitude. *)
Lemma ilog10_decade n : 1 <= n <= i64_max -> 10 ^ ilog10 n <= n < 10 ^ (ilog10 n + 1).
Proof. intros Hn. apply ilog10_fuel_decade. unfold i64_max in Hn. lia. Qed.

(** ** Reviews and attestation consent ([handlers/reviews.rs],
      [handlers/attestation.rs])

    One review per participant and order; on a deployment with an attestor a
    review comes with a purchase attestation, whose amount band both sides
    must have agreed to. *)

Definition REVIEW_EDIT_WINDOW_SECONDS : Z := 24 * 60 * 60.

(** [REVIEWABLE_STATES]. *)
Definition reviewable (s : OrderState) : bool :=
  match s with ODelivered | OCompleted | OClosed => true | _ => false end.

(** [reviews_one_per_order_role]. *)
Definition review_clash (r : ReviewRow) (db : Db) : bool :=
  table_any (fun r' => N.eqb (rw_order_id r') (rw_order_id r) &&
                       bool_decide (rw_reviewer_role r' = rw_reviewer_role r)) (reviews db).

(** The review of one participant ([SELECT .. WHERE order_id = $1 AND
    reviewer_pubky = $2]). *)
Definition find_review (db : Db) (order_id : Uuid) (reviewer : Pubky) : option ReviewRow :=
  List.find (fun r => N.eqb (rw_order_id r) order_id && (rw_reviewer_pubky r =? reviewer)%string)
    (map snd (map_to_list (reviews db))).

(** [listing_uri_from_order], with its two [expect]s. *)
Definition listing_uri_from_order (order : OrderRow) : H string :=
  match o_lines order with
  | [] => panic "order lines always carry a listing aggregate id"
  | line :: _ =>
      match strip_prefix ("listing:" +:+ o_seller_pubky order +:+ "_")
              (ln_listing_aggregate_id line) with
      | None => panic "listing aggregate ids follow the listing:{seller}_{id} format"
      | Some listing_id =>
          ret ("pubky://" +:+ o_seller_pubky order +:+
               "/pub/pubky.app/marketplace/v1/listings/" +:+ listing_id)
      end
  end.

Section Reviews.
Context `{!UuidCrate}.

(** The latest [fulfillment.delivered] event of the order. *)
Definition delivered_at (db : Db) (order_id : Uuid) : option Time :=
  fold_left (fun latest e =>
      if (e_aggregate_id e =? order_aggregate_id order_id)%string &&
         (e_kind e =? "fulfillment.delivered")%string
      then Some (match latest with
                 | None => e_occurred_at e
                 | Some t => Z.max t (e_occurred_at e)
                 end)
      else latest) (events db) None.

Definition issue_attestation (attestor : Attestor) (order : OrderRow) (reviewer subject : Pubky)
    (role : Role) (reviewer_allows_band : bool) (now : Time) : H (string * PurchaseClaims) :=
  let* listing_uri := listing_uri_from_order order in
  let* delivered := gets (fun db => delivered_at db (o_id order)) in
  let completed_on := day_of (default now delivered) in
  let* consent := select band_consents (o_seller_pubky order) in
  let seller_allows := bn_allows_amount_band <$> consent in
  let band :=
    if reviewer_allows_band && default false seller_allows
    then amount_band (o_currency order) (o_total_minor order) else None in
  let issued := issue_purchase_attestation attestor (o_id order) reviewer subject
    (claim_role role) listing_uri completed_on band now in
  do* insert review_attestations always (o_id order, reviewer)
        (mkAttestation (is_order_ref issued) (is_jws issued) (is_claims issued) now) no_clash in
  ret (is_jws issued, is_claims issued).

Definition fetch_attestation_json (order_id : Uuid) (reviewer : Pubky)
    : H (option (string * PurchaseClaims)) :=
  let* row := select review_attestations (order_id, reviewer) in
  ret ((fun r => (rt_jws r, rt_claims r)) <$> row).

(** The tail of both commands: the order with its reviews, and the review. *)
Definition review_result (updated : OrderRow) (event_id : Uuid) (review : ReviewRow)
    (attestation : option (string * PurchaseClaims)) : H HandlerSuccess :=
  let* reviews := fetch_order_reviews (o_id updated) in
  ret (mkSuccess (o_revision updated) [event_id]
         (VReview (command_view updated) reviews review attestation)).

(** [review.create]. *)
Definition create (actor : string) (command : Command) (payload : ReviewTermsPayload)
    (attestor : option Attestor) (now : Time) : H HandlerSuccess :=
  let* row := fetch_order (rv_order_id payload) in
  let* order := or_refuse row (refused NotFound "The order was not found.") in
  do* guard (guard_order_action actor command order) in
  do* refuse_if (negb (reviewable (o_state order)))
        (refused InvalidState "The order is not eligible for review.") in
  let* existing := gets (fun db => find_review db (o_id order) actor) in
  do* refuse_if (bool_decide (is_Some existing))
        (refused InvalidState "This participant already reviewed the order.") in
  let role := if (actor =? o_buyer_pubky order)%string then RBuyer else RSeller in
  let subject :=
    if (actor =? o_buyer_pubky order)%string then o_seller_pubky order
    else o_buyer_pubky order in
  let* rating := expect_i32 (rv_rating payload) "rating validated to 1..=5" in
  let review := mkReview (c_command_id command) (o_id order) actor role subject rating
    (rv_text payload) now now in
  do* insert reviews review_check (c_command_id command) review (review_clash review) in
  let* attestation :=
    match attestor with
    | Some attestor =>
        let* issued := issue_attestation attestor order actor subject role
                         (rv_allow_amount_band payload) now in
        ret (Some issued)
    | None => ret None
    end in
  let new_state :=
    if bool_decide (o_state order = ODelivered) then OCompleted else o_state order in
  do* assert_order_transition (o_state order) new_state in
  let* updated := update_where orders order_check (o_id order)
    (fun o => o_revision o =? o_revision order)
    (fun o => o <| o_revision := o_revision o + 1 |> <| o_state := new_state |>
                <| o_updated_at := now |>) in
  match updated with
  | None =>
      let* current := select orders (o_id order) in
      let* current := or_fail current RowNotFound in
      refuse (refused_with_revision RevisionConflict "The order revision is stale."
                (o_revision current))
  | Some updated =>
      let aggregate := order_aggregate_id (o_id updated) in
      let* event_id := insert_event (c_command_id command) aggregate (o_revision updated) actor
                         "review.created" now in
      do* insert_notification_intent event_id "review_received" subject actor aggregate None now in
      review_result updated event_id review attestation
  end.

(** [review.update]. *)
Definition update (actor : string) (command : Command) (payload : ReviewTermsPayload)
    (now : Time) : H HandlerSuccess :=
  let* order := load_order_action actor command (rv_order_id payload) in
  let* row := gets (fun db => find_review db (o_id order) actor) in
  let* review := or_refuse row
    (refused NotFound "This participant has not reviewed the order.") in
  do* refuse_if (rw_created_at review + seconds REVIEW_EDIT_WINDOW_SECONDS <? now)
        (refused InvalidState "The review edit window has closed.") in
  let* rating := expect_i32 (rv_rating payload) "rating validated to 1..=5" in
  let* updated_review := update_one reviews review_check (rw_id review) (fun _ => true)
    (fun r => r <| rw_rating := rating |> <| rw_text := rv_text payload |>
                <| rw_updated_at := now |>) in
  let* updated := bump_order order (fun o => o <| o_updated_at := now |>) in
  let* event_id := insert_event (c_command_id command) (order_aggregate_id (o_id updated))
                     (o_revision updated) actor "review.updated" now in
  let* attestation := fetch_attestation_json (o_id updated) actor in
  review_result updated event_id updated_review attestation.

(** ** Attestation consent *)

(** [insert_annotation]. *)
Definition insert_annotation (attestor : Attestor) (order_id : Uuid) (outcome : string)
    (now : Time) : H unit :=
  do* fresh_uuid in
  modify (upd annotations (fun l => l ++ [(at_order_ref attestor order_id, outcome, now)])).

Definition consent_check (c : BandConsent) : bool :=
  (0 <? bn_revision c) && (bn_revision c <=? i64_max).

(** [attestation.set_band_consent]. *)
Definition set_band_consent (actor : string) (command : Command) (payload : SetBandConsentPayload)
    (now : Time) : H HandlerSuccess :=
  do* refuse_if (negb (c_aggregate_id command =? seller_settings_aggregate_id actor)%string)
        (refused InvalidCommand
           "Band consent may only be set on the actor's own settings aggregate.") in
  let* current := select band_consents actor in
  let current_revision := default 0 (bn_revision <$> current) in
  do* refuse_if (negb (c_expected_revision command =? current_revision))
        (refused_with_revision RevisionConflict "The band consent revision is stale."
           current_revision) in
  let new_revision := current_revision + 1 in
  let consent := mkBandConsent (bc_allows_amount_band payload) new_revision now in
  do* write band_consents consent_check actor consent in
  let* event_id := insert_event (c_command_id command) (c_aggregate_id command) new_revision actor
                     "attestation.band_consent_set" now in
  ret (mkSuccess new_revision [event_id] (VBandConsent actor consent)).
End Reviews.
