(* ===== verification/Drops.v ===== *)
(** * Drops ([handlers/drops.rs])

    Timed, limited releases: the state derived from server time, the gate a
    hold passes, the paid-unit record that assigns editions, the credit of a
    released hold, and the seller's commands.  [fetched] stands for the
    seller's homeserver: the record it served, already checked by
    [validated_drop_record], or its absence. *)

From S2P Require Import Prelude Domain StateMachines Store Commands Actions.

Definition DROP_NOT_STARTED : string := "The drop has not started.".
Definition DROP_ENDED : string := "The drop has ended.".
Definition DROP_SOLD_OUT : string := "The drop is sold out.".
Definition DROP_PER_BUYER_LIMIT : string := "You have reached this drop's per-buyer limit.".
Definition DROP_SINGLE_LINE : string := "A drop order is one unit of one listing per checkout.".
Definition DROP_RELEASE_BEFORE_END : string := "Listings release only after the drop ends.".

(** The seller-signed terms a validated drop record carries. *)
Record DropRecord := mkDropRecord {
  dr_revision : Z;
  dr_starts_at : Time;
  dr_ends_at : option Time;
  dr_total_quantity : Z;
  dr_per_buyer_limit : Z;
  dr_stock_display : string;
  dr_listing_ids : list string;
}.

(** What [fetch_drop] and [validated_drop_record] answered. *)
Inductive DropFetch :=
| DropFound (record : DropRecord)
| DropInvalid (issues : list ValidationIssue)
| DropNotFound
| DropUnavailable.

Definition derived_state (starts_at : Time) (ends_at : option Time) (now : Time) : DropState :=
  if match ends_at with Some e => e <=? now | None => false end then DEndedClosed
  else if starts_at <=? now then DLive
  else DAnnounced.

Definition is_active_state (s : DropState) : bool :=
  match s with DAnnounced | DLive => true | _ => false end.

Definition drop_can (f t : DropState) : bool :=
  Machines.can_transition Machines.drop_machine (drop_state_str f) (drop_state_str t).

(** The state server time assigns a drop: only an active one moves. *)
Definition effective_state (d : DropRow) (now : Time) : DropState :=
  if is_active_state (d_state d) then derived_state (d_starts_at d) (d_ends_at d) now
  else d_state d.

Definition update_drop (aggregate_id : string) (f : DropRow -> DropRow) : H DropRow :=
  update_one drops drop_check aggregate_id always f.

(** [UPDATE drop_listings SET active = FALSE WHERE drop_aggregate_id = $1]. *)
Definition deactivate_drop_listing_bindings (drop_aggregate_id : string) : H unit :=
  modify (upd drop_listings (map_imap (fun k row =>
    Some (if (fst (fst k) =? drop_aggregate_id)%string
          then mkDropListing false (dl_released row) (dl_listing_generation row)
          else row)))).

Definition fetch_drop_for_update (aggregate_id : string) : H (option DropRow) :=
  select drops aggregate_id.

Section Drops.
Context `{!UuidCrate}.

(** [apply_time_transitions]. *)
Definition apply_time_transitions (drop : DropRow) (command_id : Uuid) (now : Time)
    : H DropRow :=
  if negb (is_active_state (d_state drop)) then ret drop
  else
    let target := derived_state (d_starts_at drop) (d_ends_at drop) now in
    if bool_decide (target = d_state drop) then ret drop
    else
      do* debug_assert (drop_can (d_state drop) target) "drop transition" in
      let new_revision := d_revision drop + 1 in
      let* transitioned := update_drop (d_aggregate_id drop) (fun d =>
        d <| d_state := target |> <| d_revision := new_revision |> <| d_updated_at := now |>) in
      do* (if negb (is_active_state target)
           then deactivate_drop_listing_bindings (d_aggregate_id drop) else ret tt) in
      do* insert_event command_id (d_aggregate_id drop) new_revision (d_seller_pubky drop)
            (if bool_decide (target = DLive) then "drop.started" else "drop.ended") now in
      ret transitioned.

(** [enforce_drop_gate]. *)
Definition enforce_drop_gate (drop : DropRow) (buyer : string) (units : Z)
    (command_id : Uuid) (now : Time) : H DropRow :=
  let* drop := apply_time_transitions drop command_id now in
  do* (match d_state drop with
       | DAnnounced => refuse (refused InvalidState DROP_NOT_STARTED)
       | DLive => ret tt
       | _ => refuse (refused InvalidState DROP_ENDED)
       end) in
  do* refuse_if (d_remaining_quantity drop <? units)
        (refused InsufficientInventory DROP_SOLD_OUT) in
  let* held := select drop_purchases (d_aggregate_id drop, buyer) in
  let held_quantity := match held with Some p => dp_quantity p | None => 0 end in
  do* refuse_if (d_per_buyer_limit drop <? held_quantity + units)
        (refused InvalidState DROP_PER_BUYER_LIMIT) in
  let* debited := update_drop (d_aggregate_id drop) (fun d =>
    d <| d_remaining_quantity := d_remaining_quantity d - units |>
      <| d_revision := d_revision d + 1 |> <| d_updated_at := now |>) in
  (* INSERT .. ON CONFLICT DO UPDATE SET quantity = quantity + EXCLUDED *)
  do* write drop_purchases drop_purchase_check (d_aggregate_id drop, buyer)
        (match held with
         | Some p => mkDropPurchase (dp_quantity p + units) (dp_per_buyer_limit p)
         | None => mkDropPurchase units (d_per_buyer_limit drop)
         end) in
  ret debited.

(** [record_paid_unit]: the edition of the confirming order. *)
Definition record_paid_unit (drop_aggregate_id actor : string) (command_id : Uuid) (now : Time)
    : H Z :=
  let* row := fetch_drop_for_update drop_aggregate_id in
  let* drop := or_refuse row (refused InvariantViolation "The order's drop is missing.") in
  do* apply_time_transitions drop command_id now in
  let* drop := update_drop drop_aggregate_id (fun d =>
    d <| d_paid_quantity := d_paid_quantity d + 1 |>
      <| d_revision := d_revision d + 1 |> <| d_updated_at := now |>) in
  let edition := d_paid_quantity drop in
  do* (if (d_paid_quantity drop =? d_total_quantity drop) && bool_decide (d_state drop = DLive)
       then
         do* debug_assert (drop_can DLive DEndedSoldOut) "drop transition" in
         let new_revision := d_revision drop + 1 in
         do* update_drop drop_aggregate_id (fun d =>
               d <| d_state := DEndedSoldOut |> <| d_revision := new_revision |>
                 <| d_updated_at := now |>) in
         do* deactivate_drop_listing_bindings drop_aggregate_id in
         let* event_id := insert_event command_id drop_aggregate_id new_revision actor
                            "drop.ended" now in
         insert_notification_intent event_id "drop_sold_out" (d_seller_pubky drop) actor
           drop_aggregate_id None now
       else ret tt) in
  ret edition.

(** [credit_drop_release]: false when the books do not add up.  The drop's
    credit stays even when the buyer's counter then refuses. *)
Definition credit_drop_release (drop_aggregate_id buyer_pubky : string) (units : Z) (now : Time)
    : H bool :=
  let* row := fetch_drop_for_update drop_aggregate_id in
  match row with
  | None => ret false
  | Some _ =>
      let* credited := update_where drops drop_check drop_aggregate_id
        (fun d => d_remaining_quantity d + units <=? d_total_quantity d)
        (fun d => d <| d_remaining_quantity := d_remaining_quantity d + units |>
                    <| d_revision := d_revision d + 1 |> <| d_updated_at := now |>) in
      match credited with
      | None => ret false
      | Some _ =>
          let* debited := update_where drop_purchases drop_purchase_check
            (drop_aggregate_id, buyer_pubky)
            (fun p => units <=? dp_quantity p)
            (fun p => mkDropPurchase (dp_quantity p - units) (dp_per_buyer_limit p)) in
          ret (bool_decide (is_Some debited))
      end
  end.

(** ** Bindings *)

(** The bindings of one listing that gating considers: not released, made
    against the listing's current generation. *)
Definition gating_binding (seller_pubky listing_id : string) (generation : Z)
    (kv : (string * string * string) * DropListingRow) : bool :=
  let '((_, seller, listing), row) := kv in
  ((seller =? seller_pubky) && (listing =? listing_id))%string &&
  negb (dl_released row) && (dl_listing_generation row =? generation).

(** [ORDER BY dl.active DESC, d.updated_at DESC, d.aggregate_id]. *)
Definition binding_before (x y : DropListingRow * DropRow) : bool :=
  let '(bx, dx) := x in let '(b_y, dy) := y in
  if eqb (dl_active bx) (dl_active b_y) then
    if d_updated_at dx =? d_updated_at dy
    then (d_aggregate_id dx <=? d_aggregate_id dy)%string
    else d_updated_at dy <? d_updated_at dx
  else dl_active bx.

Definition first_binding (l : list (DropListingRow * DropRow))
    : option (DropListingRow * DropRow) :=
  match l with
  | [] => None
  | x :: l' => Some (fold_left (fun b y => if binding_before b y then b else y) l' x)
  end.

(** [lock_bound_drop]: the join with the listing row needs the listing. *)
Definition lock_bound_drop (seller_pubky listing_id : string) : H (option DropRow) :=
  gets (fun db =>
    match listings db !! listing_aggregate_id seller_pubky listing_id with
    | None => None
    | Some l =>
        let bound := List.filter
          (gating_binding seller_pubky listing_id (l_generation l))
          (map_to_list (drop_listings db)) in
        let joined := omap (fun kv =>
          match drops db !! fst (fst (fst kv)) with
          | Some d => Some (snd kv, d)
          | None => None
          end) bound in
        snd <$> first_binding joined
    end).

Definition unregistered_listings (missing : list string) : CommandFailure :=
  refused_with_issues InvalidCommand "The drop references unregistered listings."
    (map (fun id => mkIssue "payload.listing_ids" ("Unregistered listing: " +:+ id)) missing).

Definition listing_is_live (db : Db) (seller_pubky listing_id : string) : bool :=
  match listings db !! listing_aggregate_id seller_pubky listing_id with
  | Some l => negb (is_deleted l)
  | None => false
  end.

(** The partial unique index: one active binding per listing generation. *)
Definition active_clash (seller_pubky listing_id : string) (generation : Z) (active : bool)
    (db : Db) : bool :=
  active && existsb (fun kv =>
    let '((_, seller, listing), row) := kv in
    ((seller =? seller_pubky) && (listing =? listing_id))%string &&
    dl_active row && (dl_listing_generation row =? generation))
    (map_to_list (drop_listings db)).

(** One [INSERT .. SELECT .. generation FROM listings] per listing. *)
Definition insert_binding (drop : DropRow) (active : bool) (listing_id : string) : H unit :=
  let* l := fetch_listing (listing_aggregate_id (d_seller_pubky drop) listing_id) in
  match l with
  | None => ret tt
  | Some l =>
      insert drop_listings always (d_aggregate_id drop, d_seller_pubky drop, listing_id)
        (mkDropListing active false (l_generation l))
        (active_clash (d_seller_pubky drop) listing_id (l_generation l) active)
  end.

Definition insert_drop_listing_bindings (drop : DropRow) (listing_ids : list string)
    (active : bool) : H unit :=
  do* for_each listing_ids (insert_binding drop active) in
  let* missing := gets (fun db =>
    List.filter (fun id => negb (listing_is_live db (d_seller_pubky drop) id)) listing_ids) in
  match missing with
  | [] => ret tt
  | _ => refuse (unregistered_listings missing)
  end.

(** ** Commands *)

Definition apply_registration (actor : string) (command : Command) (payload : SyncDropPayload)
    (record : DropRecord) (now : Time) : H HandlerSuccess :=
  let state := derived_state (dr_starts_at record) (dr_ends_at record) now in
  let drop := mkDrop (c_aggregate_id command) (sd_seller_pubky payload) (sd_drop_id payload)
    (dr_revision record) 1 state (dr_starts_at record) (dr_ends_at record)
    (dr_total_quantity record) (dr_per_buyer_limit record) (dr_total_quantity record) 0
    (dr_stock_display record) (dr_listing_ids record) now now in
  do* insert drops drop_check (c_aggregate_id command) drop
        (fun db => table_any (fun d =>
           ((d_seller_pubky d =? sd_seller_pubky payload) &&
            (d_drop_id d =? sd_drop_id payload))%string) (drops db)) in
  do* insert_drop_listing_bindings drop (dr_listing_ids record) (is_active_state state) in
  let* event_id := insert_event (c_command_id command) (c_aggregate_id command) 1 actor
                     "drop.synced" now in
  ret (mkSuccess 1 [event_id] (VDrop drop)).

Definition apply_resync (actor : string) (command : Command) (record : DropRecord)
    (current : DropRow) (now : Time) : H HandlerSuccess :=
  do* refuse_if (negb (bool_decide (effective_state current now = DAnnounced)))
        (refused_with_revision InvalidState "The drop's terms are locked at launch."
           (d_revision current)) in
  let state := derived_state (dr_starts_at record) (dr_ends_at record) now in
  let new_revision := d_revision current + 1 in
  let* drop := update_drop (c_aggregate_id command) (fun d =>
    d <| d_record_revision := dr_revision record |> <| d_revision := new_revision |>
      <| d_state := state |> <| d_starts_at := dr_starts_at record |>
      <| d_ends_at := dr_ends_at record |>
      <| d_total_quantity := dr_total_quantity record |>
      <| d_per_buyer_limit := dr_per_buyer_limit record |>
      <| d_remaining_quantity := dr_total_quantity record |>
      <| d_stock_display := dr_stock_display record |>
      <| d_listing_ids := dr_listing_ids record |> <| d_updated_at := now |>) in
  do* modify (upd drop_listings (filter (fun kv =>
        (fst (fst (fst kv)) =? c_aggregate_id command)%string = false))) in
  do* insert_drop_listing_bindings drop (dr_listing_ids record) (is_active_state state) in
  let* event_id := insert_event (c_command_id command) (c_aggregate_id command) new_revision
                     actor "drop.synced" now in
  ret (mkSuccess new_revision [event_id] (VDrop drop)).

(** [drop.sync]. *)
Definition sync (actor : string) (command : Command) (payload : SyncDropPayload)
    (fetched : option DropFetch) (now : Time) : H HandlerSuccess :=
  let* fetched := or_refuse fetched
    (refused InvalidCommand "Drop sync is not enabled on this deployment.") in
  do* refuse_if
        (negb (c_aggregate_id command =?
               drop_aggregate_id (sd_seller_pubky payload) (sd_drop_id payload))%string)
        (refused InvalidCommand "The drop aggregate id does not match its seller and drop.") in
  let* record :=
    match fetched with
    | DropFound record => ret record
    | DropNotFound => refuse (refused NotFound "The seller's homeserver has no such drop record.")
    | DropUnavailable =>
        refuse (refused UpstreamUnavailable
                  "The seller's homeserver could not be reached. Try again shortly.")
    | DropInvalid issues =>
        refuse (refused_with_issues InvalidState
                  "The seller's drop record does not satisfy drop invariants." issues)
    end in
  let* missing := gets (fun db =>
    List.filter (fun id => negb (listing_is_live db (sd_seller_pubky payload) id))
      (dr_listing_ids record)) in
  do* refuse_if (match missing with [] => false | _ => true end)
        (unregistered_listings missing) in
  let* current := fetch_drop_for_update (c_aggregate_id command) in
  match current with
  | Some current =>
      if dr_revision record <=? d_record_revision current
      then ret (mkSuccess (d_revision current) [] (VDrop current))
      else apply_resync actor command record current now
  | None => apply_registration actor command payload record now
  end.

(** [drop.cancel]. *)
Definition cancel (actor : string) (command : Command) (now : Time) : H HandlerSuccess :=
  let* row := fetch_drop_for_update (c_aggregate_id command) in
  let* drop := or_refuse row (refused NotFound "The drop was not found.") in
  do* refuse_if (negb (d_seller_pubky drop =? actor)%string)
        (refused Unauthorized "Only the seller may cancel a drop.") in
  do* refuse_if (negb (c_expected_revision command =? d_revision drop))
        (refused_with_revision RevisionConflict "The drop revision is stale."
           (d_revision drop)) in
  let effective := effective_state drop now in
  do* refuse_if (negb (is_active_state effective))
        (refused_with_revision InvalidState "This drop can no longer be cancelled."
           (d_revision drop)) in
  do* debug_assert (drop_can effective DEndedCancelled) "drop transition" in
  let new_revision := d_revision drop + 1 in
  let* cancelled := update_drop (c_aggregate_id command) (fun d =>
    d <| d_state := DEndedCancelled |> <| d_revision := new_revision |>
      <| d_updated_at := now |>) in
  do* deactivate_drop_listing_bindings (c_aggregate_id command) in
  let* event_id := insert_event (c_command_id command) (c_aggregate_id command) new_revision
                     actor "drop.cancelled" now in
  ret (mkSuccess new_revision [event_id] (VDrop cancelled)).

(** [drop.release_listings]. *)
Definition release_listings (actor : string) (command : Command) (now : Time)
    : H HandlerSuccess :=
  let* row := fetch_drop_for_update (c_aggregate_id command) in
  let* drop := or_refuse row (refused NotFound "The drop was not found.") in
  do* refuse_if (negb (d_seller_pubky drop =? actor)%string)
        (refused Unauthorized "Only the seller may release a drop's listings.") in
  do* refuse_if (negb (c_expected_revision command =? d_revision drop))
        (refused_with_revision RevisionConflict "The drop revision is stale."
           (d_revision drop)) in
  let* drop := apply_time_transitions drop (c_command_id command) now in
  do* refuse_if (is_active_state (d_state drop))
        (refused_with_revision InvalidState DROP_RELEASE_BEFORE_END (d_revision drop)) in
  do* modify (upd drop_listings (map_imap (fun k row =>
        Some (if (fst (fst k) =? c_aggregate_id command)%string
              then mkDropListing false true (dl_listing_generation row)
              else row)))) in
  let new_revision := d_revision drop + 1 in
  let* released := update_drop (c_aggregate_id command) (fun d =>
    d <| d_revision := new_revision |> <| d_updated_at := now |>) in
  let* event_id := insert_event (c_command_id command) (c_aggregate_id command) new_revision
                     actor "drop.listings_released" now in
  ret (mkSuccess new_revision [event_id] (VDrop released)).
End Drops.
