(* ===== verification/Holds.v ===== *)
(** * Inventory holds
    ([handlers/holds.rs], [handlers/reserve_inventory.rs], [expiry.rs])

    A payment lock point parks an order's units ([acquire_payment_hold]); a
    cancellation, an expiry or a refund returns them ([release_lines]).  A
    reservation parks units for a buyer until the sweep returns them. *)

From stdpp Require Import sorting.
From S2P Require Import Prelude StateMachines Domain Store Commands Actions Drops.

Definition SOLD_OUT_BEFORE_PAYMENT : string :=
  "The listing sold out before this payment started.".
Definition HOLDING_COPY : string :=
  "Another buyer's payment is holding this item. If it isn't completed in time, the item restocks.".
Definition LISTING_REMOVED_COPY : string :=
  "The seller removed this listing before this payment started.".

Definition HOLD_SOURCE_LOCKS : string := "locks".
Definition HOLD_SOURCE_BIND : string := "bind".
Definition HOLD_SOURCE_SANDBOX : string := "sandbox".
Definition HOLD_SOURCE_DROP_CLAIM : string := "drop_claim".

(** Which listing column an order's lines occupy. *)
Inductive HeldQuantity := HReserved | HSold.

(** The value of the held column, and the column with [q] removed. *)
Definition held_column (held : HeldQuantity) (l : ListingRow) : Z :=
  match held with HReserved => l_reserved_quantity l | HSold => l_sold_quantity l end.

Definition debit_column (held : HeldQuantity) (q : Z) (l : ListingRow) : ListingRow :=
  match held with
  | HReserved => l <| l_reserved_quantity := l_reserved_quantity l - q |>
  | HSold => l <| l_sold_quantity := l_sold_quantity l - q |>
  end.

(** The [UPDATE] of one released line. *)
Definition release_listing (held : HeldQuantity) (q : Z) (now : Time) (l : ListingRow)
    : ListingRow :=
  debit_column held q
    (l <| l_server_revision := l_server_revision l + 1 |> <| l_state := LAvailable |>
       <| l_available_quantity := l_available_quantity l + q |> <| l_updated_at := now |>).

Definition release_line (held : HeldQuantity) (now : Time) (line : OrderLine) : H unit :=
  let aggregate_id := ln_listing_aggregate_id line in
  let quantity := ln_quantity line in
  let* row := fetch_listing_for_update aggregate_id in
  let* listing := or_refuse row
    (refused InvariantViolation "An order line's listing is missing.") in
  do* debug_assert (listing_can (l_state listing) LAvailable) "listing transition" in
  let* updated := update_where listings listing_check aggregate_id
    (fun l => quantity <=? held_column held l) (release_listing held quantity now) in
  refuse_if (negb (bool_decide (is_Some updated)))
    (refused InvariantViolation
       "The inventory held by this order is no longer accounted to its listing.").

(** [release_lines]. *)
Definition release_lines (order : OrderRow) (held : HeldQuantity) (now : Time) : H unit :=
  for_each (o_lines order) (release_line held now).

(** The [UPDATE] that parks [q] units. *)
Definition reserve_listing (new_state : ListingState) (q : Z) (now : Time) (l : ListingRow)
    : ListingRow :=
  l <| l_server_revision := l_server_revision l + 1 |> <| l_state := new_state |>
    <| l_available_quantity := l_available_quantity l - q |>
    <| l_reserved_quantity := l_reserved_quantity l + q |> <| l_updated_at := now |>.

(** The state a listing enters when [q] of its units are parked. *)
Definition state_after_reserve (l : ListingRow) (q : Z) : ListingState :=
  if l_available_quantity l =? q then LReserved else LAvailable.

Definition acquire_line (created_at : Time) (now : Time) (line : OrderLine) : H unit :=
  let aggregate_id := ln_listing_aggregate_id line in
  let quantity := ln_quantity line in
  let* row := fetch_listing_for_update aggregate_id in
  let* listing := or_refuse row
    (refused InvariantViolation "An order line's listing is missing.") in
  do* refuse_if (negb (accepts_commitment_created_at listing created_at))
        (refused NotFound LISTING_REMOVED_COPY) in
  do* (if l_available_quantity listing <? quantity then
         if bool_decide (l_state listing = LReserved) || (0 <? l_reserved_quantity listing)
         then refuse (refused InvalidState HOLDING_COPY)
         else refuse (refused InsufficientInventory SOLD_OUT_BEFORE_PAYMENT)
       else ret tt) in
  let new_state := state_after_reserve listing quantity in
  do* debug_assert (listing_can (l_state listing) new_state) "listing transition" in
  let* updated := update_where listings listing_check aggregate_id
    (fun l => quantity <=? l_available_quantity l) (reserve_listing new_state quantity now) in
  refuse_if (negb (bool_decide (is_Some updated)))
    (refused InsufficientInventory SOLD_OUT_BEFORE_PAYMENT).

(** The [UPDATE orders] of a lock point. *)
Definition arm_hold (hold_expires_at : Time) (hold_source : string) (now : Time) (o : OrderRow)
    : OrderRow :=
  o <| o_hold_expires_at := Some hold_expires_at |> <| o_hold_source := Some hold_source |>
    <| o_updated_at := now |>.

(** [acquire_payment_hold]. *)
Definition acquire_payment_hold (order : OrderRow) (window_seconds : Z) (hold_source : string)
    (now : Time) : H OrderRow :=
  if bool_decide (is_Some (o_auction_aggregate_id order)) then ret order
  else
    do* refuse_if (negb (bool_decide (o_state order = OPendingPayment)))
          (refused InvalidState "Only an order pending payment can start a payment.") in
    let hold_expires_at := now + seconds window_seconds in
    if o_stock_held order then
      update_one orders order_check (o_id order) always
        (arm_hold hold_expires_at hold_source now)
    else
      do* for_each (o_lines order) (acquire_line (o_created_at order) now) in
      update_one orders order_check (o_id order) always
        (fun o => arm_hold hold_expires_at hold_source now (o <| o_stock_held := true |>)).

(** ** [inventory.reserve] ([handlers/reserve_inventory.rs])

    A buyer parks units of a listing for a bounded time: the drop gate first
    (drop row before listing row), then the compare-and-swap on the listing. *)

(** A drop-bound listing is reserved one unit at a time, through its gate. *)
Definition gate_reservation `{!UuidCrate} (actor : string) (command : Command)
    (payload : ReserveInventoryPayload) (listing : ListingRow) (now : Time) : H (option string) :=
  let* bound := lock_bound_drop (l_seller_pubky listing) (l_listing_id listing) in
  match bound with
  | None => ret None
  | Some bound =>
      do* refuse_if (negb (ri_quantity payload =? 1))
            (refused InvalidCommand "A drop-bound listing can be reserved one unit at a time.") in
      let* drop := enforce_drop_gate bound actor 1 (c_command_id command) now in
      ret (Some (d_aggregate_id drop))
  end.

(** The compare-and-swap on the expected revision. *)
Definition reserve_cas (command : Command) (payload : ReserveInventoryPayload)
    (new_state : ListingState) (now : Time) : H ListingRow :=
  let* updated := update_where listings listing_check (c_aggregate_id command)
    (fun l => (l_server_revision l =? c_expected_revision command) &&
              (ri_quantity payload <=? l_available_quantity l))
    (reserve_listing new_state (ri_quantity payload) now) in
  match updated with
  | Some listing => ret listing
  | None =>
      let* latest := current_listing_revision (c_aggregate_id command) in
      refuse (refused_with_revision RevisionConflict "The listing revision is stale." latest)
  end.

Definition handle `{!UuidCrate} (actor : string) (command : Command)
    (payload : ReserveInventoryPayload) (now : Time) : H HandlerSuccess :=
  let* row := fetch_live_listing (c_aggregate_id command) in
  let* listing := or_refuse row (refused NotFound "The listing is not registered.") in
  do* refuse_if (l_seller_pubky listing =? actor)%string
        (refused Unauthorized "A seller cannot reserve their own listing.") in
  do* refuse_if (negb (c_expected_revision command =? l_server_revision listing))
        (refused_with_revision RevisionConflict "The listing revision is stale."
           (l_server_revision listing)) in
  do* refuse_if (l_available_quantity listing <? ri_quantity payload)
        (refused_with_revision InsufficientInventory "The requested quantity is unavailable."
           (l_server_revision listing)) in
  let* drop_aggregate_id := gate_reservation actor command payload listing now in
  let new_state := state_after_reserve listing (ri_quantity payload) in
  do* refuse_if (negb (listing_can (l_state listing) new_state))
        (refused_with_revision InvariantViolation "The listing cannot enter the reserved state."
           (l_server_revision listing)) in
  let* listing := reserve_cas command payload new_state now in
  let reservation := mkReservation (c_command_id command) (c_aggregate_id command) actor
    (ri_quantity payload) RActive (now + seconds (ri_reservation_ttl_seconds payload)) now now
    drop_aggregate_id None in
  do* insert reservations reservation_check (c_command_id command) reservation no_clash in
  let* event_id := insert_event (c_command_id command) (c_aggregate_id command)
                     (l_server_revision listing) actor "inventory.reserved" now in
  ret (mkSuccess (l_server_revision listing) [event_id] (VReservation listing reservation)).

(** ** Reservation expiry ([expiry.rs])

    The sweep that expires every active reservation due at server time and
    returns its units: drop first, then listing, then the event. *)

(** The [NOT EXISTS] exclusion: an auction winner whose Paykit payment is
    awaiting the seller or under manual review keeps the hold. *)
Definition paykit_protected (db : Db) (r : ReservationRow) : bool :=
  table_any (fun o =>
    bool_decide (o_auction_aggregate_id o = Some (r_listing_aggregate_id r)) &&
    (o_buyer_pubky o =? r_buyer_pubky r)%string &&
    bool_decide (o_payment_method o = Some "bitcoin") &&
    table_any (fun p =>
      N.eqb (p_order_id p) (o_id o) && (p_adapter p =? "paykit")%string &&
      (bool_decide (o_paykit_request_state o = Some "awaiting_seller_confirmation") ||
       bool_decide (p_state p = PManualReview))) (payments db)) (orders db).

Definition is_due (db : Db) (now : Time) (r : ReservationRow) : bool :=
  bool_decide (r_status r = RActive) && (r_expires_at r <=? now) &&
  bool_decide (r_offer_award_id r = None) && negb (paykit_protected db r).

Definition expires_before (r1 r2 : ReservationRow) : Prop := r_expires_at r1 <= r_expires_at r2.

#[export] Instance expires_before_dec r1 r2 : Decision (expires_before r1 r2).
Proof. unfold expires_before. apply _. Defined.

(** [SELECT .. ORDER BY expires_at]. *)
Definition due_reservations (now : Time) (db : Db) : list ReservationRow :=
  merge_sort expires_before
    (List.filter (is_due db now) (map snd (map_to_list (reservations db)))).

(** The body of the sweep: did this reservation expire here? *)
Definition expire_reservation `{!UuidCrate} (now : Time) (r : ReservationRow) : H bool :=
  let* flipped := update_where reservations reservation_check (r_id r)
    (fun row => bool_decide (r_status row = RActive))
    (fun row => row <| r_status := RExpired |> <| r_updated_at := now |>) in
  match flipped with
  | None => ret false
  | Some _ =>
      do* (match r_drop_aggregate_id r with
           | None => ret tt
           | Some drop_aggregate_id =>
               let* credited := credit_drop_release drop_aggregate_id (r_buyer_pubky r)
                                  (r_quantity r) now in
               if credited then ret tt
               else sql_fail (Protocol "expired reservation could not credit drop")
           end) in
      let* listing := update_one listings listing_check (r_listing_aggregate_id r)
        (fun l => r_quantity r <=? l_reserved_quantity l)
        (release_listing HReserved (r_quantity r) now) in
      do* insert_event (r_id r) (r_listing_aggregate_id r) (l_server_revision listing)
            (r_buyer_pubky r) "inventory.reservation_expired" now in
      ret true
  end.

(** [expire_due_reservations]: the number of reservations expired. *)
Definition expire_due_reservations `{!UuidCrate} (now : Time) : H Z :=
  let* due := gets (due_reservations now) in
  let* flips := map_each due (expire_reservation now) in
  ret (Z.of_nat (length (List.filter id flips))).
