(* ===== verification/Pickup.v ===== *)
(** * Pickup terms ([handlers/pickup.rs])

    The seller's sealed pickup details: their versions, the commands that set
    and clear them, the pin a confirmation writes, the test for a terms change
    after payment, and the buyer's reveal. *)

From S2P Require Import Prelude Domain Seal Store Commands Actions Text Json.

(** The newest version, [None] when there is none or it was cleared. *)
Definition newer (best : option PickupDetailsRow) (row : PickupDetailsRow)
    : option PickupDetailsRow :=
  match best with
  | Some b => if pk_version row <=? pk_version b then best else Some row
  | None => Some row
  end.

Definition listing_details (db : Db) (aggregate_id : string) : list PickupDetailsRow :=
  List.filter (fun d => (pk_aggregate_id d =? aggregate_id)%string)
    (map snd (map_to_list (pickup_details db))).

Definition current_details (db : Db) (aggregate_id : string) : option PickupDetailsRow :=
  match pickup_counters db !! aggregate_id ≫= vc_cleared_at with
  | Some _ => None
  | None => fold_left newer (listing_details db aggregate_id) None
  end.

(** The terms of one line changed after payment. *)
Definition line_terms_changed (db : Db) (line : OrderLine) : bool :=
  match ln_version_at_payment line with
  | None => false
  | Some version_at_payment =>
      match current_details db (ln_listing_aggregate_id line) with
      | None => true
      | Some current => version_at_payment <? pk_version current
      end
  end.

Definition order_has_unresolved_terms_change (order : OrderRow) : H bool :=
  gets (fun db =>
    if negb (bool_decide (o_fulfillment order = Pickup)) then false
    else existsb (line_terms_changed db) (o_lines order)).

(** [INSERT .. ON CONFLICT (order_id, line_index) DO NOTHING]. *)
Definition insert_pickup_pin (pin : PickupPin) : H unit :=
  modify (upd pickup_pins (fun l =>
    if existsb (fun q => N.eqb (pp_order_id q) (pp_order_id pin) &&
                         Nat.eqb (pp_line_index q) (pp_line_index pin)) l
    then l else l ++ [pin])).

Definition pin_pickup_line (order_id : Uuid) (confirming_adapter : string) (keys : SealKeys)
    (now : Time) (indexed : nat * OrderLine) : H OrderLine :=
  let '(index, line) := indexed in
  if negb (bool_decide (ln_fulfillment line = Some Pickup)) then ret line
  else
    let aggregate_id := ln_listing_aggregate_id line in
    let* details := gets (fun db => current_details db aggregate_id) in
    match details with
    | None => ret line
    | Some details =>
        let version := pk_version details in
        match sk_open keys (details_aad aggregate_id version) (pk_ciphertext details) with
        | None => sql_fail (Protocol "sealed pickup details did not authenticate")
        | Some plaintext =>
            let* nonce := fresh_nonce in
            let snapshot := sk_seal keys nonce (snapshot_aad order_id index version) plaintext in
            do* insert_pickup_pin
                  (mkPickupPin order_id index aggregate_id version snapshot confirming_adapter
                     now) in
            ret (line <| ln_version_at_payment := Some version |>)
        end
    end.

(** [pin_pickup_lines]: the lines with the pinned versions. *)
Definition pin_pickup_lines (order_id : Uuid) (lines : list OrderLine)
    (confirming_adapter : string) (keys : option SealKeys) (now : Time) : H (list OrderLine) :=
  match keys with
  | None => ret lines
  | Some keys =>
      map_each (imap pair lines) (pin_pickup_line order_id confirming_adapter keys now)
  end.
