(* ===== verification/PickupDetails.v ===== *)
(** * Pickup details commands and reads ([handlers/pickup.rs])

    [pickup_details.set] and [pickup_details.clear] with the version counter
    that outlives a clear, the seller's owner read and the paying buyer's
    reveal of the terms pinned at payment.  The buyers a change notifies are
    read without an order; the model takes the order of the table. *)

From Stdlib Require Import Sorting.
From stdpp Require Import sorting.
From S2P Require Import Prelude Domain Seal Store Commands Actions Text Json Pickup.

Definition TERMINAL_ORDER_STATES : list OrderState :=
  [OCompleted; OCancelled; ORefundedExternal; OClosed].

Definition is_terminal (s : OrderState) : bool := bool_decide (s ∈ TERMINAL_ORDER_STATES).

Definition PICKUP_UNAVAILABLE : CommandFailure :=
  refused InvalidState "Pickup is unavailable on this deployment.".

Definition details_aggregate_id (listing_aggregate_id : string) : string :=
  "pickup_details:" +:+
  default listing_aggregate_id (strip_prefix "listing:" listing_aggregate_id).

(** ** Serialized details *)

(** A field left out when it is absent. *)
Definition opt_field (key : string) (v : option Json) : list (string * Json) :=
  match v with Some v => [(key, v)] | None => [] end.

Definition address_json (a : DeliveryAddress) : Json :=
  JObject [("name", JString (da_name a)); ("line1", JString (da_line1 a));
           ("line2", JString (da_line2 a)); ("city", JString (da_city a));
           ("region", JString (da_region a)); ("postal_code", JString (da_postal_code a));
           ("country_code", JString (da_country_code a))].

Definition window_json (w : PickupWindow) : Json :=
  JObject [("day", JString (pw_day w)); ("start", JString (pw_start w));
           ("end", JString (pw_end w))].

Definition details_json (d : PickupDetails) : Json :=
  JObject ([("kind", JString (match pd_kind d with KAddress => "address" | KSpot => "spot" end))]
    ++ opt_field "address" (address_json <$> pd_address d)
    ++ opt_field "spot" (JString <$> pd_spot d)
    ++ [("instructions", JString (pd_instructions d));
        ("availability",
         JObject (opt_field "windows"
                    ((fun ws => JArray (map window_json ws)) <$> pv_windows (pd_availability d))
                  ++ [("zone", JString (pv_zone (pd_availability d)))]))]).

(** ** Commands *)

Section PickupDetailsCommands.
Context `{!UuidCrate, !JsonText}.

(** The gate, the listing and its owner. *)
Definition guard_details_command (actor : string) (command : Command) (pickup : option SealKeys)
    (sandbox_payments_enabled : bool) : H ListingRow :=
  do* refuse_if (bool_decide (pickup = None) || sandbox_payments_enabled) PICKUP_UNAVAILABLE in
  let* row := fetch_listing_for_update (c_aggregate_id command) in
  let* listing := or_refuse row (refused NotFound "The listing was not found.") in
  do* refuse_if (negb (l_seller_pubky listing =? actor)%string)
        (refused Unauthorized "Only the listing seller may manage its pickup details.") in
  ret listing.

(** [last_version >= 0], a [BIGINT]. *)
Definition counter_check (c : VersionCounter) : bool := between 0 (vc_last_version c) i64_max.

(** Locks the counter, creating it when absent, and compares the version. *)
Definition lock_counter_cas (listing : ListingRow) (expected_version : Z) (now : Time)
    : H VersionCounter :=
  let* existing := select pickup_counters (l_aggregate_id listing) in
  do* (match existing with
       | Some _ => ret tt
       | None => write pickup_counters counter_check (l_aggregate_id listing)
                   (mkCounter (l_seller_pubky listing) 0 None now)
       end) in
  let* row := select pickup_counters (l_aggregate_id listing) in
  let* counter := or_fail row RowNotFound in
  do* refuse_if (negb (vc_last_version counter =? expected_version))
        (refused_with_revision RevisionConflict "The pickup details version is stale."
           (vc_last_version counter)) in
  ret counter.

(** [COALESCE(MAX(revision), 0) + 1] over the events of the aggregate. *)
Definition last_event_revision (db : Db) (aggregate_id : string) : Z :=
  fold_left (fun best e =>
    if (e_aggregate_id e =? aggregate_id)%string then Z.max best (e_revision e) else best)
    (events db) 0.

Definition next_details_event_revision (aggregate_id : string) : H Z :=
  gets (fun db => last_event_revision db aggregate_id + 1).

(** The paid, unfinished pickup orders of a listing. *)
Definition paid_pickup_order (listing_aggregate_id : string) (o : OrderRow) : bool :=
  bool_decide (o_fulfillment o = Pickup) && bool_decide (is_Some (o_receipt_id o)) &&
  negb (is_terminal (o_state o)) &&
  existsb (fun line => (ln_listing_aggregate_id line =? listing_aggregate_id)%string) (o_lines o).

Definition paid_buyers (db : Db) (listing_aggregate_id : string) : list (Pubky * Uuid) :=
  map (fun o => (o_buyer_pubky o, o_id o))
    (List.filter (paid_pickup_order listing_aggregate_id) (map snd (map_to_list (orders db)))).

Definition notify_paid_buyers (command : Command) (notification_type : string)
    (listing : ListingRow) (actor : string) (now : Time) : H unit :=
  let* buyers := gets (fun db => paid_buyers db (l_aggregate_id listing)) in
  match buyers with
  | [] => ret tt
  | _ =>
      let details_aggregate := details_aggregate_id (l_aggregate_id listing) in
      let* revision := next_details_event_revision details_aggregate in
      for_each (imap pair buyers) (fun '(i, (buyer, order_id)) =>
        let* event_id := insert_event (c_command_id command) details_aggregate
                           (revision + Z.of_nat i) actor "pickup_details.buyer_notified" now in
        insert_notification_intent event_id notification_type buyer actor
          (order_aggregate_id order_id) None now)
  end.

(** The event of a change and its notifications. *)
Definition details_event (actor : string) (command : Command) (listing : ListingRow)
    (event_kind notification_type : string) (now : Time) : H Uuid :=
  let details_aggregate := details_aggregate_id (l_aggregate_id listing) in
  let* event_revision := next_details_event_revision details_aggregate in
  let* event_id := insert_event (c_command_id command) details_aggregate event_revision actor
                     event_kind now in
  do* notify_paid_buyers command notification_type listing actor now in
  ret event_id.

Definition details_check (d : PickupDetailsRow) : bool :=
  (0 <? pk_version d) && (pk_version d <=? i64_max).

(** [pickup_details.set]. *)
Definition set (actor : string) (command : Command) (payload : SetPickupDetailsPayload)
    (pickup : option SealKeys) (sandbox_payments_enabled : bool) (now : Time)
    : H HandlerSuccess :=
  let* listing := guard_details_command actor command pickup sandbox_payments_enabled in
  do* refuse_if (negb (bool_decide (Pickup ∈ l_fulfillment_methods listing)))
        (refused InvalidState "The listing does not publish pickup.") in
  let* keys :=
    match pickup with
    | Some keys => ret keys
    | None => panic "the gate refuses the command without keys"
    end in
  let* counter := lock_counter_cas listing (sp_expected_version payload) now in
  let new_version := vc_last_version counter + 1 in
  let* nonce := fresh_nonce in
  let ciphertext := sk_seal keys nonce (details_aad (l_aggregate_id listing) new_version)
                      (to_vec (details_json (sp_details payload))) in
  do* insert pickup_details details_check (l_aggregate_id listing, new_version)
        (mkPickupDetailsRow (l_aggregate_id listing) (l_seller_pubky listing) new_version
           ciphertext now now) no_clash in
  do* update_where pickup_counters counter_check (l_aggregate_id listing) (fun _ => true)
        (fun c => c <| vc_last_version := new_version |> <| vc_cleared_at := None |>
                    <| vc_updated_at := now |>) in
  let* event_id := details_event actor command listing "pickup_details.set"
                     "pickup_details_updated" now in
  ret (mkSuccess new_version [event_id]
         (VPickupDetails (l_aggregate_id listing) new_version false now)).

(** A version a paid, unfinished order pinned is kept as evidence. *)
Definition version_pinned (db : Db) (listing_aggregate_id : string) (version : Z) : bool :=
  existsb (fun pin =>
    (pp_listing_aggregate_id pin =? listing_aggregate_id)%string && (pp_version pin =? version) &&
    match orders db !! pp_order_id pin with
    | Some o => bool_decide (is_Some (o_receipt_id o)) && negb (is_terminal (o_state o))
    | None => false
    end) (pickup_pins db).

(** [DELETE FROM listing_pickup_details .. WHERE NOT EXISTS (..)]. *)
Definition delete_unpinned (listing_aggregate_id : string) : H unit :=
  modify (fun db => upd pickup_details
    (filter (fun kd => negb (pk_aggregate_id kd.2 =? listing_aggregate_id)%string ||
                       version_pinned db listing_aggregate_id (pk_version kd.2) = true)) db).

(** [pickup_details.clear]: the counter stays. *)
Definition clear (actor : string) (command : Command) (payload : ClearPickupDetailsPayload)
    (pickup : option SealKeys) (sandbox_payments_enabled : bool) (now : Time)
    : H HandlerSuccess :=
  let* listing := guard_details_command actor command pickup sandbox_payments_enabled in
  let* counter := lock_counter_cas listing (cp_expected_version payload) now in
  do* delete_unpinned (l_aggregate_id listing) in
  do* update_where pickup_counters counter_check (l_aggregate_id listing) (fun _ => true)
        (fun c => c <| vc_cleared_at := Some now |> <| vc_updated_at := now |>) in
  let* event_id := details_event actor command listing "pickup_details.cleared"
                     "pickup_details_cleared" now in
  ret (mkSuccess (vc_last_version counter) [event_id]
         (VPickupDetails (l_aggregate_id listing) (vc_last_version counter) true now)).
End PickupDetailsCommands.

(** ** Reads *)

Record OwnerDetails := mkOwnerDetails {
  od_details : Json;
  od_version : Z;
  od_updated_at : Time;
}.

(** One line of the buyer's reveal. *)
Record RevealLine := mkRevealLine {
  rl_line_index : nat;
  rl_listing_aggregate_id : string;
  rl_version : Z;
  rl_current_version : option Z;
  rl_updated_since_payment : bool;
  rl_withdrawn_by_seller : bool;
  rl_updated_at : Time;
  rl_details : Json;
}.

Definition pin_le (a b : PickupPin) : Prop := (pp_line_index a <= pp_line_index b)%nat.

#[export] Instance pin_le_dec a b : Decision (pin_le a b).
Proof. unfold pin_le. apply _. Defined.

Section PickupReads.
Context `{!JsonText}.

(** Opening and parsing a sealed row; a failure is an internal error. *)
Definition open_json (keys : SealKeys) (aad sealed : string) : H Json :=
  let* plaintext := or_fail (sk_open keys aad sealed)
                      (Protocol "sealed pickup details did not authenticate") in
  or_fail (from_slice plaintext) (Protocol "sealed pickup details are not valid JSON").

(** [get_listing_pickup_details]: the seller's own details and the counter. *)
Definition get_listing_pickup_details (actor : string) (aggregate_id : string)
    (pickup : option SealKeys) : H (option OwnerDetails * Z) :=
  let* row := select listings aggregate_id in
  let* listing := or_refuse
    (row ≫= fun l => if (l_seller_pubky l =? actor)%string then Some l else None)
    (refused NotFound "The listing was not found.") in
  let* keys := or_refuse pickup PICKUP_UNAVAILABLE in
  let* counter := select pickup_counters (l_aggregate_id listing) in
  let last_version := default 0 (vc_last_version <$> counter) in
  let* current := gets (fun db => current_details db (l_aggregate_id listing)) in
  match current with
  | None => ret (None, last_version)
  | Some row =>
      let* details := open_json keys (details_aad (l_aggregate_id listing) (pk_version row))
                        (pk_ciphertext row) in
      ret (Some (mkOwnerDetails details (pk_version row) (pk_updated_at row)), last_version)
  end.

(** The pins of an order, by line. *)
Definition order_pins (db : Db) (order_id : Uuid) : list PickupPin :=
  merge_sort pin_le (List.filter (fun p => N.eqb (pp_order_id p) order_id) (pickup_pins db)).

Definition reveal_line (keys : SealKeys) (order_id : Uuid) (pin : PickupPin) : H RevealLine :=
  let* details := open_json keys (snapshot_aad order_id (pp_line_index pin) (pp_version pin))
                    (pp_ciphertext pin) in
  let* current := gets (fun db => current_details db (pp_listing_aggregate_id pin)) in
  let current_version := pk_version <$> current in
  ret (mkRevealLine (pp_line_index pin) (pp_listing_aggregate_id pin) (pp_version pin)
         current_version
         (match current_version with Some v => pp_version pin <? v | None => false end)
         (bool_decide (current_version = None)) (pp_created_at pin) details).

(** [get_order_pickup_details]: the paying buyer's reveal of the pinned
    terms; the first one stamps the order. *)
Definition get_order_pickup_details (actor : string) (id : Uuid) (pickup : option SealKeys)
    (sandbox_payments_enabled : bool) (now : Time) : H (Time * list RevealLine) :=
  let* row := select orders id in
  let* order := or_refuse
    (row ≫= fun o =>
       if ((o_buyer_pubky o =? actor) || (o_seller_pubky o =? actor))%string
       then Some o else None)
    (refused NotFound "The order was not found.") in
  do* refuse_if (negb (o_buyer_pubky order =? actor)%string)
        (refused Unauthorized "Only the buyer may reveal the pickup details.") in
  do* refuse_if sandbox_payments_enabled PICKUP_UNAVAILABLE in
  let* keys := or_refuse pickup PICKUP_UNAVAILABLE in
  do* refuse_if (bool_decide (o_receipt_id order = None))
        (refused InvalidState "The order carries no payment confirmation.") in
  do* refuse_if (is_terminal (o_state order))
        (refused InvalidState
           "The order is terminal; the pickup details are no longer revealed.") in
  do* refuse_if (negb (bool_decide (o_fulfillment order = Pickup)))
        (refused InvalidState "Only pickup orders carry pickup details.") in
  let* snapshots := gets (fun db => order_pins db (o_id order)) in
  do* refuse_if (existsb (fun pin => (pp_adapter pin =? "sandbox")%string) snapshots)
        (refused InvalidState
           "This order was confirmed by a sandbox payment; its pickup details are never revealed.") in
  do* refuse_if (bool_decide (snapshots = []))
        (refused InvalidState "This order carries no pinned pickup details.") in
  let* lines := map_each snapshots (reveal_line keys (o_id order)) in
  do* update_where orders order_check (o_id order)
        (fun o => bool_decide (o_first_revealed_at o = None))
        (fun o => o <| o_first_revealed_at := Some now |>) in
  ret (default now (o_first_revealed_at order), lines).
End PickupReads.
