(* ===== verification/DigitalManual.v ===== *)
(** * Digital order lines and manual delivery
    ([handlers/digital_orders.rs], [handlers/digital_manual.rs])

    Which lines release at payment, whether their deliverable exists, and the
    pin a confirmation writes; the sealed delivery email, the seller's mark
    and the buyer's replacement. *)

From S2P Require Import Prelude StateMachines Domain Seal Store Commands Actions Text.

Definition line_kind (line : OrderLine) : option DigitalDeliveryKind :=
  match ln_digital_kind line with
  | Some s => digital_kind_parse s
  | None => None
  end.

Definition is_instant_line (line : OrderLine) : bool :=
  match line_kind line with Some k => is_instant k | None => false end.

(** Index, listing and kind of every instant line. *)
Definition instant_lines (order : OrderRow) : list (nat * string * DigitalDeliveryKind) :=
  omap (fun '(index, line) =>
    match line_kind line with
    | Some k => if is_instant k then Some (index, ln_listing_aggregate_id line, k) else None
    | None => None
    end) (imap pair (o_lines order)).

Definition all_lines_instant (order : OrderRow) : bool :=
  match o_lines order with [] => false | lines => forallb is_instant_line lines end.

Definition current_version (db : Db) (listing_aggregate_id : string)
    : option DigitalVersionRow :=
  List.find (fun v => (dv_listing_aggregate_id v =? listing_aggregate_id)%string &&
                      bool_decide (dv_superseded_at v = None)) (digital_versions db).

(** The listing still has a current version of the kind the buyer paid for. *)
Definition deliverable (db : Db) (entry : nat * string * DigitalDeliveryKind) : bool :=
  let '(_, listing, kind) := entry in
  match current_version db listing with
  | Some current => (dv_kind current =? digital_kind_str kind)%string
  | None => false
  end.

Definition unpinnable (order : OrderRow) : H bool :=
  gets (fun db =>
    if negb (bool_decide (o_fulfillment order = Digital)) then false
    else negb (forallb (deliverable db) (instant_lines order))).

Section DigitalOrders.
Context `{!UuidCrate}.

Definition pin_digital_line (order_id : Uuid) (confirming_adapter : string) (keys : SealKeys)
    (now : Time) (entry : nat * string * DigitalDeliveryKind) : H unit :=
  let '(line_index, listing, kind) := entry in
  let* current := gets (fun db => current_version db listing) in
  match current with
  | None => sql_fail (Protocol "a digital order line lost its deliverable")
  | Some current =>
      match sk_open keys
              (version_aad listing (dv_deliverable_id current) (dv_version current) kind)
              (dv_ciphertext current) with
      | None => sql_fail (Protocol "a digital deliverable version did not open")
      | Some plaintext =>
          let* nonce := fresh_nonce in
          let sealed := sk_seal keys nonce
            (pin_aad order_id line_index listing (dv_deliverable_id current) (dv_version current))
            plaintext in
          let* pins := gets digital_pins in
          if existsb (fun q => N.eqb (gp_order_id q) order_id &&
                               Nat.eqb (gp_line_index q) line_index) pins
          then sql_fail UniqueViolation
          else modify (upd digital_pins (fun l => l ++
                 [mkDigitalPin order_id line_index listing (dv_deliverable_id current)
                    (dv_version current) (digital_kind_str kind) sealed confirming_adapter now]))
      end
  end.

Definition pin_digital_lines (order : OrderRow) (confirming_adapter : string)
    (keys : option SealKeys) (now : Time) : H unit :=
  match instant_lines order with
  | [] => ret tt
  | lines =>
      match keys with
      | None =>
          sql_fail (Protocol "a digital order confirmed without DIGITAL_DELIVERY_ENCRYPTION_KEY")
      | Some keys => for_each lines (pin_digital_line (o_id order) confirming_adapter keys now)
      end
  end.
End DigitalOrders.

(** ** Manual digital delivery ([handlers/digital_manual.rs])

    The buyer's sealed delivery email and the seller's marks that an email or
    message line was delivered. *)

Definition INVALID_EMAIL : CommandFailure :=
  refused_with_reason InvalidCommand "The delivery email address is not valid."
    "invalid_delivery_email".

(** [unavailable] of [handlers/digital.rs]. *)
Definition REASON_UNAVAILABLE : string := "digital_delivery_unavailable".
Definition DIGITAL_UNAVAILABLE : CommandFailure :=
  refused_with_reason InvalidState "Digital delivery is unavailable on this deployment."
    REASON_UNAVAILABLE.

(** The manual kinds among the lines. *)
Definition manual_kinds (order : OrderRow) : list DigitalDeliveryKind :=
  List.filter (fun k => negb (is_instant k)) (omap line_kind (o_lines order)).

Definition has_kind (kind : DigitalDeliveryKind) (kinds : list DigitalDeliveryKind) : bool :=
  existsb (fun k => (digital_kind_str k =? digital_kind_str kind)%string) kinds.

Definition has_email_line (order : OrderRow) : bool :=
  bool_decide (o_fulfillment order = Digital) && has_kind DEmail (manual_kinds order).

Section DigitalManual.
Context `{!UuidCrate}.

(** [INSERT .. ON CONFLICT (order_id) DO UPDATE]: a replacement clears the
    purge mark. *)
Definition store_delivery_email (keys : SealKeys) (order_id : Uuid) (buyer : Pubky)
    (email : string) (now : Time) : H unit :=
  let* nonce := fresh_nonce in
  let sealed := sk_seal keys nonce (email_aad order_id buyer) email in
  modify (upd delivery_emails (fun m =>
    <[order_id :=
        match m !! order_id with
        | Some row => row <| em_ciphertext := Some sealed |> <| em_updated_at := now |>
                          <| em_purged_at := None |>
        | None => mkDeliveryEmailRow buyer (Some sealed) None None now now
        end]> m)).

Definition email_row (order_id : Uuid) : H (option DeliveryEmailRow) :=
  select delivery_emails order_id.

Definition emailed (row : option DeliveryEmailRow) : bool :=
  bool_decide (is_Some (row ≫= em_emailed_at)).

(** The tail: one event, at most one notification, the order. *)
Definition order_action_success (actor : string) (command : Command) (order : OrderRow)
    (event_kind : string) (notify : option (string * Pubky)) (now : Time) : H HandlerSuccess :=
  let aggregate := order_aggregate_id (o_id order) in
  let* event_id := insert_event (c_command_id command) aggregate (o_revision order) actor
                     event_kind now in
  do* (match notify with
       | Some (notification, recipient) =>
           insert_notification_intent event_id notification recipient actor aggregate None now
       | None => ret tt
       end) in
  let* reviews := fetch_order_reviews (o_id order) in
  ret (mkSuccess (o_revision order) [event_id] (VOrder (command_view order) reviews)).

(** [order.set_delivery_email]. *)
Definition set_delivery_email (actor : string) (command : Command)
    (payload : SetDeliveryEmailPayload) (keys : option SealKeys) (now : Time)
    : H HandlerSuccess :=
  let* keys := or_refuse keys DIGITAL_UNAVAILABLE in
  let* order := load_order_action actor command (se_order_id payload) in
  do* refuse_if (negb (o_buyer_pubky order =? actor)%string)
        (refused Unauthorized "Only the buyer may change the delivery email.") in
  do* refuse_if (negb (has_email_line order))
        (refused_with_reason InvalidState "No item in this order is delivered by email."
           "delivery_email_not_needed") in
  do* refuse_if (negb (match o_state order with OPendingPayment | OPaid => true | _ => false end))
        (refused InvalidState "The delivery email can no longer be changed.") in
  let* row := email_row (o_id order) in
  do* refuse_if (emailed row)
        (refused_with_reason InvalidState "The seller already emailed the purchase."
           "already_emailed") in
  do* refuse_if (negb (is_well_formed (se_delivery_email payload))) INVALID_EMAIL in
  do* store_delivery_email keys (o_id order) (o_buyer_pubky order) (se_delivery_email payload)
        now in
  let* updated := bump_order order (fun o => o <| o_updated_at := now |>) in
  let notify :=
    if bool_decide (is_Some (o_receipt_id updated))
    then Some ("delivery_email_updated", o_seller_pubky updated) else None in
  order_action_success actor command updated "order.delivery_email_set" notify now.

(** The marks of one channel, with its refusals. *)
Definition mark_channel (order : OrderRow) (channel : DigitalDeliveryChannel)
    (row : option DeliveryEmailRow) (message_marked : bool) (now : Time) : H unit :=
  match channel with
  | ChannelEmail =>
      do* refuse_if (emailed row)
            (refused_with_reason InvalidState "The purchase was already marked emailed."
               "already_emailed") in
      do* refuse_if (negb (bool_decide (is_Some (row ≫= em_ciphertext))))
            (refused_with_reason InvalidState "The buyer has not given a delivery email."
               "email_missing") in
      do* update_where delivery_emails always (o_id order) (fun _ => true)
            (fun e => e <| em_emailed_at := Some now |>) in
      ret tt
  | ChannelMessage =>
      refuse_if message_marked
        (refused InvalidState "The purchase was already marked delivered.")
  end.

(** The [UPDATE] of [fulfillment.deliver_digital]. *)
Definition digital_delivery_row (delivered : bool) (channel : DigitalDeliveryChannel) (now : Time)
    (o : OrderRow) : OrderRow :=
  o <| o_updated_at := now |>
    <| o_state := if delivered then ODelivered else o_state o |>
    <| o_digital_delivered_at := if delivered then Some now else o_digital_delivered_at o |>
    <| o_digital_message_delivered_at :=
         match channel with
         | ChannelMessage => Some now
         | ChannelEmail => o_digital_message_delivered_at o
         end |>.

(** [fulfillment.deliver_digital]. *)
Definition deliver_digital (actor : string) (command : Command) (payload : DeliverDigitalPayload)
    (now : Time) : H HandlerSuccess :=
  let* order := load_order_action actor command (dd_order_id payload) in
  do* refuse_if (negb (o_seller_pubky order =? actor)%string)
        (refused Unauthorized "Only the seller may mark this delivered.") in
  let kinds := manual_kinds order in
  let channel := dd_channel payload in
  do* refuse_if (negb (bool_decide (o_fulfillment order = Digital)) ||
                 negb (has_kind (channel_kind channel) kinds))
        (refused_with_reason InvalidState "No item in this order is delivered that way."
           "wrong_delivery_channel") in
  do* refuse_if (negb (bool_decide (o_state order = OPaid)))
        (refused InvalidState
           (if bool_decide (o_state order = OCancelRequested)
            then "This order has a cancellation request; approve or decline it first."
            else "The order is not awaiting delivery.")) in
  let* row := email_row (o_id order) in
  let email_marked := emailed row in
  let message_marked := bool_decide (is_Some (o_digital_message_delivered_at order)) in
  do* mark_channel order channel row message_marked now in
  let email_done := negb (has_kind DEmail kinds) || email_marked ||
                    match channel with ChannelEmail => true | ChannelMessage => false end in
  let message_done := negb (has_kind DMessage kinds) || message_marked ||
                      match channel with ChannelMessage => true | ChannelEmail => false end in
  let delivered := email_done && message_done in
  let* updated := bump_order order (digital_delivery_row delivered channel now) in
  order_action_success actor command updated
    (if delivered then "fulfillment.digital_delivered"
     else "fulfillment.digital_channel_delivered")
    (if delivered then Some ("order_delivered", o_buyer_pubky updated) else None) now.
End DigitalManual.
