(* ===== verification/Digital.v ===== *)
(** * Digital delivery setup ([handlers/digital.rs])

    [digital_delivery.set] and [digital_delivery.clear]: each set issues the
    next version of the listing's deliverable through a counter that outlives
    a clear; a file is read back from the seller's homeserver first. *)

From S2P Require Import Prelude Domain Seal Store Commands Actions Text Json DigitalManual.
From S2P Require Import DigitalManual PickupDetails.

(** [DIGITAL_ENDED_ORDER_STATES]. *)
Definition digital_ended (s : OrderState) : bool :=
  match s with OCancelled | ORefundedExternal | OClosed => true | _ => false end.

Inductive TakenBack := Reversed | Refunded.

Definition taken_back_reason (t : TakenBack) : string :=
  match t with Reversed => "payment_reversed" | Refunded => "payment_refunded" end.

Definition taken_back_message (t : TakenBack) : string :=
  match t with
  | Reversed => "The payment was reversed, so the purchase is no longer available."
  | Refunded => "PayPal refunded this payment, so the purchase is no longer available."
  end.

(** Why money taken back withholds a digital purchase, if it does. *)
Definition payment_taken_back (order : OrderRow) : option TakenBack :=
  if bool_decide (is_Some (o_payment_reversed_at order)) then Some Reversed
  else if bool_decide (is_Some (o_external_refund order)) && negb (digital_ended (o_state order))
  then Some Refunded
  else None.

(** What the homeserver answers for a deliverable. *)
Inductive DeliverableFetchOutcome :=
| DeliverableFound (blake3 : string) (len : Z)
| DeliverableNotFound
| DeliverableTooLarge
| DeliverableUnavailable.

(** Seller, deliverable, version, expected length. *)
Definition DigestFetch : Type := Pubky -> string -> Z -> Z -> DeliverableFetchOutcome.

Definition unverifiable (code : ErrorCode) : CommandFailure :=
  refused_with_reason code "The deliverable could not be read back from the seller's homeserver."
    "deliverable_unverifiable".

Definition events_aggregate_id (listing_aggregate_id : string) : string :=
  "digital_delivery:" +:+
  default listing_aggregate_id (strip_prefix "listing:" listing_aggregate_id).

Definition NOT_SELLER : CommandFailure :=
  refused Unauthorized "Only the listing seller may manage its digital delivery.".
Definition LISTING_NOT_FOUND : CommandFailure := refused NotFound "The listing was not found.".
Definition NOT_DIGITAL : CommandFailure :=
  refused InvalidState "The listing does not publish digital delivery.".
Definition IN_USE : CommandFailure :=
  refused_with_reason InvalidState
    "Buyers are paying for or still downloading this listing's digital delivery."
    "digital_delivery_in_use".

Definition publishes_digital (l : ListingRow) : bool :=
  bool_decide (Digital ∈ l_fulfillment_methods l).

(** A buyer is paying for, or still entitled to, the listing's delivery. *)
Definition digital_order_in_use (listing_aggregate_id : string) (o : OrderRow) : bool :=
  bool_decide (o_fulfillment o = Digital) &&
  (bool_decide (o_state o = OPendingPayment) ||
   (bool_decide (is_Some (o_receipt_id o)) && negb (digital_ended (o_state o)))) &&
  existsb (fun line => (ln_listing_aggregate_id line =? listing_aggregate_id)%string) (o_lines o).

Definition listing_digital_in_use (listing_aggregate_id : string) : H bool :=
  gets (fun db => table_any (digital_order_in_use listing_aggregate_id) (orders db)).

(** The counter, created when absent, at the expected version. *)
Definition lock_digital_counter (listing : ListingRow) (expected_version : Z) (now : Time)
    : H Z :=
  let* existing := select digital_counters (l_aggregate_id listing) in
  do* (match existing with
       | Some _ => ret tt
       | None => write digital_counters counter_check (l_aggregate_id listing)
                   (mkCounter (l_seller_pubky listing) 0 None now)
       end) in
  let* row := select digital_counters (l_aggregate_id listing) in
  let* counter := or_fail row RowNotFound in
  do* refuse_if (negb (vc_last_version counter =? expected_version))
        (refused_with_revision RevisionConflict "The digital delivery version is stale."
           (vc_last_version counter)) in
  ret (vc_last_version counter).

(** A live order still downloads this version. *)
Definition digital_version_pinned (db : Db) (v : DigitalVersionRow) : bool :=
  existsb (fun pin =>
    (gp_listing_aggregate_id pin =? dv_listing_aggregate_id v)%string &&
    (gp_version pin =? dv_version v) &&
    match orders db !! gp_order_id pin with
    | Some o => negb (digital_ended (o_state o))
    | None => false
    end) (digital_pins db).

(** The two statements of [supersede_versions]. *)
Definition supersede_versions (listing_aggregate_id : string) (now : Time) : H unit :=
  do* modify (upd digital_versions (map (fun v =>
        if (dv_listing_aggregate_id v =? listing_aggregate_id)%string &&
           bool_decide (dv_superseded_at v = None)
        then v <| dv_superseded_at := Some now |> else v))) in
  modify (fun db => upd digital_versions (List.filter (fun v =>
    negb ((dv_listing_aggregate_id v =? listing_aggregate_id)%string &&
          bool_decide (is_Some (dv_superseded_at v)) &&
          negb (digital_version_pinned db v)))) db).

(** [sealed_payload]. *)
Definition sealed_payload (delivery : DigitalDelivery) : Json :=
  match delivery with
  | DeliverFile f =>
      JObject [("key", JString (df_key f)); ("iv", JString (df_iv f));
               ("ciphertext_blake3", JString (df_ciphertext_blake3 f));
               ("plaintext_blake3", JString (df_plaintext_blake3 f));
               ("size_bytes", JInt (df_size_bytes f));
               ("content_type", JString (df_content_type f));
               ("file_name", JString (df_file_name f))]
  | DeliverLink url => JObject [("url", JString url)]
  | DeliverText text => JObject [("text", JString text)]
  | DeliverEmail | DeliverMessage => JObject []
  end.

Definition AES_GCM_TAG_BYTES : Z := 16.

(** The file read back matches the declared length and hash. *)
Definition verify_file (homeserver : option DigestFetch) (seller_pubky : Pubky)
    (file : DigitalFile) : option CommandFailure :=
  match homeserver with
  | None => Some (unverifiable UpstreamUnavailable)
  | Some fetch =>
      let expected_len := df_size_bytes file + AES_GCM_TAG_BYTES in
      match fetch seller_pubky (df_deliverable_id file) (df_version file) expected_len with
      | DeliverableFound blake3 len =>
          if (len =? expected_len) && (blake3 =? df_ciphertext_blake3 file)%string then None
          else Some (unverifiable InvalidState)
      | DeliverableNotFound | DeliverableTooLarge => Some (unverifiable InvalidState)
      | DeliverableUnavailable => Some (unverifiable UpstreamUnavailable)
      end
  end.

(** [Uuid::simple]: thirty-two lowercase hexadecimal digits. *)
Definition hex_digit (n : N) : Ascii.ascii :=
  Ascii.ascii_of_N (if (n <? 10)%N then 48 + n else 87 + n)%N.

Fixpoint hex_digits (k : nat) (n : N) : string :=
  match k with
  | O => ""
  | S k' => hex_digits k' (n / 16) +:+ String (hex_digit (n mod 16)) ""
  end.

Definition uuid_simple (id : Uuid) : string := hex_digits 32 id.

(** [deliverable_id ~ '^[0-9a-f]{32}$'] and the like. *)
Definition is_hex (s : string) : bool :=
  bytes_all (fun c => in_range 48 57 c || in_range 97 102 c) s.

Definition digital_version_check (v : DigitalVersionRow) : bool :=
  (byte_len (dv_deliverable_id v) =? 32) && is_hex (dv_deliverable_id v) &&
  (0 <? dv_version v) && (dv_version v <=? i64_max) &&
  existsb (String.eqb (dv_kind v)) ["file"; "link"; "text"; "email"; "message"] &&
  match dv_ciphertext_blake3 v with
  | Some h => (byte_len h =? 64) && is_hex h
  | None => true
  end &&
  match dv_size_bytes v with Some n => 0 <? n | None => true end &&
  Bool.eqb (dv_kind v =? "file")%string
    (bool_decide (is_Some (dv_ciphertext_blake3 v)) && bool_decide (is_Some (dv_size_bytes v)) &&
     bool_decide (is_Some (dv_content_type v))).

(** [UNIQUE (listing_aggregate_id, version)] and one current version. *)
Definition digital_version_clash (v : DigitalVersionRow) (log : list DigitalVersionRow) : bool :=
  existsb (fun v' =>
    (dv_listing_aggregate_id v' =? dv_listing_aggregate_id v)%string &&
    ((dv_version v' =? dv_version v) ||
     (bool_decide (dv_superseded_at v' = None) && bool_decide (dv_superseded_at v = None)))) log.

Definition insert_version (v : DigitalVersionRow) : H unit :=
  let* log := gets digital_versions in
  if digital_version_clash v log then sql_fail UniqueViolation
  else if digital_version_check v then modify (upd digital_versions (fun l => l ++ [v]))
  else sql_fail CheckViolation.

(** The listing's public delivery columns. *)
Definition set_delivery_columns (kind content_type : option string) (size_bytes : option Z)
    (l : ListingRow) : ListingRow :=
  l <| l_digital_delivery_kind := kind |> <| l_digital_delivery_content_type := content_type |>
    <| l_digital_delivery_size_bytes := size_bytes |>.

Section Digital.
Context `{!UuidCrate, !JsonText}.

(** The listing, its owner and its method, as both reads of [set] check. *)
Definition digital_listing (actor : string) (row : option ListingRow) : H ListingRow :=
  let* listing := or_refuse row LISTING_NOT_FOUND in
  do* refuse_if (negb (l_seller_pubky listing =? actor)%string) NOT_SELLER in
  do* refuse_if (negb (publishes_digital listing)) NOT_DIGITAL in
  ret listing.

Definition check_file (homeserver : option DigestFetch) (max_bytes : Z) (listing : ListingRow)
    (delivery : DigitalDelivery) : H unit :=
  match delivery with
  | DeliverFile file =>
      do* refuse_if (max_bytes <? df_size_bytes file)
            (refused_with_reason InvalidCommand
               "The file is larger than this deployment accepts." "deliverable_too_large") in
      guard (verify_file homeserver (l_seller_pubky listing) file)
  | _ => ret tt
  end.

(** A kind change waits until nobody depends on the delivery. *)
Definition check_kind_change (listing : ListingRow) (kind : DigitalDeliveryKind) : H unit :=
  let* current := gets (fun db => current_version db (l_aggregate_id listing)) in
  match current with
  | Some current =>
      if negb (dv_kind current =? digital_kind_str kind)%string then
        let* used := listing_digital_in_use (l_aggregate_id listing) in
        refuse_if used IN_USE
      else ret tt
  | None => ret tt
  end.

Definition digital_event (actor : string) (command : Command) (listing : ListingRow)
    (event_kind : string) (now : Time) : H Uuid :=
  let events_aggregate := events_aggregate_id (l_aggregate_id listing) in
  let* event_revision := next_details_event_revision events_aggregate in
  insert_event (c_command_id command) events_aggregate event_revision actor event_kind now.

(** [digital_delivery.set]. *)
Definition set_delivery (actor : string) (command : Command) (payload : SetDigitalDeliveryPayload)
    (keys : option SealKeys) (homeserver : option DigestFetch) (max_bytes : Z) (now : Time)
    : H HandlerSuccess :=
  let* keys := or_refuse keys DIGITAL_UNAVAILABLE in
  let delivery := sg_delivery payload in
  let* peeked := fetch_listing (c_aggregate_id command) in
  let* listing := digital_listing actor peeked in
  do* check_file homeserver max_bytes listing delivery in
  let* locked := fetch_listing_for_update (c_aggregate_id command) in
  let* listing := digital_listing actor locked in
  let* last_version := lock_digital_counter listing (sg_expected_version payload) now in
  let kind := delivery_kind delivery in
  do* check_kind_change listing kind in
  let new_version := last_version + 1 in
  let* deliverable_id :=
    match delivery with
    | DeliverFile file => ret (df_deliverable_id file)
    | _ => let* id := fresh_uuid in ret (uuid_simple id)
    end in
  let* nonce := fresh_nonce in
  let ciphertext := sk_seal keys nonce
    (version_aad (l_aggregate_id listing) deliverable_id new_version kind)
    (to_vec (sealed_payload delivery)) in
  let '(ciphertext_blake3, size_bytes, content_type) :=
    match delivery with
    | DeliverFile file =>
        (Some (df_ciphertext_blake3 file), Some (df_size_bytes file), Some (df_content_type file))
    | _ => (None, None, None)
    end in
  do* supersede_versions (l_aggregate_id listing) now in
  do* insert_version (mkDigitalVersion (l_aggregate_id listing) (l_seller_pubky listing)
        deliverable_id new_version (digital_kind_str kind) ciphertext ciphertext_blake3 size_bytes
        content_type now None) in
  do* update_where digital_counters counter_check (l_aggregate_id listing) (fun _ => true)
        (fun c => c <| vc_last_version := new_version |> <| vc_cleared_at := None |>
                    <| vc_updated_at := now |>) in
  do* update_where listings listing_check (l_aggregate_id listing) (fun _ => true)
        (set_delivery_columns (Some (digital_kind_str kind)) content_type size_bytes) in
  let* event_id := digital_event actor command listing "digital_delivery.set" now in
  ret (mkSuccess new_version [event_id]
         (VDigitalDelivery (l_aggregate_id listing) (Some (kind, deliverable_id)) new_version
            now)).

(** [digital_delivery.clear]. *)
Definition clear_delivery (actor : string) (command : Command)
    (payload : ClearDigitalDeliveryPayload) (keys : option SealKeys) (now : Time)
    : H HandlerSuccess :=
  do* refuse_if (bool_decide (keys = None)) DIGITAL_UNAVAILABLE in
  let* row := fetch_listing_for_update (c_aggregate_id command) in
  let* listing := or_refuse row LISTING_NOT_FOUND in
  do* refuse_if (negb (l_seller_pubky listing =? actor)%string) NOT_SELLER in
  let* last_version := lock_digital_counter listing (cg_expected_version payload) now in
  let* used := listing_digital_in_use (l_aggregate_id listing) in
  do* refuse_if used IN_USE in
  do* supersede_versions (l_aggregate_id listing) now in
  do* update_where digital_counters counter_check (l_aggregate_id listing) (fun _ => true)
        (fun c => c <| vc_cleared_at := Some now |> <| vc_updated_at := now |>) in
  do* update_where listings listing_check (l_aggregate_id listing) (fun _ => true)
        (set_delivery_columns None None None) in
  let* event_id := digital_event actor command listing "digital_delivery.cleared" now in
  ret (mkSuccess last_version [event_id]
         (VDigitalDelivery (l_aggregate_id listing) None last_version now)).
End Digital.
