(* ===== verification/Fulfillment.v ===== *)
(** * Fulfillment and returns ([handlers/fulfillment.rs], [handlers/returns.rs])

    Shipping, delivery confirmation, pickup readiness and the handover; return
    requests, their approval and receipt, and the external refund. *)

From S2P Require Import Prelude StateMachines Domain Store Commands Actions Reviews Pickup.

Section Fulfillment.
Context `{!UuidCrate}.

(** [fulfillment.ship]. *)
Definition ship (actor : string) (command : Command) (payload : ShipOrderPayload) (now : Time)
    : H HandlerSuccess :=
  let* order := load_order_action actor command (so_order_id payload) in
  do* refuse_if (negb (o_seller_pubky order =? actor)%string)
        (refused Unauthorized "Only the seller may ship this order.") in
  do* refuse_if (bool_decide (o_fulfillment order = Pickup))
        (refused InvalidState
           "A pickup order cannot be shipped; use the pickup handover commands.") in
  do* refuse_if (bool_decide (o_fulfillment order = Digital))
        (refused InvalidState "A digital order is not shipped.") in
  do* refuse_if (negb (match o_state order with OPaid | OProcessing => true | _ => false end))
        (refused InvalidState "The order is not ready to ship.") in
  do* assert_order_transition (o_state order) OShipped in
  let shipment := mkShipment (so_carrier payload) (so_tracking_number payload) ShShipped now
                    None in
  let* updated := bump_order order (fun o =>
    o <| o_state := OShipped |> <| o_shipment := Some shipment |> <| o_updated_at := now |>) in
  finish_order_action actor command updated "fulfillment.shipped"
    "order_shipped" (o_buyer_pubky updated) now.

(** [fulfillment.confirm_delivery]. *)
Definition confirm_delivery (actor : string) (command : Command) (payload : OrderActionPayload)
    (now : Time) : H HandlerSuccess :=
  let* order := load_order_action actor command (ac_order_id payload) in
  do* refuse_if (negb (o_buyer_pubky order =? actor)%string)
        (refused Unauthorized "Only the buyer may confirm delivery.") in
  do* refuse_if (bool_decide (o_fulfillment order = Pickup))
        (refused InvalidState
           "A pickup order has no shipment to confirm; use fulfillment.confirm_pickup.") in
  do* refuse_if (bool_decide (o_fulfillment order = Digital))
        (refused InvalidState "A digital order has no shipment to confirm.") in
  let* shipment := or_refuse
    (if bool_decide (o_state order = OShipped) then o_shipment order else None)
    (refused InvalidState "The order is not awaiting delivery confirmation.") in
  do* assert_order_transition (o_state order) ODelivered in
  let delivered := shipment <| sh_state := ShDelivered |> <| sh_delivered_at := Some now |> in
  let* updated := bump_order order (fun o =>
    o <| o_state := ODelivered |> <| o_shipment := Some delivered |> <| o_updated_at := now |>) in
  finish_order_action actor command updated "fulfillment.delivered"
    "order_delivered" (o_seller_pubky updated) now.

Definition guard_pickup_order (order : OrderRow) : option CommandFailure :=
  if negb (bool_decide (o_fulfillment order = Pickup))
  then Some (refused InvalidState "This command applies only to pickup orders.")
  else None.

(** [fulfillment.mark_ready]. *)
Definition mark_ready (actor : string) (command : Command) (payload : OrderActionPayload)
    (now : Time) : H HandlerSuccess :=
  let* order := load_order_action actor command (ac_order_id payload) in
  do* refuse_if (negb (o_seller_pubky order =? actor)%string)
        (refused Unauthorized "Only the seller may mark the order ready for pickup.") in
  do* guard (guard_pickup_order order) in
  do* refuse_if (negb (bool_decide (o_state order = OPaid)))
        (refused InvalidState "The order is not awaiting pickup readiness.") in
  do* assert_order_transition (o_state order) OReadyForPickup in
  let* updated := bump_order order (fun o =>
    o <| o_state := OReadyForPickup |> <| o_updated_at := now |>) in
  finish_order_action actor command updated "fulfillment.ready_for_pickup"
    "pickup_ready" (o_buyer_pubky updated) now.

(** [INSERT INTO pickup_handovers .. ON CONFLICT (order_id) DO NOTHING]. *)
Definition record_handover (order_id : Uuid) (confirmed_by : Role) (now : Time) : H unit :=
  modify (upd pickup_handovers (fun m =>
    match m !! order_id with
    | Some _ => m
    | None => <[order_id := (confirmed_by, now)]> m
    end)).

Definition confirming_role (actor : string) (order : OrderRow) : Role :=
  if (actor =? o_buyer_pubky order)%string then RBuyer else RSeller.

(** [fulfillment.confirm_pickup]. *)
Definition confirm_pickup (actor : string) (command : Command) (payload : OrderActionPayload)
    (now : Time) : H HandlerSuccess :=
  let* order := load_order_action actor command (ac_order_id payload) in
  do* guard (guard_pickup_order order) in
  do* refuse_if (negb (match o_state order with OPaid | OReadyForPickup => true | _ => false end))
        (refused InvalidState "The order is not awaiting a pickup handover.") in
  let role := confirming_role actor order in
  (* The query runs for a seller only. *)
  let* terms_changed :=
    (if bool_decide (role = RSeller) then order_has_unresolved_terms_change order
     else ret false) in
  do* refuse_if terms_changed
        (refused InvalidState
           "The pickup terms changed after payment; the seller cannot confirm the handover until the buyer has seen the change.") in
  do* assert_order_transition (o_state order) ODelivered in
  do* record_handover (o_id order) role now in
  let* updated := bump_order order (fun o =>
    o <| o_state := ODelivered |> <| o_updated_at := now |>) in
  finish_order_action actor command updated "fulfillment.delivered" "order_delivered"
    (if bool_decide (role = RBuyer) then o_seller_pubky updated else o_buyer_pubky updated) now.
End Fulfillment.

(** ** Returns and the external refund ([handlers/returns.rs]) *)

Section Returns.
Context `{!UuidCrate}.

(** [return.request]. *)
Definition request (actor : string) (command : Command) (payload : RequestReturnPayload)
    (now : Time) : H HandlerSuccess :=
  let* order := load_order_action actor command (rq_order_id payload) in
  do* refuse_if (negb (o_buyer_pubky order =? actor)%string)
        (refused Unauthorized "Only the buyer may request a return.") in
  do* refuse_if (bool_decide (o_fulfillment order = Digital))
        (refused_with_reason InvalidState "Digital purchases cannot be returned."
           "returns_unavailable_for_digital") in
  do* refuse_if (negb (match o_state order with ODelivered | OCompleted => true | _ => false end)
                 || (o_total_minor order <? rq_requested_amount_minor payload))
        (refused InvalidState "The order is not eligible for this return amount.") in
  do* assert_order_transition (o_state order) OReturnRequested in
  let return_request := mkReturnRequest RtRequested (rq_reason payload)
    (rq_requested_amount_minor payload) now now in
  let* updated := bump_order order (fun o =>
    o <| o_state := OReturnRequested |> <| o_return_request := Some return_request |>
      <| o_updated_at := now |>) in
  finish_order_action actor command updated "return.requested"
    "return_updated" (o_seller_pubky updated) now.

Record ReturnStep := mkReturnStep {
  rst_from_order_state : OrderState;
  rst_to_order_state : OrderState;
  rst_to_return_state : ReturnState;
  rst_invalid_message : string;
  rst_event_kind : string;
}.

Definition assert_return_transition (f t : ReturnState) : H unit :=
  debug_assert
    (Machines.can_transition Machines.return_machine (return_state_str f) (return_state_str t))
    "return transition".

(** Seller-driven progression: order state and return state together. *)
Definition advance_return (actor : string) (command : Command) (payload : OrderActionPayload)
    (step : ReturnStep) (now : Time) : H HandlerSuccess :=
  let* order := load_order_action actor command (ac_order_id payload) in
  do* refuse_if (negb (o_seller_pubky order =? actor)%string)
        (refused Unauthorized
           (if bool_decide (rst_to_return_state step = RtApproved)
            then "Only the seller may approve this return."
            else "Only the seller may receive this return.")) in
  let* return_request := or_refuse
    (if bool_decide (o_state order = rst_from_order_state step) then o_return_request order
     else None)
    (refused InvalidState (rst_invalid_message step)) in
  do* assert_order_transition (o_state order) (rst_to_order_state step) in
  do* assert_return_transition (rr_state return_request) (rst_to_return_state step) in
  let return_request :=
    return_request <| rr_state := rst_to_return_state step |> <| rr_updated_at := now |> in
  let* updated := bump_order order (fun o =>
    o <| o_state := rst_to_order_state step |> <| o_return_request := Some return_request |>
      <| o_updated_at := now |>) in
  finish_order_action actor command updated (rst_event_kind step)
    "return_updated" (o_buyer_pubky updated) now.

(** [return.approve]. *)
Definition approve (actor : string) (command : Command) (payload : OrderActionPayload)
    (now : Time) : H HandlerSuccess :=
  advance_return actor command payload
    (mkReturnStep OReturnRequested OReturnApproved RtApproved
       "No return is pending approval." "return.approved") now.

(** [return.receive]. *)
Definition receive (actor : string) (command : Command) (payload : OrderActionPayload)
    (now : Time) : H HandlerSuccess :=
  advance_return actor command payload
    (mkReturnStep OReturnApproved OReturnReceived RtReceived
       "The return is not approved." "return.received") now.

(** What an earlier record already returned: a running PayPal sum may be
    topped up, any other record refuses a second one. *)
Definition recorded_minor (db : Db) (order : OrderRow) : option Z :=
  match o_external_refund order with
  | None => Some 0
  | Some existing =>
      match gateway_refunds db !! er_transaction_id existing with
      | Some row => if N.eqb (gw_order_id row) (o_id order) then Some (er_amount_minor existing) else None
      | None => None
      end
  end.

Definition refundable_state (order : OrderRow) : bool :=
  match o_state order with
  | OReturnReceived | OCancelled => true
  | ODelivered | OCompleted => bool_decide (o_fulfillment order = Digital)
  | _ => false
  end.

(** [refund.record_external]; a deployment with an attestor annotates the
    order. *)
Definition record_external_refund (actor : string) (command : Command)
    (payload : RecordExternalRefundPayload) (attestor : option Attestor) (now : Time)
    : H HandlerSuccess :=
  let* order := load_order_action actor command (rf_order_id payload) in
  do* refuse_if (negb (o_seller_pubky order =? actor)%string)
        (refused Unauthorized "Only the seller may record a refund.") in
  let* recorded := gets (fun db => recorded_minor db order) in
  do* refuse_if
        (negb (refundable_state order) || (o_total_minor order <? rf_amount_minor payload)
         || match recorded with
            | None => true
            | Some recorded => rf_amount_minor payload <? recorded
            end)
        (refused InvalidState "The external refund cannot be recorded.") in
  do* assert_order_transition (o_state order) ORefundedExternal in
  let external_refund := mkExternalRefund (rf_amount_minor payload) (rf_transaction_id payload)
                           now in
  let return_request :=
    (fun request => request <| rr_state := RtRefunded |> <| rr_updated_at := now |>)
      <$> o_return_request order in
  let* updated := bump_order order (fun o =>
    o <| o_state := ORefundedExternal |> <| o_external_refund := Some external_refund |>
      <| o_return_request := return_request |> <| o_updated_at := now |>) in
  do* (match attestor with
       | Some attestor => insert_annotation attestor (o_id updated) "refunded" now
       | None => ret tt
       end) in
  finish_order_action actor command updated "refund.recorded_external"
    "refund_recorded" (o_buyer_pubky updated) now.
End Returns.
