(* ===== verification/Cancellation.v ===== *)
(** * Order cancellation ([handlers/cancellation.rs], the released attempt of
    [paykit_attempts.rs]) *)

From S2P Require Import Prelude Domain StateMachines Store Commands Actions Drops Holds Pickup.
From S2P Require Import DigitalManual.

(** The payment row of an order ([payments.order_id] is unique). *)
Definition lock_payment (order_id : Uuid) : H (option PaymentRow) :=
  gets (fun db =>
    snd <$> List.find (fun kv => N.eqb (p_order_id (snd kv)) order_id)
              (map_to_list (payments db))).

Definition paykit_money_observed (order : OrderRow) : bool :=
  match o_paykit_request_state order with
  | Some s => (s =? "detected") || (s =? "awaiting_seller_confirmation") || (s =? "confirmed")
  | None => false
  end%string.

(** The pin a [paykit.void] row is dialed with. *)
Record PaykitVoidPin := mkVoidPin {
  vp_invoice_id : Uuid;
  vp_stack_id : string;
  vp_stack_endpoint : string;
}.

(** [record_released_attempt]: idempotent per (order, invoice). *)
Definition record_released_attempt (order_id : Uuid) : H unit :=
  let* row := select orders order_id in
  match row with
  | Some o =>
      match o_paykit_invoice_id o, o_paykit_stack_id o, o_paykit_stack_endpoint o,
            o_paykit_total_sats o with
      | Some invoice_id, Some _, Some _, Some total =>
          if 0 <? total then
            modify (upd superseded_attempts (fun l =>
              if bool_decide ((order_id, invoice_id) ∈ l) then l
              else l ++ [(order_id, invoice_id)]))
          else ret tt
      | _, _, _, _ => ret tt
      end
  | None => ret tt
  end.

(** The undelivered [paykit.activate] rows of the order are stamped. *)
Definition stamp_activate (order_id : Uuid) (now : Time) (row : OutboxRow) : OutboxRow :=
  match ob_payload row, ob_delivered_at row with
  | PaykitActivate id _ _ _ _ _, None =>
      if (ob_kind row =? "paykit.activate")%string && N.eqb id order_id
      then row <| ob_delivered_at := Some now |>
      else row
  | _, _ => row
  end.

Definition void_preparing_request (order_id : Uuid) (now : Time) : H unit :=
  let* voided := update_where orders order_check order_id
    (fun o => bool_decide (o_paykit_activation_state o = Some "preparing"))
    (fun o => o <| o_paykit_activation_state := Some "voided" |>
                <| o_paykit_request_state := None |> <| o_updated_at := now |>) in
  do* (match voided with Some _ => record_released_attempt order_id | None => ret tt end) in
  modify (upd outbox (map (stamp_activate order_id now))).

Section Cancellation.
Context `{!UuidCrate}.

(** [end_paykit_request]. *)
Definition end_paykit_request (order : OrderRow) (payment : PaymentRow) (actor : string)
    (command_id : Uuid) (now : Time) : H (option PaykitVoidPin) :=
  if negb (p_adapter payment =? "paykit")%string then ret None
  else
    do* (if bool_decide (p_state payment = PAwaitingEntitlement) then
           let* expired := update_one payments payment_check (p_id payment) always (fun p =>
             p <| p_state := PExpired |> <| p_revision := p_revision p + 1 |>
               <| p_updated_at := now |>) in
           do* insert_event command_id (payment_aggregate_id (p_id payment)) (p_revision expired)
                 actor "payment.expired" now in
           ret tt
         else ret tt) in
    if negb (bool_decide (o_paykit_activation_state order = Some "preparing")) then ret None
    else
      match o_paykit_invoice_id order, o_paykit_stack_id order, o_paykit_stack_endpoint order with
      | Some invoice_id, Some stack_id, Some stack_endpoint =>
          do* void_preparing_request (o_id order) now in
          ret (Some (mkVoidPin invoice_id stack_id stack_endpoint))
      | _, _, _ => ret None
      end.

Definition enqueue_paykit_void (event_id order_id : Uuid) (pin : PaykitVoidPin) (reason : string)
    (now : Time) : H unit :=
  enqueue event_id "paykit.void"
    (PaykitVoid (vp_invoice_id pin) order_id (vp_stack_id pin) (vp_stack_endpoint pin) reason) now.

(** The order with only the lines a cancel-approve returns to stock. *)
Definition releasable_lines (order : OrderRow) : H OrderRow :=
  if negb (bool_decide (o_fulfillment order = Digital)) then ret order
  else
    let* opened := gets (fun db =>
      map (fun a => snd (fst a))
        (List.filter (fun a => N.eqb (fst (fst a)) (o_id order)) (digital_access db))) in
    ret (order <| o_lines := map snd (List.filter
           (fun '(index, line) => negb (is_instant_line line && existsb (Nat.eqb index) opened))
           (imap pair (o_lines order))) |>).

Definition legacy_null_expiry_unaccounted (order : OrderRow) (failure : CommandFailure) : bool :=
  bool_decide (o_hold_expires_at order = None) && bool_decide (f_code failure = InvariantViolation).

Definition order_units (order : OrderRow) : Z := sum_list (map ln_quantity (o_lines order)).

Definition DROP_UNACCOUNTED : string :=
  "The drop units held by this order are no longer accounted to its drop.".

Definition credit_order_drop (order : OrderRow) (now : Time) : H unit :=
  match o_drop_aggregate_id order with
  | None => ret tt
  | Some drop_aggregate_id =>
      let* credited := credit_drop_release drop_aggregate_id (o_buyer_pubky order)
                         (order_units order) now in
      refuse_if (negb credited) (refused InvariantViolation DROP_UNACCOUNTED)
  end.

(** An active reservation of this buyer on this listing. *)
Definition is_winning (listing_aggregate_id buyer_pubky : string) (r : ReservationRow) : bool :=
  (r_listing_aggregate_id r =? listing_aggregate_id)%string &&
  (r_buyer_pubky r =? buyer_pubky)%string && bool_decide (r_status r = RActive).

Definition end_winning (listing_aggregate_id buyer_pubky : string) (status : ReservationStatus)
    (now : Time) (r : ReservationRow) : ReservationRow :=
  if is_winning listing_aggregate_id buyer_pubky r
  then r <| r_status := status |> <| r_updated_at := now |> else r.

(** [UPDATE reservations SET status = $s .. WHERE listing = .. AND buyer = ..
    AND status = 'active']: the number of rows changed. *)
Definition flip_winning_reservation (listing_aggregate_id buyer_pubky : string)
    (status : ReservationStatus) (now : Time) : H Z :=
  let* n := gets (fun db => Z.of_nat (length (List.filter
    (fun kv => is_winning listing_aggregate_id buyer_pubky (snd kv))
    (map_to_list (reservations db))))) in
  do* modify (upd reservations
        (fmap (end_winning listing_aggregate_id buyer_pubky status now))) in
  ret n.

(** [release_reserved_hold]: an auction winner's units return only with the
    reservation that held them. *)
Definition release_reserved_hold (order : OrderRow) (now : Time) : H unit :=
  match o_auction_aggregate_id order with
  | None => panic "only auction orders release through the reservation"
  | Some auction_aggregate_id =>
      let* released := flip_winning_reservation auction_aggregate_id (o_buyer_pubky order)
                         RReleased now in
      if released =? 0 then ret tt else release_lines order HReserved now
  end.

(** An unaccounted legacy hold does not stop the cancel. *)
Definition tolerate_legacy (order : OrderRow) (m : H unit) : H unit :=
  let* result := attempt m in
  match result with
  | inl _ => ret tt
  | inr failure =>
      if legacy_null_expiry_unaccounted order failure then ret tt else refuse failure
  end.

(** What an immediate cancel returns to stock. *)
Definition release_unpaid (order : OrderRow) (now : Time) : H unit :=
  if bool_decide (is_Some (o_auction_aggregate_id order)) then release_reserved_hold order now
  else if o_stock_held order then
    do* tolerate_legacy order (credit_order_drop order now) in
    tolerate_legacy order (release_lines order HReserved now)
  else ret tt.

(** What a unilateral pickup exit and an approved cancel return to stock. *)
Definition release_sold (order : OrderRow) (now : Time) : H unit :=
  do* credit_order_drop order now in
  release_lines order HSold now.

(** The guards of [order.cancel_request]. *)
Definition guard_cancel_request (actor : string) (order : OrderRow) : option CommandFailure :=
  if negb (o_buyer_pubky order =? actor)%string then
    Some (refused Unauthorized "Only the buyer may request cancellation.")
  else if bool_decide (o_fulfillment order = Digital) &&
          (match o_state order with ODelivered | OCompleted => true | _ => false end) then
    Some (refused_with_reason InvalidState "A delivered digital order cannot be cancelled."
            "digital_order_delivered")
  else if negb (match o_state order with
                | OPendingPayment | OPaid | OProcessing | OReadyForPickup => true
                | _ => false
                end) then
    Some (refused InvalidState "This order can no longer be cancelled.")
  else if bool_decide (o_state order = OPendingPayment) && paykit_money_observed order then
    Some (refused InvalidState "This order can no longer be cancelled.")
  else None.

(** The buyer's exits that need no seller. *)
Definition unilateral_exit (order : OrderRow) : H bool :=
  if bool_decide (o_fulfillment order = Pickup) &&
     (match o_state order with OPaid | OReadyForPickup => true | _ => false end)
  then
    let* terms_changed := order_has_unresolved_terms_change order in
    ret (terms_changed || bool_decide (is_Some (o_first_revealed_at order)))
  else ret false.

(** Target state and event kind. *)
Definition cancel_target (immediate unilateral : bool) : OrderState * string :=
  if immediate then (OCancelled, "order.cancelled")
  else if unilateral then (OCancelled, "order.cancelled_terms_change")
  else (OCancelRequested, "order.cancel_requested").

(** The final [UPDATE orders] of a cancel request. *)
Definition cancel_row (to_state : OrderState) (reason : string) (now : Time) (o : OrderRow)
    : OrderRow :=
  o <| o_state := to_state |> <| o_cancellation_reason := Some reason |>
    <| o_stock_held := false |> <| o_hold_expires_at := None |> <| o_updated_at := now |>.

(** The remote void of a prepared invoice rides the order event. *)
Definition enqueue_void_of (paykit_void : option PaykitVoidPin) (order_id : Uuid)
    (success : HandlerSuccess) (now : Time) : H unit :=
  match paykit_void with
  | None => ret tt
  | Some pin =>
      match hs_event_ids success with
      | [] => panic "an order action records its event"
      | event_id :: _ => enqueue_paykit_void event_id order_id pin "order_cancelled" now
      end
  end.

(** [order.cancel_request]. *)
Definition request (actor : string) (command : Command) (payload : RequestCancellationPayload)
    (now : Time) : H HandlerSuccess :=
  let* payment := lock_payment (rcn_order_id payload) in
  let* order := load_order_action actor command (rcn_order_id payload) in
  do* guard (guard_cancel_request actor order) in
  let* unilateral := unilateral_exit order in
  let immediate := bool_decide (o_state order = OPendingPayment) in
  let '(to_state, event_kind) := cancel_target immediate unilateral in
  do* assert_order_transition (o_state order) to_state in
  do* (if immediate then release_unpaid order now
       else if unilateral then release_sold order now
       else ret tt) in
  let* paykit_void :=
    match payment with
    | Some payment =>
        if immediate then end_paykit_request order payment actor (c_command_id command) now
        else ret None
    | None => ret None
    end in
  let* updated := bump_order order (cancel_row to_state (rcn_reason payload) now) in
  let* success := finish_order_action actor command updated event_kind
                    "order_cancelled" (o_seller_pubky updated) now in
  do* enqueue_void_of paykit_void (o_id order) success now in
  ret success.

(** [order.cancel_approve]. *)
Definition approve (actor : string) (command : Command) (payload : OrderActionPayload)
    (now : Time) : H HandlerSuccess :=
  let* order := load_order_action actor command (ac_order_id payload) in
  do* refuse_if (negb (o_seller_pubky order =? actor)%string)
        (refused Unauthorized "Only the seller may approve cancellation.") in
  do* refuse_if (negb (bool_decide (o_state order = OCancelRequested)))
        (refused InvalidState "No cancellation is pending.") in
  do* assert_order_transition (o_state order) OCancelled in
  let* releasable := releasable_lines order in
  do* release_sold releasable now in
  let* updated := bump_order order (fun o =>
    o <| o_state := OCancelled |> <| o_updated_at := now |>) in
  finish_order_action actor command updated "order.cancelled"
    "order_cancelled" (o_buyer_pubky updated) now.
End Cancellation.
