(* ===== verification/Payment.v ===== *)
(** * Payment confirmation ([handlers/payment.rs], the refund route of
    [bitcoin_review.rs])

    [payment.sandbox_advance] and [confirm_order], the one function every
    confirming path ends in. *)

From S2P Require Import Prelude Domain Seal StateMachines Store Commands Actions Drops Holds Pickup.
From S2P Require Import DigitalManual Cancellation.

(** [ConfirmKeys]: the sealing keys a confirmation pins terms with. *)
Record ConfirmKeys := mkConfirmKeys {
  ck_pickup : option SealKeys;
  ck_digital : option SealKeys;
}.

Definition NO_LONGER_HELD : string :=
  "The reserved inventory for this order is no longer held.".
Definition REASON_NOT_READY : string := "digital_delivery_not_ready".

(** The [UPDATE] of one confirmed line. *)
Definition sell_listing (new_state : ListingState) (q : Z) (now : Time) (l : ListingRow)
    : ListingRow :=
  l <| l_server_revision := l_server_revision l + 1 |> <| l_state := new_state |>
    <| l_reserved_quantity := l_reserved_quantity l - q |>
    <| l_sold_quantity := l_sold_quantity l + q |> <| l_updated_at := now |>.

Definition state_after_sale (l : ListingRow) (q : Z) : ListingState :=
  if 0 <? l_available_quantity l then LAvailable
  else if q <? l_reserved_quantity l then LReserved
  else LSold.

Definition sell_line (now : Time) (line : OrderLine) : H unit :=
  let aggregate_id := ln_listing_aggregate_id line in
  let quantity := ln_quantity line in
  let* row := fetch_listing_for_update aggregate_id in
  let* listing := or_refuse row
    (refused InvariantViolation "An order line's listing is missing.") in
  do* refuse_if (l_reserved_quantity listing <? quantity)
        (refused InvalidState NO_LONGER_HELD) in
  let new_state := state_after_sale listing quantity in
  do* debug_assert (listing_can (l_state listing) new_state) "listing transition" in
  do* update_where listings listing_check aggregate_id always
        (sell_listing new_state quantity now) in
  ret tt.

(** The amount the receipt records: a bitcoin-bound order was charged in sats. *)
Definition receipt_money (order : OrderRow) : Money :=
  match o_paykit_total_sats order with
  | Some total => mkMoney total "SAT" 0
  | None => mkMoney (o_total_minor order) (o_currency order) (o_exponent order)
  end.

(** The final [UPDATE orders] of a confirmation. *)
Definition confirm_row (confirmed_state : OrderState) (receipt_id : Uuid) (edition : option Z)
    (lines : list OrderLine) (now : Time) (o : OrderRow) : OrderRow :=
  o <| o_revision := o_revision o + 1 |> <| o_state := confirmed_state |>
    <| o_receipt_id := Some receipt_id |> <| o_edition := edition |>
    <| o_stock_held := false |> <| o_hold_expires_at := None |> <| o_lines := lines |>
    <| o_updated_at := now |>
    <| o_digital_delivered_at := if bool_decide (confirmed_state = ODelivered) then Some now
                                 else o_digital_delivered_at o |>.

Section Payment.
Context `{!UuidCrate}.

(** The guards of [confirm_order] that write nothing, and the conversion of
    an auction winner's reservation. *)
Definition confirm_guards (order : OrderRow) (now : Time) : H unit :=
  do* refuse_if (negb (Machines.can_transition Machines.order_machine
                         (order_state_str (o_state order)) "paid"))
        (refused InvalidState "The order can no longer be paid.") in
  let* undeliverable := unpinnable order in
  do* refuse_if undeliverable
        (refused_with_reason InvalidState "The seller's digital delivery is not set up."
           REASON_NOT_READY) in
  do* refuse_if (bool_decide (o_auction_aggregate_id order = None) && negb (o_stock_held order))
        (refused InvariantViolation NO_LONGER_HELD) in
  match o_auction_aggregate_id order with
  | None => ret tt
  | Some auction_aggregate_id =>
      let* converted := flip_winning_reservation auction_aggregate_id (o_buyer_pubky order)
                          RConverted now in
      refuse_if (converted =? 0) (refused InvalidState NO_LONGER_HELD)
  end.

Definition assign_edition (order : OrderRow) (actor : string) (command_id : Uuid) (now : Time)
    : H (option Z) :=
  match o_drop_aggregate_id order with
  | Some drop_aggregate_id =>
      let* edition := record_paid_unit drop_aggregate_id actor command_id now in
      let* edition := expect_i32 edition "drop totals are at most 1000000" in
      ret (Some edition)
  | None => ret None
  end.

(** The receipt row; its content hash is not modelled. *)
Definition issue_receipt (payment : PaymentRow) (order : OrderRow) (now : Time) : H ReceiptRow :=
  let* receipt_id := fresh_uuid in
  let total := receipt_money order in
  let receipt := mkReceipt receipt_id (o_id order) (p_id payment) (o_seller_pubky order)
    (o_buyer_pubky order) (amount_minor total) (currency total) (exponent total)
    (o_total_minor order) now in
  do* insert receipts receipt_check receipt_id receipt
        (fun db => table_any (fun r => N.eqb (rc_order_id r) (o_id order) ||
                                       N.eqb (rc_payment_id r) (p_id payment)) (receipts db)) in
  ret receipt.

(** The terms pinned in the receipt transaction: the order lines to keep. *)
Definition pin_terms (order : OrderRow) (adapter : string) (keys : ConfirmKeys) (now : Time)
    : H (list OrderLine) :=
  let* pinned_lines :=
    (if bool_decide (o_fulfillment order = Pickup)
     then pin_pickup_lines (o_id order) (o_lines order) adapter (ck_pickup keys) now
     else ret (o_lines order)) in
  do* (if bool_decide (o_fulfillment order = Digital)
       then pin_digital_lines order adapter (ck_digital keys) now else ret tt) in
  ret pinned_lines.

(** [confirm_order]. *)
Definition confirm_order (actor : string) (command_id : Uuid) (payment : PaymentRow)
    (order : OrderRow) (keys : ConfirmKeys) (now : Time) : H (OrderRow * ReceiptRow * Uuid) :=
  do* confirm_guards order now in
  let* edition := assign_edition order actor command_id now in
  do* for_each (o_lines order) (sell_line now) in
  let* receipt := issue_receipt payment order now in
  let* pinned_lines := pin_terms order (p_adapter payment) keys now in
  let delivered_now := bool_decide (o_fulfillment order = Digital) && all_lines_instant order in
  let confirmed_state := if delivered_now then ODelivered else OPaid in
  let* updated := update_one orders order_check (o_id order) always
    (confirm_row confirmed_state (rc_id receipt) edition pinned_lines now) in
  let* receipt_event_id := insert_event command_id (order_aggregate_id (o_id order))
                             (o_revision updated) actor "receipt.issued" now in
  do* (if delivered_now
       then insert_notification_intent receipt_event_id "order_delivered"
              (o_buyer_pubky updated) actor (order_aggregate_id (o_id updated)) None now
       else ret tt) in
  ret (updated, receipt, receipt_event_id).

(** ** The refund route *)

(** The caller of [refund_required] turns every failure into a database
    error, so refusals become one here. *)
Definition internal_failure {A} (m : H A) : H A :=
  let* result := attempt m in
  match result with
  | inl a => ret a
  | inr f => sql_fail (Protocol (f_message f))
  end.

(** [stamp_review_reason]. *)
Definition stamp_review_reason (payment : PaymentRow) (reason : string) (target : PaymentState)
    (command_id : Uuid) (event_actor : string) (now : Time) : H Uuid :=
  let* cas := update_where payments payment_check (p_id payment)
    (fun p => (match p_state p with
               | PExpired | PAwaitingEntitlement | PManualReview | PDetected => true
               | PConfirmed => false
               end) && bool_decide (p_resolution_outcome p = None))
    (fun p => p <| p_state := target |> <| p_revision := p_revision p + 1 |>
                <| p_review_reason := Some reason |>
                <| p_manual_review_entered_at :=
                     if bool_decide (target = PManualReview) then Some now
                     else p_manual_review_entered_at p |>
                <| p_updated_at := now |>) in
  match cas with
  | None => sql_fail (Protocol "payment could not enter review")
  | Some p =>
      insert_event command_id (payment_aggregate_id (p_id payment)) (p_revision p) event_actor
        "payment.manual_review" now
  end.

(** The pending order of undeliverable money: hold released, cancelled. *)
Definition cancel_undeliverable (order : OrderRow) (cancellation_reason : string)
    (command_id : Uuid) (event_actor : string) (now : Time) : H unit :=
  do* (if o_stock_held order && bool_decide (o_auction_aggregate_id order = None) then
         do* internal_failure (credit_order_drop order now) in
         internal_failure (release_lines order HReserved now)
       else ret tt) in
  let* cas := update_where orders order_check (o_id order)
    (fun o => bool_decide (o_state o = OPendingPayment))
    (fun o => cancel_row OCancelled cancellation_reason now
                (o <| o_revision := o_revision o + 1 |>)) in
  match cas with
  | None => ret tt
  | Some o =>
      do* insert_event command_id (order_aggregate_id (o_id order)) (o_revision o) event_actor
            "order.cancelled" now in
      ret tt
  end.

(** [refund_required]. *)
Definition refund_required (payment : PaymentRow) (order : OrderRow)
    (cancellation_reason : string) (command_id : Uuid) (event_actor : string) (now : Time)
    : H Uuid :=
  let* event_id := stamp_review_reason payment "refund_required" PManualReview command_id
                     event_actor now in
  do* (if bool_decide (o_state order = OPendingPayment)
       then cancel_undeliverable order cancellation_reason command_id event_actor now
       else ret tt) in
  do* for_each [o_buyer_pubky order; o_seller_pubky order] (fun recipient =>
        insert_notification_intent event_id "payment_refund_required" recipient event_actor
          (order_aggregate_id (o_id order)) None now) in
  ret event_id.

(** ** [payment.sandbox_advance] *)

Definition target_allowed (from : PaymentState) (target : SandboxPaymentTarget) : bool :=
  match from, target with
  | PAwaitingEntitlement, _ => true
  | PDetected, (TConfirmed | TManualReview) => true
  | _, _ => false
  end.

(** The payment, the order and the guards. *)
Definition load_payment (actor : string) (command : Command)
    (payload : AdvanceSandboxPaymentPayload) : H (PaymentRow * OrderRow) :=
  let* row := select payments (ap_payment_id payload) in
  let* payment := or_refuse row (refused NotFound "The sandbox payment was not found.") in
  do* refuse_if (negb (p_buyer_pubky payment =? actor)%string)
        (refused Unauthorized "Only the buyer may advance a sandbox payment.") in
  do* refuse_if (negb (p_adapter payment =? "sandbox")%string)
        (refused InvalidState
           "A Locks-correlated payment advances only by server-side verification.") in
  do* refuse_if (negb (c_aggregate_id command =? payment_aggregate_id (p_id payment))%string)
        (refused InvalidCommand "The payment aggregate id is invalid.") in
  do* refuse_if (negb (c_expected_revision command =? p_revision payment))
        (refused_with_revision RevisionConflict "The payment revision is stale."
           (p_revision payment)) in
  do* refuse_if (negb (target_allowed (p_state payment) (ap_target payload)))
        (refused InvalidState "The sandbox payment transition is invalid.") in
  do* debug_assert (Machines.can_transition Machines.payment_machine
                      (payment_state_str (p_state payment))
                      (payment_state_str (target_state (ap_target payload))))
        "payment transition" in
  do* refuse_if (bool_decide (ap_target payload = TConfirmed) && (ap_confirmations payload <? 1))
        (refused InvalidCommand "Confirmed payment requires at least one confirmation.") in
  let* order := fetch_order_for_update (p_order_id payment) in
  let* order := or_refuse order (refused InvariantViolation "Payment order is missing.") in
  ret (payment, order).

(** Money for an order that cannot be delivered. *)
Definition route_refund (actor : string) (command : Command) (payment : PaymentRow)
    (order : OrderRow) (now : Time) : H HandlerSuccess :=
  let* event_id := refund_required payment order "digital delivery unavailable at payment"
                     (c_command_id command) actor now in
  let* payment := select payments (p_id payment) in
  let* payment := or_fail payment RowNotFound in
  let* order := fetch_order_for_update (p_order_id payment) in
  match order with
  | None => panic "order locked above"
  | Some order => ret (mkSuccess (p_revision payment) [event_id] (VPayment payment (command_view order) None))
  end.

Definition advance_row (payload : AdvanceSandboxPaymentPayload) (now : Time) (p : PaymentRow)
    : PaymentRow :=
  p <| p_revision := p_revision p + 1 |> <| p_state := target_state (ap_target payload) |>
    <| p_confirmations := ap_confirmations payload |>
    <| p_manual_review_entered_at :=
         if bool_decide (ap_target payload = TManualReview) then Some now else None |>
    <| p_updated_at := now |>.

(** The state change itself, and the confirmation effects. *)
Definition apply_advance (actor : string) (command : Command)
    (payload : AdvanceSandboxPaymentPayload) (keys : ConfirmKeys) (payment : PaymentRow)
    (order : OrderRow) (now : Time) : H HandlerSuccess :=
  do* expect_i32 (ap_confirmations payload) "confirmations validated to 0..=6" in
  let* updated_payment := update_one payments payment_check (p_id payment) always
                            (advance_row payload now) in
  let* payment_event_id := insert_event (c_command_id command) (c_aggregate_id command)
    (p_revision updated_payment) actor
    ("payment." +:+ payment_state_str (target_state (ap_target payload))) now in
  if bool_decide (ap_target payload = TConfirmed) then
    let* confirmed := confirm_order actor (c_command_id command) payment order keys now in
    let '(order, receipt, receipt_event_id) := confirmed in
    do* insert_notification_intent payment_event_id "payment_confirmed" (o_seller_pubky order)
          actor (order_aggregate_id (o_id order)) None now in
    ret (mkSuccess (p_revision updated_payment) [payment_event_id; receipt_event_id]
           (VPayment updated_payment (command_view order) (Some receipt)))
  else
    ret (mkSuccess (p_revision updated_payment) [payment_event_id]
           (VPayment updated_payment (command_view order) None)).

(** [payment.sandbox_advance]. *)
Definition advance (actor : string) (command : Command) (payload : AdvanceSandboxPaymentPayload)
    (sandbox_payment_window_seconds : Z) (keys : ConfirmKeys) (now : Time) : H HandlerSuccess :=
  let* loaded := load_payment actor command payload in
  let '(payment, order) := loaded in
  let* order :=
    (if bool_decide (p_state payment = PAwaitingEntitlement)
     then acquire_payment_hold order sandbox_payment_window_seconds HOLD_SOURCE_SANDBOX now
     else ret order) in
  let* undeliverable :=
    (if bool_decide (ap_target payload = TConfirmed) then unpinnable order else ret false) in
  if undeliverable then route_refund actor command payment order now
  else apply_advance actor command payload keys payment order now.
End Payment.
