(* ===== verification/Auction.v ===== *)
(** * Auctions ([handlers/auction.rs])

    Proxy bidding with a first-accepted tie breaker, minimum-increment
    visible pricing, the anti-sniping extension, and the close shared by the
    seller's command and the server-time worker.  A bid's maximum is at most
    [MAX_SAFE_INTEGER] by command validation; the [i64] sums are kept at
    their width. *)

From stdpp Require Import sorting.
From S2P Require Import Prelude Domain StateMachines Store Commands Actions.

(** [30 * 60]. *)
Definition AUCTION_HOLD_SECONDS : Z := 1800.

Definition personal_minimum_next_bid
    (current_price_minor minimum_increment_minor bidder_previous_maximum : Z) : Z :=
  let visible_price_minimum := saturating_add current_price_minor minimum_increment_minor in
  if bidder_previous_maximum =? 0 then visible_price_minimum
  else Z.max visible_price_minimum (saturating_add bidder_previous_maximum 1).

Definition parse_auction (listing : ListingRow) : option AuctionState :=
  match l_sale_format listing with
  | FixedPrice => None
  | Auction => l_auction listing
  end.

(** ** Ranking *)

(** A bid replaces its bidder's representative when it is higher, or equal
    and earlier. *)
Definition supersedes (bid current : BidRow) : bool :=
  (b_maximum_amount_minor current <? b_maximum_amount_minor bid) ||
  ((b_maximum_amount_minor bid =? b_maximum_amount_minor current) &&
   (b_sequence bid <? b_sequence current)).

Fixpoint represent (bid : BidRow) (latest : list BidRow) : list BidRow :=
  match latest with
  | [] => [bid]
  | current :: rest =>
      if (b_bidder_pubky current =? b_bidder_pubky bid)%string
      then (if supersedes bid current then bid else current) :: rest
      else current :: represent bid rest
  end.

(** Higher maximum first, then the earlier bid. *)
Definition ranks_before (left right : BidRow) : Prop :=
  b_maximum_amount_minor right < b_maximum_amount_minor left \/
  (b_maximum_amount_minor right = b_maximum_amount_minor left /\
   b_sequence left <= b_sequence right).

#[export] Instance ranks_before_dec l r : Decision (ranks_before l r).
Proof. unfold ranks_before. apply _. Defined.

Definition representatives (bids : list BidRow) : list BidRow :=
  fold_left (fun latest bid => represent bid latest) bids [].

Definition ranked_bidder_maximums (bids : list BidRow) : list BidRow :=
  merge_sort ranks_before (representatives bids).

(** The visible price after a bid: what the runner-up forces. *)
Definition visible_amount (ranked : list BidRow) (increment opening : Z) : Z :=
  match ranked with
  | leader :: runner_up :: _ =>
      Z.min (b_maximum_amount_minor leader)
        (wrap64 (b_maximum_amount_minor runner_up + increment))
  | _ => opening
  end.

(** ** Bids of a listing *)

Definition sequence_le (x y : BidRow) : Prop := b_sequence x <= b_sequence y.

#[export] Instance sequence_le_dec x y : Decision (sequence_le x y).
Proof. unfold sequence_le. apply _. Defined.

Definition fetch_bids (db : Db) (listing_aggregate_id : string) : list BidRow :=
  merge_sort sequence_le
    (List.filter (fun b => (b_listing_aggregate_id b =? listing_aggregate_id)%string)
       (map snd (map_to_list (bids db)))).

Definition previous_maximum (actor : string) (previous_bids : list BidRow) : Z :=
  fold_right Z.max 0
    (map b_maximum_amount_minor
       (List.filter (fun b => (b_bidder_pubky b =? actor)%string) previous_bids)).

(** The auction after a bid. *)
Definition should_extend (auction : AuctionState) (now : Time) : bool :=
  (0 <? a_anti_sniping_window_seconds auction) &&
  (a_ends_at auction - now <=? seconds (a_anti_sniping_window_seconds auction)).

Definition auction_after_bid (auction : AuctionState) (leader : Pubky) (visible : Z) (now : Time)
    : AuctionState :=
  let auction :=
    if should_extend auction now
    then auction <| a_ends_at := now + seconds (a_anti_sniping_extension_seconds auction) |>
    else auction in
  auction <| a_current_price := with_amount (a_current_price auction) visible |>
          <| a_leader_pubky := Some leader |>
          <| a_bid_count := a_bid_count auction + 1 |>.

Section Auction.
Context `{!UuidCrate}.

(** The listing, its auction and the guards of a bid. *)
Definition load_bid (actor : string) (command : Command) (payload : PlaceBidPayload)
    (now : Time) : H (ListingRow * AuctionState) :=
  let* row := fetch_live_listing_for_update (c_aggregate_id command) in
  let* listing := or_refuse row (refused NotFound "The auction listing is not registered.") in
  do* refuse_if (l_seller_pubky listing =? actor)%string
        (refused Unauthorized "A seller cannot bid on their own auction.") in
  let* auction := or_refuse (parse_auction listing)
    (refused InvalidState "This listing is not an auction.") in
  let* reserve := fetch_auction_reserve (c_aggregate_id command) in
  do* or_refuse reserve (refused InvariantViolation "The auction reserve authority is missing.") in
  do* refuse_if (negb (bool_decide (a_status auction = AActive)))
        (refused AuctionClosed "The auction is not open for bidding.") in
  do* refuse_if (negb (c_expected_revision command =? l_server_revision listing))
        (refused_with_revision RevisionConflict "The auction revision is stale."
           (l_server_revision listing)) in
  do* refuse_if ((now <? a_starts_at auction) || (a_ends_at auction <=? now))
        (refused AuctionClosed "The auction is not open for bidding.") in
  do* refuse_if
        (negb (currency (pb_maximum_amount payload) =? l_unit_price_currency listing)%string ||
         negb (exponent (pb_maximum_amount payload) =? l_unit_price_exponent listing))
        (refused InvalidCommand "Bid maximum must use the auction asset and exponent.") in
  ret (listing, auction).

(** The outbid leader hears of the new visible price. *)
Definition notify_outbid (previous_leader : option Pubky) (leader : Pubky) (actor : string)
    (event_id : Uuid) (listing : ListingRow) (visible : Z) (now : Time) : H unit :=
  match previous_leader with
  | None => ret tt
  | Some previous =>
      if negb (previous =? leader)%string && negb (previous =? actor)%string then
        insert_notification_intent event_id "outbid" previous actor (l_aggregate_id listing)
          (Some (mkMoney visible (l_unit_price_currency listing)
                   (l_unit_price_exponent listing))) now
      else ret tt
  end.

(** [auction.place_bid]. *)
Definition place_bid (actor : string) (command : Command) (payload : PlaceBidPayload)
    (now : Time) : H HandlerSuccess :=
  let* loaded := load_bid actor command payload now in
  let '(listing, auction) := loaded in
  let* previous_bids := gets (fun db => fetch_bids db (l_aggregate_id listing)) in
  let minimum_next_bid := personal_minimum_next_bid
    (amount_minor (a_current_price auction)) (amount_minor (a_minimum_increment auction))
    (previous_maximum actor previous_bids) in
  do* refuse_if (amount_minor (pb_maximum_amount payload) <? minimum_next_bid)
        (refused_with_revision BidTooLow
           "Bid maximum must meet the current visible price increment and exceed the prior maximum."
           (l_server_revision listing)) in
  let bid := mkBid (c_command_id command) (l_aggregate_id listing) actor
    (amount_minor (pb_maximum_amount payload)) (currency (pb_maximum_amount payload))
    (exponent (pb_maximum_amount payload)) (a_bid_count auction + 1) now None in
  do* insert bids bid_check (b_id bid) bid
        (fun db => table_any (fun b =>
           (b_listing_aggregate_id b =? l_aggregate_id listing)%string &&
           (b_sequence b =? b_sequence bid)) (bids db)) in
  let ranked := ranked_bidder_maximums (previous_bids ++ [bid]) in
  match ranked with
  | [] => panic "at least the new bid exists"
  | leader :: _ =>
      let visible := visible_amount ranked (amount_minor (a_minimum_increment auction))
                       (l_unit_price_amount_minor listing) in
      do* update_where bids bid_check (b_id bid) always
            (fun b => b <| b_visible_amount_minor := Some visible |>) in
      let updated_auction := auction_after_bid auction (b_bidder_pubky leader) visible now in
      let* updated_listing := update_one listings listing_check (l_aggregate_id listing) always
        (fun l => l <| l_server_revision := l_server_revision l + 1 |>
                    <| l_auction := Some updated_auction |> <| l_updated_at := now |>) in
      let* event_id := insert_event (c_command_id command) (l_aggregate_id listing)
        (l_server_revision updated_listing) actor "auction.bid_placed" now in
      do* notify_outbid (a_leader_pubky auction) (b_bidder_pubky leader) actor event_id listing
            visible now in
      ret (mkSuccess (l_server_revision updated_listing) [event_id]
             (VBid updated_listing bid))
  end.

(** ** Close *)

(** [reserve_satisfied]: [inr] is the inconsistency that aborts the close. *)
Definition reserve_satisfied (listing : ListingRow) (auction : AuctionState)
    (reserve : AuctionReserveRow) : bool + string :=
  let asset_of m := (currency m =? l_unit_price_currency listing)%string &&
                    (exponent m =? l_unit_price_exponent listing) in
  if negb (ar_listing_aggregate_id reserve =? l_aggregate_id listing)%string ||
     negb (ar_listing_revision reserve =? l_listing_revision listing)
  then inr "auction reserve revision is inconsistent"
  else if negb (asset_of (a_current_price auction)) || negb (asset_of (a_minimum_increment auction))
  then inr "auction current-price asset is inconsistent"
  else
    match ar_reserve_price reserve with
    | None => inl true
    | Some reserve_price =>
        if negb (asset_of reserve_price) then inr "auction reserve asset is inconsistent"
        else inl (amount_minor reserve_price <=? amount_minor (a_current_price auction))
    end.

(** The listing an auction close leaves behind. *)
Definition close_listing (closed : AuctionState) (new_state : ListingState) (quantity_delta : Z)
    (now : Time) (l : ListingRow) : ListingRow :=
  l <| l_server_revision := l_server_revision l + 1 |> <| l_state := new_state |>
    <| l_available_quantity := l_available_quantity l - quantity_delta |>
    <| l_reserved_quantity := l_reserved_quantity l + quantity_delta |>
    <| l_auction := Some closed |> <| l_updated_at := now |>.

(** [OrderRow::new_for_insert] with the columns the handlers vary. *)
Definition new_for_insert (id : Uuid) (auction drop : option string) (buyer seller : Pubky)
    (lines : list OrderLine) (address : option DeliveryAddress)
    (subtotal shipping total : Z) (cur : string) (exp policy : Z) (payment_id : Uuid)
    (stock_held : bool) (hold_expires_at : option Time) (fulfillment : FulfillmentMethod)
    (now : Time) (priced_from : string) : OrderRow :=
  mkOrder id None auction drop buyer seller 1 OPendingPayment lines address subtotal shipping
    total cur exp policy payment_id None None None stock_held hold_expires_at None None false
    None None None None None None None None None None None None None None fulfillment None now now
    None priced_from None None None (mkFiat None None None None) (mkBind 0 None None None None None None)
    (mkPaypal None None None None None).

Definition new_payment (id order_id : Uuid) (buyer seller : Pubky) (total : Z) (cur : string)
    (exp : Z) (merchandise : option Z) (now : Time) : PaymentRow :=
  mkPayment id order_id buyer seller 1 "sandbox" PAwaitingEntitlement 0 total cur exp merchandise
    ((fun _ => cur) <$> merchandise) ((fun _ => exp) <$> merchandise) None None None
    None None None None None None now now.

(** The unique indexes of [orders]. *)
Definition order_clash (o : OrderRow) (db : Db) : bool :=
  table_any (fun o' =>
    (bool_decide (is_Some (o_auction_aggregate_id o)) &&
     bool_decide (o_auction_aggregate_id o' = o_auction_aggregate_id o)) ||
    (bool_decide (is_Some (o_checkout_command_id o)) &&
     bool_decide (o_checkout_command_id o' = o_checkout_command_id o) &&
     (o_seller_pubky o' =? o_seller_pubky o)%string &&
     bool_decide (o_fulfillment o' = o_fulfillment o)) ||
    (bool_decide (is_Some (o_offer_award_id o)) &&
     bool_decide (o_offer_award_id o' = o_offer_award_id o))) (orders db).

(** [payments.order_id] is unique. *)
Definition payment_clash (order_id : Uuid) (db : Db) : bool :=
  table_any (fun p => N.eqb (p_order_id p) order_id) (payments db).

(** What the winner of a closed auction receives. *)
Definition create_winner (listing : ListingRow) (closed : AuctionState) (winner : Pubky)
    (actor : string) (command_id close_event_id : Uuid) (now : Time)
    : H (ReservationRow * OrderRow * PaymentRow * Uuid) :=
  let reservation := mkReservation command_id (l_aggregate_id listing) winner 1 RActive
    (now + seconds AUCTION_HOLD_SECONDS) now now None None in
  do* insert reservations reservation_check command_id reservation no_clash in
  let final_price := a_current_price closed in
  let subtotal := amount_minor final_price in
  let total := wrap64 (subtotal + l_shipping_minor listing) in
  let* order_id := fresh_uuid in
  let* payment_id := fresh_uuid in
  let line := mkLine (l_aggregate_id listing) (l_listing_revision listing)
    (l_content_hash listing) (l_title listing) 1 final_price final_price None None None None None in
  let order := new_for_insert order_id (Some (l_aggregate_id listing)) None winner
    (l_seller_pubky listing) [line] None subtotal (l_shipping_minor listing) total
    (currency final_price) (exponent final_price) 1 payment_id false None Shipping now
    "listing" in
  do* insert orders order_check order_id order (order_clash order) in
  (* The stored payment has no merchandise amount; the returned one has. *)
  let payment := new_payment payment_id order_id winner (l_seller_pubky listing) total
    (currency final_price) (exponent final_price) in
  do* insert payments payment_check payment_id (payment None now) (payment_clash order_id) in
  let* order_event_id := insert_event command_id (order_aggregate_id order_id) 1 actor
                           "order.created" now in
  do* insert_notification_intent close_event_id "auction_won" winner actor
        (l_aggregate_id listing) (Some final_price) now in
  ret (reservation, order, payment (Some total) now, order_event_id).

(** Every distinct bidder, in order. *)
Definition distinct_bidders (db : Db) (listing_aggregate_id : string) : list Pubky :=
  merge_sort string_le
    (remove_dups (map b_bidder_pubky
       (List.filter (fun b => (b_listing_aggregate_id b =? listing_aggregate_id)%string)
          (map snd (map_to_list (bids db)))))).

Record AuctionCloseOutcome := mkCloseOutcome {
  ac_winner_pubky : option Pubky;
  ac_listing : ListingRow;
  ac_reservation : option ReservationRow;
  ac_order : option OrderRow;
  ac_payment : option PaymentRow;
  ac_event_ids : list Uuid;
}.

Definition notify_losers (winner : option Pubky) (actor : string) (close_event_id : Uuid)
    (listing : ListingRow) (final_price : Money) (now : Time) : H unit :=
  let* bidders := gets (fun db => distinct_bidders db (l_aggregate_id listing)) in
  for_each bidders (fun bidder =>
    if bool_decide (winner = Some bidder) then ret tt
    else insert_notification_intent close_event_id "auction_ended" bidder actor
           (l_aggregate_id listing) (Some final_price) now).

(** [close_locked_auction]. *)
Definition close_locked_auction (listing : ListingRow) (auction : AuctionState) (actor : string)
    (command_id : Uuid) (now : Time) : H AuctionCloseOutcome :=
  let* reserve := fetch_auction_reserve (l_aggregate_id listing) in
  let* reserve := or_fail reserve (Protocol "auction reserve authority is missing") in
  let* satisfied :=
    match reserve_satisfied listing auction reserve with
    | inl b => ret b
    | inr message => sql_fail (Protocol message)
    end in
  let winner := if satisfied && negb (is_deleted listing) then a_leader_pubky auction else None in
  let sold := bool_decide (is_Some winner) in
  let status := if sold then ASold else AUnsold in
  do* debug_assert (Machines.can_transition Machines.auction_machine "active"
                      (auction_status_str status)) "auction transition" in
  let closed := auction <| a_status := status |> in
  let* updated_listing := update_one listings listing_check (l_aggregate_id listing)
    (fun l => match l_auction l with
              | Some a => bool_decide (a_status a = AActive)
              | None => false
              end)
    (close_listing closed (if sold then LReserved else LAvailable) (if sold then 1 else 0) now) in
  let* close_event_id := insert_event command_id (l_aggregate_id listing)
    (l_server_revision updated_listing) actor
    (if sold then "auction.closed_sold" else "auction.closed_unsold") now in
  let* created :=
    match winner with
    | Some winner =>
        let* c := create_winner listing closed winner actor command_id close_event_id now in
        ret (Some c)
    | None => ret None
    end in
  do* notify_losers winner actor close_event_id listing (a_current_price closed) now in
  ret (match created with
       | Some (reservation, order, payment, order_event_id) =>
           mkCloseOutcome winner updated_listing (Some reservation) (Some order) (Some payment)
             [close_event_id; order_event_id]
       | None => mkCloseOutcome winner updated_listing None None None [close_event_id]
       end).

(** [auction.close]. *)
Definition close (actor : string) (command : Command) (now : Time) : H HandlerSuccess :=
  let* row := fetch_listing_for_update (c_aggregate_id command) in
  let* listing := or_refuse row (refused NotFound "The auction listing is not registered.") in
  do* refuse_if (negb (l_seller_pubky listing =? actor)%string)
        (refused Unauthorized "Only the seller may close this sandbox auction.") in
  let* auction := or_refuse
    (match parse_auction listing with
     | Some a => if bool_decide (a_status a = AActive) then Some a else None
     | None => None
     end) (refused InvalidState "The auction is not active.") in
  do* refuse_if (negb (c_expected_revision command =? l_server_revision listing))
        (refused_with_revision RevisionConflict "The auction revision is stale."
           (l_server_revision listing)) in
  do* refuse_if (now <? a_ends_at auction)
        (refused AuctionClosed "The auction has not ended yet.") in
  let* outcome := close_locked_auction listing auction actor (c_command_id command) now in
  ret (mkSuccess (l_server_revision (ac_listing outcome)) (ac_event_ids outcome)
         (VAuctionResult (ac_winner_pubky outcome) (ac_listing outcome)
            (ac_reservation outcome) (command_view <$> ac_order outcome) (ac_payment outcome))).
End Auction.
