(* ===== verification/ListingView.v ===== *)
(** * Listing projections ([model.rs])

    The one actor-aware listing serializer.  The reserve of an auction is
    added for its seller only, after the public projection; every actor's
    rendering passes the audience guard of [reserve_secrecy.rs]. *)

From S2P Require Import Prelude Domain Json ReserveSecrecy Store Commands Auction.

(** [ListingProjectionError]. *)
Definition INCONSISTENT : SqlError := Protocol "stored auction projection state is inconsistent".

(** [AuctionReserveRow::reserve_met]: [None] is the projection error. *)
Definition reserve_met (reserve : AuctionReserveRow) (auction : AuctionState) : option bool :=
  match a_leader_pubky auction with
  | None => Some false
  | Some _ =>
      match ar_reserve_price reserve with
      | None => Some true
      | Some price =>
          if negb (same_asset price (a_current_price auction)) then None
          else Some (amount_minor price <=? amount_minor (a_current_price auction))
      end
  end.

Definition priced_in (l : ListingRow) (m : Money) : bool :=
  (currency m =? l_unit_price_currency l)%string && (exponent m =? l_unit_price_exponent l).

(** The reserve fields, for the seller of an auction. *)
Definition reserve_view (l : ListingRow) (reserve : option AuctionReserveRow)
    : option ReserveView :=
  reserve ← reserve;
  if negb ((ar_listing_aggregate_id reserve =? l_aggregate_id l)%string &&
           (ar_listing_revision reserve =? l_listing_revision l))
  then None
  else
    auction ← l_auction l;
    if negb (priced_in l (a_current_price auction) && priced_in l (a_minimum_increment auction))
    then None
    else
      met ← reserve_met reserve auction;
      Some (mkReserveView (ar_reserve_price reserve) met (ar_record_revision reserve)
              (ar_last_command_id reserve)).

Definition projection_for_actor_with_auction (l : ListingRow) (actor : string)
    (reserve : option AuctionReserveRow) (viewer_bid : option (Money * Money))
    : option ListingProjection :=
  if bool_decide (l_sale_format l = Auction) && (actor =? l_seller_pubky l)%string then
    view ← reserve_view l reserve;
    Some (mkListingProjection l viewer_bid (Some view))
  else Some (mkListingProjection l viewer_bid None).

(** [ORDER BY maximum_amount_minor DESC LIMIT 1]. *)
Definition highest_bid (bids : list BidRow) : option BidRow :=
  match bids with
  | [] => None
  | b :: rest => Some (fold_left (fun best x =>
      if b_maximum_amount_minor best <? b_maximum_amount_minor x then x else best) rest b)
  end.

(** The actor's own bid and the least they may bid next. *)
Definition viewer_bid_projection (l : ListingRow) (actor : string)
    : H (option (Money * Money)) :=
  let* own := gets (fun db => highest_bid (List.filter (fun b =>
    ((b_listing_aggregate_id b =? l_aggregate_id l) && (b_bidder_pubky b =? actor))%string)
    (map snd (map_to_list (bids db))))) in
  match own with
  | None => ret None
  | Some b =>
      let* auction := or_fail (parse_auction l) (Protocol "auction state is missing") in
      let money amount := mkMoney amount (b_currency b) (b_exponent b) in
      ret (Some (money (b_maximum_amount_minor b),
                 money (personal_minimum_next_bid (amount_minor (a_current_price auction))
                          (amount_minor (a_minimum_increment auction))
                          (b_maximum_amount_minor b))))
  end.

(** ** Rendering *)

Definition money_json (m : Money) : Json :=
  JObject [("amount_minor", JInt (amount_minor m)); ("currency", JString (currency m));
           ("exponent", JInt (exponent m))].

Definition opt_json {A} (f : A -> Json) (o : option A) : Json :=
  match o with Some a => f a | None => JNull end.

Section Rendering.
(** [format_timestamp] and the text of a UUID. *)
Context (format_timestamp : Time -> string) (uuid_text : Uuid -> string).

Definition auction_value (a : AuctionState) : Json :=
  JObject [("starts_at", JString (format_timestamp (a_starts_at a)));
           ("ends_at", JString (format_timestamp (a_ends_at a)));
           ("minimum_increment", money_json (a_minimum_increment a));
           ("anti_sniping_window_seconds", JInt (a_anti_sniping_window_seconds a));
           ("anti_sniping_extension_seconds", JInt (a_anti_sniping_extension_seconds a));
           ("status", JString (auction_status_str (a_status a)));
           ("current_price", money_json (a_current_price a));
           ("leader_pubky", opt_json JString (a_leader_pubky a));
           ("bid_count", JInt (a_bid_count a))].

Definition digital_delivery_projection (l : ListingRow) : Json :=
  match l_digital_delivery_kind l with
  | None => JNull
  | Some kind =>
      JObject (("kind", JString kind) ::
        from_option (fun t => [("content_type", JString t)]) [] (l_digital_delivery_content_type l) ++
        from_option (fun n => [("size_bytes", JInt n)]) [] (l_digital_delivery_size_bytes l))
  end.

Definition sale_format_str (f : SaleFormat) : string :=
  match f with FixedPrice => "fixed_price" | Auction => "auction" end.

Definition method_str (m : FulfillmentMethod) : string :=
  match m with Shipping => "shipping" | Pickup => "pickup" | Digital => "digital" end.

Definition public_fields (l : ListingRow) : list (string * Json) :=
  [("aggregate_id", JString (l_aggregate_id l)); ("seller_pubky", JString (l_seller_pubky l));
   ("listing_id", JString (l_listing_id l)); ("title", JString (l_title l));
   ("listing_revision", JInt (l_listing_revision l)); ("content_hash", JString (l_content_hash l));
   ("server_revision", JInt (l_server_revision l));
   ("state", JString (listing_state_str (l_state l)));
   ("total_quantity", JInt (l_total_quantity l));
   ("available_quantity", JInt (l_available_quantity l));
   ("reserved_quantity", JInt (l_reserved_quantity l));
   ("sold_quantity", JInt (l_sold_quantity l));
   ("unit_price", money_json (mkMoney (l_unit_price_amount_minor l) (l_unit_price_currency l)
                                (l_unit_price_exponent l)));
   ("shipping", money_json (mkMoney (l_shipping_minor l) (l_unit_price_currency l)
                              (l_unit_price_exponent l)));
   ("sale_format", JString (sale_format_str (l_sale_format l)));
   ("auction", opt_json auction_value (l_auction l));
   ("fulfillment_methods", JArray (map (fun m => JString (method_str m)) (l_fulfillment_methods l)));
   ("digital_delivery", digital_delivery_projection l);
   ("updated_at", JString (format_timestamp (l_updated_at l)))].

Definition bid_fields (bid : option (Money * Money)) : list (string * Json) :=
  from_option (fun b => [("viewer_bid", JObject [("maximum_amount", money_json (fst b));
                                                 ("minimum_next_bid", money_json (snd b))])])
    [] bid.

Definition reserve_fields (view : option ReserveView) : list (string * Json) :=
  from_option (fun v =>
    [("reserve_price", opt_json money_json (rv_reserve_price v));
     ("reserve_met", JBool (rv_reserve_met v));
     ("reserve_record_revision", JInt (rv_reserve_record_revision v));
     ("last_reserve_command_id", JString (uuid_text (rv_last_reserve_command_id v)))]) [] view.

Definition projection_json (p : ListingProjection) : Json :=
  JObject (public_fields (lp_listing p) ++ bid_fields (lp_viewer_bid p) ++
           reserve_fields (lp_reserve p)).

(** The result member of a listing command. *)
Definition listing_result_json (p : ListingProjection) : Json :=
  JObject [("kind", JString "listing"); ("listing", projection_json p)].

(** ** Secrecy *)

Lemma opt_json_audience {A} (f : A -> Json) o actor :
  (forall a, ensure_actor_reserve_audience (f a) actor = true) ->
  ensure_actor_reserve_audience (opt_json f o) actor = true.
Proof. intros Hf. by destruct o; [apply Hf|]. Qed.

Lemma strings_audience {A} (f : A -> string) l actor :
  forallb (fun v => ensure_actor_reserve_audience v actor) (map (fun x => JString (f x)) l) = true.
Proof. by induction l. Qed.

Lemma auction_audience a actor : ensure_actor_reserve_audience (auction_value a) actor = true.
Proof. by unfold auction_value; destruct (a_leader_pubky a). Qed.

Lemma digital_audience l actor :
  ensure_actor_reserve_audience (digital_delivery_projection l) actor = true.
Proof.
  unfold digital_delivery_projection.
  by destruct (l_digital_delivery_kind l), (l_digital_delivery_content_type l),
    (l_digital_delivery_size_bytes l).
Qed.

(** An object whose fields are each public, or whose reserve fields belong to
    the actor. *)
Lemma object_audience fields actor :
  (forall k v, In (k, v) fields -> ensure_actor_reserve_audience v actor = true) ->
  (forall k v, In (k, v) fields -> is_reserve_audience_key k = true ->
     seller_object actor fields = true /\ contains seller_keys k = true) ->
  ensure_actor_reserve_audience (JObject fields) actor = true.
Proof.
  intros Hv Hk. cbn [ensure_actor_reserve_audience]. apply forallb_forall. intros [k v] Hin. cbn [fst snd].
  apply andb_true_iff. split; [|by eapply Hv]. apply negb_true_iff.
  destruct (is_reserve_audience_key k) eqn:E; [|done]. destruct (Hk k v Hin E) as [-> ->]. done.
Qed.

Lemma projection_audience p actor :
  (is_Some (lp_reserve p) -> l_seller_pubky (lp_listing p) = actor) ->
  ensure_actor_reserve_audience (projection_json p) actor = true.
Proof.
  intros Hr. apply object_audience.
  - intros k v. rewrite !in_app_iff. intros [Hin|[Hin|Hin]].
    + cbn [public_fields In] in Hin.
      repeat (destruct Hin as [[= <- <-]|Hin]; [first [reflexivity
        |exact (opt_json_audience _ _ _ (fun a => auction_audience a actor))|by apply digital_audience|exact (strings_audience _ _ _)]|]). done.
    + destruct (lp_viewer_bid p) as [[m n]|]; [|done]. by destruct Hin as [[= <- <-]|[]].
    + destruct (lp_reserve p) as [view|]; [|done]. cbn in Hin.
      destruct Hin as [[= <- <-]|[[= <- <-]|[[= <- <-]|[[= <- <-]|[]]]]]; try done.
      by apply opt_json_audience.
  - intros k v. rewrite !in_app_iff. intros [Hin|[Hin|Hin]].
    + cbn [public_fields In] in Hin. repeat (destruct Hin as [[= <- <-]|Hin]; [done|]). done.
    + destruct (lp_viewer_bid p) as [[m n]|]; [|done]. by destruct Hin as [[= <- <-]|[]].
    + destruct (lp_reserve p) as [view|] eqn:Ev; [|done]. intros _. split.
      * unfold seller_object. cbn. apply String.eqb_eq, Hr. done.
      * cbn in Hin. by destruct Hin as [[= <- <-]|[[= <- <-]|[[= <- <-]|[[= <- <-]|[]]]]].
Qed.

(** No listing answer discloses a reserve to anyone but its seller: the
    projection for an actor adds reserve fields only when the actor sells the
    auction, and its rendering always passes the answer guard, so the guard
    never has to replace it; for everyone else the rendering carries no
    reserve field at any depth. *)
Theorem projection_keeps_reserve_secret l actor reserve viewer_bid p :
  projection_for_actor_with_auction l actor reserve viewer_bid = Some p ->
  (is_Some (lp_reserve p) <-> l_sale_format l = Auction /\ l_seller_pubky l = actor) /\
  guard_command_result actor (listing_result_json p) = inl (listing_result_json p) /\
  (l_seller_pubky l <> actor -> ensure_reserve_free (projection_json p) = true).
Proof.
  intros E.
  assert (Hp : lp_listing p = l /\
    (is_Some (lp_reserve p) <-> l_sale_format l = Auction /\ l_seller_pubky l = actor)).
  { unfold projection_for_actor_with_auction in E.
    destruct (bool_decide _ && _) eqn:Eb.
    - destruct (reserve_view l reserve) as [view|]; [|done]. injection E as <-. cbn.
      reflect_bools. subst. done.
    - injection E as <-. split; [done|]. cbn. split; [by intros [? ?]|]. intros [Hf <-].
      rewrite Hf, String.eqb_refl in Eb. done. }
  destruct Hp as [El Hr]. split; [exact Hr|].
  assert (Ha : ensure_actor_reserve_audience (projection_json p) actor = true).
  { apply projection_audience. rewrite El, Hr. tauto. }
  split.
  - unfold guard_command_result, listing_result_json. cbn [ensure_actor_reserve_audience forallb].
    cbn [fst snd]. rewrite Ha. reflexivity.
  - intros Hne. apply reserve_free_iff. intros fields key w Hw Hin.
    destruct (is_reserve_audience_key key) eqn:Ek; [|done]. exfalso.
    assert (Hnone : lp_reserve p = None).
    { destruct (lp_reserve p); [|done]. destruct (proj1 Hr (ltac:(by eexists))) as [_ ?]. done. }
    assert (Hany : forall a, ensure_actor_reserve_audience (projection_json p) a = true).
    { intros a. apply projection_audience. rewrite Hnone. by intros [? ?]. }
    destruct (proj1 (audience_iff _ (actor +:+ "x")) (Hany _) _ _ _ Hw Hin Ek) as [H1 _].
    destruct (proj1 (audience_iff _ actor) Ha _ _ _ Hw Hin Ek) as [H2 _].
    rewrite H1 in H2. injection H2 as H2. clear - H2. revert H2.
    induction actor as [|c a IH]; [done|].
    change (String c a +:+ "x") with (String c (a +:+ "x")). intros [= H2]. by apply IH.
Qed.
End Rendering.

(** ** A sample: a running auction with a reserve that the leader has met. *)

Definition clock_auction : ListingRow :=
  mkListing "listing:sally:clock" "sally" "clock" "Clock" 2 "hash" 5 LAvailable 1 1 0 0 1000 "EUR" 2
    0 Auction
    (Some (mkAuctionState 0 500 (mkMoney 100 "EUR" 2) 60 60 AActive (mkMoney 3000 "EUR" 2)
             (Some "bob") 2)) [Shipping] None None 10 None None None None None 0 None 0 None.

Definition clock_reserve : AuctionReserveRow :=
  mkAuctionReserve "listing:sally:clock" 2 1 (Some (mkMoney 2500 "EUR" 2)) 7%N 10.

Lemma projection_keeps_reserve_secret_witness :
  exists seller buyer,
    projection_for_actor_with_auction clock_auction "sally" (Some clock_reserve) None = Some seller /\
    projection_for_actor_with_auction clock_auction "bob" (Some clock_reserve) None = Some buyer /\
    is_Some (lp_reserve seller) /\
    ensure_reserve_free (projection_json (fun _ => "") (fun _ => "") buyer) = true.
Proof.
  assert (Es : exists p, projection_for_actor_with_auction clock_auction "sally"
                           (Some clock_reserve) None = Some p) by (eexists; vm_compute; reflexivity).
  assert (Eb : exists p, projection_for_actor_with_auction clock_auction "bob"
                           (Some clock_reserve) None = Some p) by (eexists; vm_compute; reflexivity).
  destruct Es as [s Es], Eb as [b Eb]. exists s, b. split; [exact Es|]. split; [exact Eb|].
  destruct (projection_keeps_reserve_secret (fun _ => "") (fun _ => "") _ _ _ _ _ Es) as [Hs _].
  destruct (projection_keeps_reserve_secret (fun _ => "") (fun _ => "") _ _ _ _ _ Eb)
    as (_ & _ & Hb).
  split; [by apply Hs|]. by apply Hb.
Defined.
