(* ===== verification/Postal.v ===== *)
(** * Postal regions ([crates/domain/src/postal.rs])

    The table of [contracts/postal-region-rules.json] and the canonical form of
    a delivery address's region.  A canonical region is stable, and where a
    country has a subdivision table every spelling of a code or a name of the
    table is stored as its code. *)

From S2P Require Import Prelude Text.

Record PostalCountryRule := mkRule {
  region_required : bool;
  region_label : string;
  subdivisions : list (string * string);
}.

Definition US_SUBDIVISIONS : list (string * string) :=
  [("AL", "Alabama"); ("AK", "Alaska"); ("AZ", "Arizona"); ("AR", "Arkansas");
    ("CA", "California"); ("CO", "Colorado"); ("CT", "Connecticut"); ("DE", "Delaware");
    ("DC", "District of Columbia"); ("FL", "Florida"); ("GA", "Georgia"); ("HI", "Hawaii");
    ("ID", "Idaho"); ("IL", "Illinois"); ("IN", "Indiana"); ("IA", "Iowa"); ("KS", "Kansas");
    ("KY", "Kentucky"); ("LA", "Louisiana"); ("ME", "Maine"); ("MD", "Maryland");
    ("MA", "Massachusetts"); ("MI", "Michigan"); ("MN", "Minnesota"); ("MS", "Mississippi");
    ("MO", "Missouri"); ("MT", "Montana"); ("NE", "Nebraska"); ("NV", "Nevada");
    ("NH", "New Hampshire"); ("NJ", "New Jersey"); ("NM", "New Mexico"); ("NY", "New York");
    ("NC", "North Carolina"); ("ND", "North Dakota"); ("OH", "Ohio"); ("OK", "Oklahoma");
    ("OR", "Oregon"); ("PA", "Pennsylvania"); ("RI", "Rhode Island"); ("SC", "South Carolina");
    ("SD", "South Dakota"); ("TN", "Tennessee"); ("TX", "Texas"); ("UT", "Utah");
    ("VT", "Vermont"); ("VA", "Virginia"); ("WA", "Washington"); ("WV", "West Virginia");
    ("WI", "Wisconsin"); ("WY", "Wyoming"); ("AS", "American Samoa"); ("GU", "Guam");
    ("MP", "Northern Mariana Islands"); ("PR", "Puerto Rico"); ("VI", "U.S. Virgin Islands");
    ("AA", "Armed Forces Americas"); ("AE", "Armed Forces Europe");
    ("AP", "Armed Forces Pacific")].

Definition CA_SUBDIVISIONS : list (string * string) :=
  [("AB", "Alberta"); ("BC", "British Columbia"); ("MB", "Manitoba"); ("NB", "New Brunswick");
    ("NL", "Newfoundland and Labrador"); ("NS", "Nova Scotia"); ("NT", "Northwest Territories");
    ("NU", "Nunavut"); ("ON", "Ontario"); ("PE", "Prince Edward Island"); ("QC", "Quebec");
    ("SK", "Saskatchewan"); ("YT", "Yukon")].

Definition AU_SUBDIVISIONS : list (string * string) :=
  [("ACT", "Australian Capital Territory"); ("NSW", "New South Wales");
    ("NT", "Northern Territory"); ("QLD", "Queensland"); ("SA", "South Australia");
    ("TAS", "Tasmania"); ("VIC", "Victoria"); ("WA", "Western Australia")].

Definition region_max_chars : Z := 100.

(** The rule of a country the table does not name. *)
Definition default_rule : PostalCountryRule := mkRule false "Region" [].

Definition countries : list (string * PostalCountryRule) :=
  [("US", mkRule true "State" US_SUBDIVISIONS);
   ("CA", mkRule true "Province" CA_SUBDIVISIONS);
   ("AU", mkRule true "State" AU_SUBDIVISIONS);
   ("JP", mkRule false "Prefecture" []);
   ("AE", mkRule true "Region" []);
   ("AR", mkRule true "Region" []);
   ("BD", mkRule true "Region" []);
   ("BR", mkRule true "State" []);
   ("CL", mkRule true "Region" []);
   ("CN", mkRule true "Region" []);
   ("CO", mkRule true "Region" []);
   ("EG", mkRule true "Region" []);
   ("ID", mkRule true "Region" []);
   ("IN", mkRule true "State" []);
   ("KR", mkRule true "Region" []);
   ("MX", mkRule true "State" []);
   ("MY", mkRule true "Region" []);
   ("NG", mkRule true "Region" []);
   ("PE", mkRule true "Region" []);
   ("PH", mkRule true "Region" []);
   ("PK", mkRule true "Region" []);
   ("SA", mkRule true "Region" []);
   ("TH", mkRule true "Region" []);
   ("TR", mkRule true "Region" []);
   ("VN", mkRule true "Region" []);
   ("ZA", mkRule true "Region" [])].

Definition postal_country_rule (country_code : string) : PostalCountryRule :=
  let country := to_ascii_uppercase (trim country_code) in
  match find (fun entry => fst entry =? country)%string countries with
  | Some (_, rule) => rule
  | None => default_rule
  end.

Definition is_region_required (country_code : string) : bool :=
  region_required (postal_country_rule country_code).

(** [canonicalize_region]; the warnings it logs are not kept. *)
Definition canonicalize_region (country_code region : string) : string + string :=
  let trimmed := trim region in
  let rule := postal_country_rule country_code in
  if region_max_chars <? chars_count trimmed then inr "Expected at most 100 characters"
  else if (trimmed =? "")%string then
    if region_required rule then inr "Expected between 1 and 100 characters" else inl ""
  else
    match subdivisions rule with
    | [] => inl trimmed
    | _ =>
        let upper := to_ascii_uppercase trimmed in
        match find (fun s => eq_ignore_ascii_case (fst s) upper) (subdivisions rule) with
        | Some (code, _) => inl code
        | None =>
            let lower := to_ascii_lowercase trimmed in
            match find (fun s => to_ascii_lowercase (snd s) =? lower)%string
                    (subdivisions rule) with
            | Some (code, _) => inl code
            | None => inl trimmed
            end
        end
    end.

(** ** The canonical form *)

(** A table is coherent: codes are short, already trimmed and pairwise
    different in any case, and so are names, and no name reads as a code. *)
Definition keys (t : list (string * string)) : list string :=
  map (fun s => to_ascii_lowercase (fst s)) t.

Definition names (t : list (string * string)) : list string :=
  map (fun s => to_ascii_lowercase (snd s)) t.

Definition coherent (rule : PostalCountryRule) : bool :=
  let t := subdivisions rule in
  forallb (fun s => (trim (fst s) =? fst s)%string && negb (fst s =? "")%string &&
                    negb (snd s =? "")%string &&
                    (byte_len (fst s) <=? region_max_chars) &&
                    (byte_len (snd s) <=? region_max_chars)) t &&
  bool_decide (NoDup (keys t ++ names t)).

Lemma rules_coherent country_code : coherent (postal_country_rule country_code) = true.
Proof.
  unfold postal_country_rule.
  assert (Hall : forallb (fun e => coherent (snd e)) countries = true) by (vm_compute; reflexivity).
  rewrite forallb_forall in Hall.
  destruct (find _ countries) as [[c rule]|] eqn:E; [|vm_compute; reflexivity].
  apply find_some in E as [E _]. exact (Hall _ E).
Qed.

Lemma byte_of_ascii b : 0 <= b < 256 -> byte_of (Ascii.ascii_of_N (Z.to_N b)) = b.
Proof. intros Hb. unfold byte_of. rewrite Ascii.N_ascii_embedding; lia. Qed.

Lemma byte_of_range c : 0 <= byte_of c < 256.
Proof. unfold byte_of. pose proof (Ascii.N_ascii_bounded c). lia. Qed.

Lemma map_bytes_cons f c s :
  map_bytes f (String c s) = String (Ascii.ascii_of_N (Z.to_N (f (byte_of c)))) (map_bytes f s).
Proof. done. Qed.

Lemma map_bytes_length f s : String.length (map_bytes f s) = String.length s.
Proof. induction s as [|c s IH]; [done|]. rewrite map_bytes_cons. cbn. by rewrite IH. Qed.

Ltac ascii_case :=
  unfold to_lower, to_upper, is_lower, is_upper, in_range in *;
  repeat match goal with
  | |- context [if ?b then _ else _] => destruct b eqn:?
  end; reflect_bools; try lia;
  repeat match goal with
  | H : _ && _ = false |- _ => apply andb_false_iff in H as [H|H]; reflect_bools
  end; lia.

Lemma to_upper_range b : 0 <= b < 256 -> 0 <= to_upper b < 256.
Proof. intros Hb. ascii_case. Qed.

Lemma lower_upper s : to_ascii_lowercase (to_ascii_uppercase s) = to_ascii_lowercase s.
Proof.
  induction s as [|c s IH]; [done|].
  unfold to_ascii_lowercase, to_ascii_uppercase in *. rewrite !map_bytes_cons, IH.
  pose proof (byte_of_range c). rewrite byte_of_ascii by (by apply to_upper_range).
  do 3 f_equal. ascii_case.
Qed.

Lemma chars_length l : (length (chars l) <= length l)%nat.
Proof.
  induction l as [l IH] using (induction_ltof1 _ (@length Z)). unfold ltof in IH.
  destruct l as [|a l1]; [done|]. cbn.
  destruct (a <? 128); [pose proof (IH l1 ltac:(cbn; lia)); cbn; lia|].
  destruct l1 as [|b l2]; [cbn; lia|].
  destruct (a <? 224); [pose proof (IH l2 ltac:(cbn; lia)); cbn; lia|].
  destruct l2 as [|c l3]; [cbn; lia|].
  destruct (a <? 240); [pose proof (IH l3 ltac:(cbn; lia)); cbn; lia|].
  destruct l3 as [|d l4]; [cbn; lia|]. pose proof (IH l4 ltac:(cbn; lia)); cbn; lia.
Qed.

Lemma bytes_length s : length (bytes s) = String.length s.
Proof. induction s as [|c s IH]; [done|]. cbn. by rewrite IH. Qed.

Lemma same_case_length a b :
  to_ascii_lowercase a = to_ascii_lowercase b -> byte_len a = byte_len b.
Proof.
  intros E. apply (f_equal String.length) in E. unfold to_ascii_lowercase in E.
  rewrite !map_bytes_length in E. unfold byte_len. lia.
Qed.

Lemma same_case_short a b :
  to_ascii_lowercase a = to_ascii_lowercase b -> byte_len b <= region_max_chars ->
  (region_max_chars <? chars_count a) = false.
Proof.
  intros E Hb. apply same_case_length in E. apply Z.ltb_ge. unfold chars_count, byte_len in *.
  pose proof (chars_length (bytes a)). rewrite bytes_length in H. lia.
Qed.

Lemma same_case_nonempty a b :
  to_ascii_lowercase a = to_ascii_lowercase b -> b <> "" -> a <> "".
Proof. intros E Hb ->. by destruct b. Qed.

(** The first row found by a key that no other row has is the row of the key. *)
Lemma find_unique {A} (f : A -> string) (l : list A) x k :
  NoDup (map f l) -> In x l -> f x = k -> find (fun y => f y =? k)%string l = Some x.
Proof.
  induction l as [|y l IH]; [done|]. cbn. intros Hnd [->|Hin] Hk.
  - by rewrite Hk, String.eqb_refl.
  - apply list.NoDup_cons in Hnd as [Hny Hnd]. destruct (String.eqb_spec (f y) k) as [Ey|];
      [|by apply IH]. exfalso. apply Hny. rewrite Ey, <- Hk.
    by apply list_elem_of_In, in_map.
Qed.

Lemma find_missing {A} (f : A -> string) (l : list A) k :
  ~ In k (map f l) -> find (fun y => f y =? k)%string l = None.
Proof.
  induction l as [|y l IH]; [done|]. cbn. intros Hk.
  destruct (String.eqb_spec (f y) k) as [Ey|]; [tauto|]. apply IH. tauto.
Qed.

Section Region.
Context (country_code : string).

Abbreviation table := (subdivisions (postal_country_rule country_code)).

Lemma row_facts code name :
  In (code, name) table ->
  trim code = code /\ code <> "" /\ name <> "" /\
  byte_len code <= region_max_chars /\ byte_len name <= region_max_chars.
Proof.
  intros Hin. pose proof (rules_coherent country_code) as Hc. unfold coherent in Hc.
  apply andb_true_iff in Hc as [Hc _]. rewrite forallb_forall in Hc. specialize (Hc _ Hin).
  simpl in Hc. reflect_bools. auto.
Qed.

Lemma table_nodup : NoDup (keys table ++ names table).
Proof.
  pose proof (rules_coherent country_code) as Hc. unfold coherent in Hc.
  apply andb_true_iff in Hc as [_ Hc]. by apply bool_decide_eq_true in Hc.
Qed.

(** The lookups by code and by name, by key. *)
Lemma find_code s :
  find (fun r => eq_ignore_ascii_case (fst r) (to_ascii_uppercase s)) table =
  find (fun r => to_ascii_lowercase (fst r) =? to_ascii_lowercase s)%string table.
Proof.
  induction table as [|r l IH]; [done|]. cbn. unfold eq_ignore_ascii_case at 1.
  rewrite lower_upper. by rewrite IH.
Qed.

Lemma canonical_of_code s code name :
  In (code, name) table -> to_ascii_lowercase (trim s) = to_ascii_lowercase code ->
  canonicalize_region country_code s = inl code.
Proof.
  intros Hin E. destruct (row_facts _ _ Hin) as (_ & Hne & _ & Hlen & _).
  unfold canonicalize_region. rewrite (same_case_short _ _ E Hlen).
  pose proof (same_case_nonempty _ _ E Hne) as Hs. apply String.eqb_neq in Hs. rewrite Hs.
  rewrite find_code. pose proof table_nodup as Hnd. apply list.NoDup_app in Hnd as (Hnd & _ & _).
  destruct table as [|r l] eqn:Et; [done|]. rewrite <- Et in *.
  erewrite (find_unique (fun r => to_ascii_lowercase (fst r)) _ (code, name)); done.
Qed.

Lemma canonical_of_name s code name :
  In (code, name) table -> to_ascii_lowercase (trim s) = to_ascii_lowercase name ->
  canonicalize_region country_code s = inl code.
Proof.
  intros Hin E. destruct (row_facts _ _ Hin) as (_ & _ & Hne & _ & Hlen).
  unfold canonicalize_region. rewrite (same_case_short _ _ E Hlen).
  pose proof (same_case_nonempty _ _ E Hne) as Hs. apply String.eqb_neq in Hs. rewrite Hs.
  rewrite find_code. pose proof table_nodup as Hnd.
  apply list.NoDup_app in Hnd as (_ & Hdis & Hnd).
  destruct table as [|r l] eqn:Et; [done|]. rewrite <- Et in *.
  rewrite (find_missing (fun r => to_ascii_lowercase (fst r))).
  - erewrite (find_unique (fun r => to_ascii_lowercase (snd r)) _ (code, name)); done.
  - rewrite E. intros Hk. apply list_elem_of_In, Hdis in Hk. apply Hk, list_elem_of_In.
    by apply (in_map (fun r => to_ascii_lowercase (snd r)) _ _ Hin).
Qed.

(** Free text is kept. *)
Lemma canonicalize_trim s : canonicalize_region country_code (trim s) = canonicalize_region country_code s.
Proof. unfold canonicalize_region. by rewrite trim_idem. Qed.
End Region.

(** A stored region is canonical. *)
Lemma canonicalize_stable country_code region r :
  canonicalize_region country_code region = inl r -> canonicalize_region country_code r = inl r.
Proof.
  intros E.
  assert (Hcode : forall code name, In (code, name) (subdivisions (postal_country_rule country_code)) ->
    canonicalize_region country_code code = inl code).
  { intros code name Hin. apply (canonical_of_code _ _ _ name); [done|].
    by rewrite (proj1 (row_facts _ _ _ Hin)). }
  assert (r = trim region \/ exists name, In (r, name) (subdivisions (postal_country_rule country_code)))
    as [->|[name Hin]]; [|by rewrite canonicalize_trim|by eapply Hcode].
  unfold canonicalize_region in E. destruct (_ <? _); [done|].
  destruct (String.eqb_spec (trim region) "") as [Ee|].
  { left. destruct (region_required _); [done|]. congruence. }
  destruct (subdivisions _) as [|s l] eqn:Et; [left; congruence|]. rewrite <- Et in *. clear Et.
  destruct (find _ _) as [[code name]|] eqn:Ef.
  { apply find_some in Ef as [Hin _]. right. exists name. congruence. }
  clear Ef. destruct (find _ _) as [[code name]|] eqn:Ef; [|left; congruence].
  apply find_some in Ef as [Hin _]. right. exists name. congruence.
Qed.

Theorem canonical_region country_code region :
  (forall r, canonicalize_region country_code region = inl r ->
     canonicalize_region country_code r = inl r) /\
  (forall code name, In (code, name) (subdivisions (postal_country_rule country_code)) ->
     eq_ignore_ascii_case (trim region) code || eq_ignore_ascii_case (trim region) name = true ->
     canonicalize_region country_code region = inl code).
Proof.
  split; [exact (canonicalize_stable country_code region)|].
  intros code name Hin E. apply orb_true_iff in E as [E|E]; apply String.eqb_eq in E;
    [by eapply canonical_of_code|by eapply canonical_of_name].
Qed.

Lemma canonical_region_witness :
  canonicalize_region "us" "  new york " = inl "NY" /\ canonicalize_region "us" "NY" = inl "NY".
Proof.
  split.
  - apply (proj2 (canonical_region "us" "  new york ") "NY" "New York"); [|reflexivity].
    vm_compute. tauto.
  - apply (proj1 (canonical_region "us" "  new york ") "NY"). vm_compute. reflexivity.
Defined.
