(* ===== verification/LockResource.v ===== *)
(** * Locks resources ([canonical_lock_resource] of [commands.rs])

    A listing may name a Locks policy by an addressed resource
    [<creator><prefix><LOCK_ID>.json].  One lock has one canonical spelling:
    the bare form, with the id in upper-case Crockford base32.  The [base32]
    crate is the class [Base32Crate]. *)

From Stdlib Require Import Ascii.
From Stdlib.Strings Require Import Byte.
From S2P Require Import Prelude Text Postal Pubky.

(** ** The [base32] crate *)

(** [[0-9ABCDEFGHJKMNPQRSTVWXYZ]]. *)
Definition crockford_class (b : Z) : bool :=
  is_digit b || (is_upper b && negb (existsb (Z.eqb b) [73; 76; 79; 85])).

(** [crockford_bundle_id_regex]. *)
Definition crockford_bundle_id (s : string) : bool := repeats crockford_class 26 26 (bytes s).

(** [crockford_id_regex_52]. *)
Definition crockford_id_52 (s : string) : bool := repeats crockford_class 52 52 (bytes s).

(** [base32::{decode, encode}] with [Alphabet::Crockford]: 32 bytes are
    written with 52 characters of the alphabet, and read back. *)
Class Base32Crate := {
  crockford_decode : string -> option (list byte);
  crockford_encode : list byte -> string;
  crockford_encode_52 : forall b, length b = 32%nat -> crockford_id_52 (crockford_encode b) = true;
  crockford_decode_encode : forall b, length b = 32%nat ->
    crockford_decode (crockford_encode b) = Some b;
}.

(** ** The resource *)

Definition LOCKS_CONTENT_LOCK_PREFIX : string := "/pub/locks.app/".
Definition UPSTREAM_LOCKS_CONTENT_LOCK_PREFIX : string := "/pub/app.locks/".
Definition LOCKS_CONTENT_LOCK_PREFIXES : list string :=
  [LOCKS_CONTENT_LOCK_PREFIX; UPSTREAM_LOCKS_CONTENT_LOCK_PREFIX].
Definition PUBKY_RESOURCE_SCHEME : string := "pubky://".

(** The first prefix that occurs, in the order of the array. *)
Fixpoint find_prefix (prefixes : list string) (resource : string)
    : option (string * string * string) :=
  match prefixes with
  | [] => None
  | prefix :: rest =>
      match split_once_str prefix resource with
      | Some (creator, path) => Some (creator, prefix, path)
      | None => find_prefix rest resource
      end
  end.

Definition split_lock_resource (resource : string) : option (string * string * string) :=
  find_prefix LOCKS_CONTENT_LOCK_PREFIXES resource.

Definition canonical_lock_resource `{!Base32Crate} (resource : string) : option string :=
  let resource := default resource (strip_prefix PUBKY_RESOURCE_SCHEME resource) in
  match split_lock_resource resource with
  | None => None
  | Some (creator, prefix, path) =>
      match strip_suffix ".json" path with
      | None => None
      | Some stem =>
          let lock_id := to_ascii_uppercase stem in
          if negb (Pubky.is_valid_pubky creator && crockford_id_52 lock_id) then None
          else
            match crockford_decode lock_id with
            | Some decoded =>
                if (length decoded =? 32)%nat
                then Some (creator +:+ prefix +:+ crockford_encode decoded +:+ ".json")
                else None
            | None => None
            end
      end
  end.

(** ** Strings *)

Lemma app_cons c a b : String c a +:+ b = String c (a +:+ b).
Proof. done. Qed.

Lemma split_once_self p s : split_once_str p (p +:+ s) = Some ("", s).
Proof. pose proof (strip_prefix_app p s) as E. destruct (p +:+ s); cbn; by rewrite E. Qed.

Lemma split_once_skip p c s :
  strip_prefix p (String c s) = None -> split_once_str p s = None ->
  split_once_str p (String c s) = None.
Proof. intros H1 H2. cbn [split_once_str]. by rewrite H1, H2. Qed.

Lemma app_nil_str a : a +:+ "" = a.
Proof. induction a as [|c a IH]; [done|]. by rewrite app_cons, IH. Qed.

Lemma length_app_str a b : String.length (a +:+ b) = (String.length a + String.length b)%nat.
Proof. induction a as [|x a IH]; [done|]. rewrite app_cons. cbn. by rewrite IH. Qed.

Lemma strip_suffix_app p s : strip_suffix p (s +:+ p) = Some s.
Proof.
  induction s as [|c s IH].
  - change ("" +:+ p) with p. destruct p; [done|]. cbn [strip_suffix]. by rewrite String.eqb_refl.
  - rewrite app_cons. cbn [strip_suffix]. rewrite IH.
    destruct (String.eqb_spec (String c (s +:+ p)) p) as [E|]; [|done].
    apply (f_equal String.length) in E. cbn in E. rewrite length_app_str in E. lia.
Qed.

(** No character of [s] is [c]. *)
Definition avoids (c : ascii) (s : string) : Prop := Forall (fun x => x <> c) (String.list_ascii_of_string s).

Lemma avoids_cons c x s : avoids c (String x s) <-> x <> c /\ avoids c s.
Proof. split; [by inversion 1|]. intros [? ?]. by constructor. Qed.

Lemma strip_prefix_head c p d s : d <> c -> strip_prefix (String c p) (String d s) = None.
Proof. intros Hne. cbn. destruct (Ascii.eqb_spec c d); congruence. Qed.

(** A prefix that begins with [c] is first found after a text without [c]. *)
Lemma split_once_avoids c p a s :
  avoids c a ->
  split_once_str (String c p) (a +:+ s) =
  (fun r => (a +:+ fst r, snd r)) <$> split_once_str (String c p) s.
Proof.
  induction a as [|x a IH]; intros Ha.
  - change ("" +:+ s) with s. destruct (split_once_str _ s) as [[]|]; done.
  - apply avoids_cons in Ha as [Hx Ha]. rewrite app_cons. cbn [split_once_str].
    rewrite strip_prefix_head by done. rewrite IH by done.
    destruct (split_once_str (String c p) s) as [[]|]; done.
Qed.

Lemma split_once_none c p a : avoids c a -> split_once_str (String c p) a = None.
Proof.
  induction a as [|x a IH]; intros Ha; [done|].
  apply avoids_cons in Ha as [Hx Ha]. cbn [split_once_str].
  rewrite strip_prefix_head by done. by rewrite IH.
Qed.

Lemma avoids_app c a b : avoids c (a +:+ b) <-> avoids c a /\ avoids c b.
Proof.
  induction a as [|x a IH].
  - split; [|tauto]. intros Hb. split; [constructor|exact Hb].
  - rewrite app_cons, !avoids_cons, IH. tauto.
Qed.

Lemma valid_pubky_avoids c s :
  existsb (Ascii.eqb c) Pubky.alphabet = false -> Pubky.is_valid_pubky s = true -> avoids c s.
Proof.
  unfold Pubky.is_valid_pubky. rewrite andb_true_iff, forallb_forall. intros Hc [_ Hall].
  apply Forall_forall. intros x Hx ->. rewrite (Hall c Hx) in Hc. discriminate.
Qed.

Lemma bytes_map s : bytes s = map byte_of (String.list_ascii_of_string s).
Proof. induction s as [|c s IH]; [done|]. cbn. by rewrite IH. Qed.

Lemma crockford_avoids c s :
  crockford_class (byte_of c) = false -> crockford_id_52 s = true -> avoids c s.
Proof.
  unfold crockford_id_52, repeats. intros Hc Hs. apply andb_true_iff in Hs as [_ Hs].
  rewrite forallb_forall, bytes_map in Hs. apply Forall_forall. intros x Hx ->.
  rewrite (Hs (byte_of c)) in Hc; [done|]. by apply in_map.
Qed.

(** Upper-case Crockford text is its own upper case. *)
Lemma crockford_upper s : crockford_id_52 s = true -> to_ascii_uppercase s = s.
Proof.
  unfold crockford_id_52, repeats. intros Hs. apply andb_true_iff in Hs as [_ Hs].
  induction s as [|c s IH]; [done|]. cbn in Hs. apply andb_true_iff in Hs as [Hc Hs].
  unfold to_ascii_uppercase. rewrite map_bytes_cons. f_equal; [|by apply IH].
  assert (E : to_upper (byte_of c) = byte_of c).
  { unfold to_upper. destruct (is_lower (byte_of c)) eqn:El; [|done].
    unfold crockford_class, is_digit, is_upper, is_lower, in_range in *.
    apply orb_true_iff in Hc as [Hc|Hc]; reflect_bools; lia. }
  rewrite E. unfold byte_of. rewrite N2Z.id. apply ascii_N_embedding.
Qed.

(** ** The canonical form *)

Section Canonical.
Context `{!Base32Crate}.

Definition bare (creator prefix lock_id : string) : string :=
  creator +:+ prefix +:+ lock_id +:+ ".json".

Lemma bare_scheme creator prefix lock_id :
  Pubky.is_valid_pubky creator = true ->
  strip_prefix PUBKY_RESOURCE_SCHEME (bare creator prefix lock_id) = None.
Proof.
  intros Hv. pose proof (valid_pubky_avoids ":" creator eq_refl Hv) as Ha.
  unfold Pubky.is_valid_pubky in Hv. apply andb_true_iff in Hv as [Hlen _].
  apply Nat.eqb_eq in Hlen. unfold bare, PUBKY_RESOURCE_SCHEME.
  destruct creator as [|c0 [|c1 [|c2 [|c3 [|c4 [|c5 creator]]]]]]; try discriminate.
  do 6 apply avoids_cons in Ha as [? Ha]. rewrite !app_cons. cbn [strip_prefix].
  destruct (Ascii.eqb_spec ":" c5) as [|_]; [congruence|].
  by do 5 (destruct (Ascii.eqb _ _); [|done]).
Qed.

Lemma crockford_tail lock_id p :
  crockford_id_52 lock_id = true -> split_once_str (String "/" p) (lock_id +:+ ".json") = None.
Proof.
  intros Hid. apply split_once_none, avoids_app. split.
  - by apply crockford_avoids.
  - repeat (constructor; [discriminate|]). constructor.
Qed.

Lemma bare_split creator prefix lock_id :
  Pubky.is_valid_pubky creator = true -> crockford_id_52 lock_id = true ->
  In prefix LOCKS_CONTENT_LOCK_PREFIXES ->
  split_lock_resource (bare creator prefix lock_id) = Some (creator, prefix, lock_id +:+ ".json").
Proof.
  intros Hv Hid Hp.
  pose proof (valid_pubky_avoids "/" creator eq_refl Hv) as Ha.
  unfold split_lock_resource, LOCKS_CONTENT_LOCK_PREFIXES, bare. cbn [find_prefix].
  destruct Hp as [<-|[<-|[]]].
  - unfold LOCKS_CONTENT_LOCK_PREFIX at 1 2. rewrite split_once_avoids by done.
    rewrite split_once_self. cbn. by rewrite app_nil_str.
  - unfold LOCKS_CONTENT_LOCK_PREFIX at 1. rewrite split_once_avoids by done.
    assert (E : split_once_str "/pub/locks.app/"
                  (UPSTREAM_LOCKS_CONTENT_LOCK_PREFIX +:+ lock_id +:+ ".json") = None).
    { unfold UPSTREAM_LOCKS_CONTENT_LOCK_PREFIX. rewrite !app_cons.
      do 14 (apply split_once_skip; [reflexivity|]).
      apply split_once_skip; [|by apply crockford_tail].
      pose proof (crockford_avoids "p" lock_id eq_refl Hid) as Hpa.
      destruct lock_id as [|x lock_id]; [done|]. apply avoids_cons in Hpa as [? _].
      change (strip_prefix "pub/locks.app/" (String x (lock_id +:+ ".json")) = None).
      by apply strip_prefix_head. }
    rewrite E. cbn [fmap option_fmap option_map].
    unfold UPSTREAM_LOCKS_CONTENT_LOCK_PREFIX at 1 2. rewrite split_once_avoids by done.
    rewrite split_once_self. cbn. by rewrite app_nil_str.
Qed.

Lemma find_prefix_in prefixes s creator prefix path :
  find_prefix prefixes s = Some (creator, prefix, path) -> In prefix prefixes.
Proof.
  induction prefixes as [|p ps IH]; [done|]. cbn. destruct (split_once_str p s) as [[]|].
  - intros [= <- <- <-]. by left.
  - intros E. right. by apply IH.
Qed.

(** What [canonical_lock_resource] returns, when it returns. *)
Lemma canonical_shape s r :
  canonical_lock_resource s = Some r ->
  exists creator prefix decoded, Pubky.is_valid_pubky creator = true /\
    In prefix LOCKS_CONTENT_LOCK_PREFIXES /\ length decoded = 32%nat /\
    r = bare creator prefix (crockford_encode decoded).
Proof.
  unfold canonical_lock_resource. intros E. repeat (case_match; try discriminate).
  injection E as <-. reflect_bools. subst.
  match goal with Hs : split_lock_resource _ = Some _ |- _ => apply find_prefix_in in Hs end.
  match goal with Hl : (_ =? _)%nat = true |- _ => apply Nat.eqb_eq in Hl end.
  by do 3 eexists.
Qed.

(** A canonical spelling is kept as it is. *)
Lemma canonical_bare creator prefix decoded :
  Pubky.is_valid_pubky creator = true -> In prefix LOCKS_CONTENT_LOCK_PREFIXES ->
  length decoded = 32%nat ->
  canonical_lock_resource (bare creator prefix (crockford_encode decoded)) =
  Some (bare creator prefix (crockford_encode decoded)).
Proof.
  intros Hv Hp Hlen. pose proof (crockford_encode_52 decoded Hlen) as Hid.
  unfold canonical_lock_resource. rewrite bare_scheme by done. cbn [default].
  rewrite bare_split by done. rewrite strip_suffix_app, crockford_upper by done.
  rewrite Hv, Hid. cbn. by rewrite crockford_decode_encode, Hlen.
Qed.

Lemma canonical_idem s r : canonical_lock_resource s = Some r -> canonical_lock_resource r = Some r.
Proof.
  intros E. destruct (canonical_shape s r E) as (creator & prefix & decoded & Hv & Hp & Hl & ->).
  by apply canonical_bare.
Qed.

(** One lock has one spelling: the canonical form of a resource is its own
    canonical form, with or without the [pubky://] scheme, so comparing stored
    against submitted policies compares locks. *)
Theorem canonical_lock_resource_stable s r :
  canonical_lock_resource s = Some r ->
  canonical_lock_resource r = Some r /\
  canonical_lock_resource (PUBKY_RESOURCE_SCHEME +:+ r) = Some r.
Proof.
  intros E. destruct (canonical_shape s r E) as (creator & prefix & decoded & Hv & Hp & Hl & ->).
  pose proof (canonical_bare _ _ _ Hv Hp Hl) as Hb. split; [exact Hb|].
  unfold canonical_lock_resource in *. rewrite strip_prefix_app.
  rewrite bare_scheme in Hb by done. exact Hb.
Qed.
End Canonical.

(** ** A concrete codec

    Five bits a character, most significant first, zero-padded. *)

Definition CROCKFORD : string := "0123456789ABCDEFGHJKMNPQRSTVWXYZ".

Abbreviation Quint := (bool * bool * bool * bool * bool)%type.

Fixpoint group5 (l : list bool) : list Quint :=
  match l with
  | a :: b :: c :: d :: e :: r => (a, b, c, d, e) :: group5 r
  | [] => []
  | [a] => [(a, false, false, false, false)]
  | [a; b] => [(a, b, false, false, false)]
  | [a; b; c] => [(a, b, c, false, false)]
  | [a; b; c; d] => [(a, b, c, d, false)]
  end.

Definition ungroup5 (l : list Quint) : list bool :=
  concat (map (fun '(a, b, c, d, e) => [a; b; c; d; e]) l).

Definition quint_value (q : Quint) : nat :=
  let '(a, b, c, d, e) := q in
  (16 * Nat.b2n a + 8 * Nat.b2n b + 4 * Nat.b2n c + 2 * Nat.b2n d + Nat.b2n e)%nat.

Definition quint_char (q : Quint) : ascii :=
  nth (quint_value q) (String.list_ascii_of_string CROCKFORD) "0"%char.

Definition value_quint (n : nat) : Quint :=
  let t i := Nat.testbit n i in (t 4, t 3, t 2, t 1, t 0)%nat.

Fixpoint position (c : ascii) (l : list ascii) : option nat :=
  match l with
  | [] => None
  | x :: l' => if Ascii.eqb c x then Some 0%nat else S <$> position c l'
  end.

Definition char_quint (c : ascii) : option Quint :=
  value_quint <$> position c (String.list_ascii_of_string CROCKFORD).

Definition byte_bits (b : byte) : list bool :=
  let '(b0, (b1, (b2, (b3, (b4, (b5, (b6, b7))))))) := Byte.to_bits b in
  [b7; b6; b5; b4; b3; b2; b1; b0].

Fixpoint group8 (l : list bool) : list byte :=
  match l with
  | b7 :: b6 :: b5 :: b4 :: b3 :: b2 :: b1 :: b0 :: r =>
      Byte.of_bits (b0, (b1, (b2, (b3, (b4, (b5, (b6, b7))))))) :: group8 r
  | _ => []
  end.

Definition encode_bits (b : list byte) : string :=
  String.string_of_list_ascii (map quint_char (group5 (concat (map byte_bits b)))).

Definition decode_bits (s : string) : option (list byte) :=
  (fun q => group8 (ungroup5 q)) <$> mapM char_quint (String.list_ascii_of_string s).

Lemma group5_spec n l :
  (length l < n)%nat ->
  exists pad, ungroup5 (group5 l) = l ++ pad /\ (length pad < 5)%nat /\
    length (group5 l) = ((length l + 4) / 5)%nat.
Proof.
  revert l. induction n as [|n IH]; intros l Hl; [lia|].
  destruct l as [|a [|b [|c [|d [|e r]]]]];
    [exists []|exists [false; false; false; false]|exists [false; false; false]
    |exists [false; false]|exists [false]|]; try (cbn; split_and!; [done|lia|done]).
  cbn in Hl. destruct (IH r ltac:(lia)) as (pad & Hp & Hlen & Hn). exists pad. split_and!; [|done|].
  - change (ungroup5 (group5 (a :: b :: c :: d :: e :: r)))
      with ([a; b; c; d; e] ++ ungroup5 (group5 r)). by rewrite Hp.
  - cbn [group5 length]. rewrite Hn.
    replace (S (S (S (S (S (length r))))) + 4)%nat with (length r + 4 + 1 * 5)%nat by lia.
    rewrite Nat.div_add by lia. lia.
Qed.

Lemma quint_char_roundtrip q : char_quint (quint_char q) = Some q.
Proof. by destruct q as [[[[[] []] []] []] []]. Qed.

Lemma quint_char_class q : crockford_class (byte_of (quint_char q)) = true.
Proof. by destruct q as [[[[[] []] []] []] []]. Qed.

Lemma group8_bits b pad :
  (length pad < 5)%nat -> group8 (concat (map byte_bits b) ++ pad) = b.
Proof.
  intros Hp. induction b as [|x b IH].
  - cbn. do 5 (destruct pad as [|? pad]; [done|]). cbn in Hp. lia.
  - cbn [map concat]. unfold byte_bits at 1. pose proof (Byte.of_bits_to_bits x) as Hx.
    destruct (Byte.to_bits x) as [b0 [b1 [b2 [b3 [b4 [b5 [b6 b7]]]]]]].
    cbn [app group8]. by rewrite Hx, IH.
Qed.

Lemma concat_bits_length b : length (concat (map byte_bits b)) = (8 * length b)%nat.
Proof.
  induction b as [|x b IH]; [done|]. cbn [map concat]. rewrite length_app, IH.
  unfold byte_bits. destruct (Byte.to_bits x) as [b0 [b1 [b2 [b3 [b4 [b5 [b6 b7]]]]]]]. cbn. lia.
Qed.

Lemma encode_bits_52 b : length b = 32%nat -> crockford_id_52 (encode_bits b) = true.
Proof.
  intros Hb. unfold crockford_id_52, repeats, encode_bits.
  rewrite bytes_map, String.list_ascii_of_string_of_list_ascii, !length_map.
  destruct (group5_spec _ (concat (map byte_bits b)) (Nat.lt_succ_diag_r _)) as (_ & _ & _ & ->).
  rewrite concat_bits_length, Hb. apply andb_true_iff. split; [reflexivity|].
  apply forallb_forall. intros x Hx. rewrite map_map in Hx. apply in_map_iff in Hx as (q & <- & _).
  apply quint_char_class.
Qed.

Lemma decode_encode_bits b : decode_bits (encode_bits b) = Some b.
Proof.
  unfold decode_bits, encode_bits. rewrite String.list_ascii_of_string_of_list_ascii.
  destruct (group5_spec _ (concat (map byte_bits b)) (Nat.lt_succ_diag_r _)) as (pad & Hp & Hl & _).
  assert (Hm : forall l, mapM char_quint (map quint_char l) = Some l).
  { intros l. apply mapM_Some_2, Forall2_fmap_l, Forall_Forall2_diag, Forall_true.
    exact quint_char_roundtrip. }
  rewrite Hm. cbn. by rewrite Hp, group8_bits.
Qed.

Definition bit_crate : Base32Crate := {|
  crockford_decode := decode_bits;
  crockford_encode := encode_bits;
  crockford_encode_52 := encode_bits_52;
  crockford_decode_encode := fun b _ => decode_encode_bits b;
|}.

(** A lower-case spelling with the scheme. *)
Definition spelled : string :=
  "pubky://yyyyyyyyyyyyyyyyyyyyyyyyyyyyyyyyyyyyyyyyyyyyyyyyyyyy/pub/app.locks/0123456789abcdefghjkmnpqrstvwxyz0123456789abcdefghjg.json".
Definition canonical_spelling : string :=
  "yyyyyyyyyyyyyyyyyyyyyyyyyyyyyyyyyyyyyyyyyyyyyyyyyyyy/pub/app.locks/0123456789ABCDEFGHJKMNPQRSTVWXYZ0123456789ABCDEFGHJG.json".

Lemma canonical_lock_resource_stable_witness :
  @canonical_lock_resource bit_crate spelled = Some canonical_spelling /\
  @canonical_lock_resource bit_crate canonical_spelling = Some canonical_spelling /\
  @canonical_lock_resource bit_crate (PUBKY_RESOURCE_SCHEME +:+ canonical_spelling)
    = Some canonical_spelling.
Proof.
  assert (E : @canonical_lock_resource bit_crate spelled = Some canonical_spelling)
    by (vm_compute; reflexivity).
  split; [exact E|]. exact (@canonical_lock_resource_stable bit_crate _ _ E).
Defined.
