(* ===== verification/AwardTerms.v ===== *)
(** * Award terms ([homeserver.rs] [award_terms_from_bytes])

    The authority-bearing terms of a fixed-price seller record: an offer is
    made, countered and accepted on these.  A raw record is known by its
    length, the JSON it parses to and the SHA-256 of its bytes. *)

From stdpp Require Import sorting.
From S2P Require Import Prelude Domain Text Json Store Commands Actions.

(** The bytes of a seller record, by what is read from them. *)
Record RawRecord := mkRawRecord {
  raw_len : Z;
  raw_json : option Json;
  raw_sha256 : string;
}.

Inductive HomeserverRawFetchOutcome :=
| RawFound (raw : RawRecord)
| RawNotFound
| RawTooLarge
| RawUnavailable.

Record AwardVariantSnapshot := mkAwardVariant {
  av_id : string;
  av_sku : option string;
  av_options : list (string * string);
  av_quantity : Z;
  av_price : option Money;
}.

Record AwardListingSnapshot := mkAwardListing {
  al_raw_sha256 : string;
  al_revision : Z;
  al_title : string;
  al_currency : string;
  al_exponent : Z;
  al_shipping_minor : Z;
  al_fulfillment_methods : list FulfillmentMethod;
  al_variants : list AwardVariantSnapshot;
}.

Definition MAX_AWARD_LISTING_BYTES : Z := 1024 * 1024.

Abbreviation Terms A := (A + string)%type.

Definition nonblank (s : string) : bool := negb (s =? "")%string.

(** The physical methods of a record, first seen first; none is shipping. *)
Definition record_physical_fulfillment_methods (object : list (string * Json))
    : list FulfillmentMethod :=
  let methods :=
    fold_left (fun methods method =>
      match as_str method with
      | Some "shipping" =>
          if bool_decide (Shipping ∈ methods) then methods else methods ++ [Shipping]
      | Some "pickup" =>
          if bool_decide (Pickup ∈ methods) then methods else methods ++ [Pickup]
      | _ => methods
      end)
      (default [] (field "fulfillmentMethods" object ≫= as_array)) [] in
  match methods with [] => [Shipping] | _ => methods end.

Definition known_money_key (key : string) : bool :=
  ((key =? "amountMinor") || (key =? "currency") || (key =? "exponent"))%string.

(** The [money] closure. *)
Definition award_money (value : Json) : Terms Money :=
  let? object := ok_or (as_object value) "invalid money" in
  if existsb (fun kv => negb (known_money_key (fst kv))) object then inr "unknown money shape"
  else
    let? amount := ok_or (field "amountMinor" object ≫= as_i64) "invalid money amount" in
    let? currency := ok_or (field "currency" object ≫= as_str) "invalid money currency" in
    let? exponent := ok_or (field "exponent" object ≫= as_i64) "invalid money exponent" in
    if (amount <=? 0) || negb (between 0 exponent 18) || (currency =? "")%string
    then inr "invalid money"
    else inl (mkMoney amount currency exponent).

Definition award_option (option_ : Json) : Terms (string * string) :=
  let? object := ok_or (as_object option_) "invalid variant option" in
  let? name := ok_or (keep nonblank (field "name" object ≫= as_str))
                 "invalid variant option name" in
  let? value := ok_or (keep nonblank (field "value" object ≫= as_str))
                  "invalid variant option value" in
  inl (name, value).

(** The order of [sort_by]: by name, then by value. *)
Definition option_le (a b : string * string) : Prop :=
  match String.compare (fst a) (fst b) with
  | Lt => True
  | Eq => string_le (snd a) (snd b)
  | Gt => False
  end.

#[export] Instance option_le_dec a b : Decision (option_le a b).
Proof. unfold option_le. destruct (String.compare _ _); apply _. Defined.

Definition present (v : option Json) : option Json :=
  match v with Some JNull | None => None | Some v => Some v end.

Definition award_variant (variant : Json) : Terms AwardVariantSnapshot :=
  let? object := ok_or (as_object variant) "invalid variant" in
  if negb (bool_decide (field "enabled" object ≫= as_bool = Some true))
  then inr "selected variant disabled"
  else
    let? id := ok_or (keep nonblank (field "id" object ≫= as_str)) "invalid variant id" in
    let? quantity := ok_or (keep (Z.ltb 0) (field "quantity" object ≫= as_i64))
                       "invalid variant quantity" in
    let? options :=
      match field "options" object ≫= as_array with
      | Some options => collect (map award_option options)
      | None => inl []
      end in
    let options := merge_sort option_le options in
    if (100 <? length options)%nat then inr "too many variant options"
    else
      let? sku :=
        match present (field "sku" object) with
        | None => inl None
        | Some value =>
            let? sku := ok_or (keep nonblank (as_str value)) "invalid variant sku" in
            inl (Some sku)
        end in
      let? price :=
        match present (field "priceOverride" object) with
        | None => inl None
        | Some value => let? m := award_money value in inl (Some m)
        end in
      inl (mkAwardVariant id sku options quantity price).

Definition variant_id_is (id : string) (variant : Json) : bool :=
  bool_decide (get "id" variant ≫= as_str = Some id).

Definition variant_enabled (variant : Json) : bool :=
  bool_decide (get "enabled" variant ≫= as_bool = Some true).

(** The selected variant exists and is enabled. *)
Definition check_selected (selected : option string) (raw_variants : list Json) : Terms unit :=
  match selected with
  | None => inl tt
  | Some id =>
      let? variant := ok_or (find (variant_id_is id) raw_variants) "selected variant missing" in
      if variant_enabled variant then inl tt else inr "selected variant disabled"
  end.

Definition shipping_price (unit : Money) (option_ : Json) : Terms Z :=
  let? object := ok_or (as_object option_) "invalid shipping option" in
  match field "pricing" object ≫= as_str with
  | Some "free" => inl 0
  | Some "flat" =>
      let? value := ok_or (field "price" object) "missing shipping price" in
      let? price := award_money value in
      if negb (same_asset price unit) then inr "shipping money mismatch"
      else inl (amount_minor price)
  | _ => inr "unpriceable shipping"
  end.

(** [Iterator::min]. *)
Definition minimum (l : list Z) : option Z :=
  match l with [] => None | x :: rest => Some (fold_left Z.min rest x) end.

Definition award_shipping (unit : Money) (methods : list FulfillmentMethod)
    (shipping_options : option Json) : Terms Z :=
  if negb (bool_decide (Shipping ∈ methods)) then inl 0
  else
    match shipping_options with
    | None => inl 0
    | Some value =>
        let? options := ok_or (as_array value) "invalid shipping options" in
        match options with
        | [] => inr "unpriceable shipping"
        | _ =>
            let? prices := collect (map (shipping_price unit) options) in
            ok_or (minimum prices) "unpriceable shipping"
        end
    end.

Definition award_terms_from_bytes_for_variant (raw : RawRecord) (selected : option string)
    : Terms AwardListingSnapshot :=
  if MAX_AWARD_LISTING_BYTES <? raw_len raw then inr "record exceeds size limit"
  else
    let? value := ok_or (raw_json raw) "record is not JSON" in
    let? object := ok_or (as_object value) "record is not an object" in
    let? revision := ok_or (keep (Z.ltb 0) (field "revision" object ≫= as_i64))
                       "invalid revision" in
    let title := default "Marketplace item"
      (keep (fun t => nonblank (trim t)) (field "title" object ≫= as_str)) in
    let? sale := ok_or (field "sale" object ≫= as_object) "missing sale" in
    if negb (bool_decide (field "format" sale ≫= as_str = Some "fixed_price"))
    then inr "offer requires fixed-price listing"
    else
      let? unit_value := ok_or (field "unitPrice" sale) "missing unit price" in
      let? unit := award_money unit_value in
      let? raw_variants := ok_or (field "variants" object ≫= as_array) "missing variants" in
      let? _ := check_selected selected raw_variants in
      let? variants := collect (map award_variant
        (List.filter (fun v => variant_enabled v &&
            match selected with None => true | Some id => variant_id_is id v end)
           raw_variants)) in
      if bool_decide (variants = []) || negb (bool_decide (NoDup (map av_id variants)))
      then inr "invalid enabled variants"
      else if existsb (fun v => match av_price v with
                                | Some price => negb (same_asset price unit)
                                | None => false
                                end) variants
      then inr "variant money mismatch"
      else
        let methods := record_physical_fulfillment_methods object in
        let? shipping_minor := award_shipping unit methods (field "shippingOptions" object) in
        inl (mkAwardListing (raw_sha256 raw) revision title (currency unit) (exponent unit)
               shipping_minor methods variants).

Definition award_terms_from_bytes (raw : RawRecord) : Terms AwardListingSnapshot :=
  award_terms_from_bytes_for_variant raw None.
