(* ===== verification/Fx.v ===== *)
(** * The FX quote ([fx.rs])

    A fiat total is quoted in satoshis at the current BTCUSD rate.  Rates are
    decimals with a checked 128-bit mantissa; the current rate must be fresh,
    within fixed bounds, and within five percent of the median of the last
    hour's samples, which the sampler of [workers.rs] keeps. *)

From stdpp Require Import pretty sorting.
From S2P Require Import Prelude Domain Json Text.

Definition RATE_MIN_USD : Z := 10000.
Definition RATE_MAX_USD : Z := 1000000.
Definition MAX_DEVIATION_BPS : Z := 500.
Definition MAX_QUOTE_SATS : Z := 100000000.
Definition MIN_QUOTE_SATS : Z := 1000.
Definition MAX_RATE_AGE_SECS : Z := 300.
Definition MAX_FUTURE_SKEW_SECS : Z := 60.
Definition REFERENCE_WINDOW_SECS : Z := 3600.
Definition REFERENCE_MIN_SAMPLES : nat := 3.

(** ** Checked 128-bit arithmetic *)

Definition u128_max : Z := 2 ^ 128 - 1.

Definition checked (z : Z) : option Z := if (0 <=? z) && (z <=? u128_max) then Some z else None.

(** [10u128.checked_pow]: 39 digits do not fit. *)
Definition checked_pow10 (n : Z) : option Z :=
  if (0 <=? n) && (n <=? 38) then Some (10 ^ n) else None.

(** ** Decimals *)

Record Decimal := mkDecimal {
  mantissa : Z;
  scale : Z;
}.

#[export] Instance Decimal_eq_dec : EqDecision Decimal.
Proof. solve_decision. Defined.

Definition digit_value (b : Z) : Z := b - 48.

(** The number a list of digits spells. *)
Definition spelled (l : list Z) : Z := fold_left (fun n b => 10 * n + digit_value b) l 0.

Definition split_sign (l : list Z) : Z * list Z :=
  match l with
  | b :: l' => if b =? 43 then (1, l') else if b =? 45 then (-1, l') else (1, l)
  | [] => (1, [])
  end.

(** [str::parse::<i64>]: digits after an optional sign. *)
Definition parse_i64 (raw : string) : option Z :=
  let '(sign, digits) := split_sign (bytes raw) in
  if nonempty digits && forallb is_digit digits && in_range i64_min i64_max (sign * spelled digits)
  then Some (sign * spelled digits) else None.

(** [Decimal::parse]. *)
Definition parse (value : string) : option Decimal :=
  let '(whole, fraction) := default (bytes value, []) (split_once 46 (bytes value)) in
  if (8 <? Z.of_nat (length fraction)) || (38 <? Z.of_nat (length whole)) then None
  else if negb (nonempty whole) || negb (forallb is_digit whole) || negb (forallb is_digit fraction)
  then None
  else (fun m => mkDecimal m (Z.of_nat (length fraction))) <$> checked (spelled (whole ++ fraction)).

(** [Decimal::widened]: a smaller target scale has no widening. *)
Definition widened (d : Decimal) (target : Z) : option Z :=
  if target <? scale d then None
  else factor ← checked_pow10 (target - scale d); checked (mantissa d * factor).

(** [Decimal::cmp]. *)
Definition decimal_cmp (a b : Decimal) : option comparison :=
  let target := Z.max (scale a) (scale b) in
  left ← widened a target; right ← widened b target; Some (Z.compare left right).

(** [Decimal::in_bounds]. *)
Definition in_bounds (d : Decimal) : bool :=
  match decimal_cmp d (mkDecimal RATE_MIN_USD 0), decimal_cmp d (mkDecimal RATE_MAX_USD 0) with
  | Some low, Some high => negb (bool_decide (low = Lt)) && negb (bool_decide (high = Gt))
  | _, _ => false
  end.

(** The decimal digits of a number, and at least [width] of them. *)
Definition digits_of (n : Z) : string := pretty (Z.to_N n).

Fixpoint zeros (n : nat) : string := match n with O => "" | S n => "0" +:+ zeros n end.

Definition padded (width : nat) (s : string) : string := zeros (width - String.length s) +:+ s.

(** [Decimal::to_string_value]. *)
Definition to_string_value (d : Decimal) : string :=
  if scale d =? 0 then digits_of (mantissa d)
  else
    let digits := padded (Z.to_nat (scale d) + 1) (digits_of (mantissa d)) in
    let split := (String.length digits - Z.to_nat (scale d))%nat in
    String.substring 0 split digits +:+ "." +:+ String.substring split (Z.to_nat (scale d)) digits.

(** ** The feed *)

Inductive FxError :=
| Malformed | MissingReference | Stale | Future | OutOfBounds | DeviationExceeded | Overflow
| BelowMinimum | CapExceeded.

#[export] Instance FxError_eq_dec : EqDecision FxError.
Proof. solve_decision. Defined.

Record Ticker := mkTicker {
  tk_symbol : string;
  tk_last_price : string;
  tk_base : string;
  tk_quote : string;
  tk_last_updated_at : Z;
}.

Definition read_ticker : Read Ticker := fun v =>
  fields ← struct_fields ["symbol"; "lastPrice"; "base"; "quote"; "lastUpdatedAt"] v;
  symbol ← required fields "symbol" as_str;
  last_price ← required fields "lastPrice" as_str;
  base ← required fields "base" as_str;
  quote ← required fields "quote" as_str;
  last_updated_at ← required fields "lastUpdatedAt" as_i64;
  Some (mkTicker symbol last_price base quote last_updated_at).

Definition read_feed : Read (list Ticker) := fun v =>
  fields ← struct_fields ["tickers"] v; required fields "tickers" (read_vec read_ticker).

Record RateSample := mkSample {
  sm_rate : Decimal;
  sm_fetched_at : Time;
}.

(** [DateTime::from_timestamp_millis]: the years chrono represents. *)
Definition from_timestamp_millis (ms : Z) : option Time :=
  if (-8334601228800000 <=? ms) && (ms <=? 8210266876799999) then Some (ms * 1000) else None.

Definition is_btcusd (t : Ticker) : bool :=
  ((tk_symbol t =? "BTCUSD") && (tk_base t =? "BTC") && (tk_quote t =? "USD"))%string.

Definition check_ticker (ticker : Ticker) (observed_at : Time) : RateSample + FxError :=
  match from_timestamp_millis (tk_last_updated_at ticker) with
  | None => inr Malformed
  | Some updated_at =>
      let age := observed_at - updated_at in
      if seconds MAX_RATE_AGE_SECS <? age then inr Stale
      else if age <? - seconds MAX_FUTURE_SKEW_SECS then inr Future
      else
        match parse (tk_last_price ticker) with
        | None => inr Malformed
        | Some rate => if in_bounds rate then inl (mkSample rate updated_at) else inr OutOfBounds
        end
  end.

Definition parse_feed `{JT : !JsonText} (body : string) (observed_at : Time) : RateSample + FxError :=
  match v ← from_slice body; read_feed v with
  | None => inr Malformed
  | Some tickers =>
      match List.filter is_btcusd tickers with
      | [ticker] => check_ticker ticker observed_at
      | _ => inr Malformed
      end
  end.

(** ** The reference *)

Definition not_after (a b : Decimal) : bool :=
  negb (bool_decide (default Eq (decimal_cmp a b) = Gt)).

(** A stable insertion sort: the order [slice::sort_by] gives. *)
Fixpoint insert_rate (x : Decimal) (l : list Decimal) : list Decimal :=
  match l with
  | [] => [x]
  | y :: l => if not_after x y then x :: y :: l else y :: insert_rate x l
  end.

Definition sort_rates : list Decimal -> list Decimal := foldr insert_rate [].

Definition max_scale (rates : list Decimal) : Z := foldr (fun d => Z.max (scale d)) 0 rates.

(** [median]: the upper one of an even number. *)
Definition median (rates : list Decimal) : option Decimal :=
  if (length rates <? REFERENCE_MIN_SAMPLES)%nat then None
  else if forallb (fun d => bool_decide (is_Some (widened d (max_scale rates)))) rates
  then sort_rates rates !! (length rates / 2)%nat
  else None.

(** [within_deviation]. *)
Definition within_deviation (rate reference : Decimal) : bool :=
  let target := Z.max (scale rate) (scale reference) in
  match widened rate target, widened reference target with
  | Some rate_value, Some reference_value =>
      match checked (Z.abs (rate_value - reference_value) * 10000),
            checked (reference_value * MAX_DEVIATION_BPS) with
      | Some difference, Some bound => difference <=? bound
      | _, _ => false
      end
  | _, _ => false
  end.

(** ** Quotes *)

(** [quote_sats]. *)
Definition quote_sats (total_minor exponent : Z) (rate : Decimal) : Z + FxError :=
  if (total_minor <? 0) || (exponent <? 0) then inr Overflow
  else
    match
      fiat_scale ← checked_pow10 exponent;
      rate_scale ← checked_pow10 (scale rate);
      numerator ← (v ← checked (total_minor * 100000000); checked (v * rate_scale));
      denominator ← checked (fiat_scale * mantissa rate);
      if denominator =? 0 then None
      else rounded ← checked (numerator + (denominator - 1)); Some (rounded / denominator)
    with
    | None => inr Overflow
    | Some sats =>
        if sats <? MIN_QUOTE_SATS then inr BelowMinimum
        else if MAX_QUOTE_SATS <? sats then inr CapExceeded
        else inl sats
    end.

Definition reference_cutoff (now : Time) : Time := now - seconds REFERENCE_WINDOW_SECS.

(** A row of [fx_rate_samples]: the rate as PostgreSQL prints it. *)
Record FxRateSample := mkFxRateSample {
  fs_rate : string;
  fs_fetched_at : Time;
  fs_accepted_at : Time;
  fs_sample_bucket : Time;
}.

(** The rates of the samples accepted in the window, in the table's order. *)
Definition reference_rates (now : Time) (samples : list FxRateSample) : list Decimal :=
  omap (fun s => parse (fs_rate s))
    (List.filter (fun s => reference_cutoff now <=? fs_accepted_at s) samples).

(** [ORDER BY accepted_at]. *)
Definition accepted_before (a b : FxRateSample) : Prop := fs_accepted_at a <= fs_accepted_at b.

#[export] Instance accepted_before_dec : RelDecision accepted_before.
Proof. intros a b. unfold accepted_before. apply _. Defined.

Definition by_accepted_at : list FxRateSample -> list FxRateSample := merge_sort accepted_before.

(** [quote_usd]; [fetched] is the outcome of [fetch_current]. *)
Definition quote_usd (samples : list FxRateSample) (fetched : RateSample + FxError)
    (total_minor exponent : Z) (now : Time) : (Decimal * RateSample * Z) + FxError :=
  match median (reference_rates now (by_accepted_at samples)) with
  | None => inr MissingReference
  | Some median_rate =>
      match fetched with
      | inr e => inr e
      | inl current =>
          if negb (within_deviation (sm_rate current) median_rate) then inr DeviationExceeded
          else
            match quote_sats total_minor exponent (sm_rate current) with
            | inl sats => inl (sm_rate current, current, sats)
            | inr e => inr e
            end
      end
  end.

(** ** The sampler *)

Definition FX_SAMPLE_INTERVAL_SECONDS : Z := 60.

Definition bucket_of (now : Time) : Time :=
  seconds (now / seconds 1 - (now / seconds 1) mod FX_SAMPLE_INTERVAL_SECONDS).

(** [sample_fx_rate]: one sample per bucket; what is older than the window
    and a minute is dropped. *)
Definition sample_fx_rate (numeric_text : Decimal -> string) (fetched : RateSample + FxError)
    (now : Time) (samples : list FxRateSample) : Z * list FxRateSample :=
  match fetched with
  | inr _ => (0, samples)
  | inl sample =>
      if match median (reference_rates now samples) with
         | Some m => negb (within_deviation (sm_rate sample) m)
         | None => false
         end
      then (0, samples)
      else
        let bucket := bucket_of now in
        let taken := existsb (fun s => fs_sample_bucket s =? bucket) samples in
        let samples := if taken then samples
                       else samples ++ [mkFxRateSample (numeric_text (sm_rate sample))
                                          (sm_fetched_at sample) now bucket] in
        (if taken then 0 else 1,
         List.filter (fun s => negb (fs_accepted_at s <? now - seconds 3660)) samples)
  end.

(** ** The arithmetic is exact *)

Lemma checked_Some z w : checked z = Some w <-> w = z /\ 0 <= z <= u128_max.
Proof.
  unfold checked. destruct (_ && _) eqn:E; reflect_bools.
  - split; [by intros [= <-]|]. by intros [-> _].
  - split; [discriminate|]. intros [_ ?]. apply andb_false_iff in E as [E|E]; reflect_bools; lia.
Qed.

Lemma checked_fits z : 0 <= z <= u128_max -> checked z = Some z.
Proof. intros. by apply checked_Some. Qed.

Lemma checked_pow10_Some n z : checked_pow10 n = Some z <-> z = 10 ^ n /\ 0 <= n <= 38.
Proof.
  unfold checked_pow10. destruct (_ && _) eqn:E; reflect_bools.
  - split; [by intros [= <-]|]. by intros [-> _].
  - split; [discriminate|]. intros [_ ?]. apply andb_false_iff in E as [E|E]; reflect_bools; lia.
Qed.

Lemma pow10_pos n : 0 <= n -> 0 < 10 ^ n.
Proof. intros. by apply Z.pow_pos_nonneg. Qed.

(** Digits of a parsed rate. *)
Definition decimal_ok (d : Decimal) : Prop := 0 <= scale d <= 8 /\ 0 <= mantissa d.

Lemma parse_ok value d : parse value = Some d -> decimal_ok d /\ mantissa d <= u128_max.
Proof.
  unfold parse. destruct (default _ _) as [whole fraction].
  destruct ((8 <? _) || _) eqn:E1; [discriminate|].
  destruct (negb _ || _ || _) eqn:E2; [discriminate|]. intros Hp. apply fmap_Some in Hp as (m & Hm & ->).
  apply checked_Some in Hm as [-> ?]. apply orb_false_iff in E1 as [E1 _]. reflect_bools.
  unfold decimal_ok. simpl. lia.
Qed.

(** A number at the scale [s]. *)
Definition at_scale (s : Z) (d : Decimal) : Z := mantissa d * 10 ^ (s - scale d).

Lemma widened_Some d s z :
  widened d s = Some z <->
  z = at_scale s d /\ 0 <= s - scale d <= 38 /\ 0 <= at_scale s d <= u128_max.
Proof.
  unfold widened, at_scale. destruct (s <? scale d) eqn:E; reflect_bools.
  { split; [discriminate|lia]. }
  rewrite bind_Some. split.
  - intros (f & Hf & Hz). apply checked_pow10_Some in Hf as [-> ?]. apply checked_Some in Hz as [-> ?].
    repeat split; lia.
  - intros (-> & ? & ?). exists (10 ^ (s - scale d)). by rewrite checked_pow10_Some, checked_Some.
Qed.

(** Rates compare by cross multiplication. *)
Definition cross (a b : Decimal) : Z := mantissa a * 10 ^ scale b.

Lemma cross_at_scale a b s :
  0 <= scale a <= s -> 0 <= scale b <= s ->
  cross a b * 10 ^ (s - scale a - scale b + Z.min (scale a) (scale b)) =
  at_scale s a * 10 ^ Z.min (scale a) (scale b).
Proof.
  intros Ha Hb. unfold cross, at_scale. rewrite <- !Z.mul_assoc, <- !Z.pow_add_r by lia.
  do 2 f_equal. lia.
Qed.

Lemma cross_compare a b s :
  0 <= scale a <= s -> 0 <= scale b <= s ->
  Z.compare (at_scale s a) (at_scale s b) = Z.compare (cross a b) (cross b a).
Proof.
  intros Ha Hb. pose proof (cross_at_scale a b s Ha Hb) as Ea.
  pose proof (cross_at_scale b a s Hb Ha) as Eb. rewrite (Z.min_comm (scale b)) in Eb.
  replace (s - scale b - scale a) with (s - scale a - scale b) in Eb by lia.
  set (k := 10 ^ (s - scale a - scale b + Z.min (scale a) (scale b))) in *.
  set (j := 10 ^ Z.min (scale a) (scale b)) in *.
  assert (0 < k) by (apply pow10_pos; lia). assert (0 < j) by (apply pow10_pos; lia).
  rewrite (Zmult_compare_compat_r (at_scale s a) (at_scale s b) j) by lia.
  rewrite <- Ea, <- Eb. symmetry. apply Zmult_compare_compat_r. lia.
Qed.

(** A rate that widens to the scale [s]. *)
Definition wide (s : Z) (d : Decimal) : Prop :=
  decimal_ok d /\ scale d <= s <= 38 /\ at_scale s d <= u128_max.

Lemma wide_fits s t d : wide s d -> scale d <= t <= s -> 0 <= at_scale t d <= u128_max.
Proof.
  intros ([? ?] & ? & Hmax) Ht. unfold at_scale in *.
  pose proof (pow10_pos (t - scale d)). pose proof (Z.pow_le_mono_r 10 (t - scale d) (s - scale d)). nia.
Qed.

Lemma wide_cmp s a b :
  wide s a -> wide s b -> decimal_cmp a b = Some (Z.compare (cross a b) (cross b a)).
Proof.
  intros Ha Hb. pose proof Ha as ([? ?] & ? & _). pose proof Hb as ([? ?] & ? & _).
  unfold decimal_cmp. set (t := Z.max (scale a) (scale b)).
  rewrite (proj2 (widened_Some a t _)) by (repeat split; try apply (wide_fits s t a Ha); lia).
  rewrite (proj2 (widened_Some b t _)) by (repeat split; try apply (wide_fits s t b Hb); lia).
  simpl. by rewrite cross_compare by lia.
Qed.

Lemma not_after_wide s a b :
  wide s a -> wide s b -> not_after a b = true <-> at_scale s a <= at_scale s b.
Proof.
  intros Ha Hb. pose proof Ha as ([? ?] & ? & _). pose proof Hb as ([? ?] & ? & _).
  unfold not_after. rewrite (wide_cmp s), <- (cross_compare a b s) by (auto || lia). simpl.
  rewrite negb_true_iff, bool_decide_eq_false. reflexivity.
Qed.

Lemma bounds_wide d : decimal_ok d -> in_bounds d = true ->
  wide 8 d /\ RATE_MIN_USD * 10 ^ scale d <= mantissa d <= RATE_MAX_USD * 10 ^ scale d.
Proof.
  intros [Hs Hm]. unfold in_bounds, decimal_cmp. simpl. rewrite Z.max_l by lia.
  destruct (widened d _) as [x|] eqn:Ex; [|discriminate].
  apply widened_Some in Ex as (-> & _ & Hx). unfold at_scale in Hx |- *. rewrite Z.sub_diag, Z.pow_0_r, Z.mul_1_r in *.
  destruct (widened (mkDecimal RATE_MIN_USD 0) _) as [lo|] eqn:Elo; [|discriminate].
  destruct (widened (mkDecimal RATE_MAX_USD 0) _) as [hi|] eqn:Ehi; [|discriminate].
  apply widened_Some in Elo as (-> & _). apply widened_Some in Ehi as (-> & _).
  unfold at_scale. simpl. rewrite Z.sub_0_r. intros Hb. reflect_bools.
  rewrite Z.compare_lt_iff in *. rewrite Z.compare_gt_iff in *.
  split; [|lia]. unfold wide, decimal_ok, at_scale. repeat split; try lia.
  transitivity (RATE_MAX_USD * 10 ^ scale d * 10 ^ (8 - scale d)); [pose proof (pow10_pos (8 - scale d)); nia|].
  rewrite <- Z.mul_assoc, <- Z.pow_add_r by lia. replace (scale d + (8 - scale d)) with 8 by lia. by vm_compute.
Qed.

(** ** The deviation test and the quote *)

Lemma within_deviation_sound rate m :
  decimal_ok rate -> decimal_ok m -> within_deviation rate m = true ->
  20 * Z.abs (cross rate m - cross m rate) <= cross m rate.
Proof.
  intros [? ?] [? ?]. unfold within_deviation. set (t := Z.max (scale rate) (scale m)).
  destruct (widened rate t) as [x|] eqn:Ex; [|discriminate].
  destruct (widened m t) as [y|] eqn:Ey; [|discriminate].
  apply widened_Some in Ex as (-> & _). apply widened_Some in Ey as (-> & _).
  destruct (checked (Z.abs _ * _)) eqn:E1; [|discriminate].
  destruct (checked (_ * MAX_DEVIATION_BPS)) eqn:E2; [|discriminate].
  apply checked_Some in E1 as [-> _]. apply checked_Some in E2 as [-> _]. rewrite Z.leb_le.
  change MAX_DEVIATION_BPS with 500. intros Hd.
  assert (Hd' : 20 * Z.abs (at_scale t rate - at_scale t m) <= at_scale t m) by lia. clear Hd.
  pose proof (cross_at_scale rate m t ltac:(lia) ltac:(lia)) as Ea.
  pose proof (cross_at_scale m rate t ltac:(lia) ltac:(lia)) as Eb. rewrite (Z.min_comm (scale m)) in Eb.
  replace (t - scale m - scale rate) with (t - scale rate - scale m) in Eb by lia.
  replace (t - scale rate - scale m + Z.min (scale rate) (scale m)) with 0 in * by lia.
  rewrite Z.pow_0_r, !Z.mul_1_r in *.
  rewrite Ea, Eb, <- Z.mul_sub_distr_r, Z.abs_mul.
  assert (0 < 10 ^ Z.min (scale rate) (scale m)) by (apply pow10_pos; lia).
  rewrite (Z.abs_eq (10 ^ _)) by lia. nia.
Qed.

(** The exact price in satoshis, rounded up. *)
Definition owed (total exponent : Z) (rate : Decimal) (sats : Z) : Prop :=
  (sats - 1) * (10 ^ exponent * mantissa rate) < total * 100000000 * 10 ^ scale rate
  /\ total * 100000000 * 10 ^ scale rate <= sats * (10 ^ exponent * mantissa rate).

Lemma ceiling_div n d : 0 < d -> ((n + (d - 1)) / d - 1) * d < n <= (n + (d - 1)) / d * d.
Proof. intros Hd. pose proof (Z.div_mod (n + (d - 1)) d). pose proof (Z.mod_pos_bound (n + (d - 1)) d). nia. Qed.

Definition priced (sats : Z) : Z + FxError :=
  if sats <? MIN_QUOTE_SATS then inr BelowMinimum
  else if MAX_QUOTE_SATS <? sats then inr CapExceeded else inl sats.

Lemma quote_terms_fit total exponent rate :
  decimal_ok rate -> in_bounds rate = true -> 0 <= total <= i64_max -> 0 <= exponent <= 24 ->
  0 <= total * 100000000 * 10 ^ scale rate <= 10 ^ 35 /\ 0 < 10 ^ exponent * mantissa rate <= 10 ^ 38.
Proof.
  intros Hok Hb Ht He. destruct (bounds_wide _ Hok Hb) as (_ & Hlo & Hhi). destruct Hok as [Hs Hm].
  assert (1 <= 10 ^ scale rate <= 10 ^ 8).
  { split; [pose proof (pow10_pos (scale rate)); lia | apply Z.pow_le_mono_r; lia]. }
  assert (1 <= 10 ^ exponent <= 10 ^ 24).
  { split; [pose proof (pow10_pos exponent); lia | apply Z.pow_le_mono_r; lia]. }
  change RATE_MIN_USD with 10000 in *. change RATE_MAX_USD with 1000000 in *.
  change i64_max with 9223372036854775807 in *.
  assert (1 <= mantissa rate <= 10 ^ 14) by (change (10 ^ 14) with (1000000 * 10 ^ 8); nia).
  change (10 ^ 38) with (10 ^ 24 * 10 ^ 14). split; [|nia].
  assert (total * 100000000 <= 922337203685477580700000000) by lia.
  change (10 ^ 35) with (10 ^ 27 * 10 ^ 8). nia.
Qed.

Lemma quote_sats_priced total exponent rate :
  decimal_ok rate -> in_bounds rate = true -> 0 <= total <= i64_max -> 0 <= exponent <= 24 ->
  exists sats, quote_sats total exponent rate = priced sats /\ owed total exponent rate sats.
Proof.
  intros Hok Hb Ht He. destruct (quote_terms_fit total exponent rate) as [Hn Hd]; [done..|].
  destruct Hok as [Hs Hm].
  set (n := total * 100000000 * 10 ^ scale rate) in *. set (d := 10 ^ exponent * mantissa rate) in *.
  exists ((n + (d - 1)) / d). split; [|apply ceiling_div; lia].
  assert (Hmax : 10 ^ 35 + 10 ^ 38 <= u128_max) by by vm_compute.
  unfold quote_sats. rewrite (proj2 (Z.ltb_ge total 0)), (proj2 (Z.ltb_ge exponent 0)) by lia. simpl.
  rewrite (proj2 (checked_pow10_Some exponent _)), (proj2 (checked_pow10_Some (scale rate) _)) by (split; [reflexivity|lia]).
  simpl. rewrite (checked_fits (total * _)).
  2:{ pose proof (pow10_pos (scale rate)). subst n. change i64_max with 9223372036854775807 in *. lia. }
  simpl. fold n. fold d. rewrite (checked_fits n), (checked_fits d) by lia. simpl.
  rewrite (proj2 (Z.eqb_neq d 0)) by lia. rewrite checked_fits by lia. reflexivity.
Qed.

(** ** The median *)

Definition at_most (s : Z) (a b : Decimal) : Prop := at_scale s a <= at_scale s b.

#[export] Instance at_most_preorder s : PreOrder (at_most s).
Proof. split; [intros a | intros a b c]; unfold at_most; lia. Qed.

Lemma insert_rate_perm x l : insert_rate x l ≡ₚ x :: l.
Proof.
  induction l as [|y l IH]; simpl; [done|]. destruct (not_after x y); [done|].
  rewrite IH. apply Permutation_swap.
Qed.

Lemma sort_rates_perm l : sort_rates l ≡ₚ l.
Proof. induction l as [|x l IH]; simpl; [done|]. by rewrite insert_rate_perm, IH. Qed.

Lemma insert_rate_sorted s x l :
  wide s x -> Forall (wide s) l -> StronglySorted (at_most s) l -> StronglySorted (at_most s) (insert_rate x l).
Proof.
  intros Hx Hl. induction l as [|y l IH]; intros Hs; simpl; [repeat constructor|].
  apply Forall_cons_1 in Hl as [Hy Hl]. apply StronglySorted_inv in Hs as [Hs Hall].
  pose proof (not_after_wide s x y Hx Hy) as Hord. destruct (not_after x y).
  - assert (Hxy : at_most s x y) by by apply Hord.
    constructor; [by constructor|]. constructor; [done|].
    revert Hall. apply Forall_impl. intros z Hz. by transitivity y.
  - constructor; [by apply IH|]. rewrite insert_rate_perm. constructor; [|done].
    assert (~ at_scale s x <= at_scale s y) by (rewrite <- Hord; discriminate). unfold at_most. lia.
Qed.

Lemma sort_rates_sorted s l : Forall (wide s) l -> StronglySorted (at_most s) (sort_rates l).
Proof.
  induction l as [|x l IH]; intros Hl; simpl; [constructor|]. apply Forall_cons_1 in Hl as [Hx Hl].
  apply insert_rate_sorted; [done| |by apply IH]. by rewrite sort_rates_perm.
Qed.

(** Rates strictly above, and strictly below, another one. *)
Definition above (m d : Decimal) : Prop := cross m d < cross d m.
Definition below (m d : Decimal) : Prop := cross d m < cross m d.

#[export] Instance above_dec m d : Decision (above m d).
Proof. unfold above. apply _. Defined.
#[export] Instance below_dec m d : Decision (below m d).
Proof. unfold below. apply _. Defined.

Lemma above_wide s m d : wide s m -> wide s d -> above m d -> ~ at_most s d m.
Proof.
  intros ([? ?] & ? & _) ([? ?] & ? & _). unfold above, at_most. rewrite <- Z.compare_lt_iff.
  rewrite <- (cross_compare m d s), Z.compare_lt_iff by lia. lia.
Qed.

Lemma below_wide s m d : wide s m -> wide s d -> below m d -> ~ at_most s m d.
Proof. intros Hm Hd Hb. by apply (above_wide s d m). Qed.

Lemma filter_length_none {A} (P : A -> Prop) `{!forall x, Decision (P x)} l :
  Forall (fun x => ~ P x) l -> length (filter P l) = 0%nat.
Proof. induction 1; [done|]. by rewrite filter_cons_False. Qed.

Lemma sorted_middle s l k m :
  Forall (wide s) l -> StronglySorted (at_most s) l -> l !! k = Some m ->
  (length (filter (below m) l) <= k)%nat /\ (length (filter (above m) l) < length l - k)%nat.
Proof.
  intros Hl Hs Hk. pose proof (lookup_lt_Some _ _ _ Hk) as Hlen. pose proof (proj1 (Forall_lookup _ _) Hl _ _ Hk) as Hm.
  rewrite <- (take_drop_middle l k m Hk) in Hl, Hs |- *.
  apply Forall_app in Hl as [Hl1 Hl2]. apply Forall_cons_1 in Hl2 as [_ Hl2].
  rewrite !list.filter_app, !length_app. cbn [length]. rewrite length_take_le, length_drop by lia.
  assert (Hlo : Forall (fun d => at_most s d m) (take k l)).
  { apply list.Forall_forall. intros d Hd. exact (StronglySorted_app_1_elem_of _ _ _ _ _ Hs Hd ltac:(left)). }
  assert (Hhi : Forall (fun d => at_most s m d) (drop (S k) l)).
  { apply StronglySorted_app in Hs as (_ & _ & Hs). by apply StronglySorted_inv in Hs as [_ Hs]. }
  split.
  - assert (E : length (filter (below m) (m :: drop (S k) l)) = 0%nat).
    { apply filter_length_none. constructor; [unfold below; lia|].
      apply list.Forall_forall. intros d Hd Hb. rewrite list.Forall_forall in Hl2, Hhi.
      by apply (below_wide s m d Hm (Hl2 d Hd) Hb), Hhi. }
    rewrite E. pose proof (length_filter (below m) (take k l)). rewrite length_take in *. lia.
  - assert (E : length (filter (above m) (take k l)) = 0%nat).
    { apply filter_length_none. apply list.Forall_forall. intros d Hd Ha. rewrite list.Forall_forall in Hl1, Hlo.
      by apply (above_wide s m d Hm (Hl1 d Hd) Ha), Hlo. }
    rewrite E, filter_cons_False by (unfold above; lia).
    pose proof (length_filter (above m) (drop (S k) l)). rewrite length_drop in *. lia.
Qed.

(** A rate of the list with at most half of the list on either side. *)
Definition middle (m : Decimal) (l : list Decimal) : Prop :=
  m ∈ l /\ (2 * length (filter (below m) l) <= length l)%nat /\ (2 * length (filter (above m) l) <= length l)%nat.

Lemma max_scale_le l d : d ∈ l -> scale d <= max_scale l.
Proof. induction 1; simpl; lia. Qed.

Lemma max_scale_ok l : Forall decimal_ok l -> 0 <= max_scale l <= 8.
Proof. induction 1 as [|d l [? ?] _ IH]; simpl; lia. Qed.

Lemma median_middle l m :
  Forall decimal_ok l -> median l = Some m -> (REFERENCE_MIN_SAMPLES <= length l)%nat /\ middle m l.
Proof.
  intros Hl. unfold median. destruct (_ <? _)%nat eqn:E; [discriminate|]. apply Nat.ltb_ge in E.
  destruct (forallb _ l) eqn:Ew; [|discriminate]. intros Hm. split; [done|].
  assert (Hwide : Forall (wide (max_scale l)) l).
  { apply list.Forall_forall. intros d Hd. rewrite list.Forall_forall in Hl.
    rewrite forallb_forall in Ew. specialize (Ew d (proj1 (list_elem_of_In _ _) Hd)). reflect_bools.
    destruct Ew as [z Hz]. apply widened_Some in Hz as (_ & ? & ?). unfold wide.
    pose proof (max_scale_le l d Hd). destruct (Hl d Hd). rewrite <- list.Forall_forall in Hl.
    pose proof (max_scale_ok l Hl). unfold decimal_ok. lia. }
  assert (Hp := sort_rates_perm l).
  destruct (sorted_middle (max_scale l) (sort_rates l) (length l / 2) m) as [Hb Ha];
    [by rewrite Hp | by apply sort_rates_sorted | done |].
  rewrite Hp in Hb, Ha. unfold middle. split; [rewrite <- Hp; by eapply list_elem_of_lookup_2|].
  pose proof (Nat.div_mod_eq (length l) 2). pose proof (Nat.mod_upper_bound (length l) 2). lia.
Qed.

Lemma reference_rates_ok now samples : Forall decimal_ok (reference_rates now samples).
Proof.
  apply list.Forall_forall. intros d Hd. apply list_elem_of_omap in Hd as (s & _ & Hs). by apply parse_ok in Hs as [? _].
Qed.

Lemma parse_feed_ok `{!JsonText} body now sample :
  parse_feed body now = inl sample ->
  decimal_ok (sm_rate sample) /\ in_bounds (sm_rate sample) = true
  /\ now - seconds MAX_RATE_AGE_SECS <= sm_fetched_at sample <= now + seconds MAX_FUTURE_SKEW_SECS.
Proof.
  unfold parse_feed. destruct (from_slice body ≫= read_feed) as [tickers|]; [|discriminate].
  destruct (List.filter _ _) as [|t [|]]; [discriminate| |discriminate]. unfold check_ticker.
  destruct (from_timestamp_millis _) as [at_|]; [|discriminate].
  destruct (_ <? _) eqn:E1; [discriminate|]. destruct (_ <? - _) eqn:E2; [discriminate|].
  destruct (parse _) as [rate|] eqn:Ep; [|discriminate]. destruct (in_bounds rate) eqn:Eb; [|discriminate].
  intros [= <-]. simpl. apply parse_ok in Ep as [? _]. reflect_bools.
  split; [done|]. split; [done|]. lia.
Qed.

Lemma parse_feed_errors `{!JsonText} body now e : parse_feed body now = inr e -> e <> Overflow.
Proof.
  unfold parse_feed. destruct (from_slice body ≫= read_feed) as [tickers|]; [|by intros [= <-]].
  destruct (List.filter _ _) as [|t [|]]; [by intros [= <-]| |by intros [= <-]]. unfold check_ticker.
  repeat case_match; by intros [= <-].
Qed.

(** What an answer of [quote_usd] promises. *)
Definition fair (samples : list FxRateSample) (total exponent : Z) (now : Time)
    (answer : (Decimal * RateSample * Z) + FxError) : Prop :=
  match answer with
  | inl (rate, current, sats) =>
      rate = sm_rate current
      /\ now - seconds MAX_RATE_AGE_SECS <= sm_fetched_at current <= now + seconds MAX_FUTURE_SKEW_SECS
      /\ RATE_MIN_USD * 10 ^ scale rate <= mantissa rate <= RATE_MAX_USD * 10 ^ scale rate
      /\ (exists m, let rates := reference_rates now (by_accepted_at samples) in
           (REFERENCE_MIN_SAMPLES <= length rates)%nat /\ middle m rates
           /\ 20 * Z.abs (cross rate m - cross m rate) <= cross m rate)
      /\ MIN_QUOTE_SATS <= sats <= MAX_QUOTE_SATS /\ owed total exponent rate sats
  | inr e => e <> Overflow
  end.

(** C31. A dollar quote never overflows for a total a 64-bit integer holds and
    an exponent up to 24.  When one is given, its rate was updated at most five
    minutes before and one minute after now, lies between the fixed bounds, and
    is within five percent of a middle value of at least three samples of the
    last hour; the satoshis are the exact price rounded up and within the
    quote's limits. *)
Theorem quote_usd_fair `{JT : !JsonText} samples body total exponent now :
  0 <= total <= i64_max -> 0 <= exponent <= 24 ->
  fair samples total exponent now (quote_usd samples (parse_feed body now) total exponent now).
Proof.
  intros Ht He. unfold quote_usd. destruct (median _) as [m|] eqn:Em; [|done].
  destruct (parse_feed body now) as [current|e] eqn:Ef; [|by eapply parse_feed_errors].
  apply parse_feed_ok in Ef as (Hok & Hb & Hfresh). apply median_middle in Em as [Hn Hm]; [|apply reference_rates_ok].
  destruct (within_deviation _ _) eqn:Ed; [|done]. simpl.
  destruct (quote_sats_priced total exponent _ Hok Hb Ht He) as (sats & -> & Howed).
  unfold priced. destruct (_ <? _) eqn:E1; [done|]. destruct (MAX_QUOTE_SATS <? _) eqn:E2; [done|]. reflect_bools.
  apply within_deviation_sound in Ed; [|done|].
  - simpl. split; [done|]. split; [done|]. split; [by apply bounds_wide|]. split; [by exists m|]. split; [lia|done].
  - pose proof (reference_rates_ok now (by_accepted_at samples)) as Hall. rewrite list.Forall_forall in Hall.
    apply Hall. by destruct Hm.
Qed.

(** A feed with the one ticker wanted among others, and three samples. *)
Definition feed_reader (price : string) : JsonText := {|
  to_vec := fun _ => "";
  from_slice := fun _ => Some (JObject [("tickers", JArray (map
    (fun symbol => JObject [("symbol", JString (symbol +:+ "USD")); ("lastPrice", JString price);
                            ("base", JString symbol); ("quote", JString "USD");
                            ("lastUpdatedAt", JInt 999900)]) ["ETH"; "BTC"]))]);
  parse_datetime := fun _ => None;
|}.

Definition three_samples : list FxRateSample :=
  map (fun '(rate, minute) => mkFxRateSample rate (seconds minute) (seconds minute) (seconds minute))
    [("65001.25000000", 960); ("64000.00000000", 840); ("66000.00000000", 900)].

Lemma quote_usd_fair_witness :
  exists current, quote_usd three_samples (parse_feed (JT := feed_reader "64999.5") "" (seconds 1000)) 129900 2 (seconds 1000)
    = inl (mkDecimal 649995 1, current, 1998477)
  /\ fair three_samples 129900 2 (seconds 1000) (inl (mkDecimal 649995 1, current, 1998477)).
Proof.
  exists (mkSample (mkDecimal 649995 1) 999900000).
  assert (E : quote_usd three_samples (parse_feed (JT := feed_reader "64999.5") "" (seconds 1000)) 129900 2 (seconds 1000)
    = inl (mkDecimal 649995 1, mkSample (mkDecimal 649995 1) 999900000, 1998477)) by by vm_compute.
  split; [exact E|]. rewrite <- E.
  apply (quote_usd_fair (JT := feed_reader "64999.5") three_samples "" 129900 2 (seconds 1000)); vm_compute; split; discriminate.
Defined.

(** ** Printing and reading back *)

Lemma spelled_from n l : fold_left (fun n b => 10 * n + digit_value b) l n = n * 10 ^ Z.of_nat (length l) + spelled l.
Proof.
  unfold spelled. revert n. induction l as [|b l IH]; intros n; cbn [fold_left length]; [simpl; lia|].
  rewrite IH, (IH (10 * 0 + digit_value b)). rewrite Nat2Z.inj_succ, Z.pow_succ_r by lia. lia.
Qed.

Lemma spelled_app l l' : spelled (l ++ l') = spelled l * 10 ^ Z.of_nat (length l') + spelled l'.
Proof. unfold spelled at 1. rewrite fold_left_app. apply spelled_from. Qed.

(** The digits of a number: they spell it, and a number below [10^k] has at
    most [k]. *)
Definition spells (l : list Z) (n : N) : Prop :=
  forallb is_digit l = true /\ spelled l = Z.of_N n
  /\ forall k, Z.of_N n < 10 ^ Z.of_nat k -> (length l <= k)%nat.

Lemma pretty_N_char_digit x :
  (x < 10)%N -> is_digit (byte_of (pretty_N_char x)) = true /\ digit_value (byte_of (pretty_N_char x)) = Z.of_N x.
Proof.
  intros. assert (x = 0 \/ x = 1 \/ x = 2 \/ x = 3 \/ x = 4 \/ x = 5 \/ x = 6 \/ x = 7 \/ x = 8 \/ x = 9)%N as Hx by lia.
  destruct_or! Hx; by subst.
Qed.

Lemma pretty_N_go_spells n s : exists l, bytes (pretty_N_go n s) = l ++ bytes s /\ spells l n.
Proof.
  revert s. induction (N.lt_wf_0 n) as [n _ IH]; intros s.
  destruct (decide (n = 0)%N) as [->|Hn].
  { exists []. rewrite pretty_N_go_0. split; [done|]. repeat split; intros; simpl; lia. }
  rewrite pretty_N_go_step by lia.
  destruct (IH (n `div` 10)%N ltac:(apply N.div_lt; lia) (String (pretty_N_char (n `mod` 10)) s)) as (l & -> & Hd & Hs & Hlen).
  destruct (pretty_N_char_digit (n `mod` 10)) as [Hc Hv]; [by apply N.mod_lt|].
  exists (l ++ [byte_of (pretty_N_char (n `mod` 10))]). simpl. split; [by rewrite <- app_assoc|].
  pose proof (N.div_mod' n 10) as Hdm. split; [|split].
  - rewrite forallb_app, Hd. simpl. by rewrite Hc.
  - rewrite spelled_app, Hs. unfold spelled. cbn [fold_left length]. rewrite Hv. change (10 ^ Z.of_nat 1) with 10. lia.
  - intros k Hk. rewrite length_app. simpl. destruct k as [|k]; [simpl in Hk; lia|].
    rewrite Nat2Z.inj_succ, Z.pow_succ_r in Hk by lia.
    assert (Z.of_N (n `div` 10) < 10 ^ Z.of_nat k) as Hq%Hlen by (rewrite N2Z.inj_div; apply Z.div_lt_upper_bound; lia). lia.
Qed.

Lemma pretty_spells (n : N) k :
  (0 < k)%nat -> Z.of_N n < 10 ^ Z.of_nat k ->
  exists l, bytes (pretty n) = l /\ forallb is_digit l = true /\ spelled l = Z.of_N n /\ (1 <= length l <= k)%nat.
Proof.
  intros Hk Hn. unfold pretty, pretty_N. destruct (decide (n = 0)%N) as [->|Hpos].
  { exists [48]. repeat split; simpl; lia. }
  destruct (pretty_N_go_spells n "") as (l & -> & Hd & Hs & Hlen). exists l. simpl. rewrite app_nil_r.
  repeat split; try done; [|by apply Hlen]. destruct l; simpl; [|lia]. unfold spelled in Hs. simpl in Hs. lia.
Qed.

Lemma bytes_app a b : bytes (a +:+ b) = bytes a ++ bytes b.
Proof. induction a as [|c a IH]; [done|]. change (String c a +:+ b) with (String c (a +:+ b)). simpl. by rewrite IH. Qed.

Lemma length_bytes s : length (bytes s) = String.length s.
Proof. induction s; simpl; congruence. Qed.

Lemma bytes_substring a n s : bytes (String.substring a n s) = take n (drop a (bytes s)).
Proof.
  revert a n. induction s as [|c s IH]; intros [|a] [|n]; simpl; try done; by rewrite IH.
Qed.

Lemma bytes_zeros n : bytes (zeros n) = repeat 48 n.
Proof. induction n as [|n IH]; [done|]. simpl. by rewrite bytes_app, IH. Qed.

Lemma spelled_zeros n : spelled (repeat 48 n) = 0.
Proof. induction n as [|n IH]; [done|]. change (repeat 48 (S n)) with ([48] ++ repeat 48 n). rewrite spelled_app, IH. done. Qed.

Lemma digits_zeros n : forallb is_digit (repeat 48 n) = true.
Proof. induction n; simpl; auto. Qed.

Lemma digits_no_dot l : forallb is_digit l = true -> split_once 46 l = None.
Proof.
  induction l as [|b l IH]; [done|]. cbn [forallb split_once]. intros Hd. apply andb_true_iff in Hd as [Hb Hl].
  destruct (b =? 46) eqn:E; [apply Z.eqb_eq in E as ->; discriminate|]. by rewrite IH.
Qed.

Lemma digits_then_dot l f : forallb is_digit l = true -> split_once 46 (l ++ 46 :: f) = Some (l, f).
Proof.
  induction l as [|b l IH]; [done|]. cbn [app forallb split_once]. intros Hd. apply andb_true_iff in Hd as [Hb Hl].
  destruct (b =? 46) eqn:E; [apply Z.eqb_eq in E as ->; discriminate|]. by rewrite IH.
Qed.

(** What a decimal must fit in to be read back. *)
Definition printable (d : Decimal) : Prop :=
  decimal_ok d /\ mantissa d <= u128_max /\ mantissa d < 10 ^ (38 + scale d).

Lemma parse_digits value whole fraction m :
  default (bytes value, []) (split_once 46 (bytes value)) = (whole, fraction) ->
  forallb is_digit (whole ++ fraction) = true -> (1 <= length whole <= 38)%nat -> (length fraction <= 8)%nat ->
  spelled (whole ++ fraction) = m -> 0 <= m <= u128_max ->
  parse value = Some (mkDecimal m (Z.of_nat (length fraction))).
Proof.
  intros E Hd Hw Hf Hs Hm. unfold parse. rewrite E. rewrite forallb_app in Hd. apply andb_true_iff in Hd as [-> ->].
  rewrite (proj2 (Z.ltb_ge 8 _)), (proj2 (Z.ltb_ge 38 _)) by lia. simpl.
  destruct whole; [simpl in Hw; lia|]. simpl. change (z :: whole ++ fraction) with ((z :: whole) ++ fraction).
  rewrite Hs. by rewrite checked_fits.
Qed.

Theorem decimal_round_trip d : printable d -> parse (to_string_value d) = Some d.
Proof.
  destruct d as [m s]. intros ([Hs Hm] & Hmax & Hlt). cbn [scale mantissa] in *.
  destruct (pretty_spells (Z.to_N m) (38 + Z.to_nat s)) as (l & Hl & Hd & Hsp & Hlen); [lia| |].
  { rewrite Z2N.id by lia. by rewrite Nat2Z.inj_add, Z2Nat.id by lia. }
  rewrite Z2N.id in Hsp by lia. unfold to_string_value, digits_of. cbn [scale mantissa].
  destruct (s =? 0) eqn:E; reflect_bools.
  - subst s. apply (parse_digits _ l [] m); rewrite ?Hl, ?app_nil_r; simpl in *; try done; try lia.
    by rewrite digits_no_dot.
  - set (digits := padded _ _).
    assert (Hb : exists z, bytes digits = repeat 48 z ++ l /\ (Z.to_nat s < length (repeat 48%Z z ++ l) <= 38 + Z.to_nat s)%nat).
    { exists (Z.to_nat s + 1 - length l)%nat. subst digits. unfold padded.
      rewrite <- length_bytes, bytes_app, bytes_zeros, Hl, length_app, repeat_length. split; [done|lia]. }
    destruct Hb as (z & Hb & Hblen). rewrite <- (length_bytes digits).
    set (all := repeat 48 z ++ l) in *. set (split := (length (bytes digits) - Z.to_nat s)%nat).
    assert (Hsplit : split = (length all - Z.to_nat s)%nat) by (subst split; by rewrite Hb).
    assert (Hall : take split all ++ drop split all = all) by apply take_drop.
    transitivity (Some (mkDecimal m (Z.of_nat (length (drop split all))))); [|do 2 f_equal; rewrite length_drop; lia].
    assert (Hdig : forallb is_digit all = true) by (subst all; by rewrite forallb_app, digits_zeros, Hd).
    apply (parse_digits _ (take split all)).
    + rewrite !bytes_app, !bytes_substring, Hb, drop_0. change (bytes ".") with [46]. cbn [app].
      rewrite (take_ge (drop _ _)) by (rewrite length_drop; lia). rewrite digits_then_dot; [done|].
      rewrite <- Hall, forallb_app in Hdig. by apply andb_true_iff in Hdig as [? _].
    + by rewrite Hall.
    + rewrite length_take. lia.
    + rewrite length_drop. lia.
    + rewrite Hall. subst all. by rewrite spelled_app, spelled_zeros, Hsp.
    + lia.
Qed.

Lemma decimal_round_trip_witness :
  parse "64999.50" = Some (mkDecimal 6499950 2) /\ parse (to_string_value (mkDecimal 5 3)) = Some (mkDecimal 5 3).
Proof. split; [by vm_compute|]. by apply decimal_round_trip. Defined.

(** ** The samples kept *)

(** One sample a bucket, each accepted in its bucket. *)
Definition one_per_bucket (samples : list FxRateSample) : Prop :=
  NoDup (fs_sample_bucket <$> samples) /\ Forall (fun s => fs_sample_bucket s = bucket_of (fs_accepted_at s)) samples.

Lemma NoDup_fmap_filter {A B} (f : A -> B) p (l : list A) : NoDup (f <$> l) -> NoDup (f <$> List.filter p l).
Proof.
  induction l as [|x l IH]; [done|]. rewrite fmap_cons, list.NoDup_cons. intros [Hx Hl]. simpl.
  destruct (p x); [|by apply IH]. rewrite fmap_cons. apply list.NoDup_cons. split; [|by apply IH].
  intros (y & Ey & Hy)%list_elem_of_fmap. apply Hx, list_elem_of_fmap. exists y. split; [done|].
  apply list_elem_of_In in Hy. apply filter_In in Hy as [Hy _]. by apply list_elem_of_In.
Qed.

Lemma sample_fx_rate_one_per_bucket text fetched now samples :
  one_per_bucket samples -> one_per_bucket (snd (sample_fx_rate text fetched now samples)).
Proof.
  intros [Hnd Hb]. unfold sample_fx_rate. destruct fetched as [sample|]; [|done].
  destruct (match median _ with Some _ => _ | None => _ end); [done|]. cbn [snd].
  set (kept := if existsb _ _ then _ else _).
  assert (Hk : one_per_bucket kept).
  { subst kept. destruct (existsb _ _) eqn:E; [done|]. split.
    - rewrite fmap_app. apply list.NoDup_app. split; [done|]. split; [|apply NoDup_singleton].
      intros b (s & Es & Hs)%list_elem_of_fmap Hnow%list_elem_of_singleton. simpl in Hnow. subst b.
      apply not_true_iff_false in E. apply E, existsb_exists. exists s.
      split; [by apply list_elem_of_In|]. apply Z.eqb_eq. congruence.
    - apply Forall_app. split; [done|]. by constructor. }
  clearbody kept. destruct Hk as [Hnd' Hb']. split.
  - by apply NoDup_fmap_filter.
  - apply list.Forall_forall. intros s Hs. rewrite list.Forall_forall in Hb'. apply Hb'.
    apply list_elem_of_In in Hs. apply filter_In in Hs as [Hs _]. by apply list_elem_of_In.
Qed.
