(* ===== verification/Validation.v ===== *)
(** * Command validation ([parse_command] of [commands.rs])

    A wire command becomes a [Command] by deserialization, the envelope
    checks, and the validator of its kind, which trims and canonicalizes text
    and collects one issue per violated rule.  Deserialization is the class
    [Serde]; the link check of a digital delivery asks the [url] crate. *)

From stdpp Require Import pretty.
From S2P Require Import Prelude Domain Pubky Store Commands Text Json Postal LockResource.

Definition issue (path message : string) : ValidationIssue := mkIssue path message.

(** One issue, unless the rule holds. *)
Definition require (rule : bool) (path message : string) : list ValidationIssue :=
  if rule then [] else [issue path message].

(** ** Patterns *)

Definition word_class (b : Z) : bool :=
  is_upper b || is_lower b || is_digit b || (b =? 95) || (b =? 45).

Definition aggregate_id_regex (s : string) : bool :=
  match split_once 58 (bytes s) with
  | Some (type_, identifier) =>
      match type_ with
      | first :: rest =>
          is_lower first &&
          repeats (fun b => is_lower b || is_digit b || (b =? 95) || (b =? 45)) 1 31 rest &&
          repeats word_class 1 256 identifier
      | [] => false
      end
  | None => false
  end.

Definition entity_id_regex (s : string) : bool := repeats word_class 1 128 (bytes s).
Definition is_valid_entity_id : string -> bool := entity_id_regex.

Definition hex_class (b : Z) : bool := is_digit b || in_range 97 102 b.

Definition content_hash_regex (s : string) : bool := repeats hex_class 64 64 (bytes s).

Definition currency_regex (s : string) : bool :=
  match bytes s with
  | first :: rest => is_upper first && repeats (fun b => is_upper b || is_digit b) 2 11 rest
  | [] => false
  end.

Definition country_code_regex (s : string) : bool := repeats is_upper 2 2 (bytes s).

(** [^([01][0-9]|2[0-3]):[0-5][0-9]$]. *)
Definition hhmm_regex (s : string) : bool :=
  match bytes s with
  | [h; i; colon; m; n] =>
      ((in_range 48 49 h && is_digit i) || ((h =? 50) && in_range 48 51 i)) &&
      (colon =? 58) && in_range 48 53 m && is_digit n
  | _ => false
  end.

(** ** Money and text *)

Definition validate_money (path : string) (money : Money) : list ValidationIssue :=
  require (between 0 (amount_minor money) MAX_SAFE_INTEGER) (path +:+ ".amount_minor")
    "Expected a non-negative safe integer amount" ++
  require (currency_regex (currency money)) (path +:+ ".currency")
    "Expected an uppercase asset code" ++
  require (between 0 (exponent money) 18) (path +:+ ".exponent")
    "Expected an exponent between 0 and 18".

Definition validate_positive_money (path : string) (money : Money) : list ValidationIssue :=
  validate_money path money ++
  require (0 <? amount_minor money) (path +:+ ".amount_minor")
    "Expected a positive monetary amount".

(** The trimmed value and its issues. *)
Definition validate_trimmed (path value : string) (min max : Z)
    : string * list ValidationIssue :=
  let value := trim value in
  (value, require (between min (chars_count value) max) path
     ("Expected between " +:+ pretty min +:+ " and " +:+ pretty max +:+ " characters")).

Definition validate_printable (path value : string) : list ValidationIssue :=
  require (negb (chars_any is_control value)) path "Expected printable characters only".

(** The end of every validator. *)
Definition accept {A} (payload : A) (issues : list ValidationIssue)
    : A + list ValidationIssue :=
  match issues with [] => inl payload | _ => inr issues end.

(** [Result::map] on the accepted payload. *)
Definition map_ok {A B E} (f : A -> B) (r : A + E) : B + E :=
  match r with inl a => inl (f a) | inr e => inr e end.

(** ** Listings *)

Definition entity_message : string := "Expected a path-safe commerce identifier".
Definition pubky_message : string := "Expected a 52-character z-base-32 Pubky".

Definition validate_sync_listing (payload : SyncListingPayload)
    : CommandPayload + list ValidationIssue :=
  accept (SyncListing payload)
    (require (Pubky.is_valid_pubky (sl_seller_pubky payload)) "payload.seller_pubky"
       pubky_message ++
     require (entity_id_regex (sl_listing_id payload)) "payload.listing_id" entity_message).

Definition validate_sync_drop (payload : SyncDropPayload)
    : CommandPayload + list ValidationIssue :=
  accept (SyncDrop payload)
    (require (Pubky.is_valid_pubky (sd_seller_pubky payload)) "payload.seller_pubky"
       pubky_message ++
     require (entity_id_regex (sd_drop_id payload)) "payload.drop_id" entity_message).

Definition validate_auction_terms (unit_price : Money) (terms : AuctionTerms)
    : list ValidationIssue :=
  require (at_starts_at terms <? at_ends_at terms) "payload.auction_terms.ends_at"
    "Auction end must follow start" ++
  validate_positive_money "payload.auction_terms.minimum_increment"
    (at_minimum_increment terms) ++
  require (same_asset (at_minimum_increment terms) unit_price)
    "payload.auction_terms.minimum_increment"
    "Auction amounts must use the listing asset and exponent" ++
  require (between 0 (at_anti_sniping_window_seconds terms) 3600)
    "payload.auction_terms.anti_sniping_window_seconds"
    "Expected a window between 0 and 3600 seconds" ++
  require (between 0 (at_anti_sniping_extension_seconds terms) 3600)
    "payload.auction_terms.anti_sniping_extension_seconds"
    "Expected an extension between 0 and 3600 seconds".

Definition validate_reserve (unit_price : Money) (reserve : AuctionReserve)
    : list ValidationIssue :=
  require (between 0 (rs_expected_record_revision reserve) MAX_SAFE_INTEGER)
    "payload.auction_reserve.expected_record_revision"
    "Expected a non-negative reserve record revision" ++
  require (between 1 (rs_record_revision reserve) MAX_SAFE_INTEGER)
    "payload.auction_reserve.record_revision"
    "Expected a positive reserve record revision" ++
  match rs_reserve_price reserve with
  | None => []
  | Some reserve_price =>
      validate_positive_money "payload.auction_reserve.reserve_price" reserve_price ++
      if negb (same_asset reserve_price unit_price) then
        [issue "payload.auction_reserve.reserve_price"
           "Auction amounts must use the listing asset and exponent"]
      else
        require (amount_minor unit_price <=? amount_minor reserve_price)
          "payload.auction_reserve.reserve_price.amount_minor"
          "Auction reserve must not be below the opening price"
  end.

(** The uniqueness loop: one issue per repeated method. *)
Fixpoint repeated_methods (seen methods : list FulfillmentMethod) : list ValidationIssue :=
  match methods with
  | [] => []
  | m :: rest =>
      require (negb (bool_decide (m ∈ seen))) "payload.fulfillment_methods"
        "Fulfillment methods must be unique" ++
      repeated_methods (m :: seen) rest
  end.

Section Validation.
Context `{!Base32Crate}.
(** [url::Url::parse]: the scheme and the host of a URL. *)
Context (url_parse : string -> option (string * option string)).

(** The lock with its policy in canonical form. *)
Definition validate_digital_lock (lock : DigitalLockMetadata)
    : DigitalLockMetadata * list ValidationIssue :=
  let criterion :=
    require (entity_id_regex (dk_criterion_id lock)) "payload.digital_lock.criterionId"
      entity_message in
  match canonical_lock_resource (dk_policy_uri lock) with
  | Some canonical => (mkDigitalLock canonical (dk_criterion_id lock), criterion)
  | None =>
      (lock, issue "payload.digital_lock.policyUri" "Expected a canonical Locks public resource"
               :: criterion)
  end.

Definition validate_lock_option (lock : option DigitalLockMetadata)
    : option DigitalLockMetadata * list ValidationIssue :=
  match lock with
  | None => (None, [])
  | Some lock => let '(lock, issues) := validate_digital_lock lock in (Some lock, issues)
  end.

(** [is_auction != auction_terms.is_some()] is refused. *)
Definition terms_paired (payload : RegisterListingPayload) : bool :=
  Bool.eqb (bool_decide (rl_sale_format payload = Auction))
    (bool_decide (is_Some (rl_auction_terms payload))).

Definition reserve_paired (payload : RegisterListingPayload) (require_auction_reserve : bool)
    : bool :=
  let is_auction := bool_decide (rl_sale_format payload = Auction) in
  let has_auction_reserve := bool_decide (is_Some (rl_auction_reserve payload)) in
  negb ((negb is_auction && has_auction_reserve)
        || (require_auction_reserve && is_auction && negb has_auction_reserve)).

Definition shipping_only_auction (payload : RegisterListingPayload) : bool :=
  negb (bool_decide (rl_sale_format payload = Auction) &&
        negb (bool_decide (rl_fulfillment_methods payload = [Shipping]))).

Definition validate_listing_payload (payload : RegisterListingPayload)
    (require_auction_reserve : bool) : RegisterListingPayload + list ValidationIssue :=
  let '(title, title_issues) := validate_trimmed "payload.title" (rl_title payload) 1 80 in
  let '(lock, lock_issues) := validate_lock_option (rl_digital_lock payload) in
  accept
    (mkRegisterListing (rl_seller_pubky payload) (rl_listing_id payload) title
       (rl_listing_revision payload) (rl_content_hash payload) (rl_quantity payload)
       (rl_unit_price payload) (rl_shipping_minor payload) (rl_sale_format payload)
       (rl_auction_terms payload) (rl_auction_reserve payload)
       (rl_fulfillment_methods payload) lock)
    (require (Pubky.is_valid_pubky (rl_seller_pubky payload)) "payload.seller_pubky"
       pubky_message ++
     require (entity_id_regex (rl_listing_id payload)) "payload.listing_id" entity_message ++
     title_issues ++
     require (between 1 (rl_listing_revision payload) MAX_SAFE_INTEGER)
       "payload.listing_revision" "Expected a positive listing revision" ++
     require (content_hash_regex (rl_content_hash payload)) "payload.content_hash"
       "Expected a 64-character lowercase hex hash" ++
     require (between 1 (rl_quantity payload) 1000000) "payload.quantity"
       "Expected a quantity between 1 and 1000000" ++
     validate_positive_money "payload.unit_price" (rl_unit_price payload) ++
     require (between 0 (rl_shipping_minor payload) MAX_SAFE_INTEGER) "payload.shipping_minor"
       "Expected a non-negative shipping amount" ++
     require (terms_paired payload) "payload.auction_terms"
       "Auction format and terms must be configured together" ++
     require (reserve_paired payload require_auction_reserve) "payload.auction_reserve"
       "Auction format and reserve authority must be configured together" ++
     from_option (validate_auction_terms (rl_unit_price payload)) [] (rl_auction_terms payload) ++
     from_option (validate_reserve (rl_unit_price payload)) [] (rl_auction_reserve payload) ++
     require (nonempty (rl_fulfillment_methods payload)) "payload.fulfillment_methods"
       "Expected at least one fulfillment method" ++
     repeated_methods [] (rl_fulfillment_methods payload) ++
     require (shipping_only_auction payload) "payload.fulfillment_methods"
       "Auction listings are shipping-only" ++
     lock_issues).

Definition validate_register_listing_payload (payload : RegisterListingPayload) :=
  validate_listing_payload payload true.

Definition validate_public_listing_payload (payload : RegisterListingPayload) :=
  validate_listing_payload payload false.

Definition validate_register_listing (payload : RegisterListingPayload)
    : CommandPayload + list ValidationIssue :=
  map_ok RegisterListing (validate_register_listing_payload payload).

(** ** Reservations, offers, bids, payments *)

Definition quantity_issue (quantity : Z) : list ValidationIssue :=
  require (between 1 quantity 1000000) "payload.quantity"
    "Expected a quantity between 1 and 1000000".

Definition validate_reserve_inventory (payload : ReserveInventoryPayload)
    : CommandPayload + list ValidationIssue :=
  accept (ReserveInventory payload)
    (quantity_issue (ri_quantity payload) ++
     require (between 60 (ri_reservation_ttl_seconds payload) 1800)
       "payload.reservation_ttl_seconds"
       "Expected a reservation TTL between 60 and 1800 seconds").

Definition MAX_OFFER_TTL_SECONDS : Z := 7 * 24 * 60 * 60.

(** The trimmed message and the issues of the terms. *)
Definition validate_offer_terms (amount : Money) (quantity expires_in_seconds : Z)
    (message : string) : string * list ValidationIssue :=
  let '(message, message_issues) := validate_trimmed "payload.message" message 0 500 in
  (message,
   validate_positive_money "payload.amount" amount ++ quantity_issue quantity ++
   require (between 300 expires_in_seconds MAX_OFFER_TTL_SECONDS) "payload.expires_in_seconds"
     "Expected an offer lifetime between 300 and 604800 seconds" ++ message_issues).

Definition validate_create_offer (payload : OfferTermsPayload)
    : CommandPayload + list ValidationIssue :=
  let '(message, issues) :=
    validate_offer_terms (ot_amount payload) (ot_quantity payload)
      (ot_expires_in_seconds payload) (ot_message payload) in
  accept (CreateOffer (mkOfferTerms (ot_amount payload) (ot_quantity payload)
            (ot_expires_in_seconds payload) message)) issues.

Definition validate_counter_offer (payload : CounterOfferPayload)
    : CommandPayload + list ValidationIssue :=
  let '(message, issues) :=
    validate_offer_terms (co_amount payload) (co_quantity payload)
      (co_expires_in_seconds payload) (co_message payload) in
  accept (CounterOffer (mkCounterOffer (co_offer_id payload) (co_amount payload)
            (co_quantity payload) (co_expires_in_seconds payload) message)) issues.

Definition validate_place_bid (payload : PlaceBidPayload)
    : CommandPayload + list ValidationIssue :=
  accept (PlaceBid payload)
    (validate_positive_money "payload.maximum_amount" (pb_maximum_amount payload)).

Definition validate_advance_sandbox_payment (payload : AdvanceSandboxPaymentPayload)
    : CommandPayload + list ValidationIssue :=
  accept (AdvanceSandboxPayment payload)
    (require (between 0 (ap_confirmations payload) 6) "payload.confirmations"
       "Expected between 0 and 6 confirmations").

Definition validate_register_locks (payload : RegisterLocksPayload)
    : CommandPayload + list ValidationIssue :=
  accept (RegisterLocks payload)
    (require (crockford_bundle_id (rk_bundle_id payload)) "payload.bundle_id"
       "Expected a canonical 26-character Crockford-base32 bundle id").

(** ** Orders *)

Definition validate_request_cancellation (payload : RequestCancellationPayload)
    : CommandPayload + list ValidationIssue :=
  let '(reason, issues) := validate_trimmed "payload.reason" (rcn_reason payload) 1 500 in
  accept (RequestCancellation (mkRequestCancellation (rcn_order_id payload) reason)) issues.

Definition validate_ship_order (payload : ShipOrderPayload)
    : CommandPayload + list ValidationIssue :=
  let '(carrier, carrier_issues) := validate_trimmed "payload.carrier" (so_carrier payload) 1 100 in
  let '(tracking, tracking_issues) :=
    validate_trimmed "payload.tracking_number" (so_tracking_number payload) 1 200 in
  accept (ShipOrder (mkShipOrder (so_order_id payload) carrier tracking))
    (carrier_issues ++ validate_printable "payload.carrier" carrier ++
     tracking_issues ++ validate_printable "payload.tracking_number" tracking).

Definition validate_request_return (payload : RequestReturnPayload)
    : CommandPayload + list ValidationIssue :=
  let '(reason, issues) := validate_trimmed "payload.reason" (rq_reason payload) 1 1000 in
  accept (RequestReturn (mkRequestReturn (rq_order_id payload) reason
                           (rq_requested_amount_minor payload)))
    (issues ++
     require (between 1 (rq_requested_amount_minor payload) MAX_SAFE_INTEGER)
       "payload.requested_amount_minor" "Expected a positive requested amount").

Definition validate_record_external_refund (payload : RecordExternalRefundPayload)
    : CommandPayload + list ValidationIssue :=
  let '(transaction_id, issues) :=
    validate_trimmed "payload.transaction_id" (rf_transaction_id payload) 8 200 in
  accept (RecordExternalRefund (mkRecordRefund (rf_order_id payload) (rf_amount_minor payload)
                                  transaction_id))
    (require (between 1 (rf_amount_minor payload) MAX_SAFE_INTEGER) "payload.amount_minor"
       "Expected a positive refund amount" ++ issues).

Definition validate_review_terms (payload : ReviewTermsPayload)
    (wrap : ReviewTermsPayload -> CommandPayload) : CommandPayload + list ValidationIssue :=
  let '(text, issues) := validate_trimmed "payload.text" (rv_text payload) 1 5000 in
  accept (wrap (mkReviewTerms (rv_order_id payload) (rv_rating payload) text
                  (rv_allow_amount_band payload)))
    (require (between 1 (rv_rating payload) 5) "payload.rating"
       "Expected a rating between 1 and 5" ++ issues).

(** ** Addresses *)

(** The region as stored, and its issues. *)
Definition validate_region (path country_code region : string) : string * list ValidationIssue :=
  if negb (country_code_regex country_code) then
    let region := trim region in
    (region,
     issue (path +:+ ".country_code") "Expected an ISO 3166-1 alpha-2 country code" ::
     require (chars_count region <=? 100) (path +:+ ".region") "Expected at most 100 characters")
  else
    match canonicalize_region country_code region with
    | inl region => (region, [])
    | inr message => (region, [issue (path +:+ ".region") message])
    end.

Definition validate_delivery_address (path : string) (address : DeliveryAddress)
    : DeliveryAddress * list ValidationIssue :=
  let '(name, e1) := validate_trimmed (path +:+ ".name") (da_name address) 1 100 in
  let '(line1, e2) := validate_trimmed (path +:+ ".line1") (da_line1 address) 1 200 in
  let '(line2, e3) := validate_trimmed (path +:+ ".line2") (da_line2 address) 0 200 in
  let '(city, e4) := validate_trimmed (path +:+ ".city") (da_city address) 1 100 in
  let '(postal, e5) := validate_trimmed (path +:+ ".postal_code") (da_postal_code address) 1 32 in
  let '(region, e6) := validate_region path (da_country_code address) (da_region address) in
  (mkDeliveryAddress name line1 line2 city region postal (da_country_code address),
   e1 ++ e2 ++ e3 ++ e4 ++ e5 ++ e6).

Definition validate_offer_checkout (payload : OfferCheckoutPayload)
    : CommandPayload + list ValidationIssue :=
  let '(address, address_issues) :=
    match default Shipping (oc_fulfillment payload), oc_delivery_address payload with
    | Shipping, Some address =>
        let '(address, issues) := validate_delivery_address "payload.delivery_address" address in
        (Some address, issues)
    | Shipping, None =>
        (None, [issue "payload.delivery_address"
                  "A delivery address is required when the offer ships"])
    | Pickup, Some address =>
        (Some address, [issue "payload.delivery_address"
                          "A pickup offer checkout must not carry a delivery address"])
    | Pickup, None => (None, [])
    | Digital, address =>
        (address, [issue "payload.fulfillment" "Offer checkout supports shipping or pickup"])
    end in
  accept
    (OfferCheckout (mkOfferCheckout (oc_offer_id payload) (oc_award_id payload)
       (oc_listing_aggregate_id payload) (oc_listing_revision payload)
       (oc_listing_record_sha256 payload) (oc_variant_id payload) (oc_quantity payload)
       address (oc_fulfillment payload) (oc_guarantee_policy_version payload)))
    (require (aggregate_id_regex (oc_listing_aggregate_id payload))
       "payload.listing_aggregate_id" "Expected type:identifier aggregate format" ++
     require (between 1 (oc_listing_revision payload) MAX_SAFE_INTEGER)
       "payload.listing_revision" "Expected a positive listing revision" ++
     require (content_hash_regex (oc_listing_record_sha256 payload))
       "payload.listing_record_sha256" "Expected a 64-character lowercase hex hash" ++
     require (entity_id_regex (oc_variant_id payload)) "payload.variant_id" entity_message ++
     quantity_issue (oc_quantity payload) ++
     address_issues ++
     require (oc_guarantee_policy_version payload =? 1) "payload.guarantee_policy_version"
       "Expected guarantee policy version 1").

(** ** Pickup details *)

Definition WEEKDAYS : list string := ["mon"; "tue"; "wed"; "thu"; "fri"; "sat"; "sun"].

Definition validate_window (index : nat) (window : PickupWindow) : list ValidationIssue :=
  let path := "payload.details.availability.windows." +:+ pretty index in
  let time_message := "Expected a 24-hour HH:MM wall-clock time" in
  require (existsb (String.eqb (pw_day window)) WEEKDAYS) (path +:+ ".day")
    "Expected a weekday (mon..sun)" ++
  require (hhmm_regex (pw_start window)) (path +:+ ".start") time_message ++
  require (hhmm_regex (pw_end window)) (path +:+ ".end") time_message ++
  require (negb (hhmm_regex (pw_start window) && hhmm_regex (pw_end window) &&
                 String.leb (pw_end window) (pw_start window)))
    (path +:+ ".end") "Window end must follow start".

(** [for (index, x) in l.iter().enumerate()], from [index] on. *)
Fixpoint validate_each {A} (f : nat -> A -> list ValidationIssue) (index : nat) (l : list A)
    : list ValidationIssue :=
  match l with
  | [] => []
  | x :: rest => f index x ++ validate_each f (S index) rest
  end.

(** The address and the spot of a place, by its kind. *)
Definition validate_place (details : PickupDetails)
    : option DeliveryAddress * option string * list ValidationIssue :=
  match pd_kind details with
  | KAddress =>
      let '(address, issues) :=
        match pd_address details with
        | Some address =>
            let '(address, issues) := validate_delivery_address "payload.details.address" address in
            (Some address, issues)
        | None => (None, [issue "payload.details.address"
                            "Address-kind pickup details require an address"])
        end in
      (address, pd_spot details,
       issues ++
       require (negb (bool_decide (is_Some (pd_spot details)))) "payload.details.spot"
         "Address-kind pickup details cannot carry a spot")
  | KSpot =>
      let '(spot, issues) :=
        match pd_spot details with
        | Some spot =>
            let '(spot, issues) := validate_trimmed "payload.details.spot" spot 1 200 in
            (Some spot, issues ++ validate_printable "payload.details.spot" spot)
        | None => (None, [issue "payload.details.spot"
                            "Spot-kind pickup details require a meeting point"])
        end in
      (pd_address details, spot,
       issues ++
       require (negb (bool_decide (is_Some (pd_address details)))) "payload.details.address"
         "Spot-kind pickup details cannot carry an address")
  end.

Definition validate_pickup_details (details : PickupDetails)
    : PickupDetails * list ValidationIssue :=
  let '(address, spot, place_issues) := validate_place details in
  let '(instructions, instruction_issues) :=
    validate_trimmed "payload.details.instructions" (pd_instructions details) 0 1000 in
  let '(zone, zone_issues) :=
    validate_trimmed "payload.details.availability.zone" (pv_zone (pd_availability details)) 3 64 in
  let windows := pv_windows (pd_availability details) in
  (mkPickupDetails (pd_kind details) address spot instructions (mkPickupAvailability windows zone),
   place_issues ++ instruction_issues ++
   validate_printable "payload.details.instructions" instructions ++
   zone_issues ++ validate_printable "payload.details.availability.zone" zone ++
   require (chars_any (Z.eqb 47) zone) "payload.details.availability.zone"
     "Expected an IANA timezone (Area/City)" ++
   match windows with
   | None => []
   | Some windows =>
       require (nonempty windows && (length windows <=? 14)%nat)
         "payload.details.availability.windows"
         "Expected between 1 and 14 availability windows" ++
       validate_each validate_window 0 windows
   end).

Definition version_message : string := "Expected a non-negative details version".

Definition validate_set_pickup_details (payload : SetPickupDetailsPayload)
    : CommandPayload + list ValidationIssue :=
  let '(details, issues) := validate_pickup_details (sp_details payload) in
  accept (SetPickupDetails (mkSetPickupDetails (sp_expected_version payload) details))
    (require (between 0 (sp_expected_version payload) MAX_SAFE_INTEGER)
       "payload.expected_version" version_message ++ issues).

Definition validate_clear_pickup_details (payload : ClearPickupDetailsPayload)
    : CommandPayload + list ValidationIssue :=
  accept (ClearPickupDetails payload)
    (require (between 0 (cp_expected_version payload) MAX_SAFE_INTEGER)
       "payload.expected_version" version_message).

(** ** Digital deliverables *)

Definition DIGITAL_TEXT_MAX_CHARS : Z := 4000.
Definition DIGITAL_LINK_MAX_CHARS : Z := 2048.
Definition DIGITAL_FILE_NAME_MAX_CHARS : Z := 255.
Definition DIGITAL_CONTENT_TYPE_MAX_CHARS : Z := 127.

Definition is_lower_hex (value : string) (len : Z) : bool :=
  (byte_len value =? len) && bytes_all hex_class value.

Definition is_valid_deliverable_id (value : string) : bool := is_lower_hex value 32.

Definition is_valid_content_type (value : string) : bool :=
  match split_once 47 (bytes value) with
  | None => false
  | Some (kind, subtype) =>
      let token part :=
        nonempty part &&
        forallb (fun b => is_upper b || is_lower b || is_digit b ||
                   existsb (Z.eqb b) [33; 35; 36; 38; 45; 94; 95; 46; 43]) part in
      (byte_len value <=? DIGITAL_CONTENT_TYPE_MAX_CHARS) && token kind && token subtype
  end.

Definition is_valid_file_name (value : string) : bool :=
  between 1 (chars_count value) DIGITAL_FILE_NAME_MAX_CHARS &&
  (trim value =? value)%string && negb (value =? ".")%string && negb (value =? "..")%string &&
  negb (chars_any (fun c => is_control c || (c =? 47) || (c =? 92)) value).

Definition is_valid_digital_link (value : string) : bool :=
  if (DIGITAL_LINK_MAX_CHARS <? chars_count value)
     || chars_any (fun c => is_control c || is_whitespace c) value then false
  else
    match url_parse value with
    | Some (scheme, host) =>
        (scheme =? "https")%string &&
        match host with Some host => negb (host =? "")%string | None => false end
    | None => false
    end.

Definition hex_message (n : string) : string :=
  "Expected " +:+ n +:+ " lowercase hexadecimal characters".

Definition validate_digital_file (expected_version : Z) (file : DigitalFile)
    : list ValidationIssue :=
  require (is_valid_deliverable_id (df_deliverable_id file)) "payload.delivery.deliverable_id"
    (hex_message "32") ++
  require (df_version file =? wrap64 (expected_version + 1)) "payload.delivery.version"
    "Expected the next delivery version" ++
  require (is_lower_hex (df_key file) 64) "payload.delivery.key" (hex_message "64") ++
  require (is_lower_hex (df_iv file) 24) "payload.delivery.iv" (hex_message "24") ++
  require (is_lower_hex (df_ciphertext_blake3 file) 64) "payload.delivery.ciphertext_blake3"
    (hex_message "64") ++
  require (is_lower_hex (df_plaintext_blake3 file) 64) "payload.delivery.plaintext_blake3"
    (hex_message "64") ++
  require (1 <=? df_size_bytes file) "payload.delivery.size_bytes"
    "Expected a positive file size" ++
  require (is_valid_content_type (df_content_type file)) "payload.delivery.content_type"
    "Expected a MIME type such as application/pdf" ++
  require (is_valid_file_name (df_file_name file)) "payload.delivery.file_name"
    "Expected a file name of 1-255 characters without slashes or control characters".

Definition validate_set_digital_delivery (payload : SetDigitalDeliveryPayload)
    : CommandPayload + list ValidationIssue :=
  accept (SetDigitalDelivery payload)
    (require ((0 <=? sg_expected_version payload) && (sg_expected_version payload <? MAX_SAFE_INTEGER))
       "payload.expected_version" "Expected a non-negative delivery version" ++
     match sg_delivery payload with
     | DeliverFile file => validate_digital_file (sg_expected_version payload) file
     | DeliverLink url =>
         require (is_valid_digital_link url) "payload.delivery.url"
           "Expected an https:// link of at most 2048 characters"
     | DeliverText text =>
         require (negb ((trim text =? "")%string || (DIGITAL_TEXT_MAX_CHARS <? chars_count text)
                        || chars_any (Z.eqb 0) text))
           "payload.delivery.text" "Expected 1-4000 characters of text"
     | DeliverEmail | DeliverMessage => []
     end).

Definition validate_clear_digital_delivery (payload : ClearDigitalDeliveryPayload)
    : CommandPayload + list ValidationIssue :=
  accept (ClearDigitalDelivery payload)
    (require (between 0 (cg_expected_version payload) MAX_SAFE_INTEGER)
       "payload.expected_version" "Expected a non-negative delivery version").

(** ** Checkout *)

Definition validate_variant_option (path : string) (option_ : string * string)
    : (string * string) * list ValidationIssue :=
  let '(name, name_issues) := validate_trimmed (path +:+ ".name") (fst option_) 1 40 in
  let '(value, value_issues) := validate_trimmed (path +:+ ".value") (snd option_) 1 80 in
  ((name, value),
   name_issues ++ value_issues ++ validate_printable (path +:+ ".name") name ++
   validate_printable (path +:+ ".value") value).

(** The normalized elements of an enumerated [iter_mut] loop, and its issues. *)
Fixpoint validate_map {A} (f : nat -> A -> A * list ValidationIssue) (index : nat) (l : list A)
    : list A * list ValidationIssue :=
  match l with
  | [] => ([], [])
  | x :: rest =>
      let '(x, issues) := f index x in
      let '(rest, rest_issues) := validate_map f (S index) rest in
      (x :: rest, issues ++ rest_issues)
  end.

Definition validate_variant_options (path : string) (variant_id : option string)
    (options : option (list (string * string)))
    : option (list (string * string)) * list ValidationIssue :=
  match options with
  | None => (None, [])
  | Some options =>
      let path := path +:+ ".variant_options" in
      let '(normal, issues) :=
        validate_map (fun i => validate_variant_option (path +:+ "." +:+ pretty i)) 0 options in
      (Some normal,
       require (bool_decide (is_Some variant_id)) path "Variant options require a variant id" ++
       require (nonempty options && (length options <=? 3)%nat) path
         "Expected between 1 and 3 variant options" ++ issues)
  end.

(** The body of the loop over the lines; [seen] are the listings of the lines
    before it. *)
Definition validate_line (seen : list string) (index : nat) (line : CheckoutLine)
    : CheckoutLine * list ValidationIssue :=
  let path := "payload.lines." +:+ pretty index in
  let '(options, option_issues) :=
    validate_variant_options path (cl_variant_id line) (cl_variant_options line) in
  (mkCheckoutLine (cl_listing_aggregate_id line) (cl_expected_revision line) (cl_quantity line)
     (cl_variant_id line) options (cl_fulfillment line),
   require (aggregate_id_regex (cl_listing_aggregate_id line)) (path +:+ ".listing_aggregate_id")
     "Expected type:identifier aggregate format" ++
   require (between 1 (cl_expected_revision line) MAX_SAFE_INTEGER) (path +:+ ".expected_revision")
     "Expected a positive expected revision" ++
   require (between 1 (cl_quantity line) 1000000) (path +:+ ".quantity")
     "Expected a quantity between 1 and 1000000" ++
   match cl_variant_id line with
   | Some variant_id => require (entity_id_regex variant_id) (path +:+ ".variant_id") entity_message
   | None => []
   end ++
   option_issues ++
   require (negb (existsb (String.eqb (cl_listing_aggregate_id line)) seen)) "payload.lines"
     "Checkout listing lines must be unique").

Fixpoint validate_lines (seen : list string) (index : nat) (lines : list CheckoutLine)
    : list CheckoutLine * list ValidationIssue :=
  match lines with
  | [] => ([], [])
  | line :: rest =>
      let '(line', issues) := validate_line seen index line in
      let '(rest', rest_issues) :=
        validate_lines (cl_listing_aggregate_id line :: seen) (S index) rest in
      (line' :: rest', issues ++ rest_issues)
  end.

Definition ships (line : CheckoutLine) : bool :=
  match cl_fulfillment line with None | Some Shipping => true | _ => false end.

Definition validate_checkout_address (lines : list CheckoutLine)
    (delivery_address : option DeliveryAddress) : option DeliveryAddress * list ValidationIssue :=
  match delivery_address, existsb ships lines with
  | Some address, true =>
      let '(address, issues) := validate_delivery_address "payload.delivery_address" address in
      (Some address, issues)
  | Some address, false =>
      (Some address,
       [issue "payload.delivery_address"
          (if forallb (fun line => bool_decide (cl_fulfillment line = Some Pickup)) lines
           then "A pickup-only checkout must not carry a delivery address"
           else "A checkout with no shipped line must not carry a delivery address")])
  | None, true =>
      (None, [issue "payload.delivery_address"
                "A delivery address is required when any checkout line ships"])
  | None, false => (None, [])
  end.

Definition validate_create_checkout (payload : CreateCheckoutPayload)
    : CommandPayload + list ValidationIssue :=
  let '(lines, line_issues) := validate_lines [] 0 (cc_lines payload) in
  let '(address, address_issues) :=
    validate_checkout_address lines (cc_delivery_address payload) in
  accept
    (CreateCheckout (mkCreateCheckout lines address (cc_delivery_email payload)
                       (cc_guarantee_policy_version payload)))
    (require (nonempty (cc_lines payload) && (length (cc_lines payload) <=? 50)%nat)
       "payload.lines" "Expected between 1 and 50 checkout lines" ++
     line_issues ++ address_issues ++
     require (cc_guarantee_policy_version payload =? 1) "payload.guarantee_policy_version"
       "Expected guarantee policy version 1").

(** ** The command *)

(** The validator of a payload, by its kind. *)
Definition validate_payload (payload : CommandPayload) : CommandPayload + list ValidationIssue :=
  match payload with
  | RegisterListing p => validate_register_listing p
  | SyncListing p => validate_sync_listing p
  | SyncDrop p => validate_sync_drop p
  | ReserveInventory p => validate_reserve_inventory p
  | CreateCheckout p => validate_create_checkout p
  | CreateOffer p => validate_create_offer p
  | CounterOffer p => validate_counter_offer p
  | OfferCheckout p => validate_offer_checkout p
  | PlaceBid p => validate_place_bid p
  | AdvanceSandboxPayment p => validate_advance_sandbox_payment p
  | RegisterLocks p => validate_register_locks p
  | RequestCancellation p => validate_request_cancellation p
  | ShipOrder p => validate_ship_order p
  | SetPickupDetails p => validate_set_pickup_details p
  | ClearPickupDetails p => validate_clear_pickup_details p
  | SetDigitalDelivery p => validate_set_digital_delivery p
  | ClearDigitalDelivery p => validate_clear_digital_delivery p
  | RequestReturn p => validate_request_return p
  | RecordExternalRefund p => validate_record_external_refund p
  | CreateReview p => validate_review_terms p CreateReview
  | UpdateReview p => validate_review_terms p UpdateReview
  | CancelDrop | ReleaseDropListings | AcceptOffer _ | RejectOffer _ | WithdrawOffer _
  | CloseAuction | PrepareLocks _ | ApproveCancellation _ | ConfirmDelivery _
  | SetDeliveryEmail _ | DeliverDigital _ | MarkReadyForPickup _ | ConfirmPickup _
  | ApproveReturn _ | ReceiveReturn _ | SetBandConsent _ => inl payload
  end.
End Validation.

(** ** Deserialization *)

Record RawEnvelope (Value : Type) := mkEnvelope {
  env_version : Z;
  env_command_id : Uuid;
  env_aggregate_id : string;
  env_expected_revision : Z;
  env_issued_at : Time;
  env_kind : string;
  env_payload : Value;
}.
Arguments mkEnvelope {Value}.
Arguments env_version {Value}.
Arguments env_command_id {Value}.
Arguments env_aggregate_id {Value}.
Arguments env_expected_revision {Value}.
Arguments env_issued_at {Value}.
Arguments env_kind {Value}.
Arguments env_payload {Value}.

(** The types with a derived [Deserialize] that [parse_payload] reads; the
    empty payloads are the unit. *)
Inductive Deserialize : Type -> Type :=
| de_register_listing : Deserialize RegisterListingPayload
| de_sync_listing : Deserialize SyncListingPayload
| de_sync_drop : Deserialize SyncDropPayload
| de_empty : Deserialize unit
| de_reserve_inventory : Deserialize ReserveInventoryPayload
| de_create_checkout : Deserialize CreateCheckoutPayload
| de_offer_terms : Deserialize OfferTermsPayload
| de_counter_offer : Deserialize CounterOfferPayload
| de_offer_action : Deserialize OfferActionPayload
| de_offer_checkout : Deserialize OfferCheckoutPayload
| de_place_bid : Deserialize PlaceBidPayload
| de_advance_payment : Deserialize AdvanceSandboxPaymentPayload
| de_prepare_locks : Deserialize PrepareLocksPayload
| de_register_locks : Deserialize RegisterLocksPayload
| de_request_cancellation : Deserialize RequestCancellationPayload
| de_order_action : Deserialize OrderActionPayload
| de_ship_order : Deserialize ShipOrderPayload
| de_set_pickup_details : Deserialize SetPickupDetailsPayload
| de_clear_pickup_details : Deserialize ClearPickupDetailsPayload
| de_set_digital_delivery : Deserialize SetDigitalDeliveryPayload
| de_clear_digital_delivery : Deserialize ClearDigitalDeliveryPayload
| de_set_delivery_email : Deserialize SetDeliveryEmailPayload
| de_deliver_digital : Deserialize DeliverDigitalPayload
| de_request_return : Deserialize RequestReturnPayload
| de_record_refund : Deserialize RecordExternalRefundPayload
| de_review_terms : Deserialize ReviewTermsPayload
| de_set_band_consent : Deserialize SetBandConsentPayload.

(** [serde_json::from_value]: a typed value, or the text of the error. *)
Class Serde := {
  Value : Type;
  from_envelope : Value -> RawEnvelope Value + string;
  from_value : forall {T}, Deserialize T -> Value -> T + string;
}.

Definition COMMERCE_CONTRACT_VERSION : Z := 1.

Section Parse.
Context `{!Base32Crate, !Serde} (url_parse : string -> option (string * option string)).

Definition parse_payload {T} (d : Deserialize T) (value : Value) : T + list ValidationIssue :=
  match from_value d value with
  | inl payload => inl payload
  | inr error => inr [issue "payload" ("Invalid payload: " +:+ error)]
  end.

(** One arm of the match on the kind: parse, wrap, validate. *)
Definition arm {T} (d : Deserialize T) (wrap : T -> CommandPayload) (value : Value)
    : CommandPayload + list ValidationIssue :=
  and_then (parse_payload d value) (fun p => validate_payload url_parse (wrap p)).

(** The arms of the match, in the order of the source. *)
Definition arms : list (string * (Value -> CommandPayload + list ValidationIssue)) :=
  [("listing.register", arm de_register_listing RegisterListing);
   ("listing.sync", arm de_sync_listing SyncListing);
   ("drop.sync", arm de_sync_drop SyncDrop);
   ("drop.cancel", arm de_empty (fun _ => CancelDrop));
   ("drop.release_listings", arm de_empty (fun _ => ReleaseDropListings));
   ("inventory.reserve", arm de_reserve_inventory ReserveInventory);
   ("checkout.create", arm de_create_checkout CreateCheckout);
   ("offer.create", arm de_offer_terms CreateOffer);
   ("offer.counter", arm de_counter_offer CounterOffer);
   ("offer.accept", arm de_offer_action AcceptOffer);
   ("offer.checkout", arm de_offer_checkout OfferCheckout);
   ("offer.reject", arm de_offer_action RejectOffer);
   ("offer.withdraw", arm de_offer_action WithdrawOffer);
   ("auction.place_bid", arm de_place_bid PlaceBid);
   ("auction.close", arm de_empty (fun _ => CloseAuction));
   ("payment.sandbox_advance", arm de_advance_payment AdvanceSandboxPayment);
   ("payment.prepare_locks", arm de_prepare_locks PrepareLocks);
   ("payment.register_locks", arm de_register_locks RegisterLocks);
   ("order.cancel_request", arm de_request_cancellation RequestCancellation);
   ("order.cancel_approve", arm de_order_action ApproveCancellation);
   ("fulfillment.ship", arm de_ship_order ShipOrder);
   ("fulfillment.confirm_delivery", arm de_order_action ConfirmDelivery);
   ("pickup_details.set", arm de_set_pickup_details SetPickupDetails);
   ("pickup_details.clear", arm de_clear_pickup_details ClearPickupDetails);
   ("digital_delivery.set", arm de_set_digital_delivery SetDigitalDelivery);
   ("digital_delivery.clear", arm de_clear_digital_delivery ClearDigitalDelivery);
   ("order.set_delivery_email", arm de_set_delivery_email SetDeliveryEmail);
   ("fulfillment.deliver_digital", arm de_deliver_digital DeliverDigital);
   ("fulfillment.mark_ready", arm de_order_action MarkReadyForPickup);
   ("fulfillment.confirm_pickup", arm de_order_action ConfirmPickup);
   ("return.request", arm de_request_return RequestReturn);
   ("return.approve", arm de_order_action ApproveReturn);
   ("return.receive", arm de_order_action ReceiveReturn);
   ("refund.record_external", arm de_record_refund RecordExternalRefund);
   ("review.create", arm de_review_terms CreateReview);
   ("review.update", arm de_review_terms UpdateReview);
   ("attestation.set_band_consent", arm de_set_band_consent SetBandConsent)].

Definition envelope_issues (envelope : RawEnvelope Value) : list ValidationIssue :=
  require (env_version envelope =? COMMERCE_CONTRACT_VERSION) "version"
    "Unsupported command version" ++
  require (aggregate_id_regex (env_aggregate_id envelope)) "aggregate_id"
    "Expected type:identifier aggregate format" ++
  require (between 0 (env_expected_revision envelope) MAX_SAFE_INTEGER) "expected_revision"
    "Expected a non-negative revision".

Definition parse_command (raw : Value) : Command + list ValidationIssue :=
  match from_envelope raw with
  | inr error => inr [issue "" ("Invalid envelope: " +:+ error)]
  | inl envelope =>
      and_then (accept envelope (envelope_issues envelope)) (fun envelope =>
        match find (fun a => fst a =? env_kind envelope)%string arms with
        | Some (_, parse) =>
            map_ok
              (mkCommand (env_command_id envelope) (env_aggregate_id envelope)
                 (env_expected_revision envelope) (env_issued_at envelope))
              (parse (env_payload envelope))
        | None => inr [issue "kind" "Unsupported command kind"]
        end)
  end.
End Parse.

Definition validate_actor (actor : string) : unit + list ValidationIssue :=
  accept tt (require (Pubky.is_valid_pubky actor) "actor" pubky_message).
