(* ===== verification/ValidPayloads.v ===== *)
(** * What validation guarantees

    [valid_payload] states the rules of every command kind as propositions.
    The validators accept a payload unchanged exactly when it satisfies them,
    and what they accept after trimming and canonicalizing is such a payload:
    the later components rely on these facts and not on the validators. *)

From stdpp Require Import pretty.
From S2P Require Import Prelude Domain Pubky Store Commands Text Json Postal LockResource.
From S2P Require Import Validation.

Arguments validate_trimmed : simpl never.
Arguments validate_delivery_address : simpl never.
Arguments validate_variant_option : simpl never.
Arguments validate_line : simpl never.

(** ** The rules *)

Definition text_ok (min max : Z) (s : string) : Prop :=
  trim s = s /\ min <= chars_count s <= max.

Definition printable (s : string) : Prop := chars_any is_control s = false.

Definition money_ok (m : Money) : Prop :=
  0 < amount_minor m <= MAX_SAFE_INTEGER /\ currency_regex (currency m) = true /\
  0 <= exponent m <= 18.

Definition address_ok (a : DeliveryAddress) : Prop :=
  text_ok 1 100 (da_name a) /\ text_ok 1 200 (da_line1 a) /\ text_ok 0 200 (da_line2 a) /\
  text_ok 1 100 (da_city a) /\ text_ok 1 32 (da_postal_code a) /\
  country_code_regex (da_country_code a) = true /\
  canonicalize_region (da_country_code a) (da_region a) = inl (da_region a).

Definition terms_ok (unit_price : Money) (t : AuctionTerms) : Prop :=
  at_starts_at t < at_ends_at t /\ money_ok (at_minimum_increment t) /\
  same_asset (at_minimum_increment t) unit_price = true /\
  0 <= at_anti_sniping_window_seconds t <= 3600 /\
  0 <= at_anti_sniping_extension_seconds t <= 3600.

Definition reserve_ok (unit_price : Money) (r : AuctionReserve) : Prop :=
  0 <= rs_expected_record_revision r <= MAX_SAFE_INTEGER /\
  1 <= rs_record_revision r <= MAX_SAFE_INTEGER /\
  forall m, rs_reserve_price r = Some m ->
    money_ok m /\ same_asset m unit_price = true /\ amount_minor unit_price <= amount_minor m.

(** A registration; [reserve] tells whether an auction must bring its
    reserve. *)
Definition registration_ok `{!Base32Crate} (reserve : bool) (p : RegisterListingPayload) : Prop :=
  Pubky.is_valid_pubky (rl_seller_pubky p) = true /\
  entity_id_regex (rl_listing_id p) = true /\
  text_ok 1 80 (rl_title p) /\
  1 <= rl_listing_revision p <= MAX_SAFE_INTEGER /\
  content_hash_regex (rl_content_hash p) = true /\
  1 <= rl_quantity p <= 1000000 /\
  money_ok (rl_unit_price p) /\
  0 <= rl_shipping_minor p <= MAX_SAFE_INTEGER /\
  (rl_sale_format p = Auction <-> is_Some (rl_auction_terms p)) /\
  (is_Some (rl_auction_reserve p) -> rl_sale_format p = Auction) /\
  (reserve = true -> rl_sale_format p = Auction -> is_Some (rl_auction_reserve p)) /\
  (forall t, rl_auction_terms p = Some t -> terms_ok (rl_unit_price p) t) /\
  (forall r, rl_auction_reserve p = Some r -> reserve_ok (rl_unit_price p) r) /\
  rl_fulfillment_methods p <> [] /\ NoDup (rl_fulfillment_methods p) /\
  (rl_sale_format p = Auction -> rl_fulfillment_methods p = [Shipping]) /\
  (forall k, rl_digital_lock p = Some k ->
     canonical_lock_resource (dk_policy_uri k) = Some (dk_policy_uri k) /\
     entity_id_regex (dk_criterion_id k) = true).

Definition offer_terms_ok (amount : Money) (quantity expires_in_seconds : Z) (message : string)
    : Prop :=
  money_ok amount /\ 1 <= quantity <= 1000000 /\
  300 <= expires_in_seconds <= MAX_OFFER_TTL_SECONDS /\ text_ok 0 500 message.

Definition offer_checkout_ok (p : OfferCheckoutPayload) : Prop :=
  aggregate_id_regex (oc_listing_aggregate_id p) = true /\
  1 <= oc_listing_revision p <= MAX_SAFE_INTEGER /\
  content_hash_regex (oc_listing_record_sha256 p) = true /\
  entity_id_regex (oc_variant_id p) = true /\
  1 <= oc_quantity p <= 1000000 /\
  match default Shipping (oc_fulfillment p), oc_delivery_address p with
  | Shipping, Some address => address_ok address
  | Pickup, None => True
  | _, _ => False
  end /\
  oc_guarantee_policy_version p = 1.

Definition window_ok (w : PickupWindow) : Prop :=
  In (pw_day w) WEEKDAYS /\ hhmm_regex (pw_start w) = true /\ hhmm_regex (pw_end w) = true /\
  String.leb (pw_end w) (pw_start w) = false.

Definition pickup_details_ok (d : PickupDetails) : Prop :=
  match pd_kind d, pd_address d, pd_spot d with
  | KAddress, Some address, None => address_ok address
  | KSpot, None, Some spot => text_ok 1 200 spot /\ printable spot
  | _, _, _ => False
  end /\
  text_ok 0 1000 (pd_instructions d) /\ printable (pd_instructions d) /\
  text_ok 3 64 (pv_zone (pd_availability d)) /\ printable (pv_zone (pd_availability d)) /\
  chars_any (Z.eqb 47) (pv_zone (pd_availability d)) = true /\
  (forall ws, pv_windows (pd_availability d) = Some ws ->
     (1 <= length ws <= 14)%nat /\ Forall window_ok ws).

Definition digital_file_ok (expected_version : Z) (f : DigitalFile) : Prop :=
  is_valid_deliverable_id (df_deliverable_id f) = true /\
  df_version f = expected_version + 1 /\
  is_lower_hex (df_key f) 64 = true /\ is_lower_hex (df_iv f) 24 = true /\
  is_lower_hex (df_ciphertext_blake3 f) 64 = true /\
  is_lower_hex (df_plaintext_blake3 f) 64 = true /\
  1 <= df_size_bytes f /\
  is_valid_content_type (df_content_type f) = true /\ is_valid_file_name (df_file_name f) = true.

Definition variant_option_ok (o : string * string) : Prop :=
  text_ok 1 40 (fst o) /\ text_ok 1 80 (snd o) /\ printable (fst o) /\ printable (snd o).

Definition line_ok (l : CheckoutLine) : Prop :=
  aggregate_id_regex (cl_listing_aggregate_id l) = true /\
  1 <= cl_expected_revision l <= MAX_SAFE_INTEGER /\
  1 <= cl_quantity l <= 1000000 /\
  (forall v, cl_variant_id l = Some v -> entity_id_regex v = true) /\
  (forall os, cl_variant_options l = Some os ->
     is_Some (cl_variant_id l) /\ (1 <= length os <= 3)%nat /\ Forall variant_option_ok os).

Definition checkout_ok (p : CreateCheckoutPayload) : Prop :=
  (1 <= length (cc_lines p) <= 50)%nat /\ Forall line_ok (cc_lines p) /\
  NoDup (map cl_listing_aggregate_id (cc_lines p)) /\
  match cc_delivery_address p, existsb ships (cc_lines p) with
  | Some address, true => address_ok address
  | None, false => True
  | _, _ => False
  end /\
  cc_guarantee_policy_version p = 1.

Definition review_terms_ok (p : ReviewTermsPayload) : Prop :=
  1 <= rv_rating p <= 5 /\ text_ok 1 5000 (rv_text p).

Section Valid.
Context `{!Base32Crate} (url_parse : string -> option (string * option string)).

Definition valid_payload (payload : CommandPayload) : Prop :=
  match payload with
  | RegisterListing p => registration_ok true p
  | SyncListing p =>
      Pubky.is_valid_pubky (sl_seller_pubky p) = true /\ entity_id_regex (sl_listing_id p) = true
  | SyncDrop p =>
      Pubky.is_valid_pubky (sd_seller_pubky p) = true /\ entity_id_regex (sd_drop_id p) = true
  | ReserveInventory p =>
      1 <= ri_quantity p <= 1000000 /\ 60 <= ri_reservation_ttl_seconds p <= 1800
  | CreateCheckout p => checkout_ok p
  | CreateOffer p =>
      offer_terms_ok (ot_amount p) (ot_quantity p) (ot_expires_in_seconds p) (ot_message p)
  | CounterOffer p =>
      offer_terms_ok (co_amount p) (co_quantity p) (co_expires_in_seconds p) (co_message p)
  | OfferCheckout p => offer_checkout_ok p
  | PlaceBid p => money_ok (pb_maximum_amount p)
  | AdvanceSandboxPayment p => 0 <= ap_confirmations p <= 6
  | RegisterLocks p => crockford_bundle_id (rk_bundle_id p) = true
  | RequestCancellation p => text_ok 1 500 (rcn_reason p)
  | ShipOrder p =>
      text_ok 1 100 (so_carrier p) /\ printable (so_carrier p) /\
      text_ok 1 200 (so_tracking_number p) /\ printable (so_tracking_number p)
  | SetPickupDetails p =>
      0 <= sp_expected_version p <= MAX_SAFE_INTEGER /\ pickup_details_ok (sp_details p)
  | ClearPickupDetails p => 0 <= cp_expected_version p <= MAX_SAFE_INTEGER
  | SetDigitalDelivery p =>
      0 <= sg_expected_version p < MAX_SAFE_INTEGER /\
      match sg_delivery p with
      | DeliverFile f => digital_file_ok (sg_expected_version p) f
      | DeliverLink url => is_valid_digital_link url_parse url = true
      | DeliverText text =>
          trim text <> "" /\ chars_count text <= DIGITAL_TEXT_MAX_CHARS /\
          chars_any (Z.eqb 0) text = false
      | DeliverEmail | DeliverMessage => True
      end
  | ClearDigitalDelivery p => 0 <= cg_expected_version p <= MAX_SAFE_INTEGER
  | RequestReturn p =>
      text_ok 1 1000 (rq_reason p) /\ 1 <= rq_requested_amount_minor p <= MAX_SAFE_INTEGER
  | RecordExternalRefund p =>
      1 <= rf_amount_minor p <= MAX_SAFE_INTEGER /\ text_ok 8 200 (rf_transaction_id p)
  | CreateReview p | UpdateReview p => review_terms_ok p
  | _ => True
  end.

End Valid.

(** ** Reading issue lists *)

Lemma accept_inl {A} (p q : A) issues : accept p issues = inl q <-> issues = [] /\ p = q.
Proof. destruct issues; cbn; split; [by intros [= ->]|by intros [_ ->]|done|by intros [? _]]. Qed.

Lemma require_nil b path message : require b path message = [] <-> b = true.
Proof. by destruct b. Qed.

Lemma app_nil_iff {A} (l k : list A) : l ++ k = [] <-> l = [] /\ k = [].
Proof. split; [apply app_eq_nil|]. by intros [-> ->]. Qed.

Lemma between_iff lo x hi : between lo x hi = true <-> lo <= x <= hi.
Proof. unfold between. rewrite andb_true_iff, !Z.leb_le. done. Qed.

Lemma negb_iff b : negb b = true <-> b = false.
Proof. by destruct b. Qed.

Lemma trimmed_nil path v lo hi t issues :
  validate_trimmed path v lo hi = (t, issues) ->
  t = trim v /\ (issues = [] <-> text_ok lo hi t).
Proof.
  unfold validate_trimmed, text_ok. intros [= <- <-]. rewrite require_nil, between_iff, trim_idem.
  tauto.
Qed.

Lemma positive_money_nil path m : validate_positive_money path m = [] <-> money_ok m.
Proof.
  unfold validate_positive_money, validate_money, money_ok.
  rewrite !app_nil_iff, !require_nil, !between_iff, Z.ltb_lt. intuition lia.
Qed.

Lemma printable_nil path s : validate_printable path s = [] <-> printable s.
Proof. unfold validate_printable, printable. by rewrite require_nil, negb_iff. Qed.

Lemma quantity_nil n : quantity_issue n = [] <-> 1 <= n <= 1000000.
Proof. unfold quantity_issue. by rewrite require_nil, between_iff. Qed.


(** Empty issue lists are read as the rules they stand for. *)
Ltac read_issues :=
  repeat match goal with
  | H : accept _ _ = inl _ |- _ => apply accept_inl in H as [H ?]
  | H : _ ++ _ = [] |- _ => apply app_nil_iff in H as [? ?]
  | H : require _ _ _ = [] |- _ => apply require_nil in H
  | H : between _ _ _ = true |- _ => apply between_iff in H
  | H : validate_positive_money _ _ = [] |- _ => apply positive_money_nil in H
  | H : validate_printable _ _ = [] |- _ => apply printable_nil in H
  | H : quantity_issue _ = [] |- _ => apply quantity_nil in H
  | H : ?e = [] <-> _, H' : ?e = [] |- _ => apply H in H'
  | H : (_ :: _) = [] |- _ => discriminate H
  | H : (_, _) = (_, []) |- _ => injection H as <- ?
  end; reflect_bools.

(** An issue list is shown empty rule by rule. *)
Ltac show_issues :=
  repeat match goal with
  | |- accept _ _ = inl _ => apply accept_inl; split
  | |- _ ++ _ = [] => apply app_nil_iff; split
  | |- require _ _ _ = [] => apply require_nil
  | |- between _ _ _ = true => apply between_iff
  | |- negb _ = true => apply negb_iff
  | |- validate_positive_money _ _ = [] => apply positive_money_nil
  | |- validate_printable _ _ = [] => apply printable_nil
  | |- quantity_issue _ = [] => apply quantity_nil
  | |- (_ =? _) = true => apply Z.eqb_eq
  | |- (_ <=? _) = true => apply Z.leb_le
  | |- (_ <? _) = true => apply Z.ltb_lt
  | H : ?e = [] <-> _ |- ?e = [] => apply H
  end.

(** Every trimmed text of the goal or of a hypothesis is named. *)
Ltac name_texts :=
  repeat match goal with
  | H : context [validate_trimmed ?p ?v ?lo ?hi] |- _ =>
      revert H;
      let t := fresh "t" in let e := fresh "e" in let E := fresh "E" in
      destruct (validate_trimmed p v lo hi) as [t e] eqn:E;
      pose proof (trimmed_nil _ _ _ _ _ _ E) as [? ?]; clear E; intros ?
  | |- context [validate_trimmed ?p ?v ?lo ?hi] =>
      let t := fresh "t" in let e := fresh "e" in let E := fresh "E" in
      destruct (validate_trimmed p v lo hi) as [t e] eqn:E;
      pose proof (trimmed_nil _ _ _ _ _ _ E) as [? ?]; clear E
  end; cbv beta iota in *.

(** A text that satisfies its rule is its own trimmed form. *)
Ltac fixed_texts :=
  repeat match goal with
  | H : ?t = trim ?v, H' : text_ok _ _ ?v |- _ => rewrite (proj1 H') in H; subst t
  end.

(** ** Addresses *)

Lemma region_sound path cc r r' : validate_region path cc r = (r', []) ->
  country_code_regex cc = true /\ canonicalize_region cc r' = inl r'.
Proof.
  unfold validate_region. destruct (country_code_regex cc); cbn; [|discriminate].
  destruct (canonicalize_region cc r) as [x|] eqn:E; [|discriminate]. intros [= <-].
  split; [done|]. by eapply canonicalize_stable.
Qed.

Lemma region_complete path cc r :
  country_code_regex cc = true -> canonicalize_region cc r = inl r ->
  validate_region path cc r = (r, []).
Proof. unfold validate_region. by intros -> ->. Qed.

Lemma address_sound path a a' : validate_delivery_address path a = (a', []) -> address_ok a'.
Proof.
  unfold validate_delivery_address. intros E. name_texts.
  destruct (validate_region _ _ _) as [r e6] eqn:Er. cbv beta iota in *.
  read_issues. subst. unfold address_ok; cbn. apply region_sound in Er. tauto.
Qed.

Lemma address_complete path a : address_ok a -> validate_delivery_address path a = (a, []).
Proof.
  unfold address_ok, validate_delivery_address. intros Ha. destruct_and!. name_texts. fixed_texts.
  rewrite region_complete by done.
  repeat match goal with H : ?e = [] <-> _, H' : text_ok _ _ _ |- _ => rewrite (proj2 H H'); clear H end.
  by destruct a.
Qed.

(** ** Registrations *)

Lemma terms_nil unit_price t : validate_auction_terms unit_price t = [] <-> terms_ok unit_price t.
Proof.
  unfold validate_auction_terms, terms_ok.
  rewrite !app_nil_iff, !require_nil, positive_money_nil, !between_iff, Z.ltb_lt. done.
Qed.

Lemma reserve_nil unit_price r : validate_reserve unit_price r = [] <-> reserve_ok unit_price r.
Proof.
  unfold validate_reserve, reserve_ok. rewrite !app_nil_iff, !require_nil, !between_iff.
  destruct (rs_reserve_price r) as [m|]; [|naive_solver].
  rewrite app_nil_iff, positive_money_nil.
  destruct (same_asset m unit_price) eqn:Ea; cbn.
  - rewrite require_nil, Z.leb_le. naive_solver.
  - split; [naive_solver|]. intros (_ & _ & Hm). destruct (Hm m eq_refl) as (_ & ? & _). congruence.
Qed.

Lemma repeated_nil seen methods :
  repeated_methods seen methods = [] <->
  NoDup methods /\ (forall m, m ∈ methods -> m ∉ seen).
Proof.
  revert seen. induction methods as [|m rest IH]; intros seen; cbn.
  - split; [|done]. intros _. split; [constructor|]. intros m Hm. by apply not_elem_of_nil in Hm.
  - rewrite app_nil_iff, require_nil, negb_iff, bool_decide_eq_false, IH, list.NoDup_cons.
    split.
    + intros (Hm & Hnd & Hrest). split_and!; [|done|].
      * intros Hin. apply (Hrest m Hin). apply list_elem_of_here.
      * intros x [->|Hx]%elem_of_cons; [done|]. intros Hs.
        apply (Hrest x Hx). by apply list_elem_of_further.
    + intros ((Hm & Hnd) & Hall). split_and!; [apply Hall, list_elem_of_here|done|].
      intros x Hx [->|Hs]%elem_of_cons; [done|]. by apply (Hall x (list_elem_of_further _ _ _ Hx)).
Qed.

Lemma nonempty_iff {A} (l : list A) : nonempty l = true <-> l <> [].
Proof. by destruct l. Qed.

Lemma nonempty_length {A} (l : list A) : nonempty l = true <-> (1 <= length l)%nat.
Proof. destruct l; cbn; split; (done || lia). Qed.

Section Sound.
Context {base32 : Base32Crate} (url_parse : string -> option (string * option string)).

Definition lock_ok (k : DigitalLockMetadata) : Prop :=
  canonical_lock_resource (dk_policy_uri k) = Some (dk_policy_uri k) /\
  entity_id_regex (dk_criterion_id k) = true.

Lemma lock_sound lock lock' :
  validate_lock_option lock = (lock', []) -> forall k, lock' = Some k -> lock_ok k.
Proof.
  unfold validate_lock_option, validate_digital_lock, lock_ok. intros E k ->.
  destruct lock as [lock|]; [|discriminate].
  destruct (canonical_lock_resource _) as [u|] eqn:Eu; [|discriminate].
  injection E as <- Ei. apply require_nil in Ei. cbn. split; [|done]. by eapply canonical_idem.
Qed.

Lemma lock_complete lock :
  (forall k, lock = Some k -> lock_ok k) -> validate_lock_option lock = (lock, []).
Proof.
  intros Hk. unfold validate_lock_option, validate_digital_lock. destruct lock as [lock|]; [|done].
  destruct (Hk lock eq_refl) as [-> ->]. by destruct lock.
Qed.

Lemma from_option_nil {A} (f : A -> list ValidationIssue) (P : A -> Prop) o :
  (forall a, f a = [] <-> P a) -> from_option f [] o = [] <-> (forall a, o = Some a -> P a).
Proof. intros Hf. destruct o as [a|]; cbn; [rewrite Hf|]; naive_solver. Qed.

Lemma terms_paired_iff p :
  terms_paired p = true <-> (rl_sale_format p = Auction <-> is_Some (rl_auction_terms p)).
Proof.
  unfold terms_paired. rewrite Bool.eqb_true_iff. split; [|apply bool_decide_ext]. intros E. split.
  - intros H. apply (bool_decide_eq_true_1 (is_Some _)). rewrite <- E.
    by apply bool_decide_eq_true_2.
  - intros H. apply (bool_decide_eq_true_1 (_ = Auction)). rewrite E.
    by apply bool_decide_eq_true_2.
Qed.

Lemma reserve_paired_iff p req :
  reserve_paired p req = true <->
  (is_Some (rl_auction_reserve p) -> rl_sale_format p = Auction) /\
  (req = true -> rl_sale_format p = Auction -> is_Some (rl_auction_reserve p)).
Proof.
  unfold reserve_paired.
  destruct (rl_auction_reserve p) as [r|]; destruct (rl_sale_format p), req; cbn;
    repeat (case_bool_decide); cbn; split; try done;
    intros; split_and?; intros; try done; destruct_and?; try naive_solver;
    by match goal with H : is_Some None |- _ => destruct H end.
Qed.

Lemma shipping_only_iff p :
  shipping_only_auction p = true <->
  (rl_sale_format p = Auction -> rl_fulfillment_methods p = [Shipping]).
Proof. unfold shipping_only_auction. repeat case_bool_decide; cbn; naive_solver. Qed.

(** The issues of a registration are its violated rules. *)
Lemma listing_sound reserve p q :
  validate_listing_payload p reserve = inl q -> registration_ok reserve q.
Proof.
  unfold validate_listing_payload. intros E. name_texts.
  destruct (validate_lock_option _) as [lock lock_issues] eqn:El. cbv beta iota zeta in *.
  apply accept_inl in E as [E <-].
  rewrite !app_nil_iff, !require_nil, positive_money_nil, !between_iff, nonempty_iff, repeated_nil,
    (from_option_nil _ _ _ (terms_nil _)), (from_option_nil _ _ _ (reserve_nil _)),
    terms_paired_iff, reserve_paired_iff, shipping_only_iff in E.
  destruct_and!. subst lock_issues. unfold registration_ok; cbn.
  pose proof (lock_sound _ _ El). subst. read_issues. tauto.
Qed.

Lemma listing_complete reserve p :
  registration_ok reserve p -> validate_listing_payload p reserve = inl p.
Proof.
  unfold registration_ok. intros Hp. destruct_and!. unfold validate_listing_payload. name_texts.
  fixed_texts. rewrite lock_complete by done. cbv beta iota zeta. apply accept_inl.
  split; [|by destruct p].
  rewrite !app_nil_iff, !require_nil, positive_money_nil, !between_iff, nonempty_iff, repeated_nil,
    (from_option_nil _ _ _ (terms_nil _)), (from_option_nil _ _ _ (reserve_nil _)),
    terms_paired_iff, reserve_paired_iff, shipping_only_iff.
  split_and!; try done; try tauto. intros m _ Hm. by apply not_elem_of_nil in Hm.
Qed.

(** ** Offers, orders and reviews *)

Lemma offer_terms_read amount quantity expires message t issues :
  validate_offer_terms amount quantity expires message = (t, issues) ->
  t = trim message /\ (issues = [] <-> offer_terms_ok amount quantity expires t).
Proof.
  unfold validate_offer_terms. intros E. name_texts. injection E as <- <-. subst.
  split; [done|]. unfold offer_terms_ok.
  rewrite !app_nil_iff, positive_money_nil, quantity_nil, require_nil, between_iff. tauto.
Qed.

Lemma offer_checkout_sound p q :
  validate_offer_checkout p = inl (OfferCheckout q) -> offer_checkout_ok q.
Proof.
  unfold validate_offer_checkout. intros E.
  destruct (match default Shipping (oc_fulfillment p) with Shipping => _ | _ => _ end)
    as [address issues] eqn:Ea.
  apply accept_inl in E as [E [= <-]].
  rewrite !app_nil_iff, !require_nil, quantity_nil, !between_iff, Z.eqb_eq in E.
  destruct_and!. subst issues. unfold offer_checkout_ok; cbn. split_and!; try done; try lia.
  destruct (default Shipping _), (oc_delivery_address p) as [a|]; try discriminate; cbv beta iota in Ea.
  - destruct (validate_delivery_address _ a) as [a' e] eqn:Ev. injection Ea as <- ->.
    by eapply address_sound.
  - by injection Ea as <-.
Qed.

Lemma offer_checkout_complete q :
  offer_checkout_ok q -> validate_offer_checkout q = inl (OfferCheckout q).
Proof.
  unfold offer_checkout_ok, validate_offer_checkout. intros Hq. destruct_and!.
  destruct (default Shipping (oc_fulfillment q)), (oc_delivery_address q) as [a|] eqn:Ea; try done.
  1: rewrite address_complete by done.
  all: cbv beta iota; apply accept_inl; split; [|by destruct q; cbn in *; subst].
  all: rewrite !app_nil_iff, !require_nil, quantity_nil, !between_iff, Z.eqb_eq; tauto.
Qed.

(** ** Pickup details *)

Lemma each_nil {A} (f : nat -> A -> list ValidationIssue) (P : A -> Prop) i l :
  (forall i a, f i a = [] <-> P a) -> validate_each f i l = [] <-> Forall P l.
Proof.
  intros Hf. revert i. induction l as [|x l IH]; intros i; cbn; [done|].
  rewrite app_nil_iff, Hf, IH, list.Forall_cons. done.
Qed.

Lemma window_nil i w : validate_window i w = [] <-> window_ok w.
Proof.
  unfold validate_window, window_ok. rewrite !app_nil_iff, !require_nil, negb_iff, existsb_exists.
  split.
  - intros ((x & Hx & E) & -> & -> & Hle). apply String.eqb_eq in E. by subst.
  - intros (Hin & -> & -> & ->). split_and!; try done. exists (pw_day w).
    by rewrite String.eqb_refl.
Qed.

Lemma place_sound d address spot :
  validate_place d = (address, spot, []) ->
  match pd_kind d, address, spot with
  | KAddress, Some address, None => address_ok address
  | KSpot, None, Some spot => text_ok 1 200 spot /\ printable spot
  | _, _, _ => False
  end.
Proof.
  unfold validate_place. destruct (pd_kind d).
  - destruct (pd_address d) as [a|].
    + destruct (validate_delivery_address _ a) as [a' e] eqn:Ev. intros [= <- <- E].
      apply app_nil_iff in E as [-> E]. apply require_nil in E.
      destruct (pd_spot d); [discriminate|]. by eapply address_sound.
    + discriminate.
  - destruct (pd_spot d) as [s|].
    + destruct (validate_trimmed _ s 1 200) as [t e] eqn:Et. apply trimmed_nil in Et as [-> Hiff].
      intros [= <- <- E]. read_issues.
      destruct (pd_address d); [exfalso; eauto|done].
    + discriminate.
Qed.

Lemma place_complete d :
  match pd_kind d, pd_address d, pd_spot d with
  | KAddress, Some address, None => address_ok address
  | KSpot, None, Some spot => text_ok 1 200 spot /\ printable spot
  | _, _, _ => False
  end -> validate_place d = (pd_address d, pd_spot d, []).
Proof.
  unfold validate_place.
  destruct (pd_kind d), (pd_address d) as [a|], (pd_spot d) as [s|]; try done.
  - intros Ha. by rewrite address_complete.
  - intros [Ht Hp]. destruct (validate_trimmed _ s 1 200) as [t e] eqn:Et.
    apply trimmed_nil in Et as [-> Hiff]. rewrite (proj1 Ht) in *.
    rewrite (proj2 Hiff Ht), (proj2 (printable_nil _ _) Hp). done.
Qed.

Lemma windows_nil o :
  match o with
  | None => []
  | Some windows =>
      require (nonempty windows && (length windows <=? 14)%nat)
        "payload.details.availability.windows"
        "Expected between 1 and 14 availability windows" ++
      validate_each validate_window 0 windows
  end = [] <->
  (forall ws, o = Some ws -> (1 <= length ws <= 14)%nat /\ Forall window_ok ws).
Proof.
  destruct o as [ws|]; [|naive_solver].
  rewrite app_nil_iff, require_nil, (each_nil _ _ _ _ window_nil), andb_true_iff, nonempty_length,
    Nat.leb_le. naive_solver.
Qed.

Lemma details_sound d d' :
  validate_pickup_details d = (d', []) -> pickup_details_ok d'.
Proof.
  unfold validate_pickup_details. destruct (validate_place d) as [[address spot] e] eqn:Ep.
  intros E. name_texts. cbv zeta in *. rename select (_ = (d', [])) into Ed. injection Ed as <- E.
  rewrite !app_nil_iff, !printable_nil, require_nil, windows_nil in E. destruct_and!. subst.
  apply place_sound in Ep. unfold pickup_details_ok; cbn. tauto.
Qed.

Lemma details_complete d : pickup_details_ok d -> validate_pickup_details d = (d, []).
Proof.
  unfold pickup_details_ok. intros [Hplace Hd]. destruct_and!. unfold validate_pickup_details.
  rewrite place_complete by done. name_texts. fixed_texts. cbv zeta.
  f_equal; [by destruct d as [? ? ? ? []]|].
  rewrite !app_nil_iff, !printable_nil, require_nil, windows_nil. tauto.
Qed.

(** ** Digital deliverables *)

Lemma file_nil v f :
  0 <= v < MAX_SAFE_INTEGER -> validate_digital_file v f = [] <-> digital_file_ok v f.
Proof.
  intros Hv. unfold validate_digital_file, digital_file_ok.
  rewrite !app_nil_iff, !require_nil, Z.eqb_eq, Z.leb_le, wrap64_id; [done|].
  apply in_i64_spec. unfold MAX_SAFE_INTEGER, i64_min, i64_max in *. lia.
Qed.

Lemma digital_delivery_nil p :
  require ((0 <=? sg_expected_version p) && (sg_expected_version p <? MAX_SAFE_INTEGER))
    "payload.expected_version" "Expected a non-negative delivery version" ++
  match sg_delivery p with
  | DeliverFile file => validate_digital_file (sg_expected_version p) file
  | DeliverLink url =>
      require (is_valid_digital_link url_parse url) "payload.delivery.url"
        "Expected an https:// link of at most 2048 characters"
  | DeliverText text =>
      require (negb ((trim text =? "")%string || (DIGITAL_TEXT_MAX_CHARS <? chars_count text)
                     || chars_any (Z.eqb 0) text))
        "payload.delivery.text" "Expected 1-4000 characters of text"
  | DeliverEmail | DeliverMessage => []
  end = [] <-> valid_payload url_parse (SetDigitalDelivery p).
Proof.
  cbn [valid_payload]. rewrite app_nil_iff, require_nil, andb_true_iff, Z.leb_le, Z.ltb_lt.
  destruct (sg_delivery p) as [f|url|text| |]; rewrite ?require_nil; try tauto.
  - split; intros [Hv Hf]; (split; [exact Hv|]); by apply (file_nil _ f Hv).
  - rewrite negb_iff, !orb_false_iff, String.eqb_neq, Z.ltb_ge. tauto.
Qed.

(** ** Checkout *)

Lemma variant_option_read path o :
  exists issues, validate_variant_option path o = ((trim (fst o), trim (snd o)), issues) /\
    (issues = [] <-> variant_option_ok (trim (fst o), trim (snd o))).
Proof.
  unfold validate_variant_option. name_texts. subst. eexists. split; [done|].
  unfold variant_option_ok. rewrite !app_nil_iff, !printable_nil. cbn. tauto.
Qed.

Lemma options_sound path i os os' :
  validate_map (fun i => validate_variant_option (path +:+ "." +:+ pretty i)) i os = (os', []) ->
  length os' = length os /\ Forall variant_option_ok os'.
Proof.
  revert i os'. induction os as [|o os IH]; intros i os'; cbn; [by intros [= <-]|].
  destruct (variant_option_read (path +:+ "." +:+ pretty i) o) as (e & -> & He).
  destruct (validate_map _ _ os) as [rest e'] eqn:Er. intros [= <- E].
  apply app_nil_iff in E as [-> ->]. apply IH in Er as [Hl Hr]. cbn. split; [lia|].
  constructor; [by apply He|done].
Qed.

Lemma options_complete path i os :
  Forall variant_option_ok os ->
  validate_map (fun i => validate_variant_option (path +:+ "." +:+ pretty i)) i os = (os, []).
Proof.
  intros Hos. revert i. induction Hos as [|[n v] os Ho Hos IH]; intros i; cbn; [done|].
  destruct (variant_option_read (path +:+ "." +:+ pretty i) (n, v)) as (e & -> & He).
  rewrite IH. pose proof Ho as ((Hn & _) & (Hv & _) & _). cbn in Hn, Hv, He |- *.
  rewrite Hn, Hv in He. rewrite Hn, Hv. by rewrite (proj2 He Ho).
Qed.

Lemma line_sound seen i l l' :
  validate_line seen i l = (l', []) ->
  line_ok l' /\ cl_listing_aggregate_id l' = cl_listing_aggregate_id l /\
  ships l' = ships l /\ ~ In (cl_listing_aggregate_id l) seen.
Proof.
  unfold validate_line, validate_variant_options. intros E.
  destruct (match cl_variant_options l with None => _ | _ => _ end) as [os oe] eqn:Eo.
  injection E as <- E. rewrite !app_nil_iff, !require_nil, !between_iff, negb_iff in E.
  destruct E as (Ha & Hr & Hq & Hv & -> & Hs). unfold line_ok; cbn.
  split; [|split; [done|split; [done|]]].
  - split_and!; try done; try lia.
    + intros v E. rewrite E in Hv. by apply require_nil in Hv.
    + intros os' ->. destruct (cl_variant_options l) as [os0|]; [|discriminate].
      destruct (validate_map _ _ os0) as [n e] eqn:Em. injection Eo as -> E.
      rewrite !app_nil_iff, !require_nil, andb_true_iff, nonempty_length, Nat.leb_le in E.
      destruct E as (Hvar & Hlen & ->). apply options_sound in Em as [Hl Hall]. rewrite Hl.
      split; [by apply bool_decide_eq_true_1 in Hvar|]. done.
  - intros Hin. assert (existsb (String.eqb (cl_listing_aggregate_id l)) seen = true); [|congruence].
    apply existsb_exists. eexists. split; [exact Hin|apply String.eqb_refl].
Qed.

Lemma line_complete seen i l :
  line_ok l -> ~ In (cl_listing_aggregate_id l) seen -> validate_line seen i l = (l, []).
Proof.
  intros (Ha & Hr & Hq & Hv & Ho) Hs. unfold validate_line, validate_variant_options.
  assert (Hex : existsb (String.eqb (cl_listing_aggregate_id l)) seen = false).
  { apply not_true_iff_false. intros Hex. apply existsb_exists in Hex as (x & Hx & E).
    apply String.eqb_eq in E. by subst. }
  assert (Hvi : match cl_variant_id l with
    | Some v => require (entity_id_regex v) (("payload.lines." +:+ pretty i) +:+ ".variant_id") entity_message
    | None => [] end = []).
  { destruct (cl_variant_id l); [|done]. by apply require_nil, Hv. }
  destruct (cl_variant_options l) as [os|] eqn:Eo.
  - destruct (Ho os eq_refl) as (Hsome & Hlen & Hall). rewrite options_complete by done.
    cbv zeta. f_equal; [by destruct l; cbn in *; subst|].
    rewrite !app_nil_iff, !require_nil, !between_iff, negb_iff, andb_true_iff, nonempty_length,
      Nat.leb_le. split_and!; try done; try lia. by apply bool_decide_eq_true_2.
  - cbv zeta. f_equal; [by destruct l; cbn in *; subst|].
    rewrite !app_nil_iff, !require_nil, !between_iff, negb_iff. split_and!; done || lia.
Qed.

Lemma lines_sound seen i ls ls' :
  validate_lines seen i ls = (ls', []) ->
  Forall line_ok ls' /\ map cl_listing_aggregate_id ls' = map cl_listing_aggregate_id ls /\
  length ls' = length ls /\ NoDup (map cl_listing_aggregate_id ls') /\
  (forall x, In x (map cl_listing_aggregate_id ls') -> ~ In x seen).
Proof.
  revert seen i ls'. induction ls as [|l ls IH]; intros seen i ls'; cbn.
  { intros [= <-]. split_and!; done || constructor. }
  destruct (validate_line seen i l) as [l' e] eqn:El.
  destruct (validate_lines _ _ ls) as [rest e'] eqn:Er. intros [= <- E].
  apply app_nil_iff in E as [-> ->]. apply line_sound in El as (Hl & Hid & _ & Hs).
  apply IH in Er as (Hrest & Hmap & Hlen & Hnd & Hdis). cbn. rewrite Hid. split_and!.
  - by constructor.
  - by rewrite Hmap.
  - lia.
  - constructor; [|done]. intros Hin. apply list_elem_of_In in Hin. eapply Hdis; [exact Hin|].
    by left.
  - intros x [<-|Hx]; [done|]. intros Hx'. apply (Hdis x Hx). by right.
Qed.

Lemma lines_complete seen i ls :
  Forall line_ok ls -> NoDup (map cl_listing_aggregate_id ls) ->
  (forall x, In x (map cl_listing_aggregate_id ls) -> ~ In x seen) ->
  validate_lines seen i ls = (ls, []).
Proof.
  intros Hls. revert seen i. induction Hls as [|l ls Hl Hls IH]; intros seen i Hnd Hdis; cbn; [done|].
  cbn in Hnd, Hdis. apply list.NoDup_cons in Hnd as [Hn Hnd].
  rewrite line_complete by (done || (apply Hdis; by left)). rewrite IH; [done|done|].
  intros x Hx [<-|Hx']; [by apply Hn, list_elem_of_In|]. apply (Hdis x); [by right|done].
Qed.

Lemma checkout_address_sound lines a a' :
  validate_checkout_address lines a = (a', []) ->
  match a', existsb ships lines with
  | Some address, true => address_ok address
  | None, false => True
  | _, _ => False
  end.
Proof.
  unfold validate_checkout_address. destruct a as [a|], (existsb ships lines); try discriminate.
  - destruct (validate_delivery_address _ a) as [b e] eqn:E. intros [= <- ->].
    by eapply address_sound.
  - by intros [= <-].
Qed.

Lemma checkout_address_complete lines a :
  match a, existsb ships lines with
  | Some address, true => address_ok address
  | None, false => True
  | _, _ => False
  end -> validate_checkout_address lines a = (a, []).
Proof.
  unfold validate_checkout_address. destruct a as [a|], (existsb ships lines); try done.
  intros Ha. by rewrite address_complete.
Qed.

Lemma checkout_sound p q : validate_create_checkout p = inl (CreateCheckout q) -> checkout_ok q.
Proof.
  unfold validate_create_checkout. destruct (validate_lines _ _ _) as [ls e] eqn:El.
  destruct (validate_checkout_address _ _) as [a e'] eqn:Ea. intros E.
  apply accept_inl in E as [E [= <-]].
  rewrite !app_nil_iff, !require_nil, andb_true_iff, nonempty_length, Nat.leb_le, Z.eqb_eq in E.
  destruct_and!. subst e e'. apply lines_sound in El as (Hl & _ & Hlen & Hnd & _).
  apply checkout_address_sound in Ea. unfold checkout_ok; cbn. rewrite Hlen. done.
Qed.

Lemma checkout_complete q : checkout_ok q -> validate_create_checkout q = inl (CreateCheckout q).
Proof.
  intros (Hlen & Hl & Hnd & Ha & Hg). unfold validate_create_checkout.
  rewrite lines_complete by (done || tauto). rewrite checkout_address_complete by done.
  apply accept_inl. split; [|by destruct q].
  rewrite !app_nil_iff, !require_nil, andb_true_iff, nonempty_length, Nat.leb_le, Z.eqb_eq. done.
Qed.

(** ** Every kind *)

Lemma payload_sound p q :
  validate_payload url_parse p = inl q -> valid_payload url_parse q /\ kind q = kind p.
Proof.
  destruct p as [p|p|p| | |p|p|p|p|p|p|p|p|p| |p|p|p|p|p|p|p|p|p|p|p|p|p|p|p|p|p|p|p|p|p|p];
    cbn [validate_payload]; try (by intros [= <-]).
  - unfold validate_register_listing, map_ok, validate_register_listing_payload.
    destruct (validate_listing_payload p true) as [r|] eqn:E; [|done]. intros [= <-].
    split; [|done]. by apply listing_sound in E.
  - intros E. unfold validate_sync_listing in E. read_issues. by subst.
  - intros E. unfold validate_sync_drop in E. read_issues. by subst.
  - intros E. unfold validate_reserve_inventory in E. read_issues. by subst.
  - intros E. assert (exists r, q = CreateCheckout r) as [r ->].
    { unfold validate_create_checkout in E. destruct (validate_lines _ _ _), (validate_checkout_address _ _).
      apply accept_inl in E as [_ <-]. eauto. }
    split; [|done]. by eapply checkout_sound.
  - unfold validate_create_offer. destruct (validate_offer_terms _ _ _ _) as [t e] eqn:Et.
    apply offer_terms_read in Et as [-> Hiff]. intros E. read_issues. by subst.
  - unfold validate_counter_offer. destruct (validate_offer_terms _ _ _ _) as [t e] eqn:Et.
    apply offer_terms_read in Et as [-> Hiff]. intros E. read_issues. by subst.
  - intros E. assert (exists r, q = OfferCheckout r) as [r ->].
    { unfold validate_offer_checkout in E.
      destruct (match default Shipping (oc_fulfillment p) with Shipping => _ | _ => _ end).
      apply accept_inl in E as [_ <-]. eauto. }
    split; [|done]. by eapply offer_checkout_sound.
  - intros E. unfold validate_place_bid in E. read_issues. by subst.
  - intros E. unfold validate_advance_sandbox_payment in E. read_issues. by subst.
  - intros E. unfold validate_register_locks in E. read_issues. by subst.
  - unfold validate_request_cancellation. intros E. name_texts. read_issues. by subst.
  - unfold validate_ship_order. intros E. name_texts. read_issues. by subst.
  - unfold validate_set_pickup_details. destruct (validate_pickup_details _) as [d e] eqn:Ed.
    intros E. read_issues. subst. apply details_sound in Ed. done.
  - intros E. unfold validate_clear_pickup_details in E. read_issues. by subst.
  - unfold validate_set_digital_delivery. intros E. apply accept_inl in E as [E <-].
    split; [|done]. by apply digital_delivery_nil.
  - intros E. unfold validate_clear_digital_delivery in E. read_issues. by subst.
  - unfold validate_request_return. intros E. name_texts. read_issues. by subst.
  - unfold validate_record_external_refund. intros E. name_texts. read_issues. by subst.
  - unfold validate_review_terms. intros E. name_texts. read_issues. by subst.
  - unfold validate_review_terms. intros E. name_texts. read_issues. by subst.
Qed.

Lemma payload_complete q : valid_payload url_parse q -> validate_payload url_parse q = inl q.
Proof.
  destruct q as [p|p|p| | |p|p|p|p|p|p|p|p|p| |p|p|p|p|p|p|p|p|p|p|p|p|p|p|p|p|p|p|p|p|p|p];
    cbn [validate_payload valid_payload]; intros Hq; try done.
  - unfold validate_register_listing, validate_register_listing_payload.
    by rewrite listing_complete.
  - unfold validate_sync_listing. by show_issues; try apply Hq.
  - unfold validate_sync_drop. by show_issues; try apply Hq.
  - unfold validate_reserve_inventory. by show_issues; try apply Hq.
  - by apply checkout_complete.
  - unfold validate_create_offer. destruct (validate_offer_terms _ _ _ _) as [t e] eqn:Et.
    apply offer_terms_read in Et as [-> Hiff]. pose proof Hq as (_ & _ & _ & Ht & _).
    rewrite Ht in *. rewrite (proj2 Hiff Hq). by destruct p.
  - unfold validate_counter_offer. destruct (validate_offer_terms _ _ _ _) as [t e] eqn:Et.
    apply offer_terms_read in Et as [-> Hiff]. pose proof Hq as (_ & _ & _ & Ht & _).
    rewrite Ht in *. rewrite (proj2 Hiff Hq). by destruct p.
  - by apply offer_checkout_complete.
  - unfold validate_place_bid. by show_issues.
  - unfold validate_advance_sandbox_payment. by show_issues.
  - unfold validate_register_locks. by show_issues.
  - unfold validate_request_cancellation. name_texts. fixed_texts. show_issues; [done|by destruct p].
  - unfold validate_ship_order. destruct_and!. name_texts. fixed_texts.
    show_issues; try done. by destruct p.
  - destruct Hq as [Hv Hd]. unfold validate_set_pickup_details. rewrite details_complete by done.
    show_issues; [done|done|by destruct p].
  - unfold validate_clear_pickup_details. by show_issues.
  - unfold validate_set_digital_delivery. apply accept_inl. split; [|done].
    by apply digital_delivery_nil.
  - unfold validate_clear_digital_delivery. by show_issues.
  - destruct Hq. unfold validate_request_return. name_texts. fixed_texts.
    show_issues; try done. by destruct p.
  - destruct Hq. unfold validate_record_external_refund. name_texts. fixed_texts.
    show_issues; try done. by destruct p.
  - destruct Hq. unfold validate_review_terms. name_texts. fixed_texts.
    show_issues; try done. by destruct p.
  - destruct Hq. unfold validate_review_terms. name_texts. fixed_texts.
    show_issues; try done. by destruct p.
Qed.

(** Validation normalizes once and for all: what a validator accepts
    satisfies every rule of its kind, has the same kind, and is accepted
    unchanged when it is validated again; and a payload is accepted unchanged
    exactly when it satisfies the rules. *)
Theorem validate_payload_normalizes p :
  (forall q, validate_payload url_parse p = inl q ->
     valid_payload url_parse q /\ kind q = kind p /\ validate_payload url_parse q = inl q) /\
  (validate_payload url_parse p = inl p <-> valid_payload url_parse p).
Proof.
  split.
  - intros q E. apply payload_sound in E as [Hv Hk]. split_and!; [done|done|].
    by apply payload_complete.
  - split; [|apply payload_complete]. intros E. by apply payload_sound in E as [Hv _].
Qed.

(** ** The wire command *)

Context {serde : Serde}.

Lemma arm_sound {T} (d : Deserialize T) wrap k v q :
  (forall p, kind (wrap p) = k) -> arm url_parse d wrap v = inl q ->
  valid_payload url_parse q /\ kind q = k.
Proof.
  intros Hk. unfold arm, and_then. destruct (parse_payload d v) as [p|]; [|done]. intros E.
  apply payload_sound in E as [Hv Hq]. split; [done|]. by rewrite Hq.
Qed.

Lemma arms_sound k parse v q :
  In (k, parse) (arms url_parse) -> parse v = inl q -> valid_payload url_parse q /\ kind q = k.
Proof.
  intros Hin. unfold arms in Hin. cbn [In] in Hin.
  repeat (destruct Hin as [[= <- <-]|Hin]; [by apply arm_sound|]). done.
Qed.

(** C35. A command that reaches a handler is well formed: its payload has the
    kind the wire names and satisfies every rule of that kind, its aggregate
    id has the [type:identifier] shape and its expected revision is a
    non-negative safe integer. *)
Theorem parse_command_valid raw command :
  parse_command url_parse raw = inl command ->
  exists envelope, from_envelope raw = inl envelope /\
    env_version envelope = COMMERCE_CONTRACT_VERSION /\
    kind (c_payload command) = env_kind envelope /\
    valid_payload url_parse (c_payload command) /\
    aggregate_id_regex (c_aggregate_id command) = true /\
    0 <= c_expected_revision command <= MAX_SAFE_INTEGER /\
    c_command_id command = env_command_id envelope.
Proof.
  unfold parse_command. destruct (from_envelope raw) as [env|]; [|done].
  destruct (accept env (envelope_issues env)) as [env'|] eqn:Ea; cbn [and_then]; [|done].
  apply accept_inl in Ea as [Ea <-]. unfold envelope_issues in Ea.
  destruct (find _ _) as [[k parse]|] eqn:Ef; [|done].
  destruct (parse (env_payload env)) as [q|] eqn:Ep; [|done]. intros [= <-].
  apply find_some in Ef as [Hin Ek]. cbn in Ek. apply String.eqb_eq in Ek. subst k.
  destruct (arms_sound _ _ _ _ Hin Ep) as [Hv Hk]. read_issues. by exists env.
Qed.
End Sound.

(** ** A sample wire format: values that carry a typed payload. *)

Inductive TypedValue :=
| TypedEnvelope (e : RawEnvelope CommandPayload)
| TypedPayload (p : CommandPayload).

Definition typed_envelope (v : TypedValue) : RawEnvelope TypedValue + string :=
  match v with
  | TypedEnvelope e =>
      inl (mkEnvelope (env_version e) (env_command_id e) (env_aggregate_id e)
             (env_expected_revision e) (env_issued_at e) (env_kind e)
             (TypedPayload (env_payload e)))
  | TypedPayload _ => inr "expected an envelope"
  end.

Definition typed_value {T} (d : Deserialize T) (v : TypedValue) : T + string :=
  match d in Deserialize T return T + string with
  | de_reserve_inventory =>
      match v with TypedPayload (ReserveInventory p) => inl p | _ => inr "reservation" end
  | de_create_checkout =>
      match v with TypedPayload (CreateCheckout p) => inl p | _ => inr "checkout" end
  | de_ship_order =>
      match v with TypedPayload (ShipOrder p) => inl p | _ => inr "shipment" end
  | _ => inr "unsupported"
  end.

Definition typed_serde : Serde := {|
  Value := TypedValue;
  from_envelope := typed_envelope;
  from_value := @typed_value;
|}.

Definition no_url (_ : string) : option (string * option string) := None.

Definition ship_wire : TypedValue :=
  TypedEnvelope (mkEnvelope 1 7 "order:12" 3 0 "fulfillment.ship"
    (ShipOrder (mkShipOrder 12 "  Royal Mail " "RM 123"))).

Lemma parse_command_valid_witness :
  exists c, @parse_command bit_crate typed_serde no_url ship_wire = inl c /\
    c_payload c = ShipOrder (mkShipOrder 12 "Royal Mail" "RM 123") /\
    @valid_payload bit_crate no_url (c_payload c).
Proof.
  eexists. split; [vm_compute; reflexivity|]. split; [reflexivity|].
  refine (match parse_command_valid (base32 := bit_crate) (serde := typed_serde) no_url ship_wire _
            ltac:(vm_compute; reflexivity) with
          | ex_intro _ _ (conj _ (conj _ (conj _ (conj Hv _)))) => Hv end).
Defined.

Lemma validate_payload_normalizes_witness :
  @validate_payload bit_crate no_url (ShipOrder (mkShipOrder 12 "Royal Mail" "RM 123")) =
    inl (ShipOrder (mkShipOrder 12 "Royal Mail" "RM 123")).
Proof.
  exact (proj2 (proj2 (proj1 (validate_payload_normalizes (base32 := bit_crate) no_url
    (ShipOrder (mkShipOrder 12 "  Royal Mail " "RM 123"))) _ ltac:(vm_compute; reflexivity)))).
Defined.
