(* ===== verification/Checkout.v ===== *)
(** * [checkout.create] ([handlers/checkout.rs])

    Lines are peeked, a bound drop is gated, listings are resolved in their
    lock order, grouped by (seller, fulfillment) and turned into one order
    and one payment each.  Only a drop-bound checkout takes stock.  The
    [i64] products and sums wrap around, as a release build computes them. *)

From stdpp Require Import sorting.
From S2P Require Import Prelude Domain StateMachines Store Commands Actions Drops Holds Auction.
From S2P Require Import Seal Text LocksKeys DigitalManual.

Record CheckoutContext := mkCheckoutContext {
  ctx_drop_claim_seconds : Z;
  (** A digital sealing key is configured. *)
  ctx_digital : option SealKeys;
}.

Definition LISTING_UNAVAILABLE : CommandFailure :=
  refused NotFound "A checkout listing is unavailable.".

(** Listings are read without a lock first. *)
Definition peek_line (actor : string) (line : CheckoutLine) : H (CheckoutLine * ListingRow) :=
  let* row := fetch_live_listing (cl_listing_aggregate_id line) in
  let* listing := or_refuse row LISTING_UNAVAILABLE in
  do* refuse_if (l_seller_pubky listing =? actor)%string
        (refused Unauthorized "A buyer cannot purchase their own listing.") in
  do* refuse_if (negb (bool_decide (l_sale_format listing = FixedPrice)))
        (refused InvalidState "Only fixed-price listings can enter checkout.") in
  ret (line, listing).

(** The first bound drop among the lines. *)
Fixpoint find_bound_drop (peeked : list (CheckoutLine * ListingRow)) : H (option DropRow) :=
  match peeked with
  | [] => ret None
  | (_, listing) :: rest =>
      let* bound := lock_bound_drop (l_seller_pubky listing) (l_listing_id listing) in
      match bound with
      | Some drop => ret (Some drop)
      | None => find_bound_drop rest
      end
  end.

(** A drop-bound checkout is one line of one unit, through the gate. *)
Definition gate_checkout `{!UuidCrate} (actor : string) (command_id : Uuid)
    (peeked : list (CheckoutLine * ListingRow)) (now : Time) : H (option string) :=
  let* bound := find_bound_drop peeked in
  match bound with
  | None => ret None
  | Some drop =>
      do* refuse_if (negb (match peeked with [(line, _)] => cl_quantity line =? 1 | _ => false end))
            (refused InvalidCommand DROP_SINGLE_LINE) in
      let* drop := enforce_drop_gate drop actor 1 command_id now in
      ret (Some (d_aggregate_id drop))
  end.

(** The listing under its row lock, and what refuses the line. *)
Definition resolve_line (line : CheckoutLine) : H (CheckoutLine * ListingRow) :=
  let* row := fetch_live_listing_for_update (cl_listing_aggregate_id line) in
  let* listing := or_refuse row LISTING_UNAVAILABLE in
  do* (match l_state listing with
       | LReserved => refuse (refused InvalidState HOLDING_COPY)
       | LSold => refuse (refused InvalidState "This listing has sold out.")
       | LAvailable => ret tt
       end) in
  do* refuse_if (negb (cl_expected_revision line =? l_server_revision listing))
        (refused_with_revision RevisionConflict "A checkout listing revision is stale."
           (l_server_revision listing)) in
  do* refuse_if (l_available_quantity listing <? cl_quantity line)
        (refused_with_revision InsufficientInventory "Checkout quantity is unavailable."
           (l_server_revision listing)) in
  ret (line, listing).

Definition all_same_asset (first : ListingRow) (resolved : list (CheckoutLine * ListingRow))
    : bool :=
  forallb (fun '(_, l) =>
    (l_unit_price_currency l =? l_unit_price_currency first)%string &&
    (l_unit_price_exponent l =? l_unit_price_exponent first)) resolved.

(** ** Groups *)

Record Group := mkGroup {
  g_seller : Pubky;
  g_method : FulfillmentMethod;
  g_lines : list (CheckoutLine * ListingRow);
}.

Definition line_method (line : CheckoutLine) : FulfillmentMethod :=
  default Shipping (cl_fulfillment line).

Fixpoint add_to_group (entry : CheckoutLine * ListingRow) (groups : list Group) : list Group :=
  let seller := l_seller_pubky (snd entry) in
  let method := line_method (fst entry) in
  match groups with
  | [] => [mkGroup seller method [entry]]
  | g :: rest =>
      if (g_seller g =? seller)%string && bool_decide (g_method g = method)
      then mkGroup (g_seller g) (g_method g) (g_lines g ++ [entry]) :: rest
      else g :: add_to_group entry rest
  end.

Definition listing_kind (l : ListingRow) : option DigitalDeliveryKind :=
  match l_digital_delivery_kind l with Some s => digital_kind_parse s | None => None end.

(** The buyer's choice must be published; it is never rewritten. *)
Definition check_method (context : CheckoutContext) (entry : CheckoutLine * ListingRow)
    : H unit :=
  let '(line, listing) := entry in
  let method := line_method line in
  do* refuse_if (negb (bool_decide (method ∈ l_fulfillment_methods listing)))
        (refused_with_reason InvalidState
           "A checkout line's listing does not publish the chosen fulfillment method."
           "fulfillment_not_published") in
  if bool_decide (method = Digital) then
    do* refuse_if (negb (bool_decide (is_Some (ctx_digital context)))) DIGITAL_UNAVAILABLE in
    refuse_if (bool_decide (listing_kind listing = None))
      (refused_with_reason InvalidState
         "The seller has not finished setting up delivery for this item."
         "digital_delivery_not_ready")
  else ret tt.

Fixpoint group_lines (context : CheckoutContext) (resolved : list (CheckoutLine * ListingRow))
    (groups : list Group) : H (list Group) :=
  match resolved with
  | [] => ret groups
  | entry :: rest =>
      do* check_method context entry in
      group_lines context rest (add_to_group entry groups)
  end.

(** ** Address and email rules *)

Definition address_rule (groups : list Group) (payload : CreateCheckoutPayload)
    : option CommandFailure :=
  let any_shipped := existsb (fun g => bool_decide (g_method g = Shipping)) groups in
  match cc_delivery_address payload, any_shipped with
  | Some _, false =>
      Some (refused InvalidCommand
              "A checkout with no shipped group must not carry a delivery address.")
  | None, true =>
      Some (refused InvalidCommand
              "A delivery address is required when any checkout group ships.")
  | _, _ => None
  end.

Definition is_email_line (entry : CheckoutLine * ListingRow) : bool :=
  bool_decide (l_digital_delivery_kind (snd entry) = Some "email").

Definition email_group (g : Group) : bool :=
  bool_decide (g_method g = Digital) && existsb is_email_line (g_lines g).

Definition email_rule (groups : list Group) (payload : CreateCheckoutPayload)
    : option CommandFailure :=
  match cc_delivery_email payload, existsb email_group groups with
  | None, true =>
      Some (refused_with_reason InvalidCommand
              "An email for delivery is required for this checkout." "delivery_email_required")
  | Some _, false =>
      Some (refused_with_reason InvalidCommand
              "No item in this checkout is delivered by email." "delivery_email_not_needed")
  | Some email, true =>
      if is_well_formed email then None
      else Some (refused_with_reason InvalidCommand "The delivery email address is not valid."
                   "invalid_delivery_email")
  | None, false => None
  end.

(** ** Orders *)

Definition line_subtotal (entry : CheckoutLine * ListingRow) : Z :=
  wrap64 (l_unit_price_amount_minor (snd entry) * cl_quantity (fst entry)).

(** [Iterator::sum] of [i64]s. *)
Definition sum_i64 (l : list Z) : Z := fold_left (fun acc x => wrap64 (acc + x)) l 0.

Definition order_line (method : FulfillmentMethod) (entry : CheckoutLine * ListingRow)
    : OrderLine :=
  let '(line, listing) := entry in
  let money amount := mkMoney amount (l_unit_price_currency listing)
                        (l_unit_price_exponent listing) in
  mkLine (l_aggregate_id listing) (l_listing_revision listing) (l_content_hash listing)
    (l_title listing) (cl_quantity line) (money (l_unit_price_amount_minor listing))
    (money (line_subtotal entry)) (Some method)
    (if bool_decide (method = Digital) then l_digital_delivery_kind listing else None)
    None (cl_variant_id line) (cl_variant_options line).

Definition as_i32 (z : Z) : Z := (z + 2 ^ 31) mod 2 ^ 32 - 2 ^ 31.

Definition group_subtotal (g : Group) : Z := sum_i64 (map line_subtotal (g_lines g)).

Definition group_shipping (g : Group) : Z :=
  if bool_decide (g_method g = Shipping)
  then sum_i64 (map (fun entry => l_shipping_minor (snd entry)) (g_lines g)) else 0.

(** The order of one group. *)
Definition group_order (actor : string) (command : Command) (payload : CreateCheckoutPayload)
    (context : CheckoutContext) (drop : option string) (cur : string) (exp : Z)
    (order_id payment_id : Uuid) (now : Time) (g : Group) : OrderRow :=
  let claimed := bool_decide (is_Some drop) in
  let order := new_for_insert order_id None drop actor (g_seller g)
    (map (order_line (g_method g)) (g_lines g))
    (if bool_decide (g_method g = Shipping) then cc_delivery_address payload else None)
    (group_subtotal g) (group_shipping g) (wrap64 (group_subtotal g + group_shipping g))
    cur exp (as_i32 (cc_guarantee_policy_version payload)) payment_id claimed
    (if claimed then Some (now + seconds (ctx_drop_claim_seconds context)) else None)
    (g_method g) now "listing" in
  (if claimed then order <| o_hold_source := Some HOLD_SOURCE_DROP_CLAIM |> else order)
    <| o_checkout_command_id := Some (c_command_id command) |>.

(** The distinct seller-authored payment locks of a group. *)
Definition lock_pairs (g : Group) : list (string * string) :=
  remove_dups (omap (fun entry =>
    match l_digital_lock_policy_uri (snd entry), l_digital_lock_criterion_id (snd entry) with
    | Some policy_uri, Some criterion_id => Some (policy_uri, criterion_id)
    | _, _ => None
    end) (g_lines g)).

Definition snapshot_locks `{!LocksCrates} (locks : option LocksKeys) (payment : PaymentRow)
    (g : Group) (now : Time) : H unit :=
  match locks, lock_pairs g with
  | Some keys, [(policy_uri, criterion_id)] =>
      let* n := fresh_nonce in
      let* amount_minor := or_fail (p_merchandise_amount_minor payment) NotNullViolation in
      let* asset := or_fail (p_merchandise_currency payment) NotNullViolation in
      let* exponent := or_fail (p_merchandise_exponent payment) NotNullViolation in
      insert locks_snapshots always (p_id payment)
        (mkLocksSnapshot (p_order_id payment)
           (encrypt_prepared_value keys n (p_id payment) CHECKOUT_RESOURCE_DOMAIN policy_uri)
           (to_hex (blake3_hash policy_uri)) criterion_id amount_minor asset exponent
           (p_buyer_pubky payment) (p_seller_pubky payment) now) no_clash
  | _, _ => ret tt
  end.

Section Checkout.
Context `{!UuidCrate, LC : !LocksCrates}.

(** One group: order, sealed email, payment, lock snapshot, event. *)
Definition create_group (actor : string) (command : Command) (payload : CreateCheckoutPayload)
    (locks : option LocksKeys) (context : CheckoutContext) (drop : option string) (cur : string)
    (exp : Z) (now : Time) (g : Group) : H (OrderRow * PaymentRow * Uuid) :=
  let* order_id := fresh_uuid in
  let* payment_id := fresh_uuid in
  let order := group_order actor command payload context drop cur exp order_id payment_id now g in
  do* insert orders order_check order_id order (order_clash order) in
  do* (if email_group g then
         match cc_delivery_email payload, ctx_digital context with
         | Some email, Some keys => store_delivery_email keys order_id actor email now
         | _, _ => refuse (refused InvariantViolation
                     "An email-kind order reached storage without its address or key.")
         end
       else ret tt) in
  let payment := new_payment payment_id order_id actor (g_seller g) (o_total_minor order) cur exp
                   (Some (o_total_minor order)) now in
  do* insert payments payment_check payment_id payment (payment_clash order_id) in
  do* snapshot_locks locks payment g now in
  let* event_id := insert_event (c_command_id command) (order_aggregate_id order_id) 1 actor
                     "order.created" now in
  ret (order, payment, event_id).

(** Lock-at-claim: the drop unit leaves the shelf with its debit. *)
Definition claim_line (now : Time) (entry : CheckoutLine * ListingRow) : H unit :=
  let '(line, listing) := entry in
  let new_state := state_after_reserve listing (cl_quantity line) in
  do* refuse_if (negb (listing_can (l_state listing) new_state))
        (refused_with_revision InvariantViolation "The listing cannot enter the reserved state."
           (l_server_revision listing)) in
  let* updated := update_where listings listing_check (l_aggregate_id listing)
    (fun l => (l_server_revision l =? cl_expected_revision line) &&
              (cl_quantity line <=? l_available_quantity l))
    (reserve_listing new_state (cl_quantity line) now) in
  match updated with
  | Some _ => ret tt
  | None =>
      let* latest := current_listing_revision (l_aggregate_id listing) in
      refuse (refused_with_revision RevisionConflict "A checkout listing revision is stale."
                latest)
  end.

(** The orders of the resolved lines. *)
Definition place_orders (actor : string) (command : Command) (payload : CreateCheckoutPayload)
    (locks : option LocksKeys) (context : CheckoutContext) (drop : option string)
    (resolved : list (CheckoutLine * ListingRow)) (first : ListingRow) (now : Time)
    : H (list (OrderRow * PaymentRow * Uuid)) :=
  do* refuse_if (negb (all_same_asset first resolved))
        (refused InvalidCommand "One checkout may contain only one asset and exponent.") in
  let* groups := group_lines context resolved [] in
  do* guard (address_rule groups payload) in
  do* guard (email_rule groups payload) in
  let* created := map_each groups
    (create_group actor command payload locks context drop
       (l_unit_price_currency first) (l_unit_price_exponent first) now) in
  do* (if bool_decide (is_Some drop) then for_each resolved (claim_line now) else ret tt) in
  ret created.

(** [checkout.create]. *)
Definition handle (actor : string) (command : Command) (payload : CreateCheckoutPayload)
    (locks : option LocksKeys) (context : CheckoutContext) (now : Time) : H HandlerSuccess :=
  do* refuse_if
        (negb (c_aggregate_id command =? checkout_aggregate_id (c_command_id command))%string ||
         negb (c_expected_revision command =? 0))
        (refused InvalidCommand "Checkout aggregate identity or revision is invalid.") in
  let* peeked := map_each (cc_lines payload) (peek_line actor) in
  let* drop := gate_checkout actor (c_command_id command) peeked now in
  let* resolved := map_each (map fst peeked) resolve_line in
  match resolved with
  | [] => panic "index out of bounds"
  | (_, first) :: _ =>
      let* created := place_orders actor command payload locks context drop resolved
                        first now in
      ret (mkSuccess 1 (map snd created)
             (VCheckout (map (fun c => command_view (fst (fst c))) created)
                (map (fun c => snd (fst c)) created)))
  end.
End Checkout.
