(* ===== verification/Records.v ===== *)
(** * Seller records ([homeserver.rs])

    The listing record is read leniently (unknown fields are ignored), the
    drop record strictly (unknown fields are refused).  Reading a struct
    follows [serde]: an object gives fields by name, an array by position, an
    absent field is an error unless it has a default. *)

From stdpp Require Import pretty.
From Stdlib Require Import Ascii.
From S2P Require Import Prelude Domain Text Json ReserveSecrecy Commands Validation LockResource.
From S2P Require Import Store Drops Checkout EventStream.

(** ** Structs *)

(** [deny_unknown_fields]. *)
Definition strict_fields (names : list string) (v : Json) : option (list (string * Json)) :=
  keep (forallb (fun kv : string * Json => contains names (fst kv))) (struct_fields names v).

Definition as_i32_json : Read Z := fun v => keep (fun z => between (- 2 ^ 31) z (2 ^ 31 - 1)) (as_i64 v).

(** ** Listing records *)

Record RecordVariant := mkRecordVariant { rv_quantity : Z }.

Record RecordMedia := mkRecordMedia { rm_content_hash : option string }.

Record RecordShippingOption := mkShippingOption {
  ro_pricing : string;
  ro_price : option Money;
}.

Record RecordDigitalLock := mkRecordLock {
  rk_policy_uri : string;
  rk_criterion_id : string;
}.

Record RecordSale := mkRecordSale {
  rs_format : string;
  rs_unit_price : option Money;
  rs_starting_price : option Money;
  rs_starts_at : option Time;
  rs_ends_at : option Time;
  rs_minimum_increment : option Money;
  rs_anti_sniping_window_seconds : option Z;
  rs_anti_sniping_extension_seconds : option Z;
}.

Record ListingRecord := mkListingRecord {
  lr_record_type : string;
  lr_schema_version : Z;
  lr_owner_pubky : string;
  lr_listing_id : string;
  lr_title : option string;
  lr_revision : Z;
  lr_media : list RecordMedia;
  lr_variants : list RecordVariant;
  lr_shipping_options : list RecordShippingOption;
  lr_sale : RecordSale;
  lr_fulfillment_methods : list string;
  lr_digital_lock : option RecordDigitalLock;
}.

(** [RecordMoney] and its [into_money]. *)
Definition read_money : Read Money := fun v =>
  fs ← struct_fields ["amountMinor"; "currency"; "exponent"] v;
  amount_minor ← required fs "amountMinor" as_i64;
  currency ← required fs "currency" as_str;
  exponent ← required fs "exponent" as_i32_json;
  Some (mkMoney amount_minor currency exponent).

Definition read_media : Read RecordMedia := fun v =>
  fs ← struct_fields ["contentHash"] v;
  mkRecordMedia <$> optional fs "contentHash" as_str.

Definition read_variant : Read RecordVariant := fun v =>
  fs ← struct_fields ["quantity"] v;
  mkRecordVariant <$> defaulted fs "quantity" as_i64 0.

Definition read_shipping_option : Read RecordShippingOption := fun v =>
  fs ← struct_fields ["pricing"; "price"] v;
  pricing ← required fs "pricing" as_str;
  price ← optional fs "price" read_money;
  Some (mkShippingOption pricing price).

Definition read_lock : Read RecordDigitalLock := fun v =>
  fs ← struct_fields ["policyUri"; "criterionId"] v;
  policy_uri ← required fs "policyUri" as_str;
  criterion_id ← required fs "criterionId" as_str;
  Some (mkRecordLock policy_uri criterion_id).

Section Reading.
Context `{!JsonText}.

(** [DateTime<Utc>]. *)
Definition as_datetime : Read Time := fun v => as_str v ≫= parse_datetime.

Definition read_sale : Read RecordSale := fun v =>
  fs ← struct_fields ["format"; "unitPrice"; "startingPrice"; "startsAt"; "endsAt";
                      "minimumIncrement"; "antiSnipingWindowSeconds";
                      "antiSnipingExtensionSeconds"] v;
  format ← required fs "format" as_str;
  unit_price ← optional fs "unitPrice" read_money;
  starting_price ← optional fs "startingPrice" read_money;
  starts_at ← optional fs "startsAt" as_datetime;
  ends_at ← optional fs "endsAt" as_datetime;
  minimum_increment ← optional fs "minimumIncrement" read_money;
  window ← optional fs "antiSnipingWindowSeconds" as_i64;
  extension ← optional fs "antiSnipingExtensionSeconds" as_i64;
  Some (mkRecordSale format unit_price starting_price starts_at ends_at minimum_increment window
          extension).

Definition read_listing_record : Read ListingRecord := fun v =>
  fs ← struct_fields ["recordType"; "schemaVersion"; "ownerPubky"; "listingId"; "title";
                      "revision"; "media"; "variants"; "shippingOptions"; "sale";
                      "fulfillmentMethods"; "digitalLock"] v;
  record_type ← required fs "recordType" as_str;
  schema_version ← required fs "schemaVersion" as_i64;
  owner_pubky ← required fs "ownerPubky" as_str;
  listing_id ← required fs "listingId" as_str;
  title ← optional fs "title" as_str;
  revision ← required fs "revision" as_i64;
  media ← defaulted fs "media" (read_vec read_media) [];
  variants ← defaulted fs "variants" (read_vec read_variant) [];
  shipping_options ← defaulted fs "shippingOptions" (read_vec read_shipping_option) [];
  sale ← required fs "sale" read_sale;
  fulfillment_methods ← defaulted fs "fulfillmentMethods" (read_vec as_str) [];
  digital_lock ← optional fs "digitalLock" read_lock;
  Some (mkListingRecord record_type schema_version owner_pubky listing_id title revision media
          variants shipping_options sale fulfillment_methods digital_lock).

(** ** Registration *)

(** What one option charges, when it can be priced in the listing currency. *)
Definition option_price (listing_currency : string) (o : RecordShippingOption) : option Z :=
  if (ro_pricing o =? "free")%string then Some 0
  else if (ro_pricing o =? "flat")%string then
    amount_minor <$> keep (fun price => (currency price =? listing_currency)%string &&
                                        (0 <=? amount_minor price)) (ro_price o)
  else None.

(** [Iterator::min]. *)
Definition minimum (l : list Z) : option Z :=
  match l with [] => None | x :: rest => Some (fold_left Z.min rest x) end.

Definition shipping_minor_from_options (options : list RecordShippingOption)
    (listing_currency : string) : Z :=
  default 0 (minimum (omap (option_price listing_currency) options)).

Definition record_publishes_physical_fulfillment (record : Json) : bool :=
  let methods := omap as_str (default [] (get "fulfillmentMethods" record ≫= as_array)) in
  existsb (fun m => (m =? "shipping") || (m =? "pickup"))%string methods ||
  negb (contains methods "digital").

Definition auction_terms_of (sale : RecordSale) : option AuctionTerms :=
  starts_at ← rs_starts_at sale;
  ends_at ← rs_ends_at sale;
  minimum_increment ← rs_minimum_increment sale;
  window ← rs_anti_sniping_window_seconds sale;
  extension ← rs_anti_sniping_extension_seconds sale;
  Some (mkAuctionTerms starts_at ends_at minimum_increment window extension).

Definition known_method (locks_listing : bool) (method : string) : option FulfillmentMethod :=
  if (method =? "shipping")%string then Some Shipping
  else if (method =? "pickup")%string then Some Pickup
  else if (method =? "digital")%string && negb locks_listing then Some Digital
  else None.

(** Each method once, first seen first. *)
Definition first_seen (methods : list FulfillmentMethod) : list FulfillmentMethod :=
  fold_left (fun seen m => if bool_decide (m ∈ seen) then seen else seen ++ [m]) methods [].

Definition default_fulfillment_methods : list FulfillmentMethod := [Shipping].

Definition record_methods (record : ListingRecord) : list FulfillmentMethod :=
  let locks_listing := bool_decide (is_Some (lr_digital_lock record)) in
  match first_seen (omap (known_method locks_listing) (lr_fulfillment_methods record)) with
  | [] => default_fulfillment_methods
  | methods => methods
  end.

Inductive RecordReading :=
| NotListing
| MalformedDigitalLock
| Registration (payload : RegisterListingPayload).

Context `{!Base32Crate}.

(** The canonical lock, an error when the lock is malformed. *)
Definition record_lock (record : ListingRecord) : option (option DigitalLockMetadata) :=
  match lr_digital_lock record with
  | None => Some None
  | Some lock =>
      policy_uri ← canonical_lock_resource (rk_policy_uri lock);
      if is_valid_entity_id (rk_criterion_id lock)
      then Some (Some (mkDigitalLock policy_uri (rk_criterion_id lock)))
      else None
  end.

Definition record_title (record : ListingRecord) : string :=
  default "Marketplace item" (keep (fun t => negb (trim t =? "")%string) (lr_title record)).

Definition record_hash (record : ListingRecord) : string :=
  default "" (head (lr_media record) ≫= rm_content_hash).

Definition record_sale (sale : RecordSale) : option (SaleFormat * Money * option AuctionTerms) :=
  if (rs_format sale =? "fixed_price")%string then
    (fun price => (FixedPrice, price, None)) <$> rs_unit_price sale
  else if (rs_format sale =? "auction")%string then
    price ← rs_starting_price sale;
    terms ← auction_terms_of sale;
    Some (Auction, price, Some terms)
  else None.

Definition registration_payload_from_record (seller_pubky : Pubky) (listing_id : string)
    (record : Json) : RecordReading :=
  if negb (ensure_reserve_free record) then NotListing
  else
    match read_listing_record record with
    | None => NotListing
    | Some record =>
        if negb ((lr_record_type record =? "listing")%string && (lr_schema_version record =? 1) &&
                 (lr_owner_pubky record =? seller_pubky)%string &&
                 (lr_listing_id record =? listing_id)%string)
        then NotListing
        else
          match record_sale (lr_sale record) with
          | None => NotListing
          | Some (sale_format, unit_price, auction_terms) =>
              match record_lock record with
              | None => MalformedDigitalLock
              | Some digital_lock =>
                  Registration (mkRegisterListing seller_pubky listing_id (record_title record)
                    (lr_revision record) (record_hash record)
                    (sum_i64 (map rv_quantity (lr_variants record))) unit_price
                    (shipping_minor_from_options (lr_shipping_options record)
                       (currency unit_price))
                    sale_format auction_terms None (record_methods record) digital_lock)
              end
          end
    end.

(** ** Drop records *)

(** The whole record; [Drops.DropRecord] is the part the handlers read. *)
Record WireDropRecord := mkWireDrop {
  wd_schema_version : Z;
  wd_record_type : string;
  wd_owner_pubky : string;
  wd_created_at : Time;
  wd_updated_at : Time;
  wd_drop_id : string;
  wd_title : string;
  wd_description : string;
  wd_media : list Json;
  wd_format : string;
  wd_terms : DropRecord;
}.

Definition drop_fields : list string :=
  ["schemaVersion"; "recordType"; "ownerPubky"; "revision"; "createdAt"; "updatedAt"; "dropId";
   "title"; "description"; "media"; "format"; "startsAt"; "endsAt"; "listingIds";
   "totalQuantity"; "perBuyerLimit"; "stockDisplay"].

Definition read_drop_record : Read WireDropRecord := fun v =>
  fs ← strict_fields drop_fields v;
  schema_version ← required fs "schemaVersion" as_i64;
  record_type ← required fs "recordType" as_str;
  owner_pubky ← required fs "ownerPubky" as_str;
  revision ← required fs "revision" as_i64;
  created_at ← required fs "createdAt" as_datetime;
  updated_at ← required fs "updatedAt" as_datetime;
  drop_id ← required fs "dropId" as_str;
  title ← required fs "title" as_str;
  description ← defaulted fs "description" as_str "";
  media ← defaulted fs "media" as_array [];
  format ← required fs "format" as_str;
  starts_at ← required fs "startsAt" as_datetime;
  ends_at ← optional fs "endsAt" as_datetime;
  listing_ids ← required fs "listingIds" (read_vec as_str);
  total_quantity ← required fs "totalQuantity" as_i64;
  per_buyer_limit ← required fs "perBuyerLimit" as_i64;
  stock_display ← required fs "stockDisplay" as_str;
  Some (mkWireDrop schema_version record_type owner_pubky created_at updated_at drop_id title
          description media format
          (mkDropRecord revision starts_at ends_at total_quantity per_buyer_limit stock_display
             listing_ids)).

Definition quoted (s : string) : string := String "034"%char (s +:+ String "034"%char "").

(** One listing id: its shape, then that it was not seen before. *)
Fixpoint listing_id_issues (index : nat) (seen : list string) (ids : list string)
    : list ValidationIssue :=
  match ids with
  | [] => []
  | id :: rest =>
      require (is_valid_entity_id id) ("record.listingIds." +:+ pretty index)
        "Expected a path-safe commerce identifier" ++
      require (negb (contains seen id)) "record.listingIds" "Listing ids must be unique" ++
      listing_id_issues (S index) (id :: seen) rest
  end.

Definition drop_record_issues (seller_pubky drop_id : string) (r : WireDropRecord)
    : list ValidationIssue :=
  let t := wd_terms r in
  let ids := Z.of_nat (length (dr_listing_ids t)) in
  require (wd_schema_version r =? 1) "record.schemaVersion" "Expected version 1" ++
  require (wd_record_type r =? "drop")%string "record.recordType" ("Expected " +:+ quoted "drop") ++
  require (wd_owner_pubky r =? seller_pubky)%string "record.ownerPubky"
    "Expected the seller the record was fetched from" ++
  require (wd_drop_id r =? drop_id)%string "record.dropId"
    "Expected the drop id the record was fetched for" ++
  require (1 <=? dr_revision t) "record.revision" "Expected a positive record revision" ++
  require (between 1 (chars_count (trim (wd_title r))) 120) "record.title"
    "Expected between 1 and 120 characters" ++
  require (chars_count (wd_description r) <=? 2000) "record.description"
    "Expected at most 2000 characters" ++
  require (Z.of_nat (length (wd_media r)) <=? 10) "record.media"
    "Expected at most 10 media entries" ++
  require (wd_format r =? "fcfs")%string "record.format" ("Expected " +:+ quoted "fcfs") ++
  require (match dr_ends_at t with Some e => dr_starts_at t <? e | None => true end)
    "record.endsAt" "Expected the drop end to follow its start" ++
  require (between 1 ids 20) "record.listingIds" "Expected between 1 and 20 listing ids" ++
  listing_id_issues 0 [] (dr_listing_ids t) ++
  require (between 1 (dr_total_quantity t) 1000000) "record.totalQuantity"
    "Expected a quantity between 1 and 1000000" ++
  (if negb (between 1 (dr_per_buyer_limit t) 100) then
     [issue "record.perBuyerLimit" "Expected a limit between 1 and 100"]
   else require (dr_per_buyer_limit t <=? dr_total_quantity t) "record.perBuyerLimit"
          "Expected a limit no greater than the total quantity") ++
  require (contains ["exact"; "bands"; "hidden"] (dr_stock_display t)) "record.stockDisplay"
    "Expected exact, bands, or hidden".

Definition validated_drop_record (seller_pubky drop_id : string) (record : Json)
    : DropRecord + list ValidationIssue :=
  match read_drop_record record with
  | None => inr [issue "record" "Expected a schema-version-1 drop record with no unknown fields"]
  | Some r => map_ok wd_terms (accept r (drop_record_issues seller_pubky drop_id r))
  end.

(** What [drop.sync] makes of a fetched record. *)
Definition drop_fetch (seller_pubky drop_id : string) (outcome : HomeserverFetchOutcome)
    : DropFetch :=
  match outcome with
  | FetchFound record =>
      match validated_drop_record seller_pubky drop_id record with
      | inl record => DropFound record
      | inr issues => DropInvalid issues
      end
  | FetchNotFound => DropNotFound
  | FetchUnavailable => DropUnavailable
  end.
End Reading.
