(* ===== verification/ContentLock.v ===== *)
(** * Content locks ([content_lock.rs])

    A seller's Locks document is decoded strictly into a typed value; its
    address is the hash of the canonical form of that value, so a document
    answers for exactly one resource.  [params] stays the JSON the seller
    wrote.  A document whose payment criterion the service accepts has exactly
    one criterion, of the exact shape. *)

From stdpp Require Import pretty.
From Stdlib Require Import Ascii.
From Stdlib.Strings Require Import Byte.
From S2P Require Import Prelude Domain Text Json ReserveSecrecy LocksKeys Pubky LockResource Store Records.

(** ** Timestamps ([mod rfc3339]) *)

Section Timestamps.
Context `{LC : !LocksCrates}.

(** [format!(".{:09}")]. *)
Definition pad9 (n : Z) : string :=
  let digits := pretty n in
  String.string_of_list_ascii (repeat "0"%char (9 - String.length digits)) +:+ digits.

Definition serialize_created_at (value : OffsetTime) : string :=
  let fraction := trim_end_matches "0" ("." +:+ pad9 (ot_nanosecond value)) in
  if ot_offset_seconds value =? 0 then
    if ot_nanosecond value =? 0 then clock_text (ot_local_seconds value) +:+ "Z"
    else clock_text (ot_local_seconds value) +:+ fraction +:+ "Z"
  else if ot_nanosecond value =? 0 then rfc3339_seconds value
  else clock_text (ot_local_seconds value) +:+ fraction +:+ offset_text (ot_offset_seconds value).

(** The strict shape, then the reader of [chrono]. *)
Definition strict_shape (value : string) : bool :=
  let at_ i c := bool_decide (String.get i value = Some c) in
  (20 <=? String.length value)%nat && at_ 4%nat "-"%char && at_ 7%nat "-"%char &&
  at_ 10%nat "T"%char && at_ 13%nat ":"%char && at_ 16%nat ":"%char &&
  bool_decide (strip_suffix "z" value = None).

Definition deserialize_created_at : Read OffsetTime := fun v =>
  value ← as_str v; if strict_shape value then parse_from_rfc3339 value else None.
End Timestamps.

(** ** The document *)

(** [PubkyIdentity]: the [pubky<z32>] spelling. *)
Abbreviation PubkyIdentity := string (only parsing).

Record GuardedResource := mkGuardedResource {
  gr_path : string;
  gr_hash : list byte;
  gr_content_type : string;
  gr_size : Z;
}.

Record SecondaryGuardedResource := mkSecondary {
  sg_hash : list byte;
  sg_content_type : string;
  sg_size : Z;
}.

Inductive VerifierType := DevStatic | PaykitPayment.

#[export] Instance VerifierType_eq_dec : EqDecision VerifierType.
Proof. solve_decision. Defined.

Definition verifier_str (t : VerifierType) : string :=
  match t with DevStatic => "dev-static" | PaykitPayment => "paykit-payment" end.

Record Criterion := mkCriterion {
  ct_criterion_id : string;
  ct_verifier_type : VerifierType;
  ct_params : Json;
}.

Inductive LockLogic := LogicAll (criteria : list string) | LogicAny (criteria : list string).

(** A document, [access_policy] and [lock_server] by their only field; the
    secondary resources in the order of their names. *)
Record ContentLock := mkContentLock {
  cl_version : Z;
  cl_creator : PubkyIdentity;
  cl_primary_resource : option GuardedResource;
  cl_secondary_resources : list (string * SecondaryGuardedResource);
  cl_criteria : list Criterion;
  cl_lock_logic : LockLogic;
  cl_requested_credential_ttl_seconds : Z;
  cl_lock_server_override : option PubkyIdentity;
  cl_created_at : OffsetTime;
}.

Inductive PaykitPaymentParamsRejection :=
| NotObject
| MissingField (name : string)
| UnknownField (name : string)
| InvalidRecipientPubky
| InvalidAmount
| InvalidAsset.

Inductive PaykitPaymentPolicyRejection :=
| MustBeOnlyCriterion
| InvalidParams (rejection : PaykitPaymentParamsRejection)
| RecipientMustMatchCreator
| InvalidLockLogic (criterion_id : string).

Inductive ContentLockIdentityRejection :=
| InvalidResource | InvalidDocument | CreatorMismatch | PathMismatch.

Record LockResourceParts := mkLockResourceParts {
  lx_creator : PubkyIdentity;
  lx_lock_id : string;
}.

Section ContentLock.
Context `{LC : !LocksCrates, B32 : !Base32Crate}.

(** [PubkyIdentity::parse]. *)
Definition parse_identity (value : string) : option PubkyIdentity := public_key value.

(** ** Decoding *)

Definition as_unsigned (bits : Z) : Read Z := fun v =>
  match v with JInt z => if between 0 z (2 ^ bits - 1) then Some z else None | _ => None end.

Definition read_identity : Read PubkyIdentity := fun v => as_str v ≫= parse_identity.

(** [GuardedResourceHash]: any spelling of exactly 32 bytes. *)
Definition read_resource_hash : Read (list byte) := fun v =>
  value ← as_str v; keep (fun decoded => (length decoded =? 32)%nat) (crockford_decode value).

Definition read_guarded_resource : Read GuardedResource := fun v =>
  fs ← strict_fields ["path"; "hash"; "content_type"; "size"] v;
  path ← required fs "path" as_str;
  hash ← required fs "hash" read_resource_hash;
  content_type ← required fs "content_type" as_str;
  size ← required fs "size" (as_unsigned 64);
  Some (mkGuardedResource path hash content_type size).

Definition read_secondary : Read SecondaryGuardedResource := fun v =>
  fs ← strict_fields ["hash"; "content_type"; "size"] v;
  hash ← required fs "hash" read_resource_hash;
  content_type ← required fs "content_type" as_str;
  size ← required fs "size" (as_unsigned 64);
  Some (mkSecondary hash content_type size).

(** [BTreeMap<String, _>]. *)
Definition read_secondaries : Read (list (string * SecondaryGuardedResource)) := fun v =>
  fields ← as_object v;
  mapM (fun kv : string * Json => (fun r => (fst kv, r)) <$> read_secondary (snd kv)) fields.

(** A unit variant: its name, or the object that maps the name to null. *)
Definition read_verifier : Read VerifierType := fun v =>
  name ← match v with
         | JString name | JObject [(name, JNull)] => Some name
         | _ => None
         end;
  find (fun t => verifier_str t =? name)%string [DevStatic; PaykitPayment].

Definition read_criterion : Read Criterion := fun v =>
  fs ← strict_fields ["criterion_id"; "verifier_type"; "params"] v;
  criterion_id ← required fs "criterion_id" as_str;
  verifier_type ← required fs "verifier_type" read_verifier;
  params ← required fs "params" Some;
  Some (mkCriterion criterion_id verifier_type params).

(** Internally tagged on [type]: the tag is a field of the object, or the first
    element of the array. *)
Definition read_logic : Read LockLogic := fun v =>
  '(tag, rest) ←
    match v with
    | JObject fields =>
        tag ← field "type" fields;
        Some (tag, JObject (List.filter (fun kv => negb (fst kv =? "type")%string) fields))
    | JArray (tag :: rest) => Some (tag, JArray rest)
    | _ => None
    end;
  name ← as_str tag;
  fs ← strict_fields ["criteria"] rest;
  criteria ← required fs "criteria" (read_vec as_str);
  if (name =? "all")%string then Some (LogicAll criteria)
  else if (name =? "any")%string then Some (LogicAny criteria)
  else None.

Definition read_access_policy : Read Z := fun v =>
  fs ← strict_fields ["requested_credential_ttl_seconds"] v;
  required fs "requested_credential_ttl_seconds" (as_unsigned 64).

(** [LockServerConfig]: an absent key is read as null, an empty array is too
    short. *)
Definition read_lock_server : Read (option PubkyIdentity) := fun v =>
  match v with
  | JArray [] => None
  | _ => fs ← strict_fields ["override"] v; optional fs "override" read_identity
  end.

Definition read_content_lock : Read ContentLock := fun v =>
  fs ← strict_fields ["version"; "creator"; "primary_resource"; "secondary_resources"; "criteria";
                      "lock_logic"; "access_policy"; "lock_server"; "created_at"] v;
  version ← required fs "version" (as_unsigned 16);
  creator ← required fs "creator" read_identity;
  primary_resource ← optional fs "primary_resource" read_guarded_resource;
  secondary_resources ← defaulted fs "secondary_resources" read_secondaries [];
  criteria ← required fs "criteria" (read_vec read_criterion);
  lock_logic ← required fs "lock_logic" read_logic;
  ttl ← required fs "access_policy" read_access_policy;
  lock_server ← required fs "lock_server" read_lock_server;
  created_at ← required fs "created_at" deserialize_created_at;
  Some (mkContentLock version creator primary_resource secondary_resources criteria lock_logic
          ttl lock_server created_at).

(** ** Encoding *)

Definition write_hash (hash : list byte) : Json := JString (crockford_encode hash).

Definition write_guarded_resource (r : GuardedResource) : Json :=
  JObject [("path", JString (gr_path r)); ("hash", write_hash (gr_hash r));
           ("content_type", JString (gr_content_type r)); ("size", JInt (gr_size r))].

Definition write_secondary (r : SecondaryGuardedResource) : Json :=
  JObject [("hash", write_hash (sg_hash r)); ("content_type", JString (sg_content_type r));
           ("size", JInt (sg_size r))].

Definition write_criterion (c : Criterion) : Json :=
  JObject [("criterion_id", JString (ct_criterion_id c));
           ("verifier_type", JString (verifier_str (ct_verifier_type c)));
           ("params", ct_params c)].

Definition write_logic (l : LockLogic) : Json :=
  let '(tag, criteria) :=
    match l with LogicAll criteria => ("all", criteria) | LogicAny criteria => ("any", criteria) end in
  JObject [("type", JString tag); ("criteria", JArray (map JString criteria))].

(** An absent primary resource and an empty map of secondary ones are left
    out. *)
Definition write_content_lock (c : ContentLock) : Json :=
  JObject
    ([("version", JInt (cl_version c)); ("creator", JString (cl_creator c))] ++
     match cl_primary_resource c with
     | Some r => [("primary_resource", write_guarded_resource r)]
     | None => []
     end ++
     match cl_secondary_resources c with
     | [] => []
     | rs => [("secondary_resources",
               JObject (map (fun kr => (fst kr, write_secondary (snd kr))) rs))]
     end ++
     [("criteria", JArray (map write_criterion (cl_criteria c)));
      ("lock_logic", write_logic (cl_lock_logic c));
      ("access_policy",
       JObject [("requested_credential_ttl_seconds", JInt (cl_requested_credential_ttl_seconds c))]);
      ("lock_server",
       JObject [("override", match cl_lock_server_override c with
                             | Some k => JString k
                             | None => JNull
                             end)]);
      ("created_at", JString (serialize_created_at (cl_created_at c)))]).

Definition canonical_json_bytes (c : ContentLock) : option string :=
  canonicalize (write_content_lock c).

Definition lock_id (c : ContentLock) : option string :=
  (fun canonical => crockford_encode (blake3_hash canonical)) <$> canonical_json_bytes c.

(** ** The payment policy *)

Definition validate_paykit_payment_params (params : Json)
    : unit + PaykitPaymentParamsRejection :=
  let? object := ok_or (as_object params) NotObject in
  let? _ :=
    match find (fun kv : string * Json =>
                  negb (contains ["recipient_pubky"; "amount"; "asset"] (fst kv))) object with
    | Some (key, _) => inr (UnknownField key)
    | None => inl tt
    end in
  let? recipient_pubky :=
    ok_or (field "recipient_pubky" object ≫= as_str) (MissingField "recipient_pubky") in
  let? _ := ok_or (parse_identity recipient_pubky) InvalidRecipientPubky in
  let? amount := ok_or (field "amount" object) (MissingField "amount") in
  let? amount := ok_or (as_str amount) InvalidAmount in
  let? _ :=
    if (amount =? "")%string || negb (bytes_all is_digit amount) ||
       negb (existsb (fun b => negb (b =? 48)) (bytes amount))
    then inr InvalidAmount else inl tt in
  let? asset := ok_or (field "asset" object) (MissingField "asset") in
  let? asset := ok_or (as_str asset) InvalidAsset in
  if (asset =? "")%string then inr InvalidAsset else inl tt.

Definition logic_criteria (l : LockLogic) : list string :=
  match l with LogicAll criteria | LogicAny criteria => criteria end.

Definition validate_paykit_payment_v1_policy (c : ContentLock)
    : unit + PaykitPaymentPolicyRejection :=
  match find (fun criterion => bool_decide (ct_verifier_type criterion = PaykitPayment))
          (cl_criteria c) with
  | None => inl tt
  | Some criterion =>
      if negb (length (cl_criteria c) =? 1)%nat then inr MustBeOnlyCriterion
      else
        match validate_paykit_payment_params (ct_params criterion) with
        | inr rejection => inr (InvalidParams rejection)
        | inl _ =>
            match (v ← get "recipient_pubky" (ct_params criterion); s ← as_str v; parse_identity s) with
            | None => inr (InvalidParams InvalidRecipientPubky)
            | Some recipient =>
                if negb (recipient =? cl_creator c)%string then inr RecipientMustMatchCreator
                else if bool_decide (logic_criteria (cl_lock_logic c) = [ct_criterion_id criterion])
                then inl tt
                else inr (InvalidLockLogic (ct_criterion_id criterion))
            end
        end
  end.

(** ** The address *)

Definition parse_lock_resource_typed (resource : string) : option LockResourceParts :=
  canonical ← canonical_lock_resource resource;
  '(creator, _, path) ← split_lock_resource canonical;
  creator ← parse_identity creator;
  lock_id ← strip_suffix ".json" path;
  Some (mkLockResourceParts creator lock_id).

Definition validate_content_lock_value (document : Json) (expected_resource : string)
    : ContentLock + ContentLockIdentityRejection :=
  let? expected := ok_or (parse_lock_resource_typed expected_resource) InvalidResource in
  let? content_lock := ok_or (read_content_lock document) InvalidDocument in
  if negb (cl_creator content_lock =? lx_creator expected)%string then inr CreatorMismatch
  else
    let? actual_lock_id := ok_or (lock_id content_lock) InvalidDocument in
    if negb (actual_lock_id =? lx_lock_id expected)%string then inr PathMismatch
    else inl content_lock.
End ContentLock.
