(* ===== verification/Locks.v ===== *)
(** * The Locks payment binding ([handlers/locks.rs], [locks.rs])

    [prepare] turns the checkout's immutable lock snapshot into the one
    correlation of a payment, with the inventory hold and a server-minted
    reference; [register] attaches the buyer's bundle to it.  Neither
    advances the payment. *)

From stdpp Require Import pretty sorting.
From Stdlib.Strings Require Import Byte.
From S2P Require Import Prelude Domain Text Json LocksKeys Pubky LockResource Store Commands Actions.
From S2P Require Import Holds EventStream Records ContentLock.

Definition OUTCOME_PREPARED : string := "prepared".
Definition OUTCOME_REGISTERED : string := "registered".

(** ** The correlation table *)

(** [SELECT .. WHERE payment_id = $1 FOR UPDATE]; the column is unique. *)
Definition correlation_of (payment_id : Uuid) (db : Db) : option CorrelationRow :=
  find (fun c => N.eqb (cr_payment_id c) payment_id) (map snd (map_to_list (locks_correlations db))).

(** The unique columns besides the key: the payment, the order, the token. *)
Definition correlation_clash (c : CorrelationRow) (db : Db) : bool :=
  table_any (fun c' =>
    negb (N.eqb (cr_id c') (cr_id c)) &&
    (N.eqb (cr_payment_id c') (cr_payment_id c) || N.eqb (cr_order_id c') (cr_order_id c) ||
     (bool_decide (is_Some (cr_bundle_lookup_token c)) &&
      bool_decide (cr_bundle_lookup_token c' = cr_bundle_lookup_token c)))) (locks_correlations db).

Section Locks.
Context `{!UuidCrate, LC : !LocksCrates, B32 : !Base32Crate}.

Definition record_binding_outcome (command_id payment_id : Uuid) (outcome : string) (now : Time)
    : H unit :=
  let* id := fresh_uuid in
  modify (upd binding_outcomes
    (fun l => l ++ [mkBindingOutcome id payment_id command_id outcome now])).

(** The payment, its buyer and its aggregate. *)
Definition load_locks_payment (actor : string) (command : Command) (payment_id : Uuid)
    (not_buyer : string) : H PaymentRow :=
  let* row := select payments payment_id in
  let* payment := or_refuse row (refused NotFound "The payment was not found.") in
  do* refuse_if (negb (p_buyer_pubky payment =? actor)%string) (refused Unauthorized not_buyer) in
  do* refuse_if (negb (c_aggregate_id command =? payment_aggregate_id (p_id payment))%string)
        (refused InvalidCommand "The payment aggregate id is invalid.") in
  ret payment.

Definition locks_revision_guard (command : Command) (payment : PaymentRow) (not_awaiting : string)
    : H unit :=
  do* refuse_if (negb (c_expected_revision command =? p_revision payment))
        (refused_with_revision RevisionConflict "The payment revision is stale."
           (p_revision payment)) in
  refuse_if (negb (bool_decide (p_state payment = PAwaitingEntitlement)))
    (refused InvalidState not_awaiting).

(** [UPDATE payments SET revision = revision + 1, adapter = 'locks']. *)
Definition pin_locks_adapter (payment_id : Uuid) (now : Time) : H PaymentRow :=
  update_one payments payment_check payment_id always
    (fun p => p <| p_revision := p_revision p + 1 |> <| p_adapter := "locks" |>
                <| p_updated_at := now |>).

(** ** Registration *)

Definition attach_bundle (ciphertext token : string) (now : Time) (c : CorrelationRow)
    : CorrelationRow :=
  c <| cr_bundle_id_ciphertext := Some ciphertext |> <| cr_bundle_lookup_token := Some token |>
    <| cr_preparation_state := PrRegistered |> <| cr_verification_state := VfPending |>
    <| cr_binding_outcome := Some OUTCOME_REGISTERED |> <| cr_updated_at := now |>.

(** The order still holds the prepared window, which is open. *)
Definition window_guard (order : OrderRow) (window_expires_at now : Time) : H unit :=
  do* refuse_if (negb (bool_decide (o_state order = OPendingPayment)) || negb (o_stock_held order)
                 || negb (bool_decide (o_hold_expires_at order = Some window_expires_at)))
        (refused InvalidState "The order no longer holds the prepared Locks payment window.") in
  refuse_if (window_expires_at <=? now)
    (refused InvalidState "The Locks preparation has expired.").

Definition register_locks (actor : string) (command : Command) (payload : RegisterLocksPayload)
    (locks : option LocksKeys) (now : Time) : H HandlerSuccess :=
  let* keys := or_refuse locks
    (refused InvalidCommand "Locks verification is not enabled on this deployment.") in
  let* payment := load_locks_payment actor command (rk_payment_id payload)
                    "Only the buyer may register the Locks correlation." in
  do* locks_revision_guard command payment
        "Only a payment awaiting entitlement can register a Locks correlation." in
  let* row := gets (correlation_of (p_id payment)) in
  let* prepared := or_refuse row (refused InvalidState
    "Prepare the seller-authorized Locks payment before registering a bundle.") in
  do* refuse_if (negb (bool_decide (cr_preparation_state prepared = PrPrepared)))
        (refused InvalidState "The payment already has a registered Locks bundle.") in
  let* row := fetch_order_for_update (p_order_id payment) in
  let* order := or_refuse row (refused InvariantViolation "Payment order is missing.") in
  do* window_guard order (cr_window_expires_at prepared) now in
  let* n := fresh_nonce in
  let ciphertext := encrypt_bundle_id keys n (p_id payment) (rk_bundle_id payload) in
  let token := lookup_token keys (cr_creator_pubky prepared) (rk_bundle_id payload) in
  let* clash := gets (correlation_clash (attach_bundle ciphertext token now prepared)) in
  do* (if clash then sql_fail UniqueViolation
       else let* _ := update_where locks_correlations correlation_check (cr_id prepared) always
                        (attach_bundle ciphertext token now) in ret tt) in
  do* record_binding_outcome (c_command_id command) (p_id payment) OUTCOME_REGISTERED now in
  let* updated_payment := pin_locks_adapter (p_id payment) now in
  let* event_id := insert_event (c_command_id command) (c_aggregate_id command)
                     (p_revision updated_payment) actor "payment.locks_registered" now in
  ret (mkSuccess (p_revision updated_payment) [event_id]
         (VLocksRegistered updated_payment (cr_window_expires_at prepared))).

(** ** Preparation *)

Definition snapshot_matches_price_of_record (snapshot : LocksSnapshot) (payment : PaymentRow)
    : bool :=
  bool_decide (p_merchandise_amount_minor payment = Some (ls_amount_minor snapshot)) &&
  bool_decide (p_merchandise_currency payment = Some (ls_asset snapshot)) &&
  bool_decide (p_merchandise_exponent payment = Some (ls_exponent snapshot)) &&
  (p_amount_minor payment =? ls_amount_minor snapshot) &&
  (p_currency payment =? ls_asset snapshot)%string &&
  (p_exponent payment =? ls_exponent snapshot).

(** The unit the Lock Server counts. *)
Definition locks_denomination (currency : string) (exponent amount_minor : Z)
    : option (string * Z) :=
  if ((currency =? "USD")%string && (exponent =? 2))%bool then Some ("USD", amount_minor)
  else if (((currency =? "BTC")%string && (exponent =? 8)) ||
           ((currency =? "SAT")%string && (exponent =? 0)))%bool then Some ("BTC", amount_minor)
  else None.

Definition param (c : Criterion) (name : string) : option string := get name (ct_params c) ≫= as_str.

Definition criterion_matches_payment (content_lock : ContentLock) (criterion_id : string)
    (amount_minor : Z) (currency : string) (exponent : Z) : bool :=
  match locks_denomination currency exponent amount_minor, cl_criteria content_lock with
  | Some (lock_asset, lock_amount), [criterion] =>
      (ct_criterion_id criterion =? criterion_id)%string &&
      bool_decide (ct_verifier_type criterion = PaykitPayment) &&
      bool_decide (param criterion "recipient_pubky" ≫= parse_identity
                   = Some (cl_creator content_lock)) &&
      bool_decide (param criterion "asset" = Some lock_asset) &&
      bool_decide (param criterion "amount" = Some (pretty lock_amount))
  | _, _ => false
  end.

(** The answer to a payment that already has a correlation. *)
Definition replay_preparation (keys : LocksKeys) (payment : PaymentRow) (existing : CorrelationRow)
    (now : Time) : H HandlerSuccess :=
  match cr_preparation_state existing, cr_client_reference_ciphertext existing with
  | PrPrepared, Some sealed_reference =>
      do* refuse_if (cr_window_expires_at existing <=? now)
            (refused InvalidState "The Locks preparation has expired.") in
      match open_prepared_value keys (p_id payment) CLIENT_REFERENCE_DOMAIN sealed_reference with
      | Some client_reference =>
          ret (mkSuccess (p_revision payment) []
                 (VPrepareLocks client_reference (cr_window_expires_at existing)))
      | None => refuse (refused InvalidState "The payment already has a Locks preparation.")
      end
  | _, _ => refuse (refused InvalidState "The payment already has a Locks preparation.")
  end.

(** The snapshot's resource, opened and checked against its hash. *)
Definition snapshot_resource (keys : LocksKeys) (payment : PaymentRow) (order : OrderRow)
    (snapshot : LocksSnapshot) : H string :=
  do* refuse_if (bool_decide (is_Some (o_payment_method order)))
        (refused InvalidState "The payment is already bound to a non-Locks payment rail.") in
  do* refuse_if (negb (N.eqb (ls_order_id snapshot) (p_order_id payment)) ||
                 negb (ls_expected_reader_pubky snapshot =? p_buyer_pubky payment)%string ||
                 negb (ls_expected_recipient_pubky snapshot =? p_seller_pubky payment)%string ||
                 negb (snapshot_matches_price_of_record snapshot payment))
        (refused InvalidState "The checkout Locks snapshot does not match the payment.") in
  let* resource := or_refuse
    (open_prepared_value keys (p_id payment) CHECKOUT_RESOURCE_DOMAIN
       (ls_expected_resource_ciphertext snapshot))
    (refused InvariantViolation "The checkout Locks snapshot could not be opened.") in
  do* refuse_if (negb (to_hex (blake3_hash resource) =? ls_expected_resource_hash snapshot)%string)
        (refused InvalidState "The checkout Locks snapshot does not match the payment.") in
  ret resource.

Definition DOCUMENT_MISMATCH : CommandFailure :=
  refused InvalidState "The seller's Locks document does not match the payment.".

(** The seller's document, fetched from where they published it and held
    against the snapshot. *)
Definition fetch_matching_lock (fetch_content_lock : Pubky -> string -> HomeserverFetchOutcome)
    (payment : PaymentRow) (snapshot : LocksSnapshot) (resource : string) : H ContentLock :=
  let* canonical_resource := or_refuse (canonical_lock_resource resource)
    (refused InvalidState "The seller's Locks resource is invalid.") in
  let* parts := or_refuse (split_lock_resource canonical_resource)
    (refused InvalidState "The seller's Locks resource is invalid.") in
  let '(creator, prefix, content_path) := parts in
  do* refuse_if (negb (creator =? p_seller_pubky payment)%string)
        (refused InvalidState "The seller's Locks resource creator does not match the order.") in
  let* content :=
    match fetch_content_lock creator (prefix +:+ content_path) with
    | FetchFound value => ret value
    | FetchNotFound =>
        refuse (refused InvalidState "The seller's Locks document is unavailable.")
    | FetchUnavailable =>
        refuse (refused UpstreamUnavailable "The seller's Locks document could not be reached.")
    end in
  match validate_content_lock_value content resource with
  | inr _ => refuse DOCUMENT_MISMATCH
  | inl content_lock =>
      match validate_paykit_payment_v1_policy content_lock with
      | inr _ => refuse DOCUMENT_MISMATCH
      | inl _ =>
          do* refuse_if (negb (criterion_matches_payment content_lock (ls_criterion_id snapshot)
                                 (ls_amount_minor snapshot) (ls_asset snapshot)
                                 (ls_exponent snapshot))) DOCUMENT_MISMATCH in
          ret content_lock
      end
  end.

(** The correlation is filled from the verified snapshot. *)
Definition prepared_correlation (correlation_id : Uuid) (payment : PaymentRow)
    (snapshot : LocksSnapshot) (policy_version : Z)
    (resource_ciphertext reference_ciphertext : string) (window_expires_at now : Time)
    : CorrelationRow :=
  mkCorrelation correlation_id (p_id payment) (ls_order_id snapshot)
    (ls_expected_reader_pubky snapshot) (ls_expected_recipient_pubky snapshot)
    (ls_expected_resource_hash snapshot) (ls_amount_minor snapshot) (ls_asset snapshot)
    (ls_exponent snapshot) policy_version None None VfPending window_expires_at None None None
    (Some resource_ciphertext) (Some (ls_expected_resource_hash snapshot))
    (Some (ls_criterion_id snapshot)) (Some (ls_expected_reader_pubky snapshot))
    (Some (ls_expected_recipient_pubky snapshot)) (Some reference_ciphertext) PrPrepared
    (Some OUTCOME_PREPARED) now now.

(** The hold, the correlation, its outcome and the adapter. *)
Definition bind_preparation (command : Command) (keys : LocksKeys) (payment : PaymentRow)
    (order : OrderRow) (snapshot : LocksSnapshot) (resource : string)
    (payment_window_seconds : Z) (now : Time) : H HandlerSuccess :=
  do* (let* _ := acquire_payment_hold order payment_window_seconds HOLD_SOURCE_LOCKS now in ret tt) in
  let* r := fresh_nonce in
  let client_reference := mint_client_reference r in
  let* correlation_id := fresh_uuid in
  let window_expires_at := now + seconds payment_window_seconds in
  let* n := fresh_nonce in
  let* n' := fresh_nonce in
  let* policy := gets (fun db => o_guarantee_policy_version <$> orders db !! ls_order_id snapshot) in
  let* policy_version := or_fail policy NotNullViolation in
  let correlation := prepared_correlation correlation_id payment snapshot policy_version
    (encrypt_prepared_value keys n (p_id payment) RESOURCE_DOMAIN resource)
    (encrypt_prepared_value keys n' (p_id payment) CLIENT_REFERENCE_DOMAIN client_reference)
    window_expires_at now in
  do* insert locks_correlations correlation_check correlation_id correlation
        (correlation_clash correlation) in
  do* record_binding_outcome (c_command_id command) (p_id payment) OUTCOME_PREPARED now in
  let* updated_payment := pin_locks_adapter (p_id payment) now in
  ret (mkSuccess (p_revision updated_payment) []
         (VPrepareLocks client_reference window_expires_at)).

Definition prepare_locks (actor : string) (command : Command) (payload : PrepareLocksPayload)
    (locks : option LocksKeys)
    (fetch_content_lock : option (Pubky -> string -> HomeserverFetchOutcome))
    (payment_window_seconds : Z) (now : Time) : H HandlerSuccess :=
  match locks, fetch_content_lock with
  | Some keys, Some fetch_content_lock =>
      let* payment := load_locks_payment actor command (pl_payment_id payload)
                        "Only the buyer may prepare the Locks payment." in
      let* existing := gets (correlation_of (p_id payment)) in
      match existing with
      | Some existing => replay_preparation keys payment existing now
      | None =>
          do* locks_revision_guard command payment
                "Only a payment awaiting entitlement can prepare Locks." in
          let* row := fetch_order_for_update (p_order_id payment) in
          let* order := or_refuse row (refused InvariantViolation "Payment order is missing.") in
          do* refuse_if (negb (bool_decide (o_state order = OPendingPayment)))
                (refused InvalidState "Only a pending order can prepare Locks.") in
          let* row := select locks_snapshots (p_id payment) in
          let* snapshot := or_refuse row (refused InvalidState
            "The order has no seller-authored Locks payment lock snapshot.") in
          let* resource := snapshot_resource keys payment order snapshot in
          let* _ := fetch_matching_lock fetch_content_lock payment snapshot resource in
          bind_preparation command keys payment order snapshot resource payment_window_seconds now
      end
  | _, _ => refuse (refused InvalidCommand "Locks preparation is not enabled on this deployment.")
  end.
End Locks.

(** ** Retention *)

Definition SNAPSHOT_PURGE_LIMIT : nat := 500.

Definition created_before (a b : Uuid * LocksSnapshot) : Prop :=
  ls_created_at (snd a) <= ls_created_at (snd b).

#[export] Instance created_before_dec a b : Decision (created_before a b).
Proof. unfold created_before. solve_decision. Defined.

(** The snapshots of settled payments older than the retention, oldest first. *)
Definition purgeable_snapshots (cutoff : Time) (db : Db) : list (Uuid * LocksSnapshot) :=
  take SNAPSHOT_PURGE_LIMIT (merge_sort created_before
    (List.filter (fun s =>
       match payments db !! fst s with
       | Some p => bool_decide (p_state p = PConfirmed \/ p_state p = PExpired)
       | None => false
       end && (ls_created_at (snd s) <? cutoff)) (map_to_list (locks_snapshots db)))).

Definition purge_terminal_locks_checkout_snapshots (now : Time) (retention_days : Z) : H Z :=
  let* purged := gets (purgeable_snapshots (now - seconds (retention_days * 86400))) in
  do* modify (upd locks_snapshots (fun t => foldr (fun s => delete (fst s)) t purged)) in
  ret (Z.of_nat (length purged)).
