(* ===== verification/ListingDeletion.v ===== *)
(** * Listing tombstones ([listing_deletion.rs], migrations 0050 and 0051)

    A listing follows its homeserver record into deletion.  The row is kept; a
    tombstone commits only under a declared authority, for the record epoch
    that was read before the delete was confirmed, and never for a delete
    older than one a revival superseded. *)

From S2P Require Import Prelude Domain Json Store Commands Actions Drops.

Definition LISTING_DELETED_EVENT : string := "listing.deleted".

(** The lease task of the deletion follower. *)
Definition TASK_LISTING_DELETIONS : string := "listing_deletions".

Inductive DeletionAuthority :=
| ByCommand
| ByFollower (holder : Uuid) (fence : Z).

(** What a transaction declared with [set_config]: the authority and the
    observed epoch. *)
Definition Declared : Type := option (DeletionAuthority * Z).

(** ** The triggers of [listings] *)

(** [listing_deletion_authority_holds_lease], or the command's authority. *)
Definition authorized (db : Db) (authority : DeletionAuthority) : bool :=
  match authority with
  | ByCommand => true
  | ByFollower holder fence =>
      match worker_leases db !! TASK_LISTING_DELETIONS with
      | Some lease => N.eqb (wl_holder lease) holder && (wl_fence lease =? fence)
      | None => false
      end
  end.

(** [a < b] on cursors, where an absent one is below every other. *)
Definition cursor_below (a b : option Z) : bool :=
  match a, b with
  | _, None => false
  | None, Some _ => true
  | Some a, Some b => a <? b
  end.

(** [listings_deletion_guard]: the row to write, or the exception. *)
Definition listings_deletion_guard (db : Db) (declared : Declared) (old new : ListingRow)
    : ListingRow + string :=
  if cursor_below (l_revived_from_cursor new) (l_revived_from_cursor old) then
    inr "listing revival marker refused: it would move backwards"
  else if is_deleted old && negb (is_deleted new) then
    inl (if cursor_below (l_revived_from_cursor new) (l_deleted_event_cursor old)
         then new <| l_revived_from_cursor := l_deleted_event_cursor old |> else new)
  else if negb (is_deleted old) && is_deleted new then
    match declared with
    | None => inr "listing tombstone refused: no current deletion authority"
    | Some (authority, observed_epoch) =>
        if negb (authorized db authority) then
          inr "listing tombstone refused: no current deletion authority"
        else if negb (observed_epoch =? l_record_epoch old) then
          inr "listing tombstone refused: the record changed after the delete was confirmed"
        else if bool_decide (is_Some (l_deleted_event_cursor new)) &&
                cursor_below (l_deleted_event_cursor new) (l_revived_from_cursor new) then
          inr "listing tombstone refused: its delete predates the revival"
        else inl new
    end
  else inl new.

(** The columns a seller's record supplies. *)
Definition record_columns (l : ListingRow) :=
  (l_listing_revision l, l_title l, l_content_hash l, l_unit_price_amount_minor l,
   l_shipping_minor l, l_fulfillment_methods l, l_digital_lock_policy_uri l,
   l_digital_lock_criterion_id l).

(** [listings_record_epoch]: a statement advances the epoch by exactly one, or
    not at all. *)
Definition listings_record_epoch (old new : ListingRow) : ListingRow :=
  if (is_deleted old && negb (is_deleted new)) ||
     negb (bool_decide (record_columns new = record_columns old))
  then new <| l_record_epoch := l_record_epoch old + 1 |>
  else if negb (l_record_epoch new =? l_record_epoch old + 1)
  then new <| l_record_epoch := l_record_epoch old |>
  else new.

(** [UPDATE listings SET .. WHERE aggregate_id = $1 AND cond RETURNING *] with
    its triggers. *)
Definition update_listing (declared : Declared) (aggregate_id : string)
    (cond : ListingRow -> bool) (f : ListingRow -> ListingRow) : H (option ListingRow) :=
  let* row := select listings aggregate_id in
  match row with
  | Some old =>
      if cond old then
        let* guarded := gets (fun db => listings_deletion_guard db declared old (f old)) in
        match guarded with
        | inr message => sql_fail (Protocol message)
        | inl new =>
            let new := listings_record_epoch old new in
            do* write listings listing_check aggregate_id new in
            ret (Some new)
        end
      else ret None
  | None => ret None
  end.

(** ** The tombstone *)

Record LiveListing := mkLive {
  ll_generation : Z;
  ll_record_epoch : Z;
}.

Definition observe_live (aggregate_id : string) : H (option LiveListing) :=
  gets (fun db => (fun l => mkLive (l_generation l) (l_record_epoch l)) <$>
                  live (listings db !! aggregate_id)).

(** [TOMBSTONE_FENCE] on a live row. *)
Definition tombstone_fence (event_cursor observed_epoch : Z) (l : ListingRow) : bool :=
  negb (is_deleted l) && (l_record_epoch l =? observed_epoch) &&
  match l_revived_from_cursor l with
  | None => true
  | Some revived => revived <=? event_cursor
  end.

(** [UPDATE drop_listings SET active = FALSE, released = TRUE]. *)
Definition release_bindings (seller_pubky listing_id : string) : H unit :=
  modify (upd drop_listings (map_imap (fun k row =>
    Some (if (snd (fst k) =? seller_pubky)%string && (snd k =? listing_id)%string &&
             negb (dl_released row)
          then mkDropListing false true (dl_listing_generation row) else row)))).

(** A nested transaction that is rolled back when it finds no row. *)
Definition savepoint {A} (m : H (option A)) : H (option A) := fun db =>
  match m db with
  | Done None _ => Done None db
  | outcome => outcome
  end.

Lemma wp_savepoint {A} (m : H (option A)) Q R db :
  wp m (fun a db' => match a with None => Q None db | Some _ => Q a db' end) R db ->
  wp (savepoint m) Q R db.
Proof. unfold wp, savepoint. by destruct (m db) as [[a|] db'| | |]. Qed.

Section Tombstone.
Context `{!UuidCrate}.

Definition tombstone (authority : DeletionAuthority) (aggregate_id : string)
    (event_cursor observed_epoch : Z) (actor : string) (command_id : Uuid) (now : Time)
    : H (option (ListingRow * Uuid)) :=
  let declared := Some (authority, observed_epoch) in
  let* row := select listings aggregate_id in
  match keep (tombstone_fence event_cursor observed_epoch) row with
  | None => ret None
  | Some live =>
      savepoint (
        do* release_bindings (l_seller_pubky live) (l_listing_id live) in
        let* deleted := update_listing declared aggregate_id
          (tombstone_fence event_cursor observed_epoch)
          (fun l => l <| l_deleted_at := Some now |>
                      <| l_deleted_event_cursor := Some event_cursor |>
                      <| l_server_revision := l_server_revision l + 1 |>
                      <| l_updated_at := now |>) in
        match deleted with
        | None => ret None
        | Some deleted =>
            let* event_id := insert_event command_id aggregate_id (l_server_revision deleted) actor
                               LISTING_DELETED_EVENT now in
            ret (Some (deleted, event_id))
        end)
  end.
End Tombstone.
