(* ===== verification/Within.v ===== *)
(** * Relations kept by transactions

    A relation between the stores before and after is kept by a transaction
    when it holds at every end that has a store.  Kept relations compose, so a
    handler keeps what its statements keep; in particular it leaves alone every
    table it has no statement on. *)

From S2P Require Import Prelude Domain Store Commands Actions ListingDeletion.

Section Within.
Context (R : Db -> Db -> Prop) `{!PreOrder R}.

Definition within {F A} (m : Tx Db F A) : Prop :=
  forall db,
    match m db with
    | Done _ db' => R db db'
    | Refused _ db' => R db db'
    | _ => True
    end.

Section Monad.
Context {F : Type}.
Abbreviation M A := (Tx Db F A).

Lemma within_ret {A} (a : A) : within (ret a : M A).
Proof. intros db. simpl. reflexivity. Qed.
Lemma within_gets {A} (q : Db -> A) : within (gets q : M A).
Proof. intros db. simpl. reflexivity. Qed.
Lemma within_refuse {A} (f : F) : within (refuse f : M A).
Proof. intros db. simpl. reflexivity. Qed.
Lemma within_sql_fail {A} e : within (sql_fail e : M A).
Proof. intros db. exact I. Qed.
Lemma within_panic {A} msg : within (panic msg : M A).
Proof. intros db. exact I. Qed.
Lemma within_modify f : (forall db, R db (f db)) -> within (modify f : M unit).
Proof. intros Hf db. apply Hf. Qed.
Lemma within_debug_assert b msg : within (debug_assert b msg : M unit).
Proof. destruct b; [apply within_ret|apply within_panic]. Qed.
Lemma within_expect_i32 z msg : within (expect_i32 z msg : M Z).
Proof. unfold expect_i32. destruct (_ && _); [apply within_ret|apply within_panic]. Qed.
Lemma within_refuse_if b (f : F) : within (refuse_if b f).
Proof. destruct b; [apply within_refuse|apply within_ret]. Qed.
Lemma within_or_refuse {A} (o : option A) (f : F) : within (or_refuse o f).
Proof. destruct o; [apply within_ret|apply within_refuse]. Qed.
Lemma within_or_fail {A} (o : option A) e : within (or_fail o e : M A).
Proof. destruct o; [apply within_ret|apply within_sql_fail]. Qed.

Lemma within_bind {A B} (m : M A) (k : A -> M B) :
  within m -> (forall a, within (k a)) -> within (bind m k).
Proof.
  intros Hm Hk db. specialize (Hm db). unfold bind. destruct (m db) as [a db1| | |]; auto.
  specialize (Hk a db1). destruct (k a db1); auto; by etransitivity.
Qed.

Lemma within_attempt {A} (m : M A) : within m -> within (attempt m).
Proof. intros Hm db. specialize (Hm db). unfold attempt. by destruct (m db). Qed.

Lemma within_for_each {A} (l : list A) (body : A -> M unit) : (forall x, within (body x)) -> within (for_each l body).
Proof.
  intros Hb. induction l as [|x l IH]; [apply within_ret|]. by apply within_bind.
Qed.

Lemma within_map_each {A B} (l : list A) (body : A -> M B) :
  (forall x, within (body x)) -> within (map_each l body).
Proof.
  intros Hb. induction l as [|x l IH]; [apply within_ret|].
  apply within_bind; [done|]. intros b. apply within_bind; [done|]. intros bs. apply within_ret.
Qed.

End Monad.

Lemma within_guard o : within (guard o).
Proof. destruct o; [apply within_refuse|apply within_ret]. Qed.

Lemma within_savepoint {A} (m : H (option A)) : within m -> within (savepoint m).
Proof.
  intros Hm db. specialize (Hm db). unfold savepoint. by destruct (m db) as [[a|] db'| | |].
Qed.

Section Tables.
Context {K V : Type} `{!EqDecision K, !Countable K}.
Context (table : Db -> gmap K V) `{!Updater table} (check : V -> bool).
Context (Htable : forall f db, R db (upd table f db)).

Lemma within_select k : within (select table k).
Proof. apply within_gets. Qed.
Lemma within_write k v : within (write table check k v).
Proof. unfold write. destruct (check v); [by apply within_modify|apply within_sql_fail]. Qed.
Lemma within_update_where k cond f : within (update_where table check k cond f).
Proof.
  apply within_bind; [apply within_select|]. intros [v|]; [|apply within_ret].
  destruct (cond v); [|apply within_ret]. apply within_bind; [apply within_write|].
  intros _. apply within_ret.
Qed.
Lemma within_update_one k cond f : within (update_one table check k cond f).
Proof. apply within_bind; [apply within_update_where|]. intros o. apply within_or_fail. Qed.
Lemma within_insert k v clashes : within (insert table check k v clashes).
Proof.
  apply within_bind; [apply within_select|]. intros row. apply within_bind; [apply within_gets|].
  intros c. destruct row; [apply within_sql_fail|]. destruct c; [apply within_sql_fail|].
  apply within_write.
Qed.
End Tables.
End Within.

(** One step into a handler. *)
Ltac within_step other :=
  lazymatch goal with
  | |- within _ (bind _ _) => apply within_bind; [apply _| |intros ?]
  | |- within _ (ret _) => apply within_ret; apply _
  | |- within _ (gets _) => apply within_gets; apply _
  | |- within _ (refuse _) => apply within_refuse; apply _
  | |- within _ (sql_fail _) => apply within_sql_fail
  | |- within _ (panic _) => apply within_panic
  | |- within _ (modify _) => apply within_modify; other
  | |- within _ (debug_assert _ _) => apply within_debug_assert; apply _
  | |- within _ (expect_i32 _ _) => apply within_expect_i32; apply _
  | |- within _ (refuse_if _ _) => apply within_refuse_if; apply _
  | |- within _ (or_refuse _ _) => apply within_or_refuse; apply _
  | |- within _ (or_fail _ _) => apply within_or_fail; apply _
  | |- within _ (guard _) => apply within_guard; apply _
  | |- within _ (attempt _) => apply within_attempt
  | |- within _ (savepoint _) => apply within_savepoint; [apply _|]
  | |- within _ (for_each _ _) => apply within_for_each; [apply _|intros ?]
  | |- within _ (map_each _ _) => apply within_map_each; [apply _|intros ?]
  | |- within _ (select _ _) => apply within_select; apply _
  | |- within _ (write _ _ _ _) => apply within_write; other
  | |- within _ (update_where _ _ _ _ _) => apply within_update_where; [apply _|other]
  | |- within _ (update_one _ _ _ _ _) => apply within_update_one; [apply _|other]
  | |- within _ (insert _ _ _ _ _) => apply within_insert; [apply _|other]
  | |- within _ (if ?b then _ else _) => destruct b
  | |- within _ (match ?x with _ => _ end) => destruct x
  | |- within _ (let '(_, _) := ?x in _) => destruct x
  end.

(** A column of the store is left alone. *)
Definition same {X} (column : Db -> X) (db db' : Db) : Prop := column db' = column db.

#[export] Instance same_preorder {X} (column : Db -> X) : PreOrder (same column).
Proof. split; [done|]. intros ? ? ? H1 H2. unfold same in *. congruence. Qed.

Create HintDb same.

Ltac same_run :=
  repeat (cbn beta zeta;
          first [solve [auto with same]|within_step ltac:(intros; reflexivity)]).

(** ** Worker passes

    A worker pass is a sequence of transactions: each commits on its own, so
    what an earlier one did stays when a later one fails.  A pass ends with a
    value, stops at an error, or dies of a panic; in each case the store is
    the last one committed. *)

Inductive Ended (A : Type) :=
| Returned (a : A)
| Stopped (e : SqlError)
| Died (message : string).
Arguments Returned {A} _.
Arguments Stopped {A} _.
Arguments Died {A} _.

Definition Pass (A : Type) : Type := Db -> Ended A * Db.

Definition finished {A} (a : A) : Pass A := fun db => (Returned a, db).

Definition reading {A} (q : Db -> A) : Pass A := fun db => (Returned (q db), db).

(** [pool.begin() .. tx.commit()]; an error or a refusal rolls back. *)
Definition transaction {A} (m : H A) : Pass A := fun db =>
  match m db with
  | Done a db' => (Returned a, db')
  | Refused f _ => (Stopped (Protocol (f_message f)), db)
  | Failed e => (Stopped e, db)
  | Panicked message => (Died message, db)
  end.

Definition and_then {A B} (p : Pass A) (k : A -> Pass B) : Pass B := fun db =>
  match p db with
  | (Returned a, db') => k a db'
  | (Stopped e, db') => (Stopped e, db')
  | (Died message, db') => (Died message, db')
  end.

Notation "'let!' x ':=' p 'in' k" := (and_then p (fun x => k))
  (at level 10, x name, p at level 100, k at level 200).

(** An error is logged and the pass goes on. *)
Definition caught {A} (p : Pass A) : Pass (option A) := fun db =>
  match p db with
  | (Returned a, db') => (Returned (Some a), db')
  | (Stopped _, db') => (Returned None, db')
  | (Died message, db') => (Died message, db')
  end.

Fixpoint each {A B} (l : list A) (body : A -> Pass B) : Pass (list B) :=
  match l with
  | [] => finished []
  | x :: l => let! b := body x in let! bs := each l body in finished (b :: bs)
  end.

(** How many of the rows were handled. *)
Definition handled (l : list (option bool)) : Z :=
  Z.of_nat (length (List.filter (fun r => bool_decide (r = Some true)) l)).

(** ** Rules *)

(** Every pass over [I] ends in [I], and it does not die. *)
Section Keeps.
Context (I : Db -> Prop).

Definition keeps {A} (p : Pass A) : Prop :=
  forall db, I db -> I (snd (p db)) /\ forall message, fst (p db) <> Died message.

Lemma keeps_finished {A} (a : A) : keeps (finished a).
Proof. by intros db Hi. Qed.

Lemma keeps_reading {A} (q : Db -> A) : keeps (reading q).
Proof. by intros db Hi. Qed.

Lemma keeps_transaction {A} (m : H A) :
  (forall db, I db -> wp m (fun _ => I) any_refusal db) -> keeps (transaction m).
Proof.
  intros Hm db Hi. specialize (Hm db Hi). unfold wp in Hm. unfold transaction.
  by destruct (m db).
Qed.

Lemma keeps_and_then {A B} (p : Pass A) (k : A -> Pass B) :
  keeps p -> (forall a, keeps (k a)) -> keeps (and_then p k).
Proof.
  intros Hp Hk db Hi. specialize (Hp db Hi). unfold and_then.
  destruct (p db) as [[a|e|m] db'] eqn:E; simpl in *.
  - apply Hk, Hp.
  - by split; [apply Hp|].
  - by destruct (proj2 Hp m).
Qed.

Lemma keeps_caught {A} (p : Pass A) : keeps p -> keeps (caught p).
Proof.
  intros Hp db Hi. specialize (Hp db Hi). unfold caught.
  destruct (p db) as [[a|e|m] db'] eqn:E; simpl in *; [by split; [apply Hp|]..|].
  by destruct (proj2 Hp m).
Qed.

Lemma keeps_each {A B} (l : list A) (body : A -> Pass B) :
  (forall x, In x l -> keeps (body x)) -> keeps (each l body).
Proof.
  induction l as [|x l IH]; intros Hb; [apply keeps_finished|]. cbn [each].
  apply keeps_and_then; [apply Hb; by left|]. intros b.
  apply keeps_and_then; [apply IH; intros; apply Hb; by right|]. intros bs. apply keeps_finished.
Qed.
End Keeps.

(** Every pass made of transactions within [R] is within [R]. *)
Section Along.
Context (R : Db -> Db -> Prop) `{!PreOrder R}.

Definition along {A} (p : Pass A) : Prop := forall db, R db (snd (p db)).

Lemma along_finished {A} (a : A) : along (finished a).
Proof. intros db. simpl. reflexivity. Qed.

Lemma along_reading {A} (q : Db -> A) : along (reading q).
Proof. intros db. simpl. reflexivity. Qed.

Lemma along_transaction {A} (m : H A) : within R m -> along (transaction m).
Proof.
  intros Hm db. specialize (Hm db). unfold transaction. by destruct (m db).
Qed.

Lemma along_and_then {A B} (p : Pass A) (k : A -> Pass B) :
  along p -> (forall a, along (k a)) -> along (and_then p k).
Proof.
  intros Hp Hk db. specialize (Hp db). unfold and_then.
  destruct (p db) as [[a|e|m] db'] eqn:E; simpl in *; [|done..].
  etransitivity; [exact Hp|apply Hk].
Qed.

Lemma along_caught {A} (p : Pass A) : along p -> along (caught p).
Proof.
  intros Hp db. specialize (Hp db). unfold caught. by destruct (p db) as [[] db'].
Qed.

Lemma along_each {A B} (l : list A) (body : A -> Pass B) :
  (forall x, along (body x)) -> along (each l body).
Proof.
  intros Hb. induction l as [|x l IH]; [apply along_finished|]. cbn [each].
  apply along_and_then; [done|]. intros b. apply along_and_then; [done|]. intros bs.
  apply along_finished.
Qed.
End Along.
