(* ===== verification/Registration.v ===== *)
(** * Listing registration and sync ([handlers/register_listing.rs],
    [handlers/sync_listing.rs])

    [listing.register] is the seller's command; [listing.sync] registers, for
    anyone, exactly what the seller published.  Both end in
    [apply_registration]; sync also follows the record into deletion. *)

From S2P Require Import Prelude Domain Json Store Commands Actions Validation LockResource.
From S2P Require Import Auction ListingView EventStream ListingDeletion Records.

(** ** Refusals *)

Definition UNLIMITED_STOCK_ON_PHYSICAL_LISTING : string := "unlimited_stock_on_physical_listing".

Definition unlimited_cap_refusal : CommandFailure :=
  refused_with_reason InvalidState
    "1000000 is reserved for unlimited digital stock; a listing that ships or offers pickup cannot register it."
    UNLIMITED_STOCK_ON_PHYSICAL_LISTING.

Definition record_not_found : CommandFailure :=
  refused NotFound "The seller's homeserver has no such listing record.".

Definition record_unavailable : CommandFailure :=
  refused UpstreamUnavailable "The seller's homeserver could not be reached. Try again shortly.".

Definition recreated_auction_refused : CommandFailure :=
  refused InvalidState "This listing id was deleted. Publish the auction under a new id.".

Definition seller_registration_required : CommandFailure :=
  refused SellerRegistrationRequired
    "The seller must register this auction with its private reserve authority.".

Definition NOT_INTERPRETED : CommandFailure :=
  refused InvalidState "The seller's listing record could not be interpreted for registration.".

Definition invariants_refused (issues : list ValidationIssue) : CommandFailure :=
  refused_with_issues InvalidState
    "The seller's listing record does not satisfy registration invariants." issues.

#[export] Instance AuctionTerms_eq_dec : EqDecision AuctionTerms.
Proof. solve_decision. Defined.

#[export] Instance AuctionReserve_eq_dec : EqDecision AuctionReserve.
Proof. solve_decision. Defined.

#[export] Instance DigitalLockMetadata_eq_dec : EqDecision DigitalLockMetadata.
Proof. solve_decision. Defined.

#[export] Instance RegisterListingPayload_eq_dec : EqDecision RegisterListingPayload.
Proof. solve_decision. Defined.

(** [auction_reserve = None]. *)
Definition without_reserve (p : RegisterListingPayload) : RegisterListingPayload :=
  mkRegisterListing (rl_seller_pubky p) (rl_listing_id p) (rl_title p) (rl_listing_revision p)
    (rl_content_hash p) (rl_quantity p) (rl_unit_price p) (rl_shipping_minor p) (rl_sale_format p)
    (rl_auction_terms p) None (rl_fulfillment_methods p) (rl_digital_lock p).

(** ** The prefetched record *)

Inductive RegisterRecordPrefetch :=
| NotNeeded
| Found (record : Json)
| NotFoundRecord
| Unavailable
| NoHomeserver.

Definition needs_public_record (payload : RegisterListingPayload) : bool :=
  bool_decide (rl_sale_format payload = Auction) ||
  (bool_decide (is_Some (rl_digital_lock payload)) &&
   registers_unlimited_cap_with_physical_methods payload).

Definition register_addresses_its_own_listing (actor : string) (command : Command)
    (payload : RegisterListingPayload) : bool :=
  ((actor =? rl_seller_pubky payload) &&
   (c_aggregate_id command =?
      listing_aggregate_id (rl_seller_pubky payload) (rl_listing_id payload)))%string.

Definition public_record_request (db : Db) (actor : string) (command : Command)
    : option RegisterListingPayload :=
  match c_payload command with
  | RegisterListing payload =>
      if negb (register_addresses_its_own_listing actor command payload) then None
      else if needs_public_record payload then Some payload
      else if negb (c_expected_revision command =? 0) then None
      else if from_option is_deleted false (listings db !! c_aggregate_id command)
      then Some payload else None
  | _ => None
  end.

Definition prefetch_public_record (homeserver : option (Pubky -> string -> HomeserverFetchOutcome))
    (payload : RegisterListingPayload) : RegisterRecordPrefetch :=
  match homeserver with
  | None => NoHomeserver
  | Some fetch_listing =>
      match fetch_listing (rl_seller_pubky payload) (rl_listing_id payload) with
      | FetchFound record => Found record
      | FetchNotFound => NotFoundRecord
      | FetchUnavailable => Unavailable
      end
  end.

Definition refuse_revival_without_record (prefetched : RegisterRecordPrefetch)
    : option CommandFailure :=
  match prefetched with
  | Found _ => None
  | NotFoundRecord => Some record_not_found
  | Unavailable => Some record_unavailable
  | NotNeeded | NoHomeserver =>
      Some (refused InvalidState
              "This listing was deleted. Publish its record again to re-create it.")
  end.

Section Register.
Context `{!UuidCrate, !JsonText, !Base32Crate}.

Definition public_candidate (payload : RegisterListingPayload) (record : Json)
    : RegisterListingPayload + CommandFailure :=
  match registration_payload_from_record (rl_seller_pubky payload) (rl_listing_id payload) record with
  | Registration candidate =>
      match validate_public_listing_payload candidate with
      | inl candidate => inl candidate
      | inr issues => inr (invariants_refused issues)
      end
  | _ => inr NOT_INTERPRETED
  end.

Definition refuse_unlimited_cap (payload : RegisterListingPayload)
    (prefetched : RegisterRecordPrefetch) : option CommandFailure :=
  if negb (registers_unlimited_cap_with_physical_methods payload) then None
  else if negb (bool_decide (is_Some (rl_digital_lock payload))) then Some unlimited_cap_refusal
  else
    match prefetched with
    | NotFoundRecord => Some record_not_found
    | Unavailable => Some record_unavailable
    | NotNeeded | NoHomeserver => Some unlimited_cap_refusal
    | Found record =>
        if record_publishes_physical_fulfillment record then Some unlimited_cap_refusal
        else
          match public_candidate payload record with
          | inl candidate =>
              if bool_decide (rl_fulfillment_methods candidate = rl_fulfillment_methods payload) &&
                 bool_decide (rl_digital_lock candidate = rl_digital_lock payload) &&
                 (rl_quantity candidate =? rl_quantity payload) &&
                 (rl_listing_revision candidate =? rl_listing_revision payload) &&
                 (rl_content_hash candidate =? rl_content_hash payload)%string
              then None else Some unlimited_cap_refusal
          | inr _ => Some unlimited_cap_refusal
          end
    end.

(** An auction registers exactly what its public record says. *)
Definition public_authority (payload : RegisterListingPayload)
    (prefetched : RegisterRecordPrefetch) : option CommandFailure :=
  match rl_sale_format payload with
  | FixedPrice => None
  | Auction =>
      match prefetched with
      | NotFoundRecord => Some record_not_found
      | Unavailable => Some record_unavailable
      | NotNeeded | NoHomeserver =>
          Some (refused InvalidCommand "Listing registration is not enabled on this deployment.")
      | Found record =>
          match public_candidate payload record with
          | inr refusal => Some refusal
          | inl candidate =>
              if bool_decide (candidate = without_reserve payload) then None
              else Some (refused RevisionConflict
                     "The public listing candidate does not match the registration command.")
          end
      end
  end.

(** ** The shared tail *)

Definition auction_json (terms : AuctionTerms) (payload : RegisterListingPayload)
    (current : option AuctionState) (now : Time) : AuctionState :=
  mkAuctionState (at_starts_at terms) (at_ends_at terms) (at_minimum_increment terms)
    (at_anti_sniping_window_seconds terms) (at_anti_sniping_extension_seconds terms)
    (match current with
     | Some a => a_status a
     | None => if now <? at_starts_at terms then AScheduled else AActive
     end)
    (from_option a_current_price (rl_unit_price payload) current)
    (current ≫= a_leader_pubky)
    (from_option a_bid_count 0 current).

Definition registered_state (quantity committed : Z) : ListingState :=
  if quantity =? committed then (if 0 <? committed then LReserved else LSold) else LAvailable.

(** The columns a registration writes. *)
Definition registered_row (payload : RegisterListingPayload) (revision committed : Z)
    (auction : option AuctionState) (now : Time) (l : ListingRow) : ListingRow :=
  mkListing (l_aggregate_id l) (l_seller_pubky l) (l_listing_id l) (rl_title payload)
    (rl_listing_revision payload) (rl_content_hash payload) revision
    (registered_state (rl_quantity payload) committed) (rl_quantity payload)
    (rl_quantity payload - committed) (l_reserved_quantity l) (l_sold_quantity l)
    (amount_minor (rl_unit_price payload)) (currency (rl_unit_price payload))
    (exponent (rl_unit_price payload)) (rl_shipping_minor payload) (rl_sale_format payload)
    auction (rl_fulfillment_methods payload) (dk_policy_uri <$> rl_digital_lock payload)
    (dk_criterion_id <$> rl_digital_lock payload) now (l_digital_delivery_kind l)
    (l_digital_delivery_content_type l) (l_digital_delivery_size_bytes l) (l_deleted_at l)
    (l_recreated_at l) (l_generation l) (l_deleted_event_cursor l) (l_record_epoch l)
    (l_revived_from_cursor l).

(** A listing row before its first registration: the column defaults. *)
Definition unregistered (aggregate_id : string) (payload : RegisterListingPayload) : ListingRow :=
  mkListing aggregate_id (rl_seller_pubky payload) (rl_listing_id payload) "" 0 "" 0 LSold 0 0 0 0 0
    "" 0 0 FixedPrice None [] None None 0 None None None None None 0 None 0 None.

(** A tombstone is cleared, and the generation advances. *)
Definition revived (now : Time) (l : ListingRow) : ListingRow :=
  if is_deleted l then
    l <| l_recreated_at := Some now |> <| l_generation := l_generation l + 1 |>
      <| l_deleted_at := None |> <| l_deleted_event_cursor := None |>
  else l <| l_deleted_at := None |> <| l_deleted_event_cursor := None |>.

(** The [UPDATE] of a registered row. *)
Definition reregistered_row (payload : RegisterListingPayload) (revision committed : Z)
    (auction : option AuctionState) (now : Time) (l : ListingRow) : ListingRow :=
  registered_row payload revision committed auction now (revived now l).

(** [INSERT .. ON CONFLICT DO NOTHING], or the fenced [UPDATE]: whether a row
    was written. *)
Definition write_registration (aggregate_id : string) (payload : RegisterListingPayload)
    (current : option ListingRow) (committed : Z) (auction : option AuctionState) (now : Time)
    : H bool :=
  match current with
  | None =>
      let* taken := select listings aggregate_id in
      match taken with
      | Some _ => ret false
      | None =>
          let* clash := gets (fun db => table_any (fun l =>
            ((l_seller_pubky l =? rl_seller_pubky payload) &&
             (l_listing_id l =? rl_listing_id payload))%string) (listings db)) in
          do* (if clash then sql_fail UniqueViolation else ret tt) in
          do* write listings listing_check aggregate_id
                (registered_row payload 1 committed auction now (unregistered aggregate_id payload)) in
          ret true
      end
  | Some c =>
      let* updated := update_listing None aggregate_id
        (fun l => l_server_revision l =? l_server_revision c)
        (reregistered_row payload (l_server_revision c + 1) committed auction now) in
      ret (bool_decide (is_Some updated))
  end.

(** The checks of [listing_auction_reserves]. *)
Definition reserve_check (r : AuctionReserveRow) : bool :=
  (0 <? ar_listing_revision r) && (0 <? ar_record_revision r) &&
  match ar_reserve_price r with
  | None => true
  | Some m => between 1 (amount_minor m) MAX_SAFE_INTEGER && currency_regex (currency m) &&
              between 0 (exponent m) 18
  end.

Definition persist_reserve (aggregate_id : string) (listing_revision : Z) (command_id : Uuid)
    (reserve : AuctionReserve) (current : option AuctionReserveRow) (now : Time) : H unit :=
  let row := mkAuctionReserve aggregate_id listing_revision (rs_record_revision reserve)
               (rs_reserve_price reserve) command_id now in
  match current with
  | None => insert auction_reserves reserve_check aggregate_id row no_clash
  | Some _ =>
      let* updated := update_where auction_reserves reserve_check aggregate_id
        (fun r => ar_record_revision r =? rs_expected_record_revision reserve) (fun _ => row) in
      match updated with
      | Some _ => ret tt
      | None => sql_fail (Protocol "reserve compare-and-swap failed")
      end
  end.

Definition apply_registration (actor : string) (command_id : Uuid) (aggregate_id : string)
    (payload : RegisterListingPayload) (current : option ListingRow)
    (current_reserve : option AuctionReserveRow) (event_kind : string) (now : Time)
    : H HandlerSuccess :=
  let current_revision := from_option l_server_revision 0 current in
  let committed := from_option l_reserved_quantity 0 current +
                   from_option l_sold_quantity 0 current in
  do* refuse_if (rl_quantity payload <? committed)
        (refused_with_revision InvariantViolation
           "Listing quantity cannot fall below committed inventory." current_revision) in
  let auction := (fun terms => auction_json terms payload (current ≫= l_auction) now)
                   <$> rl_auction_terms payload in
  let new_revision := current_revision + 1 in
  let* written := write_registration aggregate_id payload current committed auction now in
  do* (if written then ret tt
       else
         let* latest := current_listing_revision aggregate_id in
         refuse (refused_with_revision RevisionConflict "The listing revision is stale." latest)) in
  do* (match rl_auction_reserve payload with
       | Some reserve =>
           persist_reserve aggregate_id (rl_listing_revision payload) command_id reserve
             current_reserve now
       | None => ret tt
       end) in
  let* event_id := insert_event command_id aggregate_id new_revision actor event_kind now in
  let* row := fetch_listing aggregate_id in
  match row with
  | None => panic "listing was just written in this transaction"
  | Some listing =>
      let* reserve := fetch_auction_reserve aggregate_id in
      let* projection := or_fail (projection_for_actor_with_auction listing actor reserve None)
                           INCONSISTENT in
      ret (mkSuccess new_revision [event_id] (VListing projection))
  end.

(** ** Registration *)

(** The reserve the command brings must extend the stored one. *)
Definition check_reserve_authority (payload : RegisterListingPayload)
    (current : option ListingRow) (current_reserve : option AuctionReserveRow)
    : option CommandFailure :=
  let stale revision := Some (refused_with_revision RevisionConflict
                                "The reserve record revision is stale." revision) in
  let inconsistent := Some (refused InvariantViolation
                              "The listing reserve authority is inconsistent.") in
  match current, current_reserve, rl_auction_reserve payload with
  | None, None, Some reserve =>
      if negb ((rl_listing_revision payload =? 1) && (rs_expected_record_revision reserve =? 0) &&
               (rs_record_revision reserve =? 1))
      then stale 0 else None
  | None, None, None => None
  | Some listing, Some stored, Some reserve =>
      match l_sale_format listing with
      | Auction =>
          if negb ((rs_expected_record_revision reserve =? ar_record_revision stored) &&
                   (rs_record_revision reserve =? ar_record_revision stored + 1))
          then stale (l_server_revision listing) else None
      | FixedPrice => inconsistent
      end
  | Some listing, None, None =>
      match l_sale_format listing with FixedPrice => None | Auction => inconsistent end
  | _, _, _ => inconsistent
  end.

Definition FORMAT_CHANGED : CommandFailure :=
  refused InvalidState "The listing sale format cannot change after registration.".

Definition RESERVE_MISSING : CommandFailure :=
  refused InvariantViolation "The auction reserve authority is missing.".

(** The signed terms of a running auction, compared with the stored ones. *)
Definition terms_changed (current : ListingRow) (stored : AuctionState)
    (payload : RegisterListingPayload) (terms : AuctionTerms) : bool :=
  negb ((l_unit_price_amount_minor current =? amount_minor (rl_unit_price payload)) &&
        (l_unit_price_currency current =? currency (rl_unit_price payload))%string &&
        (l_unit_price_exponent current =? exponent (rl_unit_price payload)) &&
        (a_starts_at stored =? at_starts_at terms) && (a_ends_at stored =? at_ends_at terms) &&
        bool_decide (a_minimum_increment stored = at_minimum_increment terms) &&
        (a_anti_sniping_window_seconds stored =? at_anti_sniping_window_seconds terms) &&
        (a_anti_sniping_extension_seconds stored =? at_anti_sniping_extension_seconds terms)).

(** A reserve may only be lowered, before the auction starts and without bids. *)
Definition allowed_decrease (stored_price candidate : option Money) (stored : AuctionState)
    (now : Time) : bool :=
  match stored_price, candidate with
  | Some s, Some c =>
      same_asset c s && (amount_minor c <? amount_minor s) &&
      bool_decide (a_status stored = AScheduled) && (now <? a_starts_at stored) &&
      (a_bid_count stored =? 0)
  | _, _ => false
  end.

Definition validate_edit (current : ListingRow) (current_reserve : option AuctionReserveRow)
    (payload : RegisterListingPayload) (now : Time) : H unit :=
  do* refuse_if (negb (bool_decide (l_sale_format current = rl_sale_format payload)))
        FORMAT_CHANGED in
  match l_sale_format current with
  | FixedPrice => ret tt
  | Auction =>
      let* stored_reserve := or_refuse current_reserve RESERVE_MISSING in
      let* candidate_reserve := or_refuse (rl_auction_reserve payload) RESERVE_MISSING in
      let* stored := or_fail (l_auction current) (Protocol "auction state is missing") in
      match rl_auction_terms payload with
      | None => panic "validated auction payload has terms"
      | Some terms =>
          do* refuse_if (terms_changed current stored payload terms)
                (refused InvalidState "Auction terms cannot change after registration.") in
          if bool_decide (ar_reserve_price stored_reserve = rs_reserve_price candidate_reserve)
          then ret tt
          else refuse_if (negb (allowed_decrease (ar_reserve_price stored_reserve)
                                  (rs_reserve_price candidate_reserve) stored now))
                 (refused InvalidState "The auction reserve change is not permitted.")
      end
  end.

Definition guard_with (refusal : option CommandFailure) : H unit :=
  match refusal with Some failure => refuse failure | None => ret tt end.

(** The revision rules: a tombstoned listing is re-created at revision zero,
    a live one advances. *)
Definition check_revision (command : Command) (payload : RegisterListingPayload)
    (prefetched : RegisterRecordPrefetch) (current : option ListingRow) : H unit :=
  let current_revision := from_option l_server_revision 0 current in
  let reviving := from_option is_deleted false current in
  do* refuse_if (negb (c_expected_revision command =? current_revision) &&
                 negb (reviving && (c_expected_revision command =? 0)))
        (refused_with_revision RevisionConflict "The listing revision is stale."
           current_revision) in
  do* refuse_if (reviving && (negb (bool_decide (rl_sale_format payload = FixedPrice)) ||
                   from_option (fun l => negb (bool_decide (l_sale_format l = FixedPrice))) false
                     current))
        recreated_auction_refused in
  do* (if reviving then guard_with (refuse_revival_without_record prefetched) else ret tt) in
  match current with
  | Some current =>
      if reviving then ret tt
      else
        do* refuse_if (rl_listing_revision payload <=? l_listing_revision current)
              (refused_with_revision RevisionConflict "The public listing revision must advance."
                 current_revision) in
        refuse_if (negb (bool_decide (l_sale_format current = rl_sale_format payload)))
          FORMAT_CHANGED
  | None => ret tt
  end.

(** [listing.register]. *)
Definition register (actor : string) (command : Command) (payload : RegisterListingPayload)
    (prefetched : RegisterRecordPrefetch) (now : Time) : H HandlerSuccess :=
  do* refuse_if (negb (actor =? rl_seller_pubky payload)%string)
        (refused Unauthorized "Only the listing seller may register inventory.") in
  do* refuse_if (negb (register_addresses_its_own_listing actor command payload))
        (refused InvalidCommand "The listing aggregate id does not match its seller and listing.") in
  do* guard_with (refuse_unlimited_cap payload prefetched) in
  do* guard_with (public_authority payload prefetched) in
  let* current := fetch_listing_for_update (c_aggregate_id command) in
  do* check_revision command payload prefetched current in
  let* current_reserve := fetch_auction_reserve (c_aggregate_id command) in
  do* guard_with (check_reserve_authority payload current current_reserve) in
  do* (match current with
       | Some listing => validate_edit listing current_reserve payload now
       | None => ret tt
       end) in
  apply_registration actor (c_command_id command) (c_aggregate_id command) payload current
    current_reserve "listing.registered" now.

(** ** Sync *)

Definition confirm_record (aggregate_id : string) : H unit :=
  let* _ := update_listing None aggregate_id (fun _ => true)
    (fun l => l <| l_record_epoch := l_record_epoch l + 1 |>) in
  ret tt.

Definition deleted_success (l : ListingRow) (event_ids : list Uuid) : HandlerSuccess :=
  mkSuccess (l_server_revision l) event_ids
    (VDeletedListing (l_aggregate_id l) (l_seller_pubky l) (l_listing_id l) (l_server_revision l)
       (l_deleted_at l)).

Definition settle_missing_record (actor : string) (command : Command)
    (payload : SyncListingPayload) (listing_events : EventsFetch) (now : Time)
    : H HandlerSuccess :=
  let* row := fetch_listing (c_aggregate_id command) in
  let* current := or_refuse row record_not_found in
  if is_deleted current then ret (deleted_success current [])
  else
    let* observed := observe_live (c_aggregate_id command) in
    let* observed := or_refuse observed record_not_found in
    match latest_event_is_delete listing_events (sl_seller_pubky payload) (sl_listing_id payload) with
    | ChkDeleted cursor =>
        let* written := tombstone ByCommand (c_aggregate_id command) (cursor_value cursor)
          (ll_record_epoch observed) actor (c_command_id command) now in
        match written with
        | Some (deleted, event_id) => ret (deleted_success deleted [event_id])
        | None =>
            let* row := fetch_listing (c_aggregate_id command) in
            match row with
            | Some deleted =>
                if is_deleted deleted then ret (deleted_success deleted [])
                else refuse record_not_found
            | None => refuse record_not_found
            end
        end
    | _ => refuse record_not_found
    end.

(** The derived columns an equal-revision sync heals. *)
Definition derived_columns (payload : RegisterListingPayload) :=
  (rl_shipping_minor payload, rl_fulfillment_methods payload,
   dk_policy_uri <$> rl_digital_lock payload, dk_criterion_id <$> rl_digital_lock payload).

Definition stored_columns (l : ListingRow) :=
  (l_shipping_minor l, l_fulfillment_methods l, l_digital_lock_policy_uri l,
   l_digital_lock_criterion_id l).

Definition heal (registration : RegisterListingPayload) (now : Time) (l : ListingRow)
    : ListingRow :=
  l <| l_server_revision := l_server_revision l + 1 |>
    <| l_shipping_minor := rl_shipping_minor registration |>
    <| l_fulfillment_methods := rl_fulfillment_methods registration |>
    <| l_digital_lock_policy_uri := dk_policy_uri <$> rl_digital_lock registration |>
    <| l_digital_lock_criterion_id := dk_criterion_id <$> rl_digital_lock registration |>
    <| l_updated_at := now |>.

(** A record that does not advance a fixed-price listing. *)
Definition converge (actor : string) (command : Command) (registration : RegisterListingPayload)
    (current : ListingRow) (now : Time) : H HandlerSuccess :=
  if (rl_listing_revision registration =? l_listing_revision current) &&
     negb (bool_decide (derived_columns registration = stored_columns current))
  then
    let* healed := update_listing None (c_aggregate_id command) (fun _ => true)
                     (heal registration now) in
    let* healed := or_fail healed RowNotFound in
    let* event_id := insert_event (c_command_id command) (c_aggregate_id command)
                       (l_server_revision healed) actor "listing.synced" now in
    let* projection := or_fail (projection_for_actor_with_auction healed actor None None)
                         INCONSISTENT in
    ret (mkSuccess (l_server_revision healed) [event_id] (VListing projection))
  else
    do* confirm_record (c_aggregate_id command) in
    let* projection := or_fail (projection_for_actor_with_auction current actor None None)
                         INCONSISTENT in
    ret (mkSuccess (l_server_revision current) [] (VListing projection)).

(** A live auction only confirms its record. *)
Definition sync_auction (actor : string) (command : Command)
    (registration : RegisterListingPayload) (current : ListingRow) : H HandlerSuccess :=
  let* reserve := fetch_auction_reserve (c_aggregate_id command) in
  let* reserve := or_refuse reserve seller_registration_required in
  do* refuse_if (negb (bool_decide (rl_sale_format registration = Auction)))
        seller_registration_required in
  do* refuse_if (l_listing_revision current <? rl_listing_revision registration)
        seller_registration_required in
  do* confirm_record (c_aggregate_id command) in
  let* viewer_bid := viewer_bid_projection current actor in
  let* projection := or_fail
    (projection_for_actor_with_auction current actor (Some reserve) viewer_bid) INCONSISTENT in
  ret (mkSuccess (l_server_revision current) [] (VListing projection)).

(** What a found record registers, or why it is refused. *)
Definition sync_registration (payload : SyncListingPayload) (record : Json)
    : RegisterListingPayload + CommandFailure :=
  match registration_payload_from_record (sl_seller_pubky payload) (sl_listing_id payload) record with
  | NotListing => inr NOT_INTERPRETED
  | MalformedDigitalLock =>
      inr (refused InvalidState "The seller's listing record carries an invalid Locks payment lock.")
  | Registration registration =>
      if registers_unlimited_cap_with_physical_methods registration &&
         record_publishes_physical_fulfillment record
      then inr unlimited_cap_refusal
      else
        match validate_public_listing_payload registration with
        | inl registration => inl registration
        | inr issues => inr (invariants_refused issues)
        end
  end.

Definition apply_sync (actor : string) (command : Command) (registration : RegisterListingPayload)
    (now : Time) : H HandlerSuccess :=
  let apply current := apply_registration actor (c_command_id command) (c_aggregate_id command)
                         registration current None "listing.synced" now in
  let* row := fetch_listing_for_update (c_aggregate_id command) in
  match row with
  | Some current =>
      if is_deleted current then
        do* refuse_if (negb (bool_decide (l_sale_format current = FixedPrice)) ||
                       negb (bool_decide (rl_sale_format registration = FixedPrice)))
              recreated_auction_refused in
        apply (Some current)
      else if bool_decide (l_sale_format current = Auction) then
        sync_auction actor command registration current
      else
        do* refuse_if (bool_decide (rl_sale_format registration = Auction))
              seller_registration_required in
        if rl_listing_revision registration <=? l_listing_revision current then
          converge actor command registration current now
        else apply (Some current)
  | None =>
      do* refuse_if (bool_decide (rl_sale_format registration = Auction))
            seller_registration_required in
      apply None
  end.

(** [listing.sync], with what the homeserver answers. *)
Definition sync_listing (actor : string) (command : Command) (payload : SyncListingPayload)
    (homeserver : option ((Pubky -> string -> HomeserverFetchOutcome) * EventsFetch)) (now : Time)
    : H HandlerSuccess :=
  let* homeserver := or_refuse homeserver
    (refused InvalidCommand "Listing sync is not enabled on this deployment.") in
  do* refuse_if (negb (c_aggregate_id command =?
                       listing_aggregate_id (sl_seller_pubky payload) (sl_listing_id payload))%string)
        (refused InvalidCommand "The listing aggregate id does not match its seller and listing.") in
  match fst homeserver (sl_seller_pubky payload) (sl_listing_id payload) with
  | FetchUnavailable => refuse record_unavailable
  | FetchNotFound => settle_missing_record actor command payload (snd homeserver) now
  | FetchFound record =>
      match sync_registration payload record with
      | inr failure => refuse failure
      | inl registration => apply_sync actor command registration now
      end
  end.
End Register.
