(* ===== verification/RecordContract.v ===== *)
(** * What a seller record registers

    The registration a record derives, and the drop terms it signs, satisfy by
    construction the rules that do not depend on the seller's input. *)

From S2P Require Import Prelude Domain Text Json ReserveSecrecy Commands Validation ValidPayloads.
From S2P Require Import LockResource Store Drops Checkout EventStream Records.

(** ** Shipping *)

Lemma fold_min_le l x : fold_left Z.min l x <= x /\ forall y, In y l -> fold_left Z.min l x <= y.
Proof.
  revert x. induction l as [|z l IH]; intros x; cbn; [split; [lia|done]|].
  destruct (IH (Z.min x z)) as [H1 H2]. split; [lia|]. intros y [<-|Hy]; [lia|by apply H2].
Qed.

Lemma fold_min_in l x : In (fold_left Z.min l x) (x :: l).
Proof.
  revert x. induction l as [|z l IH]; intros x; cbn; [by left|].
  destruct (IH (Z.min x z)) as [H|H]; [|auto]. rewrite <- H. destruct (Z.min_spec x z) as [[_ ->]|[_ ->]]; auto.
Qed.

Lemma option_price_nonneg c o z : option_price c o = Some z -> 0 <= z.
Proof.
  unfold option_price, keep. destruct (_ =? _)%string; [intros [= <-]; lia|].
  destruct (_ =? _)%string; [|done]. destruct (ro_price o) as [m|]; [|done]. cbn.
  destruct (_ && _) eqn:E; [|done]. cbn. intros [= <-]. by reflect_bools.
Qed.

Lemma omap_in {A B} (f : A -> option B) l y : In y (omap f l) <-> exists x, In x l /\ f x = Some y.
Proof.
  rewrite <- list_elem_of_In, list_elem_of_omap. by setoid_rewrite list_elem_of_In.
Qed.

(** The charge is that of the cheapest option that can be priced. *)
Lemma shipping_cheapest options c :
  let s := shipping_minor_from_options options c in
  0 <= s /\
  (forall o z, In o options -> option_price c o = Some z -> s <= z) /\
  (s = 0 /\ (forall o, In o options -> option_price c o = None) \/
   exists o, In o options /\ option_price c o = Some s).
Proof.
  cbn zeta. unfold shipping_minor_from_options.
  destruct (omap (option_price c) options) as [|x l] eqn:E; cbn [minimum default].
  - assert (Hnone : forall o, In o options -> option_price c o = None).
    { intros o Ho. destruct (option_price c o) as [z|] eqn:Hz; [|done].
      assert (In z (omap (option_price c) options)) as Hin by (apply omap_in; eauto). by rewrite E in Hin. }
    split; [lia|]. split; [|by left]. intros o z Ho Hz. by rewrite (Hnone o Ho) in Hz.
  - pose proof (fold_min_in l x) as Hin. rewrite <- E in Hin. apply omap_in in Hin as (o & Ho & Hp).
    cbn. split; [by eapply option_price_nonneg|]. split; [|right; eauto].
    intros o' z Ho' Hz. assert (In z (x :: l)) as Hz' by (rewrite <- E; apply omap_in; eauto).
    destruct (fold_min_le l x) as [H1 H2]. destruct Hz' as [<-|Hz']; [done|by apply H2].
Qed.

(** ** Methods *)

Lemma first_seen_nodup l : NoDup (first_seen l).
Proof.
  unfold first_seen. set (step := fun seen m => _).
  enough (forall seen, NoDup seen -> NoDup (fold_left step l seen)) as Hgen by (apply Hgen; constructor).
  induction l as [|m l IH]; intros seen Hs; [done|]. apply IH. unfold step. case_bool_decide as Hm; [done|]. apply list.NoDup_app. split; [done|].
  split; [|apply NoDup_singleton]. intros x Hx Hx'. apply list_elem_of_singleton in Hx' as ->. done.
Qed.

Lemma record_methods_wf r : record_methods r <> [] /\ NoDup (record_methods r).
Proof.
  unfold record_methods. pose proof (first_seen_nodup
    (omap (known_method (bool_decide (is_Some (lr_digital_lock r)))) (lr_fulfillment_methods r))) as H.
  destruct (first_seen _); [|done]. split; [done|apply NoDup_singleton].
Qed.

Section Contract.
Context `{!JsonText, !Base32Crate}.

Lemma record_lock_canonical r k :
  record_lock r = Some (Some k) ->
  canonical_lock_resource (dk_policy_uri k) = Some (dk_policy_uri k) /\
  entity_id_regex (dk_criterion_id k) = true.
Proof.
  unfold record_lock. destruct (lr_digital_lock r) as [lock|]; [|done].
  destruct (canonical_lock_resource _) as [uri|] eqn:E; [|done]. cbn.
  destruct (is_valid_entity_id _) eqn:Ev; [|done]. intros [= <-]. cbn. split; [|done].
  by eapply canonical_idem.
Qed.

(** C33. A record registers only what its seller signed: the registration names
    the seller and listing it was asked for, comes from a record without a
    reserve field at any depth, carries no reserve, has auction terms exactly
    for an auction, charges the price of the cheapest shipping option that can
    be priced (zero only when that option is free or none can be priced), lists
    each method once and at least one, and names its lock in canonical form. *)
Theorem record_registers_signed_terms seller_pubky listing_id record p :
  registration_payload_from_record seller_pubky listing_id record = Registration p ->
  exists r, read_listing_record record = Some r /\
    (lr_owner_pubky r = seller_pubky /\ rl_seller_pubky p = seller_pubky) /\
    (lr_listing_id r = listing_id /\ rl_listing_id p = listing_id) /\
    rl_listing_revision p = lr_revision r /\
    ensure_reserve_free record = true /\ rl_auction_reserve p = None /\
    (rl_sale_format p = Auction <-> is_Some (rl_auction_terms p)) /\
    (0 <= rl_shipping_minor p /\
     (forall o z, In o (lr_shipping_options r) ->
        option_price (currency (rl_unit_price p)) o = Some z -> rl_shipping_minor p <= z) /\
     (rl_shipping_minor p = 0 /\
        (forall o, In o (lr_shipping_options r) -> option_price (currency (rl_unit_price p)) o = None) \/
      exists o, In o (lr_shipping_options r) /\
        option_price (currency (rl_unit_price p)) o = Some (rl_shipping_minor p))) /\
    (rl_fulfillment_methods p <> [] /\ NoDup (rl_fulfillment_methods p)) /\
    (forall k, rl_digital_lock p = Some k ->
       canonical_lock_resource (dk_policy_uri k) = Some (dk_policy_uri k) /\
       entity_id_regex (dk_criterion_id k) = true).
Proof.
  unfold registration_payload_from_record. destruct (ensure_reserve_free record) eqn:Er; [|done].
  cbn [negb]. destruct (read_listing_record record) as [r|]; [|done].
  destruct (_ && _) eqn:Eh; [|done]. cbn [negb]. reflect_bools.
  destruct (record_sale _) as [[[f price] terms]|] eqn:Es; [|done].
  destruct (record_lock r) as [lock|] eqn:El; [|done]. intros [= <-].
  exists r. cbn. split_and!; try done.
  - unfold record_sale in Es. destruct (_ =? _)%string; [destruct (rs_unit_price _); [|done]|].
    + injection Es as <- _ <-. by split; [|intros [? ?]].
    + destruct (_ =? _)%string; [|done]. destruct (rs_starting_price _); [|done]. cbn in Es.
      destruct (auction_terms_of _); [|done]. injection Es as <- _ <-. by split.
  - apply shipping_cheapest.
  - apply shipping_cheapest.
  - apply shipping_cheapest.
  - apply record_methods_wf.
  - apply record_methods_wf.
  - intros k ->. by eapply record_lock_canonical.
Qed.

(** ** Drops *)

Lemma listing_id_issues_nil i seen ids :
  listing_id_issues i seen ids = [] ->
  NoDup ids /\ (forall id, id ∈ ids -> id ∉ seen /\ is_valid_entity_id id = true).
Proof.
  revert i seen. induction ids as [|id ids IH]; intros i seen E; cbn in E.
  - split; [constructor|]. intros id Hid. by apply not_elem_of_nil in Hid.
  - apply app_nil_iff in E as [E1 E]. apply app_nil_iff in E as [E2 E]. apply require_nil in E1, E2.
    destruct (IH _ _ E) as [Hn Hs]. split.
    + constructor; [|done]. intros Hin. destruct (Hs _ Hin) as [Hns _]. apply Hns. by left.
    + intros id' Hid'. apply elem_of_cons in Hid' as [->|Hid'].
      * split; [|done]. intros Hin. apply negb_true_iff in E2. unfold contains in E2.
        apply not_true_iff_false in E2. apply E2, existsb_exists. exists id.
        split; [by apply list_elem_of_In|apply String.eqb_refl].
      * destruct (Hs _ Hid') as [Hns ?]. split; [|done]. intros Hin. apply Hns. by right.
Qed.

(** The terms of an accepted drop record fit the store: the row a first
    sync writes satisfies every constraint of the drop table at any instant,
    and the record names one to twenty distinct, path-safe listings. *)
Theorem validated_drop_fits_schema seller_pubky drop_id record r aggregate_id now state :
  validated_drop_record seller_pubky drop_id record = inl r ->
  drop_check (mkDrop aggregate_id seller_pubky drop_id (dr_revision r) 1 state (dr_starts_at r)
    (dr_ends_at r) (dr_total_quantity r) (dr_per_buyer_limit r) (dr_total_quantity r) 0
    (dr_stock_display r) (dr_listing_ids r) now now) = true /\
  (1 <= length (dr_listing_ids r) <= 20)%nat /\ NoDup (dr_listing_ids r) /\
  (forall id, id ∈ dr_listing_ids r -> is_valid_entity_id id = true).
Proof.
  unfold validated_drop_record. destruct (read_drop_record record) as [w|]; [|done].
  destruct (accept _ _) as [w'|] eqn:Ea; [|done]. apply accept_inl in Ea as [Ei <-].
  intros [= <-]. unfold drop_record_issues in Ei. rewrite !app_nil_iff, !require_nil in Ei.
  destruct Ei as (_ & _ & _ & _ & Hrev & _ & _ & _ & _ & Hend & Hlen & Hids & Htot & Hper & _).
  apply listing_id_issues_nil in Hids as [Hn Hs].
  destruct (between 1 (dr_per_buyer_limit _) 100) eqn:Hp; [|done]. cbn in Hper.
  apply require_nil in Hper. unfold between in Hlen. reflect_bools. split_and!; try done; try lia.
  - unfold drop_check. cbn. unfold between in *. reflect_bools.
    repeat (apply andb_true_iff; split); try done; try (apply Z.leb_le; lia); apply Z.ltb_lt; lia.
  - intros id Hid. by apply Hs.
Qed.
End Contract.

(** ** Sample records *)

Definition epoch_json : JsonText := {|
  to_vec := fun _ => "";
  from_slice := fun _ => None;
  parse_datetime := fun s => if (s =? "later")%string then Some 100 else Some 0;
|}.

Definition money_value (amount : Z) : Json :=
  JObject [("amountMinor", JInt amount); ("currency", JString "EUR"); ("exponent", JInt 2)].

(** A mug: nine and five euros of shipping, shipping named twice. *)
Definition mug_record : Json :=
  JObject [("recordType", JString "listing"); ("schemaVersion", JInt 1);
    ("ownerPubky", JString "sally"); ("listingId", JString "mug"); ("title", JString "Mug");
    ("revision", JInt 3); ("variants", JArray [JObject [("quantity", JInt 4)]; JArray [JInt 2]]);
    ("shippingOptions", JArray
       [JObject [("pricing", JString "flat"); ("price", money_value 900)];
        JObject [("pricing", JString "calculated")];
        JObject [("pricing", JString "flat"); ("price", money_value 500)]]);
    ("fulfillmentMethods", JArray [JString "shipping"; JString "pickup"; JString "shipping"]);
    ("sale", JObject [("format", JString "fixed_price"); ("unitPrice", money_value 1200)]);
    ("color", JString "blue")].

Definition mug_registration : RegisterListingPayload :=
  mkRegisterListing "sally" "mug" "Mug" 3 "" 6 (mkMoney 1200 "EUR" 2) 500 FixedPrice None None
    [Shipping; Pickup] None.

Lemma record_registers_signed_terms_witness :
  @registration_payload_from_record epoch_json bit_crate "sally" "mug" mug_record =
    Registration mug_registration /\
  ensure_reserve_free mug_record = true /\ NoDup (rl_fulfillment_methods mug_registration).
Proof.
  assert (E : @registration_payload_from_record epoch_json bit_crate "sally" "mug" mug_record =
              Registration mug_registration) by (vm_compute; reflexivity).
  split; [exact E|].
  destruct (@record_registers_signed_terms epoch_json bit_crate _ _ _ _ E)
    as (r & _ & _ & _ & _ & Hf & _ & _ & _ & [_ Hn] & _).
  exact (conj Hf Hn).
Defined.

Definition drop_value : Json :=
  JObject [("schemaVersion", JInt 1); ("recordType", JString "drop");
    ("ownerPubky", JString "sally"); ("revision", JInt 1); ("createdAt", JString "now");
    ("updatedAt", JString "now"); ("dropId", JString "d"); ("title", JString "Prints");
    ("format", JString "fcfs"); ("startsAt", JString "now"); ("endsAt", JString "later");
    ("listingIds", JArray [JString "a"; JString "b"]); ("totalQuantity", JInt 5);
    ("perBuyerLimit", JInt 2); ("stockDisplay", JString "exact")].

Lemma validated_drop_fits_schema_witness :
  @validated_drop_record epoch_json "sally" "d" drop_value =
    inl (mkDropRecord 1 0 (Some 100) 5 2 "exact" ["a"; "b"]) /\
  drop_check (mkDrop "drop:d" "sally" "d" 1 1 DLive 0 (Some 100) 5 2 5 0 "exact" ["a"; "b"] 7 7)
    = true.
Proof.
  assert (E : @validated_drop_record epoch_json "sally" "d" drop_value =
              inl (mkDropRecord 1 0 (Some 100) 5 2 "exact" ["a"; "b"])) by (vm_compute; reflexivity).
  split; [exact E|].
  exact (proj1 (@validated_drop_fits_schema epoch_json _ _ _ _ "drop:d" 7 DLive E)).
Defined.
