(* ===== verification/Offers.v ===== *)
(** * Offers ([handlers/offers.rs], [OfferRow] of [model.rs])

    A buyer offers, either side counters, the side that did not make the
    current terms accepts or rejects, its author withdraws.  Acceptance moves
    the units into a reservation of thirty minutes, the award. *)

From S2P Require Import Prelude Domain StateMachines Text Store Commands Actions Holds AwardTerms.

Definition ACCEPTED_OFFER_HOLD_SECONDS : Z := 30 * 60.

Definition offer_amount (o : OfferRow) : Money :=
  mkMoney (of_amount_minor o) (of_currency o) (of_exponent o).

(** [OfferRow::award_fulfillment_methods]. *)
Definition award_fulfillment_methods (a : OfferAward) : list FulfillmentMethod :=
  default [Shipping] (aw_fulfillment_methods a).

(** The state [OfferRow::view] shows: an award past its window reads expired. *)
Definition projected_state (o : OfferRow) (now : Time) : OfferState :=
  match of_state o, of_award o with
  | OfAccepted, Some a => if aw_award_expires_at a <=? now then OfExpired else OfAccepted
  | s, _ => s
  end.

Definition offer_view (o : OfferRow) (now : Time) : OfferRow :=
  o <| of_state := projected_state o now |>.

Definition history_entry (revision : Z) (actor action : string) (amount : Money) (quantity : Z)
    (message : string) (occurred_at : Time) : OfferHistory :=
  mkOfferHistory revision actor action amount quantity message occurred_at.

Definition other_participant (offer : OfferRow) (actor : string) : Pubky :=
  if (actor =? of_seller_pubky offer)%string then of_buyer_pubky offer else of_seller_pubky offer.

Definition offer_asset (listing : ListingRow) (amount : Money) : bool :=
  ((l_unit_price_currency listing =? currency amount)%string &&
   (l_unit_price_exponent listing =? exponent amount)).

Definition SNAPSHOT_MISMATCH : CommandFailure :=
  refused AwardListingChanged "The listing snapshot does not match the offer terms.".
Definition RECORD_UNAVAILABLE : CommandFailure :=
  refused InvalidState "The seller listing record is unavailable.".
Definition OFFER_LISTING_UNAVAILABLE : CommandFailure :=
  refused NotFound "The offer listing is unavailable.".
Definition VARIANT_MISMATCH : CommandFailure :=
  refused AwardVariantMismatch "The checkout variant does not match the accepted offer.".
Definition stale_offer (offer : OfferRow) : CommandFailure :=
  refused_with_revision RevisionConflict "The offer revision is stale." (of_revision offer).

(** How the handlers reach a seller's raw record. *)
Definition RawFetch : Type := Pubky -> string -> HomeserverRawFetchOutcome.

Definition terms_row (snapshot : AwardListingSnapshot) (variant : option string) : OfferTerms :=
  mkOfferTermsRow (al_revision snapshot) (al_raw_sha256 snapshot) (al_title snapshot)
    (al_currency snapshot) (al_exponent snapshot) (al_shipping_minor snapshot) variant.

(** [(variants.len() == 1).then(|| variants[0])]. *)
Definition sole_variant (snapshot : AwardListingSnapshot) : option AwardVariantSnapshot :=
  match al_variants snapshot with [v] => Some v | _ => None end.

Definition find_variant (id : string) (snapshot : AwardListingSnapshot)
    : option AwardVariantSnapshot :=
  find (fun v => av_id v =? id)%string (al_variants snapshot).

Section Offers.
Context `{!UuidCrate}.

(** ** [offer.create] *)

(** The terms of the seller's record, when the homeserver has one. *)
Definition create_terms (homeserver : option RawFetch) (listing : ListingRow)
    : H (option AwardListingSnapshot) :=
  match homeserver with
  | None => ret None
  | Some fetch =>
      match fetch (l_seller_pubky listing) (l_listing_id listing) with
      | RawFound raw =>
          match award_terms_from_bytes raw with
          | inl snapshot => ret (Some snapshot)
          | inr _ => refuse SNAPSHOT_MISMATCH
          end
      | RawTooLarge => refuse SNAPSHOT_MISMATCH
      | RawNotFound | RawUnavailable => ret None
      end
  end.

Definition takes_offers (listing : ListingRow) : bool :=
  existsb (fun m => match m with Shipping | Pickup => true | Digital => false end)
    (l_fulfillment_methods listing).

(** The uniqueness of [offers.aggregate_id] follows its id's. *)
Definition create (actor : string) (command : Command) (payload : OfferTermsPayload)
    (homeserver : option RawFetch) (now : Time) : H HandlerSuccess :=
  let* row := fetch_live_listing (c_aggregate_id command) in
  let* listing := or_refuse row (refused NotFound "The listing is not registered.") in
  do* refuse_if (l_seller_pubky listing =? actor)%string
        (refused Unauthorized "A seller cannot make an offer on their own listing.") in
  do* refuse_if (negb (c_expected_revision command =? l_server_revision listing))
        (refused_with_revision RevisionConflict "The listing revision is stale."
           (l_server_revision listing)) in
  do* refuse_if (l_available_quantity listing <? ot_quantity payload)
        (refused_with_revision InsufficientInventory
           "The requested offer quantity is unavailable." (l_server_revision listing)) in
  do* refuse_if (negb (offer_asset listing (ot_amount payload)))
        (refused InvalidCommand "Offer amount must use the listing asset and exponent.") in
  do* refuse_if (negb (takes_offers listing))
        (refused_with_reason InvalidState "Offers are not available on digital items."
           "offers_unavailable_for_digital") in
  let* terms := create_terms homeserver listing in
  let selected_variant := av_id <$> (terms ≫= sole_variant) in
  let aggregate_id := offer_aggregate_id (c_command_id command) in
  let amount := ot_amount payload in
  let offer :=
    mkOffer (c_command_id command) aggregate_id (l_aggregate_id listing) actor
      (l_seller_pubky listing) 1 OfPending actor (amount_minor amount) (currency amount)
      (exponent amount) (ot_quantity payload) (ot_message payload)
      [history_entry 1 actor "created" amount (ot_quantity payload) (ot_message payload) now]
      (now + seconds (ot_expires_in_seconds payload)) now now selected_variant
      ((fun snapshot => terms_row snapshot selected_variant) <$> terms) None None None in
  do* insert offers offer_check (c_command_id command) offer no_clash in
  let* event_id := insert_event (c_command_id command) aggregate_id 1 actor "offer.created" now in
  do* insert_notification_intent event_id "offer_received" (l_seller_pubky listing) actor
        aggregate_id (Some amount) now in
  ret (mkSuccess 1 [event_id] (VOffer (offer_view offer now))).

(** ** Acting on an offer *)

(** [actionable_offer]. *)
Definition actionable_offer (actor : string) (offer_id : Uuid) (aggregate_id : string)
    (now : Time) : H OfferRow :=
  let* row := select offers offer_id in
  let* offer := or_refuse row (refused NotFound "The offer was not found.") in
  do* refuse_if (negb (aggregate_id =? of_aggregate_id offer)%string)
        (refused InvalidCommand "The offer aggregate id is invalid.") in
  do* refuse_if (negb (actor =? of_buyer_pubky offer)%string &&
                 negb (actor =? of_seller_pubky offer)%string)
        (refused Unauthorized "Only offer participants may act on it.") in
  do* refuse_if (negb (bool_decide (of_state offer = OfPending)) &&
                 negb (bool_decide (of_state offer = OfCountered)))
        (refused InvalidState "The offer is no longer actionable.") in
  do* refuse_if (of_expires_at offer <=? now) (refused OfferExpired "The offer has expired.") in
  ret offer.

(** [UPDATE offers SET .. WHERE id = $1 RETURNING ..]. *)
Definition update_offer (offer : OfferRow) (f : OfferRow -> OfferRow) : H OfferRow :=
  update_one offers offer_check (of_id offer) always f.

(** ** [offer.counter] *)

(** The listing id of an offer's listing, and the seller's raw record. *)
Definition fetch_offer_record (fetch : RawFetch) (locator : OfferRow)
    : H (string * HomeserverRawFetchOutcome) :=
  let* row := select listings (of_listing_aggregate_id locator) in
  let* listing := or_refuse row OFFER_LISTING_UNAVAILABLE in
  ret (l_listing_id listing, fetch (of_seller_pubky locator) (l_listing_id listing)).

(** The refreshed terms; without a record the command is refused. *)
Definition require_terms (outcome : HomeserverRawFetchOutcome) (variant : option string)
    : H AwardListingSnapshot :=
  match outcome with
  | RawFound raw =>
      match award_terms_from_bytes_for_variant raw variant with
      | inl snapshot => ret snapshot
      | inr _ => refuse SNAPSHOT_MISMATCH
      end
  | RawTooLarge => refuse SNAPSHOT_MISMATCH
  | RawNotFound | RawUnavailable => refuse RECORD_UNAVAILABLE
  end.

Definition counter_terms (actor : string) (offer_id : Uuid) (homeserver : option RawFetch)
    : H (option AwardListingSnapshot) :=
  let* row := select offers offer_id in
  let locator := row ≫= fun o =>
    if ((of_buyer_pubky o =? actor) || (of_seller_pubky o =? actor))%string then Some o
    else None in
  match homeserver, locator with
  | Some fetch, Some locator =>
      let* fetched := fetch_offer_record fetch locator in
      let* snapshot := require_terms (snd fetched) (of_variant_id locator) in
      ret (Some snapshot)
  | _, _ => ret None
  end.

(** The variant the refreshed terms name, checked against the counter. *)
Definition counter_variant (offer : OfferRow) (payload : CounterOfferPayload)
    (terms : option AwardListingSnapshot) : H (option string) :=
  match terms with
  | None => ret None
  | Some snapshot =>
      do* refuse_if (negb (al_currency snapshot =? currency (co_amount payload))%string ||
                     negb (al_exponent snapshot =? exponent (co_amount payload)))
            SNAPSHOT_MISMATCH in
      let variant :=
        match of_variant_id offer with
        | Some id => find_variant id snapshot
        | None => sole_variant snapshot
        end in
      let* variant := or_refuse variant VARIANT_MISMATCH in
      do* refuse_if (av_quantity variant <? co_quantity payload)
            (refused_with_revision InsufficientInventory
               "The counteroffer quantity is unavailable." (of_revision offer)) in
      ret (Some (av_id variant))
  end.

Definition offer_listing (offer : OfferRow) : H ListingRow :=
  let* row := fetch_live_listing (of_listing_aggregate_id offer) in
  match row with
  | Some listing =>
      if accepts_commitment_created_at listing (of_created_at offer) then ret listing
      else refuse OFFER_LISTING_UNAVAILABLE
  | None => refuse OFFER_LISTING_UNAVAILABLE
  end.

(** [COALESCE(new, old)]. *)
Definition coalesce {A} (new old : option A) : option A :=
  match new with Some _ => new | None => old end.

Definition counter (actor : string) (command : Command) (payload : CounterOfferPayload)
    (homeserver : option RawFetch) (now : Time) : H HandlerSuccess :=
  let* terms := counter_terms actor (co_offer_id payload) homeserver in
  let* offer := actionable_offer actor (co_offer_id payload) (c_aggregate_id command) now in
  do* refuse_if (negb (c_expected_revision command =? of_revision offer)) (stale_offer offer) in
  do* refuse_if (actor =? of_offered_by offer)%string
        (refused Unauthorized "The current offer author cannot counter their own terms.") in
  do* refuse_if (negb (of_currency offer =? currency (co_amount payload))%string ||
                 negb (of_exponent offer =? exponent (co_amount payload)))
        (refused InvalidCommand
           "Counteroffer amount must use the original asset and exponent.") in
  let* variant := counter_variant offer payload terms in
  let* listing := offer_listing offer in
  do* refuse_if (l_available_quantity listing <? co_quantity payload)
        (refused_with_revision InsufficientInventory "The counteroffer quantity is unavailable."
           (of_revision offer)) in
  let new_revision := of_revision offer + 1 in
  let entry := history_entry new_revision actor "countered" (co_amount payload)
                 (co_quantity payload) (co_message payload) now in
  let* updated := update_offer offer (fun o =>
    o <| of_revision := new_revision |> <| of_state := OfCountered |> <| of_offered_by := actor |>
      <| of_amount_minor := amount_minor (co_amount payload) |>
      <| of_quantity := co_quantity payload |> <| of_message := co_message payload |>
      <| of_expires_at := now + seconds (co_expires_in_seconds payload) |>
      <| of_updated_at := now |> <| of_history := of_history o ++ [entry] |>
      <| of_variant_id := coalesce variant (of_variant_id o) |>
      <| of_terms := coalesce ((fun snapshot =>
           terms_row snapshot (coalesce variant (of_variant_id offer))) <$> terms) (of_terms o) |>) in
  let* event_id := insert_event (c_command_id command) (of_aggregate_id offer) new_revision actor
                     "offer.countered" now in
  do* insert_notification_intent event_id "offer_countered" (other_participant updated actor) actor
        (of_aggregate_id offer) (Some (co_amount payload)) now in
  ret (mkSuccess new_revision [event_id] (VOffer (offer_view updated now))).

(** ** [offer.accept] *)

(** What stands in for the record on a deployment without a homeserver. *)
Definition local_snapshot (locator : OfferRow) : AwardListingSnapshot :=
  mkAwardListing
    (default (of_listing_aggregate_id locator) (tm_record_sha256 <$> of_terms locator))
    (default 1 (tm_listing_revision <$> of_terms locator)) "Marketplace item"
    (of_currency locator) (of_exponent locator) 0 [Shipping]
    [mkAwardVariant (default (of_listing_aggregate_id locator) (of_variant_id locator)) None []
       (of_quantity locator) None].

(** The snapshot, and the identity it was fetched for. *)
Definition accept_snapshot (locator : OfferRow) (homeserver : option RawFetch)
    : H (AwardListingSnapshot * option (Pubky * string * string)) :=
  match homeserver with
  | None => ret (local_snapshot locator, None)
  | Some fetch =>
      let* fetched := fetch_offer_record fetch locator in
      let* snapshot := require_terms (snd fetched) (of_variant_id locator) in
      ret (snapshot,
           Some (of_seller_pubky locator, of_listing_aggregate_id locator, fst fetched))
  end.

Definition check_identity (offer : OfferRow) (fetched : option (Pubky * string * string))
    : H unit :=
  match fetched with
  | None => ret tt
  | Some (seller, aggregate, listing_id) =>
      let* current := fetch_listing (of_listing_aggregate_id offer) in
      refuse_if
        (negb (of_seller_pubky offer =? seller)%string ||
         negb (of_listing_aggregate_id offer =? aggregate)%string ||
         match current with
         | None => true
         | Some listing =>
             negb (l_seller_pubky listing =? seller)%string ||
             negb (l_listing_id listing =? listing_id)%string ||
             negb (l_aggregate_id listing =? aggregate)%string
         end) SNAPSHOT_MISMATCH
  end.

(** The snapshot still carries the terms the offer was made on. *)
Definition terms_moved (offer : OfferRow) (snapshot : AwardListingSnapshot) : bool :=
  match of_terms offer with
  | None => false
  | Some terms =>
      negb (tm_record_sha256 terms =? al_raw_sha256 snapshot)%string ||
      negb (tm_listing_revision terms =? al_revision snapshot)
  end.

(** [i64::checked_mul], [i64::checked_add]. *)
Definition checked_mul (a b : Z) : option Z := if in_i64 (a * b) then Some (a * b) else None.
Definition checked_add (a b : Z) : option Z := if in_i64 (a + b) then Some (a + b) else None.

(** Migration 0025: [reservations.offer_award_id] is unique. *)
Definition reservation_clash (r : ReservationRow) (db : Db) : bool :=
  table_any (fun r' => bool_decide (is_Some (r_offer_award_id r)) &&
                       bool_decide (r_offer_award_id r' = r_offer_award_id r)) (reservations db).

(** The stock of an award: the listing row, then the reservation. *)
Definition hold_award (command : Command) (offer : OfferRow) (listing : ListingRow)
    (expires_at now : Time) : H (ListingRow * ReservationRow * Uuid) :=
  let new_listing_state := state_after_reserve listing (of_quantity offer) in
  do* refuse_if (negb (listing_can (l_state listing) new_listing_state))
        (refused_with_revision InvariantViolation "The listing cannot enter the reserved state."
           (l_server_revision listing)) in
  let* updated_listing := update_one listings listing_check (l_aggregate_id listing)
    (fun l => (l_server_revision l =? l_server_revision listing) &&
              (of_quantity offer <=? l_available_quantity l))
    (reserve_listing new_listing_state (of_quantity offer) now) in
  let* award_id := fresh_uuid in
  let reservation := mkReservation (c_command_id command) (l_aggregate_id listing)
    (of_buyer_pubky offer) (of_quantity offer) RActive expires_at now now None (Some award_id) in
  do* insert reservations reservation_check (c_command_id command) reservation
        (reservation_clash reservation) in
  ret (updated_listing, reservation, award_id).

(** The award columns. *)
Definition award_row (offer : OfferRow) (snapshot : AwardListingSnapshot)
    (variant : AwardVariantSnapshot) (reservation : ReservationRow) (award_id : Uuid)
    (subtotal total : Z) (now : Time) : OfferAward :=
  mkAward award_id now (r_expires_at reservation) (r_id reservation) (of_amount_minor offer)
    (of_currency offer) (of_exponent offer) (of_quantity offer) (of_listing_aggregate_id offer)
    (al_title snapshot) (al_revision snapshot) (al_raw_sha256 snapshot) (av_id variant)
    (av_sku variant) (av_options variant) (al_shipping_minor snapshot) subtotal total
    (Some (al_fulfillment_methods snapshot)).

Definition accept (actor : string) (command : Command) (payload : OfferActionPayload)
    (homeserver : option RawFetch) (now : Time) : H HandlerSuccess :=
  let* row := select offers (oa_offer_id payload) in
  let* locator := or_refuse row (refused NotFound "The offer was not found.") in
  let* fetched := accept_snapshot locator homeserver in
  let snapshot := fst fetched in
  let* offer := actionable_offer actor (oa_offer_id payload) (c_aggregate_id command) now in
  do* check_identity offer (snd fetched) in
  do* refuse_if (negb (c_expected_revision command =? of_revision offer)) (stale_offer offer) in
  do* refuse_if (actor =? of_offered_by offer)%string
        (refused Unauthorized "The current offer author cannot accept their own terms.") in
  do* refuse_if (terms_moved offer snapshot) SNAPSHOT_MISMATCH in
  let* variant := or_refuse
    (match of_variant_id offer with
     | Some id => find_variant id snapshot
     | None => sole_variant snapshot
     end) VARIANT_MISMATCH in
  do* refuse_if ((av_quantity variant <? of_quantity offer) ||
                 negb (al_currency snapshot =? of_currency offer)%string ||
                 negb (al_exponent snapshot =? of_exponent offer))
        (refused InvalidCommand "Offer amount must use the listing asset and exponent.") in
  let* listing := offer_listing offer in
  do* refuse_if (l_available_quantity listing <? of_quantity offer)
        (refused_with_revision InsufficientInventory
           "The offered quantity is no longer available." (of_revision offer)) in
  let expires_at := now + seconds ACCEPTED_OFFER_HOLD_SECONDS in
  let* held := hold_award command offer listing expires_at now in
  let updated_listing := fst (fst held) in
  let reservation := snd (fst held) in
  let* subtotal := or_fail (checked_mul (of_amount_minor offer) (of_quantity offer))
                     (Protocol "offer amount overflow") in
  let* total := or_fail (checked_add subtotal (al_shipping_minor snapshot))
                  (Protocol "offer total overflow") in
  let entry := history_entry (of_revision offer + 1) actor "accepted" (offer_amount offer)
                 (of_quantity offer) "" now in
  let award := award_row offer snapshot variant reservation (snd held) subtotal total now in
  let* accepted := update_offer offer (fun o =>
    o <| of_revision := of_revision offer + 1 |> <| of_state := OfAccepted |>
      <| of_updated_at := now |> <| of_award := Some award |>
      <| of_history := of_history o ++ [entry] |>) in
  let* offer_event_id := insert_event (c_command_id command) (of_aggregate_id offer)
                           (of_revision accepted) actor "offer.accepted" now in
  let* inventory_event_id := insert_event (c_command_id command) (l_aggregate_id listing)
                               (l_server_revision updated_listing) actor "inventory.reserved" now in
  do* insert_notification_intent offer_event_id "offer_accepted"
        (other_participant accepted actor) actor (of_aggregate_id offer)
        (Some (offer_amount accepted)) now in
  ret (mkSuccess (of_revision accepted) [offer_event_id; inventory_event_id]
         (VAcceptedOffer (offer_view accepted now) updated_listing reservation)).

(** ** [offer.reject] and [offer.withdraw] *)

Definition finish_offer (offer : OfferRow) (actor : string) (state : OfferState) (now : Time)
    : H OfferRow :=
  do* debug_assert
        (Machines.can_transition Machines.offer_machine (offer_state_str (of_state offer))
           (offer_state_str state)) "offer transition" in
  let new_revision := of_revision offer + 1 in
  let entry := history_entry new_revision actor (offer_state_str state) (offer_amount offer)
                 (of_quantity offer) "" now in
  update_offer offer (fun o =>
    o <| of_revision := new_revision |> <| of_state := state |> <| of_updated_at := now |>
      <| of_history := of_history o ++ [entry] |>).

Definition reject (actor : string) (command : Command) (payload : OfferActionPayload)
    (now : Time) : H HandlerSuccess :=
  let* offer := actionable_offer actor (oa_offer_id payload) (c_aggregate_id command) now in
  do* refuse_if (negb (c_expected_revision command =? of_revision offer)) (stale_offer offer) in
  do* refuse_if (actor =? of_offered_by offer)%string
        (refused Unauthorized "The current offer author cannot reject their own terms.") in
  let* updated := finish_offer offer actor OfRejected now in
  let* event_id := insert_event (c_command_id command) (of_aggregate_id offer)
                     (of_revision updated) actor "offer.rejected" now in
  do* insert_notification_intent event_id "offer_rejected" (other_participant updated actor) actor
        (of_aggregate_id offer) (Some (offer_amount updated)) now in
  ret (mkSuccess (of_revision updated) [event_id] (VOffer (offer_view updated now))).

Definition withdraw (actor : string) (command : Command) (payload : OfferActionPayload)
    (now : Time) : H HandlerSuccess :=
  let* offer := actionable_offer actor (oa_offer_id payload) (c_aggregate_id command) now in
  do* refuse_if (negb (actor =? of_offered_by offer)%string)
        (refused Unauthorized "Only the current offer author may withdraw it.") in
  do* refuse_if (negb (c_expected_revision command =? of_revision offer)) (stale_offer offer) in
  let* updated := finish_offer offer actor OfWithdrawn now in
  let* event_id := insert_event (c_command_id command) (of_aggregate_id offer)
                     (of_revision updated) actor "offer.withdrawn" now in
  ret (mkSuccess (of_revision updated) [event_id] (VOffer (offer_view updated now))).
End Offers.
