(* ===== verification/OfferCheckout.v ===== *)
(** * Offer checkout ([handlers/offer_checkout.rs])

    The buyer of an accepted offer turns the award into one order: the
    reservation is converted, the order holds the same units from then on, and
    the offer is marked converted.  Price, quantity, variant and the permitted
    fulfillment come from the accepted snapshot. *)

From S2P Require Import Prelude Domain StateMachines Store Commands Actions Holds Auction Checkout.
From S2P Require Import AwardTerms Offers.

Definition NOT_AWARD_BUYER : CommandFailure :=
  refused Unauthorized "Only the accepted offer's buyer may place this order.".
Definition AWARD_EXPIRED : CommandFailure :=
  refused AwardExpired
    "This accepted offer's checkout window has expired. Nothing was ordered.".
Definition HOLD_MISSING : CommandFailure :=
  refused AwardHoldMissing "The inventory reserved for this accepted offer is no longer held.".

Section OfferCheckout.
Context `{!UuidCrate}.

(** The window of the award has passed, or its expiry was recorded. *)
Definition award_lapsed (offer : OfferRow) (lock_now : Time) : bool :=
  bool_decide (of_expiry_reason offer = Some "award_window") ||
  (bool_decide (of_state offer = OfAccepted) &&
   match of_award offer with
   | Some a => aw_award_expires_at a <=? lock_now
   | None => true
   end).

(** The guards up to the award itself. *)
Definition load_award (actor : string) (command : Command) (payload : OfferCheckoutPayload)
    (lock_now : Time) : H (OfferRow * OfferAward) :=
  let* row := select offers (oc_offer_id payload) in
  let* offer := or_refuse row NOT_AWARD_BUYER in
  do* refuse_if (negb (c_aggregate_id command =? offer_aggregate_id (of_id offer))%string)
        (refused InvalidCommand "The offer checkout input is invalid.") in
  do* refuse_if (negb (actor =? of_buyer_pubky offer)%string) NOT_AWARD_BUYER in
  do* refuse_if (bool_decide (of_state offer = OfConverted))
        (refused AwardAlreadyConverted
           "This accepted offer has already been converted to an order.") in
  do* refuse_if (negb (c_expected_revision command =? of_revision offer)) (stale_offer offer) in
  do* refuse_if (award_lapsed offer lock_now) AWARD_EXPIRED in
  do* refuse_if (negb (bool_decide (of_state offer = OfAccepted)))
        (refused InvalidState "Only an accepted offer can enter offer checkout.") in
  do* refuse_if (negb (bool_decide (aw_variant_id <$> of_award offer = Some (oc_variant_id payload))))
        VARIANT_MISMATCH in
  do* refuse_if
        (negb (bool_decide (aw_award_id <$> of_award offer = Some (oc_award_id payload))) ||
         negb (bool_decide (aw_listing_aggregate_id <$> of_award offer
                            = Some (oc_listing_aggregate_id payload))) ||
         negb (bool_decide (aw_listing_revision <$> of_award offer
                            = Some (oc_listing_revision payload))) ||
         negb (bool_decide (aw_listing_record_sha256 <$> of_award offer
                            = Some (oc_listing_record_sha256 payload)))) SNAPSHOT_MISMATCH in
  do* refuse_if (negb (bool_decide (aw_quantity <$> of_award offer = Some (oc_quantity payload))))
        (refused AwardQuantityMismatch
           "The checkout quantity does not match the accepted offer.") in
  let* award := or_fail (of_award offer) (Protocol "accepted offer has no reservation") in
  ret (offer, award).

(** The hold behind the award. *)
Definition load_hold (offer : OfferRow) (award : OfferAward) (payload : OfferCheckoutPayload)
    (lock_now : Time) : H ReservationRow :=
  let* row := select reservations (aw_reservation_id award) in
  let* reservation := or_refuse row HOLD_MISSING in
  do* refuse_if (negb (bool_decide (r_status reservation = RActive)) ||
                 (r_expires_at reservation <=? lock_now)) AWARD_EXPIRED in
  let* listing_row := fetch_listing_for_update (r_listing_aggregate_id reservation) in
  let* listing := or_refuse listing_row HOLD_MISSING in
  do* refuse_if (negb (accepts_commitment_created_at listing (of_created_at offer)))
        OFFER_LISTING_UNAVAILABLE in
  do* refuse_if
        (negb (r_buyer_pubky reservation =? of_buyer_pubky offer)%string ||
         negb (r_listing_aggregate_id reservation =? oc_listing_aggregate_id payload)%string ||
         negb (r_quantity reservation =? oc_quantity payload) ||
         negb (bool_decide (r_offer_award_id reservation = Some (oc_award_id payload))) ||
         (l_reserved_quantity listing <? r_quantity reservation)) HOLD_MISSING in
  ret reservation.

(** The chosen fulfillment, checked against the accepted snapshot, and the
    address that goes with it. *)
Definition award_delivery (award : OfferAward) (payload : OfferCheckoutPayload)
    : H (FulfillmentMethod * option DeliveryAddress) :=
  let fulfillment := default Shipping (oc_fulfillment payload) in
  do* refuse_if (negb (bool_decide (fulfillment ∈ award_fulfillment_methods award)))
        (refused_with_reason InvalidState
           "The accepted offer does not include the chosen fulfillment method."
           "fulfillment_not_published") in
  match oc_delivery_address payload, bool_decide (fulfillment = Pickup) with
  | Some address, false => ret (fulfillment, Some address)
  | None, true => ret (fulfillment, None)
  | Some _, true =>
      refuse (refused InvalidCommand
                "A checkout with no shipped group must not carry a delivery address.")
  | None, false =>
      refuse (refused InvalidCommand
                "A delivery address is required when any checkout group ships.")
  end.

(** The order's only line; it carries no content hash. *)
Definition award_line (award : OfferAward) (payload : OfferCheckoutPayload)
    (reservation : ReservationRow) (fulfillment : FulfillmentMethod) : OrderLine :=
  mkLine (aw_listing_aggregate_id award) (aw_listing_revision award) "" (aw_listing_title award)
    (r_quantity reservation)
    (mkMoney (aw_unit_price_minor award) (aw_currency award) (aw_exponent award))
    (mkMoney (aw_subtotal_minor award) (aw_currency award) (aw_exponent award))
    (Some fulfillment) None None (Some (oc_variant_id payload)) None.

Definition award_order (actor : string) (command : Command) (payload : OfferCheckoutPayload)
    (offer : OfferRow) (award : OfferAward) (reservation : ReservationRow)
    (delivery : FulfillmentMethod * option DeliveryAddress) (order_id payment_id : Uuid)
    (hold_expires_at lock_now : Time) : OrderRow :=
  let pickup := bool_decide (fst delivery = Pickup) in
  let shipping := if pickup then 0 else aw_shipping_minor award in
  let total := if pickup then aw_subtotal_minor award else aw_total_minor award in
  (new_for_insert order_id None None actor (of_seller_pubky offer)
    [award_line award payload reservation (fst delivery)] (snd delivery) (aw_subtotal_minor award)
    shipping total (aw_currency award) (aw_exponent award)
    (as_i32 (oc_guarantee_policy_version payload)) payment_id true (Some hold_expires_at)
    (fst delivery) lock_now "offer")
    <| o_checkout_command_id := Some (c_command_id command) |>
    <| o_offer_award_id := Some (oc_award_id payload) |>.

(** The answer: the priced lines, the payment and the hold. *)
Definition offer_order_view (payload : OfferCheckoutPayload) (order : OrderRow)
    (hold_expires_at : Time) : OfferOrderView :=
  let money amount := mkMoney amount (o_currency order) (o_exponent order) in
  mkOfferOrderView (o_id order) (oc_award_id payload) (o_lines order)
    (money (o_subtotal_minor order)) (money (o_shipping_minor order))
    (money (o_total_minor order)) (o_payment_id order) hold_expires_at.

Definition handle (actor : string) (command : Command) (payload : OfferCheckoutPayload)
    (hold_window_seconds : Z) (lock_now : Time) : H HandlerSuccess :=
  let* loaded := load_award actor command payload lock_now in
  let offer := fst loaded in
  let award := snd loaded in
  let* reservation := load_hold offer award payload lock_now in
  let* delivery := award_delivery award payload in
  let* order_id := fresh_uuid in
  let* payment_id := fresh_uuid in
  let hold_expires_at := lock_now + seconds hold_window_seconds in
  let order := award_order actor command payload offer award reservation delivery order_id
                 payment_id hold_expires_at lock_now in
  let* converted := update_where reservations reservation_check (aw_reservation_id award)
    (fun r => bool_decide (r_status r = RActive))
    (fun r => r <| r_status := RConverted |> <| r_updated_at := lock_now |>) in
  let* _ := or_refuse converted HOLD_MISSING in
  do* insert orders order_check order_id order (order_clash order) in
  let payment := new_payment payment_id order_id actor (of_seller_pubky offer)
    (o_total_minor order) (aw_currency award) (aw_exponent award) (Some (o_total_minor order))
    lock_now in
  do* insert payments payment_check payment_id payment (payment_clash order_id) in
  let* _ := update_where offers offer_check (of_id offer) always (fun o =>
    o <| of_state := OfConverted |> <| of_revision := of_revision o + 1 |>
      <| of_converted := Some (order_id, lock_now) |> <| of_updated_at := lock_now |>) in
  let* event_id := insert_event (c_command_id command) (of_aggregate_id offer)
                     (of_revision offer + 1) actor "offer.converted" lock_now in
  let* order_event_id := insert_event (c_command_id command) (order_aggregate_id order_id) 1 actor
                           "order.created" lock_now in
  do* insert_notification_intent order_event_id "order_created" (of_seller_pubky offer) actor
        (order_aggregate_id order_id) None lock_now in
  ret (mkSuccess (of_revision offer + 1) [event_id; order_event_id] (VOfferOrder
         (offer_order_view payload order hold_expires_at))).
End OfferCheckout.
