(* ===== verification/Executor.v ===== *)
(** * Command execution ([executor.rs])

    Exactly one accepted result exists per actor and command id: an exact
    replay answers with the stored result, different input is a conflict,
    and a refused or failed command leaves no trace.

    Parsing a wire command and hashing its canonical form are inputs
    ([parsed], [request_hash]).  Offer checkout reads the clock again; its
    instant is that of the command here.  The seller's public record that
    [listing.register] may need is read before the transaction; a replay is
    answered from the same stored row by the early and the locked lookup, so
    one lookup stands for both. *)

From S2P Require Import Prelude Domain Pubky Seal Json Store Commands Actions Reviews Drops.
From S2P Require Import Holds PickupDetails DigitalManual Digital Fulfillment.
From S2P Require Import Cancellation Payment Auction Checkout AwardTerms Offers OfferCheckout LockResource.
From S2P Require Import LocksKeys EventStream Records Locks ListingDeletion Registration.

(** [HomeserverListingClient]: what a seller's homeserver answers. *)
Record HomeserverListingClient := mkHomeserver {
  hc_fetch_listing : Pubky -> string -> HomeserverFetchOutcome;
  hc_listing_events : EventsFetch;
  hc_fetch_drop : Pubky -> string -> HomeserverFetchOutcome;
  hc_fetch_raw : RawFetch;
  hc_fetch_digest : DigestFetch;
  hc_fetch_content_lock : Pubky -> string -> HomeserverFetchOutcome;
}.

(** What the handlers read of [AppState] and its configuration. *)
Record AppState := mkAppState {
  st_sandbox_payments_enabled : bool;
  st_sandbox_payment_window_seconds : Z;
  st_locks_payment_window_seconds : Z;
  st_fiat_payment_window_seconds : Z;
  st_drop_claim_window_seconds : Z;
  st_digital_delivery_max_bytes : Z;
  st_locks : option LocksRuntime;
  st_homeserver : option HomeserverListingClient;
  st_confirm_keys : ConfirmKeys;
  st_attestor : option Attestor;
}.

(** An answer: an HTTP response, or the server error of a database failure or
    a panic. *)
Inductive Body :=
| OkBody (body : SuccessBody)
| ErrorBody (failure : CommandFailure).

Inductive Reply :=
| Response (status : Z) (body : Body)
| ServerError (e : SqlError)
| Crashed (message : string).

Definition failure_response (failure : CommandFailure) : Reply :=
  Response (http_status (f_code failure)) (ErrorBody failure).

Definition success_body (command : Command) (success : HandlerSuccess) : SuccessBody :=
  mkSuccessBody (c_command_id command) (c_aggregate_id command) (hs_revision success)
    (hs_event_ids success) (hs_result success).

(** [redact_command_result]: the order objects of a stored checkout lose their
    delivery address, the one a view adds and the one a legacy result kept with
    the row. *)
Definition redact_command_result (body : SuccessBody) : option SuccessBody :=
  match sb_result body with
  | VCheckout orders payments =>
      Some (mkSuccessBody (sb_command_id body) (sb_aggregate_id body) (sb_revision body)
              (sb_event_ids body)
              (VCheckout (map (fun v => mkOrderView ((ov_order v) <| o_delivery_address := None |>)
                                          (ov_total v) None) orders) payments))
  | _ => None
  end.

Definition with_result (body : SuccessBody) (result : HandlerValue) : SuccessBody :=
  mkSuccessBody (sb_command_id body) (sb_aggregate_id body) (sb_revision body)
    (sb_event_ids body) result.

Definition seal_prepare_locks_result (locks : LocksRuntime) (n : N) (command : Command)
    (actor : string) (body : SuccessBody) : option SuccessBody :=
  match c_payload command, sb_result body with
  | PrepareLocks payload, VPrepareLocks reference window_expires_at =>
      Some (with_result body (VPrepareLocksSealed
              (seal_result_client_reference (lo_keys locks) n (pl_payment_id payload) actor reference)
              window_expires_at))
  | _, _ => None
  end.

Definition unseal_prepare_locks_result (locks : LocksRuntime) (command : Command) (actor : string)
    (stored : SuccessBody) : option SuccessBody :=
  match c_payload command, sb_result stored with
  | PrepareLocks payload, VPrepareLocksSealed sealed window_expires_at =>
      match open_result_client_reference (lo_keys locks) (pl_payment_id payload) actor sealed with
      | Some reference => Some (with_result stored (VPrepareLocks reference window_expires_at))
      | None => None
      end
  | _, _ => None
  end.

Definition UNPROCESSABLE : CommandFailure :=
  refused InvariantViolation "The stored command result could not be processed.".
Definition CONFLICT : CommandFailure :=
  refused IdempotencyConflict "The command id was already used with different input.".
Definition UNPROTECTED : CommandFailure :=
  refused InvariantViolation "The command result could not be protected.".
Definition UNIQUENESS : CommandFailure :=
  refused InvariantViolation "A uniqueness constraint rejected the command.".

(** The answer to a command that already has a stored result. *)
Definition stored_result_response (state : AppState) (actor : string) (command : Command)
    (request_hash : string) (stored : StoredResult) : Reply :=
  if negb (sr_request_hash stored =? request_hash)%string then failure_response CONFLICT
  else
    let or_unprocessable o :=
      match o with
      | Some body => Response 200 (OkBody body)
      | None => failure_response UNPROCESSABLE
      end in
    match c_payload command with
    | CreateCheckout _ => or_unprocessable (redact_command_result (sr_result stored))
    | PrepareLocks _ =>
        match st_locks state with
        | None => failure_response UNPROCESSABLE
        | Some locks =>
            or_unprocessable (unseal_prepare_locks_result locks command actor (sr_result stored))
        end
    | _ => Response 200 (OkBody (sr_result stored))
    end.

Section Executor.
Context `{!UuidCrate, !JsonText, !Base32Crate, LC : !LocksCrates}.

(** [dispatch]. *)
Definition dispatch (state : AppState) (actor : string) (command : Command)
    (prefetched : RegisterRecordPrefetch) (now : Time) : H HandlerSuccess :=
  match c_payload command with
  | RegisterListing payload => register actor command payload prefetched now
  | SyncListing payload =>
      sync_listing actor command payload
        ((fun client => (hc_fetch_listing client, hc_listing_events client))
           <$> st_homeserver state) now
  | SyncDrop payload =>
      sync actor command payload
        ((fun client => drop_fetch (sd_seller_pubky payload) (sd_drop_id payload)
            (hc_fetch_drop client (sd_seller_pubky payload) (sd_drop_id payload)))
           <$> st_homeserver state) now
  | CancelDrop => cancel actor command now
  | ReleaseDropListings => release_listings actor command now
  | ReserveInventory payload => Holds.handle actor command payload now
  | CreateCheckout payload =>
      Checkout.handle actor command payload (lo_keys <$> st_locks state)
        (mkCheckoutContext (st_drop_claim_window_seconds state)
           (ck_digital (st_confirm_keys state))) now
  | CreateOffer payload =>
      Offers.create actor command payload (hc_fetch_raw <$> st_homeserver state) now
  | CounterOffer payload =>
      counter actor command payload (hc_fetch_raw <$> st_homeserver state) now
  | AcceptOffer payload =>
      accept actor command payload (hc_fetch_raw <$> st_homeserver state) now
  | OfferCheckout payload =>
      let hold_window_seconds :=
        Z.max (Z.max (st_locks_payment_window_seconds state)
                 (st_fiat_payment_window_seconds state))
          (st_sandbox_payment_window_seconds state) in
      OfferCheckout.handle actor command payload hold_window_seconds now
  | RejectOffer payload => reject actor command payload now
  | WithdrawOffer payload => withdraw actor command payload now
  | PlaceBid payload => place_bid actor command payload now
  | CloseAuction => close actor command now
  | AdvanceSandboxPayment payload =>
      if negb (st_sandbox_payments_enabled state) then
        refuse (refused InvalidCommand "Sandbox payment commands are disabled on this deployment.")
      else
        advance actor command payload (st_sandbox_payment_window_seconds state)
          (st_confirm_keys state) now
  | PrepareLocks payload =>
      prepare_locks actor command payload (lo_keys <$> st_locks state)
        (hc_fetch_content_lock <$> st_homeserver state) (st_locks_payment_window_seconds state) now
  | RegisterLocks payload =>
      register_locks actor command payload (lo_keys <$> st_locks state) now
  | RequestCancellation payload => Cancellation.request actor command payload now
  | ApproveCancellation payload => Cancellation.approve actor command payload now
  | ShipOrder payload => ship actor command payload now
  | ConfirmDelivery payload => confirm_delivery actor command payload now
  | SetPickupDetails payload =>
      PickupDetails.set actor command payload (ck_pickup (st_confirm_keys state))
        (st_sandbox_payments_enabled state) now
  | ClearPickupDetails payload =>
      PickupDetails.clear actor command payload (ck_pickup (st_confirm_keys state))
        (st_sandbox_payments_enabled state) now
  | SetDigitalDelivery payload =>
      set_delivery actor command payload (ck_digital (st_confirm_keys state))
        (hc_fetch_digest <$> st_homeserver state) (st_digital_delivery_max_bytes state) now
  | ClearDigitalDelivery payload =>
      clear_delivery actor command payload (ck_digital (st_confirm_keys state)) now
  | SetDeliveryEmail payload =>
      set_delivery_email actor command payload (ck_digital (st_confirm_keys state)) now
  | DeliverDigital payload => deliver_digital actor command payload now
  | MarkReadyForPickup payload => mark_ready actor command payload now
  | ConfirmPickup payload => confirm_pickup actor command payload now
  | RequestReturn payload => Fulfillment.request actor command payload now
  | ApproveReturn payload => Fulfillment.approve actor command payload now
  | ReceiveReturn payload => Fulfillment.receive actor command payload now
  | RecordExternalRefund payload =>
      record_external_refund actor command payload (st_attestor state) now
  | CreateReview payload => Reviews.create actor command payload (st_attestor state) now
  | UpdateReview payload => Reviews.update actor command payload now
  | SetBandConsent payload => set_band_consent actor command payload now
  end.

(** The record [listing.register] reads before its transaction. *)
Definition prefetch (state : AppState) (actor : string) (command : Command) (db : Db)
    : RegisterRecordPrefetch :=
  match public_record_request db actor command with
  | Some payload => prefetch_public_record (hc_fetch_listing <$> st_homeserver state) payload
  | None => NotNeeded
  end.

(** The durable form of an accepted result. *)
Definition stored_form (state : AppState) (actor : string) (command : Command)
    (body : SuccessBody) : H SuccessBody :=
  match c_payload command with
  | PrepareLocks _ =>
      let* locks := or_refuse (st_locks state) UNPROTECTED in
      let* n := fresh_nonce in
      or_refuse (seal_prepare_locks_result locks n command actor body) UNPROTECTED
  | _ => ret body
  end.

(** The end of an accepted command: the result row, then the commit. *)
Definition commit_result (state : AppState) (actor : string) (command : Command)
    (request_hash : string) (success : HandlerSuccess) (now : Time) (before after : Db)
    : Reply * Db :=
  let body := success_body command success in
  match (let* stored := stored_form state actor command body in
         insert command_results always (actor, c_command_id command)
           (mkStoredResult request_hash stored now) no_clash) after with
  | Done _ committed => (Response 200 (OkBody body), committed)
  | Refused failure _ => (failure_response failure, before)
  | Failed e => (ServerError e, before)
  | Panicked message => (Crashed message, before)
  end.

(** [execute]: the reply and the committed store. *)
Definition execute (state : AppState) (actor : string)
    (parsed : Command + list ValidationIssue) (request_hash : string) (now : Time) (db : Db)
    : Reply * Db :=
  if negb (Pubky.is_valid_pubky actor) then
    (failure_response (invalid_envelope
       [mkIssue "actor" "Expected a 52-character z-base-32 Pubky"]), db)
  else
    match parsed with
    | inr issues => (failure_response (invalid_envelope issues), db)
    | inl command =>
        match command_results db !! (actor, c_command_id command) with
        | Some stored => (stored_result_response state actor command request_hash stored, db)
        | None =>
            match dispatch state actor command (prefetch state actor command db) now db with
            | Done success after =>
                commit_result state actor command request_hash success now db after
            | Refused failure _ => (failure_response failure, db)
            | Failed UniqueViolation => (failure_response UNIQUENESS, db)
            | Failed e => (ServerError e, db)
            | Panicked message => (Crashed message, db)
            end
        end
    end.

(** The result row is new, or the insertion fails. *)
Lemma insert_result_row actor command row db :
  insert command_results always (actor, c_command_id command) row no_clash db =
  match command_results db !! (actor, c_command_id command) with
  | Some _ => Failed UniqueViolation
  | None => Done tt (upd command_results (<[(actor, c_command_id command) := row]>) db)
  end.
Proof.
  unfold insert, bind, select, gets, write, no_clash, always.
  by destruct (command_results db !! _).
Qed.

(** A stored form is the answer, or the answer sealed with a fresh nonce. *)
Lemma stored_form_cases state actor command body db :
  (exists f db', stored_form state actor command body db = Refused f db') \/
  exists stored db', stored_form state actor command body db = Done stored db' /\
    match c_payload command with
    | PrepareLocks _ => db' = upd draws N.succ db /\ exists locks, st_locks state = Some locks /\
        seal_prepare_locks_result locks (draws db) command actor body = Some stored
    | _ => db' = db /\ stored = body
    end.
Proof.
  unfold stored_form. destruct (c_payload command) eqn:Ep; try (right; eauto; fail).
  unfold or_refuse. destruct (st_locks state) as [locks|]; [|left; do 2 eexists; reflexivity].
  unfold bind, ret, fresh_nonce, gets, modify. simpl.
  destruct (seal_prepare_locks_result _ _ _ _ _) eqn:Es; [right; eauto 8|].
  left; do 2 eexists; reflexivity.
Qed.

(** A commit answers with a failure and the old store, or adds the durable form
    of the answer to the store. *)
Lemma commit_result_cases state actor command hash success now before after :
  let body := success_body command success in
  let r := commit_result state actor command hash success now before after in
  (snd r = before /\ (forall message, fst r <> Crashed message) /\
   forall answer, fst r <> Response 200 (OkBody answer)) \/
  exists stored db',
    stored_form state actor command body after = Done stored db' /\
    (db' = after \/ db' = upd draws N.succ after) /\
    command_results after !! (actor, c_command_id command) = None /\
    r = (Response 200 (OkBody body),
         upd command_results
           (<[(actor, c_command_id command) := mkStoredResult hash stored now]>) db').
Proof.
  cbv zeta. unfold commit_result, bind.
  destruct (stored_form_cases state actor command (success_body command success) after)
    as [(f & db' & ->)|(stored & db' & -> & Hs)]; [left; split_and!; (reflexivity || discriminate)|].
  assert (Hdb : db' = after \/ db' = upd draws N.succ after)
    by (destruct (c_payload command); intuition).
  assert (Er : command_results db' = command_results after) by (by destruct Hdb as [-> | ->]).
  rewrite insert_result_row, Er. destruct (command_results after !! _) eqn:Ek.
  - left. split_and!; (reflexivity || discriminate).
  - right. exists stored, db'. auto.
Qed.
End Executor.
