(* ===== verification/Inventory.v ===== *)
(** * Inventory automation ([inventory.rs])

    A seller's tools adjust the stock of a listing by a signed amount.  A
    request is answered once per idempotency key: its result is stored with
    the mutation, the event and the external reference in one transaction, and
    an exact repetition is answered from the stored result.  A request that
    names a variant first closes a short transaction, asks the seller's
    homeserver, and then classifies the request again in the transaction that
    mutates.  A refusal of [inventory.rs] is committed (it may have used a
    token of the rate limit or recorded a conflict); only a database error is
    rolled back. *)

From Stdlib Require Import SpecFloat.
From S2P Require Import Prelude Domain Json Text Store Commands Actions AwardTerms Offers LocksKeys Fx Records.

(** ** Answers *)

Record HttpResponse := mkHttpResponse {
  rp_status : Z;
  rp_body : Json;
  rp_retry_after : option Z;
}.

Definition inventory_error (status : Z) (code message : string) (current_revision : option Z)
    : HttpResponse :=
  mkHttpResponse status
    (JObject [("schema_version", JInt 1); ("ok", JBool false);
              ("error", JObject ([("code", JString code); ("message", JString message)] ++
                 match current_revision with
                 | Some revision => [("current_revision", JInt revision)]
                 | None => []
                 end))]) None.

Definition invalid_request : HttpResponse :=
  inventory_error 422 "invalid_request" "The inventory request is invalid." None.

Definition internal_error : HttpResponse :=
  inventory_error 500 "internal" "The inventory request could not be processed." None.

Definition capability_error : HttpResponse :=
  inventory_error 403 "capability_required"
    "The session grant does not authorize inventory access." None.

Definition rate_limited (endpoint_class : string) : HttpResponse :=
  mkHttpResponse 429
    (JObject [("schema_version", JInt 1); ("ok", JBool false);
              ("error", JObject [("code", JString "rate_limited");
                                 ("message", JString "The inventory request rate limit was reached.");
                                 ("limit_class", JString endpoint_class)])]) (Some 1).

(** ** Sessions ([auth.rs]) *)

Inductive Action := ARead | AWrite.

#[export] Instance Action_eq_dec : EqDecision Action.
Proof. solve_decision. Defined.

Record Capability := mkCapability {
  cap_scope : string;
  cap_actions : list Action;
}.

(** What [pubky_common], [uuid], [sha2] and [hex] do. *)
Class InventoryCrates := {
  parse_capabilities : string -> option (list Capability);
  scope_covers_path : forall (scope path : string), bool;
  parse_uuid : string -> option Uuid;
  sha256_hex : string -> string;
}.

Definition INVENTORY_SERVICE_SCOPE : string := "/pub/pubky.app/marketplace-service/v1/".

Record AuthSession := mkAuthSession {
  as_actor : Pubky;
  as_capabilities : string;
  as_token_hash : string;
}.

Definition capability_covers_inventory_service `{!InventoryCrates} (raw : string) : bool :=
  match parse_capabilities raw with
  | None => false
  | Some capabilities =>
      existsb (fun capability =>
        scope_covers_path (cap_scope capability) INVENTORY_SERVICE_SCOPE &&
        bool_decide (ARead ∈ cap_actions capability) &&
        bool_decide (AWrite ∈ cap_actions capability)) capabilities
  end.

Definition covers_inventory_service `{!InventoryCrates} (session : AuthSession) : bool :=
  capability_covers_inventory_service (as_capabilities session).

(** ** The rate limit *)

Definition DEFAULT_AUTHENTICATED_RATE_PER_MINUTE : Z := 120.
Definition DEFAULT_ANONYMOUS_RATE_PER_MINUTE : Z := 20.
Definition DEFAULT_RATE_BURST_MULTIPLIER : Z := 2.
Definition MAX_RATE_PER_MINUTE : Z := 10000.
Definition MAX_BURST_MULTIPLIER : Z := 10.
Definition u32_max : Z := 2 ^ 32 - 1.

(** [str::parse::<u32>]: digits after an optional plus sign. *)
Definition parse_u32 (raw : string) : option Z :=
  let digits := match bytes raw with 43 :: l => l | l => l end in
  if nonempty digits && forallb is_digit digits && (spelled digits <=? u32_max)
  then Some (spelled digits) else None.

Definition parse_bounded_u32 (raw : option string) (otherwise minimum maximum : Z) : option Z :=
  value ← match raw with None => Some otherwise | Some raw => parse_u32 raw end;
  if between minimum value maximum then Some value else None.

Record InventoryRateConfig := mkRateConfig {
  authenticated_per_minute : Z;
  anonymous_per_minute : Z;
  burst_multiplier : Z;
}.

(** The three settings of the environment. *)
Record RateSettings := mkRateSettings {
  set_authenticated : option string;
  set_anonymous : option string;
  set_burst : option string;
}.

Definition from_values (settings : RateSettings) : option InventoryRateConfig :=
  authenticated ← parse_bounded_u32 (set_authenticated settings)
    DEFAULT_AUTHENTICATED_RATE_PER_MINUTE 1 MAX_RATE_PER_MINUTE;
  anonymous ← parse_bounded_u32 (set_anonymous settings)
    DEFAULT_ANONYMOUS_RATE_PER_MINUTE 1 MAX_RATE_PER_MINUTE;
  burst ← parse_bounded_u32 (set_burst settings)
    DEFAULT_RATE_BURST_MULTIPLIER 1 MAX_BURST_MULTIPLIER;
  if u32_max <? authenticated * burst then None
  else if 20000 <? authenticated * burst then None
  else Some (mkRateConfig authenticated anonymous burst).

(** Double precision: the operations round to nearest, ties to even. *)
Definition f64_of (z : Z) : spec_float := binary_normalize 53 1024 z 0 false.
Definition f64_add : spec_float -> spec_float -> spec_float := SFadd 53 1024.
Definition f64_sub : spec_float -> spec_float -> spec_float := SFsub 53 1024.
Definition f64_mul : spec_float -> spec_float -> spec_float := SFmul 53 1024.
Definition f64_div : spec_float -> spec_float -> spec_float := SFdiv 53 1024.

(** [LEAST] and [GREATEST]. *)
Definition f64_least (a b : spec_float) : spec_float := if SFltb b a then b else a.

Definition rate_check (row : RateLimitRow) : bool :=
  SFleb (f64_of 0) (rt_tokens row) && SFleb (rt_tokens row) (f64_of 20000).

(** [EXTRACT(EPOCH FROM ..)] of an interval that is not negative. *)
Definition elapsed_seconds (from to : Time) : spec_float :=
  f64_div (f64_of (Z.max (to - from) 0)) (f64_of (seconds 1)).

Definition capacity (config : InventoryRateConfig) : spec_float :=
  f64_of (authenticated_per_minute config * burst_multiplier config).

(** The bucket refilled up to its capacity. *)
Definition refilled (config : InventoryRateConfig) (now : Time) (row : RateLimitRow) : spec_float :=
  f64_least (capacity config)
    (f64_add (rt_tokens row)
       (f64_mul (elapsed_seconds (rt_updated_at row) now)
          (f64_div (f64_of (authenticated_per_minute config)) (f64_of 60)))).

Definition one_less (tokens : spec_float) (now : Time) : RateLimitRow :=
  mkRateLimit (f64_sub tokens (f64_of 1)) now.

(** [consume_rate]: take a token when one is there. *)
Definition consume_rate (session : AuthSession) (endpoint_class : string) (now : Time)
    (config : InventoryRateConfig) : H bool :=
  let key := (as_token_hash session, endpoint_class) in
  let* row := select inventory_rate_limits key in
  match row with
  | None =>
      do* write inventory_rate_limits rate_check key (one_less (capacity config) now) in ret true
  | Some row =>
      if SFleb (f64_of 1) (refilled config now row) then
        do* write inventory_rate_limits rate_check key (one_less (refilled config now row) now) in
        ret true
      else ret false
  end.

(** ** Requests *)

Definition MAX_INVENTORY_BODY_BYTES : Z := 4096.
Definition MAX_CONFLICT_EVIDENCE_PER_IDEMPOTENCY_KEY : nat := 16.
Definition MAX_LISTING_ID_BYTES : Z := 128.
Definition MAX_VARIANT_VALUE_BYTES : Z := 128.
Definition MAX_EXTERNAL_CHANNEL_BYTES : Z := 32.
Definition MAX_EXTERNAL_ID_BYTES : Z := 128.
Definition MAX_ABSOLUTE_DELTA : Z := 1000000.

Record VariantAssertion := mkVariantAssertion {
  va_id : option string;
  va_sku : option string;
}.

Record ExternalReference := mkExternalReference {
  er_channel : string;
  er_external_id : string;
}.

Record InventoryAdjustRequest := mkAdjustRequest {
  aj_schema_version : Z;
  aj_kind : string;
  aj_aggregate_id : string;
  aj_listing_id : string;
  aj_expected_revision : Z;
  aj_delta : Z;
  aj_idempotency_key : string;
  aj_variant : option VariantAssertion;
  aj_external_ref : option ExternalReference;
}.

Definition read_variant_assertion : Read VariantAssertion := fun v =>
  fields ← strict_fields ["id"; "sku"] v;
  id ← optional fields "id" as_str;
  sku ← optional fields "sku" as_str;
  Some (mkVariantAssertion id sku).

Definition read_external_reference : Read ExternalReference := fun v =>
  fields ← strict_fields ["channel"; "external_id"] v;
  channel ← required fields "channel" as_str;
  external_id ← required fields "external_id" as_str;
  Some (mkExternalReference channel external_id).

Definition as_u8 : Read Z := fun v => keep (fun z => between 0 z 255) (as_i64 v).

Definition read_adjust_request : Read InventoryAdjustRequest := fun v =>
  fields ← strict_fields ["schema_version"; "kind"; "aggregate_id"; "listing_id";
                          "expected_revision"; "delta"; "idempotency_key"; "variant";
                          "external_ref"] v;
  schema_version ← required fields "schema_version" as_u8;
  kind ← required fields "kind" as_str;
  aggregate_id ← required fields "aggregate_id" as_str;
  listing_id ← required fields "listing_id" as_str;
  expected_revision ← required fields "expected_revision" as_i64;
  delta ← required fields "delta" as_i64;
  idempotency_key ← required fields "idempotency_key" as_str;
  variant ← optional fields "variant" read_variant_assertion;
  external_ref ← optional fields "external_ref" read_external_reference;
  Some (mkAdjustRequest schema_version kind aggregate_id listing_id expected_revision delta
          idempotency_key variant external_ref).

(** What [serde] writes; an absent option is skipped. *)
Definition opt_entry (name : string) (value : option Json) : list (string * Json) :=
  match value with Some v => [(name, v)] | None => [] end.

Definition adjust_request_json (wire : InventoryAdjustRequest) : Json :=
  JObject ([("schema_version", JInt (aj_schema_version wire)); ("kind", JString (aj_kind wire));
            ("aggregate_id", JString (aj_aggregate_id wire));
            ("listing_id", JString (aj_listing_id wire));
            ("expected_revision", JInt (aj_expected_revision wire));
            ("delta", JInt (aj_delta wire));
            ("idempotency_key", JString (aj_idempotency_key wire))] ++
           opt_entry "variant"
             ((fun v => JObject (opt_entry "id" (JString <$> va_id v) ++
                                 opt_entry "sku" (JString <$> va_sku v))) <$> aj_variant wire) ++
           opt_entry "external_ref"
             ((fun r => JObject [("channel", JString (er_channel r));
                                 ("external_id", JString (er_external_id r))])
                <$> aj_external_ref wire)).

Definition is_alphanumeric (b : Z) : bool := is_digit b || is_upper b || is_lower b.

Definition valid_bounded_id (value : string) (maximum : Z) : bool :=
  nonempty (bytes value) && (byte_len value <=? maximum) &&
  forallb (fun b => is_alphanumeric b || (b =? 95) || (b =? 45) || (b =? 46)) (bytes value).

Definition valid_printable (value : string) (maximum : Z) : bool :=
  nonempty (bytes value) && (byte_len value <=? maximum) && negb (chars_any is_control value).

Definition valid_channel (value : string) : bool :=
  match bytes value with
  | [] => false
  | first :: _ =>
      (byte_len value <=? MAX_EXTERNAL_CHANNEL_BYTES) && (is_lower first || is_digit first) &&
      forallb (fun b => is_lower b || is_digit b || (b =? 46) || (b =? 95) || (b =? 45))
        (bytes value)
  end.

Definition is_hexdigit (b : Z) : bool := is_digit b || in_range 97 102 b || in_range 65 70 b.

(** The shape of an RFC 9562 UUID of version 1 to 8. *)
Definition strict_uuid_shape (value : string) : bool :=
  let l := bytes value in
  (length l =? 36)%nat &&
  forallb (fun '(index, b) =>
      if existsb (Nat.eqb index) [8; 13; 18; 23]%nat then b =? 45 else is_hexdigit b)
    (zip (seq 0 36) l) &&
  match l !! 14%nat, l !! 19%nat with
  | Some version, Some variant =>
      in_range 49 56 version && existsb (Z.eqb variant) [56; 57; 97; 65; 98; 66]
  | _, _ => false
  end.

Section Requests.
Context `{!UuidCrate, JT : !JsonText, LC : !LocksCrates, IC : !InventoryCrates}.

Definition parse_strict_idempotency_uuid (value : string) : option Uuid :=
  if strict_uuid_shape value then parse_uuid value else None.

Record ValidatedAdjustRequest := mkValidated {
  vr_wire : InventoryAdjustRequest;
  vr_idempotency_key : Uuid;
  vr_request_hash : string;
}.

Definition valid_wire (wire : InventoryAdjustRequest) : bool :=
  (aj_schema_version wire =? 1) && (aj_kind wire =? "inventory.adjust")%string &&
  nonempty (bytes (aj_aggregate_id wire)) &&
  valid_bounded_id (aj_listing_id wire) MAX_LISTING_ID_BYTES &&
  (byte_len (aj_aggregate_id wire) <=? 256) && (1 <=? aj_expected_revision wire) &&
  negb (aj_delta wire =? 0) && (Z.abs (aj_delta wire) <=? MAX_ABSOLUTE_DELTA).

Definition valid_variant (variant : VariantAssertion) : bool :=
  negb (bool_decide (va_id variant = None) && bool_decide (va_sku variant = None)) &&
  match va_id variant with None => true | Some v => valid_bounded_id v MAX_VARIANT_VALUE_BYTES end &&
  match va_sku variant with None => true | Some v => valid_printable v MAX_VARIANT_VALUE_BYTES end.

Definition valid_reference (reference : ExternalReference) : bool :=
  valid_channel (er_channel reference) &&
  valid_printable (er_external_id reference) MAX_EXTERNAL_ID_BYTES.

Definition validate_request (body : string) : option ValidatedAdjustRequest :=
  if negb (nonempty (bytes body)) || (MAX_INVENTORY_BODY_BYTES <? byte_len body) then None
  else
    wire ← (v ← from_slice body; read_adjust_request v);
    if negb (valid_wire wire) then None
    else
      idempotency_key ← parse_strict_idempotency_uuid (aj_idempotency_key wire);
      if match aj_variant wire with Some v => negb (valid_variant v) | None => false end then None
      else if match aj_external_ref wire with Some r => negb (valid_reference r) | None => false end
      then None
      else
        canonical ← canonicalize (adjust_request_json wire);
        Some (mkValidated wire idempotency_key (sha256_hex canonical)).

End Requests.

(** ** Early answers

    A statement of the handler goes on, or ends the transaction with an answer
    that is committed ([finish_without_mutation]). *)

Abbreviation Flow A := (H (HttpResponse + A)).

Definition finish {A} (response : HttpResponse) : Flow A := ret (inl response).

Definition go_on {A} (m : H A) : Flow A := let* a := m in ret (inr a).

Definition flow_bind {A B} (m : Flow A) (k : A -> Flow B) : Flow B :=
  let* r := m in match r with inl response => ret (inl response) | inr a => k a end.

Definition finish_if (b : bool) (response : HttpResponse) : Flow unit :=
  if b then finish response else ret (inr tt).

(** [internal_error()] returned inside a transaction, which is dropped. *)
Definition roll_back {A} : H A := sql_fail RowNotFound.

Notation "'let+' x ':=' m 'in' k" := (flow_bind m (fun x => k))
  (at level 10, x name, m at level 100, k at level 200,
   format "'let+'  x  ':='  m  'in' '//' k") : tx_scope.
Notation "'do+' m 'in' k" := (flow_bind m (fun _ => k))
  (at level 10, m at level 100, k at level 200,
   format "'do+'  m  'in' '//' k") : tx_scope.

(** ** Stored adjustments *)

Inductive StoredAdjustment :=
| Missing
| Exact (result_json : string)
| Conflict.

(** The rows of one idempotency key. *)
Definition same_key (seller : Pubky) (key : Uuid) (c : AdjustmentConflictRow) : bool :=
  ((ac_seller_pubky c =? seller)%string && (ac_idempotency_key c =? key)%N).

(** Evidence of a changed request: at most sixteen rows a key, one a hash. *)
Definition record_conflict (c : AdjustmentConflictRow) (l : list AdjustmentConflictRow)
    : list AdjustmentConflictRow :=
  let kept := List.filter (same_key (ac_seller_pubky c) (ac_idempotency_key c)) l in
  if (length kept <? MAX_CONFLICT_EVIDENCE_PER_IDEMPOTENCY_KEY)%nat &&
     negb (existsb (fun c' => ac_conflicting_request_hash c' =? ac_conflicting_request_hash c)%string kept)
  then l ++ [c] else l.

Definition classify_stored_adjustment (session : AuthSession) (request : ValidatedAdjustRequest)
    (observed_at : Time) : H StoredAdjustment :=
  let* stored := select adjustment_results (as_actor session, vr_idempotency_key request) in
  match stored with
  | None => ret Missing
  | Some row =>
      if (ar_request_hash row =? vr_request_hash request)%string then ret (Exact (ar_result_json row))
      else
        do* modify (upd adjustment_conflicts (record_conflict
              (mkAdjustmentConflict (as_actor session) (vr_idempotency_key request)
                 (ar_aggregate_id row) (ar_request_hash row) (vr_request_hash request) observed_at))) in
        ret Conflict
  end.

Definition idempotency_conflict : HttpResponse :=
  inventory_error 409 "idempotency_conflict"
    "The idempotency key was already used with different input." None.

Definition seller_ownership_required : HttpResponse :=
  inventory_error 403 "seller_ownership_required" "Only the listing seller may adjust inventory." None.

Definition listing_not_found : HttpResponse :=
  inventory_error 404 "listing_not_found" "The listing was not found." None.

Definition variant_lookup_unavailable : HttpResponse :=
  inventory_error 503 "variant_lookup_unavailable"
    "The seller listing record is unavailable for variant validation." None.

Definition variant_authority_unsupported : HttpResponse :=
  inventory_error 409 "variant_authority_unsupported"
    "The listing does not have exactly one enabled variant." None.

Definition variant_record_conflict : HttpResponse :=
  inventory_error 409 "variant_record_conflict"
    "The seller listing record does not match the registered listing." None.

Definition variant_assertion_mismatch : HttpResponse :=
  inventory_error 409 "variant_assertion_mismatch"
    "The variant assertion does not match the sole enabled variant." None.

Definition revision_conflict (revision : Z) : HttpResponse :=
  inventory_error 409 "revision_conflict" "The listing server revision is stale." (Some revision).

Definition external_reference_conflict : HttpResponse :=
  inventory_error 409 "external_reference_conflict"
    "The external event reference was already used." None.

Definition inventory_invariant_violation : HttpResponse :=
  inventory_error 409 "inventory_invariant_violation"
    "The listing inventory state is inconsistent." None.

Definition stock_overflow : HttpResponse :=
  inventory_error 409 "stock_overflow"
    "The inventory adjustment exceeds the supported stock range." None.

Definition negative_stock : HttpResponse :=
  inventory_error 409 "negative_stock"
    "The adjustment would make available inventory negative." None.

(** ** The variant assertion *)

Record ValidatedVariantRecordBinding := mkBinding {
  vb_seller_pubky : Pubky;
  vb_listing_id : string;
  vb_listing_revision : Z;
  vb_raw_sha256 : string;
}.

Definition enabled_variants (variants : list Json) : list Json :=
  List.filter (fun v => bool_decide (get "enabled" v ≫= as_bool = Some true)) variants.

(** The sole enabled variant is addressable and is the one asserted. *)
Definition check_variant (assertion : VariantAssertion) (variant : Json) : option HttpResponse :=
  let actual_id := get "id" variant ≫= as_str in
  let actual_sku := get "sku" variant ≫= as_str in
  if match actual_id with Some v => negb (valid_bounded_id v MAX_VARIANT_VALUE_BYTES) | None => true end ||
     match actual_sku with Some v => negb (valid_printable v MAX_VARIANT_VALUE_BYTES) | None => false end
  then Some variant_authority_unsupported
  else if match va_id assertion with Some v => negb (bool_decide (Some v = actual_id)) | None => false end ||
          match va_sku assertion with Some v => negb (bool_decide (Some v = actual_sku)) | None => false end
  then Some variant_assertion_mismatch
  else None.

Definition bind_variant (seller listing_id : string) (assertion : VariantAssertion)
    (raw : RawRecord) (record : Json) : HttpResponse + ValidatedVariantRecordBinding :=
  if negb (bool_decide (get "ownerPubky" record ≫= as_str = Some seller)) ||
     negb (bool_decide (get "listingId" record ≫= as_str = Some listing_id))
  then inl variant_record_conflict
  else
    match get "revision" record ≫= as_i64 with
    | None => inl variant_record_conflict
    | Some revision =>
        match get "variants" record ≫= as_array with
        | None => inl variant_authority_unsupported
        | Some variants =>
            match enabled_variants variants with
            | [variant] =>
                match check_variant assertion variant with
                | Some response => inl response
                | None => inr (mkBinding seller listing_id revision (raw_sha256 raw))
                end
            | _ => inl variant_authority_unsupported
            end
        end
    end.

Definition validate_variant_assertion (homeserver : option RawFetch) (seller listing_id : string)
    (assertion : VariantAssertion) : HttpResponse + ValidatedVariantRecordBinding :=
  match homeserver with
  | None => inl variant_lookup_unavailable
  | Some fetch =>
      match fetch seller listing_id with
      | RawFound raw =>
          match raw_json raw with
          | None => inl variant_authority_unsupported
          | Some record => bind_variant seller listing_id assertion raw record
          end
      | RawNotFound | RawTooLarge | RawUnavailable => inl variant_lookup_unavailable
      end
  end.

(** ** The mutation *)

Definition checked_i64 (z : Z) : option Z := if in_i64 z then Some z else None.

(** [reserved + sold + available] adds up to the total. *)
Definition balanced (l : ListingRow) : bool :=
  bool_decide ((committed ← checked_i64 (l_reserved_quantity l + l_sold_quantity l);
                checked_i64 (l_available_quantity l + committed)) = Some (l_total_quantity l)).

Definition adjusted_state (available reserved : Z) : ListingState :=
  if 0 <? available then LAvailable else if 0 <? reserved then LReserved else LSold.

(** The new totals, or why the stock cannot be changed. *)
Definition adjusted_stock (l : ListingRow) (delta : Z) : HttpResponse + (Z * Z * Z) :=
  if negb (balanced l) then inl inventory_invariant_violation
  else
    match checked_i64 (l_total_quantity l + delta), checked_i64 (l_available_quantity l + delta) with
    | Some new_total, Some new_available =>
        if (new_total <? 0) || (new_available <? 0) then inl negative_stock
        else
          match checked_i64 (l_server_revision l + 1) with
          | Some new_revision => inr (new_total, new_available, new_revision)
          | None => inl stock_overflow
          end
    | _, _ => inl stock_overflow
    end.

Definition adjust_listing (new_total new_available new_revision : Z) (state : ListingState)
    (now : Time) (l : ListingRow) : ListingRow :=
  l <| l_total_quantity := new_total |> <| l_available_quantity := new_available |>
    <| l_server_revision := new_revision |> <| l_state := state |> <| l_updated_at := now |>.

Section Adjust.
Context `{!UuidCrate, JT : !JsonText, LC : !LocksCrates, IC : !InventoryCrates}.

(** [serde_json::from_str] of a stored result. *)
Definition ok_answer (result_json : string) : H HttpResponse :=
  match from_slice result_json with
  | Some body => ret (mkHttpResponse 200 body None)
  | None => roll_back
  end.

Definition continue_or_finish_stored (stored : StoredAdjustment) : Flow unit :=
  match stored with
  | Missing => ret (inr tt)
  | Exact result_json => let* response := ok_answer result_json in finish response
  | Conflict => finish idempotency_conflict
  end.

(** The checks before the stock is read. *)
Definition check_listing (session : AuthSession) (request : ValidatedAdjustRequest)
    (variant_binding : option ValidatedVariantRecordBinding) : Flow ListingRow :=
  let wire := vr_wire request in
  let* row := fetch_live_listing_for_update (aj_aggregate_id wire) in
  match row with
  | None => finish listing_not_found
  | Some listing =>
      do+ finish_if (negb (l_seller_pubky listing =? as_actor session)%string ||
                     negb (l_listing_id listing =? aj_listing_id wire)%string)
            seller_ownership_required in
      do+ finish_if (match variant_binding with
                     | Some b => negb (vb_seller_pubky b =? l_seller_pubky listing)%string ||
                                 negb (vb_listing_id b =? l_listing_id listing)%string ||
                                 negb (vb_listing_revision b =? l_listing_revision listing)
                     | None => false
                     end) variant_record_conflict in
      do+ finish_if (negb (l_server_revision listing =? aj_expected_revision wire))
            (revision_conflict (l_server_revision listing)) in
      ret (inr listing)
  end.

(** The key of an external reference. *)
Definition reference_key (session : AuthSession) (reference : ExternalReference)
    : string * string * string :=
  (as_actor session, er_channel reference, er_external_id reference).

Definition check_reference (session : AuthSession) (request : ValidatedAdjustRequest) : Flow unit :=
  match aj_external_ref (vr_wire request) with
  | None => ret (inr tt)
  | Some reference =>
      let* row := select external_refs (reference_key session reference) in
      finish_if (bool_decide (is_Some row)) external_reference_conflict
  end.

Definition store_reference (session : AuthSession) (request : ValidatedAdjustRequest)
    (event_id : Uuid) (now : Time) : H unit :=
  match aj_external_ref (vr_wire request) with
  | None => ret tt
  | Some reference =>
      insert external_refs always (reference_key session reference)
        (mkExternalRef (aj_aggregate_id (vr_wire request)) event_id (vr_request_hash request) now)
        (fun db => table_any (fun r => (xr_event_id r =? event_id)%N) (external_refs db))
  end.

Definition stock_view (l : ListingRow) : Json :=
  JObject [("authority", JString "listing_total"); ("total", JInt (l_total_quantity l));
           ("available", JInt (l_available_quantity l)); ("reserved", JInt (l_reserved_quantity l));
           ("sold", JInt (l_sold_quantity l))].

Definition success_envelope (request : ValidatedAdjustRequest) (event_id : Uuid) (l : ListingRow)
    : Json :=
  JObject [("schema_version", JInt 1); ("ok", JBool true);
           ("result", JObject [("aggregate_id", JString (aj_aggregate_id (vr_wire request)));
                               ("listing_id", JString (aj_listing_id (vr_wire request)));
                               ("server_revision", JInt (l_server_revision l));
                               ("event_id", JString (uuid_text event_id));
                               ("stock", stock_view l)])].

(** The result is between two bytes and eight kilobytes. *)
Definition adjustment_result_check (row : AdjustmentResultRow) : bool :=
  between 2 (byte_len (ar_result_json row)) 8192.

(** Update, event, external reference and result. *)
Definition apply_adjustment (session : AuthSession) (request : ValidatedAdjustRequest)
    (listing : ListingRow) (stock : Z * Z * Z) (now : Time) : Flow HttpResponse :=
  let '(new_total, new_available, new_revision) := stock in
  let* updated := update_where listings listing_check (aj_aggregate_id (vr_wire request))
    (fun l => l_server_revision l =? l_server_revision listing)
    (adjust_listing new_total new_available new_revision
       (adjusted_state new_available (l_reserved_quantity listing)) now) in
  match updated with
  | None => roll_back
  | Some updated =>
      let* event_id := insert_event (vr_idempotency_key request) (aj_aggregate_id (vr_wire request))
                         (l_server_revision updated) (as_actor session) "inventory.adjusted" now in
      do* store_reference session request event_id now in
      let result_json := to_vec (success_envelope request event_id updated) in
      do* insert adjustment_results adjustment_result_check
            (as_actor session, vr_idempotency_key request)
            (mkAdjustmentResult (vr_request_hash request) (aj_aggregate_id (vr_wire request))
               event_id result_json now)
            (fun db => table_any (fun r => (ar_event_id r =? event_id)%N) (adjustment_results db)) in
      go_on (ok_answer result_json)
  end.

(** The rest of the mutating transaction. *)
Definition mutate (session : AuthSession) (request : ValidatedAdjustRequest)
    (variant_binding : option ValidatedVariantRecordBinding) (now : Time) : Flow HttpResponse :=
  let+ listing := check_listing session request variant_binding in
  do+ check_reference session request in
  match adjusted_stock listing (aj_delta (vr_wire request)) with
  | inl response => finish response
  | inr stock => apply_adjustment session request listing stock now
  end.

Definition take_token (session : AuthSession) (endpoint_class : string)
    (config : InventoryRateConfig) (now : Time) : Flow unit :=
  let* allowed := consume_rate session endpoint_class now config in
  finish_if (negb allowed) (rate_limited endpoint_class).

(** The transaction a request enters first: the stored result, the owner. *)
Definition enter (session : AuthSession) (request : ValidatedAdjustRequest) (now : Time) : Flow unit :=
  let* stored := classify_stored_adjustment session request now in
  do+ continue_or_finish_stored stored in
  finish_if (negb (aj_aggregate_id (vr_wire request)
                   =? listing_aggregate_id (as_actor session) (aj_listing_id (vr_wire request)))%string)
    seller_ownership_required.

(** A request without a variant: one transaction. *)
Definition adjust_directly (session : AuthSession) (request : ValidatedAdjustRequest)
    (config : InventoryRateConfig) (now : Time) : Flow HttpResponse :=
  do+ enter session request now in
  do+ take_token session "inventory.adjust" config now in
  mutate session request None now.

(** A request with a variant: the transaction before the lookup, and the one
    after it. *)
Definition adjust_preflight (session : AuthSession) (request : ValidatedAdjustRequest)
    (config : InventoryRateConfig) (now : Time) : Flow unit :=
  do+ enter session request now in
  take_token session "inventory.adjust" config now.

Definition adjust_bound (session : AuthSession) (request : ValidatedAdjustRequest)
    (binding : ValidatedVariantRecordBinding) (now : Time) : Flow HttpResponse :=
  let* stored := classify_stored_adjustment session request now in
  do+ continue_or_finish_stored stored in
  mutate session request (Some binding) now.

(** ** Transactions and the handler *)

(** A transaction is committed with its answer or rolled back. *)
Definition committed {A} (m : Flow A) (db : Db) : (HttpResponse + A) * Db :=
  match m db with
  | Done r db' => (r, db')
  | Refused _ _ | Failed _ | Panicked _ => (inl internal_error, db)
  end.

Definition answered (r : HttpResponse + HttpResponse) : HttpResponse :=
  match r with inl response => response | inr response => response end.

(** [adjust_inventory].  Other transactions may run while the homeserver is
    asked: [meanwhile] is what they do, [later] the instant after. *)
Definition adjust_inventory (settings : RateSettings) (homeserver : option RawFetch)
    (session : AuthSession) (body : option string) (now later : Time) (meanwhile : Db -> Db)
    (db : Db) : HttpResponse * Db :=
  if negb (covers_inventory_service session) then (capability_error, db)
  else
    match body with
    | None => (invalid_request, db)
    | Some body =>
        match validate_request body, from_values settings with
        | None, _ => (invalid_request, db)
        | Some _, None => (internal_error, db)
        | Some request, Some config =>
            match aj_variant (vr_wire request) with
            | None =>
                let '(r, db') := committed (adjust_directly session request config now) db in
                (answered r, db')
            | Some assertion =>
                match committed (adjust_preflight session request config now) db with
                | (inl response, db') => (response, db')
                | (inr _, db') =>
                    match validate_variant_assertion homeserver (as_actor session)
                            (aj_listing_id (vr_wire request)) assertion with
                    | inl response => (response, db')
                    | inr binding =>
                        let '(r, db'') :=
                          committed (adjust_bound session request binding later) (meanwhile db') in
                        (answered r, db'')
                    end
                end
            end
        end
    end.

(** [get_inventory_projection]. *)
Definition inventory_projection (aggregate_id : string) (l : ListingRow) : Json :=
  JObject [("schema_version", JInt 1); ("kind", JString "inventory_projection");
           ("aggregate_id", JString aggregate_id); ("seller_pubky", JString (l_seller_pubky l));
           ("listing_id", JString (l_listing_id l)); ("server_revision", JInt (l_server_revision l));
           ("stock", stock_view l)].

Definition project (session : AuthSession) (aggregate_id : string) (config : InventoryRateConfig)
    (now : Time) : Flow HttpResponse :=
  do+ take_token session "inventory.read" config now in
  let* row := fetch_live_listing aggregate_id in
  match row with
  | None => finish listing_not_found
  | Some l => finish (mkHttpResponse 200 (inventory_projection aggregate_id l) None)
  end.

Definition get_inventory_projection (settings : RateSettings) (session : AuthSession)
    (aggregate_id : string) (now : Time) (db : Db) : HttpResponse * Db :=
  if negb (covers_inventory_service session) then (capability_error, db)
  else if negb (nonempty (bytes aggregate_id)) || (256 <? byte_len aggregate_id)
  then (invalid_request, db)
  else
    match from_values settings with
    | None => (internal_error, db)
    | Some config =>
        let '(r, db') := committed (project session aggregate_id config now) db in (answered r, db')
    end.
End Adjust.
