(* ===== verification/Grants.v ===== *)
(** * Sessions and grant flows ([auth.rs], [grant.rs])

    A signed AuthToken is exchanged once for a session; a request carries the
    session's bearer.  The rows of [auth_sessions] and [auth_token_uses] live
    in a store of their own with the tables of the grant flows, which create
    sessions too.  A handler is a function from the store to its answer and
    the store it commits; a database error leaves the store as it was. *)

From Stdlib Require Import SpecFloat.
From stdpp Require Import sorting.
From S2P Require Import Prelude Domain Json Seal Pubky Store Text LocksKeys Records Inventory.

(** ** The store *)

Record SessionRow := mkSession {
  se_session_id : Uuid;
  se_pubky : Pubky;
  se_capabilities : string;
  se_created_at : Time;
  se_expires_at : Time;
  se_last_used_at : option Time;
  se_revoked_at : option Time;
  se_label : option string;
  se_metadata : Json;
}.

Definition eta_session (s : SessionRow) : SessionRow :=
  mkSession (se_session_id s) (se_pubky s) (se_capabilities s) (se_created_at s) (se_expires_at s)
    (se_last_used_at s) (se_revoked_at s) (se_label s) (se_metadata s).

#[export] Hint Extern 1 (@Updater SessionRow _ ?p) => updater_from eta_session p
  : typeclass_instances.

Inductive FlowStatus :=
| FAwaiting | FVerifying | FComplete | FMismatch | FExpired | FCancelled | FInvalid | FFailed.

#[export] Instance FlowStatus_eq_dec : EqDecision FlowStatus.
Proof. solve_decision. Defined.

(** A row of [grant_flows] (migration 0036). *)
Record FlowRow := mkFlow {
  g_expected_pubky : Pubky;
  g_assertion_jti : Uuid;
  g_client_id : string;
  g_cpk : string;
  g_relay_url : string;
  g_state_sealed : option string;
  g_key_epoch : Z;
  g_hash_epoch : Z;
  g_status : FlowStatus;
  g_version : Z;
  g_lease_owner : option Uuid;
  g_lease_until : option Time;
  g_approved_pubky : option Pubky;
  g_terminal_code : option string;
  g_delivery_hash : string;
  g_result_cpk : string;
  g_token_hash : option string;
  g_token_expires_at : option Time;
  g_token_delivered_at : option Time;
  g_payload_sealed : option string;
  g_session_id : option Uuid;
  g_created_at : Time;
  g_expires_at : Time;
  g_terminal_at : option Time;
  g_claimed_at : option Time;
}.

Definition eta_flow (f : FlowRow) : FlowRow :=
  mkFlow (g_expected_pubky f) (g_assertion_jti f) (g_client_id f) (g_cpk f) (g_relay_url f)
    (g_state_sealed f) (g_key_epoch f) (g_hash_epoch f) (g_status f) (g_version f)
    (g_lease_owner f) (g_lease_until f) (g_approved_pubky f) (g_terminal_code f)
    (g_delivery_hash f) (g_result_cpk f) (g_token_hash f) (g_token_expires_at f)
    (g_token_delivered_at f) (g_payload_sealed f) (g_session_id f) (g_created_at f)
    (g_expires_at f) (g_terminal_at f) (g_claimed_at f).

#[export] Hint Extern 1 (@Updater FlowRow _ ?p) => updater_from eta_flow p
  : typeclass_instances.

(** A row of [grant_result_nonces]. *)
Record GrantNonceRow := mkGrantNonce {
  gn_flow_id : Uuid;
  gn_purpose : string;
  gn_bff_principal : string;
  gn_nonce_hash : string;
  gn_expires_at : Time;
  gn_used_at : option Time;
}.

Definition eta_nonce (n : GrantNonceRow) : GrantNonceRow :=
  mkGrantNonce (gn_flow_id n) (gn_purpose n) (gn_bff_principal n) (gn_nonce_hash n)
    (gn_expires_at n) (gn_used_at n).

#[export] Hint Extern 1 (@Updater GrantNonceRow _ ?p) => updater_from eta_nonce p
  : typeclass_instances.

Record AuthDb := mkAuthDb {
  (** By token hash. *)
  auth_sessions : gmap string SessionRow;
  (** [auth_token_uses]: when the token of a signer and an instant was used. *)
  auth_token_uses : gmap (Pubky * Z) Time;
  automation_rates : gmap (string * string) RateLimitRow;
  grant_flows : gmap Uuid FlowRow;
  grant_nonces : gmap Uuid GrantNonceRow;
  (** [grant_rate_limits]: the window's start and its requests. *)
  grant_rates : gmap (string * string) (Time * Z);
  (** [grant_service_requests]: principal, endpoint class and instant. *)
  grant_requests : gmap Uuid (string * string * Time);
  (** Random values drawn so far. *)
  auth_draws : N;
}.

Definition eta_auth_db (d : AuthDb) : AuthDb :=
  mkAuthDb (auth_sessions d) (auth_token_uses d) (automation_rates d) (grant_flows d)
    (grant_nonces d) (grant_rates d) (grant_requests d) (auth_draws d).

#[export] Hint Extern 1 (@Updater AuthDb _ ?p) => updater_from eta_auth_db p
  : typeclass_instances.

Definition empty_auth_db : AuthDb := mkAuthDb ∅ ∅ ∅ ∅ ∅ ∅ ∅ 0.

(** ** What the crates do *)

Record AuthToken := mkAuthToken {
  tok_public_key : Pubky;
  (** Microseconds, a [u64]. *)
  tok_timestamp : Z;
  (** Normalized and printed. *)
  tok_capabilities : string;
}.

(** [AuthToken::verify] of [pubky-common] checks the signature and its own
    window against the system clock; [sha2], [base64], [rand] and chrono's
    rendering of an instant; PostgreSQL's of a JSON value. *)
Class AuthCrates := {
  verify_token : string -> option AuthToken;
  sha256 : string -> string;
  b64_encode : string -> string;
  b64_decode : string -> option string;
  random32 : N -> string;
  format_timestamp : Time -> string;
  (** PostgreSQL's text of a [jsonb] value. *)
  jsonb_text : Json -> string;
}.

Definition auth_error (status : Z) (message : string) : HttpResponse :=
  mkHttpResponse status (JObject [("error", JObject [("message", JString message)])]) None.

Definition MIN_TOKEN_LENGTH : Z := 75.
Definition LIBRARY_TIMESTAMP_WINDOW_SECONDS : Z := 180.

Record VerifiedAuthToken := mkVerified {
  vt_pubky : Pubky;
  vt_capabilities : string;
  vt_timestamp_micros : Z;
}.

Inductive AuthTokenRejection := TokenMalformed | TokenInvalid | OutsideAcceptanceWindow.

(** [i64::saturating_mul]. *)
Definition saturating_mul (a b : Z) : Z := Z.max i64_min (Z.min i64_max (a * b)).

Section Sessions.
Context `{UC : !UuidCrate, JT : !JsonText, IC : !InventoryCrates, AC : !AuthCrates}.

Definition verify_auth_token (body : string) (now : Time) (window_seconds : Z)
    : VerifiedAuthToken + AuthTokenRejection :=
  if byte_len body <? MIN_TOKEN_LENGTH then inr TokenMalformed
  else
    match verify_token body with
    | None => inr TokenInvalid
    | Some token =>
        if i64_max <? tok_timestamp token then inr TokenInvalid
        else if saturating_mul window_seconds 1000000 <? Z.abs (tok_timestamp token - now)
        then inr OutsideAcceptanceWindow
        else inl (mkVerified (tok_public_key token) (tok_capabilities token) (tok_timestamp token))
    end.

Definition hash_token (token : string) : string := sha256 token.

(** [bearer_from_headers] on the [Authorization] header: absent, malformed
    ([inr]), or the token. *)
Definition bearer_from_headers (header : option string) : option string + unit :=
  match header with
  | None => inl None
  | Some value =>
      match strip_prefix "Bearer " value with
      | None => inr tt
      | Some encoded =>
          match b64_decode encoded with Some token => inl (Some token) | None => inr tt end
      end
  end.

(** The one active-session predicate. *)
Definition session_active (now : Time) (row : SessionRow) : bool :=
  (now <? se_expires_at row) && bool_decide (se_revoked_at row = None).

Definition resolve_active_session (token : string) (now : Time) (db : AuthDb) : option AuthSession :=
  row ← auth_sessions db !! hash_token token;
  if session_active now row
  then Some (mkAuthSession (se_pubky row) (se_capabilities row) (hash_token token)) else None.

(** The last use is written at most once a minute. *)
Definition stale_use (now : Time) (row : SessionRow) : bool :=
  bool_decide (se_revoked_at row = None) &&
  match se_last_used_at row with None => true | Some t => t <? now - seconds 60 end.

Definition record_session_use (token_hash : string) (now : Time) (db : AuthDb) : AuthDb :=
  match auth_sessions db !! token_hash with
  | Some row =>
      if stale_use now row
      then upd auth_sessions (<[token_hash := row <| se_last_used_at := Some now |>]>) db else db
  | None => db
  end.

(** [actor_from_authorization]: nobody, an actor, or a refused bearer. *)
Definition actor_from_authorization (header : option string) (now : Time) (db : AuthDb)
    : option Pubky + unit :=
  match bearer_from_headers header with
  | inr _ => inr tt
  | inl None => inl None
  | inl (Some token) =>
      match resolve_active_session token now db with
      | Some session => inl (Some (as_actor session))
      | None => inr tt
      end
  end.

(** ** A new session *)

Record AuthConfig := mkAuthConfig {
  cf_auth_token_window_seconds : Z;
  cf_session_ttl_seconds : Z;
  cf_automation_rate_limit_per_minute : Z;
  cf_automation_rate_limit_burst_multiplier : Z;
}.

Definition NOT_CREATED : HttpResponse := auth_error 500 "Session could not be created.".

Definition retention (config : AuthConfig) : Z :=
  2 * Z.max (cf_auth_token_window_seconds config) LIBRARY_TIMESTAMP_WINDOW_SECONDS.

(** Uses that no acceptable token can match again are forgotten. *)
Definition prune_uses (config : AuthConfig) (now : Time) (uses : gmap (Pubky * Z) Time)
    : gmap (Pubky * Z) Time :=
  filter (fun kv : (Pubky * Z) * Time => ~ snd kv < now - seconds (retention config)) uses.

(** No other row has this session id. *)
Definition session_id_free (id : Uuid) (db : AuthDb) : bool :=
  negb (table_any (fun row => (se_session_id row =? id)%N) (auth_sessions db)).

Definition create_session (config : AuthConfig) (body : string) (now : Time) (db : AuthDb)
    : HttpResponse * AuthDb :=
  match verify_auth_token body now (cf_auth_token_window_seconds config) with
  | inr _ => (auth_error 401 "The auth token is invalid.", db)
  | inl verified =>
      let use := (vt_pubky verified, vt_timestamp_micros verified) in
      let uses := prune_uses config now (auth_token_uses db) in
      if bool_decide (is_Some (uses !! use))
      then (auth_error 401 "The auth token has already been used.", db)
      else
        let token := random32 (auth_draws db) in
        let session_id := new_v4 (N.succ (auth_draws db)) in
        let expires_at := now + seconds (cf_session_ttl_seconds config) in
        if bool_decide (is_Some (auth_sessions db !! hash_token token)) ||
           negb (session_id_free session_id db)
        then (NOT_CREATED, db)
        else
          (mkHttpResponse 201
             (JObject [("token", JString (b64_encode token)); ("session_id", JString (uuid_text session_id));
                       ("pubky", JString (vt_pubky verified));
                       ("capabilities", JString (vt_capabilities verified));
                       ("expires_at", JString (format_timestamp expires_at))]) None,
           db <| auth_token_uses := <[use := now]> uses |>
              <| auth_sessions := <[hash_token token :=
                   mkSession session_id (vt_pubky verified) (vt_capabilities verified) now expires_at
                     (Some now) None None (JObject [])]> (auth_sessions db) |>
              <| auth_draws := (auth_draws db + 2)%N |>)
  end.

(** ** Requests *)

(** [require_session] up to the handler it calls, and [resolve_header_session]. *)
Definition resolve_header_session (header : option string) (now : Time) (db : AuthDb)
    : (AuthSession + HttpResponse) * AuthDb :=
  match bearer_from_headers header with
  | inr _ | inl None => (inr (auth_error 401 "A session bearer token is required."), db)
  | inl (Some token) =>
      match resolve_active_session token now db with
      | None => (inr (auth_error 401 "The session is invalid or expired."), db)
      | Some session => (inl session, record_session_use (as_token_hash session) now db)
      end
  end.

Definition AUTOMATION_RATE_LIMIT_MAX_TOKENS : Z := 20000.

(** [f64::ceil] of a finite number that is not negative, as an integer. *)
Definition f64_ceil (f : spec_float) : Z :=
  match f with
  | S754_finite false m e =>
      if 0 <=? e then Zpos m * 2 ^ e else (Zpos m + 2 ^ (- e) - 1) / 2 ^ (- e)
  | _ => 0
  end.

Definition automation_capacity (config : AuthConfig) : spec_float :=
  f64_of (Z.min (saturating_mul (cf_automation_rate_limit_per_minute config)
                   (cf_automation_rate_limit_burst_multiplier config))
            AUTOMATION_RATE_LIMIT_MAX_TOKENS).

(** [consume_automation_rate] of [automation.rs]: nothing, or the seconds to
    wait. *)
Definition consume_automation_rate (config : AuthConfig) (actor class : string) (now : Time)
    (db : AuthDb) : option Z * AuthDb :=
  let rate := f64_of (cf_automation_rate_limit_per_minute config) in
  let capacity := automation_capacity config in
  let '(stored, updated_at) :=
    match automation_rates db !! (actor, class) with
    | Some row => (rt_tokens row, rt_updated_at row)
    | None => (capacity, now)
    end in
  let elapsed := f64_div (f64_of (Z.max (Z.quot (now - updated_at) 1000) 0)) (f64_of 1000) in
  let available :=
    f64_least (f64_add stored (f64_div (f64_mul elapsed rate) (f64_of 60))) capacity in
  let '(tokens, retry_after) :=
    if SFleb (f64_of 1) available then (f64_sub available (f64_of 1), None)
    else (available,
          Some (Z.max (f64_ceil (f64_div (f64_mul (f64_sub (f64_of 1) available) (f64_of 60)) rate)) 1)) in
  (retry_after, upd automation_rates (<[(actor, class) := mkRateLimit tokens now]>) db).

Definition automation_limited (retry_after : Z) : HttpResponse :=
  mkHttpResponse 429
    (JObject [("ok", JBool false);
              ("error", JObject [("code", JString "rate_limited");
                                 ("message", JString "The request rate limit was exceeded.")])])
    (Some retry_after).

(** ** Session administration *)

Definition newer_session (a b : SessionRow) : Prop :=
  se_created_at b < se_created_at a \/
  (se_created_at a = se_created_at b /\ (se_session_id b <= se_session_id a)%N).

#[export] Instance newer_session_dec : RelDecision newer_session.
Proof. intros a b. unfold newer_session. apply _. Defined.

Definition opt_string (o : option string) : Json :=
  match o with Some s => JString s | None => JNull end.

Definition session_json (row : SessionRow) : Json :=
  JObject [("id", JString (uuid_text (se_session_id row))); ("label", opt_string (se_label row));
           ("metadata", se_metadata row); ("capabilities", JString (se_capabilities row));
           ("created_at", JString (format_timestamp (se_created_at row)));
           ("expires_at", JString (format_timestamp (se_expires_at row)));
           ("last_used_at", opt_string (format_timestamp <$> se_last_used_at row));
           ("revoked_at", opt_string (format_timestamp <$> se_revoked_at row))].

Definition sessions_of (pubky : Pubky) (db : AuthDb) : list SessionRow :=
  take 200 (merge_sort newer_session
    (List.filter (fun row => se_pubky row =? pubky)%string (map snd (map_to_list (auth_sessions db))))).

Definition list_sessions (config : AuthConfig) (header : option string) (now : Time) (db : AuthDb)
    : HttpResponse * AuthDb :=
  match resolve_header_session header now db with
  | (inr response, db) => (response, db)
  | (inl session, db) =>
      if negb (covers_inventory_service session) then (capability_error, db)
      else
        match consume_automation_rate config (as_actor session) "session.admin" now db with
        | (Some retry_after, db) => (automation_limited retry_after, db)
        | (None, db) =>
            (mkHttpResponse 200
               (JObject [("schema_version", JInt 1);
                         ("sessions", JArray (map session_json (sessions_of (as_actor session) db)))])
               None, db)
        end
  end.

Definition label_valid (label : option string) : bool :=
  match label with
  | None => true
  | Some l => nonempty (bytes l) && (byte_len l <=? 80) && negb (chars_any is_control l)
  end.

Definition metadata_valid (metadata : Json) : bool :=
  bool_decide (is_Some (as_object metadata)) && (byte_len (to_vec metadata) <=? 2048).

(** The session of this id, when it is the actor's. *)
Definition owned_session (actor : Pubky) (id : Uuid) (row : SessionRow) : bool :=
  (se_session_id row =? id)%N && (se_pubky row =? actor)%string.

Definition update_session_metadata (actor : Pubky) (id : Uuid) (label : option string)
    (metadata : Json) (db : AuthDb) : HttpResponse * AuthDb :=
  if negb (label_valid label) || negb (metadata_valid metadata)
  then (auth_error 422 "Session metadata is invalid.", db)
  else if table_any (fun row => owned_session actor id row && bool_decide (se_revoked_at row = None))
            (auth_sessions db)
  then if 2048 <? byte_len (jsonb_text metadata)
       then (auth_error 500 "Session metadata could not be updated.", db)
       else (mkHttpResponse 200
          (JObject [("schema_version", JInt 1); ("id", JString (uuid_text id));
                    ("label", opt_string label); ("metadata", metadata)]) None,
        upd auth_sessions (fmap (fun row =>
          if owned_session actor id row && bool_decide (se_revoked_at row = None)
          then row <| se_label := label |> <| se_metadata := metadata |> else row)) db)
  else (auth_error 404 "The session was not found.", db).

Definition revoke_row (now : Time) (row : SessionRow) : SessionRow :=
  row <| se_revoked_at := Some (default now (se_revoked_at row)) |>.

Definition revoke_session (actor : Pubky) (id : Uuid) (now : Time) (db : AuthDb)
    : HttpResponse * AuthDb :=
  if table_any (owned_session actor id) (auth_sessions db)
  then (mkHttpResponse 204 JNull None,
        upd auth_sessions
          (fmap (fun row => if owned_session actor id row then revoke_row now row else row)) db)
  else (auth_error 404 "The session was not found.", db).

(** [require_inventory_capability]. *)
Definition require_inventory_capability (session : option AuthSession) : option HttpResponse :=
  match session with
  | None => Some (auth_error 401 "A session bearer token is required.")
  | Some session => if covers_inventory_service session then None else Some capability_error
  end.
End Sessions.

(** ** Grant flows ([grant.rs])

    A flow asks the owner of a pubky to grant this service a session.  It is
    created for a signed assertion, awaits the grant, is verified by a worker
    under a lease fenced by an owner and a version, and ends complete or in
    one of five terminal states.  The bearer of a complete flow is handed out
    in two steps, each with a proof of possession over a one-use nonce: a
    ticket delivers the result token, a claim trades it for the bearer.

    Every statement or transaction of [grant.rs] is one function on the store;
    they interleave.  Signatures, key derivation, sealing, canonical JSON and
    the relay are parameters. *)

(** ** Capabilities *)

Definition PRIV_APP_SCOPE : string := "/priv/pubky.app/".

Definition GRANT_REQUEST_CAPABILITIES : string :=
  "/pub/pubky.app/marketplace-service/v1/:rw,/priv/pubky.app/:rw".

Inductive GrantCapabilityError := Disallowed | WiderThanRequested.

(** [Capabilities::normalize] and its [Display]. *)
Class CapabilityCrate := {
  normalize : list Capability -> list Capability;
  capabilities_text : list Capability -> string;
}.

Definition allowlisted_capability (capability : Capability) : bool :=
  bool_decide (is_Some (strip_prefix INVENTORY_SERVICE_SCOPE (cap_scope capability))) ||
  bool_decide (is_Some (strip_prefix PRIV_APP_SCOPE (cap_scope capability))).

Definition allowlisted (capabilities : list Capability) : bool :=
  forallb allowlisted_capability capabilities.

Section Capabilities.
Context `{IC : !InventoryCrates, CC : !CapabilityCrate}.

Definition capability_covers (requested granted : Capability) : bool :=
  scope_covers_path (cap_scope requested) (cap_scope granted) &&
  forallb (fun action => bool_decide (action ∈ cap_actions requested)) (cap_actions granted).

Definition granted_subseteq_requested (granted requested : list Capability) : bool :=
  forallb (fun g => existsb (fun r => capability_covers r g) requested) granted.

(** Empty is identity only. *)
Definition capabilities_for_grant_url (raw : string) : list Capability + GrantCapabilityError :=
  let raw := trim raw in
  if negb (nonempty (bytes raw)) then inl []
  else
    match parse_capabilities raw with
    | None => inr Disallowed
    | Some parsed =>
        if allowlisted (normalize parsed) then inl (normalize parsed) else inr Disallowed
    end.

Definition parse_verified (verified : string) : option (list Capability) :=
  let verified := trim verified in
  if negb (nonempty (bytes verified)) then Some []
  else normalize <$> parse_capabilities verified.

(** The verified capabilities of a session, bounded by the requested ones. *)
Definition grant_capabilities (verified requested : string)
    : list Capability + GrantCapabilityError :=
  match capabilities_for_grant_url requested with
  | inr e => inr e
  | inl requested =>
      match parse_verified verified with
      | None => inr Disallowed
      | Some verified =>
          if negb (allowlisted verified) then inr Disallowed
          else if negb (granted_subseteq_requested verified requested) then inr WiderThanRequested
          else inl verified
      end
  end.

Definition session_capabilities_for_grant (verified requested : string)
    : string + GrantCapabilityError :=
  match grant_capabilities verified requested with
  | inl capabilities => inl (capabilities_text capabilities)
  | inr e => inr e
  end.
End Capabilities.

(** ** The runtime *)

Record GrantConfig := mkGrantConfig {
  gc_client_id : string;
  gc_relay_url : string;
  gc_flow_ttl_seconds : Z;
  gc_verify_lease_seconds : Z;
  gc_exchange_timeout_seconds : Z;
  gc_max_live_flows : Z;
  gc_worker_batch_size : nat;
  gc_reaper_batch_size : nat;
  gc_terminal_retention_seconds : Z;
  gc_create_per_ip_per_minute : Z;
  gc_create_per_pubky_per_minute : Z;
  gc_status_per_flow_per_minute : Z;
  gc_result_per_principal_per_minute : Z;
  gc_assertion_issuer : string;
  gc_session_ttl_seconds : Z;
}.

Record KeySlot := mkKeySlot { ks_epoch : Z; ks_key : string }.

Record SecretKeyRing := mkKeyRing { kr_active : KeySlot; kr_previous : option KeySlot }.

Definition ring_select (ring : SecretKeyRing) (epoch : Z) : option string :=
  if ks_epoch (kr_active ring) =? epoch then Some (ks_key (kr_active ring))
  else ks_key <$> keep (fun slot => ks_epoch slot =? epoch) (kr_previous ring).

Record VerifySlot := mkVerifySlot { vs_kid : string; vs_key : string }.

Record VerifyKeyRing := mkVerifyRing { vk_active : VerifySlot; vk_previous : option VerifySlot }.

Record GrantRuntime := mkGrantRuntime {
  gr_config : GrantConfig;
  gr_encryption_keys : SecretKeyRing;
  gr_result_hash_keys : SecretKeyRing;
  gr_assertion_keys : VerifyKeyRing;
  gr_request_keys : VerifyKeyRing;
}.

(** [ed25519_dalek], [hkdf], [pubky]'s key parsing and the uuid parser. *)
Class GrantCrates := {
  verify_strict : forall (key message signature : string), bool;
  hkdf_expand : forall (salt root info : string), string;
  (** [PublicKey::from_str] and [z32]. *)
  parse_public_key : string -> option string;
  (** The verifying key of a pubky. *)
  pubky_key : string -> option string;
}.

Definition by_kid (ring : VerifyKeyRing) (kid : string) : option VerifySlot :=
  if (vs_kid (vk_active ring) =? kid)%string then Some (vk_active ring)
  else keep (fun slot => (vs_kid slot =? kid)%string) (vk_previous ring).

Definition RESULT_HASH_SALT : string := "marketplace/grant-result-hash/hkdf-salt/v1".
Definition DELIVERY_KEY_INFO : string := "marketplace/grant-result-hash/delivery-key/v1".
Definition TOKEN_KEY_INFO : string := "marketplace/grant-result-hash/token-key/v1".
Definition DELIVERY_HASH_DOMAIN : string := "marketplace/grant-result-hash/delivery-id/v1".
Definition TOKEN_HASH_DOMAIN : string := "marketplace/grant-result-hash/result-token/v1".
Definition RATE_HASH_DOMAIN : string := "marketplace/grant-rate-limit/bucket/v1".
Definition STATE_AAD_DOMAIN : string := "marketplace/grant-flow-state/v1".
Definition RESULT_AAD_DOMAIN : string := "marketplace/grant-flow-result/v1".
Definition POP_DOMAIN : string := "marketplace/grant-result-pop/v1".
Definition RESULT_DENIED : string := "result_denied".
Definition GRANT_STATE_VERSION : Z := 1.
Definition ASSERTION_AUDIENCE : string := "marketplace-service".
Definition ASSERTION_BOOTSTRAP_PURPOSE : string := "marketplace-grant-flow".
Definition ASSERTION_DELIVERY_PURPOSE : string := "marketplace-result-delivery".

Definition error_response (status : Z) (code : string) : HttpResponse :=
  mkHttpResponse status (JObject [("error", JString code)]) None.

Definition grant_unavailable : HttpResponse := error_response 503 "grant_unavailable".
Definition result_denied : HttpResponse := error_response 403 RESULT_DENIED.

(** [i16::to_be_bytes] and [u16::to_be_bytes]. *)
Definition epoch_bytes (epoch : Z) : string := be_bytes 2 (Z.to_N (epoch mod 65536)).

Definition append_len_prefixed (output value : string) : option string :=
  if 65535 <? byte_len value then None
  else Some (output +:+ be_bytes 2 (Z.to_N (byte_len value)) +:+ value).

Definition state_aad (flow_id : Uuid) (client_id cpk : string) (epoch : Z) : option string :=
  aad ← append_len_prefixed (STATE_AAD_DOMAIN +:+ uuid_bytes flow_id) client_id;
  aad ← append_len_prefixed aad cpk;
  Some (aad +:+ epoch_bytes epoch).

Definition result_aad (flow_id : Uuid) (result_cpk : string) (epoch : Z) : option string :=
  aad ← append_len_prefixed (RESULT_AAD_DOMAIN +:+ uuid_bytes flow_id) result_cpk;
  Some (aad +:+ epoch_bytes epoch).

Definition valid_kid (kid : string) : bool :=
  between 1 (byte_len kid) 64 &&
  forallb (fun '(index, b) =>
      is_lower b || is_digit b || (((b =? 46) || (b =? 95) || (b =? 45)) && (0 <? index)%nat))
    (zip (seq 0 (length (bytes kid))) (bytes kid)).

(** [str::split('.')]. *)
Fixpoint split_dots (s : string) : list string :=
  match s with
  | EmptyString => [""]
  | String c s' =>
      match split_dots s' with
      | part :: rest =>
          if byte_of c =? 46 then "" :: part :: rest else String c part :: rest
      | [] => [String c ""]
      end
  end.

Section Runtime.
Context `{UC : !UuidCrate, JT : !JsonText, LC : !LocksCrates, SC : !SealCrates, IC : !InventoryCrates,
          AC : !AuthCrates, CC : !CapabilityCrate, GC : !GrantCrates}.

Definition active_hash_epoch (runtime : GrantRuntime) : Z :=
  ks_epoch (kr_active (gr_result_hash_keys runtime)).

Definition encryption_key (runtime : GrantRuntime) (epoch : Z) : option string :=
  ring_select (gr_encryption_keys runtime) epoch.

Definition result_keys (runtime : GrantRuntime) (epoch : Z) : option (string * string) :=
  root ← ring_select (gr_result_hash_keys runtime) epoch;
  Some (hkdf_expand RESULT_HASH_SALT root (DELIVERY_KEY_INFO +:+ epoch_bytes epoch),
        hkdf_expand RESULT_HASH_SALT root (TOKEN_KEY_INFO +:+ epoch_bytes epoch)).

Definition result_hash (runtime : GrantRuntime) (flow_id : Uuid) (epoch : Z) (value : string)
    (token : bool) : option string :=
  keys ← result_keys runtime epoch;
  let '(key, domain) := if token then (snd keys, TOKEN_HASH_DOMAIN) else (fst keys, DELIVERY_HASH_DOMAIN) in
  Some (hmac_sha256 key (domain +:+ uuid_bytes flow_id +:+ value)).

(** [verify_any]: the key id that signed. *)
Definition verify_any (ring : VerifyKeyRing) (message signature : string) : option string :=
  vs_kid <$> find (fun slot => verify_strict (vs_key slot) message signature)
    (vk_active ring :: option_list (vk_previous ring)).

Definition decode_canonical_b64 (value : string) (expected : Z) : option string :=
  decoded ← b64_decode value;
  if negb (byte_len decoded =? expected) || negb (b64_encode decoded =? value)%string
  then None else Some decoded.

Definition decode_32 (value : string) : option string := decode_canonical_b64 value 32.

Definition canonical_uuid (value : string) : option Uuid :=
  parsed ← parse_uuid value; if (uuid_text parsed =? value)%string then Some parsed else None.

Definition canonical_pubky (value : string) : option string :=
  parsed ← parse_public_key value;
  if negb (parsed =? value)%string || negb (byte_len value =? 52) then None else Some parsed.

(** [fixed_digest_matches]. *)
Definition fixed_digest_matches (stored expected : string) : bool :=
  (byte_len stored =? 32) && (stored =? expected)%string.

(** ** Assertions *)

(** A segment that is canonical Base64url of the canonical JSON of what it is
    read as. *)
Definition decode_jcs_segment {T} (read : Read T) (write : T -> Json) (segment : string) : option T :=
  decoded ← b64_decode segment;
  if negb (b64_encode decoded =? segment)%string then None
  else
    parsed ← (v ← from_slice decoded; read v);
    if bool_decide (canonicalize (write parsed) = Some decoded) then Some parsed else None.

Record AssertionHeader := mkHeader { hd_alg : string; hd_kid : string; hd_typ : string }.

Definition read_header : Read AssertionHeader := fun v =>
  fields ← strict_fields ["alg"; "kid"; "typ"] v;
  alg ← required fields "alg" as_str;
  kid ← required fields "kid" as_str;
  typ ← required fields "typ" as_str;
  Some (mkHeader alg kid typ).

Definition header_json (h : AssertionHeader) : Json :=
  JObject [("alg", JString (hd_alg h)); ("kid", JString (hd_kid h)); ("typ", JString (hd_typ h))].

(** [BootstrapAssertion] and [DeliveryAssertion] have the same fields. *)
Record Assertion := mkAssertion {
  sn_aud : string;
  sn_exp : Z;
  sn_iat : Z;
  sn_iss : string;
  sn_jti : string;
  sn_purpose : string;
  sn_result_cpk : string;
  sn_result_delivery_id : string;
  sn_sub : string;
}.

Definition read_assertion : Read Assertion := fun v =>
  fields ← strict_fields ["aud"; "exp"; "iat"; "iss"; "jti"; "purpose"; "result_cpk";
                          "result_delivery_id"; "sub"] v;
  aud ← required fields "aud" as_str;
  exp ← required fields "exp" as_i64;
  iat ← required fields "iat" as_i64;
  iss ← required fields "iss" as_str;
  jti ← required fields "jti" as_str;
  purpose ← required fields "purpose" as_str;
  result_cpk ← required fields "result_cpk" as_str;
  delivery_id ← required fields "result_delivery_id" as_str;
  sub ← required fields "sub" as_str;
  Some (mkAssertion aud exp iat iss jti purpose result_cpk delivery_id sub).

Definition assertion_json (a : Assertion) : Json :=
  JObject [("aud", JString (sn_aud a)); ("exp", JInt (sn_exp a)); ("iat", JInt (sn_iat a));
           ("iss", JString (sn_iss a)); ("jti", JString (sn_jti a));
           ("purpose", JString (sn_purpose a)); ("result_cpk", JString (sn_result_cpk a));
           ("result_delivery_id", JString (sn_result_delivery_id a)); ("sub", JString (sn_sub a))].

Record VerifiedAssertion := mkVerifiedAssertion {
  vn_jti : Uuid;
  vn_expected_pubky : Pubky;
  vn_result_cpk : string;
  vn_delivery_id : string;
}.

(** The subtraction wraps around in a release build. *)
Definition assertion_times_valid (iat exp : Z) (now : Time) : bool :=
  negb ((exp <=? iat) || (60 <? wrap64 (exp - iat)) || (now / seconds 1 + 5 <? iat) ||
        (exp <=? now / seconds 1)).

Definition verify_assertion (runtime : GrantRuntime) (compact : string) (bootstrap : bool)
    (now : Time) : option VerifiedAssertion :=
  match split_dots compact with
  | [header_segment; claims_segment; signature_segment] =>
      header ← decode_jcs_segment read_header header_json header_segment;
      if negb (hd_alg header =? "EdDSA")%string || negb (hd_typ header =? "JWT")%string ||
         negb (valid_kid (hd_kid header)) then None
      else
        slot ← by_kid (gr_assertion_keys runtime) (hd_kid header);
        signature ← decode_canonical_b64 signature_segment 64;
        if negb (verify_strict (vs_key slot) (header_segment +:+ "." +:+ claims_segment) signature)
        then None
        else
          claims ← decode_jcs_segment read_assertion assertion_json claims_segment;
          if negb (sn_aud claims =? ASSERTION_AUDIENCE)%string ||
             negb (sn_iss claims =? gc_assertion_issuer (gr_config runtime))%string ||
             negb (sn_purpose claims =? (if bootstrap then ASSERTION_BOOTSTRAP_PURPOSE
                                         else ASSERTION_DELIVERY_PURPOSE))%string
          then None
          else if negb (assertion_times_valid (sn_iat claims) (sn_exp claims) now) then None
          else
            expected ← canonical_pubky (sn_sub claims);
            cpk ← canonical_pubky (sn_result_cpk claims);
            delivery_id ← decode_32 (sn_result_delivery_id claims);
            jti ← canonical_uuid (sn_jti claims);
            Some (mkVerifiedAssertion jti (sn_sub claims) (sn_result_cpk claims) delivery_id)
  | _ => None
  end.

(** ** Rates *)

(** [admit_rate]: a window of a minute; nothing when the key is missing. *)
Definition admit_rate (runtime : GrantRuntime) (endpoint_class bucket : string) (limit : Z)
    (now : Time) (db : AuthDb) : option bool * AuthDb :=
  match result_keys runtime (active_hash_epoch runtime) with
  | None => (None, db)
  | Some keys =>
      let bucket_hash := hmac_sha256 (fst keys)
        (RATE_HASH_DOMAIN +:+ endpoint_class +:+ be_bytes 1 0 +:+ bucket) in
      let row :=
        match grant_rates db !! (bucket_hash, endpoint_class) with
        | Some (started, count) => if started <=? now - seconds 60 then (now, 1) else (started, count + 1)
        | None => (now, 1)
        end in
      if 2147483647 <? snd row then (None, db)
      else (Some (snd row <=? limit), upd grant_rates (<[(bucket_hash, endpoint_class) := row]>) db)
  end.

(** A rate that lets the request go on, or the answer. *)
Definition rate_gate (admitted : option bool) : option HttpResponse :=
  match admitted with
  | Some true => None
  | Some false => Some (error_response 429 "rate_limited")
  | None => Some grant_unavailable
  end.

(** ** Creating a flow *)

Record CreateGrantFlowRequest := mkCreateFlow {
  cr_assertion : option string;
  cr_delivery_assertion : option string;
}.

Definition read_create_flow : Read CreateGrantFlowRequest := fun v =>
  fields ← strict_fields ["assertion"; "delivery_assertion"] v;
  assertion ← optional fields "assertion" as_str;
  delivery_assertion ← optional fields "delivery_assertion" as_str;
  Some (mkCreateFlow assertion delivery_assertion).

(** What the SDK starts: the URL shown to the owner, its client key, and the
    state to restore. *)
Record StartedFlow := mkStarted {
  sf_authorization_url : string;
  sf_cpk : string;
  sf_saved : Json;
}.

Definition stored_state_json (saved : Json) : Json :=
  JObject [("version", JInt GRANT_STATE_VERSION); ("state", saved)].

(** The unclaimed flows that are not over. *)
Definition live_flow (now : Time) (f : FlowRow) : bool :=
  bool_decide (g_status f ∈ [FAwaiting; FVerifying; FComplete]) &&
  (now <? g_expires_at f) && bool_decide (g_claimed_at f = None).

Definition count_live (now : Time) (db : AuthDb) : Z :=
  Z.of_nat (length (List.filter (live_flow now) (map snd (map_to_list (grant_flows db))))).

(** The unique indexes of [grant_flows]. *)
Definition flow_clash (id : Uuid) (f : FlowRow) (db : AuthDb) : bool :=
  bool_decide (is_Some (grant_flows db !! id)) ||
  table_any (fun f' => (g_assertion_jti f' =? g_assertion_jti f)%N ||
                       ((g_client_id f' =? g_client_id f)%string && (g_cpk f' =? g_cpk f)%string))
    (grant_flows db).

Definition flow_check (f : FlowRow) : bool :=
  (g_created_at f <? g_expires_at f) && (byte_len (g_delivery_hash f) =? 32) &&
  between 1 (g_key_epoch f) 32767 && between 1 (g_hash_epoch f) 32767.

(** The transaction of [create_flow]. *)
Definition insert_flow (config : GrantConfig) (id : Uuid) (f : FlowRow) (now : Time) (db : AuthDb)
    : option HttpResponse * AuthDb :=
  if gc_max_live_flows config <=? count_live now db
  then (Some (error_response 429 "capacity_exhausted"), db)
  else if negb (flow_check f) then (Some grant_unavailable, db)
  else if flow_clash id f db then (Some (error_response 409 "assertion_replayed"), db)
  else (None, upd grant_flows (<[id := f]>) db).

Definition new_flow (runtime : GrantRuntime) (assertion : VerifiedAssertion) (expected_pubky : Pubky)
    (started : StartedFlow) (sealed delivery_hash : string) (now : Time) : FlowRow :=
  mkFlow expected_pubky (vn_jti assertion) (gc_client_id (gr_config runtime)) (sf_cpk started)
    (gc_relay_url (gr_config runtime)) (Some sealed) (ks_epoch (kr_active (gr_encryption_keys runtime)))
    (active_hash_epoch runtime) FAwaiting 0 None None None None delivery_hash
    (vn_result_cpk assertion) None None None None None now
    (now + seconds (gc_flow_ttl_seconds (gr_config runtime))) None None.

(** The principal: a bootstrap assertion without a session, or a delivery
    assertion with one. *)
Definition flow_principal (actor : option Pubky) (request : CreateGrantFlowRequest)
    : option (string * bool) :=
  match actor, cr_assertion request, cr_delivery_assertion request with
  | None, Some assertion, None => Some (assertion, true)
  | Some _, None, Some assertion => Some (assertion, false)
  | _, _, _ => None
  end.

(** The sealed state and the delivery hash of a new flow. *)
Definition seal_flow (runtime : GrantRuntime) (flow_id : Uuid) (started : StartedFlow)
    (delivery_id : string) (draw : N) : option (string * string) :=
  let slot := kr_active (gr_encryption_keys runtime) in
  plaintext ← canonicalize (stored_state_json (sf_saved started));
  aad ← state_aad flow_id (gc_client_id (gr_config runtime)) (sf_cpk started) (ks_epoch slot);
  delivery_hash ← result_hash runtime flow_id (active_hash_epoch runtime) delivery_id false;
  Some (seal draw (ks_key slot) aad plaintext, delivery_hash).

Definition create_flow (runtime : option GrantRuntime) (ip body : string) (header : option string)
    (started : option StartedFlow) (now : Time) (db : AuthDb) : HttpResponse * AuthDb :=
  match runtime with
  | None => (grant_unavailable, db)
  | Some runtime =>
      let '(admitted, db) := admit_rate runtime "create_ip" ip
                               (gc_create_per_ip_per_minute (gr_config runtime)) now db in
      match rate_gate admitted, v ← from_slice body; read_create_flow v,
            actor_from_authorization header now db with
      | Some response, _, _ => (response, db)
      | None, None, _ => (error_response 400 "invalid_request", db)
      | None, Some _, inr _ => (error_response 401 "invalid_session", db)
      | None, Some request, inl actor =>
          match flow_principal actor request with
          | None => (error_response 400 "ambiguous_principal", db)
          | Some (compact, bootstrap) =>
              match verify_assertion runtime compact bootstrap now with
              | None => (error_response 401 "invalid_assertion", db)
              | Some assertion =>
                  let expected := vn_expected_pubky assertion in
                  if negb bootstrap && negb (bool_decide (actor = Some expected)) ||
                     negb (Pubky.is_valid_pubky expected)
                  then (error_response 401 "invalid_assertion", db)
                  else
                    let '(admitted, db) := admit_rate runtime "create_pubky" expected
                                             (gc_create_per_pubky_per_minute (gr_config runtime)) now db in
                    match rate_gate admitted, started with
                    | Some response, _ => (response, db)
                    | None, None => (grant_unavailable, db)
                    | None, Some started =>
                        let flow_id := new_v4 (auth_draws db) in
                        match seal_flow runtime flow_id started (vn_delivery_id assertion)
                                (N.succ (auth_draws db)) with
                        | None => (grant_unavailable, db)
                        | Some (sealed, delivery_hash) =>
                            let db := upd auth_draws (N.add 2) db in
                            let f := new_flow runtime assertion expected started sealed delivery_hash now in
                            match insert_flow (gr_config runtime) flow_id f now db with
                            | (Some response, db) => (response, db)
                            | (None, db) =>
                                (mkHttpResponse 201
                                   (JObject [("authorization_url", JString (sf_authorization_url started));
                                             ("expires_at", JString (format_timestamp (g_expires_at f)));
                                             ("flow_id", JString (uuid_text flow_id));
                                             ("status", JString "awaiting")]) None, db)
                            end
                        end
                    end
              end
          end
      end
  end.

(** ** Status *)

Definition status_str (status : FlowStatus) : string :=
  match status with
  | FAwaiting => "awaiting" | FVerifying => "verifying" | FComplete => "complete"
  | FMismatch => "mismatch" | FExpired => "expired" | FCancelled => "cancelled"
  | FInvalid => "invalid" | FFailed => "failed"
  end.

Definition is_terminal (status : FlowStatus) : bool :=
  bool_decide (status ∈ [FMismatch; FExpired; FCancelled; FInvalid; FFailed]).

Definition get_status (runtime : option GrantRuntime) (ip : string) (flow_id : Uuid) (now : Time)
    (db : AuthDb) : HttpResponse * AuthDb :=
  match runtime with
  | None => (grant_unavailable, db)
  | Some runtime =>
      let '(admitted, db) := admit_rate runtime "status_flow" (ip +:+ ":" +:+ uuid_text flow_id)
                               (gc_status_per_flow_per_minute (gr_config runtime)) now db in
      match rate_gate admitted, grant_flows db !! flow_id with
      | Some response, _ => (response, db)
      | None, None => (error_response 404 "flow_not_found", db)
      | None, Some f =>
          if is_terminal (g_status f)
          then (mkHttpResponse 410 (JObject [("status", JString "terminal")]) None, db)
          else (mkHttpResponse 200
                  (JObject [("expires_at", JString (format_timestamp (g_expires_at f)));
                            ("flow_id", JString (uuid_text flow_id));
                            ("status", JString (status_str (g_status f)))]) None, db)
      end
  end.

(** ** Signed service requests *)

(** [verify_service_request]: the principal and the body, which is canonical
    and names this method and path. *)
Definition verify_service_request (runtime : GrantRuntime) (signatures : list string) (body : string)
    (expected_path : string) : option (string * Json) :=
  match signatures with
  | [signature_text] =>
      signature ← decode_canonical_b64 signature_text 64;
      principal ← verify_any (gr_request_keys runtime) body signature;
      value ← from_slice body;
      if negb (bool_decide (canonicalize value = Some body)) ||
         negb (bool_decide (get "method" value ≫= as_str = Some "POST")) ||
         negb (bool_decide (get "path" value ≫= as_str = Some expected_path))
      then None else Some (principal, value)
  | _ => None
  end.

(** [admit_result_rates]: both counters, the second when the first admits. *)
Definition admit_result_rates (runtime : GrantRuntime) (principal : string) (flow_id : Uuid)
    (now : Time) (db : AuthDb) : option bool * AuthDb :=
  match admit_rate runtime "result_principal" principal
          (gc_result_per_principal_per_minute (gr_config runtime)) now db with
  | (Some true, db) => admit_rate runtime "result_flow" (uuid_text flow_id) 10 now db
  | refused => refused
  end.

(** [consume_service_request]: a request id is used once. *)
Definition consume_service_request (principal endpoint_class : string) (request_id : Uuid)
    (now : Time) (db : AuthDb) : bool * AuthDb :=
  match grant_requests db !! request_id with
  | Some _ => (false, db)
  | None => (true, upd grant_requests (<[request_id := (principal, endpoint_class, now)]>) db)
  end.

(** The common start of the four result endpoints: the principal and the
    request, or an answer. *)
Definition enter_result {T} (runtime : option GrantRuntime) (endpoint path : string)
    (flow_id : Uuid) (signatures : list string) (body : string) (read : Read T)
    (valid : T -> option Uuid) (now : Time) (db : AuthDb)
    : (GrantRuntime * string * T + HttpResponse) * AuthDb :=
  match runtime with
  | None => (inr grant_unavailable, db)
  | Some runtime =>
      match verify_service_request runtime signatures body path with
      | None => (inr (error_response 401 "invalid_service_signature"), db)
      | Some (principal, value) =>
          let '(admitted, db) := admit_result_rates runtime principal flow_id now db in
          match rate_gate admitted, read value with
          | Some response, _ => (inr response, db)
          | None, None => (inr (error_response 400 "invalid_request"), db)
          | None, Some request =>
              match valid request with
              | None => (inr (error_response 400 "invalid_request"), db)
              | Some request_id =>
                  match consume_service_request principal endpoint request_id now db with
                  | (false, db) => (inr result_denied, db)
                  | (true, db) => (inl (runtime, principal, request), db)
                  end
              end
          end
      end
  end.

Definition flow_path (flow_id : Uuid) (action : string) : string :=
  "/v1/auth/grant-flows/" +:+ uuid_text flow_id +:+ "/" +:+ action.

(** *** Nonces *)

Record NonceRequest := mkNonceRequest {
  nr_method : string;
  nr_path : string;
  nr_purpose : string;
  nr_request_id : string;
}.

Definition read_nonce_request : Read NonceRequest := fun v =>
  fields ← strict_fields ["method"; "path"; "purpose"; "request_id"] v;
  method ← required fields "method" as_str;
  path ← required fields "path" as_str;
  purpose ← required fields "purpose" as_str;
  request_id ← required fields "request_id" as_str;
  Some (mkNonceRequest method path purpose request_id).

Definition valid_nonce_request (path : string) (r : NonceRequest) : option Uuid :=
  if ((nr_method r =? "POST") && (nr_path r =? path) &&
      ((nr_purpose r =? "ticket") || (nr_purpose r =? "claim")))%string
  then canonical_uuid (nr_request_id r) else None.

(** The nonce is stored by its hash. *)
Definition insert_nonce (flow_id : Uuid) (purpose principal : string) (nonce_id : Uuid)
    (nonce : string) (now : Time) (db : AuthDb) : option AuthDb :=
  match grant_flows db !! flow_id, grant_nonces db !! nonce_id with
  | Some _, None =>
      Some (upd grant_nonces (<[nonce_id :=
        mkGrantNonce flow_id purpose principal (sha256 nonce) (now + seconds 30) None]>) db)
  | _, _ => None
  end.

Definition issue_result_nonce (runtime : option GrantRuntime) (flow_id : Uuid)
    (signatures : list string) (body : string) (now : Time) (db : AuthDb) : HttpResponse * AuthDb :=
  let path := flow_path flow_id "result-nonces" in
  match enter_result runtime "nonce" path flow_id signatures body read_nonce_request
          (valid_nonce_request path) now db with
  | (inr response, db) => (response, db)
  | (inl (runtime, principal, request), db) =>
      match grant_flows db !! flow_id with
      | None => (result_denied, db)
      | Some _ =>
          let nonce := random32 (auth_draws db) in
          let nonce_id := new_v4 (N.succ (auth_draws db)) in
          match insert_nonce flow_id (nr_purpose request) principal nonce_id nonce now
                  (upd auth_draws (N.add 2) db) with
          | None => (grant_unavailable, upd auth_draws (N.add 2) db)
          | Some db =>
              (mkHttpResponse 201
                 (JObject [("expires_at", JString (format_timestamp (now + seconds 30)));
                           ("nonce", JString (b64_encode nonce));
                           ("nonce_id", JString (uuid_text nonce_id))]) None, db)
          end
      end
  end.

(** ** Proof of possession *)

Record ResultProof := mkProof {
  pf_issued_at : Z;
  pf_nonce : string;
  pf_nonce_id : string;
  pf_signature : string;
}.

Definition read_proof : Read ResultProof := fun v =>
  fields ← strict_fields ["issued_at"; "nonce"; "nonce_id"; "signature"] v;
  issued_at ← required fields "issued_at" as_i64;
  nonce ← required fields "nonce" as_str;
  nonce_id ← required fields "nonce_id" as_str;
  signature ← required fields "signature" as_str;
  Some (mkProof issued_at nonce nonce_id signature).

(** [PopMessage]: what the result key signs. *)
Definition pop_message (flow_id : Uuid) (purpose path delivery_id : string) (proof : ResultProof) : Json :=
  JObject [("domain", JString POP_DOMAIN); ("flow_id", JString (uuid_text flow_id));
           ("issued_at", JInt (pf_issued_at proof)); ("method", JString "POST");
           ("nonce", JString (pf_nonce proof)); ("nonce_id", JString (pf_nonce_id proof));
           ("path", JString path); ("purpose", JString purpose);
           ("result_delivery_id", JString delivery_id)].

(** The signature and age of a proof: its nonce id and nonce. *)
Definition check_proof (flow_id : Uuid) (purpose path delivery_id result_cpk : string)
    (proof : ResultProof) (now : Time) : option (Uuid * string) :=
  if 30 <? Z.abs (wrap64 (now / seconds 1 - pf_issued_at proof)) then None
  else
    nonce_id ← canonical_uuid (pf_nonce_id proof);
    nonce ← decode_32 (pf_nonce proof);
    signature ← decode_canonical_b64 (pf_signature proof) 64;
    key ← (k ← canonical_pubky result_cpk; pubky_key k);
    message ← canonicalize (pop_message flow_id purpose path delivery_id proof);
    if verify_strict key message signature then Some (nonce_id, nonce) else None.

(** An unused nonce of this flow, purpose and principal. *)
Definition nonce_usable (flow_id : Uuid) (purpose principal nonce : string) (now : Time)
    (row : GrantNonceRow) : bool :=
  (gn_flow_id row =? flow_id)%N && (gn_purpose row =? purpose)%string &&
  (gn_bff_principal row =? principal)%string && (now <? gn_expires_at row) &&
  bool_decide (gn_used_at row = None) && fixed_digest_matches (gn_nonce_hash row) (sha256 nonce).

(** [verify_pop_and_consume]. *)
Definition verify_pop_and_consume (flow_id : Uuid) (principal purpose path delivery_id result_cpk : string)
    (proof : ResultProof) (now : Time) (db : AuthDb) : option AuthDb :=
  checked ← check_proof flow_id purpose path delivery_id result_cpk proof now;
  row ← grant_nonces db !! fst checked;
  if nonce_usable flow_id purpose principal (snd checked) now row
  then Some (upd grant_nonces (<[fst checked := row <| gn_used_at := Some now |>]>) db)
  else None.

(** ** The sealed result *)

Record SealedResult := mkSealedResult {
  sr_version : Z;
  sr_bearer : string;
  sr_result_token : string;
  sr_session_expires_at : Time;
}.

(** The canonical JSON of a result, and reading it back. *)
Class ResultCodec := {
  result_text : SealedResult -> string;
  read_result : string -> option SealedResult;
}.

Context `{RC : !ResultCodec}.

Definition open_result (runtime : GrantRuntime) (flow_id : Uuid) (result_cpk : string) (key_epoch : Z)
    (sealed : string) : option SealedResult :=
  aad ← result_aad flow_id result_cpk key_epoch;
  key ← encryption_key runtime key_epoch;
  plaintext ← open key aad sealed;
  result ← read_result plaintext;
  if (sr_version result =? GRANT_STATE_VERSION) && (result_text result =? plaintext)%string
  then Some result else None.

Record ResultRequest := mkResultRequest {
  rq_method : string;
  rq_path : string;
  rq_proof : ResultProof;
  rq_request_id : string;
  rq_result_delivery_id : string;
  (** Only a claim has a token. *)
  rq_result_token : string;
}.

Definition read_ticket_request : Read ResultRequest := fun v =>
  fields ← strict_fields ["method"; "path"; "proof"; "request_id"; "result_delivery_id"] v;
  method ← required fields "method" as_str;
  path ← required fields "path" as_str;
  proof ← required fields "proof" read_proof;
  request_id ← required fields "request_id" as_str;
  delivery_id ← required fields "result_delivery_id" as_str;
  Some (mkResultRequest method path proof request_id delivery_id "").

Definition read_claim_request : Read ResultRequest := fun v =>
  fields ← strict_fields ["method"; "path"; "proof"; "request_id"; "result_delivery_id";
                          "result_token"] v;
  method ← required fields "method" as_str;
  path ← required fields "path" as_str;
  proof ← required fields "proof" read_proof;
  request_id ← required fields "request_id" as_str;
  delivery_id ← required fields "result_delivery_id" as_str;
  result_token ← required fields "result_token" as_str;
  Some (mkResultRequest method path proof request_id delivery_id result_token).

Definition valid_result_request (path : string) (r : ResultRequest) : option Uuid :=
  if ((rq_method r =? "POST") && (rq_path r =? path))%string
  then canonical_uuid (rq_request_id r) else None.

(** *** The ticket *)

(** The result waits, undelivered, for whoever knows the delivery id. *)
Definition ticket_open (f : FlowRow) (delivery_hash : string) (now : Time) : bool :=
  bool_decide (g_status f = FComplete) && bool_decide (g_claimed_at f = None) &&
  bool_decide (g_token_delivered_at f = None) &&
  match g_token_expires_at f with Some expires => now <? expires | None => false end &&
  fixed_digest_matches (g_delivery_hash f) delivery_hash.

(** The transaction of [result_ticket]: the token and when it expires. *)
Definition deliver_ticket (runtime : GrantRuntime) (flow_id : Uuid) (principal path : string)
    (request : ResultRequest) (delivery_id : string) (now : Time) (db : AuthDb)
    : option (string * Time * AuthDb) :=
  f ← grant_flows db !! flow_id;
  delivery_hash ← result_hash runtime flow_id (g_hash_epoch f) delivery_id false;
  if negb (ticket_open f delivery_hash now) then None
  else
    db ← verify_pop_and_consume flow_id principal "ticket" path (rq_result_delivery_id request)
           (g_result_cpk f) (rq_proof request) now db;
    sealed ← g_payload_sealed f;
    result ← open_result runtime flow_id (g_result_cpk f) (g_key_epoch f) sealed;
    expires ← g_token_expires_at f;
    Some (sr_result_token result, expires,
          upd grant_flows (<[flow_id := f <| g_token_delivered_at := Some now |>]>) db).

Definition result_ticket (runtime : option GrantRuntime) (flow_id : Uuid) (signatures : list string)
    (body : string) (now : Time) (db : AuthDb) : HttpResponse * AuthDb :=
  let path := flow_path flow_id "result-ticket" in
  match enter_result runtime "ticket" path flow_id signatures body read_ticket_request
          (valid_result_request path) now db with
  | (inr response, db) => (response, db)
  | (inl (runtime, principal, request), db) =>
      match delivery_id ← decode_32 (rq_result_delivery_id request);
            deliver_ticket runtime flow_id principal path request delivery_id now db with
      | None => (result_denied, db)
      | Some (result_token, expires, db) =>
          (mkHttpResponse 200
             (JObject [("expires_at", JString (format_timestamp expires));
                       ("result_token", JString (b64_encode result_token))]) None, db)
      end
  end.

(** *** The claim *)

Definition claim_open (f : FlowRow) (delivery_hash token_hash : string) (now : Time) : bool :=
  bool_decide (g_status f = FComplete) && bool_decide (g_claimed_at f = None) &&
  bool_decide (is_Some (g_token_delivered_at f)) &&
  match g_token_expires_at f with Some expires => now <? expires | None => false end &&
  fixed_digest_matches (g_delivery_hash f) delivery_hash &&
  match g_token_hash f with Some stored => fixed_digest_matches stored token_hash | None => false end.

Definition claimed (now : Time) (f : FlowRow) : FlowRow :=
  f <| g_claimed_at := Some now |> <| g_token_hash := None |> <| g_payload_sealed := None |>.

(** The capabilities of the session the flow created. *)
Definition flow_capabilities (f : FlowRow) (db : AuthDb) : option string :=
  match g_session_id f with
  | None => Some ""
  | Some id =>
      se_capabilities <$> find (fun row => (se_session_id row =? id)%N)
        (map snd (map_to_list (auth_sessions db)))
  end.

(** The transaction of [claim_result]: capabilities, pubky, bearer, expiry. *)
Definition redeem_claim (runtime : GrantRuntime) (flow_id : Uuid) (principal path : string)
    (request : ResultRequest) (delivery_id presented_token : string) (now : Time) (db : AuthDb)
    : option (string * Pubky * SealedResult * AuthDb) :=
  f ← grant_flows db !! flow_id;
  delivery_hash ← result_hash runtime flow_id (g_hash_epoch f) delivery_id false;
  token_hash ← result_hash runtime flow_id (g_hash_epoch f) presented_token true;
  if negb (claim_open f delivery_hash token_hash now) then None
  else
    db ← verify_pop_and_consume flow_id principal "claim" path (rq_result_delivery_id request)
           (g_result_cpk f) (rq_proof request) now db;
    sealed ← g_payload_sealed f;
    result ← open_result runtime flow_id (g_result_cpk f) (g_key_epoch f) sealed;
    capabilities ← flow_capabilities f db;
    Some (capabilities, g_expected_pubky f, result,
          upd grant_flows (<[flow_id := claimed now f]>) db).

Definition claim_result (runtime : option GrantRuntime) (flow_id : Uuid) (signatures : list string)
    (body : string) (now : Time) (db : AuthDb) : HttpResponse * AuthDb :=
  let path := flow_path flow_id "claim" in
  match enter_result runtime "claim" path flow_id signatures body read_claim_request
          (valid_result_request path) now db with
  | (inr response, db) => (response, db)
  | (inl (runtime, principal, request), db) =>
      match delivery_id ← decode_32 (rq_result_delivery_id request);
            token ← decode_32 (rq_result_token request);
            redeem_claim runtime flow_id principal path request delivery_id token now db with
      | None => (result_denied, db)
      | Some (capabilities, pubky, result, db) =>
          (mkHttpResponse 200
             (JObject [("capabilities", JString capabilities);
                       ("expires_at", JString (format_timestamp (sr_session_expires_at result)));
                       ("pubky", JString pubky);
                       ("token", JString (b64_encode (sr_bearer result)))]) None, db)
      end
  end.

(** *** Cancelling *)

Record CancelRequest := mkCancelRequest {
  cq_method : string;
  cq_path : string;
  cq_request_id : string;
  cq_result_delivery_id : string;
}.

Definition read_cancel_request : Read CancelRequest := fun v =>
  fields ← strict_fields ["method"; "path"; "request_id"; "result_delivery_id"] v;
  method ← required fields "method" as_str;
  path ← required fields "path" as_str;
  request_id ← required fields "request_id" as_str;
  delivery_id ← required fields "result_delivery_id" as_str;
  Some (mkCancelRequest method path request_id delivery_id).

Definition valid_cancel_request (path : string) (r : CancelRequest) : option Uuid :=
  if ((cq_method r =? "POST") && (cq_path r =? path))%string
  then canonical_uuid (cq_request_id r) else None.

(** A flow that ends without a result keeps no secret. *)
Definition ended (status : FlowStatus) (code : string) (now : Time) (f : FlowRow) : FlowRow :=
  f <| g_status := status |> <| g_terminal_code := Some code |> <| g_terminal_at := Some now |>
    <| g_state_sealed := None |> <| g_payload_sealed := None |> <| g_token_hash := None |>.

(** [UPDATE grant_flows .. WHERE flow_id = $1 AND ..]: the rows affected. *)
Definition update_flow (flow_id : Uuid) (cond : FlowRow -> bool) (change : FlowRow -> FlowRow)
    (db : AuthDb) : bool * AuthDb :=
  match grant_flows db !! flow_id with
  | Some f => if cond f then (true, upd grant_flows (<[flow_id := change f]>) db) else (false, db)
  | None => (false, db)
  end.

Definition cancel_awaiting (flow_id : Uuid) (now : Time) (db : AuthDb) : bool * AuthDb :=
  update_flow flow_id (fun f => bool_decide (g_status f = FAwaiting))
    (ended FCancelled "cancelled" now) db.

Definition cancel_flow (runtime : option GrantRuntime) (flow_id : Uuid) (signatures : list string)
    (body : string) (now : Time) (db : AuthDb) : HttpResponse * AuthDb :=
  let path := flow_path flow_id "cancel" in
  match enter_result runtime "cancel" path flow_id signatures body read_cancel_request
          (valid_cancel_request path) now db with
  | (inr response, db) => (response, db)
  | (inl (runtime, principal, request), db) =>
      match delivery_id ← decode_32 (cq_result_delivery_id request);
            f ← grant_flows db !! flow_id;
            expected ← result_hash runtime flow_id (g_hash_epoch f) delivery_id false;
            if fixed_digest_matches (g_delivery_hash f) expected then Some f else None with
      | None => (result_denied, db)
      | Some f =>
          if negb (bool_decide (g_status f = FAwaiting))
          then (error_response 409 "flow_not_cancellable", db)
          else
            match cancel_awaiting flow_id now db with
            | (true, db) => (mkHttpResponse 204 JNull None, db)
            | (false, db) => (error_response 409 "flow_not_cancellable", db)
            end
      end
  end.

(** ** The worker *)

Record FlowLease := mkFlowLease {
  fl_flow_id : Uuid;
  fl_expected_pubky : Pubky;
  fl_client_id : string;
  fl_cpk : string;
  fl_grant_state_sealed : string;
  fl_key_epoch : Z;
  fl_hash_epoch : Z;
  fl_result_cpk : string;
  fl_lease_owner : Uuid;
  fl_lease_until : Time;
  fl_version : Z;
  fl_expires_at : Time;
}.

Definition leased (owner : Uuid) (until : Time) (f : FlowRow) : FlowRow :=
  f <| g_status := FVerifying |> <| g_lease_owner := Some owner |> <| g_lease_until := Some until |>
    <| g_version := g_version f + 1 |>.

(** The row as the worker gets it; an awaiting row has its sealed state. *)
Definition lease_of (flow_id : Uuid) (owner : Uuid) (until : Time) (f : FlowRow) : FlowLease :=
  mkFlowLease flow_id (g_expected_pubky f) (g_client_id f) (g_cpk f) (default "" (g_state_sealed f))
    (g_key_epoch f) (g_hash_epoch f) (g_result_cpk f) owner until (g_version f + 1) (g_expires_at f).

(** Awaiting flows that are not over, the first to expire first. *)
Definition acquirable (now : Time) (f : FlowRow) : bool :=
  bool_decide (g_status f = FAwaiting) && (now <? g_expires_at f).

Definition expires_first (a b : Uuid * FlowRow) : Prop :=
  g_expires_at (snd a) < g_expires_at (snd b) \/
  (g_expires_at (snd a) = g_expires_at (snd b) /\ g_created_at (snd a) <= g_created_at (snd b)).

#[export] Instance expires_first_dec : RelDecision expires_first.
Proof. intros a b. unfold expires_first. apply _. Defined.

(** [SKIP LOCKED]: a row another transaction holds is passed over. *)
Definition due_flows (locked : Uuid -> bool) (now : Time) (batch : nat) (db : AuthDb)
    : list (Uuid * FlowRow) :=
  take batch (merge_sort expires_first
    (List.filter (fun kv => acquirable now (snd kv) && negb (locked (fst kv)))
       (map_to_list (grant_flows db)))).

Definition lease_flow (owner : Uuid) (until : Time) (db : AuthDb) (due : Uuid * FlowRow) : AuthDb :=
  upd grant_flows (<[fst due := leased owner until (snd due)]>) db.

(** [acquire_flows]: one owner a batch. *)
Definition acquire_flows (config : GrantConfig) (locked : Uuid -> bool) (now : Time) (db : AuthDb)
    : list FlowLease * AuthDb :=
  let owner := new_v4 (auth_draws db) in
  let until := now + seconds (gc_verify_lease_seconds config) in
  let due := due_flows locked now (gc_worker_batch_size config) db in
  (map (fun '(id, f) => lease_of id owner until f) due,
   foldl (lease_flow owner until) (upd auth_draws N.succ db) due).

(** The lease still owns the row. *)
Definition owns (lease : FlowLease) (f : FlowRow) : bool :=
  bool_decide (g_status f = FVerifying) && bool_decide (g_lease_owner f = Some (fl_lease_owner lease)) &&
  (g_version f =? fl_version lease).

Definition unleased (f : FlowRow) : FlowRow :=
  f <| g_lease_owner := None |> <| g_lease_until := None |>.

Definition terminalize_owned (lease : FlowLease) (status : FlowStatus) (code : string)
    (approved : option Pubky) (now : Time) (db : AuthDb) : bool * AuthDb :=
  update_flow (fl_flow_id lease) (owns lease)
    (fun f => unleased ((ended status code now f) <| g_approved_pubky := approved |>)) db.

Definition return_owned_to_awaiting (lease : FlowLease) (db : AuthDb) : bool * AuthDb :=
  update_flow (fl_flow_id lease) (fun f => owns lease f && bool_decide (g_approved_pubky f = None))
    (fun f => unleased (f <| g_status := FAwaiting |>)) db.

(** [heartbeat_lease]: the owner, whatever the version. *)
Definition heartbeat_lease (lease : FlowLease) (until : Time) (db : AuthDb) : bool * AuthDb :=
  update_flow (fl_flow_id lease)
    (fun f => bool_decide (g_status f = FVerifying) &&
              bool_decide (g_lease_owner f = Some (fl_lease_owner lease)))
    (fun f => f <| g_lease_until := Some until |>) db.

Definition enter_exchanging (lease : FlowLease) (approved : Pubky) (until : Time) (db : AuthDb)
    : bool * AuthDb :=
  update_flow (fl_flow_id lease) (fun f => owns lease f && bool_decide (g_approved_pubky f = None))
    (fun f => f <| g_approved_pubky := Some approved |> <| g_lease_until := Some until |>
                <| g_version := g_version f + 1 |>) db.

Definition exchanging_lease (lease : FlowLease) (until : Time) : FlowLease :=
  mkFlowLease (fl_flow_id lease) (fl_expected_pubky lease) (fl_client_id lease) (fl_cpk lease)
    (fl_grant_state_sealed lease) (fl_key_epoch lease) (fl_hash_epoch lease) (fl_result_cpk lease)
    (fl_lease_owner lease) until (fl_version lease + 1) (fl_expires_at lease).

(** The sealed result and the hash of its token. *)
Definition seal_result (runtime : GrantRuntime) (lease : FlowLease) (result : SealedResult) (draw : N)
    : option (string * string) :=
  token_hash ← result_hash runtime (fl_flow_id lease) (fl_hash_epoch lease) (sr_result_token result) true;
  aad ← result_aad (fl_flow_id lease) (fl_result_cpk lease) (fl_key_epoch lease);
  key ← encryption_key runtime (fl_key_epoch lease);
  Some (seal draw key aad (result_text result), token_hash).

Definition completed (approved : Pubky) (session_id : Uuid) (sealed token_hash : string) (now : Time)
    (f : FlowRow) : FlowRow :=
  unleased (f <| g_status := FComplete |> <| g_approved_pubky := Some approved |>
              <| g_terminal_at := Some now |> <| g_state_sealed := None |>
              <| g_token_hash := Some token_hash |> <| g_token_expires_at := Some (now + seconds 60) |>
              <| g_payload_sealed := Some sealed |> <| g_session_id := Some session_id |>).

(** [complete_owned]: session and result in one transaction; nothing when the
    database or the keys fail. *)
Definition complete_owned (runtime : GrantRuntime) (lease : FlowLease) (approved : Pubky)
    (capabilities : string) (now : Time) (db : AuthDb) : option bool * AuthDb :=
  let draw := auth_draws db in
  let expires_at := now + seconds (gc_session_ttl_seconds (gr_config runtime)) in
  let result := mkSealedResult GRANT_STATE_VERSION (random32 draw) (random32 (draw + 1)%N) expires_at in
  let session_id := new_v4 (draw + 3)%N in
  let drawn := upd auth_draws (N.add 4) db in
  match seal_result runtime lease result (draw + 2)%N, grant_flows db !! fl_flow_id lease with
  | None, _ => (None, drawn)
  | Some _, None => (Some false, drawn)
  | Some (sealed, token_hash), Some f =>
      if negb (owns lease f) then (Some false, drawn)
      else if bool_decide (is_Some (auth_sessions db !! hash_token (sr_bearer result))) ||
              negb (session_id_free session_id db)
      then (None, drawn)
      else
        (Some true,
         upd grant_flows (<[fl_flow_id lease := completed approved session_id sealed token_hash now f]>)
           (upd auth_sessions (<[hash_token (sr_bearer result) :=
              mkSession session_id approved capabilities now expires_at None None None (JObject [])]>) drawn))
  end.

(** [settle_verified]. *)
Definition settle_verified (runtime : GrantRuntime) (lease : FlowLease) (approved : Pubky)
    (requested verified : string) (now : Time) (db : AuthDb) : option bool * AuthDb :=
  if negb (approved =? fl_expected_pubky lease)%string then
    let '(applied, db) :=
      terminalize_owned lease FMismatch "identity_mismatch" (Some approved) now db in
    (Some applied, db)
  else
    match session_capabilities_for_grant verified requested with
    | inl capabilities => complete_owned runtime lease approved capabilities now db
    | inr _ =>
        let '(applied, db) := terminalize_owned lease FInvalid "grant_invalid" (Some approved) now db in
        (Some applied, db)
    end.

(** *** One lease, from the saved state to the settlement

    [process_lease] runs outside any transaction; what happens to it between
    its statements is an event.  Before [enter_exchanging] a lost worker
    returns the lease; afterwards the approved pubky marks the row. *)

Inductive LeasePhase :=
| Leased (lease : FlowLease)
(** [started] is the instant the terminal rows of this phase get. *)
| Polling (lease : FlowLease) (started : Time)
| Exchanging (lease : FlowLease) (approved : Pubky) (requested : string).

(** [pubky::Error], by how it ends the flow. *)
Inductive ExchangeError := AuthenticationOrParse | PkarrOrRequest | BuildFailed.

Inductive LeaseEvent :=
| Begin
| StateUnreadable
| InboxInvalid
| ChannelFailed
| PollFailed
| NothingPolled
| PayloadInvalid
| ClaimsReceived (approved : Pubky) (requested : string)
| WorkerLost
| RestoreFailed
| ExchangeTimedOut (heartbeat_lost : bool)
| ExchangeFailed (error : ExchangeError)
| SessionVerified (pubky : Pubky) (verified : string).

Definition exchange_error (error : ExchangeError) : FlowStatus * string :=
  match error with
  | AuthenticationOrParse => (FInvalid, "grant_invalid")
  | PkarrOrRequest => (FFailed, "grant_exchange")
  | BuildFailed => (FFailed, "relay_transport")
  end.

(** [remaining_lease]: never negative. *)
Definition remaining_lease (lease : FlowLease) (now : Time) : Z := Z.max 0 (fl_lease_until lease - now).

(** The phase after an event, when the lease lives on. *)
Definition process_lease (runtime : GrantRuntime) (phase : LeasePhase) (event : LeaseEvent)
    (now : Time) (db : AuthDb) : option LeasePhase * AuthDb :=
  let stop := fun r : bool * AuthDb => (None, snd r) in
  match phase, event with
  | Leased lease, Begin =>
      if remaining_lease lease now =? 0 then stop (return_owned_to_awaiting lease db)
      else (Some (Polling lease now), db)
  | Polling lease started, StateUnreadable =>
      stop (terminalize_owned lease FFailed "storage_failure" None started db)
  | Polling lease started, InboxInvalid =>
      stop (terminalize_owned lease FInvalid "grant_invalid" None started db)
  | Polling lease started, ChannelFailed =>
      stop (terminalize_owned lease FFailed "relay_transport" None started db)
  | Polling lease started, PollFailed =>
      stop (terminalize_owned lease FFailed "relay_transport" None started db)
  | Polling lease _, NothingPolled => stop (return_owned_to_awaiting lease db)
  | Polling lease started, PayloadInvalid =>
      stop (terminalize_owned lease FInvalid "grant_invalid" None started db)
  | Polling lease _, ClaimsReceived approved requested =>
      let until := now + seconds (gc_verify_lease_seconds (gr_config runtime)) in
      match enter_exchanging lease approved until db with
      | (true, db) => (Some (Exchanging (exchanging_lease lease until) approved requested), db)
      | (false, db) => stop (return_owned_to_awaiting lease db)
      end
  | Polling lease _, WorkerLost => stop (return_owned_to_awaiting lease db)
  | Exchanging lease approved _, RestoreFailed =>
      stop (terminalize_owned lease FInvalid "grant_invalid" (Some approved) now db)
  | Exchanging lease approved _, ExchangeTimedOut _ =>
      stop (terminalize_owned lease FFailed "grant_exchange" (Some approved) now db)
  | Exchanging lease approved _, ExchangeFailed error =>
      let '(status, code) := exchange_error error in
      stop (terminalize_owned lease status code (Some approved) now db)
  | Exchanging lease _ requested, SessionVerified pubky verified =>
      (None, snd (settle_verified runtime lease pubky requested verified now db))
  | _, WorkerLost => (None, db)
  | _, _ => (Some phase, db)
  end.

(** ** The reaper *)

(** [ORDER BY] a column. *)
Definition by_key (key : FlowRow -> Z) (a b : Uuid * FlowRow) : Prop := key (snd a) <= key (snd b).

#[export] Instance by_key_dec key : RelDecision (by_key key).
Proof. intros a b. unfold by_key. apply _. Defined.

(** The first rows in an order, those held by others passed over. *)
Definition first_rows (cond : FlowRow -> bool) (key : FlowRow -> Z) (locked : Uuid -> bool)
    (batch : nat) (db : AuthDb) : list (Uuid * FlowRow) :=
  take batch (merge_sort (by_key key)
    (List.filter (fun kv => cond (snd kv) && negb (locked (fst kv))) (map_to_list (grant_flows db)))).

Definition change_rows (change : FlowRow -> FlowRow) (due : list (Uuid * FlowRow)) (db : AuthDb) : AuthDb :=
  foldl (fun db kv => upd grant_flows (<[fst kv := change (snd kv)]>) db) db due.

Definition expired_flow (now : Time) (f : FlowRow) : bool :=
  bool_decide (g_status f = FAwaiting) && (g_expires_at f <=? now).

Definition reap_expired (locked : Uuid -> bool) (batch : nat) (now : Time) (db : AuthDb) : Z * AuthDb :=
  let due := first_rows (expired_flow now) g_expires_at locked batch db in
  (Z.of_nat (length due), change_rows (ended FExpired "flow_expired" now) due db).

(** A verifying row whose lease lapsed, before or after the exchange began. *)
Definition stale_flow (exchanging : bool) (now : Time) (f : FlowRow) : bool :=
  bool_decide (g_status f = FVerifying) &&
  match g_lease_until f with Some until => until <=? now | None => false end &&
  Bool.eqb exchanging (bool_decide (is_Some (g_approved_pubky f))).

Definition reap_stale (exchanging : bool) (locked : Uuid -> bool) (batch : nat) (now : Time) (db : AuthDb)
    : Z * AuthDb :=
  let due := first_rows (stale_flow exchanging now) (fun f => default 0 (g_lease_until f)) locked batch db in
  (Z.of_nat (length due),
   change_rows (fun f => unleased (ended FFailed
     (if exchanging then "grant_exchange" else "lease_lost") now f)) due db).

(** A result that was not claimed in time. *)
Definition unclaimed_result (now : Time) (f : FlowRow) : bool :=
  bool_decide (g_status f = FComplete) && bool_decide (g_claimed_at f = None) &&
  match g_token_expires_at f with Some expires => expires <=? now | None => false end &&
  (bool_decide (is_Some (g_payload_sealed f)) || bool_decide (is_Some (g_session_id f))).

(** [DELETE FROM auth_sessions]; the flows that refer to it forget it. *)
Definition delete_session (id : Uuid) (db : AuthDb) : AuthDb :=
  upd grant_flows (fmap (fun f => if bool_decide (g_session_id f = Some id)
                                  then f <| g_session_id := None |> else f))
    (upd auth_sessions (filter (fun kv : string * SessionRow => se_session_id (snd kv) <> id)) db).

Definition withdrawn (f : FlowRow) : FlowRow :=
  f <| g_token_hash := None |> <| g_payload_sealed := None |> <| g_token_expires_at := None |>
    <| g_session_id := None |> <| g_terminal_code := Some "flow_expired" |>.

Definition withdraw_result (db : AuthDb) (due : Uuid * FlowRow) : AuthDb :=
  let db := match g_session_id (snd due) with Some id => delete_session id db | None => db end in
  snd (update_flow (fst due) (fun _ => true) withdrawn db).

Definition reap_results (locked : Uuid -> bool) (batch : nat) (now : Time) (db : AuthDb) : Z * AuthDb :=
  let due := first_rows (unclaimed_result now) (fun f => default 0 (g_token_expires_at f)) locked batch db in
  (Z.of_nat (length due), foldl withdraw_result db due).

(** The three deletions of what is over. *)
Definition purge_nonces (now : Time) (db : AuthDb) : AuthDb :=
  upd grant_nonces (filter (fun kv : Uuid * GrantNonceRow => ~ gn_expires_at (snd kv) <= now)) db.

Definition purge_rates (now : Time) (db : AuthDb) : AuthDb :=
  upd grant_rates (filter (fun kv : (string * string) * (Time * Z) =>
    ~ fst (snd kv) <= now - seconds 120)) db.

Definition purge_requests (config : GrantConfig) (now : Time) (db : AuthDb) : AuthDb :=
  upd grant_requests (filter (fun kv : Uuid * (string * string * Time) =>
    ~ snd (snd kv) <= now - seconds (gc_terminal_retention_seconds config))) db.

Definition purgeable (config : GrantConfig) (now : Time) (f : FlowRow) : bool :=
  match g_terminal_at f with
  | Some at_ => at_ <=? now - seconds (gc_terminal_retention_seconds config)
  | None => false
  end.

(** A purged flow takes its nonces with it. *)
Definition purge_flow (db : AuthDb) (due : Uuid * FlowRow) : AuthDb :=
  upd grant_nonces (filter (fun kv : Uuid * GrantNonceRow => gn_flow_id (snd kv) <> fst due))
    (upd grant_flows (delete (fst due)) db).

Definition purge_flows (config : GrantConfig) (now : Time) (db : AuthDb) : Z * AuthDb :=
  let due := first_rows (purgeable config now) (fun f => default 0 (g_terminal_at f)) (fun _ => false)
               (gc_reaper_batch_size config) db in
  (Z.of_nat (length due), foldl purge_flow db due).

(** [reap_once]. *)
Definition reap_once (runtime : option GrantRuntime) (now : Time) (db : AuthDb) : Z * AuthDb :=
  match runtime with
  | None => (0, db)
  | Some runtime =>
      let config := gr_config runtime in
      let batch := gc_reaper_batch_size config in
      let free := fun _ => false in
      let '(n1, db) := reap_expired free batch now db in
      let '(n2, db) := reap_stale false free batch now db in
      let '(n3, db) := reap_stale true free batch now db in
      let '(n4, db) := reap_results free batch now db in
      let db := purge_requests config now (purge_rates now (purge_nonces now db)) in
      let '(n5, db) := purge_flows config now db in
      (n1 + n2 + n3 + n4 + n5, db)
  end.
End Runtime.
