(* ===== verification/Webhooks.v ===== *)
(** * The seller event feed and signed webhooks ([automation.rs])

    A seller registers endpoints; a worker pass enqueues each endpoint's new
    events behind a sequence cursor, leases what is due, posts it signed, and
    records the outcome with a bounded exponential backoff.  Addresses are
    vetted before every post.  The receiver's side of the signature is part of
    the code.  Sending is a parameter, and so are URL parsing and name lookup. *)

From stdpp Require Import sorting pretty.
From S2P Require Import Prelude Domain Json Seal Text Store LocksKeys Fx Inventory Grants.

(** ** Addresses *)

Inductive IpAddr := V4 (a b c d : Z) | V6 (octets : list Z).

(** The predicates of [std::net::Ipv4Addr]. *)
Definition v4_private (a b : Z) : bool :=
  (a =? 10) || ((a =? 172) && between 16 b 31) || ((a =? 192) && (b =? 168)).
Definition v4_documentation (a b c : Z) : bool :=
  ((a =? 192) && (b =? 0) && (c =? 2)) || ((a =? 198) && (b =? 51) && (c =? 100)) ||
  ((a =? 203) && (b =? 0) && (c =? 113)).

Definition public_v4 (a b c d : Z) : bool :=
  let cgnat := (a =? 100) && between 64 b 127 in
  let ietf_protocol := (a =? 192) && (b =? 0) && (c =? 0) in
  let deprecated_6to4_anycast := (a =? 192) && (b =? 88) && (c =? 99) in
  let benchmarking := (a =? 198) && between 18 b 19 in
  let class_e := 240 <=? a in
  negb (v4_private a b || (a =? 127) || ((a =? 169) && (b =? 254)) ||
        ((a =? 255) && (b =? 255) && (c =? 255) && (d =? 255)) || v4_documentation a b c ||
        ((a =? 0) && (b =? 0) && (c =? 0) && (d =? 0)) || between 224 a 239 ||
        cgnat || ietf_protocol || deprecated_6to4_anycast || benchmarking || class_e || (a =? 0) ||
        ((a =? 169) && (b =? 254) && (c =? 169) && (d =? 254))).

(** The octets begin with these. *)
Fixpoint starts (prefix octets : list Z) : bool :=
  match prefix, octets with
  | [], _ => true
  | p :: ps, o :: os => (p =? o) && starts ps os
  | _, [] => false
  end.

Definition octet (octets : list Z) (i : nat) : Z := nth i octets 0.

Definition public_ip (ip : IpAddr) : bool :=
  match ip with
  | V4 a b c d => public_v4 a b c d
  | V6 o =>
      if starts (repeat 0 10 ++ [255; 255]) o
      then public_v4 (octet o 12) (octet o 13) (octet o 14) (octet o 15)
      else if starts (repeat 0 12) o then false
      else
        let documentation := starts [32; 1; 13; 184] o in
        let documentation_3fff :=
          (octet o 0 =? 63) && (octet o 1 =? 255) && (Z.land (octet o 2) 240 =? 0) in
        let six_to_four := starts [32; 2] o in
        let teredo := starts [32; 1; 0; 0] o in
        let v6_benchmarking := starts [32; 1; 0; 2; 0; 0] o in
        let orchid := starts [32; 1; 0] o && (Z.land (octet o 3) 240 =? 16) in
        let orchid_v2 := starts [32; 1; 0] o && (Z.land (octet o 3) 240 =? 32) in
        let nat64 := starts [0; 100; 255; 155] o in
        let discard := starts [1; 0; 0; 0; 0; 0; 0; 0] o in
        let dummy_v6 := starts [1; 0; 0; 0; 0; 0; 0; 1] o in
        let srv6_sids := starts [95; 0] o in
        negb (starts (repeat 0 15 ++ [1]) o || starts (repeat 0 16) o || (octet o 0 =? 255) ||
              (Z.land (octet o 0) 254 =? 252) ||
              ((octet o 0 =? 254) && (Z.land (octet o 1) 192 =? 128)) ||
              documentation || documentation_3fff || six_to_four || teredo || v6_benchmarking ||
              orchid || orchid_v2 || nat64 || discard || dummy_v6 || srv6_sids)
  end.

(** The address to connect to, on port 443. *)
Definition validate_resolved_addresses (addresses : list IpAddr) : option IpAddr :=
  if existsb (fun ip => negb (public_ip ip)) addresses then None else head addresses.

(** ** What the crates do *)

Inductive Host := HDomain (name : string) | HIp (ip : IpAddr).

(** The parts of [url::Url] the code reads. *)
Record Url := mkUrl {
  u_scheme : string;
  u_username : string;
  u_password : option string;
  u_fragment : option string;
  u_port_or_known_default : option Z;
  u_host : option Host;
  u_text : string;
}.

Class WebhookCrates := {
  parse_url : string -> option Url;
  ip_text : IpAddr -> string;
  hex_encode : string -> string;
}.

(** ** The store *)

(** A visible row of [events], with the seller its joins find. *)
Record WebhookEvent := mkWebhookEvent {
  wv_id : Uuid;
  wv_seller : option Pubky;
  wv_aggregate_id : string;
  wv_revision : Z;
  wv_kind : string;
  wv_occurred_at : Time;
}.

Record EndpointRow := mkEndpoint {
  we_seller : Pubky;
  we_url : string;
  we_key_id : Uuid;
  we_signing_key : string;
  we_enqueue_sequence : Z;
  (** Nothing is minus infinity. *)
  we_enqueue_checked_at : option Time;
  we_created_at : Time;
  we_updated_at : Time;
  we_deleted_at : option Time;
}.

Definition eta_endpoint (e : EndpointRow) : EndpointRow :=
  mkEndpoint (we_seller e) (we_url e) (we_key_id e) (we_signing_key e) (we_enqueue_sequence e)
    (we_enqueue_checked_at e) (we_created_at e) (we_updated_at e) (we_deleted_at e).

#[export] Hint Extern 1 (@Updater EndpointRow _ ?p) => updater_from eta_endpoint p
  : typeclass_instances.

Record DeliveryRow := mkDelivery {
  dl_key_id : Uuid;
  dl_signing_key : string;
  dl_body : Json;
  dl_attempt_count : Z;
  dl_next_attempt_at : Time;
  dl_lease_until : option Time;
  dl_delivered_at : option Time;
  dl_dead_lettered_at : option Time;
  dl_last_status : option Z;
  dl_created_at : Time;
}.

Definition eta_delivery (d : DeliveryRow) : DeliveryRow :=
  mkDelivery (dl_key_id d) (dl_signing_key d) (dl_body d) (dl_attempt_count d) (dl_next_attempt_at d)
    (dl_lease_until d) (dl_delivered_at d) (dl_dead_lettered_at d) (dl_last_status d) (dl_created_at d).

#[export] Hint Extern 1 (@Updater DeliveryRow _ ?p) => updater_from eta_delivery p
  : typeclass_instances.

Record WebhookDb := mkWebhookDb {
  wh_endpoints : gmap Uuid EndpointRow;
  (** By endpoint and event. *)
  wh_deliveries : gmap (Uuid * Uuid) DeliveryRow;
  (** Attempts, last status and instant. *)
  wh_dead_letters : gmap (Uuid * Uuid) (Z * option Z * Time);
  (** By sequence: the events other transactions have committed. *)
  wh_events : gmap Z WebhookEvent;
  wh_draws : N;
}.

Definition eta_webhook_db (d : WebhookDb) : WebhookDb :=
  mkWebhookDb (wh_endpoints d) (wh_deliveries d) (wh_dead_letters d) (wh_events d) (wh_draws d).

#[export] Hint Extern 1 (@Updater WebhookDb _ ?p) => updater_from eta_webhook_db p
  : typeclass_instances.

Definition empty_webhook_db : WebhookDb := mkWebhookDb ∅ ∅ ∅ ∅ 0.

Record WebhookConfig := mkWebhookConfig {
  wc_event_retention_days : Z;
  wc_lease_seconds : Z;
  wc_max_attempts : Z;
  wc_max_age_hours : Z;
  wc_enqueue_batch_size : Z;
  wc_enqueue_endpoints_per_pass : Z;
  wc_max_pending_per_seller : Z;
  wc_max_endpoints_per_seller : Z;
  wc_terminal_retention_days : Z;
  wc_purge_batch_size : Z;
  wc_retry_base_seconds : Z;
  wc_retry_max_seconds : Z;
}.

Definition undelivered (d : DeliveryRow) : bool :=
  bool_decide (dl_delivered_at d = None) && bool_decide (dl_dead_lettered_at d = None).

Definition endpoint_live (e : EndpointRow) : bool := bool_decide (we_deleted_at e = None).

Definition DEFAULT_PAGE_SIZE : Z := 50.
Definition MAX_PAGE_SIZE : Z := 200.
Definition WEBHOOK_BODY_LIMIT : Z := 64 * 1024.
Definition DELIVERY_BATCH_SIZE : nat := 50.

Definition automation_error (status : Z) (code message : string) : HttpResponse :=
  mkHttpResponse status
    (JObject [("ok", JBool false); ("error", JObject [("code", JString code); ("message", JString message)])])
    None.

Definition days (n : Z) : Z := seconds (86400 * n).
Definition hours_span (n : Z) : Z := seconds (3600 * n).

(** ** Cursors *)

(** [i64::from_be_bytes] of eight bytes. *)
Definition be_i64 (s : string) : Z := fold_left (fun n b => 256 * n + b) (bytes s) 0.

Definition quote_mark : string := String (Ascii.ascii_of_nat 34) "".

Section Automation.
Context `{UC : !UuidCrate, JT : !JsonText, LC : !LocksCrates, IC : !InventoryCrates, AC : !AuthCrates,
          WC : !WebhookCrates}.

Definition encode_cursor (sequence : Z) : string := b64_encode (be_bytes 8 (Z.to_N (sequence mod 2 ^ 64))).

Definition decode_cursor (cursor : string) : option Z :=
  raw ← b64_decode cursor;
  if byte_len raw =? 8 then
    let value := wrap64 (be_i64 raw) in if 0 <=? value then Some value else None
  else None.

Record PageQuery := mkPageQuery { pq_limit : option Z; pq_cursor : option string }.

Definition page_limit (query : PageQuery) : option Z :=
  let limit := default DEFAULT_PAGE_SIZE (pq_limit query) in
  if between 1 limit MAX_PAGE_SIZE then Some limit else None.

(** No cursor, a sequence, or a malformed cursor ([None] inside). *)
Definition page_sequence (query : PageQuery) : option (option Z) := decode_cursor <$> pq_cursor query.

Definition etag (body : Json) : string := quote_mark +:+ hex_encode (sha256 (to_vec body)) +:+ quote_mark.

(** The answer and its [ETag]. *)
Definition conditional_json (if_none_match : option string) (body : Json) : HttpResponse * option string :=
  if bool_decide (if_none_match = Some (etag body)) then (mkHttpResponse 304 JNull None, None)
  else (mkHttpResponse 200 body None, Some (etag body)).

(** ** The event feed *)

Definition event_value (seller : Pubky) (sequence : Z) (row : WebhookEvent) : Json :=
  JObject [("schema_version", JInt 1); ("id", JString (uuid_text (wv_id row)));
           ("cursor", JString (encode_cursor sequence)); ("sequence", JInt sequence);
           ("seller_pubky", JString seller); ("aggregate_id", JString (wv_aggregate_id row));
           ("revision", JInt (wv_revision row)); ("type", JString (wv_kind row));
           ("occurred_at", JString (format_timestamp (wv_occurred_at row))); ("data", JObject [])].

Definition by_sequence (a b : Z * WebhookEvent) : Prop := fst a <= fst b.

#[export] Instance by_sequence_dec : RelDecision by_sequence.
Proof. intros a b. unfold by_sequence. apply _. Defined.

Definition of_seller (seller : Pubky) (row : WebhookEvent) : bool := bool_decide (wv_seller row = Some seller).

(** The seller's events after a sequence that are not older than the cutoff. *)
Definition event_due (seller : Pubky) (after : Z) (cutoff : Time) (row : Z * WebhookEvent) : bool :=
  of_seller seller (snd row) && (after <? fst row) && (cutoff <=? wv_occurred_at (snd row)).

Definition seller_events (seller : Pubky) (after : Z) (cutoff : Time) (db : WebhookDb)
    : list (Z * WebhookEvent) :=
  merge_sort by_sequence (List.filter (event_due seller after cutoff) (map_to_list (wh_events db))).

(** [SELECT MIN(e.sequence)]. *)
Definition first_sequence (seller : Pubky) (cutoff : Time) (db : WebhookDb) : option Z :=
  fst <$> head (seller_events seller (i64_min - 1) cutoff db).

(** A cursor must name an event of the seller that is still retained. *)
Definition check_cursor (seller : Pubky) (after : Z) (cutoff : Time) (db : WebhookDb)
    : option HttpResponse :=
  if after <=? 0 then None
  else
    let cursor_time :=
      wv_occurred_at <$> keep (of_seller seller) (wh_events db !! after) in
    let gone :=
      match cursor_time with
      | Some occurred_at => occurred_at <? cutoff
      | None =>
          match first_sequence seller cutoff db with
          | Some minimum => after <? Z.max i64_min (minimum - 1)
          | None => false
          end
      end in
    if gone then Some (automation_error 410 "cursor_expired" "The cursor has expired; perform a full pull.")
    else if bool_decide (cursor_time = None)
    then Some (automation_error 422 "invalid_cursor" "The cursor was not issued for this seller.")
    else None.

Definition event_feed (seller : Pubky) (events : list (Z * WebhookEvent)) (next_cursor : option string) : Json :=
  JObject [("schema_version", JInt 1); ("kind", JString "seller_event_feed"); ("seller_pubky", JString seller);
           ("events", JArray (map (fun '(sequence, row) => event_value seller sequence row) events));
           ("next_cursor", opt_string next_cursor)].

(** A page of the feed and where the next one starts. *)
Definition event_page (seller : Pubky) (after limit : Z) (cutoff : Time) (db : WebhookDb)
    : list (Z * WebhookEvent) * option Z :=
  let rows := take (Z.to_nat (limit + 1)) (seller_events seller after cutoff db) in
  let more := limit <? Z.of_nat (length rows) in
  let page := take (Z.to_nat limit) rows in
  (page, if more then fst <$> list.last page else None).

Definition list_seller_events (config : WebhookConfig) (actor seller : Pubky) (query : PageQuery)
    (if_none_match : option string) (now : Time) (db : WebhookDb) : HttpResponse * option string :=
  if negb (actor =? seller)%string
  then (automation_error 403 "seller_required" "Seller access is required.", None)
  else
    match page_limit query, page_sequence query with
    | None, _ => (automation_error 422 "invalid_limit" "The page limit is invalid.", None)
    | Some _, Some None => (automation_error 422 "invalid_cursor" "The cursor is invalid.", None)
    | Some limit, sequence =>
        let after := match sequence with Some (Some value) => value | _ => 0 end in
        let cutoff := now - days (wc_event_retention_days config) in
        match check_cursor seller after cutoff db with
        | Some response => (response, None)
        | None =>
            let '(page, next) := event_page seller after limit cutoff db in
            conditional_json if_none_match (event_feed seller page (encode_cursor <$> next))
        end
    end.

(** ** Endpoints *)

Definition INVALID_URL : string := "The webhook URL is invalid.".
Definition HTTPS_ONLY : string :=
  "Webhook URLs must use HTTPS on port 443 without credentials or fragments.".
Definition PUBLIC_ONLY : string := "Webhook URLs cannot use a private or special IP address.".

Definition validate_webhook_url (raw : string) : Url + string :=
  match parse_url raw with
  | None => inr INVALID_URL
  | Some url =>
      if negb (u_scheme url =? "https")%string || negb (u_username url =? "")%string ||
         bool_decide (is_Some (u_password url)) || bool_decide (is_Some (u_fragment url)) ||
         negb (bool_decide (u_port_or_known_default url = Some 443)) || negb (bool_decide (is_Some (u_host url)))
      then inr HTTPS_ONLY
      else
        match u_host url with
        | Some (HIp ip) => if public_ip ip then inl url else inr PUBLIC_ONLY
        | _ => inl url
        end
  end.

(** A secret, the id of its key, and the key itself. *)
Definition new_signing_material (draw : N) : string * Uuid * string :=
  let secret := random32 draw in (b64_encode secret, new_v4 (N.succ draw), sha256 secret).

Definition max_sequence (db : WebhookDb) : option Z :=
  match map fst (map_to_list (wh_events db)) with
  | [] => None
  | s :: rest => Some (fold_left Z.max rest s)
  end.

Definition endpoints_of (seller : Pubky) (db : WebhookDb) : Z :=
  Z.of_nat (length (List.filter (fun e => (we_seller e =? seller)%string && endpoint_live e)
    (map snd (map_to_list (wh_endpoints db))))).

(** The active-owner-and-url index. *)
Definition endpoint_taken (seller url : string) (db : WebhookDb) : bool :=
  table_any (fun e => (we_seller e =? seller)%string && (we_url e =? url)%string && endpoint_live e) (wh_endpoints db).

(** The constraints of [webhook_endpoints]. *)
Definition endpoint_check (e : EndpointRow) : bool :=
  (chars_count (we_seller e) =? 52) && between 12 (byte_len (we_url e)) 2048 &&
  (byte_len (we_signing_key e) =? 32) && (0 <=? we_enqueue_sequence e).

Definition automation_internal : HttpResponse :=
  automation_error 500 "internal" "The request could not be completed.".

Definition new_endpoint (seller url : string) (key_id : Uuid) (signing_key : string) (sequence : Z)
    (now : Time) : EndpointRow :=
  mkEndpoint seller url key_id signing_key sequence None now now None.

Definition add_webhook (config : WebhookConfig) (actor : Pubky) (raw_url : string) (now : Time)
    (db : WebhookDb) : HttpResponse * WebhookDb :=
  match validate_webhook_url raw_url with
  | inr message => (automation_error 422 "invalid_webhook_url" message, db)
  | inl parsed =>
      let url := u_text parsed in
      let draw := wh_draws db in
      let '(secret, key_id, signing_key) := new_signing_material draw in
      let id := new_v4 (draw + 2)%N in
      let db := upd wh_draws (N.add 3) db in
      if wc_max_endpoints_per_seller config <=? endpoints_of actor db
      then (automation_error 429 "webhook_endpoint_limit" "The seller webhook endpoint limit was reached.", db)
      else
        let row := new_endpoint actor url key_id signing_key (default 0 (max_sequence db)) now in
        if negb (endpoint_check row) then (automation_internal, db)
        else if bool_decide (is_Some (wh_endpoints db !! id)) || endpoint_taken actor url db
        then (automation_error 409 "webhook_exists" "That webhook endpoint already exists.", db)
        else
          (mkHttpResponse 201
             (JObject [("schema_version", JInt 1);
                       ("webhook", JObject [("id", JString (uuid_text id)); ("url", JString url);
                                            ("key_id", JString (uuid_text key_id));
                                            ("created_at", JString (format_timestamp now))]);
                       ("secret", JString secret)]) None,
           upd wh_endpoints (<[id := row]>) db)
  end.

Definition webhook_not_found : HttpResponse :=
  automation_error 404 "not_found" "The webhook was not found.".

(** The actor's live endpoint of this id. *)
Definition owned_endpoint (actor : Pubky) (id : Uuid) (db : WebhookDb) : option EndpointRow :=
  keep (fun e => (we_seller e =? actor)%string && endpoint_live e) (wh_endpoints db !! id).

Definition rotate_webhook (actor : Pubky) (id : Uuid) (now : Time) (db : WebhookDb)
    : HttpResponse * WebhookDb :=
  let '(secret, key_id, signing_key) := new_signing_material (wh_draws db) in
  let db := upd wh_draws (N.add 2) db in
  match owned_endpoint actor id db with
  | None => (webhook_not_found, db)
  | Some e =>
      (mkHttpResponse 200
         (JObject [("schema_version", JInt 1); ("id", JString (uuid_text id));
                   ("key_id", JString (uuid_text key_id)); ("secret", JString secret)]) None,
       upd wh_endpoints (<[id := e <| we_key_id := key_id |> <| we_signing_key := signing_key |>
                                   <| we_updated_at := now |>]>) db)
  end.

(** What was pending for a deleted endpoint. *)
Definition abandon (id : Uuid) (now : Time) (key : Uuid * Uuid) (d : DeliveryRow) : DeliveryRow :=
  if (fst key =? id)%N && undelivered d
  then d <| dl_dead_lettered_at := Some now |> <| dl_lease_until := None |> else d.

Definition delete_webhook (actor : Pubky) (id : Uuid) (now : Time) (db : WebhookDb)
    : HttpResponse * WebhookDb :=
  match owned_endpoint actor id db with
  | None => (webhook_not_found, db)
  | Some e =>
      (mkHttpResponse 204 JNull None,
       upd wh_deliveries (map_imap (fun key d => Some (abandon id now key d)))
         (upd wh_endpoints (<[id := e <| we_deleted_at := Some now |> <| we_updated_at := now |>]>) db))
  end.

(** ** Enqueueing *)

Definition pending_of (seller : Pubky) (db : WebhookDb) : Z :=
  Z.of_nat (length (List.filter (fun kv : (Uuid * Uuid) * DeliveryRow =>
      undelivered (snd kv) &&
      match wh_endpoints db !! fst (fst kv) with
      | Some e => (we_seller e =? seller)%string
      | None => false
      end) (map_to_list (wh_deliveries db)))).

(** [INSERT .. ON CONFLICT DO NOTHING]. *)
Definition insert_delivery (endpoint_id : Uuid) (e : EndpointRow) (now : Time) (db : WebhookDb)
    (row : Z * WebhookEvent) : WebhookDb :=
  let key := (endpoint_id, wv_id (snd row)) in
  match wh_deliveries db !! key with
  | Some _ => db
  | None =>
      upd wh_deliveries (<[key := mkDelivery (we_key_id e) (we_signing_key e)
        (event_value (we_seller e) (fst row) (snd row)) 0 now None None None None now]>) db
  end.

(** The rows an endpoint takes in one pass, and the cursor after them. *)
Definition enqueue_rows (config : WebhookConfig) (e : EndpointRow) (now : Time) (db : WebhookDb)
    : list (Z * WebhookEvent) * Z :=
  let room := Z.max i64_min (wc_max_pending_per_seller config - pending_of (we_seller e) db) in
  let limit := Z.min room (wc_enqueue_batch_size config) in
  let cursor := we_enqueue_sequence e in
  if room <=? 0 then ([], cursor)
  else
    let rows := take (Z.to_nat limit)
      (seller_events (we_seller e) cursor (now - days (wc_event_retention_days config)) db) in
    (rows,
     if Z.of_nat (length rows) =? limit then default cursor (fst <$> list.last rows)
     else Z.max (default cursor (max_sequence db)) cursor).

(** One endpoint's transaction. *)
Definition enqueue_endpoint (config : WebhookConfig) (now : Time) (db : WebhookDb) (id : Uuid) : WebhookDb :=
  match keep endpoint_live (wh_endpoints db !! id) with
  | None => db
  | Some e =>
      let '(rows, next_cursor) := enqueue_rows config e now db in
      upd wh_endpoints (<[id := e <| we_enqueue_sequence := next_cursor |>
                                  <| we_enqueue_checked_at := Some now |>]>)
        (foldl (insert_delivery id e now) db rows)
  end.

(** Longest unchecked first. *)
Definition checked_first (a b : Uuid * EndpointRow) : Prop :=
  match we_enqueue_checked_at (snd a), we_enqueue_checked_at (snd b) with
  | None, None => (fst a <= fst b)%N
  | None, Some _ => True
  | Some _, None => False
  | Some x, Some y => x < y \/ (x = y /\ (fst a <= fst b)%N)
  end.

#[export] Instance checked_first_dec : RelDecision checked_first.
Proof.
  intros a b. unfold checked_first.
  destruct (we_enqueue_checked_at (snd a)), (we_enqueue_checked_at (snd b)); apply _.
Defined.

Definition enqueue_webhook_deliveries (config : WebhookConfig) (now : Time) (db : WebhookDb) : WebhookDb :=
  let ids := map fst (take (Z.to_nat (wc_enqueue_endpoints_per_pass config))
    (merge_sort checked_first (List.filter (fun kv => endpoint_live (snd kv)) (map_to_list (wh_endpoints db))))) in
  foldl (enqueue_endpoint config now) db ids.

(** ** Delivering *)

Record Delivery := mkDeliveryRead {
  dv_endpoint_id : Uuid;
  dv_event_id : Uuid;
  dv_endpoint_url : string;
  dv_key_id : Uuid;
  dv_signing_key : string;
  dv_body : Json;
  dv_attempt_count : Z;
  dv_created_at : Time;
}.

Record SignedWebhookRequest := mkSigned {
  sg_raw : string;
  sg_timestamp : string;
  sg_event_id : string;
  sg_key_id : string;
  sg_signature : string;
}.

Definition webhook_signature (signing_key timestamp : string) (event_id : Uuid) (raw : string) : string :=
  hex_encode (hmac_sha256 signing_key ("v1." +:+ timestamp +:+ "." +:+ uuid_text event_id +:+ "." +:+ raw)).

Definition signed_webhook_request (d : Delivery) (now : Time) : SignedWebhookRequest :=
  let raw := to_vec (dv_body d) in
  let timestamp := pretty (now / seconds 1) in
  mkSigned raw timestamp (uuid_text (dv_event_id d)) (uuid_text (dv_key_id d))
    ("v1=" +:+ webhook_signature (dv_signing_key d) timestamp (dv_event_id d) raw).

(** The response body, chunk by chunk; nothing when the connection fails. *)
Fixpoint drain_body (received : Z) (chunks : list (option Z)) : bool :=
  match chunks with
  | [] => true
  | None :: _ => false
  | Some len :: rest => if WEBHOOK_BODY_LIMIT <? received + len then false else drain_body (received + len) rest
  end.

Definition host_name (host : Host) : string := match host with HDomain name => name | HIp ip => ip_text ip end.

(** [deliver]: the status of the answer, given name lookup and the network. *)
Definition deliver (lookup_host : string -> option (list IpAddr))
    (post : Url -> IpAddr -> SignedWebhookRequest -> option (Z * list (option Z)))
    (d : Delivery) (now : Time) : option Z :=
  match validate_webhook_url (dv_endpoint_url d) with
  | inr _ => None
  | inl url =>
      host ← u_host url;
      addresses ← lookup_host (host_name host);
      pinned ← validate_resolved_addresses addresses;
      answer ← post url pinned (signed_webhook_request d now);
      if drain_body 0 (snd answer) then Some (fst answer) else None
  end.

(** The pending row of a delivery. *)
Definition update_pending (key : Uuid * Uuid) (change : DeliveryRow -> DeliveryRow) (db : WebhookDb) : WebhookDb :=
  match keep undelivered (wh_deliveries db !! key) with
  | Some row => upd wh_deliveries (<[key := change row]>) db
  | None => db
  end.

Definition attempted (attempt : Z) (status : option Z) (row : DeliveryRow) : DeliveryRow :=
  row <| dl_attempt_count := attempt |> <| dl_last_status := status |> <| dl_lease_until := None |>.

Definition webhook_backoff (config : WebhookConfig) (attempt : Z) : Z :=
  Z.min (saturating_mul (wc_retry_base_seconds config) (2 ^ Z.max 0 (Z.min (attempt - 1) 20)))
    (wc_retry_max_seconds config).

(** [persist_delivery_outcome]: whether the delivery is over. *)
Definition persist_delivery_outcome (config : WebhookConfig) (d : Delivery) (now : Time)
    (status : option Z) (db : WebhookDb) : bool * WebhookDb :=
  let key := (dv_endpoint_id d, dv_event_id d) in
  let attempt := dv_attempt_count d + 1 in
  if match status with Some s => between 200 s 299 | None => false end
  then (true, update_pending key (fun row => (attempted attempt status row) <| dl_delivered_at := Some now |>) db)
  else if (wc_max_attempts config <=? attempt) || (hours_span (wc_max_age_hours config) <=? now - dv_created_at d)
  then
    let db := update_pending key
      (fun row => (attempted attempt status row) <| dl_dead_lettered_at := Some now |>) db in
    (true,
     match wh_dead_letters db !! key with
     | Some _ => db
     | None => upd wh_dead_letters (<[key := (attempt, status, now)]>) db
     end)
  else
    (false, update_pending key
       (fun row => (attempted attempt status row)
          <| dl_next_attempt_at := now + seconds (webhook_backoff config attempt) |>) db).

(** ** A pass of the worker *)

Definition due_first (a b : (Uuid * Uuid) * DeliveryRow) : Prop :=
  dl_next_attempt_at (snd a) < dl_next_attempt_at (snd b) \/
  (dl_next_attempt_at (snd a) = dl_next_attempt_at (snd b) /\
   ((fst (fst a) < fst (fst b))%N \/ (fst (fst a) = fst (fst b) /\ (snd (fst a) <= snd (fst b))%N))).

#[export] Instance due_first_dec : RelDecision due_first.
Proof. intros a b. unfold due_first. apply _. Defined.

Definition delivery_due (now : Time) (d : DeliveryRow) : bool :=
  undelivered d && (dl_next_attempt_at d <=? now) &&
  match dl_lease_until d with None => true | Some until => until <=? now end.

Definition read_delivery (key : Uuid * Uuid) (e : EndpointRow) (d : DeliveryRow) : Delivery :=
  mkDeliveryRead (fst key) (snd key) (we_url e) (dl_key_id d) (dl_signing_key d) (dl_body d)
    (dl_attempt_count d) (dl_created_at d).

(** The lease statement: the rows taken, and the store with their leases. *)
Definition lease_deliveries (config : WebhookConfig) (now : Time) (db : WebhookDb) : list Delivery * WebhookDb :=
  let due := take DELIVERY_BATCH_SIZE
    (merge_sort due_first (List.filter (fun kv => delivery_due now (snd kv)) (map_to_list (wh_deliveries db)))) in
  let taken := omap (fun kv : (Uuid * Uuid) * DeliveryRow =>
    (fun e => (fst kv, e, snd kv)) <$> keep endpoint_live (wh_endpoints db !! fst (fst kv))) due in
  (map (fun '(key, e, d) => read_delivery key e d) taken,
   foldl (fun db '(key, _, d) =>
     upd wh_deliveries (<[key := d <| dl_lease_until := Some (now + seconds (wc_lease_seconds config)) |>]>) db)
     db taken).

(** One delivery's transaction, when its endpoint is still there. *)
Definition attempt_delivery (config : WebhookConfig) (send : Delivery -> option Z) (now : Time)
    (acc : Z * WebhookDb) (d : Delivery) : Z * WebhookDb :=
  let '(terminal, db) := acc in
  match keep endpoint_live (wh_endpoints db !! dv_endpoint_id d) with
  | None => (terminal, db)
  | Some _ =>
      let '(over, db) := persist_delivery_outcome config d now (send d) db in
      ((if over then terminal + 1 else terminal), db)
  end.

Definition ends_first {V} (ended_at : V -> option Time) (a b : (Uuid * Uuid) * V) : Prop :=
  default 0 (ended_at (snd a)) <= default 0 (ended_at (snd b)).

#[export] Instance ends_first_dec {V} (ended_at : V -> option Time) : RelDecision (ends_first ended_at).
Proof. intros a b. unfold ends_first. apply _. Defined.

(** Rows that ended before the cutoff, the oldest first. *)
Definition purge_oldest {V} (ended_at : V -> option Time) (cutoff : Time) (batch : Z)
    (m : gmap (Uuid * Uuid) V) : gmap (Uuid * Uuid) V :=
  foldl (fun m kv => delete (fst kv) m) m
    (take (Z.to_nat batch) (merge_sort (ends_first ended_at)
       (List.filter (fun kv => match ended_at (snd kv) with Some t => t <? cutoff | None => false end)
          (map_to_list m)))).

Definition delivery_ended (d : DeliveryRow) : option Time :=
  match dl_delivered_at d with Some t => Some t | None => dl_dead_lettered_at d end.

Definition purge_terminal_webhooks (config : WebhookConfig) (now : Time) (db : WebhookDb) : WebhookDb :=
  let cutoff := now - days (wc_terminal_retention_days config) in
  upd wh_deliveries (purge_oldest delivery_ended cutoff (wc_purge_batch_size config))
    (upd wh_dead_letters (purge_oldest (fun '(_, _, at_) => Some at_) cutoff (wc_purge_batch_size config)) db).

Definition run_webhook_pass (config : WebhookConfig) (send : Delivery -> option Z) (now : Time)
    (db : WebhookDb) : Z * WebhookDb :=
  let db := enqueue_webhook_deliveries config now (purge_terminal_webhooks config now db) in
  let '(deliveries, db) := lease_deliveries config now db in
  foldl (attempt_delivery config send now) (0, db) deliveries.

(** ** The receiver *)

Record VerifiedWebhook := mkVerifiedWebhook {
  vw_event_id : Uuid;
  vw_key_id : Uuid;
  vw_payload_sha256 : string;
}.

Inductive WebhookVerifyError := WMalformed | WStale | WWrongKey | WInvalidSignature.

Record WebhookVerifyInput := mkVerifyInput {
  vi_secret : string;
  vi_expected_key_id : Uuid;
  vi_event_id : string;
  vi_timestamp : string;
  vi_key_id : string;
  vi_signature : string;
  vi_raw : string;
  vi_receiver_now : Time;
  vi_max_skew_seconds : Z;
}.

(** [checked_sub] of two [i64]: too far apart counts as stale. *)
Definition skewed (timestamp receiver max_skew : Z) : bool :=
  negb (between i64_min (timestamp - receiver) i64_max) || (Z.max max_skew 0 <? Z.abs (timestamp - receiver)).

Definition supplied_signature (signature : string) : option string :=
  keep (fun hex => (byte_len hex =? 64) && bytes_all is_hexdigit hex) (strip_prefix "v1=" signature).

Definition verify_webhook (input : WebhookVerifyInput) : VerifiedWebhook + WebhookVerifyError :=
  match parse_uuid (vi_event_id input), parse_uuid (vi_key_id input) with
  | Some event_id, Some key_id =>
      if negb (key_id =? vi_expected_key_id input)%N then inr WWrongKey
      else
        match parse_i64 (vi_timestamp input) with
        | None => inr WMalformed
        | Some timestamp =>
            if skewed timestamp (vi_receiver_now input / seconds 1) (vi_max_skew_seconds input) then inr WStale
            else
              match supplied_signature (vi_signature input) with
              | None => inr WMalformed
              | Some supplied =>
                  let expected := webhook_signature (sha256 (vi_secret input)) (vi_timestamp input) event_id
                                    (vi_raw input) in
                  if negb (expected =? supplied)%string then inr WInvalidSignature
                  else inl (mkVerifiedWebhook event_id key_id (hex_encode (sha256 (vi_raw input))))
              end
        end
  | _, _ => inr WMalformed
  end.

Inductive WebhookReplayDecision := WApply | AlreadyApplied | QuarantineChangedPayload.

Definition classify_webhook_replay (stored : option string) (received : string) : WebhookReplayDecision :=
  match stored with
  | None => WApply
  | Some stored => if (stored =? received)%string then AlreadyApplied else QuarantineChangedPayload
  end.
End Automation.
