(* ===== verification/Samples.v ===== *)
(** * A sample deployment

    Concrete rows, commands and configuration on which the theorems of the
    library are instantiated and its executable definitions are run. *)

From stdpp Require Import pretty.
From Stdlib.Strings Require Import Byte.
From S2P Require Import Prelude Domain Text Seal Pubky LocksKeys EventStream AwardTerms Digital Json Store Commands Actions Drops Payment Auction Executor LockResource.

(** UUIDs printed in decimal, drawn in sequence from 1000. *)
Definition sample_crate : UuidCrate := {|
  uuid_text := pretty;
  uuid_text_inj := fun a b e => inj (pretty : N -> string) a b e;
  new_v4 := fun n => (1000 + n)%N;
|}.

(** JSON texts are not read by the samples. *)
#[export] Instance sample_json : JsonText := {|
  to_vec := fun _ => "{}";
  from_slice := fun _ => Some JNull;
  parse_datetime := fun _ => Some 0;
|}.

#[export] Existing Instance bit_crate.

(** A hash that sums the bytes into the last of 32; keys spelled with or
    without their prefix. *)
Definition sample_hash (s : string) : list byte :=
  repeat x00 31 ++ [default x00 (Byte.of_nat (Z.to_nat (sum_list (bytes s)) mod 256))].

Lemma sample_minted_ascii (n : N) : ascii_only "reference" = true.
Proof. reflexivity. Qed.

Definition sample_locks_crates : LocksCrates := {|
  blake3_hash := sample_hash;
  to_hex := fun l => pretty (sum_list (map (fun b => Z.of_N (Byte.to_N b)) l));
  hmac_sha256 := fun key message => key +:+ message;
  minted := fun _ => "reference";
  minted_ascii := sample_minted_ascii;
  public_key := fun s =>
    let key := default s (strip_prefix "pubky" s) in
    if Pubky.is_valid_pubky key then Some ("pubky" +:+ key) else None;
  canonicalize := fun _ => Some "{}";
  parse_from_rfc3339 := fun _ => Some (mkOffsetTime 0 0 0);
  clock_text := fun _ => "1970-01-01T00:00:00";
  rfc3339_seconds := fun _ => "1970-01-01T00:00:00+00:00";
  offset_text := fun _ => "+00:00";
|}.

Definition alice : Pubky := "alice".
Definition bob : Pubky := "bob".
Definition carol : Pubky := "carol".
Definition sally : Pubky := "sally".

(** Keys in their z-base-32 form. *)
Definition seller_key : Pubky := "oyyyyyyyyyyyyyyyyyyyyyyyyyyyyyyyyyyyyyyyyyyyyyyyyyyy".
Definition buyer_key : Pubky := "yyyyyyyyyyyyyyyyyyyyyyyyyyyyyyyyyyyyyyyyyyyyyyyyyyyy".

(** A fixed-price listing with these units available, reserved and sold. *)
Definition listing_of (seller : Pubky) (listing_id : string) (state : ListingState)
    (available reserved sold : Z) : ListingRow :=
  mkListing (listing_aggregate_id seller listing_id) seller listing_id "Item" 1 "hash" 1 state
    (available + reserved + sold) available reserved sold 500 "USD" 2 100 FixedPrice None
    [Shipping; Pickup] None None 0 None None None None None 0 None 1 None.

Definition sample_listing : string -> ListingState -> Z -> Z -> Z -> ListingRow :=
  listing_of sally.

Definition sample_line (listing_id : string) (quantity : Z) : OrderLine :=
  mkLine (listing_aggregate_id sally listing_id) 1 "hash" "Item" quantity (mkMoney 500 "USD" 2)
    (mkMoney (500 * quantity) "USD" 2) (Some Shipping) None None None None.

(** A shipping order of [buyer] with these lines, at revision 1. *)
Definition sample_order (id payment_id : Uuid) (buyer : Pubky) (lines : list OrderLine)
    : OrderRow :=
  let subtotal := 500 * sum_list (map ln_quantity lines) in
  new_for_insert id None None buyer sally lines None subtotal 100 (subtotal + 100) "USD" 2 1
    payment_id false None Shipping 0 "listing".

Definition sample_payment (id order_id : Uuid) (buyer : Pubky) (total : Z) : PaymentRow :=
  new_payment id order_id buyer sally total "USD" 2 (Some total) 0.

Definition sample_command (id : Uuid) (aggregate_id : string) (revision : Z)
    (payload : CommandPayload) : Command :=
  mkCommand id aggregate_id revision 0 payload.

Definition sample_keys : ConfirmKeys := mkConfirmKeys None None.

Definition sample_state : AppState :=
  mkAppState true 900 900 900 600 1000000 None None sample_keys None.

(** The one-row orders table. *)
Definition with_order (o : OrderRow) (db : Db) : Db := db <| orders := {[ o_id o := o ]} |>.
Definition with_listing (l : ListingRow) (db : Db) : Db :=
  db <| listings := {[ l_aggregate_id l := l ]} |>.
Definition with_payment (p : PaymentRow) (db : Db) : Db := db <| payments := {[ p_id p := p ]} |>.

(** ** A Locks deployment *)

(** Sealing writes the associated data before the plaintext. *)
Definition sample_seals : SealKeys :=
  mkSealKeys (fun _ aad plaintext => aad +:+ plaintext) (fun aad sealed => strip_prefix aad sealed).

#[export] Instance sample_seals_laws : SealLaws sample_seals.
Proof. intros n aad plaintext. apply strip_prefix_app. Qed.

Definition sample_locks : LocksRuntime :=
  mkLocksRuntime (mkLocksKeys sample_seals "hmac") (fun _ _ => LookupStatus TaskCompleted).

Definition lock_resource : string :=
  seller_key +:+ "/pub/locks.app/" +:+ crockford_encode (sample_hash "{}") +:+ ".json".

(** The seller's document: five dollars to the seller unlock it. *)
Definition lock_document : Json :=
  JObject [("version", JInt 1); ("creator", JString seller_key);
    ("criteria", JArray [JObject [("criterion_id", JString "c1");
       ("verifier_type", JString "paykit-payment");
       ("params", JObject [("recipient_pubky", JString seller_key); ("amount", JString "500");
                           ("asset", JString "USD")])]]);
    ("lock_logic", JObject [("type", JString "all"); ("criteria", JArray [JString "c1"])]);
    ("access_policy", JObject [("requested_credential_ttl_seconds", JInt 60)]);
    ("lock_server", JObject [("override", JNull)]);
    ("created_at", JString "1970-01-01T00:00:00Z")].

Definition sample_homeserver : HomeserverListingClient :=
  mkHomeserver (fun _ _ => FetchNotFound) (fun _ _ _ _ _ => EvUnavailable) (fun _ _ => FetchNotFound)
    (fun _ _ => RawUnavailable) (fun _ _ _ _ => DeliverableUnavailable) (fun _ _ => FetchFound lock_document).

Definition locks_state : AppState :=
  mkAppState true 900 900 900 600 1000000 (Some sample_locks) (Some sample_homeserver) sample_keys
    None.

Definition lock_shelf : Db :=
  with_listing ((listing_of seller_key "a" LAvailable 3 0 0)
    <| l_digital_lock_policy_uri := Some lock_resource |>
    <| l_digital_lock_criterion_id := Some "c1" |>) empty_db.

(** Thirty-two bytes. *)
Definition pad32 (s : string) : string := String.substring 0 32 (s +:+ "--------------------------------").

(** A number in binary. *)
Fixpoint bits_text (p : positive) : string :=
  match p with xH => "" | xO p => "0" +:+ bits_text p | xI p => "1" +:+ bits_text p end.

Fixpoint bits_read (s : string) : positive :=
  match s with
  | EmptyString => xH
  | String c s => if byte_of c =? 48 then xO (bits_read s) else xI (bits_read s)
  end.

Lemma bits_read_text p : bits_read (bits_text p) = p.
Proof.
  induction p as [p IH|p IH|]; [|..|done].
  - change (xI (bits_read (bits_text p)) = xI p). by rewrite IH.
  - change (xO (bits_read (bits_text p)) = xO p). by rewrite IH.
Qed.
