(* ===== verification/Leases.v ===== *)
(** * Worker leases ([workers.rs])

    Every background task runs under a lease row: one instance holds a task
    until the lease ends, another takes it over afterwards.  The fence grows
    with every acquisition, so a pass can tell whether the row is still the
    one it took. *)

From S2P Require Import Prelude Domain Store Commands Actions Samples.

Definition lease_until_of (now : Time) (lease_seconds : Z) : Time := now + seconds lease_seconds.

(** [INSERT .. ON CONFLICT (task) DO UPDATE .. WHERE lease_until <= now OR
    holder = EXCLUDED.holder RETURNING fence]. *)
Definition try_acquire_fenced_lease (task : string) (holder : Uuid) (now : Time)
    (lease_seconds : Z) : H (option Z) :=
  let* row := select worker_leases task in
  match row with
  | None =>
      do* write worker_leases always task (mkLease holder (lease_until_of now lease_seconds) 1) in
      ret (Some 1)
  | Some l =>
      if (wl_lease_until l <=? now) || N.eqb (wl_holder l) holder then
        do* write worker_leases always task
              (mkLease holder (lease_until_of now lease_seconds) (wl_fence l + 1)) in
        ret (Some (wl_fence l + 1))
      else ret None
  end.

Definition try_acquire_lease (task : string) (holder : Uuid) (now : Time) (lease_seconds : Z)
    : H bool :=
  let* fence := try_acquire_fenced_lease task holder now lease_seconds in
  ret (bool_decide (is_Some fence)).

Definition release_lease (task : string) (holder : Uuid) (now : Time) : H unit :=
  let* _ := update_where worker_leases always task (fun l => N.eqb (wl_holder l) holder)
              (fun l => mkLease (wl_holder l) now (wl_fence l)) in
  ret tt.

Definition release_fenced_lease (task : string) (holder : Uuid) (fence : Z) (now : Time)
    : H unit :=
  let* _ := update_where worker_leases always task
              (fun l => N.eqb (wl_holder l) holder && (wl_fence l =? fence))
              (fun l => mkLease (wl_holder l) (Z.min (wl_lease_until l) now) (wl_fence l)) in
  ret tt.

(** ** Runs of lease operations *)

Inductive LeaseOp :=
| Acquire (holder : Uuid) (now : Time) (lease_seconds : Z)
| Release (holder : Uuid) (now : Time)
| ReleaseFenced (holder : Uuid) (fence : Z) (now : Time).

Definition op_holder (op : LeaseOp) : Uuid :=
  match op with Acquire h _ _ | Release h _ | ReleaseFenced h _ _ => h end.

Definition op_now (op : LeaseOp) : Time :=
  match op with Acquire _ t _ | Release _ t | ReleaseFenced _ _ t => t end.

(** One operation: the fence it was granted. *)
Definition lease_op (task : string) (op : LeaseOp) : H (option Z) :=
  match op with
  | Acquire holder now lease_seconds => try_acquire_fenced_lease task holder now lease_seconds
  | Release holder now => do* release_lease task holder now in ret None
  | ReleaseFenced holder fence now => do* release_fenced_lease task holder fence now in ret None
  end.

(** What an operation makes of the row. *)
Definition lease_after (op : LeaseOp) (row : option LeaseRow) : option Z * option LeaseRow :=
  match op, row with
  | Acquire h t s, None => (Some 1, Some (mkLease h (lease_until_of t s) 1))
  | Acquire h t s, Some l =>
      if (wl_lease_until l <=? t) || N.eqb (wl_holder l) h
      then (Some (wl_fence l + 1), Some (mkLease h (lease_until_of t s) (wl_fence l + 1)))
      else (None, Some l)
  | Release h t, Some l =>
      (None, Some (if N.eqb (wl_holder l) h then mkLease (wl_holder l) t (wl_fence l) else l))
  | ReleaseFenced h f t, Some l =>
      (None, Some (if N.eqb (wl_holder l) h && (wl_fence l =? f)
                   then mkLease (wl_holder l) (Z.min (wl_lease_until l) t) (wl_fence l) else l))
  | _, None => (None, None)
  end.

Lemma lease_op_Done task op db :
  exists db', lease_op task op db = Done (fst (lease_after op (worker_leases db !! task))) db' /\
    worker_leases db' !! task = snd (lease_after op (worker_leases db !! task)).
Proof.
  destruct op as [h t s|h t|h f t]; simpl;
    unfold try_acquire_fenced_lease, release_lease, release_fenced_lease, update_where, bind, select,
      gets, write, always, ret, modify;
    destruct (worker_leases db !! task) as [l|] eqn:Hl; simpl;
    repeat match goal with |- context [if ?b then _ else _] => destruct b; simpl end;
    eexists; (split; [reflexivity|]); first [assumption|exact (lookup_insert_eq _ _ _)|congruence].
Qed.

Fixpoint lease_run (task : string) (ops : list LeaseOp) : H (list (option Z)) :=
  match ops with
  | [] => ret []
  | op :: rest =>
      let* granted := lease_op task op in
      let* more := lease_run task rest in
      ret (granted :: more)
  end.

(** Another instance inside the lease changes nothing. *)
Lemma lease_after_other op l :
  op_holder op <> wl_holder l -> op_now op < wl_lease_until l ->
  lease_after op (Some l) = (None, Some l).
Proof.
  destruct op as [h t s|h t|h f t]; simpl; intros Hh Ht;
    rewrite (proj2 (N.eqb_neq _ _)) by congruence; simpl; try done.
  by rewrite (proj2 (Z.leb_gt _ _)) by lia.
Qed.

Lemma lease_run_other task ops l db :
  worker_leases db !! task = Some l ->
  Forall (fun op => op_holder op <> wl_holder l /\ op_now op < wl_lease_until l) ops ->
  exists db', lease_run task ops db = Done (map (fun _ => None) ops) db' /\
    worker_leases db' !! task = Some l.
Proof.
  revert db. induction ops as [|op ops IH]; intros db Hl Hops; [by exists db|].
  inversion Hops as [|? ? [Hh Ht] Hrest]; subst.
  destruct (lease_op_Done task op db) as (db1 & E & Hl1).
  rewrite Hl, (lease_after_other _ _ Hh Ht) in *. simpl in *.
  destruct (IH db1 Hl1 Hrest) as (db2 & E2 & Hl2). exists db2. split; [|done].
  unfold bind. by rewrite E, E2.
Qed.

(** The fence of the row never shrinks. *)
Lemma lease_run_fence task ops db grants db' l :
  lease_run task ops db = Done grants db' -> worker_leases db !! task = Some l ->
  exists l', worker_leases db' !! task = Some l' /\ wl_fence l <= wl_fence l' /\
    forall f, In (Some f) grants -> wl_fence l < f <= wl_fence l'.
Proof.
  revert db grants l. induction ops as [|op ops IH]; intros db grants l E Hl.
  { injection E as <- <-. exists l. split; [done|]. split; [lia|]. intros f []. }
  cbn [lease_run] in E. apply bind_Done in E as (g & db1 & E1 & E).
  apply bind_Done in E as (more & db2 & E2 & E). injection E as <- <-.
  destruct (lease_op_Done task op db) as (db1' & E1' & Hl1).
  rewrite E1 in E1'. injection E1' as -> <-. rewrite Hl in Hl1.
  assert (Hone : exists l1, snd (lease_after op (Some l)) = Some l1 /\ wl_fence l <= wl_fence l1 /\
    forall f, fst (lease_after op (Some l)) = Some f -> wl_fence l < f <= wl_fence l1).
  { destruct op as [h t s|h t|h f t]; simpl; repeat case_match; simpl;
      eexists; (split; [reflexivity|]); simpl; (split; [lia|]); intros ? [= <-]; lia. }
  destruct Hone as (l1 & Hs & Hle & Hf). rewrite Hs in Hl1.
  destruct (IH _ _ _ E2 Hl1) as (l2 & Hl2 & Hle2 & Hf2). exists l2. split; [done|].
  split; [lia|]. intros f [Hg|Hin]; [rewrite Hl in Hg; specialize (Hf f Hg); lia|].
  specialize (Hf2 f Hin). lia.
Qed.

(** C26. A lease is exclusive and takeovers are visible: after an instance was
    granted a task, whatever other instances try before its lease ends is
    refused and leaves the lease alone; once it has ended the next request is
    granted; and every later grant has a larger fence, so a release with the
    old fence then does nothing. *)
Theorem lease_exclusive task holder now lease_seconds fence db db1 :
  try_acquire_fenced_lease task holder now lease_seconds db = Done (Some fence) db1 ->
  (forall ops, Forall (fun op => op_holder op <> holder /\ op_now op < now + seconds lease_seconds) ops ->
     exists db2, lease_run task ops db1 = Done (map (fun _ => None) ops) db2 /\
       worker_leases db2 !! task = Some (mkLease holder (now + seconds lease_seconds) fence)) /\
  (forall other later s, now + seconds lease_seconds <= later ->
     exists db2, try_acquire_fenced_lease task other later s db1 = Done (Some (fence + 1)) db2) /\
  (forall ops grants db2 f, lease_run task ops db1 = Done grants db2 -> In (Some f) grants ->
     fence < f /\ forall t db3, release_fenced_lease task holder fence t db2 = Done tt db3 ->
       worker_leases db3 !! task = worker_leases db2 !! task).
Proof.
  intros E.
  assert (Hrow : worker_leases db1 !! task = Some (mkLease holder (now + seconds lease_seconds) fence)).
  { destruct (lease_op_Done task (Acquire holder now lease_seconds) db) as (db1' & E' & Hl).
    simpl in E'. rewrite E in E'. injection E' as Hf <-. rewrite Hl. clear Hl E. revert Hf.
    destruct (worker_leases db !! task) as [l|]; simpl; [|by intros [= ->]].
    destruct (_ || _); simpl; [by intros [= ->]|discriminate]. }
  split; [|split].
  - intros ops Hops. exact (lease_run_other task ops _ db1 Hrow Hops).
  - intros other later s Hle.
    destruct (lease_op_Done task (Acquire other later s) db1) as (db2 & E2 & _). exists db2.
    simpl in E2. rewrite E2, Hrow. simpl. by rewrite (proj2 (Z.leb_le _ _) Hle).
  - intros ops grants db2 f Er Hin.
    destruct (lease_run_fence task ops db1 grants db2 _ Er Hrow) as (l' & Hl' & _ & Hf).
    specialize (Hf f Hin). simpl in Hf. split; [lia|]. intros t db3 E3.
    destruct (lease_op_Done task (ReleaseFenced holder fence t) db2) as (db3' & E3' & Hl3).
    simpl in E3'. unfold bind in E3'. rewrite E3 in E3'. injection E3' as _ <-.
    rewrite Hl3, Hl'. simpl. rewrite (proj2 (Z.eqb_neq (wl_fence l') fence)) by lia.
    by rewrite andb_false_r.
Qed.

Lemma lease_exclusive_witness :
  exists db1, try_acquire_fenced_lease "outbox" 1 100 30 empty_db = Done (Some 1) db1 /\
    (exists db2, try_acquire_fenced_lease "outbox" 2 (100 + seconds 30) 30 db1 = Done (Some 2) db2) /\
    exists db2, lease_run "outbox" [Acquire 2 101 30; Release 2 102] db1 = Done [None; None] db2 /\
      worker_leases db2 !! "outbox" = Some (mkLease 1 (100 + seconds 30) 1).
Proof.
  eexists. split; [reflexivity|].
  pose proof (lease_exclusive "outbox" 1 100 30 1 empty_db _ eq_refl) as (Hex & Hnext & _).
  split; [apply (Hnext 2%N (100 + seconds 30) 30); lia|].
  apply Hex. repeat constructor; simpl; vm_compute; congruence.
Defined.
