(* ===== verification/Outbox.v ===== *)
(** * The outbox ([workers.rs], [handlers/mod.rs])

    Handlers write notification intents in their own transaction; a worker
    claims a batch of them under a lease and delivers each in a transaction of
    its own.  A row that can never be delivered is set aside, so it does not
    stall the rows behind it.  This is the pass of a deployment without the
    Paykit client, which skips the Paykit rows.  Claimed rows are delivered in
    the order of their ids, which the statement does not promise. *)

From S2P Require Import Prelude Domain Json Text Store Commands Actions Samples.

Definition SYSTEM_ACTOR : string := "system".
Definition OUTBOX_BATCH_SIZE : nat := 100.

(** ** Intents *)

Definition notice_str (n : BitcoinReviewNotice) : string :=
  match n with
  | LateSettlement => "late_settlement"
  | AmountMismatch => "amount_mismatch"
  | ConfirmationFailed => "confirmation_failed"
  | SellerConfirmationWindowElapsed => "seller_confirmation_window_elapsed"
  | SellerResponseOverdue => "seller_response_overdue"
  end.

Definition ALL_NOTICES : list BitcoinReviewNotice :=
  [LateSettlement; AmountMismatch; ConfirmationFailed; SellerConfirmationWindowElapsed;
   SellerResponseOverdue].

(** [BitcoinReviewNotice::parse]. *)
Definition parse_notice (value : string) : option BitcoinReviewNotice :=
  find (fun n => notice_str n =? value)%string ALL_NOTICES.

Definition quarantine_str (q : OutboxQuarantine) : string :=
  match q with
  | UnroutableKind => "unroutable_kind"
  | MissingRecipientPubky => "missing_recipient_pubky"
  | MissingActorPubky => "missing_actor_pubky"
  | MissingAggregateId => "missing_aggregate_id"
  end.

Record Intent := mkIntent {
  in_notification_type : string;
  in_recipient : string;
  in_actor : string;
  in_aggregate_id : string;
  in_amount : option Json;
  in_review_reason : option string;
}.

Definition money_json (m : Money) : Json :=
  JObject [("amount_minor", JInt (amount_minor m)); ("currency", JString (currency m));
           ("exponent", JInt (exponent m))].

(** [row.payload[name]], null when absent. *)
Definition index (payload : Json) (name : string) : Json := default JNull (get name payload).

Definition non_null (v : Json) : option Json := match v with JNull => None | _ => Some v end.

(** [notification_intent]. *)
Definition notification_intent (kind : string) (payload : Json) : Intent + OutboxQuarantine :=
  let text name := keep (fun s => negb (s =? "")%string) (as_str (index payload name)) in
  let? notification_type :=
    ok_or (keep (fun k => negb (k =? "")%string) (strip_prefix "notification." kind))
      UnroutableKind in
  let? recipient := ok_or (text "recipient_pubky") MissingRecipientPubky in
  let? actor := ok_or (text "actor_pubky") MissingActorPubky in
  let? aggregate_id := ok_or (text "aggregate_id") MissingAggregateId in
  let review_reason := notice_str <$> (as_str (index payload "review_reason") ≫= parse_notice) in
  inl (mkIntent notification_type recipient actor aggregate_id
         (non_null (index payload "amount")) review_reason).

Section Outbox.
Context `{!UuidCrate}.

(** The document of the column: what the handlers write, or any other. *)
Definition payload_json (row : OutboxRow) : Json :=
  match ob_payload row with
  | NotificationIntent recipient actor aggregate_id amount =>
      JObject ([("event_id", JString (uuid_text (ob_event_id row)));
                ("recipient_pubky", JString recipient); ("actor_pubky", JString actor);
                ("aggregate_id", JString aggregate_id)] ++
               match amount with Some m => [("amount", money_json m)] | None => [] end)
  | BitcoinReviewIntent recipient aggregate_id reason =>
      JObject [("event_id", JString (uuid_text (ob_event_id row)));
               ("recipient_pubky", JString recipient); ("actor_pubky", JString SYSTEM_ACTOR);
               ("aggregate_id", JString aggregate_id);
               ("review_reason", JString (notice_str reason))]
  | PaykitVoid invoice_id order_id stack_id stack_endpoint reason =>
      JObject [("invoice_id", JString (uuid_text invoice_id));
               ("order_id", JString (uuid_text order_id)); ("stack_id", JString stack_id);
               ("stack_endpoint", JString stack_endpoint); ("reason", JString reason)]
  | PaykitActivate order_id invoice_id stack_id total_sats stack_endpoint activation_attempt =>
      JObject [("invoice_id", JString (uuid_text invoice_id)); ("order_id", JString (uuid_text order_id));
               ("stack_id", JString stack_id); ("total_sats", JInt total_sats);
               ("stack_endpoint", JString stack_endpoint); ("activation_attempt", JInt activation_attempt)]
  | StoredPayload document => document
  end.

(** [insert_bitcoin_manual_review_intent]. *)
Definition insert_bitcoin_manual_review_intent (event_id : Uuid) (seller_pubky : Pubky)
    (order_id : Uuid) (reason : BitcoinReviewNotice) (now : Time) : H unit :=
  enqueue event_id "notification.bitcoin_manual_review"
    (BitcoinReviewIntent seller_pubky (order_aggregate_id order_id) reason) now.

(** ** Claims *)

Definition pending (row : OutboxRow) : bool :=
  bool_decide (ob_delivered_at row = None) && bool_decide (ob_quarantine row = None).

Definition claimable (now : Time) (row : OutboxRow) : bool :=
  pending row && match ob_lease_until row with None => true | Some until => until <=? now end.

(** The first [limit] claimable rows, leased; [base] is the id of the first
    row of the list. *)
Fixpoint claim_rows (now until : Time) (limit base : nat) (l : list OutboxRow)
    : list OutboxRow * list (nat * OutboxRow) :=
  match l, limit with
  | row :: rest, S limit' =>
      if claimable now row then
        let row' := row <| ob_lease_until := Some until |> in
        let '(rest', claimed) := claim_rows now until limit' (S base) rest in
        (row' :: rest', (base, row') :: claimed)
      else
        let '(rest', claimed) := claim_rows now until limit (S base) rest in
        (row :: rest', claimed)
  | _, _ => (l, [])
  end.

Definition claim_outbox_batch (now : Time) (lease_seconds : Z) : H (list (nat * OutboxRow)) :=
  let* rows := gets outbox in
  let '(rows', claimed) := claim_rows now (now + seconds lease_seconds) OUTBOX_BATCH_SIZE 0 rows in
  do* modify (upd outbox (fun _ => rows')) in
  ret claimed.

(** ** Delivery *)

Definition set_row (id : nat) (f : OutboxRow -> OutboxRow) : H unit :=
  modify (upd outbox (alter f id)).

(** [quarantine_outbox_row]. *)
Definition quarantine_outbox_row (id : nat) (reason : OutboxQuarantine) (now : Time) : H unit :=
  set_row id (fun row =>
    if bool_decide (ob_delivered_at row = None)
    then row <| ob_quarantine := Some (now, reason) |> <| ob_lease_until := None |>
    else row).

(** [notifications_review_reason_check] of migration 0048. *)
Definition notification_check (n : NotificationRow) : bool :=
  match nt_review_reason n with
  | None => true
  | Some reason =>
      existsb (String.eqb reason)
        ["late_settlement"; "amount_mismatch"; "confirmation_failed";
         "seller_confirmation_window_elapsed"; "seller_response_overdue"]
  end.

(** [INSERT INTO notifications .. ON CONFLICT DO NOTHING], with the delivery
    mark in the same transaction. *)
Definition deliver_notification (id : nat) (event_id : Uuid) (intent : Intent) (now : Time)
    : H unit :=
  let* notification_id := fresh_uuid in
  let key := (event_id, in_recipient intent) in
  let* existing := select notifications key in
  do* (match existing with
       | Some _ => ret tt
       | None => write notifications notification_check key
                   (mkNotification notification_id (in_actor intent) (in_notification_type intent)
                      (in_aggregate_id intent) (in_amount intent) (in_review_reason intent) now)
       end) in
  set_row id (fun row => row <| ob_delivered_at := Some now |>).

Definition is_paykit (row : OutboxRow) : bool :=
  (ob_kind row =? "paykit.activate")%string || (ob_kind row =? "paykit.void")%string.

(** One claimed row: whether it was delivered. *)
Definition deliver_row (now : Time) (claimed : nat * OutboxRow) : H bool :=
  let '(id, row) := claimed in
  if is_paykit row then ret false
  else
    match notification_intent (ob_kind row) (payload_json row) with
    | inr reason => do* quarantine_outbox_row id reason now in ret false
    | inl intent => do* deliver_notification id (ob_event_id row) intent now in ret true
    end.

#[local] Arguments deliver_row : simpl never.

Definition deliver_claimed (rows : list (nat * OutboxRow)) (now : Time) : H nat :=
  let* delivered := map_each rows (deliver_row now) in
  ret (length (List.filter (fun b => b) delivered)).

Definition drain_outbox (now : Time) (lease_seconds : Z) : H nat :=
  let* claimed := claim_outbox_batch now lease_seconds in
  deliver_claimed claimed now.

(** ** What a pass does *)

(** The row after it was claimed and processed: a Paykit row only keeps the
    lease. *)
Definition settled (now until : Time) (row : OutboxRow) : OutboxRow :=
  let row := row <| ob_lease_until := Some until |> in
  if is_paykit row then row
  else
    match notification_intent (ob_kind row) (payload_json row) with
    | inr reason => row <| ob_quarantine := Some (now, reason) |> <| ob_lease_until := None |>
    | inl _ => row <| ob_delivered_at := Some now |>
    end.

(** The first [limit] claimable rows settle. *)
Fixpoint settle (now until : Time) (limit : nat) (l : list OutboxRow) : list OutboxRow :=
  match l, limit with
  | row :: rest, S limit' =>
      if claimable now row then settled now until row :: settle now until limit' rest
      else row :: settle now until limit rest
  | _, _ => l
  end.

(** The notifications that wait, and the Paykit rows among them. *)
Definition backlog (l : list OutboxRow) : nat :=
  length (List.filter (fun row => pending row && negb (is_paykit row)) l).

Definition paykit_rows (l : list OutboxRow) : nat :=
  length (List.filter (fun row => pending row && is_paykit row) l).

(** The notification of a row is in the table. *)
Definition notified (db : Db) (row : OutboxRow) : Prop :=
  match notification_intent (ob_kind row) (payload_json row) with
  | inl intent => is_Some (notifications db !! (ob_event_id row, in_recipient intent))
  | inr _ => True
  end.

(** The notification is what the row asks for. *)
Definition written_by (row : OutboxRow) (key : Uuid * string) (n : NotificationRow) : Prop :=
  exists intent, notification_intent (ob_kind row) (payload_json row) = inl intent /\
    key = (ob_event_id row, in_recipient intent) /\
    nt_actor_pubky n = in_actor intent /\ nt_type n = in_notification_type intent /\
    nt_aggregate_id n = in_aggregate_id intent /\ nt_amount n = in_amount intent /\
    nt_review_reason n = in_review_reason intent.

(** Notifications are only added, each as a row of [l] asks. *)
Definition adds_notifications (l : list OutboxRow) (db db' : Db) : Prop :=
  notifications db ⊆ notifications db' /\
  forall key n, notifications db' !! key = Some n ->
    notifications db !! key = Some n \/ Exists (fun row => written_by row key n) l.

Lemma adds_nothing l db db' : notifications db' = notifications db -> adds_notifications l db db'.
Proof. intros E. split; rewrite E; auto. Qed.

Lemma adds_trans l db db1 db' :
  adds_notifications l db db1 -> adds_notifications l db1 db' -> adds_notifications l db db'.
Proof.
  intros [H1 H2] [H3 H4]. split; [by etransitivity|]. intros key n Hn.
  destruct (H4 key n Hn); auto.
Qed.

Lemma adds_weaken l l' db db' :
  (forall key n, Exists (fun row => written_by row key n) l -> Exists (fun row => written_by row key n) l') ->
  adds_notifications l db db' -> adds_notifications l' db db'.
Proof. intros Hl [H1 H2]. split; [done|]. intros key n Hn. destruct (H2 key n Hn); auto. Qed.

Lemma notified_later db db' row :
  notifications db ⊆ notifications db' -> notified db row -> notified db' row.
Proof.
  intros Hs. unfold notified. destruct (notification_intent _ _); [|done]. intros [n Hn]. exists n.
  by eapply lookup_weaken.
Qed.

Lemma lookup_alter_app {A} (f : A -> A) (pre : list A) x l :
  alter f (length pre) (pre ++ x :: l) = pre ++ f x :: l.
Proof. induction pre as [|y pre IH]; [done|]. cbn. by f_equal. Qed.

(** The table never refuses the reason of an intent. *)
Lemma intent_checked kind payload intent id now :
  notification_intent kind payload = inl intent ->
  notification_check (mkNotification id (in_actor intent) (in_notification_type intent)
    (in_aggregate_id intent) (in_amount intent) (in_review_reason intent) now) = true.
Proof.
  unfold notification_intent, notification_check.
  do 4 (destruct (ok_or _ _); [simpl|discriminate]). intros [= <-]. simpl.
  by destruct (as_str (index payload "review_reason") ≫= parse_notice) as [[]|].
Qed.

(** One claimed row, in its place. *)
Lemma deliver_row_settles now until pre row rest db :
  pending row = true ->
  let row' := row <| ob_lease_until := Some until |> in
  outbox db = pre ++ row' :: rest ->
  exists b db', deliver_row now (length pre, row') db = Done b db' /\
    outbox db' = pre ++ settled now until row :: rest /\
    adds_notifications [row] db db' /\ (is_paykit row = false -> notified db' row).
Proof.
  intros Hp row' Ho. apply andb_true_iff in Hp as [Hd Hq]. apply bool_decide_eq_true in Hd.
  unfold deliver_row, settled. fold row'. change (is_paykit row') with (is_paykit row).
  destruct (is_paykit row).
  { exists false, db. split; [done|]. split; [exact Ho|]. split; [by apply adds_nothing|done]. }
  unfold notified. change (notification_intent (ob_kind row) (payload_json row))
    with (notification_intent (ob_kind row') (payload_json row')).
  destruct (notification_intent (ob_kind row') (payload_json row')) as [intent|reason] eqn:Ei.
  - unfold deliver_notification, fresh_uuid, set_row, bind, select, gets, modify, ret, write. simpl.
    destruct (notifications db !! (ob_event_id row, in_recipient intent)) as [n|] eqn:En; simpl.
    + do 2 eexists. split; [reflexivity|]. simpl. rewrite Ho, lookup_alter_app.
      split; [done|]. split; [by apply adds_nothing|]. rewrite En. by eexists.
    + rewrite (intent_checked _ _ _ _ _ Ei). do 2 eexists. split; [reflexivity|]. simpl.
      rewrite Ho, lookup_alter_app. split; [done|]. split; [|rewrite lookup_insert_eq; by eexists].
      split; [by apply insert_subseteq|]. intros key n. simpl.
      intros [[<- <-]|[_ Hk]]%lookup_insert_Some; [right|by left]. constructor. by exists intent.
  - unfold quarantine_outbox_row, set_row, bind, modify, ret. simpl.
    do 2 eexists. split; [reflexivity|]. simpl. rewrite Ho, lookup_alter_app.
    rewrite bool_decide_true by done. auto using adds_nothing.
Qed.

(** A batch settles its rows one after the other. *)
Lemma deliver_batch_settles now until limit pre l db :
  outbox db = pre ++ fst (claim_rows now until limit (length pre) l) ->
  exists bs db', map_each (snd (claim_rows now until limit (length pre) l)) (deliver_row now) db
      = Done bs db' /\
    outbox db' = pre ++ settle now until limit l /\ adds_notifications l db db' /\
    forall i row, l !! i = Some row -> is_paykit row = false ->
      settle now until limit l !! i <> Some row -> notified db' row.
Proof.
  revert limit pre db. induction l as [|row l IH]; intros limit pre db Ho.
  { exists [], db. destruct limit; simpl in *; (split; [done|]); (split; [exact Ho|]);
      (split; [by apply adds_nothing|done]). }
  destruct limit as [|limit].
  { exists [], db. simpl in *. split; [done|]. split; [done|]. split; [by apply adds_nothing|].
    intros i r Hi _ Hne. done. }
  assert (Hstep : forall limit' row' db1,
    outbox db1 = pre ++ row' :: fst (claim_rows now until limit' (S (length pre)) l) ->
    exists bs db', map_each (snd (claim_rows now until limit' (S (length pre)) l)) (deliver_row now) db1
        = Done bs db' /\
      outbox db' = pre ++ row' :: settle now until limit' l /\ adds_notifications (row :: l) db1 db' /\
      forall i r, l !! i = Some r -> is_paykit r = false ->
        settle now until limit' l !! i <> Some r -> notified db' r).
  { intros limit' row' db1 Ho1. assert (Hlen : S (length pre) = length (pre ++ [row']))
      by (rewrite length_app; simpl; lia).
    rewrite Hlen in *. destruct (IH limit' (pre ++ [row']) db1) as (bs & db' & E & Ho' & Hn & Hnt).
    - by rewrite Ho1, <- app_assoc.
    - exists bs, db'. split; [done|]. rewrite <- app_assoc in Ho'. split; [exact Ho'|]. split; [|exact Hnt].
      eapply adds_weaken; [|exact Hn]. intros. by right. }
  simpl in Ho |- *. destruct (claimable now row) eqn:Hc.
  - destruct (claim_rows now until limit (S (length pre)) l) as [rest' claimed] eqn:Ecl. simpl in *.
    assert (Hp : pending row = true) by (by apply andb_true_iff in Hc as [? _]).
    destruct (deliver_row_settles now until pre row rest' db Hp Ho) as (b & db1 & E1 & Ho1 & Hn1 & Hnt).
    destruct (Hstep limit (settled now until row) db1) as (bs & db' & E & Ho' & Hn' & Hnt'); [by rewrite Ecl|].
    rewrite Ecl in E. simpl in E. exists (b :: bs), db'. split; [unfold bind; by rewrite E1, E|].
    split; [done|]. split.
    + eapply adds_trans; [|exact Hn']. eapply adds_weaken; [|exact Hn1].
      intros key n Hex. apply Exists_cons in Hex as [?|Hex]; [by left|by apply Exists_nil in Hex].
    + intros [|i] r Hi Hk Hne; [|by eapply Hnt']. injection Hi as <-.
      eapply notified_later; [apply Hn'|auto].
  - destruct (claim_rows now until (S limit) (S (length pre)) l) as [rest' claimed] eqn:Ecl. simpl in *.
    destruct (Hstep (S limit) row db) as (bs & db' & E & Ho' & Hn' & Hnt'); [by rewrite Ecl|].
    rewrite Ecl in E. exists bs, db'. split; [done|]. split; [done|]. split; [done|].
    intros [|i] r Hi Hk Hne; [|by eapply Hnt']. injection Hi as <-. done.
Qed.

(** ** The queue drains *)

(** A row that is done with: delivered, or set aside with its reason. *)
Definition finished_row (row row' : OutboxRow) : Prop :=
  pending row' = false /\
  match notification_intent (ob_kind row) (payload_json row) with
  | inl _ => is_Some (ob_delivered_at row')
  | inr reason => exists at_, ob_quarantine row' = Some (at_, reason)
  end.

Lemma settled_finished now until row :
  is_paykit row = false -> finished_row row (settled now until row).
Proof.
  intros Hk. unfold finished_row, settled, pending.
  change (is_paykit (row <| ob_lease_until := Some until |>)) with (is_paykit row). rewrite Hk.
  change (notification_intent (ob_kind (row <| ob_lease_until := Some until |>))
            (payload_json (row <| ob_lease_until := Some until |>)))
    with (notification_intent (ob_kind row) (payload_json row)).
  destruct (notification_intent _ _); simpl.
  - split; [done|by eexists].
  - split; [apply andb_false_r|by eexists].
Qed.

(** What was asked for does not change. *)
Lemma settled_content now until row :
  is_paykit (settled now until row) = is_paykit row /\
  (forall key n, written_by (settled now until row) key n -> written_by row key n).
Proof.
  unfold settled. destruct (is_paykit (row <| ob_lease_until := Some until |>)) eqn:Hk.
  - split; [done|]. by intros.
  - destruct (notification_intent _ _); (split; [reflexivity|by intros]).
Qed.

Lemma settled_paykit now until row :
  is_paykit row = true -> settled now until row = row <| ob_lease_until := Some until |>.
Proof.
  intros Hk. unfold settled. change (is_paykit (row <| ob_lease_until := Some until |>)) with (is_paykit row).
  by rewrite Hk.
Qed.

Lemma settle_lookup now until limit l i row :
  l !! i = Some row ->
  settle now until limit l !! i = Some row \/
  (claimable now row = true /\ settle now until limit l !! i = Some (settled now until row)).
Proof.
  revert limit i. induction l as [|r l IH]; intros limit i Hi; [done|].
  destruct limit as [|limit]; [by left|]. simpl.
  destruct (claimable now r) eqn:Hp, i as [|i]; simpl in *; auto.
  injection Hi as <-. by right.
Qed.

Lemma settle_content now until limit l key n :
  Exists (fun row => written_by row key n) (settle now until limit l) ->
  Exists (fun row => written_by row key n) l.
Proof.
  revert limit. induction l as [|r l IH]; intros limit; [by destruct limit|].
  destruct limit as [|limit]; [done|]. simpl.
  destruct (claimable now r); intros [Hw|Hw]%Exists_cons; apply Exists_cons; eauto.
  left. by eapply settled_content.
Qed.

Lemma claimable_pending now row : claimable now row = true -> pending row = true.
Proof. by intros [? _]%andb_true_iff. Qed.

Lemma settle_paykit_rows now until limit l : paykit_rows (settle now until limit l) = paykit_rows l.
Proof.
  unfold paykit_rows. revert limit. induction l as [|r l IH]; intros limit; [by destruct limit|].
  destruct limit as [|limit]; [done|]. simpl. destruct (claimable now r) eqn:Hc; simpl.
  - destruct (is_paykit r) eqn:Hk.
    + rewrite settled_paykit by done. change (pending (r <| ob_lease_until := Some until |>)) with (pending r).
      change (is_paykit (r <| ob_lease_until := Some until |>)) with (is_paykit r). rewrite Hk.
      destruct (pending r); simpl; by rewrite IH.
    + destruct (settled_content now until r) as [-> _]. rewrite Hk, !andb_false_r. apply IH.
  - destruct (pending r && is_paykit r); simpl; by rewrite IH.
Qed.

Lemma settle_backlog now until limit l : (backlog (settle now until limit l) <= backlog l)%nat.
Proof.
  unfold backlog. revert limit. induction l as [|r l IH]; intros limit; [by destruct limit|].
  destruct limit as [|limit]; [done|]. simpl. destruct (claimable now r) eqn:Hc; simpl.
  - rewrite (claimable_pending _ _ Hc). destruct (settled_content now until r) as [-> _].
    destruct (is_paykit r) eqn:Hk; [rewrite andb_false_r; apply IH|].
    destruct (settled_finished now until r Hk) as [-> _]. simpl. specialize (IH limit). lia.
  - specialize (IH (S limit)). destruct (pending r && _); simpl; lia.
Qed.

(** A claimable notification that a pass leaves alone stood behind a full
    batch. *)
Lemma settle_behind now until limit l i row :
  l !! i = Some row -> claimable now row = true -> is_paykit row = false ->
  settle now until limit l !! i = Some row ->
  (backlog (settle now until limit l) + limit <= backlog l + paykit_rows l)%nat.
Proof.
  unfold backlog, paykit_rows. revert limit i. induction l as [|r l IH]; intros limit i Hi Hc Hk Hs; [done|].
  destruct limit as [|limit]; [simpl; lia|]. simpl in *. destruct (claimable now r) eqn:Hr; simpl in *.
  - destruct i as [|i]; simpl in *.
    { injection Hi as ->. injection Hs as Hs. destruct (settled_finished now until row Hk) as [Hf _].
      rewrite Hs, (claimable_pending _ _ Hc) in Hf. done. }
    specialize (IH limit i Hi Hc Hk Hs). rewrite (claimable_pending _ _ Hr).
    destruct (settled_content now until r) as [-> _]. destruct (is_paykit r) eqn:Hkr; simpl.
    + rewrite andb_false_r. lia.
    + destruct (settled_finished now until r Hkr) as [-> _]. simpl. lia.
  - destruct i as [|i]; simpl in *; [congruence|]. specialize (IH (S limit) i Hi Hc Hk Hs).
    destruct (pending r), (is_paykit r); simpl; lia.
Qed.

(** One pass. *)
Lemma drain_once now lease_seconds db :
  exists n db', drain_outbox now lease_seconds db = Done n db' /\
    outbox db' = settle now (now + seconds lease_seconds) OUTBOX_BATCH_SIZE (outbox db) /\
    adds_notifications (outbox db) db db' /\
    forall i row, outbox db !! i = Some row -> is_paykit row = false ->
      outbox db' !! i <> Some row -> notified db' row.
Proof.
  set (until := now + seconds lease_seconds).
  destruct (claim_rows now until OUTBOX_BATCH_SIZE 0 (outbox db)) as [rows claimed] eqn:Ecl.
  pose proof (deliver_batch_settles now until OUTBOX_BATCH_SIZE [] (outbox db)
    (upd outbox (fun _ => rows) db)) as Hb. simpl length in Hb. rewrite Ecl in Hb.
  destruct (Hb eq_refl) as (bs & db' & E & Ho & Hn & Hnt).
  exists (length (List.filter (fun b => b) bs)), db'.
  split; [|split; [exact Ho|split; [exact Hn|]]].
  - unfold drain_outbox, claim_outbox_batch, deliver_claimed. fold until.
    unfold bind at 1 2, gets. rewrite Ecl. unfold bind at 1, modify, ret at 1. simpl in E.
    unfold bind. by rewrite E.
  - intros i row Hi Hp Hne. apply (Hnt i row Hi Hp). simpl in Ho; by rewrite <- Ho.
Qed.

Definition drain_passes (times : list Time) (lease_seconds : Z) : H unit :=
  for_each times (fun now => let* _ := drain_outbox now lease_seconds in ret tt).

Fixpoint in_order (now : Time) (times : list Time) : Prop :=
  match times with [] => True | t :: rest => now <= t /\ in_order t rest end.

Definition capacity (l : list OutboxRow) (times : list Time) : nat :=
  (OUTBOX_BATCH_SIZE - paykit_rows l) * length times.

(** What the passes make of a row. *)
Definition drained (now : Time) (l : list OutboxRow) (times : list Time) (db' : Db) (row row' : OutboxRow)
    : Prop :=
  if pending row then
    if is_paykit row then exists until, row' = row <| ob_lease_until := until |>
    else finished_row row row' /\ notified db' row \/
         row' = row /\ (claimable now row = false \/ (capacity l times < backlog l)%nat)
  else row' = row.

Lemma claimable_later now now' row : now <= now' -> claimable now row = true -> claimable now' row = true.
Proof.
  intros Hle. unfold claimable. rewrite !andb_true_iff. intros [-> Hl]. split; [done|].
  destruct (ob_lease_until row); [|done]. rewrite Z.leb_le in *. lia.
Qed.

Lemma backlog_waiting l i row :
  l !! i = Some row -> pending row = true -> is_paykit row = false -> (0 < backlog l)%nat.
Proof.
  intros Hi Hp Hk. unfold backlog.
  assert (Hin : In row (List.filter (fun row => pending row && negb (is_paykit row)) l)).
  { apply filter_In. split; [by eapply list_elem_of_In, list_elem_of_lookup_2|by rewrite Hp, Hk]. }
  destruct (List.filter _ l); [done|]. simpl. lia.
Qed.

(** What a first pass and the passes after it make of a row. *)
Lemma drained_after now t until times l db1 db' row r1 row' i :
  now <= t -> l !! i = Some row -> notifications db1 ⊆ notifications db' ->
  settle t until OUTBOX_BATCH_SIZE l !! i = Some r1 ->
  (is_paykit row = false -> Some r1 <> Some row -> notified db1 row) ->
  drained t (settle t until OUTBOX_BATCH_SIZE l) times db' r1 row' ->
  drained now l (t :: times) db' row row'.
Proof.
  intros Hle Hi Hn Hs Hnt Hd. unfold drained in *.
  destruct (settle_lookup t until OUTBOX_BATCH_SIZE l i row Hi) as [Hsame|[Hc Hset]].
  - rewrite Hsame in Hs. injection Hs as <-. destruct (pending row) eqn:Hp; [|done].
    destruct (is_paykit row) eqn:Hk; [done|]. destruct Hd as [Hd|[-> Hd]]; [by left|right].
    split; [done|]. destruct (claimable now row) eqn:Hc; [right|by left].
    apply (claimable_later _ t) in Hc; [|done]. destruct Hd as [Hd|Hd]; [congruence|].
    pose proof (settle_behind t until OUTBOX_BATCH_SIZE l i row Hi Hc Hk Hsame) as Hb.
    pose proof (backlog_waiting l i row Hi Hp Hk) as Hpos. pose proof (settle_backlog t until OUTBOX_BATCH_SIZE l).
    unfold capacity in *. rewrite settle_paykit_rows in Hd. simpl length. lia.
  - rewrite Hset in Hs. injection Hs as <-. rewrite (claimable_pending _ _ Hc).
    destruct (settled_content t until row) as [Ek _]. rewrite Ek in Hd.
    destruct (is_paykit row) eqn:Hk.
    + rewrite settled_paykit in Hd by done.
      change (pending (row <| ob_lease_until := Some until |>)) with (pending row) in Hd.
      rewrite (claimable_pending _ _ Hc) in Hd. destruct Hd as [u ->]. by exists u.
    + left. destruct (settled_finished t until row Hk) as [Hnp Hf]. rewrite Hnp in Hd. subst row'.
      split; [by split|]. eapply notified_later; [exact Hn|]. apply Hnt; [done|].
      intros [= E]. rewrite E, (claimable_pending _ _ Hc) in Hnp. done.
Qed.

Lemma drain_all now db times lease_seconds :
  in_order now times ->
  exists db', drain_passes times lease_seconds db = Done tt db' /\
    adds_notifications (outbox db) db db' /\
    forall i row, outbox db !! i = Some row ->
      exists row', outbox db' !! i = Some row' /\ drained now (outbox db) times db' row row'.
Proof.
  revert now db. induction times as [|t times IH]; intros now db Ht.
  - exists db. split; [done|]. split; [by apply adds_nothing|]. intros i row Hi. exists row. split; [done|].
    unfold drained, capacity. destruct (pending row) eqn:Hp; [|done]. destruct (is_paykit row) eqn:Hk.
    + exists (ob_lease_until row). by destruct row.
    + right. split; [done|]. right. pose proof (backlog_waiting _ _ _ Hi Hp Hk). simpl. lia.
  - destruct Ht as [Hle Ht]. destruct (drain_once t lease_seconds db) as (n & db1 & E & Ho & Hn & Hnt).
    destruct (IH t db1 Ht) as (db' & E' & Hn' & Hrows). exists db'.
    split; [unfold drain_passes; simpl; unfold bind, ret; by rewrite E|].
    rewrite Ho in Hn'. split.
    { eapply adds_trans; [exact Hn|]. eapply adds_weaken; [|exact Hn']. intros key x. apply settle_content. }
    intros i row Hi.
    assert (Hex : exists r1, settle t (t + seconds lease_seconds) OUTBOX_BATCH_SIZE (outbox db) !! i = Some r1)
      by (destruct (settle_lookup t (t + seconds lease_seconds) OUTBOX_BATCH_SIZE _ i row Hi) as [?|[_ ?]]; eauto).
    destruct Hex as [r1 Hs]. destruct (Hrows i r1) as (row' & Hi' & Hd); [by rewrite Ho|].
    exists row'. split; [done|]. rewrite Ho in Hd.
    eapply drained_after; [exact Hle|exact Hi|apply Hn'|exact Hs| |exact Hd].
    intros Hk Hne. apply (Hnt i row Hi Hk). by rewrite Ho, Hs.
Qed.

(** C17. The outbox of a deployment without the Paykit client drains, whatever
    documents its rows hold.  Run passes at non-decreasing times; each claims
    at most a hundred rows that are neither delivered, set aside nor leased,
    and the waiting Paykit rows, which this deployment skips, can fill part of
    every batch.  When the rest of the batches has room for the waiting
    notifications, every notification that is not leased at the start ends up
    delivered, with its notification in the table, or set aside with the reason
    it can never be delivered.  One that another worker had leased is finished
    the same way or left as it was, a Paykit row changes nothing but its lease,
    and any other row does not change.  No pass fails; no notification is lost
    or replaced, and each new one is what a row of the outbox asks for. *)
Theorem outbox_drains now db times lease_seconds :
  in_order now times ->
  (backlog (outbox db) <= (OUTBOX_BATCH_SIZE - paykit_rows (outbox db)) * length times)%nat ->
  exists db', drain_passes times lease_seconds db = Done tt db' /\
    notifications db ⊆ notifications db' /\
    (forall key n, notifications db' !! key = Some n ->
       notifications db !! key = Some n \/ exists row, row ∈ outbox db /\ written_by row key n) /\
    forall i row, outbox db !! i = Some row ->
      exists row', outbox db' !! i = Some row' /\
        if pending row then
          if is_paykit row then exists until, row' = row <| ob_lease_until := until |>
          else finished_row row row' /\ notified db' row \/ row' = row /\ claimable now row = false
        else row' = row.
Proof.
  intros Ht Hb. destruct (drain_all now db times lease_seconds Ht) as (db' & E & [Hs Hnew] & Hrows).
  exists db'. split; [done|]. split; [done|]. split.
  { intros key n Hn. destruct (Hnew key n Hn) as [?|Hex]; [by left|right].
    by apply list.Exists_exists in Hex. }
  intros i row Hi. destruct (Hrows i row Hi) as (row' & Hi' & Hd). exists row'. split; [done|].
  unfold drained, capacity in Hd. destruct (pending row); [|done]. destruct (is_paykit row); [done|].
  destruct Hd as [?|[? [?|?]]]; [by left|by right|lia].
Qed.
End Outbox.

(** ** A sample queue

    An intent, a row without a recipient, a document that is no intent, one
    with an unknown reason for review, a Paykit row and a leased intent. *)

#[local] Existing Instance sample_crate.

Definition sample_queue : Db :=
  let row event_id kind payload lease := mkOutbox event_id kind payload 0 lease None None in
  empty_db <| outbox :=
    [row 1%N "notification.order_paid" (NotificationIntent sally alice "order:1" None) None;
     row 2%N "notification.order_paid" (NotificationIntent "" alice "order:1" None) None;
     row 3%N "notification.order_paid" (StoredPayload (JArray [JInt 1])) None;
     row 4%N "notification.bitcoin_manual_review" (StoredPayload (JObject
       [("recipient_pubky", JString sally); ("actor_pubky", JString SYSTEM_ACTOR);
        ("aggregate_id", JString "order:1"); ("review_reason", JString "other")])) None;
     row 5%N "paykit.void" (PaykitVoid 1 2 "stack" "endpoint" "expired") None;
     row 6%N "notification.order_paid" (NotificationIntent sally alice "order:2" None) (Some 20)] |>.

Lemma outbox_drains_witness :
  exists db', drain_passes [10; 30] 30 sample_queue = Done tt db' /\
    (exists row, outbox db' !! 0%nat = Some row /\ is_Some (ob_delivered_at row)) /\
    (exists row, outbox db' !! 2%nat = Some row /\
       exists at_, ob_quarantine row = Some (at_, MissingRecipientPubky)) /\
    (exists row, outbox db' !! 3%nat = Some row /\ is_Some (ob_delivered_at row)).
Proof.
  destruct (outbox_drains 0 sample_queue [10; 30] 30) as (db' & E & _ & _ & Hrows).
  - split; [lia|]. split; [lia|exact I].
  - apply Nat.leb_le. reflexivity.
  - exists db'. split; [exact E|].
    destruct (Hrows 0%nat _ eq_refl) as (r0 & H0 & [[[_ Hd] _]|[_ Hd]]); [|discriminate].
    destruct (Hrows 2%nat _ eq_refl) as (r2 & H2 & [[[_ Hq] _]|[_ Hq]]); [|discriminate].
    destruct (Hrows 3%nat _ eq_refl) as (r3 & H3 & [[[_ Hu] _]|[_ Hu]]); [|discriminate].
    split; [exists r0|split; [exists r2|exists r3]]; split; assumption.
Defined.
