(* ===== verification/LateMoney.v ===== *)
(** * Late money ([bitcoin_review.rs])

    Money observed after an order's payment window: the order takes its units
    back from stock and completes, or its payment is marked for a refund.
    [reacquire_hold] is shared with the manual review.

    These functions return a [ResolutionFailure]; an internal failure, which
    every caller turns into a rollback and a server error, is a database error
    here. *)

From S2P Require Import Prelude Domain Seal StateMachines Store Commands Actions Drops Holds Pickup.
From S2P Require Import DigitalManual Cancellation Payment Outbox.

Inductive ResolutionFailure :=
| RAlreadyResolved
| RNotInManualReview
| RStockUnavailable
| RRefundRequired
| RMissingPin.

#[export] Instance ResolutionFailure_eq_dec : EqDecision ResolutionFailure.
Proof. solve_decision. Defined.

(** A step of the review. *)
Abbreviation R A := (Tx Db ResolutionFailure A).

(** A handler step whose refusal is an internal failure. *)
Definition internally {A} (m : H A) : R A := fun db =>
  match m db with
  | Done a db' => Done a db'
  | Refused f _ => Failed (Protocol (f_message f))
  | Failed e => Failed e
  | Panicked message => Panicked message
  end.

Inductive LateMoneyOutcome := LmCompleted | LmRefundRequired | LmHeldLateSettlement.

Definition hours (n : Z) : Z := seconds (n * 3600).

Section LateMoney.
Context `{!UuidCrate}.

(** [hold_present]. *)
Definition hold_present (order : OrderRow) : R bool :=
  match o_auction_aggregate_id order with
  | Some auction_aggregate_id =>
      internally (gets (fun db =>
        existsb (fun kv => is_winning auction_aggregate_id (o_buyer_pubky order) (snd kv))
          (map_to_list (reservations db))))
  | None => ret (o_stock_held order)
  end.

(** ** Taking the units back *)

(** A drop-stamped order debits its drop again. *)
Definition reacquire_drop (order : OrderRow) (drop_aggregate_id : string) (now : Time) : R unit :=
  let units := order_units order in
  let* row := internally (fetch_drop_for_update drop_aggregate_id) in
  let* drop := or_refuse row RStockUnavailable in
  let* command_id := internally fresh_uuid in
  do* internally (apply_time_transitions drop command_id now) in
  let* debited := internally (update_where drops drop_check drop_aggregate_id
    (fun d => units <=? d_remaining_quantity d)
    (fun d => d <| d_remaining_quantity := d_remaining_quantity d - units |>
                <| d_revision := d_revision d + 1 |> <| d_updated_at := now |>)) in
  do* refuse_if (bool_decide (debited = None)) RStockUnavailable in
  do* internally (update_where drop_purchases drop_purchase_check
        (drop_aggregate_id, o_buyer_pubky order) always
        (fun p => mkDropPurchase (dp_quantity p + units) (dp_per_buyer_limit p))) in
  ret tt.

(** A reservation of the auction's winner that is no longer active. *)
Definition is_lapsed (listing_aggregate_id buyer_pubky : string) (r : ReservationRow) : bool :=
  (r_listing_aggregate_id r =? listing_aggregate_id)%string &&
  (r_buyer_pubky r =? buyer_pubky)%string &&
  match r_status r with RExpired | RReleased => true | _ => false end.

(** Both instants are bound to the same parameter. *)
Definition revive_reservation (until : Time) (r : ReservationRow) : ReservationRow :=
  r <| r_status := RActive |> <| r_expires_at := until |> <| r_updated_at := until |>.

Definition reacquire_reservation (order : OrderRow) (auction_aggregate_id : string) (now : Time)
    : R unit :=
  let lapsed := is_lapsed auction_aggregate_id (o_buyer_pubky order) in
  let* reacquired := internally (gets (fun db =>
    length (List.filter (fun kv => lapsed (snd kv)) (map_to_list (reservations db))))) in
  do* internally (modify (upd reservations (fmap (fun r =>
        if lapsed r then revive_reservation (now + hours 1) r else r)))) in
  refuse_if (negb (Nat.eqb reacquired 1)) RStockUnavailable.

(** One line: available to reserved, for a listing that still accepts a
    commitment of the order's age. *)
Definition reacquire_line (created_at now : Time) (line : OrderLine) : R unit :=
  let quantity := ln_quantity line in
  let* reacquired := internally (update_where listings listing_check (ln_listing_aggregate_id line)
    (fun l => (quantity <=? l_available_quantity l) && accepts_commitment_created_at l created_at)
    (fun l => reserve_listing (state_after_reserve l quantity) quantity now l)) in
  refuse_if (bool_decide (reacquired = None)) RStockUnavailable.

(** [reacquire_hold]. *)
Definition reacquire_hold (order : OrderRow) (now : Time) : R unit :=
  do* (match o_drop_aggregate_id order with
       | Some drop_aggregate_id => reacquire_drop order drop_aggregate_id now
       | None => ret tt
       end) in
  do* (match o_auction_aggregate_id order with
       | Some auction_aggregate_id => reacquire_reservation order auction_aggregate_id now
       | None => ret tt
       end) in
  do* for_each (o_lines order) (reacquire_line (o_created_at order) now) in
  if bool_decide (o_auction_aggregate_id order = None) then
    do* internally (update_where orders order_check (o_id order) always
          (fun o => o <| o_stock_held := true |> <| o_updated_at := now |>)) in
    ret tt
  else ret tt.

(** ** Completion *)

Definition late_confirmed (now : Time) (p : PaymentRow) : PaymentRow :=
  p <| p_state := PConfirmed |> <| p_revision := p_revision p + 1 |>
    <| p_review_reason := None |> <| p_updated_at := now |>.

(** [complete_late_order]. *)
Definition complete_late_order (keys : ConfirmKeys) (payment : PaymentRow) (order : OrderRow)
    (command_id : Uuid) (event_actor : string) (now : Time) : R unit :=
  let* cas := internally (update_where payments payment_check (p_id payment)
    (fun p => match p_state p with
              | PExpired | PAwaitingEntitlement | PManualReview => true
              | _ => false
              end && bool_decide (p_resolution_outcome p = None))
    (late_confirmed now)) in
  match cas with
  | None => sql_fail (Protocol "payment could not enter confirmed")
  | Some p =>
      let* event_id := internally (insert_event command_id (payment_aggregate_id (p_id payment))
                         (p_revision p) event_actor "payment.confirmed" now) in
      let* row := internally (fetch_order_for_update (o_id order)) in
      let* order_for_confirm := or_fail row (Protocol "order missing") in
      let* confirmed := internally (confirm_order event_actor command_id payment order_for_confirm
                                      keys now) in
      let '(confirmed, _, _) := confirmed in
      for_each [o_buyer_pubky confirmed; o_seller_pubky confirmed] (fun recipient =>
        internally (insert_notification_intent event_id "payment_confirmed" recipient event_actor
                      (order_aggregate_id (o_id confirmed)) None now))
  end.

(** The order waits for its seller. *)
Definition awaits_seller (order : OrderRow) : bool :=
  bool_decide (o_paykit_request_state order = Some "awaiting_seller_confirmation").

(** A still-held order keeps its hold; a Bitcoin payment asks its seller. *)
Definition hold_late_settlement (payment : PaymentRow) (order : OrderRow) (command_id : Uuid)
    (event_actor : string) (now : Time) : R LateMoneyOutcome :=
  let* event_id := internally (stamp_review_reason payment "late_settlement" PManualReview
                                 command_id event_actor now) in
  do* (if (p_adapter payment =? "paykit")%string
       then internally (insert_bitcoin_manual_review_intent event_id (o_seller_pubky order)
                          (o_id order) LateSettlement now)
       else ret tt) in
  ret LmHeldLateSettlement.

(** [apply_late_money]. *)
Definition apply_late_money (keys : ConfirmKeys) (payment : PaymentRow) (order : OrderRow)
    (command_id : Uuid) (event_actor : string) (now : Time) : R LateMoneyOutcome :=
  if awaits_seller order then sql_fail (Protocol "the order is awaiting seller confirmation")
  else
    let* undeliverable := internally (unpinnable order) in
    if undeliverable then
      do* internally (refund_required payment order "digital delivery unavailable at payment"
                        command_id event_actor now) in
      ret LmRefundRequired
    else if bool_decide (o_state order = OPendingPayment) && o_stock_held order then
      hold_late_settlement payment order command_id event_actor now
    else
      let* reacquired := attempt (reacquire_hold order now) in
      match reacquired with
      | inl _ =>
          do* complete_late_order keys payment order command_id event_actor now in
          ret LmCompleted
      | inr RStockUnavailable =>
          (* The statements that succeeded before the failure stay in the
             transaction. *)
          do* internally (refund_required payment order "payment window elapsed" command_id
                            event_actor now) in
          ret LmRefundRequired
      | inr other => refuse other
      end.
End LateMoney.
