(* ===== verification/PaymentMethods.v ===== *)
(** * Payment methods ([payments.rs], [payment_availability.rs],
    [paypal_refund.rs], [payment_methods.rs])

    The checks on a seller's payment configuration, the clients that ask
    Stripe, PayPal and Paykit with the references they send, the cache of
    Paykit's availability; PayPal's refund notifications with their ledger and
    inbox; and the endpoints of [payment_methods.rs]: the seller's
    configuration, the method a buyer binds to an order, the fiat payments
    that are verified or reported, and PayPal's notifications.  What the
    network answers is an argument: a function of the request, or the answer
    itself. *)

From stdpp Require Import sorting.
From stdpp Require Import pretty.
From S2P Require Import Prelude StateMachines Domain Json Seal Pubky Text Store Commands.
From S2P Require Import Actions Reviews Holds DigitalManual Cancellation Payment Fx Inventory.
From S2P Require Import LateMoney.

(** ** Crates *)

(** The parts of a [url::Url] the service reads. *)
Record ParsedUrl := mkParsedUrl {
  pu_scheme : string;
  pu_host : option string;
  pu_username : string;
  pu_password : option string;
  pu_fragment : option string;
}.

(** What [url], [form_urlencoded] and [sha2] do: a URL with pairs appended to
    its query, the pairs of a form body, a digest as its bytes. *)
Class PaymentCrates := {
  parse_url : string -> option ParsedUrl;
  append_pairs : forall (base : string) (pairs : list (string * string)), option string;
  parse_form : string -> list (string * string);
  sha256 : string -> list Z;
}.

(** ** Configuration checks

    The error of a refused value. *)

Section Validators.
Context `{PC : !PaymentCrates}.

Definition validate_stripe_payment_link (value : string) : option string :=
  match parse_url value with
  | None => Some "stripe_payment_link must be a valid URL"
  | Some parsed =>
      if negb (pu_scheme parsed =? "https")%string then Some "stripe_payment_link must use https"
      else if negb (bool_decide (pu_host parsed = Some "buy.stripe.com" \/ pu_host parsed = Some "book.stripe.com"))
      then Some "stripe_payment_link must be a buy.stripe.com or book.stripe.com URL"
      else if negb (pu_username parsed =? "")%string || bool_decide (is_Some (pu_password parsed)) ||
              bool_decide (is_Some (pu_fragment parsed))
      then Some "stripe_payment_link must not carry credentials or fragments"
      else None
  end.
End Validators.

Definition dot : Z := 46.
Definition is_dot (b : Z) : bool := b =? dot.

(** [contains("..")]. *)
Fixpoint double_dot (l : list Z) : bool :=
  match l with
  | a :: ((b :: _) as l') => is_dot a && is_dot b || double_dot l'
  | _ => false
  end.

Definition starts_dotted (l : list Z) : bool := match l with b :: _ => is_dot b | [] => false end.

Definition validate_paypal_email (value : string) : option string :=
  let error := "paypal_merchant_email must be a valid email address" in
  if (254 <? byte_len value) || chars_any (fun c => is_whitespace c || is_control c) value then Some error
  else
    match split_once 64 (bytes value) with
    | None => Some error
    | Some (local, domain) =>
        if negb (nonempty local) || negb (nonempty domain) || negb (existsb is_dot domain) then Some error
        else if starts_dotted domain || starts_dotted (rev domain) || double_dot domain then Some error
        else None
    end.

Definition is_graphic : Z -> bool := in_range 33 126.

Definition validate_stripe_restricted_key (value : string) : option string :=
  if bool_decide (strip_prefix "rk_" value = None)
  then Some "stripe_restricted_key must be a restricted key (rk_...)"
  else if (byte_len value <? 12) || (255 <? byte_len value) || negb (bytes_all is_graphic value)
  then Some "stripe_restricted_key is malformed"
  else None.

(** ** Stripe *)

Record StripeSession := mkStripeSession {
  ss_id : string;
  ss_client_reference_id : option string;
  ss_payment_status : option string;
  ss_amount_total : option Z;
  ss_currency : option string;
}.

Record StripeSessionList := mkSessionList { sl_data : list StripeSession; sl_has_more : bool }.

Inductive StripeError := StripeKeyInvalid | StripeUnavailable.

(** No answer, or a status and the body if it reads as a page. *)
Definition PageAnswer : Type := option (Z * option StripeSessionList).

Definition is_success (status : Z) : bool := in_range 200 299 status.

Definition STRIPE_MAX_PAGES : nat := 3.

Definition paid_session (order_id : string) (amount_minor : Z) (currency : string) (s : StripeSession) : bool :=
  bool_decide (ss_client_reference_id s = Some order_id) && bool_decide (ss_payment_status s = Some "paid") &&
  bool_decide (ss_amount_total s = Some amount_minor) && bool_decide (ss_currency s = Some currency).

(** The pages from a cursor on. *)
Fixpoint search_pages (fetch : option string -> PageAnswer) (wanted : StripeSession -> bool) (pages : nat)
    (starting_after : option string) : option string + StripeError :=
  match pages with
  | O => inl None
  | S pages =>
      match fetch starting_after with
      | None => inr StripeUnavailable
      | Some (status, body) =>
          if (status =? 401) || (status =? 403) then inr StripeKeyInvalid
          else if negb (is_success status) then inr StripeUnavailable
          else
            match body with
            | None => inr StripeUnavailable
            | Some page =>
                match find wanted (sl_data page) with
                | Some session => inl (Some (ss_id session))
                | None =>
                    match sl_has_more page, list.last (sl_data page) with
                    | true, Some last => search_pages fetch wanted pages (Some (ss_id last))
                    | _, _ => inl None
                    end
                end
            end
      end
  end.

(** [find_paid_session]: the session of the match. *)
Definition find_paid_session (list_sessions : string -> option string -> PageAnswer) (restricted_key order_id : string)
    (amount_minor : Z) (currency : string) : option string + StripeError :=
  search_pages (list_sessions restricted_key)
    (paid_session order_id amount_minor (to_ascii_lowercase currency)) STRIPE_MAX_PAGES None.

(** ** PayPal *)

Inductive IpnVerdict := IpnVerified | IpnInvalid | IpnUnavailable.

#[export] Instance IpnVerdict_eq_dec : EqDecision IpnVerdict.
Proof. solve_decision. Defined.

(** [PaypalIpnVerifier::verify]; the answer is a status and the text if it
    could be read. *)
Definition verify_ipn (post : string -> option (Z * option string)) (raw_body : string) : IpnVerdict :=
  match post ("cmd=_notify-validate&" +:+ raw_body) with
  | Some (status, text) =>
      if is_success status then
        match text with
        | Some text => if (trim text =? "VERIFIED")%string then IpnVerified else IpnInvalid
        | None => IpnUnavailable
        end
      else IpnUnavailable
  | None => IpnUnavailable
  end.

(** ** Paykit *)

Inductive PaykitRequestError :=
| SellerAccountUnavailable
| PaykitRejected
| ReaderNotPayable
| ReaderSetupPending
| TotalInconsistent
| PaykitUnavailable.

Record PaykitPrepared := mkPrepared {
  kp_invoice_id : Uuid;
  kp_stack_id : string;
  kp_allocation_mode : string;
  kp_nonce_sats : Z;
  kp_total_sats : Z;
  kp_expires_at : Time;
  kp_prepare_expires_at : Time;
  kp_address_fingerprint : string;
}.

Definition pubky_app_key (pubky : string) : string := "pubky" +:+ pubky.

(** The signed body of phase 1. *)
Record PaymentRequest := mkPaymentRequest {
  rq_amount_sats : Z;
  rq_creator : string;
  rq_reader : string;
  rq_reference : string;
  rq_expires_at : Time;
  rq_idempotency_key : string;
}.

(** A body that does not canonicalize, no answer, or a status with the body
    read as a prepared invoice and as an error code. *)
Inductive PaykitAnswer :=
| Unsigned
| Unsent
| Answered (status : Z) (prepared : option PaykitPrepared) (code : option string).

Inductive PaykitApi := PaykitFork | PaykitUpstream.

(** The client and the server behind it: phase 1, the JSON answers to the
    account, setup and health reads. *)
Record PaykitClient := mkPaykit {
  pk_base_url : string;
  pk_api : PaykitApi;
  pk_post : PaymentRequest -> PaykitAnswer;
  pk_account : string -> option (Z * option Json);
  pk_setup : string -> option (Z * option Json);
  pk_health : option (Z * option Json);
}.

(** [create_payment_request]. *)
Definition create_payment_request (client : PaykitClient) (seller_pubky buyer_pubky reference : string) (amount_sats : Z)
    (expires_at : Time) (idempotency_key : string) : PaykitPrepared + PaykitRequestError :=
  match pk_post client (mkPaymentRequest amount_sats (pubky_app_key seller_pubky) (pubky_app_key buyer_pubky) reference
                          expires_at idempotency_key) with
  | Unsigned => inr PaykitRejected
  | Unsent => inr PaykitUnavailable
  | Answered status prepared code =>
      if is_success status then
        if negb (status =? 200) then inr PaykitRejected
        else match prepared with Some prepared => inl prepared | None => inr PaykitRejected end
      else
        let code := default "" code in
        if (code =? "creator_session_invalid")%string then inr SellerAccountUnavailable
        else if (code =? "reader_not_payable")%string then inr ReaderNotPayable
        else if (code =? "reader_setup_pending")%string then inr ReaderSetupPending
        else if (code =? "invalid_request")%string || (code =? "invoice_conflict")%string then inr PaykitRejected
        else inr PaykitUnavailable
  end.

(** The JSON of a successful answer. *)
Definition json_answer (answer : option (Z * option Json)) : Json + PaykitRequestError :=
  match answer with
  | Some (status, Some body) => if is_success status then inl body else inr PaykitUnavailable
  | _ => inr PaykitUnavailable
  end.

(** [Option::or_else]. *)
Definition or_else {A} (a b : option A) : option A := match a with Some _ => a | None => b end.

Definition rail_offer_available (body : Json) : bool :=
  default false
    (or_else (get "bitcoin_offer_available" body ≫= as_bool)
      (or_else
        (status ← get "status" body ≫= as_str;
         electrum ← get "electrum" body ≫= as_str;
         Some ((status =? "ready")%string && (electrum =? "ready")%string))
        (electrum ← get "electrum" body;
         match electrum with
         | JString state => Some (state =? "ready")%string
         | JObject _ => (fun state => (state =? "ready")%string) <$> (get "state" electrum ≫= as_str)
         | _ => None
         end))).

Definition rail_health (client : PaykitClient) : bool + PaykitRequestError :=
  match json_answer (pk_health client) with
  | inl body => inl (rail_offer_available body)
  | inr e => inr e
  end.

(** [upstream_setup_ready]: the object has one field. *)
Definition setup_status (body : Json) : option string :=
  match as_object body with
  | Some [(key, value)] => if (key =? "status")%string then as_str value else None
  | _ => None
  end.

Definition upstream_setup_ready (client : PaykitClient) (seller_pubky : string) : bool + PaykitRequestError :=
  match json_answer (pk_setup client (pubky_app_key seller_pubky)) with
  | inr e => inr e
  | inl body =>
      match setup_status body with
      | Some status =>
          if (status =? "ready")%string then inl true
          else if (status =? "setup_required")%string then inl false
          else inr PaykitUnavailable
      | None => inr PaykitUnavailable
      end
  end.

(** A structure is read from an object or from an array of its fields. *)
Definition read_claimed (body : Json) : option bool :=
  match body with
  | JObject _ => get "claimed" body ≫= as_bool
  | JArray [value] => as_bool value
  | _ => None
  end.

Definition fork_account_claimed (client : PaykitClient) (seller_pubky : string) : bool + PaykitRequestError :=
  match json_answer (pk_account client (pubky_app_key seller_pubky)) with
  | inr e => inr e
  | inl body => match read_claimed body with Some claimed => inl claimed | None => inr PaykitUnavailable end
  end.

Definition seller_ready (client : PaykitClient) (seller_pubky : string) : bool + PaykitRequestError :=
  match pk_api client with
  | PaykitFork => fork_account_claimed client seller_pubky
  | PaykitUpstream => upstream_setup_ready client seller_pubky
  end.

(** ** References *)

Definition ALPHABET : string := "0123456789ABCDEFGHJKMNPQRSTVWXYZ".

Definition symbol_at (i : Z) : string :=
  match String.get (Z.to_nat i) ALPHABET with Some c => String c "" | None => "" end.

Definition u64_of (z : Z) : Z := z mod 2 ^ 64.

(** The inner loop: at most two groups of five bits per byte. *)
Fixpoint emit_groups (fuel : nat) (buffer bits : Z) : string * Z :=
  match fuel with
  | O => ("", bits)
  | S fuel =>
      if 5 <=? bits then
        let '(rest, remaining) := emit_groups fuel buffer (bits - 5) in
        (symbol_at (Z.land (Z.shiftr buffer (bits - 5)) 31) +:+ rest, remaining)
      else ("", bits)
  end.

(** Fewer than five bits are pending before a byte, and again after it. *)
Lemma emit_groups_enough buffer bits :
  0 <= bits < 5 -> 0 <= snd (emit_groups 2 buffer (bits + 8)) < 5.
Proof.
  intros Hb. unfold emit_groups. rewrite (proj2 (Z.leb_le 5 (bits + 8))) by lia.
  destruct (5 <=? bits + 8 - 5) eqn:E; simpl; reflect_bools; lia.
Qed.

Fixpoint encode_bytes (l : list Z) (buffer bits : Z) : string :=
  match l with
  | [] => if 0 <? bits then symbol_at (Z.land (u64_of (Z.shiftl buffer (5 - bits))) 31) else ""
  | byte :: l =>
      let buffer := Z.lor (u64_of (Z.shiftl buffer 8)) byte in
      let '(out, bits) := emit_groups 2 buffer (bits + 8) in
      out +:+ encode_bytes l buffer bits
  end.

(** [crockford_bundle_id]. *)
Definition crockford_bundle_id (bytes : list Z) : string := encode_bytes bytes 0 0.

(** The bytes of a [Uuid] and of an [i32], most significant first. *)
Definition uuid_bytes (id : Uuid) : string := be_bytes 16 id.
Definition attempt_bytes (attempt : Z) : string := be_bytes 4 (Z.to_N (attempt mod 2 ^ 32)).

Definition attempt_reference `{PC : !PaymentCrates} (order_id : Uuid) (attempt : Z) : string :=
  crockford_bundle_id (take 16 (sha256
    ("pubky-marketplace/paykit-attempt-reference/v1" +:+ uuid_bytes order_id +:+ attempt_bytes attempt))).

Definition legacy_order_reference (order_id : Uuid) : string := crockford_bundle_id (bytes (uuid_bytes order_id)).

(** ** The availability cache *)

Record CacheEntry := mkCacheEntry {
  ce_value : bool;
  ce_fetched_at : option Time;
  ce_last_ok_at : option Time;
}.

Definition no_entry : CacheEntry := mkCacheEntry false None None.

Definition is_fresh (entry : CacheEntry) (now : Time) (ttl_seconds : Z) : bool :=
  match ce_fetched_at entry with Some fetched => now - fetched <? seconds ttl_seconds | None => false end.

Definition refreshed (entry : CacheEntry) (now : Time) (stale_seconds : Z) (result : bool + PaykitRequestError)
    : CacheEntry :=
  match result with
  | inl value => mkCacheEntry value (Some now) (Some now)
  | inr _ =>
      mkCacheEntry
        match ce_last_ok_at entry with
        | Some ok => if now - ok <=? seconds stale_seconds then ce_value entry else false
        | None => false
        end (Some now) (ce_last_ok_at entry)
  end.

(** [read_or_refresh]: the entry read first, the entry read under the refresh
    lock, the three readings of the clock; the value, and the entry written. *)
Definition read_or_refresh (entry locked : CacheEntry) (before under after : Time) (ttl_seconds stale_seconds : Z)
    (fetched : bool + PaykitRequestError) : bool * option CacheEntry :=
  if is_fresh entry before ttl_seconds then (ce_value entry, None)
  else if is_fresh locked under ttl_seconds then (ce_value locked, None)
  else
    let updated := refreshed locked after stale_seconds fetched in (ce_value updated, Some updated).

(** [rail_snapshot]. *)
Definition rail_snapshot (entry : CacheEntry) (now : Time) : option bool * option Z :=
  ((fun _ => ce_value entry) <$> ce_last_ok_at entry, (fun ok => (now - ok) ÷ seconds 1) <$> ce_last_ok_at entry).

(** [evict_stale]; an entry that is being refreshed stays. *)
Definition evict_stale (sellers : gmap string CacheEntry) (refreshing : string -> bool) (now : Time) (stale_seconds : Z)
    : gmap string CacheEntry :=
  filter (fun kv => Is_true (refreshing kv.1 ||
    match ce_fetched_at kv.2 with Some fetched => now - fetched <=? seconds stale_seconds | None => false end)) sellers.

(** ** PayPal refunds ([payment_methods/paypal_refund.rs])

    PayPal notifies the service of refunds, reversals and canceled reversals
    after it has moved the money.  A notification that matches the verified
    payment of an order is recorded on the order, in every state; one that
    cannot be matched is held in an inbox, and is evaluated again when its
    payment is settled.  The form fields of a notification are a map; the
    signature check behind a notification is the caller's. *)

Definition PAYPAL_GATEWAY_ACTOR : string := "paypal-ipn".

(** The states a full refund closes an order from. *)
Definition full_refund_source (s : OrderState) : bool :=
  match s with
  | OPaid | OReadyForPickup | OShipped | ODelivered | OCompleted | OReturnReceived
  | OCancelRequested | OCancelled | OReturnRequested | OReturnApproved => true
  | _ => false
  end.

Definition INBOX_FIELDS : list string :=
  ["payment_status"; "txn_id"; "parent_txn_id"; "custom"; "mc_gross"; "mc_currency"; "receiver_email";
   "business"; "receiver_id"; "reason_code"].

Definition field_of (fields : gmap string string) (name : string) : string := default "" (fields !! name).

Definition paypal_transaction_id (value : string) : option string :=
  if negb (value =? "")%string && (byte_len value <=? 64) && bytes_all is_graphic value
  then Some value else None.

(** ** Amounts *)

(** [10_i64.checked_pow]. *)
Definition checked_scale (exponent : Z) : option Z := if exponent <=? 18 then Some (10 ^ exponent) else None.

Definition within_i64 (z : Z) : option Z := if between i64_min z i64_max then Some z else None.

(** The digits of a number, as an [i64]. *)
Definition digits_i64 (l : list Z) : option Z := within_i64 (spelled l).

(** [parse_gateway_amount_minor]. *)
Definition parse_gateway_amount_minor (value : string) (exponent : Z) : option Z :=
  if exponent <? 0 then None
  else
    let '(whole, fraction) := default (bytes value, []) (split_once 46 (bytes value)) in
    if negb (nonempty whole) || negb (forallb is_digit whole) then None
    else if negb (Z.of_nat (length fraction) =? exponent) || negb (forallb is_digit fraction) then None
    else
      scale ← checked_scale exponent;
      whole ← digits_i64 whole;
      fraction ← digits_i64 fraction;
      scaled ← within_i64 (whole * scale);
      within_i64 (scaled + fraction).

Definition positive (amount : option Z) : option Z := keep (fun a => 0 <? a) amount.

Definition negative_gross_minor (mc_gross : string) (exponent : Z) : option Z :=
  value ← strip_prefix "-" mc_gross; positive (parse_gateway_amount_minor value exponent).

Definition positive_gross_minor (mc_gross : string) (exponent : Z) : option Z :=
  positive (parse_gateway_amount_minor mc_gross exponent).

(** ** Receivers *)

Definition paid_to_merchant (fields : gmap string string) (merchant_email : string) : bool :=
  existsb (fun name => match fields !! name with
                       | Some value => (to_ascii_lowercase value =? to_ascii_lowercase merchant_email)%string
                       | None => false
                       end) ["receiver_email"; "business"].

Definition paid_to_snapshot (fields : gmap string string) (receiver_email receiver_id : option string) : bool :=
  match receiver_id, fields !! "receiver_id" with
  | Some stored, Some value => negb (value =? "")%string && (value =? stored)%string
  | _, _ => false
  end ||
  match receiver_email with Some email => paid_to_merchant fields email | None => false end.

(** The verified payment behind a completed notification. *)
Record GatewayPayment := mkGatewayPayment {
  gp_txn_id : string;
  gp_merchant_email : string;
  gp_receiver_id : option string;
}.

Definition from_fields (txn_id merchant_email : string) (fields : gmap string string) : GatewayPayment :=
  mkGatewayPayment txn_id merchant_email (fields !! "receiver_id" ≫= paypal_transaction_id).

(** ** Notifications *)

Definition gateway_status (value : string) : option GatewayStatus :=
  if (value =? "Refunded")%string then Some GRefunded
  else if (value =? "Reversed")%string then Some GReversed
  else if (value =? "Canceled_Reversal")%string then Some GCanceledReversal
  else None.

Inductive Effect := EPartial | EFull | ERestored | EReview.

#[export] Instance Effect_eq_dec : EqDecision Effect.
Proof. solve_decision. Defined.

Inductive Disposition := Applied (effect : Effect) | Duplicate | Inbox (reason : string) | Malformed.

(** ** The ledger of an order *)

Record Totals := mkTotals { tt_refunded : Z; tt_reversed : Z; tt_restored : Z }.

Definition no_totals : Totals := mkTotals 0 0 0.

Definition add_total (t : Totals) (status : GatewayStatus) (amount : Z) : Totals :=
  match status with
  | GRefunded => mkTotals (wrap64 (tt_refunded t + amount)) (tt_reversed t) (tt_restored t)
  | GReversed => mkTotals (tt_refunded t) (wrap64 (tt_reversed t + amount)) (tt_restored t)
  | GCanceledReversal => mkTotals (tt_refunded t) (tt_reversed t) (wrap64 (tt_restored t + amount))
  end.

Definition outstanding_reversal (t : Totals) : Z := Z.max (wrap64 (tt_reversed t - tt_restored t)) 0.

(** Money PayPal returned to the buyer and did not take back. *)
Definition effective (t : Totals) : Z := wrap64 (tt_refunded t + outstanding_reversal t).

(** [ORDER BY recorded_at, refund_txn_id]. *)
Definition recorded_first (a b : string * GatewayRefundRow) : Prop :=
  gw_recorded_at (snd a) < gw_recorded_at (snd b) \/
  (gw_recorded_at (snd a) = gw_recorded_at (snd b) /\ String.leb (fst a) (fst b) = true).

#[export] Instance recorded_first_dec : RelDecision recorded_first.
Proof. intros a b. unfold recorded_first. apply _. Defined.

Definition refund_ledger (order_id : Uuid) (db : Db) : list (string * GatewayRefundRow) :=
  merge_sort recorded_first
    (List.filter (fun kv => N.eqb (gw_order_id (snd kv)) order_id) (map_to_list (gateway_refunds db))).

Definition ledger_totals (ledger : list (string * GatewayRefundRow)) : Totals :=
  fold_left (fun t kv => add_total t (gw_status (snd kv)) (gw_amount_minor (snd kv))) ledger no_totals.

(** An external refund that did not come from the ledger. *)
Definition manual_external (order : OrderRow) (ledger : list (string * GatewayRefundRow)) : bool :=
  match o_external_refund order with
  | Some refund => negb (existsb (fun kv => (fst kv =? er_transaction_id refund)%string) ledger)
  | None => false
  end.

Record GatewayRecord := mkGatewayRecord {
  gr_order_id : Uuid;
  gr_txn_id : string;
  gr_parent_txn_id : string;
  gr_status : GatewayStatus;
  gr_amount_minor : Z;
}.

Record OrderChange := mkOrderChange {
  oc_state : OrderState;
  oc_external_refund : option ExternalRefund;
  oc_return_request : option ReturnRequest;
  oc_reversed_at : option Time;
  oc_reversal_cancelled_at : option Time;
  oc_review : bool;
}.

Definition set_return_state (request : option ReturnRequest) (state : ReturnState) (now : Time)
    : option ReturnRequest :=
  (fun r => r <| rr_state := state |> <| rr_updated_at := now |>) <$> request.

(** The refund the order shows for what was returned so far. *)
Definition running_refund (order : OrderRow) (sum : Z) (txn_id : string) (now : Time) : option ExternalRefund :=
  if 0 <? sum then Some (mkExternalRefund (Z.min sum (o_total_minor order)) txn_id now) else None.

(** A refund or a reversal; the flag says that the order closes. *)
Definition refund_change (order : OrderRow) (record : GatewayRecord) (manual : bool) (after : Totals) (now : Time)
    : OrderChange * Effect * bool :=
  let full := o_total_minor order <=? effective after in
  let transition := full && negb manual && full_refund_source (o_state order) in
  let review := manual || (o_total_minor order <? effective after) || (full && negb transition) in
  (mkOrderChange
     (if transition then ORefundedExternal else o_state order)
     (if manual then o_external_refund order else running_refund order (effective after) (gr_txn_id record) now)
     (if transition then set_return_state (o_return_request order) RtRefunded now else o_return_request order)
     (if bool_decide (gr_status record = GReversed)
      then if 0 <? outstanding_reversal after then Some (default now (o_payment_reversed_at order)) else None
      else o_payment_reversed_at order)
     (pp_reversal_cancelled_at (o_paypal order)) review,
   (if transition then EFull else if review then EReview else EPartial), transition).

(** The last row of this kind. *)
Definition last_row (p : GatewayRefundRow -> bool) (ledger : list (string * GatewayRefundRow))
    : option (string * GatewayRefundRow) := find (fun kv => p (snd kv)) (rev ledger).

Definition latest_refund (ledger : list (string * GatewayRefundRow)) (default_txn : string) : string :=
  match last_row (fun row => bool_decide (gw_status row = GRefunded)) ledger with
  | Some (txn, _) => txn
  | None =>
      match last_row (fun row => bool_decide (gw_status row = GReversed)) ledger with
      | Some (txn, _) => txn
      | None => default_txn
      end
  end.

(** The row whose transition a canceled reversal undoes. *)
Definition replaced_row (ledger : list (string * GatewayRefundRow)) : option (string * GatewayRefundRow) :=
  last_row (fun row => bool_decide (is_Some (gw_from_state row))) ledger.

(** A canceled reversal; the state it reopens, if any. *)
Definition restore_change (order : OrderRow) (record : GatewayRecord) (ledger : list (string * GatewayRefundRow))
    (manual : bool) (before after : Totals) (now : Time) : OrderChange * Effect * option OrderState :=
  let restored_something := 0 <? outstanding_reversal before in
  let reopen := bool_decide (o_state order = ORefundedExternal) && (effective after <? o_total_minor order) in
  let undone := if reopen && negb manual then replaced_row ledger else None in
  let review := if reopen then bool_decide (undone = None) else negb restored_something in
  (mkOrderChange
     match undone with
     | Some (_, row) => default (o_state order) (gw_from_state row)
     | None => o_state order
     end
     (if manual then o_external_refund order
      else running_refund order (effective after) (latest_refund ledger (gr_txn_id record)) now)
     match undone ≫= (fun kv => gw_from_return_state (snd kv)) with
     | Some return_state => set_return_state (o_return_request order) return_state now
     | None => o_return_request order
     end
     (if outstanding_reversal after =? 0 then None else o_payment_reversed_at order)
     (if restored_something then Some now else pp_reversal_cancelled_at (o_paypal order)) review,
   (if bool_decide (is_Some undone) then ERestored else if review then EReview else EPartial),
   undone ≫= (fun kv => gw_from_state (snd kv))).

Definition gateway_check (row : GatewayRefundRow) : bool := 0 <? gw_amount_minor row.

(** The [UPDATE orders] of a record. *)
Definition change_row (next : OrderChange) (now : Time) (o : OrderRow) : OrderRow :=
  o <| o_state := oc_state next |> <| o_external_refund := oc_external_refund next |>
    <| o_return_request := oc_return_request next |> <| o_payment_reversed_at := oc_reversed_at next |>
    <| o_paypal := (o_paypal o) <| pp_reversal_cancelled_at := oc_reversal_cancelled_at next |>
                     <| pp_review_at := if oc_review next then Some (default now (pp_review_at (o_paypal o)))
                                        else pp_review_at (o_paypal o) |> |>
    <| o_updated_at := now |>.

Section Paypal.
Context `{UC : !UuidCrate, IC : !InventoryCrates}.

(** [finish]: the event, the annotation and the notifications. *)
Definition finish_refund (attestor : option Attestor) (order : OrderRow) (event_kind notification : string)
    (effect : Effect) (now : Time) : H unit :=
  let aggregate_id := order_aggregate_id (o_id order) in
  let* command_id := fresh_uuid in
  let* event_id := insert_event command_id aggregate_id (o_revision order) PAYPAL_GATEWAY_ACTOR event_kind now in
  let annotation :=
    match effect with
    | EFull => Some "refunded"
    | ERestored => Some "refund_reversal_cancelled"
    | EPartial | EReview => None
    end in
  do* (match annotation, attestor with
       | Some outcome, Some attestor => insert_annotation attestor (o_id order) outcome now
       | _, _ => ret tt
       end) in
  for_each [o_buyer_pubky order; o_seller_pubky order] (fun recipient =>
    insert_notification_intent event_id notification recipient PAYPAL_GATEWAY_ACTOR aggregate_id None now).

(** The ledger row and the inbox row it resolves. *)
Definition insert_refund (record : GatewayRecord) (now : Time) : H unit :=
  do* insert gateway_refunds gateway_check (gr_txn_id record)
        (mkGatewayRefund (gr_order_id record) (gr_parent_txn_id record) (gr_status record) (gr_amount_minor record)
           None None now) (fun _ => false) in
  modify (upd gateway_refund_inbox (alter (fun row =>
    match ib_resolved_at row with
    | None => row <| ib_resolved_at := Some now |>
    | Some _ => row
    end) (gr_txn_id record))).

(** What the order becomes; a transition is asserted and remembered. *)
Definition change_of (order : OrderRow) (record : GatewayRecord) (ledger : list (string * GatewayRefundRow))
    (now : Time) : H (OrderChange * Effect) :=
  let before := ledger_totals ledger in
  let after := add_total before (gr_status record) (gr_amount_minor record) in
  let manual := manual_external order ledger in
  match gr_status record with
  | GRefunded | GReversed =>
      let '(next, effect, transition) := refund_change order record manual after now in
      if transition then
        do* assert_order_transition (o_state order) ORefundedExternal in
        do* modify (upd gateway_refunds (alter (fun row =>
              row <| gw_from_state := Some (o_state order) |>
                  <| gw_from_return_state := rr_state <$> o_return_request order |>) (gr_txn_id record))) in
        ret (next, effect)
      else ret (next, effect)
  | GCanceledReversal =>
      let '(next, effect, reopened) := restore_change order record ledger manual before after now in
      do* (match reopened with
           | Some from_state => assert_order_transition ORefundedExternal from_state
           | None => ret tt
           end) in
      ret (next, effect)
  end.

Definition refund_event (status : GatewayStatus) (effect : Effect) : string * string :=
  match status, effect with
  | GCanceledReversal, _ => ("refund.reversal_cancelled", "payment_reversal_cancelled")
  | _, EFull => ("refund.recorded_external", "refund_recorded")
  | _, _ => ("refund.recorded_partial", "refund_recorded")
  end.

(** [record_on_order]. *)
Definition record_on_order (attestor : option Attestor) (record : GatewayRecord) (now : Time) : H Disposition :=
  let* row := fetch_order_for_update (gr_order_id record) in
  match row with
  | None => ret (Inbox "unknown_parent")
  | Some order =>
      let* ledger := gets (refund_ledger (o_id order)) in
      let* recorded := select gateway_refunds (gr_txn_id record) in
      if bool_decide (is_Some recorded) then ret Duplicate
      else
        do* insert_refund record now in
        let* changed := change_of order record ledger now in
        let '(next, effect) := changed in
        let* updated := bump_order order (change_row next now) in
        let '(event_kind, notification) := refund_event (gr_status record) effect in
        do* finish_refund attestor updated event_kind notification effect now in
        ret (Applied effect)
  end.

(** [InboxEntry::store]. *)
Definition store_inbox (txn_id : string) (parent_txn_id : option string) (status : GatewayStatus)
    (fields : gmap string string) (reason : string) (order_id : option Uuid) (now : Time) : H Disposition :=
  let* row := select gateway_refund_inbox txn_id in
  match row with
  | None =>
      let kept := filter (fun kv => kv.1 ∈ INBOX_FIELDS) fields in
      do* modify (upd gateway_refund_inbox
            (<[txn_id := mkRefundInbox parent_txn_id status reason order_id kept now None]>)) in
      ret (Inbox reason)
  | Some row =>
      let order_id := match order_id with Some id => Some id | None => ib_order_id row end in
      if bool_decide (ib_resolved_at row = None) &&
         negb (bool_decide (ib_reason row = reason /\ ib_order_id row = order_id))
      then
        do* modify (upd gateway_refund_inbox
              (<[txn_id := row <| ib_reason := reason |> <| ib_order_id := order_id |>]>)) in
        ret (Inbox reason)
      else ret Duplicate
  end.

(** The order that owns a verified payment. *)
Definition payment_owner (txn_id : string) (db : Db) : option OrderRow :=
  find (fun o => bool_decide (pp_txn_id (o_paypal o) = Some txn_id)) (map snd (map_to_list (orders db))).

(** The first check a notification fails on the owner of its payment, or its
    amount. *)
Definition validate_refund (fields : gmap string string) (status : GatewayStatus) (custom_order : option Uuid)
    (owner : OrderRow) : Z + string :=
  let paypal := o_paypal owner in
  if match custom_order with Some custom => negb (N.eqb custom (o_id owner)) | None => false end
  then inr "custom_mismatch"
  else if bool_decide (pp_receiver_email paypal = None) && bool_decide (pp_receiver_id paypal = None)
  then inr "receiver_unverified"
  else if negb (paid_to_snapshot fields (pp_receiver_email paypal) (pp_receiver_id paypal))
  then inr "receiver_mismatch"
  else if negb (field_of fields "mc_currency" =? o_currency owner)%string then inr "currency_mismatch"
  else
    match (match status with
           | GCanceledReversal => positive_gross_minor
           | GRefunded | GReversed => negative_gross_minor
           end) (field_of fields "mc_gross") (o_exponent owner) with
    | Some amount => inl amount
    | None => inr "amount_invalid"
    end.

(** The order the buyer's field names, if it exists. *)
Definition find_custom (fields : gmap string string) : H (option Uuid) :=
  match parse_uuid (field_of fields "custom") with
  | Some order_id =>
      let* row := fetch_order order_id in
      ret (o_id <$> row)
  | None => ret None
  end.

(** [evaluate]. *)
Definition evaluate (attestor : option Attestor) (fields : gmap string string) (now : Time) : H Disposition :=
  match gateway_status (field_of fields "payment_status"), paypal_transaction_id (field_of fields "txn_id") with
  | Some status, Some txn_id =>
      let* recorded := select gateway_refunds txn_id in
      if bool_decide (is_Some recorded) then ret Duplicate
      else
        let* custom_order := find_custom fields in
        match paypal_transaction_id (field_of fields "parent_txn_id") with
        | None => store_inbox txn_id None status fields "missing_parent" custom_order now
        | Some parent_txn_id =>
            let* owner := gets (payment_owner parent_txn_id) in
            match owner with
            | None => store_inbox txn_id (Some parent_txn_id) status fields "unknown_parent" custom_order now
            | Some owner =>
                match validate_refund fields status custom_order owner with
                | inr reason =>
                    store_inbox txn_id (Some parent_txn_id) status fields reason (Some (o_id owner)) now
                | inl amount_minor =>
                    record_on_order attestor
                      (mkGatewayRecord (o_id owner) txn_id parent_txn_id status amount_minor) now
                end
            end
        end
  | _, _ => ret Malformed
  end.

(** [ORDER BY received_at, txn_id]. *)
Definition received_first (a b : string * RefundInboxRow) : Prop :=
  ib_received_at (snd a) < ib_received_at (snd b) \/
  (ib_received_at (snd a) = ib_received_at (snd b) /\ String.leb (fst a) (fst b) = true).

#[export] Instance received_first_dec : RelDecision received_first.
Proof. intros a b. unfold received_first. apply _. Defined.

(** The notifications that wait for this payment. *)
Definition waits_for (txn_id : string) (row : RefundInboxRow) : bool :=
  bool_decide (ib_parent_txn_id row = Some txn_id) && (ib_reason row =? "unknown_parent")%string &&
  bool_decide (ib_resolved_at row = None).

Definition held_refunds (txn_id : string) (db : Db) : list (string * RefundInboxRow) :=
  merge_sort received_first
    (List.filter (fun kv => waits_for txn_id (snd kv)) (map_to_list (gateway_refund_inbox db))).

(** The verified payment and its receiver, once. *)
Definition pin_payment (payment : GatewayPayment) (o : OrderRow) : OrderRow :=
  o <| o_paypal := (o_paypal o) <| pp_txn_id := Some (gp_txn_id payment) |>
         <| pp_receiver_email := Some (to_ascii_lowercase (gp_merchant_email payment)) |>
         <| pp_receiver_id := gp_receiver_id payment |> |>.

(** [settle_verified_payment]. *)
Definition settle_verified_payment (attestor : option Attestor) (order_id : Uuid) (payment : GatewayPayment)
    (now : Time) : H unit :=
  let* taken := gets (fun db => bool_decide (is_Some (payment_owner (gp_txn_id payment) db))) in
  do* update_where orders order_check order_id
        (fun o => bool_decide (pp_txn_id (o_paypal o) = None) && negb taken) (pin_payment payment) in
  let* held := gets (held_refunds (gp_txn_id payment)) in
  for_each held (fun kv => do* evaluate attestor (ib_fields (snd kv)) now in ret tt).

(** [process]: a notification with a transaction id, in its own transaction. *)
Definition process (attestor : option Attestor) (fields : gmap string string) (now : Time) (db : Db)
    : option Disposition * Db :=
  if bool_decide (gateway_status (field_of fields "payment_status") = None) ||
     bool_decide (paypal_transaction_id (field_of fields "txn_id") = None)
  then (Some Malformed, db)
  else
    match evaluate attestor fields now db with
    | Done disposition db' => (Some disposition, db')
    | Refused _ _ | Failed _ | Panicked _ => (None, db)
    end.

(** [apply_refund_ipn]: the status PayPal reads. *)
Definition apply_refund_ipn (attestor : option Attestor) (fields : gmap string string) (now : Time) (db : Db)
    : Z * Db :=
  match process attestor fields now db with
  | (Some _, db') => (200, db')
  | (None, db') => (500, db')
  end.
End Paypal.

(** ** Payment methods ([payment_methods.rs])

    The seller's payment configuration, the method a buyer binds to an order,
    and the fiat payments that a processor, a gateway or the seller reports.
    An endpoint answers a reply or a failure; a failure leaves no trace of its
    transaction.  The Paykit bind has two transactions with the phase-1 call
    between the statements and the commit of the second. *)

(** ** Endpoints *)

Definition method_error (code : ErrorCode) (reason message : string) : CommandFailure :=
  refused_with_reason code message reason.

Inductive Reply (A : Type) :=
| Replied (a : A)
| Rejected (f : CommandFailure)
| ServerError
| Crashed (message : string).
Arguments Replied {A} _.
Arguments Rejected {A} _.
Arguments ServerError {A}.
Arguments Crashed {A} _.

(** A transaction of its own. *)
Definition in_tx {A} (m : H A) (db : Db) : Reply A * Db :=
  match m db with
  | Done a db' => (Replied a, db')
  | Refused f _ => (Rejected f, db)
  | Failed _ => (ServerError, db)
  | Panicked message => (Crashed message, db)
  end.

Record PaymentsRuntime := mkPaymentsRuntime {
  pr_cipher_key : string;
  pr_list_sessions : string -> option string -> PageAnswer;
  pr_paykit : option PaykitClient;
  pr_post_ipn : string -> option (Z * option string);
}.

(** The configuration the endpoints read. *)
Record PaymentsState := mkPaymentsState {
  ps_runtime : option PaymentsRuntime;
  ps_bitcoin_window_seconds : Z;
  ps_fiat_window_seconds : Z;
  ps_paypal_checkout_url : string;
  ps_public_app_origin : option string;
  ps_public_service_origin : option string;
  ps_keys : ConfirmKeys;
  ps_attestor : option Attestor;
}.

Definition payments_disabled : CommandFailure :=
  method_error UpstreamUnavailable "payments_disabled" "Payment methods are not enabled on this deployment.".

Definition order_not_found : CommandFailure := method_error NotFound "order_not_found" "The order was not found.".

(** ** The seller's configuration *)

Record PutPaymentConfigBody := mkPutConfig {
  pb_bitcoin_enabled : bool;
  pb_stripe_payment_link : option string;
  pb_stripe_restricted_key : option string;
  pb_paypal_merchant_email : option string;
}.

Record ConfigView := mkConfigView {
  cv_bitcoin_enabled : bool;
  cv_stripe_payment_link : option string;
  cv_paypal_merchant_email : option string;
  cv_stripe_restricted_key_set : bool;
  cv_updated_at : Time;
}.

Definition config_view (row : PaymentConfigRow) : ConfigView :=
  mkConfigView (cf_bitcoin_enabled row) (cf_stripe_payment_link row) (cf_paypal_merchant_email row)
    (bool_decide (is_Some (cf_stripe_restricted_key row))) (cf_updated_at row).

(** A value the configuration may leave out. *)
Definition check_value (value : option string) (validate : string -> option string) (reason : string) : H unit :=
  match value ≫= validate with
  | Some message => refuse (method_error InvalidCommand reason message)
  | None => ret tt
  end.

Definition load_config (seller_pubky : Pubky) : H (option PaymentConfigRow) := select seller_payment_configs seller_pubky.

Record PublicConfigView := mkPublicConfig {
  pv_bitcoin_available : bool;
  pv_bitcoin_offer_available : bool;
  pv_paypal_available : bool;
  pv_stripe_available : bool;
}.

Section Config.
Context `{SC : !SealCrates, PC : !PaymentCrates}.

(** The change of the restricted key: none, cleared, or sealed anew. *)
Definition restricted_key_update (runtime : PaymentsRuntime) (actor : Pubky) (key : option string)
    : H (option (option string)) :=
  match key with
  | None => ret None
  | Some key =>
      if (key =? "")%string then ret (Some None)
      else
        do* check_value (Some key) validate_stripe_restricted_key "invalid_restricted_key" in
        let* n := gets draws in
        do* modify (upd draws N.succ) in
        ret (Some (Some (seal n (pr_cipher_key runtime) actor key)))
  end.

(** [put_payment_config]. *)
Definition put_payment_config (state : PaymentsState) (actor : Pubky) (body : PutPaymentConfigBody) (now : Time)
    : H ConfigView :=
  let* runtime := or_refuse (ps_runtime state) payments_disabled in
  do* check_value (pb_stripe_payment_link body) validate_stripe_payment_link "invalid_payment_link" in
  do* check_value (pb_paypal_merchant_email body) validate_paypal_email "invalid_paypal_email" in
  let* update := restricted_key_update runtime actor (pb_stripe_restricted_key body) in
  let* stored := load_config actor in
  let row := mkPaymentConfig (pb_bitcoin_enabled body) (pb_stripe_payment_link body)
    (match update with Some key => key | None => stored ≫= cf_stripe_restricted_key end)
    (pb_paypal_merchant_email body) (default now (cf_created_at <$> stored)) now in
  do* modify (upd seller_payment_configs (<[actor := row]>)) in
  ret (config_view row).

(** [get_own_payment_config]. *)
Definition get_own_payment_config (actor : Pubky) : H (option ConfigView) :=
  let* stored := load_config actor in ret (config_view <$> stored).

(** [get_payment_config]; the two flags are what the availability cache
    serves when a Paykit client is configured. *)
Definition get_payment_config (state : PaymentsState) (seller_pubky : Pubky) (cached_rail cached_seller : bool)
    : H PublicConfigView :=
  do* refuse_if (negb (Pubky.is_valid_pubky seller_pubky))
        (method_error InvalidCommand "invalid_pubky" "The seller pubky is invalid.") in
  let* config := load_config seller_pubky in
  let paykit := bool_decide (is_Some (ps_runtime state ≫= pr_paykit)) in
  let rail_health := paykit && cached_rail in
  match config with
  | None => ret (mkPublicConfig false rail_health false false)
  | Some config =>
      ret (mkPublicConfig (cf_bitcoin_enabled config && (paykit && cached_seller)) rail_health
             (bool_decide (is_Some (cf_paypal_merchant_email config)))
             (bool_decide (is_Some (cf_stripe_payment_link config)) &&
              bool_decide (is_Some (cf_stripe_restricted_key config))))
  end.
End Config.

(** ** Checkout links *)

(** [trim_end_matches('/')]. *)
Fixpoint trim_slashes_rev (s : string) : string * bool :=
  match s with
  | EmptyString => ("", true)
  | String c s =>
      let '(rest, empty) := trim_slashes_rev s in
      if empty && (byte_of c =? 47) then ("", true) else (String c rest, false)
  end.

Definition trim_slashes (s : string) : string := fst (trim_slashes_rev s).

(** [{}.{:0width$}]. *)
Definition checkout_amount (total_minor exponent : Z) : string :=
  let scale := 10 ^ exponent in
  pretty (total_minor ÷ scale) +:+ "." +:+ padded (Z.to_nat exponent) (pretty (Z.rem total_minor scale)).

Definition is_fiat_currency (order : OrderRow) : bool :=
  (byte_len (o_currency order) =? 3) && bytes_all is_upper (o_currency order) &&
  negb (existsb (String.eqb (o_currency order)) ["SAT"; "BTC"; "XBT"]).

(** An order in satoshi. *)
Definition sat_denominated (order : OrderRow) : bool :=
  ((o_currency order =? "SAT")%string && (o_exponent order =? 0)) ||
  ((o_currency order =? "BTC")%string && (o_exponent order =? 8)).

Definition bitcoin_amount_sats (order : OrderRow) : option Z :=
  if negb (sat_denominated order) then None
  else if 0 <? o_total_minor order then Some (o_total_minor order) else None.

Definition fx_error_response (error : FxError) : CommandFailure :=
  let '(reason, message) :=
    match error with
    | MissingReference => ("fx_reference_unavailable", "A verified FX reference is not available yet.")
    | Stale => ("fx_rate_stale", "The FX reference is stale.")
    | Future => ("fx_rate_stale", "The FX reference timestamp is invalid.")
    | OutOfBounds => ("fx_rate_out_of_bounds", "The FX reference is outside the permitted range.")
    | DeviationExceeded => ("fx_deviation_exceeded", "The FX reference deviates too far from the persisted reference.")
    | BelowMinimum => ("below_minimum_sats", "The Bitcoin amount is below the 1,000-satoshi minimum.")
    | CapExceeded => ("fx_rate_out_of_bounds", "The Bitcoin amount exceeds the permitted maximum.")
    | Overflow | Fx.Malformed => ("fx_reference_unavailable", "The FX reference could not be used.")
    end in
  method_error InvalidState reason message.

Definition OrderReply : Type := OrderView * list ReviewRow.

Definition order_response (order : OrderRow) : H OrderReply :=
  let* reviews := fetch_order_reviews (o_id order) in ret (command_view order, reviews).

(** [fetch_payment_for_order_update] and [fetch_order_for_update], both there. *)
Definition lock_order (order_id : Uuid) : H (PaymentRow * OrderRow) :=
  let* payment := lock_payment order_id in
  let* payment := or_refuse payment order_not_found in
  let* order := fetch_order_for_update order_id in
  let* order := or_refuse order order_not_found in
  ret (payment, order).

Section Methods.
Context `{UC : !UuidCrate, IC : !InventoryCrates, SC : !SealCrates, PC : !PaymentCrates}.

(** [paypal_checkout_url]. *)
Definition paypal_checkout_url (checkout_base merchant_email : string) (order : OrderRow)
    (return_origin notify_origin : option string) : string + string :=
  if (o_exponent order <? 0) || (4 <? o_exponent order)
  then inr "the order currency exponent is outside PayPal's supported range"
  else
    let pairs :=
      [("cmd", "_xclick"); ("business", merchant_email); ("item_name", "Order " +:+ uuid_text (o_id order));
       ("amount", checkout_amount (o_total_minor order) (o_exponent order)); ("currency_code", o_currency order);
       ("custom", uuid_text (o_id order)); ("no_shipping", "1"); ("no_note", "1")] ++
      match return_origin with
      | Some origin =>
          let orders_url := trim_slashes origin +:+ "/marketplace/orders" in
          [("return", orders_url); ("cancel_return", orders_url)]
      | None => []
      end ++
      match notify_origin with
      | Some origin => [("notify_url", trim_slashes origin +:+ "/v0/paypal/ipn")]
      | None => []
      end in
    match append_pairs checkout_base pairs with
    | Some url => inl url
    | None => inr "the PayPal checkout URL is invalid"
    end.

(** ** Binding a method *)

Definition known_method (method : string) : bool := existsb (String.eqb method) ["bitcoin"; "stripe"; "paypal"].
Definition is_bitcoin (method : string) : bool := (method =? "bitcoin")%string.

Definition attempt_fits (o : OrderRow) : bool := order_check o && (bd_attempt (o_bind o) <? 2 ^ 31).

(** The attempt number of a Bitcoin bind, in a transaction of its own. *)
Definition reserve_attempt (actor : Pubky) (order_id : Uuid) : H (option Z) :=
  let* updated := update_where orders attempt_fits order_id (fun o => (o_buyer_pubky o =? actor)%string)
    (fun o => o <| o_bind := (o_bind o) <| bd_attempt := bd_attempt (o_bind o) + 1 |> |>) in
  ret ((fun o => bd_attempt (o_bind o)) <$> updated).

(** The order as it is bound already, or the rows to bind. *)
Definition bind_checks (actor : Pubky) (order_id : Uuid) (method : string) : H (OrderReply + PaymentRow * OrderRow) :=
  let* rows := lock_order order_id in
  let '(payment, order) := rows in
  do* refuse_if (negb (o_buyer_pubky order =? actor)%string)
        (method_error Unauthorized "not_buyer" "Only the buyer may bind the payment method.") in
  match o_payment_method order with
  | Some bound =>
      if (bound =? method)%string then let* reply := order_response order in ret (inl reply)
      else refuse (method_error InvalidState "payment_method_already_bound"
                     "A payment method is already bound to this order.")
  | None =>
      do* refuse_if (negb (bool_decide (o_state order = OPendingPayment)))
            (method_error InvalidState "order_not_pending" "Only an order pending payment can bind a payment method.") in
      do* refuse_if (negb (bool_decide (p_state payment = PAwaitingEntitlement)))
            (method_error InvalidState "payment_not_awaiting" "The payment is no longer awaiting a method.") in
      do* refuse_if (p_adapter payment =? "locks")%string
            (method_error InvalidState "locks_managed"
               "A Locks-correlated payment advances only by server-side verification.") in
      ret (inr (payment, order))
  end.

(** The rate and the sample of a quote, and the satoshi to ask for. *)
Definition Quote : Type := option (Decimal * RateSample) * Z.

(** What a Bitcoin bind asks Paykit for; [samples] is the table of FX samples
    and [fetched] the reading of the feed. *)
Definition quote_bitcoin (runtime : PaymentsRuntime) (config : option PaymentConfigRow) (order : OrderRow)
    (samples : list FxRateSample) (fetched : RateSample + FxError) (now : Time) : H Quote :=
  do* refuse_if (negb (default false (cf_bitcoin_enabled <$> config)))
        (method_error InvalidState "method_unavailable" "The seller does not accept Bitcoin.") in
  do* refuse_if (bool_decide (pr_paykit runtime = None))
        (method_error UpstreamUnavailable "bitcoin_unavailable" "Bitcoin payments are not enabled on this deployment.") in
  if sat_denominated order then
    let* sats := or_refuse (bitcoin_amount_sats order)
      (method_error InvalidState "invalid_sats" "The Bitcoin amount must be a positive satoshi amount.") in
    ret (None, sats)
  else if (o_currency order =? "USD")%string && (o_exponent order =? 2) then
    match quote_usd samples fetched (o_total_minor order) (o_exponent order) now with
    | inl (rate, sample, sats) => ret (Some (rate, sample), sats)
    | inr error => refuse (fx_error_response error)
    end
  else refuse (method_error InvalidState "currency_unsupported"
                 "Bitcoin binding supports only USD/2, BTC/8, and SAT/0 orders.").

Definition hold_reason (failure : CommandFailure) : string :=
  if (f_message failure =? HOLDING_COPY)%string then "held"
  else if bool_decide (f_code failure = InsufficientInventory) then "sold_out"
  else "hold_unavailable".

(** The lock point of a bind. *)
Definition bind_hold (order : OrderRow) (window_seconds : Z) (now : Time) : H OrderRow :=
  let* held := attempt (acquire_payment_hold order window_seconds HOLD_SOURCE_BIND now) in
  match held with
  | inl order => ret order
  | inr failure => refuse (method_error (f_code failure) (hold_reason failure) (f_message failure))
  end.

Definition require_fiat (order : OrderRow) (message : string) : H unit :=
  refuse_if (negb (is_fiat_currency order)) (method_error InvalidState "currency_unsupported" message).

(** The checkout URL, the Paykit reference and the adapter of a method. *)
Definition method_columns (state : PaymentsState) (method : string) (config : option PaymentConfigRow) (order : OrderRow)
    (reserved : option Z) : H (option string * option string * string) :=
  if is_bitcoin method then
    match reserved with
    | None => sql_fail (Protocol "no attempt was reserved")
    | Some number => ret (None, Some (attempt_reference (o_id order) number), "paykit")
    end
  else if (method =? "stripe")%string then
    let* link := or_refuse (config ≫= cf_stripe_payment_link)
      (method_error InvalidState "method_unavailable" "The seller has no Stripe payment link configured.") in
    do* require_fiat order "Stripe payment requires a fiat-denominated order." in
    let separator := if existsb (Z.eqb 63) (bytes link) then "&" else "?" in
    ret (Some (link +:+ separator +:+ "client_reference_id=" +:+ uuid_text (o_id order)), None, "stripe")
  else
    let* email := or_refuse (config ≫= cf_paypal_merchant_email)
      (method_error InvalidState "method_unavailable" "The seller has no PayPal merchant email configured.") in
    do* require_fiat order "PayPal payment requires a fiat-denominated order." in
    match paypal_checkout_url (ps_paypal_checkout_url state) email order (ps_public_app_origin state)
            (ps_public_service_origin state) with
    | inl url => ret (Some url, None, "paypal")
    | inr message => refuse (method_error InvalidState "currency_unsupported" message)
    end.

(** The [UPDATE orders] of a bind. *)
Definition bind_row (method : string) (url reference : option string) (now : Time) (o : OrderRow) : OrderRow :=
  o <| o_revision := o_revision o + 1 |> <| o_payment_method := Some method |>
    <| o_fiat := (o_fiat o) <| fc_checkout_url := url |> |> <| o_paykit_request_reference := reference |>
    <| o_paykit_request_state := (fun _ => "preparing") <$> reference |>
    <| o_bind := (o_bind o) <| bd_delivery_state := None |> |> <| o_updated_at := now |>.

Record BindPlan := mkBindPlan {
  pl_payment : PaymentRow;
  pl_order : OrderRow;
  pl_event_id : Uuid;
  pl_reference : option string;
  pl_quote : option Quote;
}.

(** The statements of a bind before phase 1; the plan's order is the row as
    bound. *)
Definition bind_statements (state : PaymentsState) (actor : Pubky) (method : string) (payment : PaymentRow) (order : OrderRow)
    (url reference : option string) (adapter : string) (quote : option Quote) (now : Time) : H BindPlan :=
  do* (if bool_decide (is_Some (o_paykit_invoice_id order)) then record_released_attempt (o_id order) else ret tt) in
  let* updated := update_one orders order_check (o_id order) always (bind_row method url reference now) in
  do* update_where payments payment_check (p_id payment) always (fun p =>
        p <| p_revision := p_revision p + 1 |> <| p_adapter := adapter |> <| p_updated_at := now |>) in
  let* command_id := fresh_uuid in
  let* event_id := insert_event command_id (order_aggregate_id (o_id order)) (o_revision updated) actor
    "order.payment_method_bound" now in
  do* insert_notification_intent event_id "payment_method_bound" (o_seller_pubky order) actor
        (order_aggregate_id (o_id order)) None now in
  ret (mkBindPlan payment updated event_id reference quote).

Definition bind_begin (state : PaymentsState) (runtime : PaymentsRuntime) (actor : Pubky) (order_id : Uuid)
    (method : string) (reserved : option Z) (samples : list FxRateSample) (fetched : RateSample + FxError) (now : Time)
    : H (OrderReply + BindPlan) :=
  let* checked := bind_checks actor order_id method in
  match checked with
  | inl reply => ret (inl reply)
  | inr (payment, order) =>
      let* config := load_config (o_seller_pubky order) in
      let* quote := (if is_bitcoin method
                     then let* quote := quote_bitcoin runtime config order samples fetched now in ret (Some quote)
                     else ret None) in
      let* order := bind_hold order
        (if is_bitcoin method then ps_bitcoin_window_seconds state else ps_fiat_window_seconds state) now in
      let* columns := method_columns state method config order reserved in
      let '(url, reference, adapter) := columns in
      let* plan := bind_statements state actor method payment order url reference adapter quote now in
      ret (inr plan)
  end.

Definition request_error (error : PaykitRequestError) : CommandFailure :=
  match error with
  | SellerAccountUnavailable =>
      method_error InvalidState "seller_account_unclaimed" "The seller has no claimed Bitcoin receiving account."
  | ReaderNotPayable =>
      method_error InvalidState "buyer_paykit_wallet_required"
        "Connect Bitkit (or another Paykit wallet) to pay with Bitcoin."
  | ReaderSetupPending =>
      method_error InvalidState "buyer_paykit_wallet_setup_needed"
        "Reader wallet setup needed. Finish setting up Bitkit (or another Paykit wallet) for this identity, then choose Pay again."
  | PaykitRejected =>
      method_error InvalidState "paykit_rejected"
        "The Paykit payment request was refused (the buyer may have no Paykit-enabled wallet)."
  | TotalInconsistent =>
      method_error InvalidState "paykit_total_inconsistent" "The Paykit server returned an inconsistent payment total."
  | PaykitUnavailable =>
      method_error UpstreamUnavailable "paykit_unavailable" "The Paykit server could not be reached; try again."
  end.

(** [DateTime::timestamp]. *)
Definition timestamp (t : Time) : Z := t / seconds 1.

(** [i64::try_from(z).expect(msg)]. *)
Definition expect_i64 (z : Z) (message : string) : H Z := if in_i64 z then ret z else panic message.

Definition quote_columns (order : OrderRow) (quote : Quote) (expires_at : Time) : H (option BitcoinQuote) :=
  match quote with
  | (Some (rate, sample), sats) =>
      let* sats := expect_i64 sats "quote sats fit i64" in
      do* debug_assert (in_range (- 2 ^ 15) (2 ^ 15 - 1) (o_exponent order)) "exponent fits i16" in
      ret (Some (mkBitcoinQuote (to_string_value rate) (sm_fetched_at sample) sats expires_at (o_currency order)
                   (o_exponent order)))
  | (None, _) => ret None
  end.

(** The prepared invoice pinned to the order, the payment typed in satoshi,
    and the activation row. *)
Definition persist_prepared (plan : BindPlan) (quote : Quote) (endpoint : string) (prepared : PaykitPrepared)
    (expires_at now : Time) : H unit :=
  let order := pl_order plan in
  let* total := expect_i64 (kp_total_sats prepared) "total_sats fits i64" in
  let* columns := quote_columns order quote expires_at in
  do* update_where orders order_check (o_id order) always (fun o =>
        o <| o_paykit_invoice_id := Some (kp_invoice_id prepared) |> <| o_paykit_stack_id := Some (kp_stack_id prepared) |>
          <| o_paykit_stack_endpoint := Some endpoint |> <| o_paykit_total_sats := Some total |>
          <| o_bind := (o_bind o) <| bd_expires_at := Some expires_at |>
               <| bd_prepare_expires_at := Some (kp_prepare_expires_at prepared) |>
               <| bd_allocation_mode := Some (kp_allocation_mode prepared) |>
               <| bd_address_fingerprint := Some (kp_address_fingerprint prepared) |> <| bd_quote := columns |> |>
          <| o_paykit_activation_state := Some "preparing" |> <| o_updated_at := now |>) in
  do* update_where payments payment_check (p_id (pl_payment plan)) always (fun p =>
        p <| p_amount_minor := total |> <| p_currency := "SAT" |> <| p_exponent := 0 |> <| p_updated_at := now |>) in
  enqueue (pl_event_id plan) "paykit.activate"
    (PaykitActivate (o_id order) (kp_invoice_id prepared) (kp_stack_id prepared) (kp_total_sats prepared) endpoint 0) now.

(** A courtesy void of a prepared invoice. *)
Record CourtesyVoid := mkVoid { vd_invoice_id : Uuid; vd_stack_id : string; vd_endpoint : string }.

(** What the client reports of the commit: success, or an error after which
    the transaction may be durable and the order may be readable. *)
Inductive CommitReport := Committed | CommitError (durable readable : bool).

(** [resolve_ambiguous_bind_commit]: void only a bind that is confirmed absent. *)
Definition resolve_ambiguous_bind_commit (void : CourtesyVoid) (order_id : Uuid) (reference : string) (readable : bool)
    (db : Db) : option CourtesyVoid :=
  if negb readable then None
  else
    match orders db !! order_id with
    | Some o =>
        if bool_decide (o_paykit_request_reference o = Some reference) &&
           bool_decide (o_paykit_invoice_id o = Some (vd_invoice_id void))
        then None else Some void
    | None => Some void
    end.

(** The commit of a bind: [before] is the store without the transaction. *)
Definition commit_bind (commit : CommitReport) (reply : OrderReply) (prepared : option (CourtesyVoid * string))
    (order_id : Uuid) (before after : Db) : Reply OrderReply * option CourtesyVoid * Db :=
  match commit with
  | Committed => (Replied reply, None, after)
  | CommitError durable readable =>
      let db := if durable then after else before in
      (ServerError,
       match prepared with
       | Some (void, reference) => resolve_ambiguous_bind_commit void order_id reference readable db
       | None => None
       end, db)
  end.

(** The order the reply shows, read again. *)
Definition persist_and_reply (plan : BindPlan) (quote : Quote) (endpoint : string) (prepared : PaykitPrepared)
    (order_id : Uuid) (expires_at now : Time) : H OrderReply :=
  do* persist_prepared plan quote endpoint prepared expires_at now in
  let* row := fetch_order_for_update order_id in
  let* order := or_fail row (Protocol "order vanished mid-bind") in
  order_response order.

(** Phase 1 and what follows it. *)
Definition bind_bitcoin (state : PaymentsState) (client : PaykitClient) (plan : BindPlan) (quote : Quote)
    (reference : string) (number : Z) (order_id : Uuid) (commit : CommitReport) (now : Time) (before db : Db)
    : Reply OrderReply * option CourtesyVoid * Db :=
  let order := pl_order plan in
  let amount_sats := snd quote in
  let expires_at := default (now + seconds (ps_bitcoin_window_seconds state)) (o_hold_expires_at order) in
  match create_payment_request client (o_seller_pubky order) (o_buyer_pubky order) reference amount_sats expires_at
          (reference +:+ ":" +:+ pretty number) with
  | inr error => (Rejected (request_error error), None, before)
  | inl prepared =>
      if negb (kp_total_sats prepared =? u64_of (amount_sats + kp_nonce_sats prepared))
      then (Rejected (request_error TotalInconsistent), None, before)
      else
        let void := mkVoid (kp_invoice_id prepared) (kp_stack_id prepared) (pk_base_url client) in
        if negb (timestamp (kp_expires_at prepared) =? timestamp expires_at)
        then (Rejected (method_error InvalidState "paykit_expiry_inconsistent"
                          "The Paykit server returned an inconsistent payment expiry."), Some void, before)
        else
          match persist_and_reply plan quote (pk_base_url client) prepared order_id expires_at now db with
          | Done reply db' => commit_bind commit reply (Some (void, reference)) order_id before db'
          | Refused _ _ | Failed _ => (ServerError, Some void, before)
          | Panicked message => (Crashed message, None, before)
          end
  end.

(** [bind_payment_method]: the reply, the void that is sent, the store. *)
Definition bind_payment_method (state : PaymentsState) (actor : Pubky) (order_id : Uuid) (method : string)
    (samples : list FxRateSample) (fetched : RateSample + FxError) (commit : CommitReport) (now : Time) (db : Db)
    : Reply OrderReply * option CourtesyVoid * Db :=
  match ps_runtime state with
  | None => (Rejected payments_disabled, None, db)
  | Some runtime =>
      if negb (known_method method)
      then (Rejected (method_error InvalidCommand "invalid_method"
                        "The payment method must be bitcoin, stripe, or paypal."), None, db)
      else
        match (if is_bitcoin method then in_tx (reserve_attempt actor order_id) db else (Replied None, db)) with
        | (Replied reserved, db1) =>
            match bind_begin state runtime actor order_id method reserved samples fetched now db1 with
            | Refused f _ => (Rejected f, None, db1)
            | Failed _ => (ServerError, None, db1)
            | Panicked message => (Crashed message, None, db1)
            | Done (inl reply) _ => (Replied reply, None, db1)
            | Done (inr plan) db2 =>
                match pl_reference plan, reserved, pl_quote plan, pr_paykit runtime with
                | Some reference, Some number, Some quote, Some client =>
                    bind_bitcoin state client plan quote reference number order_id commit now db1 db2
                | Some _, Some _, _, _ => (Crashed "checked above", None, db1)
                | _, _, _, _ =>
                    match order_response (pl_order plan) db2 with
                    | Done reply db3 => commit_bind commit reply None order_id db1 db3
                    | _ => (ServerError, None, db1)
                    end
                end
            end
        | (Rejected f, db1) => (Rejected f, None, db1)
        | (ServerError, db1) => (ServerError, None, db1)
        | (Crashed message, db1) => (Crashed message, None, db1)
        end
  end.

(** ** Fiat payments *)

Definition settle_gateway (state : PaymentsState) (order_id : Uuid) (gateway : option GatewayPayment) (now : Time) : H unit :=
  match gateway with
  | None => ret tt
  | Some payment => settle_verified_payment (ps_attestor state) order_id payment now
  end.

(** The order read again, after its gateway payment is settled. *)
Definition settled_response (state : PaymentsState) (order_id : Uuid) (gateway : option GatewayPayment) (order : OrderRow)
    (now : Time) : H OrderReply :=
  do* settle_gateway state order_id gateway now in order_response order.

Definition read_order_again (order_id : Uuid) : H OrderRow :=
  let* row := fetch_order_for_update order_id in or_refuse row order_not_found.

(** A step of the review inside an endpoint: every failure is a server error. *)
Definition late_step {A} (m : R A) : H A := fun db =>
  match m db with
  | Done a db' => Done a db'
  | Refused _ _ => Failed (Protocol "late fiat settlement")
  | Failed e => Failed e
  | Panicked message => Panicked message
  end.

Definition fiat_recipients (actor : string) (order : OrderRow) : list string :=
  if (actor =? o_buyer_pubky order)%string then [o_seller_pubky order]
  else if (actor =? o_seller_pubky order)%string then [o_buyer_pubky order]
  else [o_buyer_pubky order; o_seller_pubky order].

(** The confirmation of an order that could be confirmed. *)
Definition confirm_fiat (actor : string) (command_id : Uuid) (payment : PaymentRow) (confirmed : OrderRow) (now : Time) : H unit :=
  let* row := update_one payments payment_check (p_id payment) always (fun p =>
    p <| p_state := PConfirmed |> <| p_revision := p_revision p + 1 |> <| p_updated_at := now |>) in
  let* event_id := insert_event command_id (payment_aggregate_id (p_id payment)) (p_revision row) actor
    "payment.confirmed" now in
  for_each (fiat_recipients actor confirmed) (fun recipient =>
    insert_notification_intent event_id "payment_confirmed" recipient actor (order_aggregate_id (o_id confirmed)) None now).

(** The evidence of a payment on its order. *)
Definition stamp_evidence (order_id : Uuid) (transaction_ref : option string) (verified_by : string) : H unit :=
  do* (match transaction_ref with
       | Some reference =>
           let* _ := update_where orders order_check order_id always
             (fun o => o <| o_fiat := (o_fiat o) <| fc_transaction_ref := Some reference |> |>) in ret tt
       | None => ret tt
       end) in
  let* _ := update_where orders order_check order_id always
    (fun o => o <| o_fiat := (o_fiat o) <| fc_verified_by := Some verified_by |> |>) in
  ret tt.

(** The first transaction: a reply, or the command under which an order that
    cannot be confirmed goes to manual review. *)
Definition fiat_transaction (state : PaymentsState) (actor : string) (order_id : Uuid) (transaction_ref : option string)
    (verified_by : string) (gateway : option GatewayPayment) (now : Time) : H (OrderReply + PaymentRow * Uuid) :=
  let* rows := lock_order order_id in
  let '(payment, order) := rows in
  if bool_decide (p_state payment = PExpired) then
    let* command_id := fresh_uuid in
    do* late_step (apply_late_money (ps_keys state) payment order command_id actor now) in
    let* order := read_order_again order_id in
    let* reply := settled_response state order_id gateway order now in
    ret (inl reply)
  else if negb (bool_decide (p_state payment = PAwaitingEntitlement)) then
    let* reply := settled_response state order_id gateway order now in
    ret (inl reply)
  else
    do* stamp_evidence order_id transaction_ref verified_by in
    let* command_id := fresh_uuid in
    let* undeliverable := unpinnable order in
    if undeliverable then
      do* internal_failure (refund_required payment order "digital delivery unavailable at payment" command_id actor now) in
      do* settle_gateway state order_id gateway now in
      let* order := read_order_again order_id in
      let* reply := order_response order in
      ret (inl reply)
    else
      let* result := attempt (confirm_order actor command_id payment order (ps_keys state) now) in
      match result with
      | inl (confirmed, _, _) =>
          do* confirm_fiat actor command_id payment confirmed now in
          let* reply := settled_response state order_id gateway confirmed now in
          ret (inl reply)
      | inr _ => ret (inr (payment, command_id))
      end.

(** The second transaction: the money is kept under manual review. *)
Definition review_transaction (state : PaymentsState) (actor : string) (order_id : Uuid) (payment : PaymentRow)
    (command_id : Uuid) (gateway : option GatewayPayment) (now : Time) : H OrderReply :=
  let* updated := update_where payments payment_check (p_id payment)
    (fun p => bool_decide (p_state p = PAwaitingEntitlement))
    (fun p => p <| p_state := PManualReview |> <| p_revision := p_revision p + 1 |>
                <| p_manual_review_entered_at := Some now |> <| p_updated_at := now |>) in
  do* (match updated with
       | Some p =>
           let* _ := insert_event command_id (payment_aggregate_id (p_id payment)) (p_revision p) actor
             "payment.manual_review" now in ret tt
       | None => ret tt
       end) in
  let* order := read_order_again order_id in
  settled_response state order_id gateway order now.

(** [apply_fiat_paid]; the numbers drawn by the first transaction stay drawn. *)
Definition apply_fiat_paid (state : PaymentsState) (actor : string) (order_id : Uuid) (transaction_ref : option string)
    (verified_by : string) (gateway : option GatewayPayment) (now : Time) (db : Db) : Reply OrderReply * Db :=
  match fiat_transaction state actor order_id transaction_ref verified_by gateway now db with
  | Done (inl reply) db' => (Replied reply, db')
  | Done (inr (payment, command_id)) db' =>
      in_tx (review_transaction state actor order_id payment command_id gateway now)
        (upd draws (fun _ => draws db') db)
  | Refused f _ => (Rejected f, db)
  | Failed _ => (ServerError, db)
  | Panicked message => (Crashed message, db)
  end.

(** [read_order_and_payment]. *)
Definition read_order_and_payment (order_id : Uuid) (db : Db) : option (OrderRow * PaymentRow) :=
  order ← orders db !! order_id;
  payment ← snd <$> find (fun kv => N.eqb (p_order_id (snd kv)) order_id) (map_to_list (payments db));
  Some (order, payment).

Definition fiat_verified (reply : Reply OrderReply * Db) : Reply (option OrderReply) * Db :=
  (match fst reply with
   | Replied r => Replied (Some r)
   | Rejected f => Rejected f
   | ServerError => ServerError
   | Crashed message => Crashed message
   end, snd reply).

(** [verify_fiat_payment]: the order, or that no paid session was found. *)
Definition verify_fiat_payment (state : PaymentsState) (actor : Pubky) (order_id : Uuid) (now : Time) (db : Db)
    : Reply (option OrderReply) * Db :=
  match ps_runtime state, read_order_and_payment order_id db with
  | None, _ => (Rejected payments_disabled, db)
  | Some _, None => (Rejected order_not_found, db)
  | Some runtime, Some (order, payment) =>
      if negb (actor =? o_buyer_pubky order)%string && negb (actor =? o_seller_pubky order)%string
      then (Rejected (method_error Unauthorized "not_participant" "Only order participants may verify the payment."), db)
      else if negb (bool_decide (o_payment_method order = Some "stripe"))
      then (Rejected (method_error InvalidState "method_mismatch"
                        "Processor verification applies only to Stripe-bound orders."), db)
      else if negb (bool_decide (p_state payment = PAwaitingEntitlement))
      then fiat_verified (apply_fiat_paid state actor order_id None "processor" None now db)
      else
        match seller_payment_configs db !! o_seller_pubky order ≫= cf_stripe_restricted_key with
        | None => (Rejected (method_error InvalidState "stripe_key_missing"
            "The seller has no Stripe restricted key configured, so this order cannot be verified."), db)
        | Some sealed =>
            match open (pr_cipher_key runtime) (o_seller_pubky order) sealed with
            | None => (ServerError, db)
            | Some restricted_key =>
                match find_paid_session (pr_list_sessions runtime) restricted_key (uuid_text (o_id order))
                        (o_total_minor order) (o_currency order) with
                | inl (Some session_id) =>
                    fiat_verified (apply_fiat_paid state actor order_id (Some session_id) "processor" None now db)
                | inl None => (Replied None, db)
                | inr StripeKeyInvalid => (Rejected (method_error InvalidState "stripe_key_invalid"
                    "Stripe rejected the seller's restricted key; the seller must update their payment configuration."), db)
                | inr StripeUnavailable => (Rejected (method_error UpstreamUnavailable "stripe_unavailable"
                    "Stripe could not be reached; try again."), db)
                end
            end
        end
  end.

Definition valid_transaction_ref (reference : string) : bool :=
  negb (reference =? "")%string && (byte_len reference <=? 64) && bytes_all is_graphic reference.

(** [mark_fiat_paid]. *)
Definition mark_fiat_paid (state : PaymentsState) (actor : Pubky) (order_id : Uuid) (transaction_ref : option string)
    (now : Time) : H OrderReply :=
  do* refuse_if (bool_decide (ps_runtime state = None)) payments_disabled in
  do* refuse_if (negb (default true (valid_transaction_ref <$> transaction_ref)))
        (method_error InvalidCommand "invalid_transaction_ref"
           "The transaction reference must be 1-64 printable ASCII characters.") in
  let* order := read_order_again order_id in
  do* refuse_if (negb (o_buyer_pubky order =? actor)%string)
        (method_error Unauthorized "not_buyer" "Only the buyer may report a fiat payment.") in
  do* refuse_if (negb (bool_decide (o_payment_method order = Some "paypal")))
        (method_error InvalidState "method_mismatch" "Payment reporting applies only to PayPal-bound orders.") in
  if bool_decide (is_Some (fc_reported_at (o_fiat order))) then order_response order
  else
    let* updated := update_one orders order_check (o_id order) always (fun o =>
      o <| o_revision := o_revision o + 1 |>
        <| o_fiat := (o_fiat o) <| fc_reported_at := Some now |>
             <| fc_transaction_ref := or_else transaction_ref (fc_transaction_ref (o_fiat o)) |> |>
        <| o_updated_at := now |>) in
    let* command_id := fresh_uuid in
    let* event_id := insert_event command_id (order_aggregate_id (o_id order)) (o_revision updated) actor
      "order.fiat_payment_reported" now in
    do* insert_notification_intent event_id "fiat_payment_reported" (o_seller_pubky order) actor
          (order_aggregate_id (o_id order)) None now in
    order_response updated.

(** [confirm_fiat_received]. *)
Definition confirm_fiat_received (state : PaymentsState) (actor : Pubky) (order_id : Uuid) (now : Time) (db : Db)
    : Reply OrderReply * Db :=
  match ps_runtime state, read_order_and_payment order_id db with
  | None, _ => (Rejected payments_disabled, db)
  | Some _, None => (Rejected order_not_found, db)
  | Some _, Some (order, _) =>
      if negb (o_seller_pubky order =? actor)%string
      then (Rejected (method_error Unauthorized "not_seller" "Only the seller may confirm a received fiat payment."), db)
      else if negb (bool_decide (o_payment_method order = Some "paypal"))
      then (Rejected (method_error InvalidState "method_mismatch"
                        "Receipt confirmation applies only to PayPal-bound orders."), db)
      else apply_fiat_paid state actor order_id None "seller" None now db
  end.

(** ** PayPal notifications *)

(** The fields of a form: the last value of a repeated name. *)
Definition form_fields (body : string) : gmap string string :=
  fold_left (fun m '(key, value) => <[key := value]> m) (parse_form body) ∅.

(** The merchant's address if a completed notification pays this order. *)
Definition completed_payment (fields : gmap string string) (order : OrderRow) (config : option PaymentConfigRow)
    : option string :=
  email ← config ≫= cf_paypal_merchant_email;
  if bool_decide (o_payment_method order = Some "paypal") && paid_to_merchant fields email &&
     (field_of fields "mc_currency" =? o_currency order)%string &&
     bool_decide (parse_gateway_amount_minor (field_of fields "mc_gross") (o_exponent order) = Some (o_total_minor order))
  then Some email else None.

Definition ipn_status (reply : Reply OrderReply) : Z :=
  match reply with
  | Replied _ => 200
  | Rejected f => if 500 <=? http_status (f_code f) then 500 else 200
  | ServerError => 500
  | Crashed _ => 500
  end.

(** A verified [Completed] notification. *)
Definition apply_completed_ipn (state : PaymentsState) (fields : gmap string string) (now : Time) (db : Db) : Z * Db :=
  match parse_uuid (field_of fields "custom") with
  | None => (200, db)
  | Some order_id =>
      match read_order_and_payment order_id db with
      | None => (200, db)
      | Some (order, _) =>
          match completed_payment fields order (seller_payment_configs db !! o_seller_pubky order) with
          | None => (200, db)
          | Some merchant_email =>
              let txn_id := field_of fields "txn_id" in
              let transaction_ref := if negb (txn_id =? "")%string && (byte_len txn_id <=? 64) then Some txn_id else None in
              let gateway := (fun txn_id => from_fields txn_id merchant_email fields) <$> paypal_transaction_id txn_id in
              let '(reply, db') := apply_fiat_paid state PAYPAL_GATEWAY_ACTOR order_id transaction_ref "gateway" gateway now db in
              (ipn_status reply, db')
          end
      end
  end.

(** [paypal_ipn]: the status PayPal reads. *)
Definition paypal_ipn (state : PaymentsState) (body : string) (now : Time) (db : Db) : Z * Db :=
  match ps_runtime state with
  | None => (200, db)
  | Some runtime =>
      match verify_ipn (pr_post_ipn runtime) body with
      | IpnInvalid => (200, db)
      | IpnUnavailable => (503, db)
      | IpnVerified =>
          let fields := form_fields body in
          let payment_status := field_of fields "payment_status" in
          if (payment_status =? "Completed")%string then apply_completed_ipn state fields now db
          else if bool_decide (is_Some (gateway_status payment_status)) then apply_refund_ipn (ps_attestor state) fields now db
          else (200, db)
      end
  end.
End Methods.
