(* ===== verification/BitcoinReview.v ===== *)
(** * Bitcoin review ([bitcoin_review.rs])

    The seller confirms an observed Bitcoin payment, or resolves one that is
    in manual review; a review nobody answers is closed after seven days.  An
    endpoint is a handler: its refusals are the review errors, and it commits
    when it answers.  Reads the code makes before it opens the transaction are
    made in the same state here. *)

From stdpp Require Import sorting.
From S2P Require Import Prelude Domain Json Text Seal StateMachines Store Commands Actions Drops.
From S2P Require Import Holds Pickup DigitalManual Cancellation Payment LocksKeys Outbox LateMoney.

Definition SELLER_CONFIRMATION_WINDOW_SECONDS : Z := 24 * 3600.
Definition MANUAL_REVIEW_INACTIVITY_DAYS : Z := 7.
Definition SELLER_RESPONSE_SLA_BUSINESS_DAYS : Z := 2.
Definition RESOLVE_DELIVERY_DEADLINE_SECONDS : Z := 3600.

(** ** Business days *)

Definition DAY : Z := seconds 86400.

(** Days since Monday; the epoch was a Thursday. *)
Definition weekday (t : Time) : Z := (t / DAY + 3) mod 7.

Definition weekend (t : Time) : bool := 5 <=? weekday t.

(** The loop of [add_business_days]: each turn is a day. *)
Fixpoint business_days_loop (fuel : nat) (current : Time) (remaining : Z) : option Time :=
  if remaining <=? 0 then Some current
  else
    match fuel with
    | O => None
    | S fuel =>
        let current := current + DAY in
        business_days_loop fuel current (if weekend current then remaining else remaining - 1)
    end.

(** [add_business_days]: three turns a day are enough. *)
Definition add_business_days (start : Time) (days : Z) : option Time :=
  business_days_loop (3 * Z.to_nat days) start days.

(** ** Review errors *)

Inductive ReviewReason :=
| ConfirmationObservationMismatch
| ConfirmationEffectsFailed
| InvalidReason
| InvalidIdempotencyKey
| InvalidOutcome
| InvalidRefundReference
| NotOrderSeller
| OrderNotFound
| OrderNotAwaitingConfirmation
| ResolutionNotApplicable
| MissingPin
| Conflict
| AlreadyResolved
| NotInManualReview
| StockUnavailable
| RefundRequired.

Definition review_reason_str (r : ReviewReason) : string :=
  match r with
  | ConfirmationObservationMismatch => "confirmation_observation_mismatch"
  | ConfirmationEffectsFailed => "confirmation_effects_failed"
  | InvalidReason => "invalid_reason"
  | InvalidIdempotencyKey => "invalid_idempotency_key"
  | InvalidOutcome => "invalid_outcome"
  | InvalidRefundReference => "invalid_refund_reference"
  | NotOrderSeller => "not_order_seller"
  | OrderNotFound => "order_not_found"
  | OrderNotAwaitingConfirmation => "order_not_awaiting_confirmation"
  | ResolutionNotApplicable => "resolution_not_applicable"
  | MissingPin => "missing_pin"
  | Conflict => "conflict"
  | AlreadyResolved => "already_resolved"
  | NotInManualReview => "not_in_manual_review"
  | StockUnavailable => "stock_unavailable"
  | RefundRequired => "refund_required"
  end.

Definition review_error (code : ErrorCode) (reason : ReviewReason) (message : string)
    : CommandFailure :=
  refused_with_reason code message (review_reason_str reason).

Definition REFUND_REQUIRED_PAID_MESSAGE : string :=
  "This payment cannot complete the order. Return the funds, then record the refund.".

Definition not_order_seller : CommandFailure :=
  review_error Unauthorized NotOrderSeller
    "Only the seller of this order's listing may perform this action.".

Definition order_not_found : CommandFailure :=
  review_error NotFound OrderNotFound "The order was not found.".

Definition missing_pin : CommandFailure :=
  review_error InvalidState MissingPin
    "This order has no pinned paykit stack to resolve against.".

(** ** Observations *)

(** [seller_observation]. *)
Definition seller_observation (observation : option Json) : Json :=
  match observation with
  | None => JNull
  | Some v =>
      let read {A} (as_ : Json -> option A) (w : A -> Json) name :=
        (name, from_option w JNull (get name v ≫= as_)) in
      JObject [read as_str JString "txid"; read as_i64 JInt "observed_sats";
               read as_i64 JInt "confirmations"; read as_bool JBool "amount_matched";
               read as_str JString "observed_at"; read as_bool JBool "disappeared"]
  end.

(** [add_seller_payment_evidence]: only for the seller. *)
Definition payment_evidence (order : OrderRow) (actor : string) : option PaymentEvidence :=
  if (actor =? o_seller_pubky order)%string then
    Some (mkPaymentEvidence (seller_observation (o_paykit_observation order))
            (o_paykit_observed_sats order) (o_paykit_seller_confirmation_entered_at order)
            (o_paykit_seller_confirmation_deadline order))
  else None.

(** The amount of the stored observation. *)
Definition observed_sats (observation : option Json) : option Z :=
  v ← observation; n ← get "observed_sats" v; as_i64 n.

(** [observed_sats = COALESCE(observed_sats, observation->>'observed_sats')]. *)
Definition freeze_observed_sats (o : OrderRow) : OrderRow :=
  o <| o_paykit_observed_sats :=
         match o_paykit_observed_sats o with
         | Some s => Some s
         | None => observed_sats (o_paykit_observation o)
         end |>.

(** ** The resolution *)

Record ResolutionInput := mkResolutionInput {
  ri_outcome : string;
  ri_basis : string;
  ri_resolved_by : option string;
  ri_reason : option string;
  ri_refund_reference : option string;
  ri_resolution_id : Uuid;
  ri_request_hash : string;
  ri_event_actor : string;
}.

Definition is_paid (input : ResolutionInput) : bool := (ri_outcome input =? "paid")%string.
Definition is_refunded (input : ResolutionInput) : bool := (ri_outcome input =? "refunded")%string.

Definition exit_state (input : ResolutionInput) : PaymentState :=
  if is_paid input || is_refunded input then PConfirmed else PExpired.

Definition resolved_payment (input : ResolutionInput) (now : Time) (p : PaymentRow) : PaymentRow :=
  p <| p_state := exit_state input |> <| p_revision := p_revision p + 1 |>
    <| p_resolution_id := Some (ri_resolution_id input) |>
    <| p_resolution_outcome := Some (ri_outcome input) |>
    <| p_resolution_basis := Some (ri_basis input) |> <| p_resolved_at := Some now |>
    <| p_resolved_by_pubky := ri_resolved_by input |>
    <| p_refund_reference := ri_refund_reference input |>
    <| p_manual_review_entered_at := None |> <| p_updated_at := now |>.

Section Resolution.
Context `{!UuidCrate}.

(** [enqueue_resolve_row]. *)
Definition enqueue_resolve_row (order : OrderRow) (payment_id event_id : Uuid)
    (resolution : string) (now : Time) : R unit :=
  match o_paykit_invoice_id order, o_paykit_stack_id order, o_paykit_stack_endpoint order with
  | Some invoice_id, Some stack_id, Some endpoint =>
      internally (insert resolve_outbox resolve_check (o_id order)
        (mkResolve payment_id event_id invoice_id resolution now stack_id endpoint DQueued None now
           (now + seconds RESOLVE_DELIVERY_DEADLINE_SECONDS) now) no_clash)
  | _, _, _ => refuse RMissingPin
  end.

(** [cancel_held_order]. *)
Definition cancel_held_order (order : OrderRow) (input : ResolutionInput) (reason : string)
    (now : Time) : R OrderRow :=
  if negb (bool_decide (o_state order = OPendingPayment)) then
    sql_fail (Protocol "order is not pending payment")
  else
    do* (if bool_decide (is_Some (o_auction_aggregate_id order)) then
           internally (release_reserved_hold order now)
         else if o_stock_held order then
           do* internally (credit_order_drop order now) in
           internally (release_lines order HReserved now)
         else ret tt) in
    let* updated := internally (update_one orders order_check (o_id order)
      (fun o => o_revision o =? o_revision order)
      (fun o => cancel_row OCancelled reason now (o <| o_revision := o_revision o + 1 |>))) in
    let* event_id := internally (insert_event (ri_resolution_id input)
      (order_aggregate_id (o_id order)) (o_revision updated) (ri_event_actor input)
      "order.cancelled" now) in
    do* internally (insert_notification_intent event_id "order_cancelled" (o_buyer_pubky order)
          (ri_event_actor input) (order_aggregate_id (o_id order)) None now) in
    ret updated.

(** [apply_paid_effects]. *)
Definition apply_paid_effects (keys : ConfirmKeys) (order : OrderRow) (payment : PaymentRow)
    (input : ResolutionInput) (now : Time) : R OrderRow :=
  do* (match o_state order with
       | OPendingPayment =>
           let* held := hold_present order in
           if held then ret tt else reacquire_hold order now
       | OCancelled => reacquire_hold order now
       | _ => sql_fail (Protocol "order in unexpected state")
       end) in
  let* row := internally (fetch_order_for_update (o_id order)) in
  match row with
  | None => panic "order locked above"
  | Some order_for_confirm =>
      let* result := internally (attempt (confirm_order (ri_event_actor input)
        (ri_resolution_id input) payment order_for_confirm keys now)) in
      match result with
      | inl (order, _, _) => ret order
      | inr failure =>
          if bool_decide (f_code failure = InsufficientInventory) ||
             bool_decide (f_code failure = InvalidState)
          then refuse RStockUnavailable
          else sql_fail (Protocol (f_message failure))
      end
  end.

Definition refunded_row (refund : ExternalRefund) (now : Time) (o : OrderRow) : OrderRow :=
  o <| o_revision := o_revision o + 1 |> <| o_state := ORefundedExternal |>
    <| o_external_refund := Some refund |> <| o_updated_at := now |>.

(** [apply_refunded_effects]: the refund of the amount observed. *)
Definition apply_refunded_effects (order : OrderRow) (input : ResolutionInput) (now : Time)
    : R OrderRow :=
  let* current :=
    (if bool_decide (o_state order = OPendingPayment)
     then cancel_held_order order input "refunded by the seller after manual review" now
     else ret order) in
  if negb (bool_decide (o_state current = OCancelled)) then
    sql_fail (Protocol "order in unexpected state")
  else
    let* amount_minor := or_fail (o_paykit_observed_sats order)
      (Protocol "the Paykit observed amount has not been frozen") in
    (* The constraint on the payment row has already asked for the reference. *)
    let* reference := or_fail (ri_refund_reference input) CheckViolation in
    let* updated := internally (update_one orders order_check (o_id order)
      (fun o => o_revision o =? o_revision current)
      (refunded_row (mkExternalRefund amount_minor reference now) now)) in
    let* event_id := internally (insert_event (ri_resolution_id input)
      (order_aggregate_id (o_id order)) (o_revision updated) (ri_event_actor input)
      "refund.recorded_external" now) in
    do* internally (insert_notification_intent event_id "refund_recorded" (o_buyer_pubky order)
          (ri_event_actor input) (order_aggregate_id (o_id order)) None now) in
    ret updated.

(** [apply_abandoned_effects]. *)
Definition apply_abandoned_effects (order : OrderRow) (input : ResolutionInput) (now : Time)
    : R OrderRow :=
  match o_state order with
  | OPendingPayment => cancel_held_order order input "closed after manual review" now
  | OCancelled => ret order
  | _ => sql_fail (Protocol "order in unexpected state")
  end.

(** [apply_outcome_effects]. *)
Definition apply_outcome_effects (keys : ConfirmKeys) (order : OrderRow) (payment : PaymentRow)
    (input : ResolutionInput) (now : Time) : R OrderRow :=
  if is_paid input then apply_paid_effects keys order payment input now
  else if is_refunded input then apply_refunded_effects order input now
  else apply_abandoned_effects order input now.

Definition resolution_response (order : OrderRow) (input : ResolutionInput) (now : Time)
    : ResolutionResponse :=
  mkResolutionResponse (project order (ParticipantList (ri_event_actor input)))
    (payment_evidence order (ri_event_actor input)) (o_id order) (ri_resolution_id input)
    (ri_outcome input) (ri_basis input) now (ri_resolved_by input).

Definition paykit_resolution (input : ResolutionInput) : string :=
  if is_paid input then "paid_manually" else if is_refunded input then "refunded" else "abandoned".

(** The event, the notification, the audit row and the row for Paykit. *)
Definition record_resolution (order updated_order : OrderRow) (payment : PaymentRow)
    (payment_revision : Z) (input : ResolutionInput) (now : Time) : R ResolutionResponse :=
  let* event_id := internally (insert_event (ri_resolution_id input)
    (payment_aggregate_id (p_id payment)) payment_revision (ri_event_actor input)
    (if is_paid input then "payment.confirmed" else "payment.resolved") now) in
  do* internally (insert_notification_intent event_id
        (if is_paid input then "payment_confirmed" else "payment_resolved") (o_buyer_pubky order)
        (ri_event_actor input) (order_aggregate_id (o_id order)) None now) in
  let response := resolution_response updated_order input now in
  do* internally (insert manual_resolutions manual_resolution_check (o_id order)
        (mkManualResolution (p_id payment) (ri_resolution_id input) (ri_outcome input)
           (ri_basis input) now (ri_resolved_by input) (ri_reason input)
           (ri_refund_reference input)
           (mkObservedPayment (o_paykit_observation updated_order) (p_amount_minor payment)
              (p_currency payment) (p_exponent payment) (o_paykit_observed_sats updated_order))
           (ri_request_hash input) response event_id) no_clash) in
  do* enqueue_resolve_row order (p_id payment) event_id (paykit_resolution input) now in
  ret response.

(** [apply_manual_review_resolution]; a failure rolls everything back. *)
Definition apply_manual_review_resolution (keys : ConfirmKeys) (order_id : Uuid)
    (input : ResolutionInput) (now : Time) : R ResolutionResponse :=
  let* row := internally (lock_payment order_id) in
  let* payment := or_fail row (Protocol "payment row missing") in
  do* refuse_if (negb (p_adapter payment =? "paykit")%string) RNotInManualReview in
  do* refuse_if (negb (bool_decide (p_state payment = PManualReview)))
        (if bool_decide (is_Some (p_resolution_outcome payment)) then RAlreadyResolved
         else RNotInManualReview) in
  let* row := internally (fetch_order_for_update order_id) in
  let* order := or_fail row (Protocol "order row missing") in
  do* refuse_if (is_paid input && bool_decide (p_review_reason payment = Some "refund_required"))
        RRefundRequired in
  let* cas := internally (update_where payments payment_check (p_id payment)
    (fun p => bool_decide (p_state p = PManualReview) &&
              bool_decide (p_resolution_outcome p = None))
    (resolved_payment input now)) in
  let* resolved := or_refuse cas RAlreadyResolved in
  let* updated_order := apply_outcome_effects keys order payment input now in
  record_resolution order updated_order payment (p_revision resolved) input now.
End Resolution.

(** ** The endpoints *)

(** [listing_seller_for_order]: the order with the seller of its own listing. *)
Definition listing_seller_for_order (order_id : Uuid) : H (option (OrderRow * Pubky)) :=
  let* row := select orders order_id in
  match row with
  | Some order =>
      match o_lines order with
      | line :: _ =>
          let* listing := fetch_listing (ln_listing_aggregate_id line) in
          ret ((fun l => (order, l_seller_pubky l)) <$> listing)
      | [] => ret None
      end
  | None => ret None
  end.

(** A review error for each failure of a resolution. *)
Definition resolution_error (f : ResolutionFailure) : CommandFailure :=
  match f with
  | RAlreadyResolved =>
      review_error InvalidState AlreadyResolved "This order's payment was already resolved."
  | RNotInManualReview =>
      review_error InvalidState NotInManualReview
        "This order's payment is not awaiting manual resolution."
  | RRefundRequired => review_error InvalidState RefundRequired REFUND_REQUIRED_PAID_MESSAGE
  | RStockUnavailable =>
      review_error InsufficientInventory StockUnavailable
        "The order's inventory can no longer be reacquired; choose refunded or abandoned."
  | RMissingPin => missing_pin
  end.

(** A review step inside an endpoint. *)
Definition reviewing {A} (error : ResolutionFailure -> CommandFailure) (m : R A) : H A := fun db =>
  match m db with
  | Done a db' => Done a db'
  | Refused f db' => Refused (error f) db'
  | Failed e => Failed e
  | Panicked message => Panicked message
  end.

Definition reason_too_long (reason : option string) : bool :=
  match reason with Some r => 500 <? byte_len r | None => false end.

Record ConfirmBitcoinPaymentBody := mkConfirmBody {
  cb_reason : option string;
  cb_txid : option string;
  cb_confirmed_amount_sats : option Z;
}.

Record ConfirmationView := mkConfirmationView {
  cv_order_id : Uuid;
  cv_confirmed_by_pubky : Pubky;
  cv_confirmed_at : Time;
  cv_confirmed_txid : option string;
  cv_confirmed_amount_sats : option Z;
  cv_confirmed_reason : option string;
  cv_paykit_observation : Json;
}.

(** A replay answers without the order. *)
Record ConfirmationResponse := mkConfirmationResponse {
  cp_order : option (OrderView * option PaymentEvidence * list ReviewRow);
  cp_confirmation : ConfirmationView;
}.

Definition confirmation_view (order_id : Uuid) (actor : string) (c : SellerConfirmationRow)
    : ConfirmationView :=
  mkConfirmationView order_id actor (sc_confirmed_at c) (sc_confirmed_txid c)
    (sc_confirmed_amount_sats c) (sc_confirmed_reason c)
    (seller_observation (Some (sc_paykit_observation c))).

Definition OBSERVATION_MISMATCH : CommandFailure :=
  review_error InvalidCommand ConfirmationObservationMismatch
    "The supplied transaction details do not match the observed payment.".

(** A supplied detail has to be the observed one. *)
Definition body_matches (body : ConfirmBitcoinPaymentBody) (observation : Json) : bool :=
  match cb_txid body with
  | Some supplied => bool_decide (get "txid" observation ≫= as_str = Some supplied)
  | None => true
  end &&
  match cb_confirmed_amount_sats body with
  | Some supplied => bool_decide (get "observed_sats" observation ≫= as_i64 = Some supplied)
  | None => true
  end.

Definition leave_seller_window (now : Time) (o : OrderRow) : OrderRow :=
  o <| o_paykit_request_state := Some "confirmed" |>
    <| o_paykit_seller_confirmation_entered_at := None |>
    <| o_paykit_seller_confirmation_deadline := None |> <| o_updated_at := now |>.

Section Endpoints.
Context `{!UuidCrate, LC : !LocksCrates}.

(** The confirming transaction. *)
Definition attest_payment (keys : ConfirmKeys) (actor : string) (order : OrderRow)
    (body : ConfirmBitcoinPaymentBody) (observation : Json) (now : Time)
    : H ConfirmationResponse :=
  let* row := lock_payment (o_id order) in
  let* payment := or_fail row (Protocol "payment row missing for order") in
  let* won := update_where orders order_check (o_id order) awaits_seller
                (leave_seller_window now) in
  do* refuse_if (bool_decide (won = None))
        (review_error InvalidState OrderNotAwaitingConfirmation
           "This order is not awaiting seller confirmation.") in
  let* cas := update_where payments payment_check (p_id payment)
    (fun p => bool_decide (p_state p = PAwaitingEntitlement))
    (fun p => p <| p_state := PConfirmed |> <| p_revision := p_revision p + 1 |>
                <| p_updated_at := now |>) in
  let* confirmed_payment := or_fail cas
    (Protocol "payment left awaiting_entitlement mid-confirm") in
  do* (let* _ := update_where orders order_check (o_id order)
         (fun o => bool_decide (o_paykit_observed_sats o = None)) freeze_observed_sats in ret tt) in
  let* result := attempt (confirm_order actor (o_id order) payment order keys now) in
  match result with
  | inr failure =>
      refuse (review_error (f_code failure) ConfirmationEffectsFailed (f_message failure))
  | inl (confirmed_order, _, receipt_event_id) =>
      let* payment_event_id := insert_event (o_id order) (payment_aggregate_id (p_id payment))
        (p_revision confirmed_payment) actor "payment.confirmed" now in
      do* insert_notification_intent payment_event_id "payment_confirmed"
            (o_buyer_pubky confirmed_order) actor (order_aggregate_id (o_id order)) None now in
      let confirmation := mkSellerConfirmation (p_id payment) actor now
        (get "txid" observation ≫= as_str) (get "observed_sats" observation ≫= as_i64)
        (cb_reason body) observation receipt_event_id in
      do* insert seller_confirmations always (o_id order) confirmation no_clash in
      do* reviewing resolution_error
            (enqueue_resolve_row order (p_id payment) payment_event_id "paid_manually" now) in
      let* reviews := fetch_order_reviews (o_id order) in
      ret (mkConfirmationResponse
             (Some (project confirmed_order (ParticipantList actor),
                    payment_evidence confirmed_order actor, reviews))
             (confirmation_view (o_id order) actor confirmation))
  end.

(** [confirm_bitcoin_payment]. *)
Definition confirm_bitcoin_payment (keys : ConfirmKeys) (actor : string) (order_id : Uuid)
    (body : ConfirmBitcoinPaymentBody) (now : Time) : H ConfirmationResponse :=
  do* refuse_if (reason_too_long (cb_reason body))
        (review_error InvalidCommand InvalidReason
           "The reason must be at most 500 characters.") in
  let* found := listing_seller_for_order order_id in
  let* found := or_refuse found order_not_found in
  let '(order, seller) := found in
  do* refuse_if (negb (seller =? actor)%string) not_order_seller in
  let* existing := select seller_confirmations order_id in
  match existing with
  | Some c => ret (mkConfirmationResponse None (confirmation_view order_id actor c))
  | None =>
      let observation := default (JObject []) (o_paykit_observation order) in
      do* refuse_if (negb (body_matches body observation)) OBSERVATION_MISMATCH in
      attest_payment keys actor order body observation now
  end.

Record ResolveBitcoinPaymentBody := mkResolveBody {
  rb_outcome : string;
  rb_reason : option string;
  rb_external_refund_reference : option string;
}.

Definition valid_refund_reference (value : string) : bool :=
  negb (value =? "")%string && (byte_len value <=? 64) && bytes_all (in_range 33 126) value.

Definition opt_text (o : option string) : Json := from_option JString JNull o.

(** [resolve_request_hash]. *)
Definition resolve_request_hash (body : ResolveBitcoinPaymentBody) : H string :=
  match canonicalize (JObject [("outcome", JString (rb_outcome body));
                               ("reason", opt_text (rb_reason body));
                               ("external_refund_reference",
                                opt_text (rb_external_refund_reference body))]) with
  | Some canonical => ret (to_hex (blake3_hash canonical))
  | None => panic "resolve body canonicalizes"
  end.

(** The refund reference comes with the refunded outcome and no other. *)
Definition check_refund_reference (body : ResolveBitcoinPaymentBody) : H unit :=
  match (rb_outcome body =? "refunded")%string, rb_external_refund_reference body with
  | true, Some reference =>
      refuse_if (negb (valid_refund_reference reference))
        (review_error InvalidCommand InvalidRefundReference
           "A refunded resolution requires a valid external refund reference.")
  | true, None =>
      refuse (review_error InvalidCommand InvalidRefundReference
        "A refunded resolution requires a valid external refund reference.")
  | false, None => ret tt
  | false, Some _ =>
      refuse (review_error InvalidCommand InvalidRefundReference
        "Only a refunded resolution carries a refund reference.")
  end.

Definition pins_present (order : OrderRow) : bool :=
  bool_decide (is_Some (o_paykit_request_reference order)) &&
  bool_decide (is_Some (o_paykit_stack_id order)) &&
  bool_decide (is_Some (o_paykit_stack_endpoint order)).

(** [resolve_bitcoin_payment]; the key is the request's header read as a
    UUID. *)
Definition resolve_bitcoin_payment (keys : ConfirmKeys) (actor : string) (order_id : Uuid)
    (idempotency_key : option Uuid) (body : ResolveBitcoinPaymentBody) (now : Time)
    : H ResolutionResponse :=
  let* resolution_id := or_refuse idempotency_key
    (review_error InvalidCommand InvalidIdempotencyKey
       "The Idempotency-Key header must be a UUID.") in
  do* refuse_if (negb (existsb (String.eqb (rb_outcome body)) ["paid"; "refunded"; "abandoned"]))
        (review_error InvalidCommand InvalidOutcome
           "The outcome must be paid, refunded, or abandoned.") in
  do* refuse_if (reason_too_long (rb_reason body))
        (review_error InvalidCommand InvalidReason
           "The reason must be at most 500 characters.") in
  do* check_refund_reference body in
  let* found := listing_seller_for_order order_id in
  let* found := or_refuse found order_not_found in
  let '(order, seller) := found in
  do* refuse_if (negb (seller =? actor)%string) not_order_seller in
  do* refuse_if (negb (bool_decide (o_payment_method order = Some "bitcoin")))
        (review_error InvalidState ResolutionNotApplicable
           "Bitcoin resolution applies only to bitcoin-bound orders.") in
  do* refuse_if (negb (pins_present order)) missing_pin in
  let* request_hash := resolve_request_hash body in
  let* existing := select manual_resolutions order_id in
  match existing with
  | Some stored =>
      if N.eqb (mr_resolution_id stored) resolution_id then
        if (mr_request_hash stored =? request_hash)%string then ret (mr_response stored)
        else refuse (review_error IdempotencyConflict Conflict
               "The Idempotency-Key was already used with a different resolution.")
      else refuse (resolution_error RAlreadyResolved)
  | None =>
      reviewing resolution_error (apply_manual_review_resolution keys order_id
        (mkResolutionInput (rb_outcome body) "seller_attestation" (Some actor) (rb_reason body)
           (rb_external_refund_reference body) resolution_id request_hash actor) now)
  end.
End Endpoints.

(** ** Drain conditions of a stack *)

(** [condition_seven_clear]. *)
Definition condition_seven_clear (old_stack_id : string) (db : Db) : bool :=
  negb (existsb (fun '(id, o) =>
    bool_decide (o_paykit_stack_id o = Some old_stack_id) &&
    (awaits_seller o ||
     existsb (fun '(_, p) => N.eqb (p_order_id p) id && bool_decide (p_state p = PManualReview))
       (map_to_list (payments db)))) (map_to_list (orders db))).

(** [condition_six_blocking_rows]. *)
Definition condition_six_blocking_rows (old_stack_id : string) (db : Db) : Z :=
  Z.of_nat (length (List.filter (fun '(_, r) =>
    (rv_stack_id r =? old_stack_id)%string &&
    match rv_delivery_state r with
    | DQueued => true
    | DTerminalUnresolved => bool_decide (rv_acknowledged_at r = None)
    | DDelivered => false
    end) (map_to_list (resolve_outbox db)))).

(** ** The sweeps *)

(** One row of a batch in its own transaction: a failure is logged and the
    batch goes on. *)
Definition isolated {F A} (m : Tx Db F A) : H (option A) := fun db =>
  match m db with
  | Done a db' => Done (Some a) db'
  | Refused _ _ | Failed _ => Done None db
  | Panicked message => Panicked message
  end.

Definition SWEEP_LIMIT : nat := 100.

Definition deadline_before (a b : Time * Uuid) : Prop := fst a <= fst b.

#[export] Instance deadline_before_dec a b : Decision (deadline_before a b).
Proof. unfold deadline_before. solve_decision. Defined.

(** The orders whose seller window is over, the oldest first. *)
Definition due_windows (now : Time) (db : Db) : list Uuid :=
  map snd (take SWEEP_LIMIT (merge_sort deadline_before (omap (fun '(id, o) =>
    deadline ← o_paykit_seller_confirmation_deadline o;
    if awaits_seller o && (deadline <=? now) then Some (deadline, id) else None)
    (map_to_list (orders db))))).

(** The unresolved reviews of pinned Bitcoin orders with the instant they
    began and the alert sent. *)
Definition open_reviews (db : Db) : list (Time * (Uuid * option Time)) :=
  omap (fun '(_, p) =>
    o ← orders db !! p_order_id p;
    entered_at ← p_manual_review_entered_at p;
    if (p_adapter p =? "paykit")%string && bool_decide (o_payment_method o = Some "bitcoin") &&
       bool_decide (p_state p = PManualReview) && bool_decide (p_resolution_outcome p = None) &&
       pins_present o
    then Some (entered_at, (p_order_id p, p_manual_review_sla_alerted_at p)) else None)
    (map_to_list (payments db)).

Definition review_before (a b : Time * (Uuid * option Time)) : Prop := fst a <= fst b.

#[export] Instance review_before_dec a b : Decision (review_before a b).
Proof. unfold review_before. solve_decision. Defined.

Definition watched_reviews (db : Db) : list (Time * (Uuid * option Time)) :=
  take SWEEP_LIMIT (merge_sort review_before (open_reviews db)).

(** The alert is due. *)
Definition overdue (entered_at : Time) (alerted_at : option Time) (now : Time) : bool :=
  bool_decide (alerted_at = None) &&
  match add_business_days entered_at SELLER_RESPONSE_SLA_BUSINESS_DAYS with
  | Some due => due <=? now
  | None => false
  end.

(** Seven days without an answer. *)
Definition unresponsive (entered_at now : Time) : bool :=
  entered_at <=? now - MANUAL_REVIEW_INACTIVITY_DAYS * DAY.

Section Sweeps.
Context `{!UuidCrate, LC : !LocksCrates}.

(** [route_one_seller_confirmation_window]. *)
Definition route_one_seller_confirmation_window (order_id : Uuid) (now : Time) : H bool :=
  let* row := lock_payment order_id in
  let* payment := or_fail row (Protocol "order has no payment row") in
  let* won := update_where orders order_check order_id awaits_seller (fun o =>
    freeze_observed_sats (leave_seller_window now (o <| o_hold_expires_at := None |>))) in
  match won with
  | None => ret false
  | Some order =>
      let* cas := update_where payments payment_check (p_id payment)
        (fun p => bool_decide (p_state p = PAwaitingEntitlement))
        (fun p => p <| p_state := PManualReview |> <| p_revision := p_revision p + 1 |>
                    <| p_manual_review_entered_at := Some now |> <| p_updated_at := now |>) in
      let* reviewed := or_fail cas (Protocol "payment was not awaiting_entitlement") in
      let* command_id := fresh_uuid in
      let* event_id := insert_event command_id (payment_aggregate_id (p_id payment))
        (p_revision reviewed) (p_buyer_pubky payment) "payment.manual_review" now in
      do* insert_bitcoin_manual_review_intent event_id (o_seller_pubky order) order_id
            SellerConfirmationWindowElapsed now in
      ret true
  end.

(** [route_due_seller_confirmation_windows]: the number routed. *)
Definition route_due_seller_confirmation_windows (now : Time) : H Z :=
  let* due := gets (due_windows now) in
  let* routed := map_each due (fun order_id =>
    isolated (route_one_seller_confirmation_window order_id now)) in
  ret (Z.of_nat (length (List.filter (fun r => bool_decide (r = Some true)) routed))).

(** The alert of an overdue review: whether it was sent. *)
Definition alert_overdue (order_id : Uuid) (now : Time) : H bool :=
  let* row := lock_payment order_id in
  match row with
  | None => ret false
  | Some payment =>
      let* stamped := update_where payments payment_check (p_id payment)
        (fun p => bool_decide (p_state p = PManualReview) &&
                  bool_decide (p_manual_review_sla_alerted_at p = None))
        (fun p => p <| p_manual_review_sla_alerted_at := Some now |>
                    <| p_revision := p_revision p + 1 |> <| p_updated_at := now |>) in
      match stamped with
      | None => ret false
      | Some p =>
          let* command_id := fresh_uuid in
          let* event_id := insert_event command_id (payment_aggregate_id (p_id p)) (p_revision p)
                             SYSTEM_ACTOR "payment.manual_review_overdue" now in
          do* insert_bitcoin_manual_review_intent event_id (p_seller_pubky p) order_id
                SellerResponseOverdue now in
          ret true
      end
  end.

(** The abandoned branch of an unanswered review. *)
Definition abandon_unresponsive (keys : ConfirmKeys) (order_id : Uuid) (now : Time)
    : R ResolutionResponse :=
  let* resolution_id := internally fresh_uuid in
  apply_manual_review_resolution keys order_id
    (mkResolutionInput "abandoned" "seller_unresponsive" None
       (Some "The seller did not respond within seven days.") None resolution_id
       (to_hex (blake3_hash "seller_unresponsive:abandoned")) SYSTEM_ACTOR) now.

(** One review; an error of the alert ends the pass, an error of the
    abandonment only skips the row. *)
Definition watch_review (keys : ConfirmKeys) (now : Time)
    (review : Time * (Uuid * option Time)) : H (bool * bool) :=
  let '(entered_at, (order_id, alerted_at)) := review in
  let* alerted := (if overdue entered_at alerted_at now then alert_overdue order_id now
                   else ret false) in
  if unresponsive entered_at now then
    let* abandoned := isolated (abandon_unresponsive keys order_id now) in
    ret (alerted, bool_decide (is_Some abandoned))
  else ret (alerted, false).

(** [watch_manual_reviews]: the alerts and the reviews abandoned. *)
Definition watch_manual_reviews (keys : ConfirmKeys) (now : Time) : H (Z * Z) :=
  let* rows := gets watched_reviews in
  let* results := map_each rows (watch_review keys now) in
  ret (Z.of_nat (length (List.filter fst results)), Z.of_nat (length (List.filter snd results))).
End Sweeps.
