(* ===== verification/LocksVerification.v ===== *)
(** * Locks verification ([workers.rs])

    A worker looks up every registered Locks correlation at the Lock Server;
    only a completed lookup moves a payment.  The lookup itself is a parameter:
    what the server answered for a creator and a bundle. *)

From stdpp Require Import sorting.
From S2P Require Import Prelude Domain Json Text Seal StateMachines Store Commands Actions Drops.
From S2P Require Import Holds Pickup DigitalManual Cancellation Payment LocksKeys Locks Outbox.
From S2P Require Import LateMoney BitcoinReview.

Definition LOCKS_VERIFY_BATCH_SIZE : nat := 25.

Record ClaimedCorrelation := mkClaimed {
  cl_id : Uuid;
  cl_payment_id : Uuid;
  cl_creator_pubky : Pubky;
  cl_bundle_id_ciphertext : string;
  cl_last_observed_status : option string;
}.

(** ** The claim *)

Definition never_checked_first (a b : option Time * Uuid) : Prop :=
  match fst a, fst b with
  | None, _ => True
  | Some _, None => False
  | Some x, Some y => x <= y
  end.

#[export] Instance never_checked_first_dec a b : Decision (never_checked_first a b).
Proof. unfold never_checked_first. repeat case_match; apply _. Defined.

(** A registered, pending correlation with a bundle whose turn it is. *)
Definition due_correlation (before : Time) (c : CorrelationRow) : bool :=
  bool_decide (cr_verification_state c = VfPending) &&
  bool_decide (cr_preparation_state c = PrRegistered) &&
  bool_decide (is_Some (cr_bundle_id_ciphertext c)) &&
  match cr_last_checked_at c with None => true | Some t => t <=? before end.

Definition due_correlations (before : Time) (db : Db) : list Uuid :=
  map snd (take LOCKS_VERIFY_BATCH_SIZE (merge_sort never_checked_first (omap (fun '(id, c) =>
    if due_correlation before c then Some (cr_last_checked_at c, id) else None)
    (map_to_list (locks_correlations db))))).

Definition stamp_checked (now : Time) (c : CorrelationRow) : CorrelationRow :=
  c <| cr_last_checked_at := Some now |> <| cr_updated_at := now |>.

Definition claimed_row (c : CorrelationRow) : option ClaimedCorrelation :=
  (fun sealed => mkClaimed (cr_id c) (cr_payment_id c) (cr_creator_pubky c) sealed
                   (cr_last_observed_status c)) <$> cr_bundle_id_ciphertext c.

(** [claim_due_correlations]. *)
Definition claim_due_correlations (now : Time) (poll_seconds : Z) : H (list ClaimedCorrelation) :=
  let* due := gets (due_correlations (now - seconds poll_seconds)) in
  let* rows := gets (fun db => omap (fun id => locks_correlations db !! id) due) in
  do* modify (upd locks_correlations (fun t => foldr (fun id => alter (stamp_checked now) id) t due)) in
  ret (omap claimed_row rows).

(** ** Observations *)

(** [insert_observation]. *)
Definition insert_observation (correlation_id : Uuid) (observed_status outcome : string)
    (now : Time) : H unit :=
  modify (upd locks_observations (fun l =>
    l ++ [mkObservation correlation_id observed_status outcome now])).

(** [record_status_observation]: a status is recorded when it changes. *)
Definition record_status_observation (row : ClaimedCorrelation) (observed_status : string)
    (now : Time) : H unit :=
  if bool_decide (cl_last_observed_status row = Some observed_status) then ret tt
  else
    do* (let* _ := update_where locks_correlations correlation_check (cl_id row) always
           (fun c => c <| cr_last_observed_status := Some observed_status |>
                       <| cr_updated_at := now |>) in ret tt) in
    insert_observation (cl_id row) observed_status "none" now.

Definition pending_correlation (c : CorrelationRow) : bool :=
  bool_decide (cr_verification_state c = VfPending).

(** [record_upstream_terminal]. *)
Definition record_upstream_terminal (row : ClaimedCorrelation) (observed_status : string)
    (verification_state : VerificationState) (now : Time) : H unit :=
  let* flipped := update_where locks_correlations correlation_check (cl_id row) pending_correlation
    (fun c => c <| cr_verification_state := verification_state |>
                <| cr_last_observed_status := Some observed_status |> <| cr_updated_at := now |>) in
  if bool_decide (flipped = None) then ret tt
  else insert_observation (cl_id row) observed_status "none" now.

Definition completed_correlation (now : Time) (c : CorrelationRow) : CorrelationRow :=
  c <| cr_verification_state := VfCompleted |> <| cr_last_observed_status := Some "completed" |>
    <| cr_completed_at := Some now |> <| cr_updated_at := now |>.

(** [mark_correlation_completed]. *)
Definition mark_correlation_completed (correlation_id : Uuid) (outcome : string) (now : Time)
    : H unit :=
  let* flipped := update_where locks_correlations correlation_check correlation_id
    pending_correlation (completed_correlation now) in
  if bool_decide (flipped = None) then ret tt
  else insert_observation correlation_id "completed" outcome now.

(** ** A completed lookup *)

(** The effects of a refused step are undone before the next transaction. *)
Definition or_rolled_back {A} (m : H A) : H (A + CommandFailure) := fun db =>
  match m db with
  | Done a db' => Done (inl a) db'
  | Refused f _ => Done (inr f) db
  | Failed e => Failed e
  | Panicked message => Panicked message
  end.

(** A late-money failure ends the transaction. *)
Definition or_bail {A} (m : R A) : H A := fun db =>
  match m db with
  | Done a db' => Done a db'
  | Refused _ _ => Failed (Protocol "late locks completion failed")
  | Failed e => Failed e
  | Panicked message => Panicked message
  end.

Section Verification.
Context `{!UuidCrate}.

(** [apply_manual_review]. *)
Definition apply_manual_review (row : ClaimedCorrelation) (from_state : PaymentState) (now : Time)
    : H bool :=
  let* updated := update_where payments payment_check (cl_payment_id row)
    (fun p => bool_decide (p_state p = from_state))
    (fun p => p <| p_state := PManualReview |> <| p_revision := p_revision p + 1 |>
                <| p_manual_review_entered_at := Some now |> <| p_updated_at := now |>) in
  match updated with
  | Some p =>
      do* (let* _ := insert_event (cl_id row) (payment_aggregate_id (cl_payment_id row))
             (p_revision p) (p_buyer_pubky p) "payment.manual_review" now in ret tt) in
      do* mark_correlation_completed (cl_id row) "manual_review" now in
      ret true
  | None =>
      do* mark_correlation_completed (cl_id row) "none" now in
      ret false
  end.

Definition confirmed_payment (now : Time) (p : PaymentRow) : PaymentRow :=
  p <| p_state := PConfirmed |> <| p_revision := p_revision p + 1 |> <| p_updated_at := now |>.

(** The confirmation of a payment that still waits. *)
Definition confirm_verified (row : ClaimedCorrelation) (keys : ConfirmKeys) (payment : PaymentRow)
    (order : OrderRow) (now : Time) : H unit :=
  let* confirmed := confirm_order (p_buyer_pubky payment) (cl_id row) payment order keys now in
  let '(order, _, _) := confirmed in
  let* p := update_one payments payment_check (p_id payment) always (confirmed_payment now) in
  let* event_id := insert_event (cl_id row) (payment_aggregate_id (p_id payment)) (p_revision p)
                     (p_buyer_pubky payment) "payment.confirmed" now in
  do* insert_notification_intent event_id "payment_confirmed" (o_seller_pubky order)
        (p_buyer_pubky payment) (order_aggregate_id (o_id order)) None now in
  mark_correlation_completed (cl_id row) "payment_confirmed" now.

(** [apply_completed_lifecycle]. *)
Definition apply_completed_lifecycle (row : ClaimedCorrelation) (keys : ConfirmKeys) (now : Time)
    : H bool :=
  let* found := select payments (cl_payment_id row) in
  let* payment := or_fail found (Protocol "correlation references a missing payment") in
  match p_state payment with
  | PAwaitingEntitlement =>
      let* found := fetch_order_for_update (p_order_id payment) in
      let* order := or_fail found (Protocol "correlation references a missing order") in
      let* result := or_rolled_back (confirm_verified row keys payment order now) in
      match result with
      | inl _ => ret true
      | inr _ => apply_manual_review row PAwaitingEntitlement now
      end
  | PExpired =>
      let* found := fetch_order_for_update (p_order_id payment) in
      let* order := or_fail found (Protocol "correlation references a missing order") in
      let* outcome := or_bail (apply_late_money keys payment order (cl_id row)
                                 (p_buyer_pubky payment) now) in
      do* mark_correlation_completed (cl_id row)
            (match outcome with LmCompleted => "payment_confirmed" | _ => "manual_review" end)
            now in
      ret true
  | _ =>
      do* mark_correlation_completed (cl_id row) "none" now in
      ret false
  end.

(** [apply_locks_lookup_outcome]. *)
Definition apply_locks_lookup_outcome (lookup : Pubky -> string -> LocksLookupOutcome)
    (locks : LocksKeys) (keys : ConfirmKeys) (row : ClaimedCorrelation) (now : Time) : H bool :=
  let* bundle_id := or_fail
    (decrypt_bundle_id locks (cl_payment_id row) (cl_bundle_id_ciphertext row))
    (Protocol "correlation cannot be decrypted") in
  match lookup (cl_creator_pubky row) bundle_id with
  | LookupStatus TaskCompleted => apply_completed_lifecycle row keys now
  | LookupStatus TaskFailed =>
      do* record_upstream_terminal row "failed" VfUpstreamFailed now in ret false
  | LookupStatus TaskExpired =>
      do* record_upstream_terminal row "expired" VfUpstreamExpired now in ret false
  | LookupStatus TaskPending => do* record_status_observation row "pending" now in ret false
  | LookupStatus TaskInProgress =>
      do* record_status_observation row "in_progress" now in ret false
  | LookupNotFound => do* record_status_observation row "not_found" now in ret false
  | LookupUnavailable => ret false
  end.

(** [verify_due_locks_lifecycles]: the number of payments advanced. *)
Definition verify_due_locks_lifecycles (lookup : Pubky -> string -> LocksLookupOutcome)
    (locks : LocksKeys) (keys : ConfirmKeys) (poll_seconds : Z) (now : Time) : H Z :=
  let* claimed := claim_due_correlations now poll_seconds in
  let* applied := map_each claimed (fun row =>
    isolated (apply_locks_lookup_outcome lookup locks keys row now)) in
  ret (Z.of_nat (length (List.filter (fun r => bool_decide (r = Some true)) applied))).
End Verification.
