(* ===== verification/Workers.v ===== *)
(** * The sweeps of the background workers ([workers.rs])

    Offers and awards that ran out, drops and auctions whose time has come,
    and unpaid orders whose hold or checkout has lapsed.  [FOR UPDATE SKIP
    LOCKED] only matters between concurrent transactions; a pass here runs
    alone, so the retry after a deadlock is not needed. *)

From stdpp Require Import sorting.
From S2P Require Import Prelude StateMachines Domain Store Commands Actions Drops Holds.
From S2P Require Import Holds Cancellation Payment Auction ListingDeletion Within Leases.
From S2P Require Import Outbox LocksVerification.

(** Rows in the order of a key. *)
Definition ordered_by {A B} (before : B -> B -> Prop) `{dec : !RelDecision before} (key : A -> B)
    : list A -> list A :=
  @merge_sort A (fun x y => before (key x) (key y)) (fun x y => dec (key x) (key y)).

Definition rows {K V} `{Countable K} (m : gmap K V) : list V := map snd (map_to_list m).

(** [ORDER BY .. NULLS FIRST]. *)
Definition nulls_first (a b : option Time) : Prop :=
  match a, b with
  | None, _ => True
  | Some _, None => False
  | Some x, Some y => x <= y
  end.

#[export] Instance nulls_first_dec : RelDecision nulls_first.
Proof. intros a b. unfold nulls_first. repeat case_match; apply _. Defined.

#[export] Instance string_le_rel_dec : RelDecision string_le.
Proof. intros a b. unfold string_le. apply _. Defined.

Section Sweeps.
Context `{!UuidCrate}.

(** ** Offers *)

Definition negotiating (o : OfferRow) : bool :=
  match of_state o with OfPending | OfCountered => true | _ => false end.

Definition due_negotiations (now : Time) (db : Db) : list OfferRow :=
  ordered_by Z.le of_expires_at
    (List.filter (fun o => negotiating o && (of_expires_at o <=? now)) (rows (offers db))).

Definition lapse_offer (reason : string) (now : Time) (o : OfferRow) : OfferRow :=
  o <| of_state := OfExpired |> <| of_expiry_reason := Some reason |>
    <| of_revision := of_revision o + 1 |> <| of_updated_at := now |>.

Definition expire_negotiation (now : Time) (offer : OfferRow) : H bool :=
  let* flipped := update_where offers offer_check (of_id offer) negotiating
                    (lapse_offer "negotiation_window" now) in
  match flipped with
  | None => ret false
  | Some _ =>
      do* insert_event (of_id offer) (of_aggregate_id offer) (of_revision offer + 1)
            (of_offered_by offer) "offer.expired" now in
      ret true
  end.

Definition expire_negotiations (now : Time) : H Z :=
  let* due := gets (due_negotiations now) in
  let* flips := map_each due (expire_negotiation now) in
  ret (Z.of_nat (length (List.filter id flips))).

Definition lapsed_award (now : Time) (o : OfferRow) : option OfferAward :=
  match of_state o, of_award o with
  | OfAccepted, Some a => if aw_award_expires_at a <=? now then Some a else None
  | _, _ => None
  end.

Definition due_awards (now : Time) (db : Db) : list Uuid :=
  ordered_by N.le id (map of_id
    (List.filter (fun o => bool_decide (is_Some (lapsed_award now o))) (rows (offers db)))).

(** The [UPDATE listings] that returns the units of an award. *)
Definition return_award (q : Z) (now : Time) (l : ListingRow) : ListingRow :=
  l <| l_server_revision := l_server_revision l + 1 |>
    <| l_state := if l_available_quantity l =? 0 then LAvailable else l_state l |>
    <| l_available_quantity := l_available_quantity l + q |>
    <| l_reserved_quantity := l_reserved_quantity l - q |> <| l_updated_at := now |>.

(** [expire_due_award]. *)
Definition expire_due_award (offer_id : Uuid) (now : Time) : H bool :=
  let* row := select offers offer_id in
  match (o ← row; a ← lapsed_award now o; Some (o, a)) with
  | None => ret false
  | Some (offer, award) =>
      let* reservation := update_where reservations reservation_check (aw_reservation_id award)
        (fun r => bool_decide (r_status r = RActive) &&
                  bool_decide (r_offer_award_id r = Some (aw_award_id award)))
        (fun r => r <| r_status := RExpired |> <| r_updated_at := now |>) in
      let* reservation := or_fail reservation (Protocol "award reservation is not active") in
      do* (if negb (r_listing_aggregate_id reservation =? of_listing_aggregate_id offer)%string
              || negb (r_quantity reservation =? of_quantity offer)
           then sql_fail (Protocol "award reservation does not match its locked offer")
           else ret tt) in
      let* listing := update_where listings listing_check (of_listing_aggregate_id offer)
        (fun l => of_quantity offer <=? l_reserved_quantity l)
        (return_award (of_quantity offer) now) in
      do* or_fail listing (Protocol "award reservation inventory is not held by its listing") in
      let* flipped := update_where offers offer_check (of_id offer)
        (fun o => bool_decide (of_state o = OfAccepted)) (lapse_offer "award_window" now) in
      do* or_fail flipped (Protocol "locked accepted offer could not be expired") in
      do* insert_event (of_id offer) (of_aggregate_id offer) (of_revision offer + 1)
            (of_offered_by offer) "offer.expired" now in
      ret true
  end.

(** [expire_due_offers]. *)
Definition expire_due_offers (now : Time) : Pass Z :=
  let! expired := transaction (expire_negotiations now) in
  let! due := reading (due_awards now) in
  let! awards := each due (fun id => caught (transaction (expire_due_award id now))) in
  finished (expired + handled awards).

(** ** Drops *)

Definition drop_due (now : Time) (d : DropRow) : bool :=
  match d_state d with
  | DAnnounced => d_starts_at d <=? now
  | DLive => match d_ends_at d with Some e => e <=? now | None => false end
  | _ => false
  end.

Definition transition_drop (now : Time) (drop : DropRow) : H bool :=
  let* command_id := fresh_uuid in
  let* after := apply_time_transitions drop command_id now in
  ret (negb (bool_decide (d_state after = d_state drop))).

(** [transition_due_drops]. *)
Definition transition_due_drops (now : Time) : Pass Z :=
  transaction (
    let* due := gets (fun db => ordered_by string_le d_aggregate_id
                  (List.filter (drop_due now) (rows (drops db)))) in
    let* moved := map_each due (transition_drop now) in
    ret (Z.of_nat (length (List.filter id moved)))).

(** ** Auctions *)

Definition AUCTION_CLOSE_BATCH_SIZE : nat := 100.

Definition ends_before (a b : Time * string) : Prop :=
  fst a < fst b \/ fst a = fst b /\ string_le (snd a) (snd b).

#[export] Instance ends_before_dec : RelDecision ends_before.
Proof. intros a b. unfold ends_before, string_le. apply _. Defined.

(** The running auctions with their end; the column holds canonical instants
    ([ts_millis]), so no row is malformed. *)
Definition running_until (l : ListingRow) : option (Time * string) :=
  match parse_auction l with
  | Some a => if bool_decide (a_status a = AActive) then Some (a_ends_at a, l_aggregate_id l) else None
  | None => None
  end.

Definition due_auctions (now : Time) (db : Db) : list string :=
  map snd (take AUCTION_CLOSE_BATCH_SIZE (merge_sort ends_before
    (List.filter (fun e => fst e <=? now) (omap running_until (rows (listings db)))))).

(** [close_one_due_auction]: was it sold? *)
Definition close_one_due_auction (aggregate_id : string) (now : Time) : H (option bool) :=
  let* row := fetch_listing_for_update aggregate_id in
  match (l ← row; a ← parse_auction l;
         if bool_decide (a_status a = AActive) then Some (l, a) else None) with
  | None => ret None
  | Some (listing, auction) =>
      if now <? a_ends_at auction then ret None
      else
        let* command_id := fresh_uuid in
        let* outcome := close_locked_auction listing auction (l_seller_pubky listing) command_id now in
        ret (Some (bool_decide (is_Some (ac_winner_pubky outcome))))
  end.

Record AuctionCloseBatchSummary := mkBatchSummary {
  bs_closed : Z;
  bs_failed : Z;
}.

Definition summarize (results : list (option (option bool))) : AuctionCloseBatchSummary :=
  mkBatchSummary
    (Z.of_nat (length (List.filter (fun r => match r with Some (Some _) => true | _ => false end) results)))
    (Z.of_nat (length (List.filter (fun r => bool_decide (r = None)) results))).

(** [close_due_auctions]. *)
Definition close_due_auctions (now : Time) : Pass AuctionCloseBatchSummary :=
  let! due := reading (due_auctions now) in
  let! results := each due (fun id => caught (transaction (close_one_due_auction id now))) in
  finished (summarize results).
End Sweeps.

(** ** The expiry of unpaid orders ([workers.rs])

    An order that still holds stock when its window is over is cancelled, its
    payment expires and its units go back.  A prepared Paykit invoice is
    voided first, at the endpoint it was prepared at; what Paykit answers is a
    parameter.  A checkout nobody bound a payment to is cancelled when it has
    been idle for the window. *)

(** [PaykitCommandError]. *)
Inductive PaykitCommandError :=
| PrepareExpired
| InvoiceFinalized
| UnknownInvoice
| ActivationTotalMismatch
| StackIdentityMismatch
| UnexpectedRejection (code : string)
| Unavailable.

(** [PaykitCommandError::from_status]. *)
Definition from_status (status : Z) (code : string) : PaykitCommandError :=
  if (status =? 409) && (code =? "prepare_expired")%string then PrepareExpired
  else if (status =? 409) && (code =? "invoice_finalized")%string then InvoiceFinalized
  else if (status =? 404) && (code =? "unknown_invoice")%string then UnknownInvoice
  else if (status =? 409) && (code =? "activation_total_mismatch")%string then
    ActivationTotalMismatch
  else if (status =? 409) && (code =? "stack_identity_mismatch")%string then StackIdentityMismatch
  else if between 500 status 599 then Unavailable
  else if between 400 status 499 then UnexpectedRejection code
  else Unavailable.

(** [void_payment_request]: endpoint, invoice, stack and reason to [Ok] or
    the error. *)
Definition VoidPaymentRequest : Type :=
  string -> Uuid -> string -> string -> unit + PaykitCommandError.

(** ** Which orders are due *)

(** [HELD_DUE_ORDER]. *)
Definition HELD_DUE_ORDER (now : Time) (o : OrderRow) : bool :=
  bool_decide (o_state o = OPendingPayment) && o_stock_held o &&
  match o_hold_expires_at o with None => true | Some e => e <=? now end &&
  negb (bool_decide (o_paykit_activation_state o = Some "preparing")) &&
  negb (bool_decide (o_paykit_request_state o = Some "awaiting_seller_confirmation")).

(** [IDLE_UNBOUND_ORDER]. *)
Definition IDLE_UNBOUND_ORDER (cutoff : Time) (o : OrderRow) : bool :=
  bool_decide (o_state o = OPendingPayment) && negb (o_stock_held o) &&
  bool_decide (o_payment_method o = None) && bool_decide (o_auction_aggregate_id o = None) &&
  bool_decide (o_drop_aggregate_id o = None) && (o_created_at o <=? cutoff).

Definition preparing_due (now : Time) (o : OrderRow) : bool :=
  bool_decide (o_state o = OPendingPayment) && o_stock_held o &&
  match o_hold_expires_at o with None => true | Some e => e <=? now end &&
  bool_decide (o_paykit_activation_state o = Some "preparing").

(** [FROM orders o JOIN payments p ON p.order_id = o.id]. *)
Definition order_payments (db : Db) : list (OrderRow * PaymentRow) :=
  omap (fun p => o ← orders db !! p_order_id p; Some (o, p)) (rows (payments db)).

Definition due_held (now : Time) (db : Db) : list (OrderRow * PaymentRow) :=
  ordered_by nulls_first (fun op => o_hold_expires_at (fst op))
    (List.filter (fun '(o, p) => HELD_DUE_ORDER now o &&
       match p_state p with PAwaitingEntitlement | PDetected | PExpired => true | _ => false end)
       (order_payments db)).

Definition due_preparing (now : Time) (db : Db) : list Uuid :=
  map (fun op => o_id (fst op)) (ordered_by nulls_first (fun op => o_hold_expires_at (fst op))
    (List.filter (fun '(o, p) =>
       preparing_due now o && bool_decide (p_state p = PAwaitingEntitlement)) (order_payments db))).

Definition due_idle (cutoff : Time) (db : Db) : list (OrderRow * PaymentRow) :=
  ordered_by Z.le (fun op => o_created_at (fst op))
    (List.filter (fun '(o, p) =>
       IDLE_UNBOUND_ORDER cutoff o && bool_decide (p_state p = PAwaitingEntitlement))
       (order_payments db)).

(** [lock_sweep_order]: the order half of the predicate again. *)
Definition lock_sweep_order (predicate : OrderRow -> bool) (order_id : Uuid) : H bool :=
  let* row := select orders order_id in
  ret (match row with Some o => predicate o | None => false end).

Section HoldSweeps.
Context `{!UuidCrate}.

(** ** The shared expiry effects *)

(** The Locks correlation of an order. *)
Definition order_correlation (order_id : Uuid) (db : Db) : option Uuid :=
  fst <$> List.find (fun kv => N.eqb (cr_order_id (snd kv)) order_id)
            (map_to_list (locks_correlations db)).

(** A row written before holds expired is released as far as it goes. *)
Definition unless_legacy (order : OrderRow) (m : H unit) (message : string) : H unit :=
  let* result := attempt m in
  match result with
  | inl _ => ret tt
  | inr _ =>
      if bool_decide (o_hold_expires_at order = None) then ret tt
      else sql_fail (Protocol message)
  end.

Definition expire_payment (now : Time) (p : PaymentRow) : PaymentRow :=
  p <| p_state := PExpired |> <| p_revision := p_revision p + 1 |> <| p_updated_at := now |>.

Definition cancel_lapsed (reason : string) (now : Time) (o : OrderRow) : OrderRow :=
  cancel_row OCancelled reason now (o <| o_revision := o_revision o + 1 |>).

(** The payment half: expired once, with a trace on its correlation. *)
Definition expire_waiting_payment (payment_id : Uuid) (payment_state : PaymentState)
    (correlation : option Uuid) (command_id : Uuid) (buyer_pubky : string) (now : Time) : H unit :=
  if bool_decide (payment_state = PAwaitingEntitlement) then
    let* p := update_one payments payment_check payment_id always (expire_payment now) in
    do* insert_event command_id (payment_aggregate_id payment_id) (p_revision p) buyer_pubky
          "payment.expired" now in
    match correlation with
    | Some correlation_id =>
        insert_observation correlation_id "window_elapsed" "payment_expired" now
    | None => ret tt
    end
  else ret tt.

(** [expire_held_order]. *)
Definition expire_held_order (order_id payment_id : Uuid) (payment_state : PaymentState)
    (buyer_pubky : string) (now : Time) : H unit :=
  let* row := fetch_order_for_update order_id in
  match row with
  | None => ret tt
  | Some order =>
      let* correlation := gets (order_correlation order_id) in
      let* command_id := match correlation with Some id => ret id | None => fresh_uuid end in
      do* expire_waiting_payment payment_id payment_state correlation command_id buyer_pubky now in
      do* unless_legacy order (credit_order_drop order now) "expired order could not credit drop" in
      do* unless_legacy order (release_lines order HReserved now)
            "expired order could not release its hold" in
      do* debug_assert (Machines.can_transition Machines.order_machine "pending_payment" "cancelled")
            "order transition" in
      let* updated := update_one orders order_check order_id always
                        (cancel_lapsed "payment window elapsed" now) in
      do* insert_event command_id (order_aggregate_id order_id) (o_revision updated) buyer_pubky
            "order.cancelled" now in
      ret tt
  end.

(** ** The three passes *)

Definition expire_due_row (now : Time) (op : OrderRow * PaymentRow) : H bool :=
  let '(o, p) := op in
  let* due := lock_sweep_order (HELD_DUE_ORDER now) (o_id o) in
  if due then
    do* expire_held_order (o_id o) (p_id p) (p_state p) (o_buyer_pubky o) now in
    ret true
  else ret false.

Definition expire_held_windows (now : Time) : H Z :=
  let* due := gets (due_held now) in
  let* flips := map_each due (expire_due_row now) in
  ret (Z.of_nat (length (List.filter id flips))).

Definition cancel_idle (now cutoff : Time) (op : OrderRow * PaymentRow) : H bool :=
  let '(o, p) := op in
  let* due := lock_sweep_order (IDLE_UNBOUND_ORDER cutoff) (o_id o) in
  if due then
    let* command_id := fresh_uuid in
    let* payment := update_one payments payment_check (p_id p) always (expire_payment now) in
    do* insert_event command_id (payment_aggregate_id (p_id p)) (p_revision payment)
          (o_buyer_pubky o) "payment.expired" now in
    do* debug_assert (Machines.can_transition Machines.order_machine "pending_payment" "cancelled")
          "order transition" in
    let* updated := update_one orders order_check (o_id o) always
                      (cancel_lapsed "checkout idle elapsed" now) in
    do* insert_event command_id (order_aggregate_id (o_id o)) (o_revision updated)
          (o_buyer_pubky o) "order.cancelled" now in
    ret true
  else ret false.

(** [expire_idle_unbound_checkouts]. *)
Definition expire_idle_unbound_checkouts (checkout_hold_window_seconds : Z) (now : Time) : H Z :=
  let cutoff := now - seconds checkout_hold_window_seconds in
  let* due := gets (due_idle cutoff) in
  let* flips := map_each due (cancel_idle now cutoff) in
  ret (Z.of_nat (length (List.filter id flips))).

(** ** Prepared invoices *)

Definition PREPARING_VOID_GRACE_SECONDS : Z := 30 * 60.

Definition activates (order_id : Uuid) (row : OutboxRow) : bool :=
  match ob_payload row, ob_delivered_at row with
  | PaykitActivate id _ _ _ _ _, None => (ob_kind row =? "paykit.activate")%string && N.eqb id order_id
  | _, _ => false
  end.

(** The first undelivered activate row of the order, if its lease is free. *)
Definition lease_activate (order_id : Uuid) (lease_seconds : Z) (now : Time) : H (option nat) :=
  let* found := gets (fun db => list_find (fun row => Is_true (activates order_id row)) (outbox db)) in
  match found with
  | Some (i, row) =>
      if match ob_lease_until row with None => true | Some t => t <=? now end then
        do* modify (upd outbox
              (alter (fun r => r <| ob_lease_until := Some (now + seconds lease_seconds) |>) i)) in
        ret (Some i)
      else ret None
  | None => ret None
  end.

Definition stamp_delivered (i : nat) (now : Time) : H unit :=
  modify (upd outbox (alter (fun r => r <| ob_delivered_at := Some now |>) i)).

Definition void_prepared (now : Time) (o : OrderRow) : OrderRow :=
  o <| o_revision := o_revision o + 1 |> <| o_paykit_activation_state := Some "voided" |>
    <| o_paykit_request_state := None |> <| o_updated_at := now |>.

Definition is_preparing (o : OrderRow) : bool :=
  bool_decide (o_paykit_activation_state o = Some "preparing").

Definition MISSING_PIN : SqlError := Protocol "preparing order is missing its persisted paykit pin".

(** The pin of a prepared invoice. *)
Definition paykit_pin (o : OrderRow) : option PaykitVoidPin :=
  invoice_id ← o_paykit_invoice_id o; stack_id ← o_paykit_stack_id o;
  endpoint ← o_paykit_stack_endpoint o; Some (mkVoidPin invoice_id stack_id endpoint).

(** [void_and_expire_preparing_order]. *)
Definition void_and_expire_preparing_order (order_id payment_id : Uuid) (outbox_row : nat)
    (now : Time) (enqueue_void_retry : bool) : H unit :=
  let* row := select orders order_id in
  let* order := or_fail row RowNotFound in
  do* expire_held_order order_id payment_id PAwaitingEntitlement (o_buyer_pubky order) now in
  let* voided := update_one orders order_check order_id is_preparing (void_prepared now) in
  do* record_released_attempt order_id in
  let* command_id := fresh_uuid in
  let* event_id := insert_event command_id (order_aggregate_id order_id) (o_revision voided)
                     SYSTEM_ACTOR "payment.bitcoin_prepare_voided" now in
  do* insert_notification_intent event_id "bitcoin_prepare_voided" (o_buyer_pubky order)
        SYSTEM_ACTOR (order_aggregate_id order_id) None now in
  do* (if enqueue_void_retry then
         let* pin := or_fail (paykit_pin voided) MISSING_PIN in
         enqueue_paykit_void event_id order_id pin "hold_expired" now
       else ret tt) in
  stamp_delivered outbox_row now.

(** A lost success: the invoice is already active. *)
Definition adopt_active (order_id : Uuid) (outbox_row : nat) (now : Time) : H unit :=
  do* (let* _ := update_where orders order_check order_id is_preparing (fun o =>
         o <| o_paykit_activation_state := Some "active" |>
           <| o_paykit_request_state := Some "pending" |> <| o_updated_at := now |>) in ret tt) in
  stamp_delivered outbox_row now.

(** The order with its payment, as the pin is read. *)
Definition pinned_order (order_id : Uuid) (db : Db) : option (OrderRow * PaymentRow) :=
  List.find (fun op => N.eqb (o_id (fst op)) order_id) (order_payments db).

(** [expire_preparing_order]. *)
Definition expire_preparing_order (paykit : option VoidPaymentRequest) (lease_seconds : Z)
    (order_id : Uuid) (now : Time) : Pass bool :=
  let! leased := transaction (lease_activate order_id lease_seconds now) in
  match leased with
  | None => finished false
  | Some i =>
      let! found := reading (pinned_order order_id) in
      match (op ← found; pin ← paykit_pin (fst op); Some (op, pin)) with
      | None => transaction (sql_fail MISSING_PIN)
      | Some ((o, p), pin) =>
          let void_locally retry :=
            let! _ := transaction (void_and_expire_preparing_order order_id (p_id p) i now retry) in
            finished true in
          match paykit with
          | None => finished false
          | Some void_payment_request =>
              match void_payment_request (vp_stack_endpoint pin) (vp_invoice_id pin)
                      (vp_stack_id pin) "hold_expired" with
              | inr InvoiceFinalized =>
                  let! _ := transaction (adopt_active order_id i now) in finished false
              | inr Unavailable =>
                  if match o_hold_expires_at o with
                     | Some deadline => deadline + seconds PREPARING_VOID_GRACE_SECONDS <? now
                     | None => false
                     end
                  then void_locally true
                  else
                    let! _ := transaction (modify (upd outbox
                                (alter (fun r => r <| ob_lease_until := None |>) i))) in
                    finished false
              | _ => void_locally false
              end
          end
      end
  end.

(** [expire_due_payment_windows]. *)
Definition expire_due_payment_windows (paykit : option VoidPaymentRequest)
    (worker_lease_seconds checkout_hold_window_seconds : Z) (now : Time) : Pass Z :=
  let! expired := transaction (expire_held_windows now) in
  let! preparing := reading (due_preparing now) in
  let! voided := each preparing (fun id =>
    caught (expire_preparing_order paykit worker_lease_seconds id now)) in
  let! idle := transaction (expire_idle_unbound_checkouts checkout_hold_window_seconds now) in
  finished (expired + handled voided + idle).
End HoldSweeps.

(** ** The worker loop ([workers.rs])

    A task runs under its lease: an instance that does not get the lease skips
    it, and an error is passed on only after the lease was released.  A panic
    takes the pass down and leaves the lease to its end. *)

(** The tasks of [run_once] that are modelled as passes, in its order. *)
Inductive Task :=
| ReservationExpiry | DropTransitions | OfferExpiry | AuctionClose | OutboxDrain | PaymentWindow.

#[export] Instance Task_eq_dec : EqDecision Task.
Proof. solve_decision. Defined.

Definition tasks : list Task :=
  [ReservationExpiry; DropTransitions; OfferExpiry; AuctionClose; OutboxDrain; PaymentWindow].

Definition task_name (t : Task) : string :=
  match t with
  | ReservationExpiry => "reservation_expiry"
  | DropTransitions => "drop_transitions"
  | OfferExpiry => "offer_expiry"
  | AuctionClose => "auction_close"
  | OutboxDrain => "outbox"
  | PaymentWindow => "payment_window"
  end.

Record WorkerConfig := mkWorkerConfig {
  wc_worker_lease_seconds : Z;
  wc_checkout_hold_window_seconds : Z;
  wc_paykit : option VoidPaymentRequest;
}.

(** What the summary of a pass counts. *)
Definition counting {A} (p : Pass A) (count : A -> Z) : Pass Z :=
  let! a := p in finished (count a).

Section Worker.
Context `{!UuidCrate}.

(** The sweep of a task: how many rows it handled. *)
Definition run_task (config : WorkerConfig) (t : Task) (now : Time) : Pass Z :=
  match t with
  | ReservationExpiry => transaction (expire_due_reservations now)
  | DropTransitions => transition_due_drops now
  | OfferExpiry => expire_due_offers now
  | AuctionClose => counting (close_due_auctions now) bs_closed
  | OutboxDrain => counting (transaction (drain_outbox now (wc_worker_lease_seconds config))) Z.of_nat
  | PaymentWindow =>
      expire_due_payment_windows (wc_paykit config) (wc_worker_lease_seconds config)
        (wc_checkout_hold_window_seconds config) now
  end.

(** [let result = task().await; release().await?; result?]. *)
Definition finally {A} (p : Pass A) (release : Pass unit) : Pass A := fun db =>
  match p db with
  | (Died message, db') => (Died message, db')
  | (ended, db') =>
      match release db' with
      | (Returned _, db'') => (ended, db'')
      | (Stopped e, db'') => (Stopped e, db'')
      | (Died message, db'') => (Died message, db'')
      end
  end.

Definition under_lease (config : WorkerConfig) (holder : Uuid) (t : Task) (now : Time)
    : Pass (option Z) :=
  let! acquired := transaction
    (try_acquire_lease (task_name t) holder now (wc_worker_lease_seconds config)) in
  if (acquired : bool) then
    let! n := finally (run_task config t now)
                (transaction (release_lease (task_name t) holder now)) in
    finished (Some n)
  else finished None.

(** [run_once], restricted to these tasks. *)
Definition run_once (config : WorkerConfig) (holder : Uuid) (now : Time) : Pass (list (option Z)) :=
  each tasks (fun t => under_lease config holder t now).
End Worker.

(** ** Rules *)

Lemma keeps_finally (I : Db -> Prop) {A} (p : Pass A) release :
  keeps I p -> keeps I release -> keeps I (finally p release).
Proof.
  intros Hp Hr db Hi. specialize (Hp db Hi). unfold finally.
  destruct (p db) as [ended db'] eqn:E; simpl in *. destruct Hp as [Hi' Hnd].
  specialize (Hr db' Hi').
  destruct ended as [a|e|m]; [| |by destruct (Hnd m)];
    (destruct (release db') as [[[]|e'|m] db'']; simpl in *;
     [by split; [apply Hr|]|by split; [apply Hr|]|by destruct (proj2 Hr m)]).
Qed.

Lemma along_finally (R : Db -> Db -> Prop) `{!PreOrder R} {A} (p : Pass A) release :
  along R p -> along R release -> along R (finally p release).
Proof.
  intros Hp Hr db. specialize (Hp db). unfold finally.
  destruct (p db) as [[a|e|m] db'] eqn:E; simpl in *; [| |done];
    (specialize (Hr db'); destruct (release db') as [[[]|e'|m] db'']; simpl in *; by etransitivity).
Qed.

Lemma keeps_counting (I : Db -> Prop) {A} (p : Pass A) count : keeps I p -> keeps I (counting p count).
Proof. intros Hp. apply keeps_and_then; [exact Hp|]. intros a. apply keeps_finished. Qed.

Lemma along_counting (R : Db -> Db -> Prop) `{!PreOrder R} {A} (p : Pass A) count :
  along R p -> along R (counting p count).
Proof. intros Hp. apply along_and_then; [apply _|exact Hp|]. intros a. apply along_finished; apply _. Qed.

(** A pass keeps what its tasks and its leases keep. *)
Lemma keeps_run_once {crate : UuidCrate} (I : Db -> Prop) config holder now :
  (forall t, keeps I (run_task config t now)) ->
  (forall t, keeps I (transaction (try_acquire_lease t holder now (wc_worker_lease_seconds config)))) ->
  (forall t, keeps I (transaction (release_lease t holder now))) ->
  keeps I (run_once config holder now).
Proof.
  intros Ht Ha Hr. apply keeps_each. intros t _. apply keeps_and_then; [apply Ha|].
  intros [|]; [|apply keeps_finished]. apply keeps_and_then; [by apply keeps_finally|].
  intros n. apply keeps_finished.
Qed.

Lemma along_run_once {crate : UuidCrate} (R : Db -> Db -> Prop) `{!PreOrder R} config holder now :
  (forall t, along R (run_task config t now)) ->
  (forall t, along R (transaction (try_acquire_lease t holder now (wc_worker_lease_seconds config)))) ->
  (forall t, along R (transaction (release_lease t holder now))) ->
  along R (run_once config holder now).
Proof.
  intros Ht Ha Hr. apply along_each; [apply _|]. intros t. apply along_and_then; [apply _|apply Ha|].
  intros [|]; [|by apply along_finished]. apply along_and_then; [apply _|by apply along_finally|].
  intros n. by apply along_finished.
Qed.
