(* ===== verification/ReviewContract.v ===== *)
(** * What a manual review promises ([bitcoin_review.rs])

    The loop of [add_business_days] ends, and it ends on the right day; a
    review is decided once. *)

From S2P Require Import Prelude StateMachines Domain Json Seal Store Commands Actions Text.
From S2P Require Import LocksKeys Drops Holds Pickup DigitalManual Cancellation Payment.
From S2P Require Import ListingDeletion Within Executor Samples Outbox LateMoney.
From S2P Require Import BitcoinReview.

(** The business days among the [k] days after [start]. *)
Fixpoint business_days_within (start : Time) (k : nat) : Z :=
  match k with
  | O => 0
  | S k' => (if weekend (start + DAY) then 0 else 1) + business_days_within (start + DAY) k'
  end.

Lemma weekday_range t : 0 <= weekday t < 7.
Proof. apply Z.mod_pos_bound. lia. Qed.

Lemma weekday_next t : weekday (t + DAY) = (weekday t + 1) mod 7.
Proof.
  unfold weekday. replace (t + DAY) with (t + 1 * DAY) by lia. rewrite Z.div_add by done.
  rewrite Zplus_mod_idemp_l. f_equal. lia.
Qed.

(** Five times the turns the loop takes from a weekday, over seven times the
    business days that are left. *)
Definition slack (day remaining : Z) : Z :=
  if remaining =? 0 then 0
  else if day <? 5 then 2 * day else if day =? 5 then 3 else -2.

(** One turn of the loop. *)
Lemma slack_turn t remaining :
  0 < remaining ->
  let remaining' := if weekend (t + DAY) then remaining else remaining - 1 in
  0 <= remaining' /\
  5 + 7 * remaining' + slack (weekday (t + DAY)) remaining' <= 7 * remaining + slack (weekday t) remaining.
Proof.
  intros Hr. unfold weekend. rewrite weekday_next. pose proof (weekday_range t) as Hw.
  destruct (decide (weekday t = 6)) as [E|Hne].
  - rewrite E. change ((6 + 1) mod 7) with 0. unfold slack. simpl. repeat case_match; reflect_bools; lia.
  - rewrite Z.mod_small by lia. unfold slack. simpl. repeat case_match; reflect_bools; lia.
Qed.

Lemma business_days_loop_ends fuel : forall current remaining,
  0 <= remaining -> 7 * remaining + slack (weekday current) remaining <= 5 * Z.of_nat fuel ->
  exists k, business_days_loop fuel current remaining = Some (current + Z.of_nat k * DAY) /\
    business_days_within current k = remaining /\
    (0 < remaining -> weekend (current + Z.of_nat k * DAY) = false) /\
    5 * Z.of_nat k <= 7 * remaining + slack (weekday current) remaining.
Proof.
  induction fuel as [|fuel IH]; intros current remaining Hr Hf; cbn [business_days_loop];
    destruct (Z.leb_spec remaining 0) as [Hle|Hlt].
  1,3: assert (remaining = 0) as -> by lia; exists 0%nat; split; [f_equal; lia|];
    split; [done|]; split; [lia|]; unfold slack; simpl; lia.
  - exfalso. pose proof (weekday_range current). revert Hf. unfold slack.
    repeat case_match; reflect_bools; lia.
  - destruct (slack_turn current remaining Hlt) as [Hr' Hs].
    set (remaining' := if weekend (current + DAY) then remaining else remaining - 1) in *.
    destruct (IH (current + DAY) remaining' Hr' ltac:(lia)) as (k & E & Hk & Hw & Hb).
    exists (S k). replace (current + Z.of_nat (S k) * DAY) with (current + DAY + Z.of_nat k * DAY)
      by lia. split; [exact E|]. cbn [business_days_within]. split; [|split].
    + rewrite Hk. subst remaining'. destruct (weekend _); lia.
    + intros _. destruct (decide (0 < remaining')) as [Hp|Hz]; [by apply Hw|].
      assert (remaining' = 0) as E0 by lia. rewrite E0 in Hb. unfold slack in Hb. simpl in Hb.
      assert (k = 0%nat) as -> by lia. replace (current + DAY + Z.of_nat 0 * DAY)
        with (current + DAY) by lia. subst remaining'. destruct (weekend _); [lia|done].
    + lia.
Qed.

(** C21. The loop of [add_business_days] always ends within the turns it is
    given: it returns the first instant, a whole number of days after the
    start, by which the asked number of business days has passed.  That
    instant is not on a weekend, and lies at most seven fifths of the days
    and two days later. *)
Theorem add_business_days_ends start days :
  0 <= days ->
  exists k, add_business_days start days = Some (start + Z.of_nat k * DAY) /\
    business_days_within start k = days /\
    (0 < days -> weekend (start + Z.of_nat k * DAY) = false) /\
    5 * Z.of_nat k <= 7 * days + 8.
Proof.
  intros Hd. unfold add_business_days. pose proof (weekday_range start).
  assert (Hs : slack (weekday start) days <= 8 /\ (days = 0 -> slack (weekday start) days = 0)).
  { unfold slack. repeat case_match; reflect_bools; lia. }
  destruct (business_days_loop_ends (3 * Z.to_nat days) start days) as (k & E & Hk & Hw & Hb);
    [done|lia|]. exists k. repeat split; [done|done|done|lia].
Qed.

(** From a Friday, two business days end on the Tuesday after. *)
Lemma add_business_days_ends_witness :
  weekday (DAY + 3600) = 4 /\ add_business_days (DAY + 3600) 2 = Some (5 * DAY + 3600) /\
  exists k, add_business_days (DAY + 3600) 2 = Some (DAY + 3600 + Z.of_nat k * DAY) /\
    business_days_within (DAY + 3600) k = 2.
Proof.
  split; [reflexivity|]. split; [reflexivity|].
  destruct (add_business_days_ends (DAY + 3600) 2) as (k & E & Hk & _); [lia|]. by exists k.
Defined.

(** ** What a manual review decides ([bitcoin_review.rs])

    A review is decided once: the payment, the order, the audit row and the
    row for Paykit agree on the outcome, and no later attempt changes it. *)

(** ** Internal steps *)

Lemma internally_Done {A} (m : H A) db a db' :
  internally m db = Done a db' <-> m db = Done a db'.
Proof. unfold internally. destruct (m db); split; congruence. Qed.

Lemma wp_internally {A} (m : H A) Q (P : ResolutionFailure -> Db -> Prop) db :
  wp m Q any_refusal db -> wp (internally m) Q P db.
Proof. unfold wp, internally. by destruct (m db). Qed.

Lemma within_internally (P : Db -> Db -> Prop) {A} (m : H A) : within P m -> within P (internally m).
Proof. intros Hm db. specialize (Hm db). unfold internally. by destruct (m db). Qed.

Lemma within_Done (P : Db -> Db -> Prop) {F A} (m : Tx Db F A) db a db' :
  within P m -> m db = Done a db' -> P db db'.
Proof. intros Hm E. specialize (Hm db). by rewrite E in Hm. Qed.

Lemma refuse_if_Done {S F} b (f : F) (s : S) u s' :
  refuse_if b f s = Done u s' -> b = false /\ s' = s.
Proof. destruct b; [discriminate|]. by intros [= _ ->]. Qed.

Lemma or_fail_Done {S F A} (o : option A) e (s : S) a s' :
  or_fail (F := F) o e s = Done a s' -> o = Some a /\ s' = s.
Proof. destruct o; [|discriminate]. by intros [= -> ->]. Qed.

Lemma or_refuse_Done {S F A} (o : option A) (f : F) (s : S) a s' :
  or_refuse o f s = Done a s' -> o = Some a /\ s' = s.
Proof. destruct o; [|discriminate]. by intros [= -> ->]. Qed.

(** ** Columns the stock movements leave alone *)

(** A column that no stock movement, confirmation or log entry writes. *)
Class BesideStock {X} (column : Db -> X) : Prop := {
  beside_draws f db : column (upd draws f db) = column db;
  beside_events f db : column (upd events f db) = column db;
  beside_outbox f db : column (upd outbox f db) = column db;
  beside_listings f db : column (upd listings f db) = column db;
  beside_reservations f db : column (upd reservations f db) = column db;
  beside_drops f db : column (upd drops f db) = column db;
  beside_drop_listings f db : column (upd drop_listings f db) = column db;
  beside_drop_purchases f db : column (upd drop_purchases f db) = column db;
  beside_receipts f db : column (upd receipts f db) = column db;
  beside_pickup_pins f db : column (upd pickup_pins f db) = column db;
  beside_digital_pins f db : column (upd digital_pins f db) = column db;
}.

Create HintDb beside.
#[export] Hint Resolve beside_draws beside_events beside_outbox beside_listings beside_reservations
  beside_drops beside_drop_listings beside_drop_purchases beside_receipts beside_pickup_pins
  beside_digital_pins : beside.

#[export] Instance orders_beside : BesideStock orders.
Proof. by split. Qed.
#[export] Instance payments_beside : BesideStock payments.
Proof. by split. Qed.
#[export] Instance manual_resolutions_beside : BesideStock manual_resolutions.
Proof. by split. Qed.
#[export] Instance resolve_outbox_beside : BesideStock resolve_outbox.
Proof. by split. Qed.

Ltac kept_run :=
  repeat (cbn beta zeta;
          first [solve [auto with same]|apply within_internally|
                 within_step ltac:(intros; unfold same; auto with beside)]).

Section Frames.
Context {crate : UuidCrate} {X : Type} (column : Db -> X) `{!BesideStock column}.

Lemma kept_fresh_uuid : within (same column) fresh_uuid.
Proof. unfold fresh_uuid. kept_run. Qed.
#[local] Hint Resolve kept_fresh_uuid : same.

Lemma kept_insert_event cid agg rev actor kind now :
  within (same column) (insert_event cid agg rev actor kind now).
Proof. unfold insert_event. kept_run. Qed.

Lemma kept_notify ev nt recipient actor agg amount now :
  within (same column) (insert_notification_intent ev nt recipient actor agg amount now).
Proof. unfold insert_notification_intent, enqueue. kept_run. Qed.
#[local] Hint Resolve kept_insert_event kept_notify : same.

Lemma kept_time_transitions d cid now :
  within (same column) (apply_time_transitions d cid now).
Proof.
  unfold apply_time_transitions, update_drop, deactivate_drop_listing_bindings. kept_run.
Qed.
#[local] Hint Resolve kept_time_transitions : same.

Lemma kept_release_lines o held now : within (same column) (release_lines o held now).
Proof. unfold release_lines, release_line, fetch_listing_for_update. kept_run. Qed.

Lemma kept_credit o now : within (same column) (credit_order_drop o now).
Proof.
  unfold credit_order_drop, credit_drop_release, fetch_drop_for_update, update_drop. kept_run.
Qed.

Lemma kept_flip L B status now : within (same column) (flip_winning_reservation L B status now).
Proof. unfold flip_winning_reservation. kept_run. Qed.
#[local] Hint Resolve kept_release_lines kept_credit kept_flip : same.

Lemma kept_release_reserved o now : within (same column) (release_reserved_hold o now).
Proof. unfold release_reserved_hold. kept_run. Qed.
#[local] Hint Resolve kept_release_reserved : same.

(** What [cancel_held_order] gives back. *)
Lemma kept_give_back o now :
  within (same column)
    (if bool_decide (is_Some (o_auction_aggregate_id o)) then internally (release_reserved_hold o now)
     else if o_stock_held o then
       do* internally (credit_order_drop o now) in internally (release_lines o HReserved now)
     else ret tt).
Proof. kept_run. Qed.

(** What [confirm_order] does before it writes the order. *)
Lemma kept_confirm_guards o now : within (same column) (confirm_guards o now).
Proof. unfold confirm_guards, unpinnable. kept_run. Qed.

Lemma kept_assign_edition o actor cid now : within (same column) (assign_edition o actor cid now).
Proof.
  unfold assign_edition, record_paid_unit, fetch_drop_for_update, update_drop,
    deactivate_drop_listing_bindings. kept_run.
Qed.

Lemma kept_sell_lines lines now : within (same column) (for_each lines (sell_line now)).
Proof. unfold sell_line, fetch_listing_for_update. kept_run. Qed.

Lemma kept_issue_receipt payment o now : within (same column) (issue_receipt payment o now).
Proof. unfold issue_receipt. kept_run. Qed.

Lemma kept_pin_terms o adapter keys now : within (same column) (pin_terms o adapter keys now).
Proof.
  unfold pin_terms, pin_pickup_lines, pin_pickup_line, insert_pickup_pin, pin_digital_lines,
    pin_digital_line. kept_run.
Qed.
#[local] Hint Resolve kept_confirm_guards kept_assign_edition kept_sell_lines
  kept_issue_receipt kept_pin_terms : same.

Context (beside_orders : forall f db, column (upd orders f db) = column db).

Lemma kept_reacquire o now : within (same column) (reacquire_hold o now).
Proof.
  unfold reacquire_hold, reacquire_drop, reacquire_reservation, reacquire_line,
    fetch_drop_for_update. kept_run.
Qed.

Lemma kept_confirm_order actor cid payment o keys now :
  within (same column) (confirm_order actor cid payment o keys now).
Proof. unfold confirm_order. kept_run. Qed.
#[local] Hint Resolve kept_reacquire kept_confirm_order : same.

Lemma kept_cancel_held o input reason now :
  within (same column) (cancel_held_order o input reason now).
Proof. unfold cancel_held_order. kept_run. Qed.
#[local] Hint Resolve kept_cancel_held : same.

Lemma kept_outcome_effects keys o payment input now :
  within (same column) (apply_outcome_effects keys o payment input now).
Proof.
  unfold apply_outcome_effects, apply_paid_effects, hold_present, fetch_order_for_update,
    apply_refunded_effects, apply_abandoned_effects. kept_run.
Qed.
End Frames.

(** ** The order of a decision *)

Section Outcome.
Context {crate : UuidCrate}.

(** The confirmed row. *)
Lemma confirm_order_Done actor cid payment o keys now db o' r e db' :
  confirm_order actor cid payment o keys now db = Done (o', r, e) db' ->
  orders db' = <[o_id o := o']> (orders db) /\
  exists o0 edition lines, orders db !! o_id o = Some o0 /\
    o' = confirm_row (if bool_decide (o_fulfillment o = Digital) && all_lines_instant o
                      then ODelivered else OPaid) (rc_id r) edition lines now o0.
Proof.
  unfold confirm_order. intros E.
  apply bind_Done in E as ([] & db1 & E1 & E). apply bind_Done in E as (edition & db2 & E2 & E).
  apply bind_Done in E as ([] & db3 & E3 & E). apply bind_Done in E as (r' & db4 & E4 & E).
  apply bind_Done in E as (lines & db5 & E5 & E). cbn zeta in E.
  apply bind_Done in E as (v & db6 & E6 & E). apply bind_Done in E as (ev & db7 & E7 & E).
  apply bind_Done in E as ([] & db8 & E8 & E). injection E as -> -> -> ->.
  apply (within_Done _ _ _ _ _ (kept_confirm_guards orders _ _)) in E1.
  apply (within_Done _ _ _ _ _ (kept_assign_edition orders _ _ _ _)) in E2.
  apply (within_Done _ _ _ _ _ (kept_sell_lines orders _ _)) in E3.
  apply (within_Done _ _ _ _ _ (kept_issue_receipt orders _ _ _)) in E4.
  apply (within_Done _ _ _ _ _ (kept_pin_terms orders _ _ _ _)) in E5.
  apply (within_Done _ _ _ _ _ (kept_insert_event orders _ _ _ _ _ _)) in E7.
  assert (Hn : same orders db7 db').
  { destruct (_ && _); [|by injection E8 as <-].
    exact (within_Done _ _ _ _ _ (kept_notify orders _ _ _ _ _ _ _) E8). }
  apply update_one_Done in E6 as (o0 & Ho0 & _ & _ & Ev & E6). unfold same in *.
  rewrite E6 in E7. change (orders db7 = <[o_id o := o']> (orders db5)) in E7.
  split; [congruence|]. exists o0, edition, lines. split; [congruence|exact Ev].
Qed.

(** Before the last statement no order row changes. *)
Lemma reacquire_stock_Done o now db db' :
  reacquire_hold o now db = Done tt db' -> orders db !! o_id o = Some o ->
  exists o1, orders db' = <[o_id o := o1]> (orders db) /\ o_id o1 = o_id o /\ o_lines o1 = o_lines o.
Proof.
  unfold reacquire_hold. intros E Ho.
  apply bind_Done in E as ([] & db1 & E1 & E). apply bind_Done in E as ([] & db2 & E2 & E).
  apply bind_Done in E as ([] & db3 & E3 & E).
  assert (Eo : orders db3 = orders db).
  { transitivity (orders db2); [|transitivity (orders db1)].
    - eapply (within_Done (same orders)); [|exact E3]. unfold reacquire_line. kept_run.
    - eapply (within_Done (same orders)); [|exact E2]. unfold reacquire_reservation. kept_run.
    - eapply (within_Done (same orders)); [|exact E1].
      unfold reacquire_drop, fetch_drop_for_update.
      repeat (cbn beta zeta; first [apply kept_fresh_uuid, _|apply kept_time_transitions, _|
        apply within_internally|within_step ltac:(intros; unfold same; auto with beside)]). }
  destruct (bool_decide _) eqn:Ea.
  - apply bind_Done in E as (v & db4 & E4 & E). injection E as <-.
    apply internally_Done, update_where_Done in E4. rewrite <- Eo. destruct v as [v|].
    + destruct E4 as (o0 & Ho0 & _ & _ & -> & ->). exists (o0 <| o_stock_held := true |> <| o_updated_at := now |>).
      split; [done|]. rewrite Eo, Ho in Ho0. by injection Ho0 as <-.
    + destruct E4 as [-> _]. exists o. split; [|done]. rewrite insert_id; [done|by rewrite Eo].
  - injection E as <-. exists o. split; [|done]. by rewrite Eo, insert_id.
Qed.

Lemma cancel_held_Done o input reason now db o' db' :
  cancel_held_order o input reason now db = Done o' db' -> orders db !! o_id o = Some o ->
  orders db' = <[o_id o := o']> (orders db) /\
  o' = cancel_row OCancelled reason now (o <| o_revision := o_revision o + 1 |>).
Proof.
  unfold cancel_held_order. intros E Ho. destruct (negb _); [discriminate|].
  apply bind_Done in E as ([] & db1 & E1 & E). apply bind_Done in E as (v & db2 & E2 & E).
  apply bind_Done in E as (ev & db3 & E3 & E). apply bind_Done in E as ([] & db4 & E4 & E).
  injection E as -> ->. apply (within_Done _ _ _ _ _ (kept_give_back orders _ _)) in E1.
  apply internally_Done in E3, E4. apply internally_Done, update_one_Done in E2.
  destruct E2 as (o0 & Ho0 & _ & _ & -> & E2).
  apply (within_Done _ _ _ _ _ (kept_insert_event orders _ _ _ _ _ _)) in E3.
  apply (within_Done _ _ _ _ _ (kept_notify orders _ _ _ _ _ _ _)) in E4. unfold same in *.
  rewrite E1, Ho in Ho0. injection Ho0 as <-. split; [|done].
  rewrite E4, E3, E2. change (orders (upd orders ?f db1)) with (f (orders db1)). by rewrite E1.
Qed.

(** The larger of the order's total and the sats its invoice asked for. *)
Definition charged (o : OrderRow) : Z :=
  Z.max (o_total_minor o) (default (o_total_minor o) (o_paykit_total_sats o)).

(** What the outcome makes of the order. *)
Definition settled_order (input : ResolutionInput) (now : Time) (o o' : OrderRow) : Prop :=
  o_id o' = o_id o /\
  if is_paid input then
    (o_state o' = OPaid \/ o_state o' = ODelivered) /\ is_Some (o_receipt_id o')
  else if is_refunded input then
    o_state o' = ORefundedExternal /\
    exists sats reference, o_paykit_observed_sats o = Some sats /\
      ri_refund_reference input = Some reference /\
      o_external_refund o' = Some (mkExternalRefund sats reference now) /\
      1 <= sats <= charged o
  else o_state o' = OCancelled.

Lemma refund_within refund now o :
  order_check (refunded_row refund now o) = true -> 1 <= er_amount_minor refund <= charged o.
Proof.
  unfold order_check. intros Hck. reflect_bools.
  match goal with Hr : context [o_external_refund] |- _ =>
    change (between 1 (er_amount_minor refund) (charged o) = true) in Hr; unfold between in Hr
  end. by reflect_bools.
Qed.

Lemma paid_effects_Done keys o payment input now db o' db' :
  apply_paid_effects keys o payment input now db = Done o' db' -> orders db !! o_id o = Some o ->
  orders db' = <[o_id o := o']> (orders db) /\ o_id o' = o_id o /\
  (o_state o' = OPaid \/ o_state o' = ODelivered) /\ is_Some (o_receipt_id o').
Proof.
  unfold apply_paid_effects. intros E Ho. apply bind_Done in E as ([] & db1 & E1 & E).
  assert (H1 : exists o1, orders db1 = <[o_id o := o1]> (orders db) /\ o_id o1 = o_id o).
  { destruct (o_state o); try discriminate E1;
      [|by destruct (reacquire_stock_Done _ _ _ _ E1 Ho) as (o1 & ? & ? & _); exists o1].
    apply bind_Done in E1 as ([] & db0 & E0 & E1).
    - injection E1 as <-. exists o. split; [|done]. rewrite insert_id; [|done].
      revert E0. unfold hold_present. destruct (o_auction_aggregate_id o); [|by intros [= _ <-]].
      by intros [= _ <-].
    - assert (db0 = db) as ->.
      { revert E0. unfold hold_present. destruct (o_auction_aggregate_id o); by intros [= _ <-]. }
      by destruct (reacquire_stock_Done _ _ _ _ E1 Ho) as (o1 & ? & ? & _); exists o1. }
  destruct H1 as (o1 & Eo1 & Hid1). apply bind_Done in E as (row & db2 & E2 & E).
  apply internally_Done in E2. injection E2 as <- <-. rewrite Eo1, lookup_insert_eq in E.
  apply bind_Done in E as (result & db3 & E3 & E). apply internally_Done in E3.
  destruct result as [[[o3 r3] e3]|failure]; [|destruct (_ || _); discriminate].
  injection E as -> ->. unfold attempt in E3.
  destruct (confirm_order _ _ _ _ _ _ db1) as [[[? ?] ?] ?| | |] eqn:Ec; simplify_eq.
  apply confirm_order_Done in Ec as [Eo (o0 & edition & lines & Ho0 & ->)].
  rewrite Hid1 in *. rewrite Eo1 in Eo, Ho0. rewrite lookup_insert_eq in Ho0. injection Ho0 as <-.
  rewrite insert_insert_eq in Eo. split; [exact Eo|]. split; [exact Hid1|].
  split; [|by eexists]. cbn. destruct (_ && _); auto.
Qed.

Lemma outcome_effects_Done keys o payment input now db o' db' :
  apply_outcome_effects keys o payment input now db = Done o' db' ->
  orders db !! o_id o = Some o ->
  orders db' = <[o_id o := o']> (orders db) /\ settled_order input now o o'.
Proof.
  unfold apply_outcome_effects, settled_order. intros E Ho.
  destruct (is_paid input); [by destruct (paid_effects_Done _ _ _ _ _ _ _ _ E Ho) as (? & ? & ?)|].
  destruct (is_refunded input).
  - unfold apply_refunded_effects in E. apply bind_Done in E as (cur & db1 & E1 & E).
    assert (H1 : orders db1 = <[o_id o := cur]> (orders db) /\ o_id cur = o_id o /\
                 charged cur = charged o).
    { destruct (bool_decide _).
      - apply cancel_held_Done in E1 as [? ->]; done.
      - injection E1 as <- <-. by rewrite insert_id. }
    destruct H1 as (Eo1 & Hid & Hch). destruct (negb _); [discriminate|].
    apply bind_Done in E as (sats & db2 & E2 & E).
    destruct (o_paykit_observed_sats o) as [s|]; [|discriminate]. injection E2 as -> <-.
    apply bind_Done in E as (reference & db3 & E3 & E).
    destruct (ri_refund_reference input) as [x|]; [|discriminate]. injection E3 as -> <-.
    apply bind_Done in E as (v & db4 & E4 & E). apply bind_Done in E as (ev & db5 & E5 & E).
    apply bind_Done in E as ([] & db6 & E6 & E). injection E as -> ->.
    apply internally_Done in E5, E6. apply internally_Done, update_one_Done in E4.
    destruct E4 as (o0 & Ho0 & _ & Hck & -> & E4).
    apply (within_Done _ _ _ _ _ (kept_insert_event orders _ _ _ _ _ _)) in E5.
    apply (within_Done _ _ _ _ _ (kept_notify orders _ _ _ _ _ _ _)) in E6. unfold same in *.
    rewrite Eo1, lookup_insert_eq in Ho0. injection Ho0 as <-. apply refund_within in Hck.
    change (1 <= sats <= charged cur) in Hck. rewrite Hch in Hck. split.
    + rewrite E6, E5, E4. change (orders (upd orders ?f db1)) with (f (orders db1)).
      by rewrite Eo1, insert_insert_eq.
    + split; [exact Hid|]. split; [done|]. by exists sats, reference.
  - unfold apply_abandoned_effects in E. destruct (o_state o) eqn:Es; try discriminate E.
    + apply cancel_held_Done in E as [? ->]; done.
    + injection E as <- <-. by rewrite insert_id.
Qed.
End Outcome.

(** ** The decision *)

(** The primary key and the unique column of [payments]. *)
Definition payments_keyed (db : Db) : Prop :=
  (forall k p, payments db !! k = Some p -> p_id p = k) /\
  (forall k k' p p', payments db !! k = Some p -> payments db !! k' = Some p' ->
     p_order_id p = p_order_id p' -> k = k').

Lemma lock_payment_Done order_id db row db' :
  lock_payment order_id db = Done row db' ->
  db' = db /\
  match row with
  | Some p => exists k, payments db !! k = Some p /\ p_order_id p = order_id
  | None => forall k p, payments db !! k = Some p -> p_order_id p <> order_id
  end.
Proof.
  intros [= <- <-]. split; [done|].
  destruct (List.find _ _) as [[k p]|] eqn:Ef; simpl.
  - apply find_some in Ef as [Hin Hp]. reflect_bools. exists k. split; [|done].
    by apply elem_of_map_to_list, list_elem_of_In.
  - intros k p Hp Ho. assert (Hin : In (k, p) (map_to_list (payments db)))
      by (by apply list_elem_of_In, elem_of_map_to_list).
    pose proof (find_none _ _ Ef _ Hin) as Hf. simpl in Hf. by apply N.eqb_neq in Hf.
Qed.

Lemma lock_payment_unique order_id db k p :
  payments_keyed db -> payments db !! k = Some p -> p_order_id p = order_id ->
  lock_payment order_id db = Done (Some p) db.
Proof.
  intros [_ Hu] Hp Ho. destruct (lock_payment order_id db) as [row db'| | |] eqn:E; try discriminate E.
  apply lock_payment_Done in E as [-> Hrow]. destruct row as [p'|].
  - destruct Hrow as (k' & Hp' & Ho'). assert (k' = k) as -> by (eapply Hu; eauto; congruence).
    congruence.
  - by destruct (Hrow k p Hp).
Qed.

Section Decision.
Context {crate : UuidCrate}.

(** The rows a decision writes next to the payment and the order. *)
Record decision (input : ResolutionInput) (now : Time) (payment : PaymentRow)
    (order order' : OrderRow) (response : ResolutionResponse) (db db' : Db) : Prop := mkDecision {
  de_payments :
    payments db' = <[p_id payment := resolved_payment input now payment]> (payments db);
  de_order : orders db' = <[o_id order := order']> (orders db);
  de_settled : settled_order input now order order';
  de_audit : manual_resolutions db !! o_id order = None /\
    exists row, manual_resolutions db' = <[o_id order := row]> (manual_resolutions db) /\
      mr_outcome row = ri_outcome input /\ mr_resolution_id row = ri_resolution_id input /\
      mr_request_hash row = ri_request_hash input /\ mr_payment_id row = p_id payment /\
      mr_response row = response /\ rr_outcome response = ri_outcome input;
  de_paykit : resolve_outbox db !! o_id order = None /\
    exists row, resolve_outbox db' = <[o_id order := row]> (resolve_outbox db) /\
      rv_resolution row = paykit_resolution input /\
      Some (rv_invoice_id row) = o_paykit_invoice_id order /\
      Some (rv_stack_id row) = o_paykit_stack_id order /\
      Some (rv_stack_endpoint row) = o_paykit_stack_endpoint order;
}.

Lemma enqueue_resolve_Done order payment_id event_id resolution now db db' :
  enqueue_resolve_row order payment_id event_id resolution now db = Done tt db' ->
  resolve_outbox db !! o_id order = None /\
  exists row, db' = upd resolve_outbox (<[o_id order := row]>) db /\
    rv_resolution row = resolution /\ Some (rv_invoice_id row) = o_paykit_invoice_id order /\
    Some (rv_stack_id row) = o_paykit_stack_id order /\
    Some (rv_stack_endpoint row) = o_paykit_stack_endpoint order.
Proof.
  unfold enqueue_resolve_row.
  destruct (o_paykit_invoice_id order) as [i|]; [|discriminate].
  destruct (o_paykit_stack_id order) as [s|]; [|discriminate].
  destruct (o_paykit_stack_endpoint order) as [e|]; [|discriminate].
  intros E. apply internally_Done, insert_Done in E as (Hn & _ & ->). split; [done|]. by eexists.
Qed.

Lemma record_resolution_Done order order' payment rev input now db response db' :
  record_resolution order order' payment rev input now db = Done response db' ->
  response = resolution_response order' input now /\
  payments db' = payments db /\ orders db' = orders db /\
  manual_resolutions db !! o_id order = None /\ resolve_outbox db !! o_id order = None /\
  (exists row, manual_resolutions db' = <[o_id order := row]> (manual_resolutions db) /\
     mr_outcome row = ri_outcome input /\ mr_resolution_id row = ri_resolution_id input /\
     mr_request_hash row = ri_request_hash input /\ mr_payment_id row = p_id payment /\
     mr_response row = response) /\
  exists row, resolve_outbox db' = <[o_id order := row]> (resolve_outbox db) /\
    rv_resolution row = paykit_resolution input /\
    Some (rv_invoice_id row) = o_paykit_invoice_id order /\
    Some (rv_stack_id row) = o_paykit_stack_id order /\
    Some (rv_stack_endpoint row) = o_paykit_stack_endpoint order.
Proof.
  unfold record_resolution. intros E. apply bind_Done in E as (ev & db1 & E1 & E).
  apply bind_Done in E as ([] & db2 & E2 & E). apply bind_Done in E as ([] & db3 & E3 & E).
  apply bind_Done in E as ([] & db4 & E4 & E). injection E as <- <-.
  apply internally_Done in E1, E2. apply internally_Done, insert_Done in E3.
  destruct E3 as (Hn & _ & E3).
  assert (Hk : forall X (column : Db -> X), BesideStock column -> column db2 = column db).
  { intros X column Hb. transitivity (column db1).
    - exact (within_Done (same column) _ _ _ _ (kept_notify column _ _ _ _ _ _ _) E2).
    - exact (within_Done (same column) _ _ _ _ (kept_insert_event column _ _ _ _ _ _) E1). }
  apply enqueue_resolve_Done in E4 as (Hr & row & E4 & Hrow). rewrite E3 in E4, Hr.
  change (resolve_outbox db2 !! o_id order = None) in Hr. rewrite (Hk _ resolve_outbox _) in Hr.
  rewrite (Hk _ manual_resolutions _) in Hn. split; [done|]. rewrite E4.
  split; [exact (Hk _ payments _)|]. split; [exact (Hk _ orders _)|]. split; [done|].
  split; [done|]. split.
  - eexists. split; [rewrite <- (Hk _ manual_resolutions _); reflexivity|]. by repeat split.
  - exists row. split; [|done]. by rewrite <- (Hk _ resolve_outbox _).
Qed.

Lemma resolved_state input now p : p_state (resolved_payment input now p) <> PManualReview.
Proof. change (exit_state input <> PManualReview). unfold exit_state. by destruct (_ || _). Qed.

(** The compare-and-set of a resolution that ended. *)
Lemma resolution_claimed keys order_id input now db response db' :
  apply_manual_review_resolution keys order_id input now db = Done response db' ->
  payments_keyed db ->
  exists payment order,
    payments db !! p_id payment = Some payment /\ p_order_id payment = order_id /\
    p_adapter payment = "paykit" /\ p_state payment = PManualReview /\
    p_resolution_outcome payment = None /\
    (is_paid input = true -> p_review_reason payment <> Some "refund_required") /\
    orders db !! order_id = Some order /\
    payment_check (resolved_payment input now payment) = true /\
    bind (apply_outcome_effects keys order payment input now) (fun updated_order =>
      record_resolution order updated_order payment (p_revision (resolved_payment input now payment)) input now)
      (upd payments (<[p_id payment := resolved_payment input now payment]>) db) = Done response db'.
Proof.
  unfold apply_manual_review_resolution. intros E [Hk _].
  apply bind_Done in E as (row & db1 & E1 & E). apply internally_Done, lock_payment_Done in E1.
  destruct E1 as [-> Hrow]. apply bind_Done in E as (payment & db1 & E1 & E).
  apply or_fail_Done in E1 as [-> ->]. destruct Hrow as (k & Hp & Hpo).
  pose proof (Hk _ _ Hp) as <-. apply bind_Done in E as ([] & db1 & E1 & E).
  apply refuse_if_Done in E1 as [Had ->]. apply bind_Done in E as ([] & db1 & E1 & E).
  apply refuse_if_Done in E1 as [Hs ->]. apply bind_Done in E as (row & db1 & E1 & E).
  injection E1 as <- <-. apply bind_Done in E as (order & db1 & E1 & E).
  apply or_fail_Done in E1 as [Ho ->]. apply bind_Done in E as ([] & db1 & E1 & E).
  apply refuse_if_Done in E1 as [Hrr ->]. apply bind_Done in E as (cas & db1 & E1 & E).
  apply internally_Done, update_where_Done in E1. apply bind_Done in E as (p' & db2 & E2 & E).
  apply or_refuse_Done in E2 as [-> ->].
  destruct E1 as (p0 & Hp0 & Hc & Hck & -> & ->). rewrite Hp in Hp0. injection Hp0 as <-.
  reflect_bools. exists payment, order. repeat (split; [done|]).
  split; [intros Hp1 Hp2; rewrite Hp1, bool_decide_true in Hrr by done; discriminate|]. done.
Qed.

(** A resolution that ended, step by step. *)
Lemma resolution_Done keys order_id input now db response db' :
  apply_manual_review_resolution keys order_id input now db = Done response db' ->
  payments_keyed db -> (forall id o, orders db !! id = Some o -> o_id o = id) ->
  exists payment order order',
    payments db !! p_id payment = Some payment /\ p_order_id payment = order_id /\
    p_adapter payment = "paykit" /\ p_state payment = PManualReview /\
    p_resolution_outcome payment = None /\
    (is_paid input = true -> p_review_reason payment <> Some "refund_required") /\
    orders db !! order_id = Some order /\ o_id order = order_id /\
    payment_check (resolved_payment input now payment) = true /\
    decision input now payment order order' response db db'.
Proof.
  intros E Hk Hid. destruct (resolution_claimed _ _ _ _ _ _ _ E Hk)
    as (payment & order & Hp & Hpo & Had & Hs & Hout & Hrr & Ho & Hck & E'). clear E. rename E' into E.
  apply bind_Done in E as (order' & db3 & E3 & E).
  pose proof (Hid _ _ Ho) as Hoid.
  destruct (outcome_effects_Done _ _ _ _ _ _ _ _ E3) as [Eo3 Hset];
    [by rewrite Hoid|]. apply record_resolution_Done in E as (-> & Ep & Eo & Hm & Hr & Hmr & Hrv).
  assert (Hkept : forall X (column : Db -> X), BesideStock column ->
    (forall f db, column (upd orders f db) = column db) ->
    column db3 = column (upd payments (<[p_id payment := resolved_payment input now payment]>) db)).
  { intros X column Hb Hor. eapply (within_Done (same column)); [|exact E3].
    by apply kept_outcome_effects. }
  exists payment, order, order'. repeat (split; [done|]).
  rewrite (Hkept _ manual_resolutions _ ltac:(done)) in Hm, Hmr.
  rewrite (Hkept _ resolve_outbox _ ltac:(done)) in Hr, Hrv.
  split.
  - rewrite Ep. exact (Hkept _ payments _ ltac:(done)).
  - rewrite Eo. exact Eo3.
  - exact Hset.
  - split; [exact Hm|]. destruct Hmr as (r & ? & ? & ? & ? & ? & ?). exists r. by repeat (split; [done|]).
  - split; [exact Hr|]. exact Hrv.
Qed.

(** A payment that already carries an outcome is not decided again. *)
Lemma decided_refused keys order_id input now db k p :
  payments_keyed db -> payments db !! k = Some p -> p_order_id p = order_id ->
  is_Some (p_resolution_outcome p) ->
  (forall response db', apply_manual_review_resolution keys order_id input now db <> Done response db') /\
  (p_adapter p = "paykit" -> p_state p <> PManualReview ->
   apply_manual_review_resolution keys order_id input now db = Refused RAlreadyResolved db).
Proof.
  intros Hk Hp Ho Hout. split.
  - intros response db' E. destruct (resolution_claimed _ _ _ _ _ _ _ E Hk)
      as (p' & _ & Hp' & Ho' & _ & _ & Hnone & _).
    assert (p_id p' = k) as Ek by (eapply (proj2 Hk); eauto; congruence).
    rewrite Ek, Hp in Hp'. injection Hp' as <-. rewrite Hnone in Hout. by destruct Hout.
  - intros Had Hs. unfold apply_manual_review_resolution, bind at 1. unfold internally at 1.
    rewrite (lock_payment_unique order_id db k p Hk Hp Ho). cbn [or_fail]. unfold bind at 1, ret at 1.
    rewrite Had. unfold bind at 1. cbn [refuse_if negb String.eqb Ascii.eqb].
    by rewrite bool_decide_false, bool_decide_true by done.
Qed.

(** C18. A manual review is decided exactly once.  A resolution succeeds only for
    an unresolved payment of Paykit in review, never as paid when a refund is
    required; payment, order, audit row and the row Paykit is told carry the
    same outcome (paid with a receipt, refunded by the amount observed under
    the seller's reference, or cancelled), to the stack the order was bound
    to.  Afterwards, in any store where the payment of the order still carries
    an outcome, no attempt by anybody succeeds with any outcome, and while the
    payment is outside the review the answer is that it is already resolved,
    with nothing changed; the store the resolution leaves is such a store.
    (Payments and orders are keyed by their ids, one payment to an order.) *)
Theorem resolution_decides_once keys order_id input now db response db' :
  payments_keyed db -> (forall id o, orders db !! id = Some o -> o_id o = id) ->
  apply_manual_review_resolution keys order_id input now db = Done response db' ->
  (exists payment order order',
     payments db !! p_id payment = Some payment /\ p_order_id payment = order_id /\
     p_adapter payment = "paykit" /\
     p_state payment = PManualReview /\ p_resolution_outcome payment = None /\
     (is_paid input = true -> p_review_reason payment <> Some "refund_required") /\
     orders db !! order_id = Some order /\
     decision input now payment order order' response db db' /\
     exists resolved, payments db' !! p_id payment = Some resolved /\ payments_keyed db' /\
       p_order_id resolved = order_id /\ p_adapter resolved = "paykit" /\
       p_state resolved <> PManualReview /\ p_resolution_outcome resolved = Some (ri_outcome input)) /\
  forall keys' input' now' db'' k p, payments_keyed db'' -> payments db'' !! k = Some p ->
    p_order_id p = order_id -> is_Some (p_resolution_outcome p) ->
    (forall response' s, apply_manual_review_resolution keys' order_id input' now' db'' <> Done response' s) /\
    (p_adapter p = "paykit" -> p_state p <> PManualReview ->
     apply_manual_review_resolution keys' order_id input' now' db'' = Refused RAlreadyResolved db'').
Proof.
  intros Hk Hid E. destruct (resolution_Done _ _ _ _ _ _ _ E Hk Hid)
    as (payment & order & order' & Hp & Hpo & Had & Hs & Hout & Hrr & Ho & Hoid & _ & Hd).
  split; [|intros; by eapply decided_refused].
  exists payment, order, order'. repeat (split; [done|]).
  exists (resolved_payment input now payment). rewrite (de_payments _ _ _ _ _ _ _ _ Hd), lookup_insert_eq.
  split; [done|]. split; [|by repeat (split; [done || apply resolved_state|])].
  destruct Hk as [Hk Hu]. unfold payments_keyed. rewrite (de_payments _ _ _ _ _ _ _ _ Hd).
  split; [intros k p [[<- <-]|[_ Hkp]]%lookup_insert_Some; [done|by apply Hk]|].
  assert (Hold : forall k p, <[p_id payment:=resolved_payment input now payment]> (payments db) !! k
      = Some p -> exists p0, payments db !! k = Some p0 /\ p_order_id p = p_order_id p0).
  { intros k p [[<- <-]|[_ Hkp]]%lookup_insert_Some; eauto. }
  intros k k' p p' (p0 & H0 & E0)%Hold (p0' & H0' & E0')%Hold Ek. eapply Hu; eauto. congruence.
Qed.
End Decision.

Section Overpayment.
Context {crate : UuidCrate}.

(** An overpayment cannot be recorded as refunded: when more was observed
    than the order charged, as the poller accepts into review, no refunded
    resolution ever succeeds, because the refund is recorded as the amount
    observed and the orders table bounds a refund by what was charged. *)
Theorem overpayment_cannot_be_refunded keys order_id input now db order sats :
  payments_keyed db -> (forall id o, orders db !! id = Some o -> o_id o = id) ->
  is_paid input = false -> is_refunded input = true ->
  orders db !! order_id = Some order -> o_paykit_observed_sats order = Some sats ->
  charged order < sats ->
  forall response db', apply_manual_review_resolution keys order_id input now db <> Done response db'.
Proof.
  intros Hk Hid Hp Hr Ho Hs Hlt response db' E.
  destruct (resolution_Done _ _ _ _ _ _ _ E Hk Hid)
    as (payment & order0 & order' & _ & _ & _ & _ & _ & _ & Ho0 & _ & _ & Hd).
  rewrite Ho in Ho0. injection Ho0 as <-. destruct (de_settled _ _ _ _ _ _ _ _ Hd) as [_ Hset].
  rewrite Hp, Hr in Hset. destruct Hset as (_ & s & ? & Hs' & _ & _ & Hb).
  rewrite Hs in Hs'. injection Hs' as <-. lia.
Qed.
End Overpayment.

(** ** Samples *)

#[local] Existing Instance sample_crate.

(** A cancelled Bitcoin order over 1000 sats of [sally]'s listings whose payment
    of [sats] is in review. *)
Definition reviewed_order (lines : list OrderLine) (sats : Z) : OrderRow :=
  (sample_order 7 8 alice lines)
    <| o_state := OCancelled |> <| o_payment_method := Some "bitcoin" |>
    <| o_paykit_request_reference := Some "ref" |>
    <| o_paykit_request_state := Some "confirmed" |> <| o_paykit_invoice_id := Some 9%N |>
    <| o_paykit_stack_id := Some "stack" |> <| o_paykit_stack_endpoint := Some "endpoint" |>
    <| o_paykit_total_sats := Some 1000 |> <| o_paykit_observed_sats := Some sats |>.

Definition reviewed_payment : PaymentRow :=
  (sample_payment 8 7 alice 1000) <| p_adapter := "paykit" |> <| p_state := PManualReview |>
    <| p_manual_review_entered_at := Some 5 |>.

Definition review_shelf (sats : Z) : Db :=
  with_payment reviewed_payment (with_order (reviewed_order [sample_line "vase" 1] sats)
    (with_listing (sample_listing "vase" LAvailable 1 0 0) empty_db)).

Definition seller_refund : ResolutionInput :=
  mkResolutionInput "refunded" "seller_attestation" (Some sally) None (Some "tx") 20 "hash" sally.

Definition seller_paid : ResolutionInput :=
  mkResolutionInput "paid" "seller_attestation" (Some sally) None None 21 "hash" sally.

Lemma review_shelf_keyed sats :
  payments_keyed (review_shelf sats) /\
  forall id o, orders (review_shelf sats) !! id = Some o -> o_id o = id.
Proof.
  unfold payments_keyed.
  change (payments (review_shelf sats)) with ({[8%N := reviewed_payment]} : gmap Uuid PaymentRow).
  change (orders (review_shelf sats))
    with ({[7%N := reviewed_order [sample_line "vase" 1] sats]} : gmap Uuid OrderRow).
  split; [split|].
  - intros k p [<- <-]%lookup_singleton_Some. reflexivity.
  - intros k k' p p' [<- _]%lookup_singleton_Some [<- _]%lookup_singleton_Some _. reflexivity.
  - intros id o [<- <-]%lookup_singleton_Some. reflexivity.
Qed.

(** Whether a transaction ended. *)
Definition ended {S F A} (o : Outcome S F A) : bool := match o with Done _ _ => true | _ => false end.

Lemma resolution_decides_once_witness :
  exists response db',
    apply_manual_review_resolution sample_keys 7 seller_refund 50 (review_shelf 1000)
      = Done response db' /\
    apply_manual_review_resolution sample_keys 7 seller_paid 60 db' = Refused RAlreadyResolved db'.
Proof.
  destruct (review_shelf_keyed 1000) as [Hk Hid].
  destruct (apply_manual_review_resolution sample_keys 7 seller_refund 50 (review_shelf 1000))
    as [response db'|f s|e|m] eqn:E.
  2,3,4: exfalso; assert (Hd : ended (apply_manual_review_resolution sample_keys 7 seller_refund 50
    (review_shelf 1000)) = true) by (vm_compute; reflexivity); rewrite E in Hd; discriminate Hd.
  exists response, db'. split; [reflexivity|].
  destruct (resolution_decides_once sample_keys 7 seller_refund 50 (review_shelf 1000) response db'
              Hk Hid E) as [(payment & order & order' & _ & _ & _ & _ & _ & _ & _ & _ & resolved & Hr & Hk' &
                Ho & Ha & Hs & Hout) Hagain].
  apply (Hagain sample_keys seller_paid 60 db' (p_id payment) resolved Hk' Hr Ho); [by eexists|exact Ha|exact Hs].
Defined.

Lemma overpayment_cannot_be_refunded_witness :
  charged (reviewed_order [sample_line "vase" 1] 1500) < 1500 /\
  forall response db', apply_manual_review_resolution sample_keys 7 seller_refund 50
    (review_shelf 1500) <> Done response db'.
Proof.
  split; [vm_compute; reflexivity|].
  destruct (review_shelf_keyed 1500) as [Hk Hid].
  apply (overpayment_cannot_be_refunded sample_keys 7 seller_refund 50 (review_shelf 1500)
           (reviewed_order [sample_line "vase" 1] 1500) 1500 Hk Hid);
    vm_compute; reflexivity.
Defined.
