(* ===== verification/DropBooks.v ===== *)
(** * The drop ledger

    A drop promises [total_quantity] units: every unit is either remaining or
    counted against a buyer, no buyer is over the limit, and a drop that is
    still announced has sold nothing.  [drops_ok] is that invariant; every
    operation of [handlers/drops.rs] preserves it, and under it no assertion
    of those operations can fail. *)

From S2P Require Import Prelude Domain StateMachines Store Commands Actions Drops Holds Pickup.
From S2P Require Import DigitalManual Cancellation Payment Auction Executor Samples.

(** ** The invariant *)

(** Units counted against buyers of drop [k]. *)
Definition purchased_in (k : string) (key : string * string) (p : DropPurchaseRow) : Z :=
  if (fst key =? k)%string then dp_quantity p else 0.

Definition purchased (db : Db) (k : string) : Z := map_sum (purchased_in k) (drop_purchases db).

Record drop_row_ok (now : Time) (db : Db) (k : string) (d : DropRow) : Prop := mkDropRowOk {
  dk_key : d_aggregate_id d = k;
  dk_check : drop_check d = true;
  dk_live : d_state d = DLive -> d_starts_at d <= now;
  dk_sum : d_remaining_quantity d + purchased db k = d_total_quantity d;
  dk_announced : d_state d = DAnnounced -> forall b, drop_purchases db !! (k, b) = None;
}.

Record drops_ok (now : Time) (db : Db) : Prop := mkDropsOk {
  dk_row : forall k d, drops db !! k = Some d -> drop_row_ok now db k d;
  dk_purchase : forall k b p, drop_purchases db !! (k, b) = Some p ->
    drop_purchase_check p = true /\
    exists d, drops db !! k = Some d /\ dp_per_buyer_limit p = d_per_buyer_limit d;
}.

(** What the drop operations never touch. *)
Record drops_only (db db' : Db) : Prop := mkDropsOnly {
  do_listings : listings db' = listings db;
  do_reservations : reservations db' = reservations db;
  do_orders : orders db' = orders db;
  do_payments : payments db' = payments db;
  do_receipts : receipts db' = receipts db;
  do_bids : bids db' = bids db;
  do_results : command_results db' = command_results db;
  do_offers : offers db' = offers db;
}.

#[export] Instance drops_only_preorder : PreOrder drops_only.
Proof.
  split; [by split|]. intros db1 db2 db3 [] []. split; congruence.
Qed.

Lemma drops_ok_same now db db' :
  drops db' = drops db -> drop_purchases db' = drop_purchases db ->
  drops_ok now db -> drops_ok now db'.
Proof.
  intros Hd Hp [H1 H2]. split; rewrite ?Hd, ?Hp; [|exact H2].
  intros k d Hk. destruct (H1 k d Hk). split; auto; unfold purchased in *; by rewrite Hp.
Qed.

Lemma drops_ok_later now now' db : now <= now' -> drops_ok now db -> drops_ok now' db.
Proof.
  intros Hle [H1 H2]. split; [|exact H2]. intros k d Hk. destruct (H1 k d Hk).
  split; auto. intros Hl. specialize (dk_live0 Hl). lia.
Qed.

(** The facts of [drop_check] the proofs use. *)
Lemma drop_check_bounds d :
  drop_check d = true ->
  0 <= d_remaining_quantity d <= d_total_quantity d /\ 0 <= d_paid_quantity d <= d_total_quantity d /\
  d_total_quantity d <= 1000000 /\ 1 <= d_per_buyer_limit d /\
  forall e, d_ends_at d = Some e -> d_starts_at d < e.
Proof.
  unfold drop_check, between. intros Hc. reflect_bools. repeat split; try lia.
  intros e He. rewrite He in *. reflect_bools. lia.
Qed.

Lemma purchased_put db k k' b p :
  map_sum (purchased_in k) (<[(k', b) := p]> (drop_purchases db)) =
  purchased db k + (if (k' =? k)%string
                    then dp_quantity p - from_option dp_quantity 0 (drop_purchases db !! (k', b))
                    else 0).
Proof.
  rewrite map_sum_put. unfold purchased, purchased_in at 2 3. simpl.
  destruct (k' =? k)%string, (drop_purchases db !! (k', b)); simpl; lia.
Qed.

(** Drop [k] is rewritten in place; its counters keep their sum. *)
Lemma drops_put now db k d d' :
  drops_ok now db -> drops db !! k = Some d -> drop_check d' = true ->
  d_aggregate_id d' = k -> d_per_buyer_limit d' = d_per_buyer_limit d ->
  d_remaining_quantity d' = d_remaining_quantity d -> d_total_quantity d' = d_total_quantity d ->
  (d_state d' = DLive -> d_starts_at d' <= now) ->
  (d_state d' = DAnnounced -> d_state d = DAnnounced) ->
  drops_ok now (upd drops (<[k := d']>) db).
Proof.
  intros Hok Hk Hc Hid Hlim Hrem Htot Hlive Hann. destruct (dk_row _ _ Hok k d Hk). split.
  - intros k0 d0 H0. change ((<[k:=d']> (drops db)) !! k0 = Some d0) in H0.
    apply lookup_insert_Some in H0 as [[<- <-]|[Hne H0]]; [|by destruct (dk_row _ _ Hok k0 d0 H0)].
    split; auto. change (purchased (upd drops _ db) k) with (purchased db k). lia.
  - intros k0 b p Hp. destruct (dk_purchase _ _ Hok k0 b p Hp) as (? & d0 & H0 & Hl).
    split; [done|]. destruct (decide (k = k0)) as [<-|Hne].
    + exists d'. split; [exact (lookup_insert_eq _ _ _)|congruence].
    + exists d0. split; [|done]. etransitivity; [exact (lookup_insert_ne _ _ _ _ Hne)|done].
Qed.

(** Units move between drop [k] and one buyer. *)
Lemma drops_move now db k d d' b p' :
  drops_ok now db -> drops db !! k = Some d -> drop_check d' = true ->
  d_aggregate_id d' = k -> d_per_buyer_limit d' = d_per_buyer_limit d ->
  d_total_quantity d' = d_total_quantity d -> d_starts_at d' = d_starts_at d ->
  d_state d' = d_state d -> drop_purchase_check p' = true ->
  dp_per_buyer_limit p' = d_per_buyer_limit d ->
  d_remaining_quantity d' + dp_quantity p' =
    d_remaining_quantity d + from_option dp_quantity 0 (drop_purchases db !! (k, b)) ->
  d_state d <> DAnnounced \/ is_Some (drop_purchases db !! (k, b)) ->
  drops_ok now (upd drop_purchases (<[(k, b) := p']>) (upd drops (<[k := d']>) db)).
Proof.
  intros Hok Hk Hc Hid Hlim Htot Hstart Hstate Hpc Hpl Hsum Hann.
  destruct (dk_row _ _ Hok k d Hk) as [? _ Hl Hs Ha].
  assert (Hna : d_state d <> DAnnounced).
  { destruct Hann as [?|[p Hp]]; [done|]. intros Hd. by rewrite (Ha Hd b) in Hp. }
  set (db' := upd drop_purchases _ _).
  assert (Hpur : forall k0, purchased db' k0 = purchased db k0 + (if (k =? k0)%string
     then dp_quantity p' - from_option dp_quantity 0 (drop_purchases db !! (k, b)) else 0)).
  { intros k0. exact (purchased_put db k0 k b p'). }
  split.
  - intros k0 d0 H0. change ((<[k:=d']> (drops db)) !! k0 = Some d0) in H0.
    apply lookup_insert_Some in H0 as [[<- <-]|[Hne H0]].
    + split; [done|done|rewrite Hstate, Hstart; exact Hl| |congruence].
      rewrite Hpur, String.eqb_refl. lia.
    + destruct (dk_row _ _ Hok k0 d0 H0) as [? ? ? ? Ha0]. split; auto.
      * rewrite Hpur, (proj2 (String.eqb_neq k k0) Hne). lia.
      * intros Hd b0. etransitivity; [|exact (Ha0 Hd b0)].
        apply (lookup_insert_ne (drop_purchases db)). congruence.
  - intros k0 b0 p Hp. change ((<[(k, b):=p']> (drop_purchases db)) !! (k0, b0) = Some p) in Hp.
    apply lookup_insert_Some in Hp as [[[= <- <-] <-]|[Hne Hp]].
    + split; [done|]. exists d'. split; [exact (lookup_insert_eq _ _ _)|congruence].
    + destruct (dk_purchase _ _ Hok k0 b0 p Hp) as (? & d1 & H1 & Hl1). split; [done|].
      destruct (decide (k = k0)) as [<-|Hne'].
      * exists d'. split; [exact (lookup_insert_eq _ _ _)|congruence].
      * exists d1. split; [|done]. etransitivity; [exact (lookup_insert_ne _ _ _ _ Hne')|done].
Qed.

(** ** The operations *)

(** What a time transition keeps of a drop. *)
Definition drop_moved (d d' : DropRow) : Prop :=
  d_aggregate_id d' = d_aggregate_id d /\ d_remaining_quantity d' = d_remaining_quantity d /\
  d_paid_quantity d' = d_paid_quantity d /\ d_total_quantity d' = d_total_quantity d /\
  d_per_buyer_limit d' = d_per_buyer_limit d /\ d_starts_at d' = d_starts_at d /\
  d_ends_at d' = d_ends_at d /\ d_seller_pubky d' = d_seller_pubky d.

Section Operations.
Context {crate : UuidCrate}.

Lemma derived_live starts ends now : derived_state starts ends now = DLive -> starts <= now.
Proof. unfold derived_state. repeat case_match; try discriminate; reflect_bools; lia. Qed.

(** Server time moves a drop only along declared transitions. *)
Lemma drop_can_derived now db k d :
  drop_row_ok now db k d -> is_active_state (d_state d) = true ->
  drop_can (d_state d) (derived_state (d_starts_at d) (d_ends_at d) now) = true.
Proof.
  intros [_ Hc Hl _ _] Ha. unfold derived_state.
  destruct (d_state d); try discriminate; repeat case_match; try reflexivity.
  all: reflect_bools; specialize (Hl eq_refl); lia.
Qed.

Lemma wp_apply_time_transitions now db k d command_id :
  drops_ok now db -> drops db !! k = Some d ->
  wp (apply_time_transitions d command_id now)
    (fun d' db' => drops_ok now db' /\ drops_only db db' /\ drops db' !! k = Some d' /\
       drop_moved d d' /\ d_state d' = effective_state d now /\
       drop_purchases db' = drop_purchases db) any_refusal db.
Proof.
  intros Hok Hk. pose proof (dk_row _ _ Hok k d Hk) as Hrow. pose proof (dk_key _ _ _ _ Hrow) as Hid.
  unfold apply_time_transitions, effective_state, update_drop, deactivate_drop_listing_bindings.
  destruct (is_active_state (d_state d)) eqn:Ha; cbn [negb]; [|by wp_step].
  case_bool_decide as Et; [by wp_step|]. subst k.
  apply wp_bind, wp_debug_assert; [by eapply drop_can_derived|].
  set (target := derived_state _ _ _) in *.
  do 2 wp_step. assert (v = d) as -> by congruence. set (d' := upd d_updated_at _ _).
  apply wp_bind. eapply wp_mono with (R' := any_refusal) (Q' := fun _ db' =>
    drops_ok now db' /\ drops_only db db' /\ drops db' !! d_aggregate_id d = Some d' /\
    drop_purchases db' = drop_purchases db); [| |done].
  { assert (Hok' : drops_ok now (upd drops (<[d_aggregate_id d := d']>) db)).
    { eapply drops_put; try done; [apply derived_live|]. simpl. intros Ht.
      subst d'. destruct (d_state d) eqn:Es; try discriminate; [done|].
      exfalso. destruct Hrow as [_ _ Hl _ _]. specialize (Hl Es).
      unfold target, derived_state in Ht. repeat case_match; try discriminate; reflect_bools; lia. }
    wp_step; wp_step; (split; [by eapply drops_ok_same; [..|exact Hok']|]);
      (split; [by split|]); (split; [exact (lookup_insert_eq _ _ _)|done]). }
  intros [] dby (Hoky & Hfr & Hky & Hpy). apply wp_bind, wp_insert_event. intros e _ _. wp_step.
  split; [by eapply drops_ok_same; [..|exact Hoky]|]. split; [by etransitivity; [exact Hfr|split]|].
  split; [exact Hky|]. split; [by repeat split|]. split; [done|exact Hpy].
Qed.
(** The gate: an accepted hold finds the drop live, takes its units from
    [remaining] and counts them against the buyer, within the limit. *)
Definition gated (now : Time) (buyer : string) (units : Z) (k : string) (d d' : DropRow)
    (db db' : Db) : Prop :=
  drops db' !! k = Some d' /\ effective_state d now = DLive /\
  d_remaining_quantity d' = d_remaining_quantity d - units /\ 0 <= d_remaining_quantity d' /\
  exists p, drop_purchases db' !! (k, buyer) = Some p /\
    dp_quantity p = from_option dp_quantity 0 (drop_purchases db !! (k, buyer)) + units /\
    dp_quantity p <= d_per_buyer_limit d.

Lemma wp_enforce_drop_gate now db k d buyer units command_id :
  drops_ok now db -> drops db !! k = Some d ->
  wp (enforce_drop_gate d buyer units command_id now)
    (fun d' db' => drops_ok now db' /\ drops_only db db' /\ d_aggregate_id d' = k /\
       gated now buyer units k d d' db db') any_refusal db.
Proof.
  intros Hok Hk. unfold enforce_drop_gate, update_drop. apply wp_bind.
  eapply wp_mono; [by apply (wp_apply_time_transitions now db k)| |done].
  intros d1 db1 (Hok1 & Hf1 & Hk1 & (_ & Hrem & _ & _ & Hlim & _) & Hst & Hp1).
  destruct (dk_row _ _ Hok1 k d1 Hk1) as [Hid Hc Hl Hs Ha].
  wp_step. wp_step; try (wp_step; exact I). wp_step. do 8 wp_step. reflect_bools.
  rewrite Hid in *. assert (v = d1) as -> by congruence. rewrite Hp1 in *.
  set (held := drop_purchases db !! (k, buyer)) in *.
  set (d2 := upd d_updated_at _ _) in *.
  match goal with |- context [write drop_purchases _ _ ?p] => set (p' := p) end.
  assert (Hq : dp_quantity p' = from_option dp_quantity 0 held + units)
    by (unfold p'; destruct held; simpl; lia).
  assert (Hlim' : dp_per_buyer_limit p' = d_per_buyer_limit d1).
  { unfold p', held. destruct (drop_purchases db !! (k, buyer)) as [p|] eqn:Ep; [|done].
    rewrite <- Hp1 in Ep. destruct (dk_purchase _ _ Hok1 k buyer p Ep) as (_ & d0 & H0' & Hl0).
    simpl. congruence. }
  do 3 wp_step. split; [|split; [|split; [exact Hid|]]].
  - eapply (drops_move now db1 k d1 d2 buyer p'); try done.
    + rewrite Hp1. fold held. simpl. lia.
    + left. by rewrite Heqd0.
  - etransitivity; [exact Hf1|by split].
  - split; [exact (lookup_insert_eq _ _ _)|]. split; [done|]. simpl. rewrite <- Hrem, <- Hlim.
    split; [lia|]. split; [lia|]. exists p'. split; [exact (lookup_insert_eq _ _ _)|].
    split; [exact Hq|]. rewrite Hq. destruct held; simpl in *; lia.
Qed.
(** A confirmation: the next edition, never beyond the total; the drop ends
    when the last one is paid while it is live. *)
Definition paid_one (now : Time) (d d' : DropRow) : Prop :=
  d_paid_quantity d' = d_paid_quantity d + 1 /\ d_paid_quantity d' <= d_total_quantity d /\
  d_remaining_quantity d' = d_remaining_quantity d /\ d_total_quantity d' = d_total_quantity d /\
  d_state d' = if (d_paid_quantity d + 1 =? d_total_quantity d) &&
                  bool_decide (effective_state d now = DLive)
               then DEndedSoldOut else effective_state d now.

Lemma wp_record_paid_unit now db k actor command_id :
  drops_ok now db ->
  wp (record_paid_unit k actor command_id now)
    (fun e db' => drops_ok now db' /\ drops_only db db' /\
       drop_purchases db' = drop_purchases db /\
       exists d d', drops db !! k = Some d /\ drops db' !! k = Some d' /\
         e = d_paid_quantity d' /\ paid_one now d d') any_refusal db.
Proof.
  intros Hok. unfold record_paid_unit, fetch_drop_for_update, update_drop,
    deactivate_drop_listing_bindings.
  do 4 wp_step. rename a into d, H into Hk. apply wp_bind.
  eapply wp_mono; [by apply (wp_apply_time_transitions now db k)| |done].
  intros d1 db1 (Hok1 & Hf1 & Hk1 & (_ & Hrem & Hpaid & Htot & Hlim & Hst & Hen & _) & Hstate & Hp1).
  destruct (dk_row _ _ Hok1 k d1 Hk1) as [Hid Hc Hl Hs Ha].
  do 2 wp_step. assert (v = d1) as -> by congruence. set (d2 := upd d_updated_at _ _) in *.
  rename select (drop_check d2 = true) into Hc2.
  pose proof (drop_check_bounds _ Hc2) as (_ & Hb & _).
  assert (Hok2 : drops_ok now (upd drops (<[k := d2]>) db1)) by (by eapply drops_put).
  apply wp_bind. eapply wp_mono with (R' := any_refusal) (Q' := fun _ db' =>
    drops_ok now db' /\ drops_only db db' /\ drop_purchases db' = drop_purchases db /\
    exists d', drops db' !! k = Some d' /\ d_paid_quantity d' = d_paid_quantity d2 /\
      paid_one now d d').
  - change (d_total_quantity d2) with (d_total_quantity d1).
    change (d_paid_quantity d2) with (d_paid_quantity d1 + 1) in *.
    change (d_state d2) with (d_state d1). rewrite Hpaid, Htot, Hstate.
    assert (d_paid_quantity d + 1 <= d_total_quantity d) as Hle.
    { rewrite <- Hpaid, <- Htot. exact (proj2 Hb). }
    destruct ((_ =? _) && _) eqn:Elast.
    + apply wp_bind, wp_debug_assert; [done|]. do 2 wp_step.
      match goal with Hv : drops (upd drops _ db1) !! k = Some ?v |- _ =>
        assert (v = d2) as -> by (change ((<[k:=d2]> (drops db1)) !! k = Some v) in Hv;
          rewrite lookup_insert_eq in Hv; congruence) end.
      set (d3 := d2 <| d_state := DEndedSoldOut |> <| d_revision := d_revision d2 + 1 |>
                    <| d_updated_at := now |>) in *.
      assert (Hok3 : drops_ok now (upd drops (<[k := d3]>) (upd drops (<[k := d2]>) db1)))
        by (eapply drops_put; try done; exact (lookup_insert_eq _ _ _)).
      do 2 wp_step. apply wp_bind, wp_insert_event. intros e _ _.
      unfold insert_notification_intent, enqueue. wp_step.
      split; [by eapply drops_ok_same; [..|exact Hok3]|].
      split; [etransitivity; [exact Hf1|by split]|]. split; [exact Hp1|].
      exists d3. split; [exact (lookup_insert_eq _ _ _)|]. unfold paid_one. simpl.
      rewrite Elast, Hpaid, Hrem, Htot. repeat split; auto.
    + wp_step. split; [exact Hok2|]. split; [etransitivity; [exact Hf1|by split]|].
      split; [exact Hp1|]. exists d2. split; [exact (lookup_insert_eq _ _ _)|].
      unfold paid_one. simpl. rewrite Elast, Hpaid, Hrem, Htot. repeat split; auto.
  - intros [] db' (H2 & H3 & H4 & d' & H5 & H6 & H7). wp_step. do 3 (split; [done|]).
    exists d, d'. split; [exact Hk|]. split; [done|]. split; [by rewrite H6|done].
  - done.
Qed.
(** A released hold: units come back, unless the books refuse it. *)
Lemma wp_credit_drop_release now db k buyer units :
  drops_ok now db -> 0 <= units ->
  wp (credit_drop_release k buyer units now)
    (fun credited db' => (credited = true -> drops_ok now db') /\ drops_only db db')
    any_refusal db.
Proof.
  intros Hok Hu. unfold credit_drop_release, fetch_drop_for_update.
  do 3 wp_step; [|by wp_step]. rename d into d0, Heqo into Hk. do 2 wp_step; [|by wp_step].
  assert (v = d0) as -> by congruence.
  do 2 wp_step; wp_step; (split; [|by split]); [|done]. intros _.
  rename select (drop_purchases _ !! _ = Some _) into Hp.
  match type of Hp with _ = Some ?p => rename p into p0 end.
  change (drop_purchases db !! (k, buyer) = Some p0) in Hp. reflect_bools.
  destruct (dk_row _ _ Hok k d0 Hk) as [Hid Hc Hl Hs Ha].
  destruct (dk_purchase _ _ Hok k buyer p0 Hp) as (Hpc & d1 & Hd1 & Hlim).
  assert (d1 = d0) as -> by congruence.
  eapply drops_move; try done; [by simpl; rewrite Hp; simpl; lia|right; by rewrite Hp].
Qed.

Lemma wp_drops_credit_order now db o :
  drops_ok now db -> 0 <= order_units o ->
  wp (credit_order_drop o now)
    (fun _ db' => drops_ok now db' /\ drops_only db db') any_refusal db.
Proof.
  intros Hok Hu. unfold credit_order_drop. wp_step; [|by wp_step]. apply wp_bind.
  eapply wp_mono; [by apply wp_credit_drop_release| |done].
  intros credited db' [Hc Hf]. wp_step. reflect_bools. auto.
Qed.

(** Bindings touch neither counters nor buyers. *)
Lemma wp_insert_drop_listing_bindings d listing_ids active now db :
  drops_ok now db ->
  wp (insert_drop_listing_bindings d listing_ids active)
    (fun _ db' => drops_ok now db' /\ drops_only db db') any_refusal db.
Proof.
  intros Hok. unfold insert_drop_listing_bindings. apply wp_bind.
  eapply wp_mono; [apply (wp_for_each (fun _ db' => drops_ok now db' /\ drops_only db db')
                            any_refusal)| |done].
  - done.
  - intros id _ db' [Hok' Hf]. unfold insert_binding, fetch_listing. do 3 wp_step.
    + wp_step. split; [by eapply drops_ok_same; [..|exact Hok']|].
      etransitivity; [exact Hf|by split].
    + by wp_step.
  - intros [] db' Hok'. do 2 wp_step. wp_step; by wp_step.
Qed.

(** The row [drop.sync] writes: a fresh count, when nothing was bought. *)
Lemma drops_fresh now db k d :
  drops_ok now db -> (forall b, drop_purchases db !! (k, b) = None) ->
  drop_check d = true -> d_aggregate_id d = k -> d_remaining_quantity d = d_total_quantity d ->
  (d_state d = DLive -> d_starts_at d <= now) ->
  drops_ok now (upd drops (<[k := d]>) db).
Proof.
  intros Hok Hnone Hc Hid Hrem Hlive.
  assert (purchased db k = 0) as Hz.
  { unfold purchased. rewrite <- (map_sum_zero (drop_purchases db)). apply map_sum_ext.
    intros [k0 b] p Hp. unfold purchased_in. simpl. destruct (String.eqb_spec k0 k) as [->|]; [|done].
    by rewrite Hnone in Hp. }
  split.
  - intros k0 d0 H0. change ((<[k:=d]> (drops db)) !! k0 = Some d0) in H0.
    apply lookup_insert_Some in H0 as [[<- <-]|[Hne H0]]; [|by destruct (dk_row _ _ Hok k0 d0 H0)].
    split; auto. change (purchased (upd drops _ db) k) with (purchased db k). lia.
  - intros k0 b p Hp. destruct (dk_purchase _ _ Hok k0 b p Hp) as (? & d0 & H0 & Hl).
    split; [done|]. destruct (decide (k = k0)) as [<-|Hne].
    + exfalso. assert (drop_purchases db !! (k, b) = Some p) as Hp' by exact Hp.
      by rewrite Hnone in Hp'.
    + exists d0. split; [|done]. etransitivity; [exact (lookup_insert_ne _ _ _ _ Hne)|done].
Qed.

Lemma no_drop_no_purchase now db k b :
  drops_ok now db -> drops db !! k = None -> drop_purchases db !! (k, b) = None.
Proof.
  intros Hok Hk. destruct (drop_purchases db !! (k, b)) as [p|] eqn:Hp; [|done].
  destruct (dk_purchase _ _ Hok k b p Hp) as (_ & d & Hd & _). congruence.
Qed.

Lemma effective_announced now db k d :
  drop_row_ok now db k d -> effective_state d now = DAnnounced -> d_state d = DAnnounced.
Proof.
  intros [_ _ Hl _ _]. unfold effective_state, derived_state.
  destruct (d_state d); simpl; try done. specialize (Hl eq_refl).
  repeat case_match; try done; reflect_bools; lia.
Qed.
(** The seller's commands. *)
Definition drop_kept (now : Time) (db db' : Db) : Prop := drops_ok now db' /\ drops_only db db'.

Lemma drop_kept_event now db db' e :
  drop_kept now db db' ->
  drop_kept now db (upd events (fun l => l ++ [e]) (upd draws N.succ db')).
Proof.
  intros [Hok Hf]. split; [by eapply drops_ok_same; [..|exact Hok]|].
  etransitivity; [exact Hf|by split].
Qed.

Lemma wp_drop_event now db db' cid agg rev actor ek (A : Type) (f : Uuid -> A) :
  drop_kept now db db' ->
  wp (let* event_id := insert_event cid agg rev actor ek now in ret (f event_id))
    (fun _ => drop_kept now db) any_refusal db'.
Proof. intros Hk. apply wp_bind, wp_insert_event. intros e _ _. wp_step. by apply drop_kept_event. Qed.

Lemma wp_drop_sync actor command payload fetched now db :
  drops_ok now db ->
  wp (Drops.sync actor command payload fetched now) (fun _ => drop_kept now db) any_refusal db.
Proof.
  intros Hok. unfold Drops.sync, fetch_drop_for_update. do 4 wp_step. wp_step.
  eapply wp_mono with (R' := any_refusal) (Q' := fun _ => eq db);
    [by wp_step; wp_step| |done].
  intros record ? <-. do 6 wp_step. wp_step.
  - rename d into cur, Heqo into Hcur. pose proof (dk_row _ _ Hok _ _ Hcur) as Hrow.
    wp_step; [by wp_step|]. unfold apply_resync, update_drop. do 2 wp_step.
    rename select (negb _ = false) into He. apply negb_false_iff, bool_decide_eq_true in He.
    do 2 wp_step. assert (v = cur) as -> by congruence. set (d' := upd d_updated_at _ _) in *.
    assert (Hok' : drops_ok now (upd drops (<[c_aggregate_id command := d']>) db)).
    { eapply drops_fresh; try done.
      - intros b. eapply dk_announced; [exact Hrow|]. by eapply effective_announced.
      - destruct Hrow. done.
      - apply derived_live. }
    do 2 wp_step. apply wp_bind. eapply wp_mono;
      [apply (wp_insert_drop_listing_bindings _ _ _ now)| |done].
    { by eapply drops_ok_same; [..|exact Hok']. }
    intros [] db' [Hok'' Hf]. apply wp_drop_event. split; [done|].
    etransitivity; [|exact Hf]. by split.
  - unfold apply_registration. do 2 wp_step.
    apply wp_bind. eapply wp_mono; [apply (wp_insert_drop_listing_bindings _ _ _ now)| |done].
    { eapply drops_fresh; try done; [|apply derived_live].
      intros b. by eapply no_drop_no_purchase. }
    intros [] db' [Hok'' Hf]. apply wp_drop_event. split; [done|].
    etransitivity; [|exact Hf]. by split.
Qed.

Lemma wp_drop_cancel actor command now db :
  drops_ok now db ->
  wp (Drops.cancel actor command now) (fun _ => drop_kept now db) any_refusal db.
Proof.
  intros Hok. unfold Drops.cancel, fetch_drop_for_update, update_drop,
    deactivate_drop_listing_bindings. do 10 wp_step.
  apply wp_bind, wp_debug_assert.
  { rename select (negb (is_active_state _) = false) into He.
    by destruct (effective_state a now). }
  do 2 wp_step. assert (v = a) as -> by congruence.
  do 2 wp_step. apply wp_drop_event. split; [|by split].
  eapply drops_ok_same; [..|eapply (drops_put now db _ a)]; try done.
  by destruct (dk_row _ _ Hok _ _ H).
Qed.

Lemma wp_drop_release actor command now db :
  drops_ok now db ->
  wp (Drops.release_listings actor command now) (fun _ => drop_kept now db) any_refusal db.
Proof.
  intros Hok. unfold Drops.release_listings, fetch_drop_for_update, update_drop.
  do 8 wp_step. apply wp_bind.
  eapply wp_mono; [apply (wp_apply_time_transitions now db (c_aggregate_id command)); done| |done].
  intros d1 db1 (Hok1 & Hf1 & Hk1 & _). do 6 wp_step.
  assert (v = d1) as -> by (change (drops db1 !! c_aggregate_id command = Some v) in H3; congruence).
  destruct (dk_row _ _ Hok1 _ _ Hk1).
  apply wp_drop_event. split; [|etransitivity; [exact Hf1|by split]].
  eapply drops_ok_same; [..|eapply (drops_put now db1 _ d1)]; try done.
Qed.
End Operations.
