(* ===== verification/OrderActions.v ===== *)
(** * Order actions conform to the order machine

    The order commands of [handlers/fulfillment.rs], [handlers/returns.rs],
    [handlers/cancellation.rs], [handlers/digital_manual.rs] and
    [handlers/reviews.rs]: every accepted one moves its order along a
    transition the order machine declares for that very command, bumps the
    revision by one and appends one event at the new revision; no assertion
    of a handler ever fails. *)

From S2P Require Import LocksKeys LockResource Registration.
From S2P Require Import Prelude Domain Json StateMachines Store Commands Actions Drops Holds Pickup.
From S2P Require Import Seal Text DigitalManual Fulfillment Reviews Cancellation Executor Samples.

(** ** What a release of stock may touch *)

(** Only listings, reservations, drops and drop purchases differ. *)
Definition stock_only (db db' : Db) : Prop :=
  db' = db <| listings := listings db' |> <| reservations := reservations db' |>
           <| drops := drops db' |> <| drop_purchases := drop_purchases db' |>.

#[export] Instance stock_only_preorder : PreOrder stock_only.
Proof.
  split.
  - intros []. reflexivity.
  - intros x y z H1 H2. unfold stock_only in *. etransitivity; [exact H2|].
    generalize (listings z), (reservations z), (drops z), (drop_purchases z). intros l r d p.
    rewrite H1. reflexivity.
Qed.

Lemma stock_only_orders db db' : stock_only db db' -> orders db' = orders db.
Proof. intros ->. reflexivity. Qed.
Lemma stock_only_events db db' : stock_only db db' -> events db' = events db.
Proof. intros ->. reflexivity. Qed.
Lemma stock_only_payments db db' : stock_only db db' -> payments db' = payments db.
Proof. intros ->. reflexivity. Qed.
Lemma stock_only_offers db db' : stock_only db db' -> offers db' = offers db.
Proof. intros ->. reflexivity. Qed.

(** A step that touches stock only, whatever its outcome. *)
Definition stock_step {A} (m : H A) : Prop :=
  forall db, wp m (fun _ => stock_only db) (fun _ => stock_only db) db.

Lemma stock_step_bind {A B} (m : H A) (k : A -> H B) :
  stock_step m -> (forall a, stock_step (k a)) -> stock_step (bind m k).
Proof.
  intros Hm Hk db. apply wp_bind. eapply wp_mono; [apply Hm| |auto].
  intros a db1 H1. eapply wp_mono; [apply Hk| |]; intros ? ? H2; by transitivity db1.
Qed.

Lemma stock_step_for_each {A} (l : list A) (body : A -> H unit) :
  (forall x, stock_step (body x)) -> stock_step (for_each l body).
Proof.
  intros Hb. induction l as [|x l IH]; [intros db; apply wp_ret; reflexivity|].
  apply stock_step_bind; auto.
Qed.

Lemma stock_step_attempt {A} (m : H A) : stock_step m -> stock_step (attempt m).
Proof. intros Hm db. apply wp_attempt. apply Hm. Qed.

Lemma listing_can_available s : listing_can s LAvailable = true.
Proof. by destruct s. Qed.

Create HintDb stock.

Ltac stock_run := repeat wp_step; cbn beta; try reflexivity.
Ltac stock_leaf := repeat intro; stock_run.

Lemma stock_release_line held now line : stock_step (release_line held now line).
Proof.
  intros db. unfold release_line, fetch_listing_for_update.
  do 4 wp_step; [reflexivity|]. wp_step.
  apply wp_debug_assert; [apply listing_can_available|].
  stock_run.
Qed.

Lemma stock_release_lines order held now : stock_step (release_lines order held now).
Proof. apply stock_step_for_each. intros. apply stock_release_line. Qed.

Lemma stock_credit_drop_release drop buyer units now :
  stock_step (credit_drop_release drop buyer units now).
Proof. unfold credit_drop_release, fetch_drop_for_update. stock_leaf. Qed.

Lemma stock_credit_order_drop order now : stock_step (credit_order_drop order now).
Proof.
  unfold credit_order_drop. destruct (o_drop_aggregate_id order); [|stock_leaf].
  apply stock_step_bind; [apply stock_credit_drop_release|]. stock_leaf.
Qed.

#[export] Hint Resolve stock_release_lines stock_credit_order_drop : stock.

Lemma stock_tolerate_legacy order m : stock_step m -> stock_step (tolerate_legacy order m).
Proof.
  intros Hm. apply stock_step_bind; [by apply stock_step_attempt|]. stock_leaf.
Qed.

Lemma stock_release_reserved_hold order now :
  is_Some (o_auction_aggregate_id order) -> stock_step (release_reserved_hold order now).
Proof.
  intros [a Ha]. unfold release_reserved_hold. rewrite Ha.
  apply stock_step_bind; [unfold flip_winning_reservation; stock_leaf|].
  intros n. destruct (n =? 0); [stock_leaf|auto with stock].
Qed.

Lemma stock_release_unpaid order now : stock_step (release_unpaid order now).
Proof.
  unfold release_unpaid. destruct (bool_decide _) eqn:Ha.
  - apply stock_release_reserved_hold. by apply bool_decide_eq_true in Ha.
  - destruct (o_stock_held order); [|stock_leaf].
    apply stock_step_bind; intros; apply stock_tolerate_legacy; auto with stock.
Qed.

Lemma stock_release_sold order now : stock_step (release_sold order now).
Proof. apply stock_step_bind; auto with stock. Qed.

#[export] Hint Resolve stock_release_unpaid stock_release_sold : stock.

(** ** The step an accepted order action makes *)

(** The return document follows the order state. *)
Definition return_in (o : OrderRow) (s : ReturnState) : Prop :=
  exists r, o_return_request o = Some r /\ rr_state r = s.

Definition order_wf (o : OrderRow) : Prop :=
  (o_state o = OReturnRequested -> return_in o RtRequested) /\
  (o_state o = OReturnApproved -> return_in o RtApproved).

(** The first line names a listing of the order's seller: a review can be
    attested. *)
Definition attestable (o : OrderRow) : Prop :=
  exists line rest listing_id, o_lines o = line :: rest /\
    ln_listing_aggregate_id line = listing_aggregate_id (o_seller_pubky o) listing_id.

(** Rows sit under their id and are well formed. *)
Definition orders_wf (db : Db) : Prop :=
  forall id o, orders db !! id = Some o -> o_id o = id /\ order_wf o /\ attestable o.

(** What the handlers never change on an order row. *)
Definition same_deal (o o' : OrderRow) : Prop :=
  o_id o' = o_id o /\ o_buyer_pubky o' = o_buyer_pubky o /\ o_seller_pubky o' = o_seller_pubky o /\
  o_lines o' = o_lines o /\ o_total_minor o' = o_total_minor o /\
  o_auction_aggregate_id o' = o_auction_aggregate_id o /\
  o_drop_aggregate_id o' = o_drop_aggregate_id o /\
  o_payment_id o' = o_payment_id o /\ o_receipt_id o' = o_receipt_id o /\
  o_edition o' = o_edition o.

(** The commands that may leave the order in its state: a changed delivery
    email, one of two manual channels marked, a review of a settled order. *)
Definition keeps_state (k : string) : bool :=
  existsb (String.eqb k)
    ["order.set_delivery_email"; "fulfillment.deliver_digital"; "review.create"; "review.update"].

(** State and hold are as before. *)
Definition stays (o o' : OrderRow) : Prop :=
  o_state o' = o_state o /\ o_stock_held o' = o_stock_held o /\
  o_hold_expires_at o' = o_hold_expires_at o.

(** The row moves along a transition declared for command [k]. *)
Record row_step (k : string) (o o' : OrderRow) : Prop := mkRowStep {
  step_deal : same_deal o o';
  step_revision : o_revision o' = o_revision o + 1;
  step_declared :
    Machines.declared Machines.order_machine (order_state_str (o_state o))
      (order_state_str (o_state o')) (Machines.Command k) = true \/
    (keeps_state k = true /\ stays o o');
  step_wf : order_wf o -> order_wf o';
  step_held : o_stock_held o' = true -> o_stock_held o = true;
}.

(** The identity of a payment row; no statement rewrites it. *)
Definition payment_key (p : PaymentRow) : Uuid * Uuid := (p_id p, p_order_id p).

Lemma payment_key_put (m : gmap Uuid PaymentRow) k v v' :
  m !! k = Some v -> payment_key v' = payment_key v ->
  payment_key <$> <[k := v']> m = payment_key <$> m.
Proof. intros Hk He. rewrite fmap_insert, He. apply insert_id. by rewrite lookup_fmap, Hk. Qed.

(** No unit moved: listings, reservations and the drop ledger are the same,
    and payments keep their identity. *)
Record stock_same (db db' : Db) : Prop := mkStockSame {
  ss_listings : listings db' = listings db;
  ss_reservations : reservations db' = reservations db;
  ss_drops : drops db' = drops db;
  ss_purchases : drop_purchases db' = drop_purchases db;
  ss_payments : payment_key <$> payments db' = payment_key <$> payments db;
  ss_offers : offers db' = offers db;
}.

#[export] Instance stock_same_preorder : PreOrder stock_same.
Proof. split; [by split|]. intros ? ? ? [] []. split; congruence. Qed.

Section Steps.
Context `{!UuidCrate}.

(** The whole effect of an accepted order action on orders and events: one
    participant, at the revision they saw, moves one order; the last event
    appended is the order's, at its new revision. *)
Record order_step (actor : string) (command : Command) (id : Uuid) (db db' : Db) : Prop :=
  mkOrderStep {
  os_row : exists o o',
    orders db !! id = Some o /\ orders db' !! id = Some o' /\
    row_step (kind (c_payload command)) o o' /\
    (actor = o_buyer_pubky o \/ actor = o_seller_pubky o) /\
    c_aggregate_id command = order_aggregate_id id /\
    c_expected_revision command = o_revision o /\
    exists pre e, events db' = events db ++ pre ++ [e] /\
      e_aggregate_id e = order_aggregate_id id /\ e_revision e = o_revision o' /\
      e_actor_pubky e = actor /\ e_command_id e = c_command_id command;
  os_others : forall k, k <> id -> orders db' !! k = orders db !! k;
}.

Lemma guard_order_action_None actor command o :
  guard_order_action actor command o = None ->
  (actor = o_buyer_pubky o \/ actor = o_seller_pubky o) /\
  c_aggregate_id command = order_aggregate_id (o_id o) /\
  c_expected_revision command = o_revision o.
Proof.
  unfold guard_order_action.
  destruct (actor =? o_buyer_pubky o)%string eqn:E1, (actor =? o_seller_pubky o)%string eqn:E2;
    cbn; try discriminate;
    destruct (c_aggregate_id command =? _)%string eqn:E3; try discriminate;
    destruct (c_expected_revision command =? _) eqn:E4; try discriminate;
    reflect_bools; intros _; auto.
Qed.

(** The order's row and the event of the command are what counts. *)
Lemma order_step_intro actor command o o' dby ek now db dbx pre db' :
  orders db !! o_id o = Some o ->
  guard_order_action actor command o = None ->
  row_step (kind (c_payload command)) o o' ->
  orders dbx !! o_id o = Some o' ->
  (forall k, k <> o_id o -> orders dbx !! k = orders db !! k) ->
  events dbx = events db ++ pre ->
  let e := event_of dby (c_command_id command) (order_aggregate_id (o_id o')) (o_revision o')
             actor ek now in
  orders db' = orders dbx -> events db' = events dbx ++ [e] ->
  order_step actor command (o_id o) db db'.
Proof.
  intros Ho Hg Hrow Ho' Hoth Hev e Eo Ee.
  destruct (guard_order_action_None _ _ _ Hg) as (? & ? & ?).
  split; [|by rewrite Eo]. exists o, o'. rewrite Eo. do 6 (split; [done|]).
  exists pre, e. split; [by rewrite Ee, Hev, app_assoc|].
  cbn. destruct Hrow as [(-> & _) _ _ _ _]. auto.
Qed.

(** The common shape: one [UPDATE], a step that leaves orders and events
    alone, the shared tail. *)
Lemma wp_order_tail_mid actor command o f (mid : OrderRow -> H unit) ek nt recipient now db :
  orders db !! o_id o = Some o ->
  guard_order_action actor command o = None ->
  row_step (kind (c_payload command)) o (f (o <| o_revision := o_revision o + 1 |>)) ->
  (forall o' dbx, wp (mid o') (fun _ dby => orders dby = orders dbx /\ events dby = events dbx /\
                      stock_same dbx dby) any_refusal dbx) ->
  forall dbx, orders dbx = orders db -> (exists pre, events dbx = events db ++ pre) ->
  wp (let* updated := bump_order o f in
      do* mid updated in
      finish_order_action actor command updated ek nt (recipient updated) now)
    (fun _ db' => order_step actor command (o_id o) db db' /\ stock_same dbx db') any_refusal dbx.
Proof.
  intros Ho Hg Hrow Hmid dbx Hox [pre Hpre]. apply wp_bind.
  eapply wp_bump_order; [rewrite Hox; exact Ho|reflexivity|]. intros o' _.
  apply wp_bind. eapply wp_mono; [apply Hmid| |done]. intros [] dby (Hoy & Hey & Hsame).
  apply wp_finish_order_action. intros e _. split; [|by destruct Hsame].
  eapply order_step_intro;
    [exact Ho|exact Hg|exact Hrow| | |rewrite Hey; exact Hpre|reflexivity|reflexivity];
    rewrite Hoy.
  - exact (lookup_insert_eq _ _ _).
  - intros k Hk. rewrite <- Hox. exact (lookup_insert_ne _ _ _ _ (not_eq_sym Hk)).
Qed.

Lemma wp_order_tail actor command o f ek nt recipient now db :
  orders db !! o_id o = Some o ->
  guard_order_action actor command o = None ->
  row_step (kind (c_payload command)) o (f (o <| o_revision := o_revision o + 1 |>)) ->
  forall dbx, orders dbx = orders db -> (exists pre, events dbx = events db ++ pre) ->
  wp (let* updated := bump_order o f in
      finish_order_action actor command updated ek nt (recipient updated) now)
    (fun _ db' => order_step actor command (o_id o) db db' /\ stock_same dbx db') any_refusal dbx.
Proof.
  intros Ho Hg Hrow. apply (wp_order_tail_mid _ _ _ _ (fun _ => ret tt)); [done..|].
  intros. by apply wp_ret.
Qed.

(** Row steps: the transition is decided by computation. *)
Ltac solve_row_step Hp Es :=
  rewrite Hp; split;
  [repeat split|reflexivity|left; rewrite Es; vm_compute; reflexivity| |try done];
  intros _; split; intros Hs; try discriminate Hs; eexists; split; reflexivity.

(** Apply the tail rule in a state with the same orders and events. *)
Ltac order_tail Ho Hg :=
  eapply wp_mono;
  [eapply (wp_order_tail _ _ _ _ _ _ _ _ _ Ho Hg);
     [|reflexivity|by exists []; rewrite app_nil_r]
  |intros ? ? [Hpost Hsame]; split; [exact Hpost|by destruct Hsame]|done].

Ltac order_assert :=
  apply wp_bind, wp_assert_order_transition; [vm_compute; reflexivity|].

Ltac order_assert_at :=
  apply wp_bind, wp_assert_order_transition;
  [match goal with Hs : o_state _ = _ |- _ => rewrite Hs end; vm_compute; reflexivity|].

(** Start of an order action: the row is the one under its id. *)
Ltac order_load Hwf o Ho Hg Hw :=
  apply wp_bind, wp_load_order_action; intros o Ho Hg;
  let Hid := fresh "Hid" in
  destruct (Hwf _ _ Ho) as (Hid & Hw & _); rewrite <- Hid in Ho |- *; clear Hid.

Context (actor : string) (command : Command) (now : Time) (db : Db) (Hwf : orders_wf db).

Lemma wp_ship payload :
  c_payload command = ShipOrder payload ->
  wp (ship actor command payload now)
    (fun _ db' => order_step actor command (so_order_id payload) db db' /\ stock_same db db')
    any_refusal db.
Proof.
  intros Hp. unfold ship. order_load Hwf o Ho Hg Hw. do 8 wp_step.
  destruct (o_state o) eqn:Es; try discriminate; order_assert; order_tail Ho Hg;
    solve_row_step Hp Es.
Qed.

Lemma wp_confirm_delivery payload :
  c_payload command = ConfirmDelivery payload ->
  wp (confirm_delivery actor command payload now)
    (fun _ db' => order_step actor command (ac_order_id payload) db db' /\ stock_same db db')
    any_refusal db.
Proof.
  intros Hp. unfold confirm_delivery. order_load Hwf o Ho Hg Hw. do 8 wp_step.
  destruct (o_state o) eqn:Es; try discriminate. order_assert. order_tail Ho Hg.
  solve_row_step Hp Es.
Qed.

Lemma wp_mark_ready payload :
  c_payload command = MarkReadyForPickup payload ->
  wp (mark_ready actor command payload now)
    (fun _ db' => order_step actor command (ac_order_id payload) db db' /\ stock_same db db')
    any_refusal db.
Proof.
  intros Hp. unfold mark_ready. order_load Hwf o Ho Hg Hw. do 2 wp_step.
  apply wp_bind, wp_guard. intros _. do 2 wp_step.
  destruct (o_state o) eqn:Es; try discriminate. order_assert. order_tail Ho Hg.
  solve_row_step Hp Es.
Qed.

Lemma wp_confirm_pickup payload :
  c_payload command = ConfirmPickup payload ->
  wp (confirm_pickup actor command payload now)
    (fun _ db' => order_step actor command (ac_order_id payload) db db' /\ stock_same db db')
    any_refusal db.
Proof.
  intros Hp. unfold confirm_pickup. order_load Hwf o Ho Hg Hw.
  apply wp_bind, wp_guard. intros _. do 3 wp_step.
  eapply wp_mono with (R' := any_refusal) (Q' := fun _ => eq db);
    [by repeat wp_step| |done].
  intros changed ? <-. do 2 wp_step.
  destruct (o_state o) eqn:Es; try discriminate; order_assert;
    unfold record_handover; do 2 wp_step; order_tail Ho Hg; solve_row_step Hp Es.
Qed.

Lemma wp_return_request payload :
  c_payload command = RequestReturn payload ->
  wp (Fulfillment.request actor command payload now)
    (fun _ db' => order_step actor command (rq_order_id payload) db db' /\ stock_same db db')
    any_refusal db.
Proof.
  intros Hp. unfold Fulfillment.request. order_load Hwf o Ho Hg Hw. do 6 wp_step. reflect_bools.
  destruct (o_state o) eqn:Es; try discriminate; order_assert; order_tail Ho Hg;
    solve_row_step Hp Es.
Qed.

(** The two seller-driven return steps. *)
Definition return_step (step : ReturnStep) (k : string) (before : ReturnState) : Prop :=
  Machines.declared Machines.order_machine (order_state_str (rst_from_order_state step))
    (order_state_str (rst_to_order_state step)) (Machines.Command k) = true /\
  Machines.can_transition Machines.order_machine (order_state_str (rst_from_order_state step))
    (order_state_str (rst_to_order_state step)) = true /\
  Machines.can_transition Machines.return_machine (return_state_str before)
    (return_state_str (rst_to_return_state step)) = true /\
  (rst_to_order_state step = OReturnRequested -> rst_to_return_state step = RtRequested) /\
  (rst_to_order_state step = OReturnApproved -> rst_to_return_state step = RtApproved).

Lemma wp_advance_return payload step before :
  return_step step (kind (c_payload command)) before ->
  (forall o, order_wf o -> o_state o = rst_from_order_state step -> return_in o before) ->
  wp (advance_return actor command payload step now)
    (fun _ db' => order_step actor command (ac_order_id payload) db db' /\ stock_same db db')
    any_refusal db.
Proof.
  intros (Hd & Hc & Hr & Hq & Ha) Hin. unfold advance_return. order_load Hwf o Ho Hg Hw.
  do 4 wp_step. destruct (bool_decide _) eqn:Es; [|discriminate]. reflect_bools.
  destruct (Hin o Hw Es) as (r & Hr1 & <-). simplify_eq. rewrite Es.
  apply wp_bind, wp_assert_order_transition; [exact Hc|].
  apply wp_bind, wp_debug_assert; [exact Hr|]. order_tail Ho Hg.
  split; [repeat split|reflexivity|left; by rewrite Es| |done].
  intros _. split; intros Hs; eexists; (split; [reflexivity|auto]).
Qed.

Lemma wp_return_approve payload :
  c_payload command = ApproveReturn payload ->
  wp (Fulfillment.approve actor command payload now)
    (fun _ db' => order_step actor command (ac_order_id payload) db db' /\ stock_same db db')
    any_refusal db.
Proof.
  intros Hp. apply (wp_advance_return _ _ RtRequested); [rewrite Hp; by repeat split|].
  intros o [Hw _]. exact Hw.
Qed.

Lemma wp_return_receive payload :
  c_payload command = ReceiveReturn payload ->
  wp (Fulfillment.receive actor command payload now)
    (fun _ db' => order_step actor command (ac_order_id payload) db db' /\ stock_same db db')
    any_refusal db.
Proof.
  intros Hp. apply (wp_advance_return _ _ RtApproved); [rewrite Hp; by repeat split|].
  intros o [_ Hw]. exact Hw.
Qed.

Lemma wp_record_external_refund payload attestor :
  c_payload command = RecordExternalRefund payload ->
  wp (record_external_refund actor command payload attestor now)
    (fun _ db' => order_step actor command (rf_order_id payload) db db' /\ stock_same db db')
    any_refusal db.
Proof.
  intros Hp. unfold record_external_refund. order_load Hwf o Ho Hg Hw. do 6 wp_step.
  unfold refundable_state in *. reflect_bools.
  destruct (o_state o) eqn:Es; try discriminate; order_assert;
    (eapply (wp_order_tail_mid _ _ _ _ (fun o' =>
       match attestor with
       | Some order_ref => insert_annotation order_ref (o_id o') "refunded" now
       | None => ret tt
       end) _ _ _ _ _ Ho Hg); [| |reflexivity|by exists []; rewrite app_nil_r]);
    try (solve_row_step Hp Es); intros o' dbx; destruct attestor; by repeat wp_step.
Qed.

(** The row after the Paykit leg of a cancel: at most its activation ended. *)
Definition voided (o : OrderRow) : OrderRow :=
  o <| o_paykit_activation_state := Some "voided" |> <| o_paykit_request_state := None |>
    <| o_updated_at := now |>.

Definition paykit_leg (id : Uuid) (o : OrderRow) (dbx dby : Db) : Prop :=
  (orders dby = orders dbx \/ orders dby = <[id := voided o]> (orders dbx)) /\
  stock_same dbx dby /\ exists pre, events dby = events dbx ++ pre.

Lemma paykit_leg_refl id o dbx : paykit_leg id o dbx dbx.
Proof. split; [by left|]. split; [done|]. exists []. by rewrite app_nil_r. Qed.

Lemma wp_void_preparing_request o dbx :
  orders dbx !! o_id o = Some o ->
  wp (void_preparing_request (o_id o) now) (fun _ => paykit_leg (o_id o) o dbx) any_refusal dbx.
Proof.
  intros Ho. unfold void_preparing_request, record_released_attempt.
  repeat wp_step; try (rewrite Ho in *; simplify_eq).
  all: split; [|split; [done|exists []; rewrite app_nil_r; reflexivity]]; (by left) || (by right).
Qed.

Lemma wp_end_paykit_request o payment dbx :
  orders dbx !! o_id o = Some o ->
  wp (end_paykit_request o payment actor (c_command_id command) now)
    (fun _ => paykit_leg (o_id o) o dbx) any_refusal dbx.
Proof.
  intros Ho. unfold end_paykit_request. wp_step; [wp_step; apply paykit_leg_refl|].
  apply wp_bind.
  eapply wp_mono with (R' := any_refusal) (Q' := fun _ dby => orders dby = orders dbx /\
    stock_same dbx dby /\ exists pre, events dby = events dbx ++ pre); [| |done].
  { wp_step; [|wp_step; do 2 (split; [done|]); exists []; by rewrite app_nil_r].
    do 3 wp_step. apply wp_insert_event. intros e _ _. wp_step. split; [done|].
    split; [|by exists [e]]. split; try done. by eapply payment_key_put. }
  intros [] dby (Hoy & Hsy & pre & Hey).
  assert (paykit_leg (o_id o) o dbx dby) as Hleg
    by (split; [by left|split; [done|by exists pre]]).
  wp_step; [by wp_step|]. repeat wp_step; try done.
  eapply wp_mono; [apply wp_void_preparing_request; by rewrite Hoy| |done].
  intros [] dbz (Hoz & Hsz & pre' & Hez). wp_step. split; [by rewrite Hoy in Hoz|].
  split; [by etransitivity|].
  exists (pre ++ pre'). by rewrite Hez, Hey, app_assoc.
Qed.

(** The row a cancel request leaves, whatever the Paykit leg did. *)
Lemma cancel_row_step to_state reason o :
  Machines.declared Machines.order_machine (order_state_str (o_state o))
    (order_state_str to_state) (Machines.Command "order.cancel_request") = true ->
  to_state = OCancelled \/ to_state = OCancelRequested ->
  forall o1, o1 = o \/ o1 = voided o ->
  row_step "order.cancel_request" o
    (cancel_row to_state reason now (o1 <| o_revision := o_revision o1 + 1 |>)).
Proof.
  intros Hd Hto o1 Ho1.
  split; destruct Ho1 as [-> | ->]; try done; try (by left); try by repeat split.
  all: intros _; split; intros Hs; destruct Hto as [-> | ->]; discriminate Hs.
Qed.

(** From [dbx] on, one order row was replaced by one that holds nothing. *)
Definition row_cleared (id : Uuid) (dbx db' : Db) : Prop :=
  stock_same dbx db' /\
  exists o', orders db' = <[id := o']> (orders dbx) /\ o_stock_held o' = false /\
    forall o, orders dbx !! id = Some o -> same_deal o o'.

Lemma wp_cancel_request_tail o payment to_state reason ek immediate dbx :
  orders db !! o_id o = Some o ->
  guard_order_action actor command o = None ->
  kind (c_payload command) = "order.cancel_request" ->
  Machines.declared Machines.order_machine (order_state_str (o_state o))
    (order_state_str to_state) (Machines.Command "order.cancel_request") = true ->
  to_state = OCancelled \/ to_state = OCancelRequested ->
  stock_only db dbx ->
  wp (let* paykit_void :=
        match payment with
        | Some payment =>
            if (immediate : bool)
            then end_paykit_request o payment actor (c_command_id command) now else ret None
        | None => ret None
        end in
      let* updated := bump_order o (cancel_row to_state reason now) in
      let* success := finish_order_action actor command updated ek
                        "order_cancelled" (o_seller_pubky updated) now in
      do* enqueue_void_of paykit_void (o_id o) success now in
      ret success)
    (fun _ db' => order_step actor command (o_id o) db db' /\ row_cleared (o_id o) dbx db')
    any_refusal dbx.
Proof.
  intros Ho Hg Hk Hd Hto Hx. pose proof (stock_only_orders _ _ Hx) as Hox.
  apply wp_bind. eapply wp_mono with (Q' := fun _ => paykit_leg (o_id o) o dbx)
    (R' := any_refusal); [| |done].
  { destruct payment; [destruct immediate|]; [|by apply wp_ret, paykit_leg_refl..].
    apply wp_end_paykit_request. by rewrite Hox. }
  intros pin dby (Hoy & Hsy & pre & Hey). apply wp_bind.
  assert (exists o1, orders dby !! o_id o = Some o1 /\ (o1 = o \/ o1 = voided o)) as (o1 & Ho1 & Hv).
  { destruct Hoy as [-> | ->]; rewrite Hox; [by eauto|].
    exists (voided o). rewrite lookup_insert_eq. auto. }
  eapply wp_bump_order; [exact Ho1|by destruct Hv as [-> | ->]|]. intros o' _.
  apply wp_bind, wp_finish_order_action. intros e _.
  assert (Hstep : order_step actor command (o_id o) db
    (finished (upd orders (<[o_id o := o']>) dby) e "order_cancelled"
       (NotificationIntent (o_seller_pubky o') actor (order_aggregate_id (o_id o')) None) now)).
  { eapply (order_step_intro _ _ o o' _ _ _ _ (upd orders (<[o_id o := o']>) dby));
      [exact Ho|exact Hg|rewrite Hk; by apply cancel_row_step| | | |reflexivity|reflexivity].
    - exact (lookup_insert_eq _ _ _).
    - intros k Hk'. etransitivity; [exact (lookup_insert_ne _ _ _ _ (not_eq_sym Hk'))|].
      rewrite <- Hox. destruct Hoy as [-> | ->]; [done|by rewrite lookup_insert_ne].
    - rewrite <- (stock_only_events _ _ Hx). exact Hey. }
  assert (Hclear : row_cleared (o_id o) dbx (upd orders (<[o_id o := o']>) dby)).
  { split; [by destruct Hsy|]. exists o'. split; [|split; [done|]].
    - change (<[o_id o:=o']> (orders dby) = <[o_id o:=o']> (orders dbx)).
      destruct Hoy as [-> | ->]; [done|by rewrite insert_insert_eq].
    - intros x Hx'. rewrite Hox, Ho in Hx'. injection Hx' as <-.
      by destruct Hv as [-> | ->]; repeat split. }
  apply wp_bind. destruct pin; repeat wp_step; 
    (split; [split; apply Hstep|destruct Hclear as [[] Hrow]; split; [by split|exact Hrow]]).
Qed.

Lemma guard_cancel_states o :
  guard_cancel_request actor o = None ->
  o_state o = OPendingPayment \/ o_state o = OPaid \/ o_state o = OProcessing \/
  o_state o = OReadyForPickup.
Proof. unfold guard_cancel_request. destruct (o_state o); repeat case_match; auto; done. Qed.

(** [X] and [Y] carry what the releases of the caller's concern establish. *)
Lemma wp_cancel_request_with (X Y : OrderRow -> Db -> Prop) payload :
  c_payload command = RequestCancellation payload ->
  (forall o, orders db !! o_id o = Some o ->
     wp (release_unpaid o now) (fun _ => X o) any_refusal db) ->
  (forall o, orders db !! o_id o = Some o -> wp (release_sold o now) (fun _ => Y o) any_refusal db) ->
  wp (Cancellation.request actor command payload now)
    (fun _ db' => order_step actor command (rcn_order_id payload) db db' /\
       exists o dbx, orders db !! rcn_order_id payload = Some o /\
         row_cleared (rcn_order_id payload) dbx db' /\
         orders dbx = orders db /\ payments dbx = payments db /\ offers dbx = offers db /\
         (X o dbx \/ o_state o <> OPendingPayment /\ (Y o dbx \/ dbx = db)))
    any_refusal db.
Proof.
  intros Hp HX HY. unfold Cancellation.request. apply wp_bind, wp_gets.
  order_load Hwf o Ho Hg Hw. apply wp_bind, wp_guard. intros Hgc.
  apply wp_bind. eapply wp_mono with (Q' := fun u dby => dby = db /\
    (u = true -> o_state o = OPaid \/ o_state o = OReadyForPickup)) (R' := any_refusal);
    [| |done].
  { unfold unilateral_exit. repeat wp_step; (split; [done|]); [|done].
    intros _. reflect_bools. destruct (o_state o); try discriminate; auto. }
  intros u ? [-> Hu].
  destruct (bool_decide (o_state o = OPendingPayment)) eqn:Ei; cbn [cancel_target].
  - reflect_bools. order_assert_at. apply wp_bind.
    eapply wp_mono; [apply (wp_and _ _ _ _ _ _ (stock_release_unpaid o now db) (HX o Ho))| |done].
    intros [] dbx [Hx HXo].
    eapply wp_mono; [eapply (wp_cancel_request_tail o _ OCancelled _ _ true)| |done]; try done;
      [by rewrite Hp|by rewrite Ei|by left|].
    intros ? db' [Hs Hc]. split; [done|]. exists o, dbx. eauto 12 using stock_only_orders, stock_only_payments, stock_only_offers.
  - reflect_bools. destruct u.
    + destruct (Hu eq_refl) as [Hs|Hs]; order_assert_at; apply wp_bind;
        (eapply wp_mono; [apply (wp_and _ _ _ _ _ _ (stock_release_sold o now db) (HY o Ho))| |done]);
        intros [] dbx [Hx HYo];
        (eapply wp_mono; [eapply (wp_cancel_request_tail o _ OCancelled _ _ false)| |done]; try done;
         rewrite ?Hp, ?Hs; auto);
        intros ? db' [Hst Hc]; (split; [done|]); exists o, dbx; eauto 12 using stock_only_orders, stock_only_payments, stock_only_offers.
    + destruct (guard_cancel_states o Hgc) as [Hs|[Hs|[Hs|Hs]]]; [done|..];
        order_assert_at; wp_step; wp_step;
        (eapply wp_mono; [eapply (wp_cancel_request_tail o _ OCancelRequested _ _ false)| |done];
         try done; rewrite ?Hp, ?Hs; auto; try reflexivity);
        intros ? db' [Hst Hc]; (split; [done|]); exists o, db; eauto 10.
Qed.

Lemma wp_cancel_request payload :
  c_payload command = RequestCancellation payload ->
  wp (Cancellation.request actor command payload now)
    (fun _ => order_step actor command (rcn_order_id payload) db) any_refusal db.
Proof.
  intros Hp. eapply wp_mono;
    [apply (wp_cancel_request_with (fun _ _ => True) (fun _ _ => True) payload Hp)|by intros ? ? [? _]|done];
    intros o _; (eapply wp_mono; [apply stock_release_unpaid || apply stock_release_sold|done|done]).
Qed.

(** The approval, with what the release establishes. *)
Lemma wp_cancel_approve_with (Y : Db -> Prop) payload :
  c_payload command = ApproveCancellation payload ->
  (forall o o', orders db !! o_id o = Some o -> (forall x, In x (o_lines o') -> In x (o_lines o)) ->
     wp (release_sold o' now) (fun _ => Y) any_refusal db) ->
  wp (Cancellation.approve actor command payload now)
    (fun _ db' => order_step actor command (ac_order_id payload) db db' /\
       exists dbx, Y dbx /\ stock_same dbx db' /\ orders dbx = orders db /\
         payments dbx = payments db /\ offers dbx = offers db) any_refusal db.
Proof.
  intros Hp HY. unfold Cancellation.approve. order_load Hwf o Ho Hg Hw. do 4 wp_step. reflect_bools.
  order_assert_at.
  apply wp_bind. eapply wp_mono with (R' := any_refusal) (Q' := fun o' db' => db' = db /\
    (forall x, In x (o_lines o') -> In x (o_lines o))); [| |done].
  { unfold releasable_lines. repeat wp_step; (split; [done|]); [done|].
    intros x Hx. apply in_map_iff in Hx as ([i y] & <- & Hy). apply filter_In in Hy as [Hy _].
    apply list_elem_of_In, elem_of_lookup_imap in Hy as (j & z & [= -> ->] & Hz).
    by eapply list_elem_of_In, list_elem_of_lookup_2. }
  intros releasable ? [-> Hsub]. apply wp_bind.
  eapply wp_mono; [apply (wp_and _ _ _ _ _ _ (stock_release_sold releasable now db)
                            (HY o releasable Ho Hsub))| |done].
  intros [] dbx [Hx HYx].
  eapply wp_mono; [eapply (wp_order_tail _ _ _ _ _ _ _ _ _ Ho Hg)| |done].
  - solve_row_step Hp H1.
  - by apply stock_only_orders.
  - exists []. rewrite app_nil_r. by apply stock_only_events.
  - intros ? db' [Hs Hsame]. split; [done|]. exists dbx. eauto 8 using stock_only_orders, stock_only_payments, stock_only_offers.
Qed.

Lemma wp_cancel_approve payload :
  c_payload command = ApproveCancellation payload ->
  wp (Cancellation.approve actor command payload now)
    (fun _ => order_step actor command (ac_order_id payload) db) any_refusal db.
Proof.
  intros Hp. eapply wp_mono;
    [apply (wp_cancel_approve_with (fun _ => True) payload Hp)|by intros ? ? [? _]|done].
  intros o o' _ _. eapply wp_mono; [apply stock_release_sold|done|done].
Qed.

(** ** Manual digital delivery and reviews *)

(** The writes before the order's [UPDATE] leave these tables alone. *)
Record aside (dbx dby : Db) : Prop := mkAside {
  as_orders : orders dby = orders dbx;
  as_events : events dby = events dbx;
  as_stock : stock_same dbx dby;
}.

(** The step after the order's [UPDATE]: the event is appended last. *)
Lemma order_step_aside o o' dbx dby dbe ek db' :
  orders db !! o_id o = Some o -> guard_order_action actor command o = None ->
  row_step (kind (c_payload command)) o o' -> aside db dbx ->
  dby = upd orders (<[o_id o := o']>) dbx ->
  orders db' = orders dby ->
  events db' = events dby ++ [event_of dbe (c_command_id command)
    (order_aggregate_id (o_id o')) (o_revision o') actor ek now] ->
  stock_same dby db' ->
  order_step actor command (o_id o) db db' /\ stock_same db db'.
Proof.
  intros Ho Hg Hrow [Eo Ee Hs] -> Eo' Ee' Hs'. split.
  - eapply (order_step_intro _ _ o o' dbe ek now db (upd orders (<[o_id o := o']>) dbx) []);
      [exact Ho|exact Hg|exact Hrow| | | |exact Eo'|exact Ee'].
    + exact (lookup_insert_eq _ _ _).
    + intros k Hk. rewrite <- Eo. exact (lookup_insert_ne _ _ _ _ (not_eq_sym Hk)).
    + rewrite app_nil_r. exact Ee.
  - destruct Hs, Hs'. split; simpl in *; congruence.
Qed.

(** A row kept in its state. *)
Ltac stay_row_step Hp :=
  rewrite Hp; split; [repeat split|reflexivity|right; by repeat split|done|done].

Lemma wp_set_delivery_email payload keys :
  c_payload command = SetDeliveryEmail payload ->
  wp (set_delivery_email actor command payload keys now)
    (fun _ db' => order_step actor command (se_order_id payload) db db' /\ stock_same db db')
    any_refusal db.
Proof.
  intros Hp. unfold set_delivery_email. do 2 wp_step. order_load Hwf o Ho Hg Hw.
  unfold email_row, store_delivery_email. do 16 wp_step. wp_step.
  eapply wp_bump_order; [exact Ho|reflexivity|]. intros o' _.
  unfold order_action_success. apply wp_bind, wp_insert_event. intros e _ _.
  assert (Hrow : row_step (kind (c_payload command)) o o') by (stay_row_step Hp).
  apply wp_bind. destruct (bool_decide _); unfold insert_notification_intent, enqueue;
    repeat wp_step; unfold fetch_order_reviews; repeat wp_step;
    (eapply (order_step_aside o o');
       [exact Ho|exact Hg|exact Hrow| |reflexivity|reflexivity|reflexivity|]; by repeat split).
Qed.

Lemma wp_mark_channel o channel row marked dbx :
  wp (mark_channel o channel row marked now) (fun _ => aside dbx) any_refusal dbx.
Proof. unfold mark_channel. repeat wp_step; by repeat split. Qed.

(** Delivered once every manual channel is marked, in its state otherwise. *)
Lemma delivery_row_step o delivered channel :
  o_state o = OPaid ->
  row_step "fulfillment.deliver_digital" o
    (digital_delivery_row delivered channel now (o <| o_revision := o_revision o + 1 |>)).
Proof.
  intros Es. split; [by destruct delivered, channel; repeat split|done| | |done].
  - destruct delivered; [left; simpl; by rewrite Es|right; by repeat split].
  - intros _. split; simpl; rewrite Es; destruct delivered; intros [=].
Qed.

Lemma wp_deliver_digital payload :
  c_payload command = DeliverDigital payload ->
  wp (deliver_digital actor command payload now)
    (fun _ db' => order_step actor command (dd_order_id payload) db db' /\ stock_same db db')
    any_refusal db.
Proof.
  intros Hp. unfold deliver_digital, email_row. order_load Hwf o Ho Hg Hw. do 8 wp_step. wp_step.
  rename select (negb (bool_decide (o_state o = OPaid)) = false) into Es.
  apply negb_false_iff, bool_decide_eq_true in Es.
  eapply wp_mono; [apply wp_mark_channel| |done]. intros [] dbx Hx. wp_step.
  eapply wp_bump_order; [rewrite (as_orders _ _ Hx); exact Ho|reflexivity|]. intros o' _.
  assert (Hrow : row_step (kind (c_payload command)) o o') by (rewrite Hp; by apply delivery_row_step).
  clearbody o'. unfold order_action_success. apply wp_bind, wp_insert_event. intros e _ _.
  apply wp_bind. destruct (_ && _); unfold insert_notification_intent, enqueue;
    repeat wp_step; unfold fetch_order_reviews; repeat wp_step;
    (eapply (order_step_aside o o');
       [exact Ho|exact Hg|exact Hrow|exact Hx|reflexivity|reflexivity|reflexivity|]; by repeat split).
Qed.

(** The listing of an attestable order has its public URI. *)
Lemma wp_listing_uri o Q R dbx :
  attestable o -> (forall uri, Q uri dbx) -> wp (listing_uri_from_order o) Q R dbx.
Proof.
  intros (line & rest & lid & El & Eid) HQ. unfold listing_uri_from_order. rewrite El, Eid.
  unfold listing_aggregate_id.
  replace ("listing:" +:+ o_seller_pubky o +:+ "_" +:+ lid)
    with (("listing:" +:+ o_seller_pubky o +:+ "_") +:+ lid); [|by rewrite !app_assoc_str].
  rewrite strip_prefix_app. by apply wp_ret.
Qed.

Lemma wp_issue_attestation at' o reviewer subject role allows dbx :
  attestable o ->
  wp (issue_attestation at' o reviewer subject role allows now) (fun _ => aside dbx) any_refusal dbx.
Proof.
  intros Hat. unfold issue_attestation. apply wp_bind, wp_listing_uri; [done|]. intros uri.
  repeat wp_step; by repeat split.
Qed.

(** A valid rating fits its column. *)
Definition rating_ok (payload : ReviewTermsPayload) : Prop := 1 <= rv_rating payload <= 5.

Lemma reviewed_row_step o :
  reviewable (o_state o) = true ->
  row_step "review.create" o
    (o <| o_revision := o_revision o + 1 |>
       <| o_state := if bool_decide (o_state o = ODelivered) then OCompleted else o_state o |>
       <| o_updated_at := now |>).
Proof.
  intros Hr. split; [by repeat split|done| | |done].
  - simpl. unfold stays. simpl. destruct (o_state o); try discriminate; [by left|by right..].
  - intros _. split; simpl; destruct (o_state o); try discriminate.
Qed.

Lemma wp_review_create payload attestor :
  c_payload command = CreateReview payload -> rating_ok payload ->
  wp (Reviews.create actor command payload attestor now)
    (fun _ db' => order_step actor command (rv_order_id payload) db db' /\ stock_same db db')
    any_refusal db.
Proof.
  intros Hp Hrating. unfold Reviews.create, fetch_order. do 5 wp_step. rename a into o, H into Ho.
  apply wp_guard. intros Hg. destruct (Hwf _ _ Ho) as (Hid & Hw & Hat). rewrite <- Hid in Ho |- *.
  do 6 wp_step. apply wp_bind, wp_expect_i32; [unfold rating_ok in Hrating; lia|].
  do 2 wp_step. apply wp_bind.
  match goal with |- wp _ _ _ ?d => eapply wp_mono with (Q' := fun _ => aside d) (R' := any_refusal) end;
    [destruct attestor; [wp_step; eapply wp_mono; [by apply wp_issue_attestation| |done];
       intros ? ? Hx; by wp_step|by wp_step]| |done].
  intros att dbx Hx. rename select (negb (reviewable _) = false) into Hr.
  apply negb_false_iff in Hr.
  apply wp_bind, wp_assert_order_transition; [by destruct (o_state o)|].
  assert (Eo : orders dbx = orders db) by exact (as_orders _ _ Hx).
  do 2 wp_step; [|rename select (forall v, orders dbx !! _ = Some v -> _) into Hn;
    specialize (Hn o); rewrite Eo in Hn; specialize (Hn Ho); simpl in Hn; reflect_bools; lia].
  rename select (orders dbx !! _ = Some _) into Hv. rewrite Eo, Ho in Hv. injection Hv as <-.
  apply wp_bind, wp_insert_event. intros e _ _. unfold insert_notification_intent, enqueue.
  unfold review_result, fetch_order_reviews. repeat wp_step.
  eapply (order_step_aside o);
    [exact Ho|exact Hg|rewrite Hp; by apply reviewed_row_step|by destruct Hx as [? ? []]; split; [..|split]
    |reflexivity|reflexivity|reflexivity|by repeat split].
Qed.

Lemma wp_review_update payload :
  c_payload command = UpdateReview payload -> rating_ok payload ->
  wp (Reviews.update actor command payload now)
    (fun _ db' => order_step actor command (rv_order_id payload) db db' /\ stock_same db db')
    any_refusal db.
Proof.
  intros Hp Hrating. unfold Reviews.update. order_load Hwf o Ho Hg Hw.
  do 6 wp_step. apply wp_bind, wp_expect_i32; [unfold rating_ok in Hrating; lia|].
  do 2 wp_step. wp_step. eapply wp_bump_order; [exact Ho|reflexivity|]. intros o' _.
  assert (Hrow : row_step (kind (c_payload command)) o o') by (stay_row_step Hp).
  apply wp_bind, wp_insert_event. intros e _ _.
  unfold fetch_attestation_json, review_result, fetch_order_reviews. repeat wp_step.
  eapply (order_step_aside o o');
    [exact Ho|exact Hg|exact Hrow| |reflexivity|reflexivity|reflexivity|]; by repeat split.
Qed.
End Steps.

(** ** The contract of the fourteen order commands *)

(** The order a command acts on. *)
Definition order_target (payload : CommandPayload) : option Uuid :=
  match payload with
  | RequestCancellation p => Some (rcn_order_id p)
  | ApproveCancellation p => Some (ac_order_id p)
  | ShipOrder p => Some (so_order_id p)
  | ConfirmDelivery p => Some (ac_order_id p)
  | MarkReadyForPickup p => Some (ac_order_id p)
  | ConfirmPickup p => Some (ac_order_id p)
  | RequestReturn p => Some (rq_order_id p)
  | ApproveReturn p => Some (ac_order_id p)
  | ReceiveReturn p => Some (ac_order_id p)
  | RecordExternalRefund p => Some (rf_order_id p)
  | SetDeliveryEmail p => Some (se_order_id p)
  | DeliverDigital p => Some (dd_order_id p)
  | CreateReview p | UpdateReview p => Some (rv_order_id p)
  | _ => None
  end.

(** What validation guarantees of an order command. *)
Definition order_payload_ok (payload : CommandPayload) : Prop :=
  match payload with
  | CreateReview p | UpdateReview p => rating_ok p
  | _ => True
  end.

Section Contract.
Context `{!UuidCrate, !JsonText, !Base32Crate, LC : !LocksCrates}.

(** The twelve that never move stock. *)
Definition moves_no_stock (payload : CommandPayload) : bool :=
  match payload with
  | RequestCancellation _ | ApproveCancellation _ => false
  | _ => bool_decide (is_Some (order_target payload))
  end.

Lemma wp_plain_action state actor command prefetched now db id :
  orders_wf db -> order_payload_ok (c_payload command) ->
  order_target (c_payload command) = Some id ->
  moves_no_stock (c_payload command) = true ->
  wp (dispatch state actor command prefetched now)
    (fun _ db' => order_step actor command id db db' /\ stock_same db db') any_refusal db.
Proof.
  intros Hwf Hok Ht Hm. unfold dispatch.
  destruct (c_payload command) eqn:Hp; simplify_eq/=;
    eauto using wp_ship, wp_confirm_delivery, wp_mark_ready, wp_confirm_pickup,
      wp_return_request, wp_return_approve, wp_return_receive, wp_record_external_refund,
      wp_set_delivery_email, wp_deliver_digital, wp_review_create, wp_review_update.
Qed.

Lemma wp_order_action state actor command prefetched now db id :
  orders_wf db -> order_payload_ok (c_payload command) -> order_target (c_payload command) = Some id ->
  wp (dispatch state actor command prefetched now)
    (fun _ => order_step actor command id db) any_refusal db.
Proof.
  intros Hwf Hok Ht. destruct (moves_no_stock (c_payload command)) eqn:Hm.
  - eapply wp_mono; [by apply wp_plain_action|by intros ? ? [? _]|done].
  - unfold dispatch. destruct (c_payload command) eqn:Hp; simplify_eq/=;
      try discriminate; eauto using wp_cancel_request, wp_cancel_approve.
Qed.

Lemma order_step_wf actor command id db db' :
  orders_wf db -> order_step actor command id db db' -> orders_wf db'.
Proof.
  intros Hwf [(o & o' & Ho & Ho' & [Hd _ _ Hw _] & _) Hoth] k x Hx.
  destruct (decide (k = id)) as [->|Hne].
  - rewrite Ho' in Hx. injection Hx as <-. destruct (Hwf _ _ Ho) as (Hid & Hwo & Hat).
    destruct Hd as (-> & _ & Hs & Hl & _). unfold attestable. rewrite Hs, Hl. auto.
  - rewrite Hoth in Hx by done. by apply Hwf.
Qed.

(** C5. Every accepted order command (cancel request and approval, shipping,
    delivery, pickup readiness and handover, the three return steps, the
    external refund, the delivery email, the manual digital delivery and both
    review commands) was sent by a participant at the order's current
    revision, moves exactly that order along a transition the order machine
    declares for this very command (or, for the last four, leaves its state),
    raises its revision by one and appends the order event at the new
    revision; parties, lines, total, payment and receipt do not change, and no
    handler assertion can fail. *)
Theorem order_action_conforms state actor command prefetched now db id :
  orders_wf db -> order_payload_ok (c_payload command) -> order_target (c_payload command) = Some id ->
  (forall msg, dispatch state actor command prefetched now db <> Panicked msg) /\
  (forall success db', dispatch state actor command prefetched now db = Done success db' ->
     order_step actor command id db db' /\ orders_wf db').
Proof.
  intros Hwf Hok Ht. pose proof (wp_order_action state actor command prefetched now db id Hwf Hok Ht) as Hw.
  split; [intros msg; exact (wp_no_panic _ _ _ _ msg Hw)|].
  intros success db' E. pose proof (wp_Done _ _ _ _ _ _ Hw E) as Hs.
  split; [exact Hs|exact (order_step_wf _ _ _ _ _ Hwf Hs)].
Qed.
End Contract.

#[local] Existing Instance sample_crate.
#[local] Existing Instance sample_locks_crates.

Definition paid_order : OrderRow :=
  (sample_order 1 2 alice [sample_line "a" 1]) <| o_state := OPaid |>.
Definition ship_command : Command :=
  sample_command 77 (order_aggregate_id 1) 1 (ShipOrder (mkShipOrder 1 "DHL" "T1")).

Lemma orders_wf_singleton o :
  order_wf o -> attestable o -> orders_wf (with_order o empty_db).
Proof.
  intros Ho Hat id x Hx. change (({[ o_id o := o ]} : gmap Uuid OrderRow) !! id = Some x) in Hx.
  apply lookup_singleton_Some in Hx as [<- <-]. auto.
Qed.

Lemma order_action_conforms_witness :
  orders_wf (with_order paid_order empty_db) /\
  order_target (c_payload ship_command) = Some 1%N /\
  exists success db',
    dispatch sample_state sally ship_command NotNeeded 10 (with_order paid_order empty_db)
      = Done success db' /\
    order_step sally ship_command 1 (with_order paid_order empty_db) db' /\ orders_wf db'.
Proof.
  assert (Hwf : orders_wf (with_order paid_order empty_db)).
  { apply orders_wf_singleton; [split; intros [=]|]. by exists (sample_line "a" 1), [], "a". }
  assert (E : exists success db',
    dispatch sample_state sally ship_command NotNeeded 10 (with_order paid_order empty_db)
      = Done success db') by (vm_compute; eauto).
  destruct E as (success & db' & E).
  split; [exact Hwf|split; [reflexivity|]]. exists success, db'. split; [exact E|].
  exact (proj2 (order_action_conforms sample_state sally ship_command NotNeeded 10
           (with_order paid_order empty_db) 1 Hwf I eq_refl) success db' E).
Defined.
