(* ===== verification/Ledger.v ===== *)
(** * The inventory ledger

    Every reserved unit of a listing is owed to somebody: to an active
    reservation, or to an order that holds stock.  [books] is that accounting
    invariant; this file proves what each stock movement of [handlers/holds.rs],
    [handlers/payment.rs], [handlers/cancellation.rs] and [expiry.rs] does to
    it.  In the middle of a transaction the two sides differ: [books_off d]
    says by how much, listing by listing. *)

From S2P Require Import Prelude Domain StateMachines Store Commands Actions Drops Holds Pickup.
From S2P Require Import DigitalManual Cancellation Payment Auction.

(** ** Who holds a unit *)

Definition reservation_hold (L : string) (r : ReservationRow) : Z :=
  if bool_decide (r_status r = RActive) && (r_listing_aggregate_id r =? L)%string
  then r_quantity r else 0.

Definition line_units (L : string) (lines : list OrderLine) : Z :=
  sum_list (map (fun x => if (ln_listing_aggregate_id x =? L)%string then ln_quantity x else 0)
              lines).

Definition order_hold (L : string) (o : OrderRow) : Z :=
  if o_stock_held o then line_units L (o_lines o) else 0.

Definition reservations_hold (db : Db) (L : string) : Z :=
  map_sum (fun _ r => reservation_hold L r) (reservations db).

Definition held (db : Db) (L : string) : Z :=
  reservations_hold db L + map_sum (fun _ o => order_hold L o) (orders db).

(** ** Well-formed rows *)

Definition running_auction (l : ListingRow) : bool :=
  match parse_auction l with
  | Some a => bool_decide (a_status a = AActive)
  | None => false
  end.

(** The listing state tells whether anything can be bought; a running auction
    sells its only unit; the aggregate id names the seller. *)
Definition listing_wf (l : ListingRow) : Prop :=
  listing_check l = true /\
  (l_state l = LAvailable <-> 0 < l_available_quantity l) /\
  (l_state l = LSold -> l_reserved_quantity l = 0) /\
  (running_auction l = true -> l_available_quantity l = 1 /\ l_total_quantity l = 1) /\
  l_aggregate_id l = listing_aggregate_id (l_seller_pubky l) (l_listing_id l).

(** A line asks for units of a registered listing that is not being auctioned. *)
Definition line_ok (db : Db) (x : OrderLine) : Prop :=
  0 < ln_quantity x /\
  exists l, listings db !! ln_listing_aggregate_id x = Some l /\ running_auction l = false.

(** An order holds stock only while it is unpaid; an auction order holds
    through its reservation: one unit of the auctioned listing. *)
Definition order_books (db : Db) (o : OrderRow) : Prop :=
  (forall x, In x (o_lines o) -> line_ok db x) /\
  (o_stock_held o = true -> o_state o = OPendingPayment /\ o_auction_aggregate_id o = None) /\
  (forall L, o_auction_aggregate_id o = Some L ->
     (forall L', line_units L' (o_lines o) = if (L =? L')%string then 1 else 0) /\
     exists l, listings db !! L = Some l /\ l_sale_format l = Auction).

(** The reserved column of [L] exceeds what is owed by [d L]. *)
Record books_off (d : string -> Z) (db : Db) : Prop := mkBooks {
  bk_listing : forall L l, listings db !! L = Some l ->
    l_aggregate_id l = L /\ listing_wf l /\ l_reserved_quantity l = held db L + d L;
  bk_order : forall id o, orders db !! id = Some o -> o_id o = id /\ order_books db o;
  bk_reservation : forall id r, reservations db !! id = Some r -> r_id r = id /\ 0 < r_quantity r;
  bk_auction : forall L l, listings db !! L = Some l -> l_sale_format l = Auction ->
    reservations_hold db L <= (if running_auction l then 0 else 1);
  bk_reserved : forall id r, reservations db !! id = Some r ->
    is_Some (listings db !! r_listing_aggregate_id r);
}.

Definition books (db : Db) : Prop := books_off (fun _ => 0) db.

Lemma books_ext d d' db : (forall L, d L = d' L) -> books_off d db -> books_off d' db.
Proof.
  intros He [Hl Ho Hr Ha Hd]. split; auto. intros L l HL. destruct (Hl L l HL) as (? & ? & Hq).
  by rewrite <- He.
Qed.

(** ** Sums *)

Lemma line_units_cons L x lines :
  line_units L (x :: lines) =
  (if (ln_listing_aggregate_id x =? L)%string then ln_quantity x else 0) + line_units L lines.
Proof. reflexivity. Qed.

Lemma line_units_one L x :
  line_units L [x] = if (ln_listing_aggregate_id x =? L)%string then ln_quantity x else 0.
Proof. unfold line_units, sum_list. simpl. destruct (_ =? _)%string; lia. Qed.

Lemma line_units_app L l1 l2 : line_units L (l1 ++ l2) = line_units L l1 + line_units L l2.
Proof. unfold line_units. by rewrite map_app, sum_list_app. Qed.

Lemma line_units_nonneg L lines :
  (forall x, In x lines -> 0 < ln_quantity x) -> 0 <= line_units L lines.
Proof.
  intros Hpos. apply sum_list_nonneg, List.Forall_forall. intros z Hz.
  apply in_map_iff in Hz as (x & <- & Hx). specialize (Hpos x Hx).
  destruct (_ =? _)%string; lia.
Qed.

Section Books.
Context (d : string -> Z) (db : Db) (Hb : books_off d db).

Lemma order_hold_nonneg L id o : orders db !! id = Some o -> 0 <= order_hold L o.
Proof.
  intros Ho. unfold order_hold. destruct (o_stock_held o); [|lia].
  apply line_units_nonneg. intros x Hx.
  destruct (bk_order _ _ Hb id o Ho) as (_ & Hl & _). by apply Hl.
Qed.

Lemma reservation_hold_nonneg L id r : reservations db !! id = Some r -> 0 <= reservation_hold L r.
Proof.
  intros Hr. destruct (bk_reservation _ _ Hb id r Hr). unfold reservation_hold.
  destruct (_ && _); lia.
Qed.

Lemma reservations_hold_nonneg L : 0 <= reservations_hold db L.
Proof. apply map_sum_nonneg. intros. by eapply reservation_hold_nonneg. Qed.

(** A holder's units are within what is owed. *)
Lemma order_hold_le L id o : orders db !! id = Some o -> order_hold L o <= held db L.
Proof.
  intros Ho. unfold held. pose proof (reservations_hold_nonneg L).
  enough (order_hold L o <= map_sum (fun _ o => order_hold L o) (orders db)) by lia.
  apply (map_sum_ge (fun _ o => order_hold L o) _ id); [|done].
  intros. by eapply order_hold_nonneg.
Qed.

Lemma reservation_hold_le L id r :
  reservations db !! id = Some r -> reservation_hold L r <= held db L.
Proof.
  intros Hr. unfold held.
  assert (0 <= map_sum (fun _ o => order_hold L o) (orders db))
    by (apply map_sum_nonneg; intros; by eapply order_hold_nonneg).
  enough (reservation_hold L r <= reservations_hold db L) by lia.
  apply (map_sum_ge (fun _ r => reservation_hold L r) _ id); [|done].
  intros. by eapply reservation_hold_nonneg.
Qed.

(** ** What the three kinds of writes do to the books *)

(** A listing row is replaced: only its reserved column matters. *)
Lemma books_put_listing L l l' :
  listings db !! L = Some l -> l_aggregate_id l' = L -> listing_wf l' ->
  l_sale_format l' = l_sale_format l ->
  (running_auction l' = true -> running_auction l = true) ->
  books_off (fun L' => if (L =? L')%string
                       then d L' + (l_reserved_quantity l' - l_reserved_quantity l) else d L')
    (upd listings (<[L := l']>) db).
Proof.
  intros Hl Hid Hwf Hfmt Hrun. split.
  - intros L0 l0 HL0. change ((<[L:=l']> (listings db)) !! L0 = Some l0) in HL0.
    change (held (upd listings _ db) L0) with (held db L0).
    apply lookup_insert_Some in HL0 as [[<- <-]|[Hne HL0]].
    + rewrite String.eqb_refl. destruct (bk_listing _ _ Hb L l Hl) as (_ & _ & ?).
      split; [done|split; [done|lia]].
    + destruct (String.eqb_spec L L0); [done|]. by apply Hb.
  - intros id o Ho. destruct (bk_order _ _ Hb id o Ho) as (? & H1 & H2 & H3).
    split; [done|]. split; [|split; [exact H2|]].
    + intros x Hx. destruct (H1 x Hx) as [? (l0 & Hl0 & Hr0)]. split; [done|].
      destruct (decide (L = ln_listing_aggregate_id x)) as [->|Hne].
      * exists l'. split; [exact (lookup_insert_eq _ _ _)|]. rewrite Hl in Hl0.
        injection Hl0 as <-. destruct (running_auction l'); [|done]. by rewrite Hrun in Hr0.
      * exists l0. split; [|done]. etransitivity; [exact (lookup_insert_ne _ _ _ _ Hne)|done].
    + intros L0 HL0. destruct (H3 L0 HL0) as [Hlines (l0 & Hl0 & Hf0)]. split; [done|].
      destruct (decide (L = L0)) as [<-|Hne].
      * exists l'. split; [exact (lookup_insert_eq _ _ _)|]. congruence.
      * exists l0. split; [|done]. etransitivity; [exact (lookup_insert_ne _ _ _ _ Hne)|done].
  - exact (bk_reservation _ _ Hb).
  - intros L0 l0 HL0 Hf. change ((<[L:=l']> (listings db)) !! L0 = Some l0) in HL0.
    change (reservations_hold (upd listings _ db) L0) with (reservations_hold db L0).
    apply lookup_insert_Some in HL0 as [[<- <-]|[Hne HL0]]; [|by apply (bk_auction _ _ Hb)].
    pose proof (bk_auction _ _ Hb L l Hl ltac:(congruence)).
    destruct (running_auction l'); [by rewrite Hrun in H|]. destruct (running_auction l); lia.
  - intros id r Hr. change (is_Some ((<[L:=l']> (listings db)) !! r_listing_aggregate_id r)).
    rewrite lookup_insert_is_Some'. right. exact (bk_reserved _ _ Hb id r Hr).
Qed.

(** An order row is written, new or in place of [old]. *)
Lemma books_put_order id o' old :
  o_id o' = id -> order_books db o' -> orders db !! id = old ->
  books_off (fun L => d L - (order_hold L o' - match old with Some o => order_hold L o | None => 0 end))
    (upd orders (<[id := o']>) db).
Proof.
  intros Hid Ho' Hold. split;
    [|intros id0 o0 H0|exact (bk_reservation _ _ Hb)|exact (bk_auction _ _ Hb)|exact (bk_reserved _ _ Hb)].
  - intros L l HL. destruct (bk_listing _ _ Hb L l HL) as (? & ? & Hq). do 2 (split; [done|]).
    assert (Hh : held (upd orders (<[id:=o']>) db) L =
            held db L + (order_hold L o' - match old with Some o => order_hold L o | None => 0 end)).
    { unfold held. change (reservations_hold (upd orders _ db) L) with (reservations_hold db L).
      change (orders (upd orders (<[id:=o']>) db)) with (<[id:=o']> (orders db)).
      destruct old as [o|]; [rewrite (map_sum_update _ _ _ _ _ Hold)|
                             rewrite (map_sum_insert _ _ _ _ Hold)]; lia. }
    rewrite Hq, Hh. ring.
  - change ((<[id:=o']> (orders db)) !! id0 = Some o0) in H0.
    apply lookup_insert_Some in H0 as [[<- <-]|[_ H0]]; [done|]. exact (bk_order _ _ Hb id0 o0 H0).
Qed.

(** A reservation row is written, new or in place of [old]. *)
Lemma books_put_reservation id r' old :
  r_id r' = id -> 0 < r_quantity r' -> reservations db !! id = old ->
  is_Some (listings db !! r_listing_aggregate_id r') ->
  (forall L l, listings db !! L = Some l -> l_sale_format l = Auction ->
     reservations_hold db L +
       (reservation_hold L r' - match old with Some r => reservation_hold L r | None => 0 end)
     <= (if running_auction l then 0 else 1)) ->
  books_off (fun L => d L - (reservation_hold L r' -
                             match old with Some r => reservation_hold L r | None => 0 end))
    (upd reservations (<[id := r']>) db).
Proof.
  intros Hid Hpos Hold Hex Hauc.
  assert (Hsum : forall L, reservations_hold (upd reservations (<[id:=r']>) db) L =
    reservations_hold db L + (reservation_hold L r' -
      match old with Some r => reservation_hold L r | None => 0 end)).
  { intros L. unfold reservations_hold.
    change (reservations (upd reservations (<[id:=r']>) db)) with (<[id:=r']> (reservations db)).
    destruct old as [r|]; [rewrite (map_sum_update _ _ _ _ _ Hold)|
                           rewrite (map_sum_insert _ _ _ _ Hold)]; lia. }
  split; [|exact (bk_order _ _ Hb)| | |].
  - intros L l HL. destruct (bk_listing _ _ Hb L l HL) as (? & ? & Hq). do 2 (split; [done|]).
    unfold held in *. rewrite Hsum.
    change (orders (upd reservations _ db)) with (orders db). cbn beta. lia.
  - intros id0 r0 H0. change ((<[id:=r']> (reservations db)) !! id0 = Some r0) in H0.
    apply lookup_insert_Some in H0 as [[<- <-]|[_ H0]]; [done|]. exact (bk_reservation _ _ Hb _ _ H0).
  - intros L l HL Hf. rewrite Hsum. by apply Hauc.
  - intros id0 r0 H0. change ((<[id:=r']> (reservations db)) !! id0 = Some r0) in H0.
    apply lookup_insert_Some in H0 as [[<- <-]|[_ H0]]; [done|]. exact (bk_reserved _ _ Hb _ _ H0).
Qed.
End Books.

(** ** Listing rows stay well formed *)

Ltac unfold_listing :=
  unfold listing_wf, state_after_reserve, state_after_sale in *; simpl in *.

Lemma listing_wf_balance l :
  listing_wf l ->
  0 <= l_available_quantity l /\ 0 <= l_reserved_quantity l /\ 0 <= l_sold_quantity l /\
  l_available_quantity l + l_reserved_quantity l + l_sold_quantity l = l_total_quantity l.
Proof.
  intros [Hc _]. unfold listing_check in Hc. repeat rewrite andb_true_iff in Hc.
  rewrite !Z.leb_le, Z.eqb_eq in Hc. tauto.
Qed.

Lemma running_same l l' :
  l_sale_format l' = l_sale_format l -> l_auction l' = l_auction l ->
  running_auction l' = running_auction l.
Proof. unfold running_auction, parse_auction. by intros -> ->. Qed.

Lemma reserve_listing_wf l q now :
  listing_wf l -> 0 < q <= l_available_quantity l -> running_auction l = false ->
  listing_check (reserve_listing (state_after_reserve l q) q now l) = true ->
  listing_wf (reserve_listing (state_after_reserve l q) q now l).
Proof.
  intros Hwf Hq Hrun Hc. split; [exact Hc|]. clear Hc.
  rewrite (running_same l) by reflexivity. rewrite Hrun. unfold_listing.
  destruct Hwf as (_ & _ & _ & _ & Hid).
  destruct (_ =? _) eqn:E; reflect_bools; (split; [|done]).
  - split; [discriminate|lia].
  - split; [lia|done].
Qed.

Lemma release_listing_wf held l q now :
  listing_wf l -> 0 < q <= held_column held l ->
  listing_check (release_listing held q now l) = true ->
  listing_wf (release_listing held q now l).
Proof.
  intros Hwf Hq Hc. split; [exact Hc|]. clear Hc. pose proof (listing_wf_balance l Hwf).
  assert (Hrun : running_auction l = false).
  { destruct Hwf as (_ & _ & _ & Hr & _). destruct (running_auction l); [|done].
    destruct (Hr eq_refl). destruct held; simpl in *; lia. }
  destruct Hwf as (_ & _ & _ & _ & Hid).
  destruct held; (rewrite (running_same l) by reflexivity); rewrite Hrun; unfold_listing;
    (split; [|done]); split; try done; lia.
Qed.

Lemma sell_listing_wf l q now :
  listing_wf l -> 0 < q <= l_reserved_quantity l ->
  listing_check (sell_listing (state_after_sale l q) q now l) = true ->
  listing_wf (sell_listing (state_after_sale l q) q now l).
Proof.
  intros Hwf Hq Hc. split; [exact Hc|]. clear Hc. pose proof (listing_wf_balance l Hwf).
  assert (Hrun : running_auction l = false).
  { destruct Hwf as (_ & _ & _ & Hr & _). destruct (running_auction l); [|done].
    destruct (Hr eq_refl). lia. }
  destruct Hwf as (_ & Hs & Hsold & _ & Hid).
  rewrite (running_same l) by reflexivity. rewrite Hrun. unfold_listing.
  destruct (0 <? _) eqn:E1; [|destruct (q <? _) eqn:E2]; reflect_bools;
    (split; [split; [try discriminate|]; try done; lia|split; [try discriminate; intros; lia|done]]).
Qed.

(** The transitions the handlers assert are in the listing machine. *)
Lemma reserve_transition l q :
  listing_wf l -> 0 < q <= l_available_quantity l ->
  listing_can (l_state l) (state_after_reserve l q) = true.
Proof.
  intros (_ & Hs & _) Hq. assert (l_state l = LAvailable) as -> by (apply Hs; lia).
  unfold state_after_reserve. by destruct (_ =? _).
Qed.

Lemma sale_transition l q :
  listing_wf l -> 0 < q <= l_reserved_quantity l ->
  listing_can (l_state l) (state_after_sale l q) = true.
Proof.
  intros (Hc & Hs & Hsold & _) Hq. unfold state_after_sale.
  destruct (0 <? l_available_quantity l) eqn:E1; reflect_bools.
  - by rewrite (proj2 Hs E1).
  - destruct (l_state l); [assert (0 < l_available_quantity l) by (by apply Hs); lia| |].
    + by destruct (_ <? _).
    + specialize (Hsold eq_refl). lia.
Qed.

(** ** Stock movements *)

(** Nothing but listings differs. *)
Definition listings_only (db db' : Db) : Prop := db' = db <| listings := listings db' |>.

Lemma listings_only_refl db : listings_only db db.
Proof. by destruct db. Qed.

Lemma listings_only_trans db1 db2 db3 :
  listings_only db1 db2 -> listings_only db2 db3 -> listings_only db1 db3.
Proof.
  destruct db1, db2, db3. unfold listings_only, upd. cbn. intros [=] [=]. subst. reflexivity.
Qed.

Lemma listings_only_frame db db' :
  listings_only db db' -> orders db' = orders db /\ reservations db' = reservations db.
Proof. by intros ->. Qed.

Lemma listings_only_held db db' L : listings_only db db' -> held db' L = held db L.
Proof.
  intros Hf. destruct (listings_only_frame _ _ Hf) as [E1 E2].
  unfold held, reservations_hold. by rewrite E1, E2.
Qed.

(** The books after these lines were released, or taken. *)
Definition minus_units (d : string -> Z) (lines : list OrderLine) (L : string) : Z :=
  d L - line_units L lines.
Definition plus_units (d : string -> Z) (lines : list OrderLine) (L : string) : Z :=
  d L + line_units L lines.

Lemma minus_units_app d l1 l2 L :
  minus_units (minus_units d l1) l2 L = minus_units d (l1 ++ l2) L.
Proof. unfold minus_units. rewrite line_units_app. lia. Qed.

Lemma plus_units_app d l1 l2 L :
  plus_units (plus_units d l1) l2 L = plus_units d (l1 ++ l2) L.
Proof. unfold plus_units. rewrite line_units_app. lia. Qed.

(** A stock movement changes neither the format nor the auction. *)
Lemma books_move_listing d db L l l' :
  books_off d db -> listings db !! L = Some l -> l_aggregate_id l' = l_aggregate_id l ->
  listing_wf l' -> l_sale_format l' = l_sale_format l -> l_auction l' = l_auction l ->
  books_off (fun L' => if (L =? L')%string
                       then d L' + (l_reserved_quantity l' - l_reserved_quantity l) else d L')
    (upd listings (<[L := l']>) db).
Proof.
  intros Hb Hl Hid Hwf Hf Ha. destruct (bk_listing _ _ Hb L l Hl) as (HidL & _).
  apply (books_put_listing d db Hb L l l' Hl); [congruence|done|done|].
  by rewrite (running_same l l' Hf Ha).
Qed.

Section Movements.
Context (now : Time).

(** The row found under a line, and its invariant. *)
Ltac take_row Hb Hl Hwf :=
  rename select (listings _ !! _ = Some _) into Hl;
  destruct (bk_listing _ _ Hb _ _ Hl) as (_ & Hwf & _).

(** The written row keeps the books, up to arithmetic. *)
Ltac moved Hb Hl :=
  simplify_eq; wp_step; (split; [|reflexivity]);
  eapply books_ext; [|eapply (books_move_listing _ _ _ _ _ Hb Hl)]; try done;
  [intros L; unfold minus_units, plus_units; rewrite ?line_units_one; simpl;
   destruct (_ =? _)%string; lia|].

Lemma wp_release_line_reserved d db x l :
  books_off d db -> 0 < ln_quantity x -> listings db !! ln_listing_aggregate_id x = Some l ->
  ln_quantity x <= l_reserved_quantity l ->
  wp (release_line HReserved now x)
    (fun _ db' => books_off (minus_units d [x]) db' /\ listings_only db db')
    (fun _ _ => False) db.
Proof.
  intros Hb Hq Hl Hr. destruct (bk_listing _ _ Hb _ _ Hl) as (_ & Hwf & _).
  unfold release_line, fetch_listing_for_update.
  do 4 wp_step; [congruence|]. simplify_eq. wp_step.
  apply wp_debug_assert; [by destruct (l_state l)|]. do 2 wp_step; [|no_row Hl; lia].
  simplify_eq. wp_step; [done|]. split; [|reflexivity].
  eapply books_ext; [|eapply (books_move_listing _ _ _ _ _ Hb Hl)]; try done.
  - intros L. unfold minus_units. rewrite line_units_one. simpl. destruct (_ =? _)%string; lia.
  - apply release_listing_wf; [done|by split|done].
Qed.

(** A release of sold units leaves the reserved column alone. *)
Lemma wp_release_line_sold d db x :
  books_off d db -> 0 < ln_quantity x ->
  wp (release_line HSold now x)
    (fun _ db' => books_off d db' /\ listings_only db db') any_refusal db.
Proof.
  intros Hb Hq. unfold release_line, fetch_listing_for_update.
  do 4 wp_step. take_row Hb Hl Hwf. wp_step.
  apply wp_debug_assert; [by destruct (l_state _)|]. do 2 wp_step; [|by wp_step].
  moved Hb Hl. reflect_bools. apply release_listing_wf; [done|by split|done].
Qed.

Lemma wp_acquire_line d db x created_at :
  books_off d db -> line_ok db x ->
  wp (acquire_line created_at now x)
    (fun _ db' => books_off (plus_units d [x]) db' /\ listings_only db db') any_refusal db.
Proof.
  intros Hb [Hq (l & Hlx & Hrun)]. unfold acquire_line, fetch_listing_for_update. do 4 wp_step.
  assert (a = l) as -> by congruence. destruct (bk_listing _ _ Hb _ _ Hlx) as (_ & Hwf & _).
  do 2 wp_step. apply wp_bind.
  eapply wp_mono with (R' := any_refusal)
    (Q' := fun _ db' => db' = db /\ ln_quantity x <= l_available_quantity l); [| |done].
  { wp_step; [wp_step; by wp_step|]. wp_step. reflect_bools. auto. }
  intros [] ? [-> Hav].
  wp_step. apply wp_debug_assert; [by apply reserve_transition|]. do 2 wp_step; [|by wp_step].
  moved Hb Hlx. by apply reserve_listing_wf.
Qed.

Lemma wp_sell_line d db x :
  books_off d db -> 0 < ln_quantity x ->
  wp (sell_line now x)
    (fun _ db' => books_off (minus_units d [x]) db' /\ listings_only db db') any_refusal db.
Proof.
  intros Hb Hq. unfold sell_line, fetch_listing_for_update. do 4 wp_step.
  take_row Hb Hl Hwf. do 2 wp_step. reflect_bools.
  wp_step. apply wp_debug_assert; [by apply sale_transition|]. do 2 wp_step.
  - moved Hb Hl. by apply sell_listing_wf.
  - no_row Hl. discriminate.
Qed.

(** ** Loops over the lines of an order *)

Lemma books_same d db db' :
  listings db' = listings db -> orders db' = orders db -> reservations db' = reservations db ->
  books_off d db -> books_off d db'.
Proof.
  intros Hl Ho Hr [H1 H2 H3 H4 H5]. unfold held, reservations_hold, order_books, line_ok in *.
  split; unfold held, reservations_hold, order_books, line_ok; rewrite ?Hl, ?Ho, ?Hr; auto.
Qed.

(** What every line of an order in the store is. *)
Lemma stored_line d db id o x :
  books_off d db -> orders db !! id = Some o -> In x (o_lines o) -> line_ok db x.
Proof. intros Hb Ho Hx. by apply (bk_order _ _ Hb id o Ho). Qed.

(** The reserved units of an order's lines can always be released. *)
Lemma wp_release_lines_reserved d db id o :
  books_off d db -> orders db !! id = Some o ->
  (forall L, line_units L (o_lines o) <= held db L + d L) ->
  wp (release_lines o HReserved now)
    (fun _ db' => books_off (minus_units d (o_lines o)) db' /\ listings_only db db')
    (fun _ _ => False) db.
Proof.
  intros Hb Ho Hle. unfold release_lines.
  pose (I := fun rest db' => exists done, o_lines o = done ++ rest /\
    books_off (minus_units d done) db' /\ listings_only db db').
  eapply wp_mono; [apply (wp_for_each I (fun _ _ => False))| |done].
  - exists []. split; [done|split; [|apply listings_only_refl]].
    eapply books_ext; [|exact Hb]. intros L. unfold minus_units, line_units. simpl. lia.
  - intros x rest db' (done & Hl & Hb' & Hf). destruct (listings_only_frame _ _ Hf) as [Eo _].
    assert (Hx : In x (o_lines o)) by (rewrite Hl; apply in_or_app; right; by left).
    destruct (stored_line _ db' id o x Hb') as [Hpos (l & Hlx & _)]; [by rewrite Eo|done|].
    destruct (bk_listing _ _ Hb' _ _ Hlx) as (_ & _ & Hres).
    eapply wp_mono; [eapply (wp_release_line_reserved _ _ _ _ Hb' Hpos Hlx)| |done].
    + rewrite Hres, (listings_only_held _ _ _ Hf). specialize (Hle (ln_listing_aggregate_id x)).
      rewrite Hl in Hle. rewrite line_units_app, line_units_cons, String.eqb_refl in Hle.
      unfold minus_units.
      assert (0 <= line_units (ln_listing_aggregate_id x) rest); [|lia].
      apply line_units_nonneg. intros y Hy.
      apply (stored_line _ db id o y Hb Ho). rewrite Hl. apply in_or_app. right. by right.
    + intros [] db'' [Hb'' Hf']. exists (done ++ [x]). rewrite <- app_assoc. split; [done|].
      split; [|by eapply listings_only_trans]. eapply books_ext; [|exact Hb''].
      intros L. apply minus_units_app.
  - intros [] db' (done & Hl & Hb' & Hf). rewrite app_nil_r in Hl. by rewrite Hl.
Qed.

(** Loops over lines of a stored order whose body may refuse. *)
Lemma wp_lines_loop (body : OrderLine -> H unit)
    (shift : (string -> Z) -> list OrderLine -> string -> Z) (lines : list OrderLine) d db id o :
  (forall d L, shift d [] L = d L) ->
  (forall d l1 l2 L, shift (shift d l1) l2 L = shift d (l1 ++ l2) L) ->
  (forall d db x, line_ok db x -> books_off d db ->
     wp (body x) (fun _ db' => books_off (shift d [x]) db' /\ listings_only db db') any_refusal db) ->
  orders db !! id = Some o -> (forall x, In x lines -> In x (o_lines o)) ->
  books_off d db ->
  wp (for_each lines body)
    (fun _ db' => books_off (shift d lines) db' /\ listings_only db db') any_refusal db.
Proof.
  intros Hnil Happ Hbody Ho Hsub Hb.
  pose (I := fun rest db' => exists done, lines = done ++ rest /\
    books_off (shift d done) db' /\ listings_only db db').
  eapply wp_mono; [apply (wp_for_each I any_refusal)| |done].
  - exists []. split; [done|split; [|apply listings_only_refl]].
    eapply books_ext; [|exact Hb]. intros L. by rewrite Hnil.
  - intros x rest db' (done & Hl & Hb' & Hf). destruct (listings_only_frame _ _ Hf) as [Eo _].
    eapply wp_mono; [apply (Hbody (shift d done) _ x); [|exact Hb']| |done].
    + apply (stored_line _ _ id o x Hb'); [by rewrite Eo|]. apply Hsub.
      rewrite Hl. apply in_or_app. right. by left.
    + intros [] db'' [Hb'' Hf']. exists (done ++ [x]). rewrite <- app_assoc. split; [done|].
      split; [|by eapply listings_only_trans]. eapply books_ext; [|exact Hb''].
      intros L. apply Happ.
  - intros [] db' (done & Hl & Hb' & Hf). rewrite app_nil_r in Hl. by rewrite Hl.
Qed.

Lemma wp_acquire_lines d db id o created_at :
  books_off d db -> orders db !! id = Some o ->
  wp (for_each (o_lines o) (acquire_line created_at now))
    (fun _ db' => books_off (plus_units d (o_lines o)) db' /\ listings_only db db')
    any_refusal db.
Proof.
  intros Hb Ho. apply (wp_lines_loop _ _ _ _ _ id o); [| | |done|done|done].
  - intros d' L. unfold plus_units, line_units. simpl. lia.
  - apply plus_units_app.
  - intros d' db' x Hx Hb'. by apply wp_acquire_line.
Qed.

Lemma wp_sell_lines d db id o :
  books_off d db -> orders db !! id = Some o ->
  wp (for_each (o_lines o) (sell_line now))
    (fun _ db' => books_off (minus_units d (o_lines o)) db' /\ listings_only db db')
    any_refusal db.
Proof.
  intros Hb Ho. apply (wp_lines_loop _ _ _ _ _ id o); [| | |done|done|done].
  - intros d' L. unfold minus_units, line_units. simpl. lia.
  - apply minus_units_app.
  - intros d' db' x [Hx _] Hb'. by apply wp_sell_line.
Qed.

Lemma wp_release_lines_sold d db id o o' :
  books_off d db -> orders db !! id = Some o ->
  (forall x, In x (o_lines o') -> In x (o_lines o)) ->
  wp (release_lines o' HSold now)
    (fun _ db' => books_off d db' /\ listings_only db db') any_refusal db.
Proof.
  intros Hb Ho Hsub. apply (wp_lines_loop _ (fun d _ => d) _ _ _ id o); [done|done| |done|done|done].
  intros d' db' x [Hx _] Hb'. by apply wp_release_line_sold.
Qed.
End Movements.
