(* ===== verification/Books.v ===== *)
(** * The books through the handlers

    Every command handler of the library and the expiry sweep preserve the
    accounting invariant of [Ledger]. *)

From S2P Require Import LocksKeys LockResource Registration.
From S2P Require Import Prelude Domain Json StateMachines Store Commands Actions Drops Holds.
From S2P Require Import Holds Pickup DigitalManual Fulfillment.
From S2P Require Import Cancellation Payment Auction Text Checkout Offers Executor Samples DropBooks.
From S2P Require Import OrderActions Ledger.

(** ** Holds *)

(** Every held order knows when its hold ends; a row written before holds
    expired does not, and its release tolerates missing drop units. *)
Definition modern (o : OrderRow) : Prop :=
  o_stock_held o = true -> is_Some (o_hold_expires_at o).

(** What a lock point leaves unchanged on the order. *)
Definition armed (o o' : OrderRow) : Prop :=
  o_id o' = o_id o /\ o_lines o' = o_lines o /\ o_state o' = o_state o /\
  o_auction_aggregate_id o' = o_auction_aggregate_id o /\
  o_drop_aggregate_id o' = o_drop_aggregate_id o /\ o_buyer_pubky o' = o_buyer_pubky o /\
  o_fulfillment o' = o_fulfillment o /\ o_return_request o' = o_return_request o /\
  o_seller_pubky o' = o_seller_pubky o /\
  (modern o -> modern o') /\
  (o_auction_aggregate_id o = None -> o_stock_held o' = true).

(** Lines that ask for the same units. *)
Definition asks (x : OrderLine) : string * Z := (ln_listing_aggregate_id x, ln_quantity x).

Lemma line_units_asks L l l' : map asks l' = map asks l -> line_units L l' = line_units L l.
Proof.
  revert l'. induction l as [|x l IH]; intros [|x' l'] He; try discriminate; [done|].
  injection He as Hl Hq Hr. rewrite !line_units_cons, (IH _ Hr), Hl, Hq. done.
Qed.

Lemma attestable_asks o o' :
  o_seller_pubky o' = o_seller_pubky o -> map asks (o_lines o') = map asks (o_lines o) ->
  attestable o -> attestable o'.
Proof.
  intros Hs He (x & rest & lid & El & Eid). rewrite El in He. unfold attestable.
  destruct (o_lines o') as [|y rest'] eqn:El'; [done|]. injection He as Hy _ _.
  exists y, rest', lid. by rewrite Hs, Hy.
Qed.

Lemma line_ok_asks db l l' :
  map asks l' = map asks l -> (forall x, In x l -> line_ok db x) -> forall x, In x l' -> line_ok db x.
Proof.
  intros He Hok x Hx. apply (in_map asks) in Hx. rewrite He in Hx.
  apply in_map_iff in Hx as (y & [= Hl Hq] & Hy). destruct (Hok y Hy) as [? ?].
  unfold line_ok. by rewrite <- Hl, <- Hq.
Qed.

Lemma order_books_alike db o o' :
  map asks (o_lines o') = map asks (o_lines o) ->
  o_auction_aggregate_id o' = o_auction_aggregate_id o ->
  (o_stock_held o' = true -> o_state o' = OPendingPayment /\ o_auction_aggregate_id o = None) ->
  order_books db o -> order_books db o'.
Proof.
  intros Hl Ha Hh (H1 & H2 & H3). split; [by eapply line_ok_asks|]. rewrite Ha. split; [done|].
  intros L HL. destruct (H3 L HL) as [Hu ?]. split; [|done]. intros L'.
  by rewrite (line_units_asks _ _ _ Hl).
Qed.

Lemma order_books_same db o o' :
  o_lines o' = o_lines o -> o_auction_aggregate_id o' = o_auction_aggregate_id o ->
  (o_stock_held o' = true -> o_state o' = OPendingPayment /\ o_auction_aggregate_id o = None) ->
  order_books db o -> order_books db o'.
Proof. intros Hl. apply order_books_alike. by rewrite Hl. Qed.

(** A rewritten order row that holds what it held. *)
Lemma books_rewrite_order d db o o' :
  books_off d db -> orders db !! o_id o = Some o -> o_id o' = o_id o -> order_books db o' ->
  o_lines o' = o_lines o ->
  books_off (fun L => d L - ((if o_stock_held o' then line_units L (o_lines o) else 0)
                             - (if o_stock_held o then line_units L (o_lines o) else 0)))
    (upd orders (<[o_id o := o']>) db).
Proof.
  intros Hb Ho Hid Ho' Hl. pose proof (books_put_order d db Hb (o_id o) o' _ Hid Ho' Ho) as Hp.
  eapply books_ext; [|exact Hp]. intros L. unfold order_hold. by rewrite Hl.
Qed.

Lemma wp_acquire_payment_hold db o window source now :
  books db -> orders db !! o_id o = Some o ->
  wp (acquire_payment_hold o window source now)
    (fun o' db' => books db' /\ orders db' = <[o_id o := o']> (orders db) /\ armed o o' /\
       db' = db <| listings := listings db' |> <| orders := orders db' |>) any_refusal db.
Proof.
  intros Hb Ho. unfold acquire_payment_hold.
  destruct (o_auction_aggregate_id o) as [L0|] eqn:Ea.
  { rewrite bool_decide_true by done. wp_step. split; [done|].
    split; [by rewrite insert_id|]. split; [|by destruct db]. repeat split; auto; congruence. }
  rewrite bool_decide_false by (intros [? ?]; discriminate).
  destruct (bk_order _ _ Hb _ _ Ho) as [_ Hob]. do 2 wp_step. reflect_bools.
  destruct (o_stock_held o) eqn:Eh.
  - wp_step. assert (v = o) as -> by congruence.
    split; [|split; [done|]].
    + eapply books_ext; [|eapply (books_rewrite_order _ _ o _ Hb); try done].
      intros L. simpl. lia.
    + split; [repeat split; try done; intros ? ?; by eexists|by destruct db].
  - wp_step. eapply wp_mono; [exact (wp_acquire_lines now _ _ _ _ _ Hb Ho)|intros [] db' [Hb' Hf]|done].
    destruct (listings_only_frame _ _ Hf) as [Eo _]. wp_step.
    assert (v = o) as -> by congruence. rewrite <- Eo in Ho.
    destruct (bk_order _ _ Hb' (o_id o) o Ho) as [_ Hob'].
    split; [|split; [by rewrite <- Eo|]].
    + eapply books_ext; [|eapply (books_rewrite_order _ _ o _ Hb'); try done].
      * intros L. unfold plus_units. simpl. rewrite Eh. lia.
      * by eapply order_books_same; [..|exact Hob'].
    + split; [repeat split; try done; intros ? ?; by eexists|]. rewrite Hf. by destruct db.
Qed.

(** ** Releases *)

(** Listings, orders and reservations are the same. *)
Definition books_frame (db db' : Db) : Prop :=
  listings db' = listings db /\ orders db' = orders db /\ reservations db' = reservations db.

Lemma books_frame_books d db db' : books_frame db db' -> books_off d db -> books_off d db'.
Proof. intros (? & ? & ?). by apply books_same. Qed.

Lemma books_frame_trans db1 db2 db3 :
  books_frame db1 db2 -> books_frame db2 db3 -> books_frame db1 db3.
Proof. unfold books_frame. intuition congruence. Qed.

Lemma wp_credit_order_drop_frame o now db :
  wp (credit_order_drop o now) (fun _ => books_frame db) (fun _ => books_frame db) db.
Proof.
  unfold credit_order_drop, credit_drop_release, fetch_drop_for_update.
  repeat wp_step; by repeat split.
Qed.

(** The units of the active reservations of one buyer on one listing. *)
Definition hit_units (L B : string) (r : ReservationRow) : Z :=
  if is_winning L B r then r_quantity r else 0.

Definition winning_units (db : Db) (L B : string) : Z :=
  map_sum (fun _ r => hit_units L B r) (reservations db).

Definition winners (db : Db) (L B : string) : list (Uuid * ReservationRow) :=
  List.filter (fun kv => is_winning L B (snd kv)) (map_to_list (reservations db)).

Lemma ended_hold L B status now L' r :
  status <> RActive ->
  reservation_hold L' (end_winning L B status now r)
  = reservation_hold L' r + (if (L =? L')%string then - hit_units L B r else 0).
Proof.
  intros Hs. unfold hit_units, end_winning. destruct (is_winning L B r) eqn:Ew.
  - unfold is_winning in Ew. reflect_bools. subst. unfold reservation_hold. simpl.
    rewrite bool_decide_false, bool_decide_true by done. simpl.
    destruct (_ =? L')%string; lia.
  - destruct (L =? L')%string; ring.
Qed.

Lemma ended_sum db L B status now L' :
  status <> RActive ->
  reservations_hold (upd reservations (fmap (end_winning L B status now)) db) L' =
  reservations_hold db L' + (if (L =? L')%string then - winning_units db L B else 0).
Proof.
  intros Hs. unfold reservations_hold.
  change (reservations (upd reservations ?f db)) with (f (reservations db)). cbn beta.
  rewrite map_sum_fmap. rewrite (map_sum_ext _ _ _ (fun k r _ => ended_hold L B status now L' r Hs)).
  rewrite map_sum_add. f_equal. destruct (L =? L')%string; [|apply map_sum_zero].
  unfold winning_units.
  enough (map_sum (fun _ r => hit_units L B r) (reservations db) +
          map_sum (fun _ r => - hit_units L B r) (reservations db) = 0) by lia.
  rewrite <- map_sum_add, <- (map_sum_zero (reservations db)). apply map_sum_ext. intros. lia.
Qed.

Section Winning.
Context (d : string -> Z) (db : Db) (Hb : books_off d db) (L B : string).

Lemma hit_units_nonneg k r : reservations db !! k = Some r -> 0 <= hit_units L B r.
Proof.
  intros Hr. unfold hit_units. destruct (bk_reservation _ _ Hb k r Hr).
  destruct (is_winning L B r); lia.
Qed.

Lemma winning_units_le : winning_units db L B <= reservations_hold db L.
Proof.
  unfold winning_units, reservations_hold.
  enough (0 <= map_sum (fun _ r => reservation_hold L r + - hit_units L B r) (reservations db)).
  { rewrite map_sum_add in H.
    assert (map_sum (fun _ r => - hit_units L B r) (reservations db) +
            map_sum (fun _ r => hit_units L B r) (reservations db) = 0); [|lia].
    rewrite <- map_sum_add, <- (map_sum_zero (reservations db)). apply map_sum_ext. intros. lia. }
  apply map_sum_nonneg. intros k r Hr. pose proof (reservation_hold_nonneg _ _ Hb L k r Hr).
  unfold hit_units. destruct (is_winning L B r) eqn:Ew; [|lia]. unfold is_winning in Ew.
  reflect_bools. unfold reservation_hold. rewrite bool_decide_true by done.
  subst. rewrite String.eqb_refl. simpl. lia.
Qed.

Lemma winners_none : winners db L B = [] -> winning_units db L B = 0.
Proof.
  intros Hn. unfold winning_units. rewrite <- (map_sum_zero (reservations db)).
  apply map_sum_ext. intros k r Hr. unfold hit_units. destruct (is_winning L B r) eqn:Ew; [|done].
  exfalso. assert (In (k, r) (winners db L B)) as Hin; [|by rewrite Hn in Hin].
  apply filter_In. split; [|done]. by apply list_elem_of_In, elem_of_map_to_list.
Qed.

Lemma winners_some : winners db L B <> [] -> 1 <= winning_units db L B.
Proof.
  intros Hn. destruct (winners db L B) as [|[k r] rest] eqn:Ew; [done|].
  assert (In (k, r) (winners db L B)) as Hin by (rewrite Ew; by left).
  apply filter_In in Hin as [Hin Hh]. apply list_elem_of_In, elem_of_map_to_list in Hin.
  transitivity (hit_units L B r).
  - unfold hit_units. simpl in Hh. rewrite Hh. destruct (bk_reservation _ _ Hb k r Hin). lia.
  - apply (map_sum_ge (fun _ r => hit_units L B r) _ k); [apply hit_units_nonneg|done].
Qed.

Lemma books_end_winning status now :
  status <> RActive ->
  books_off (fun L' => if (L =? L')%string then d L' + winning_units db L B else d L')
    (upd reservations (fmap (end_winning L B status now)) db).
Proof.
  intros Hs. split; [|exact (bk_order _ _ Hb)| | |].
  - intros L0 l0 H0. destruct (bk_listing _ _ Hb L0 l0 H0) as (? & ? & Hq).
    split; [done|split; [done|]]. unfold held in *. rewrite ended_sum by done.
    change (orders (upd reservations _ db)) with (orders db).
    destruct (L =? L0)%string; lia.
  - intros k r Hr. change ((end_winning L B status now <$> reservations db) !! k = Some r) in Hr.
    rewrite lookup_fmap in Hr. destruct (reservations db !! k) as [r0|] eqn:Er; [|done].
    injection Hr as <-. destruct (bk_reservation _ _ Hb k r0 Er).
    unfold end_winning. by destruct (is_winning L B r0).
  - intros L0 l0 H0 Hf. rewrite ended_sum by done. pose proof (bk_auction _ _ Hb L0 l0 H0 Hf).
    assert (0 <= winning_units db L B) by (apply map_sum_nonneg; apply hit_units_nonneg).
    destruct (L =? L0)%string; lia.
  - intros k r Hr. change ((end_winning L B status now <$> reservations db) !! k = Some r) in Hr.
    rewrite lookup_fmap in Hr. destruct (reservations db !! k) as [r0|] eqn:Er; [|done].
    injection Hr as <-. pose proof (bk_reserved _ _ Hb k r0 Er).
    unfold end_winning. by destruct (is_winning L B r0).
Qed.
End Winning.

(** Only reservations differ. *)
Definition reservations_only (db db' : Db) : Prop :=
  db' = db <| reservations := reservations db' |>.

Lemma wp_flip_winning_reservation d db L B status now :
  books_off d db -> status <> RActive ->
  wp (flip_winning_reservation L B status now)
    (fun n db' =>
       books_off (fun L' => if (L =? L')%string then d L' + winning_units db L B else d L') db' /\
       (n = 0 -> winning_units db L B = 0) /\ (n <> 0 -> 1 <= winning_units db L B) /\
       reservations_only db db') any_refusal db.
Proof.
  intros Hb Hs. unfold flip_winning_reservation. do 5 wp_step.
  split; [by apply books_end_winning|]. fold (winners db L B).
  split; [|split; [|by destruct db]].
  - intros Hn. apply winners_none. destruct (winners db L B); [done|]. simpl in Hn. lia.
  - intros Hn. eapply winners_some; [exact Hb|]. intros E. by rewrite E in Hn.
Qed.

(** Releasing what an unpaid order holds: the books are off by exactly the
    order's own hold, which the caller then clears. *)
Definition released (o : OrderRow) (db db' : Db) : Prop :=
  books_off (fun L => - order_hold L o) db' /\ orders db' = orders db.

Lemma wp_release_held db o now :
  books db -> orders db !! o_id o = Some o -> o_stock_held o = true ->
  wp (release_lines o HReserved now) (fun _ => released o db) (fun _ _ => False) db.
Proof.
  intros Hb Ho Hh. eapply wp_mono; [eapply (wp_release_lines_reserved now _ _ _ _ Hb Ho)| |done].
  - intros L. pose proof (order_hold_le _ _ Hb L _ _ Ho) as Hle.
    unfold order_hold in Hle. rewrite Hh in Hle. lia.
  - intros [] db' [Hb' Hf]. split; [|by apply listings_only_frame in Hf as [-> _]].
    eapply books_ext; [|exact Hb']. intros L. unfold minus_units, order_hold. rewrite Hh. lia.
Qed.

Lemma wp_release_reserved_hold db o now L :
  books db -> orders db !! o_id o = Some o -> o_auction_aggregate_id o = Some L ->
  wp (release_reserved_hold o now) (fun _ => released o db) any_refusal db.
Proof.
  intros Hb Ho Ha. unfold release_reserved_hold. rewrite Ha. apply wp_bind.
  destruct (bk_order _ _ Hb _ _ Ho) as (_ & _ & Hheld & Hauc).
  destruct (Hauc L Ha) as [Hunits (l & Hl & Hf)].
  assert (Hns : o_stock_held o = false).
  { destruct (o_stock_held o); [|done]. destruct (Hheld eq_refl). congruence. }
  assert (Hzero : forall L', order_hold L' o = 0) by (intros; unfold order_hold; by rewrite Hns).
  eapply wp_mono; [by apply (wp_flip_winning_reservation _ _ _ _ _ _ Hb)| |done].
  intros n db' (Hb' & Hn0 & Hn1 & Hro). unfold reservations_only in Hro. wp_step.
  - wp_step. reflect_bools. split; [|by rewrite Hro].
    eapply books_ext; [|exact Hb']. intros L'. cbn beta. rewrite Hzero, Hn0 by done.
    destruct (_ =? _)%string; lia.
  - reflect_bools. assert (winning_units db L (o_buyer_pubky o) = 1) as Hu.
    { pose proof (winning_units_le _ _ Hb L (o_buyer_pubky o)).
      pose proof (bk_auction _ _ Hb L l Hl Hf). specialize (Hn1 ltac:(done)).
      destruct (running_auction l); lia. }
    rewrite Hu in Hb'. assert (orders db' = orders db) as Eo by (by rewrite Hro).
    eapply wp_mono; [eapply (wp_release_lines_reserved now _ _ (o_id o) o Hb')| |done].
    + by rewrite Eo.
    + intros L'. rewrite Hunits. pose proof (order_hold_le _ _ Hb' L' (o_id o) o) as Hle.
      rewrite Eo, Hzero in Hle. specialize (Hle Ho). destruct (L =? L')%string; lia.
    + intros [] db'' [Hb'' Hfr]. destruct (listings_only_frame _ _ Hfr) as [Eo' _].
      split; [|congruence]. eapply books_ext; [|exact Hb'']. intros L'. unfold minus_units.
      rewrite Hunits, Hzero. destruct (L =? L')%string; lia.
Qed.

Lemma released_frame o db db1 db2 :
  books_frame db db1 -> released o db1 db2 -> released o db db2.
Proof. intros (_ & Ho & _) [? ?]. split; [done|congruence]. Qed.

Lemma wp_release_unpaid db o now :
  books db -> orders db !! o_id o = Some o ->
  wp (release_unpaid o now) (fun _ => released o db) any_refusal db.
Proof.
  intros Hb Ho. unfold release_unpaid. destruct (o_auction_aggregate_id o) as [L|] eqn:Ea.
  { rewrite bool_decide_true by done. by apply (wp_release_reserved_hold _ _ _ L). }
  rewrite bool_decide_false by (intros [? ?]; discriminate).
  destruct (o_stock_held o) eqn:Hh.
  - apply wp_bind. unfold tolerate_legacy at 1. apply wp_bind, wp_attempt.
    eapply wp_mono with (Q' := fun _ => books_frame db) (R' := fun _ => books_frame db);
      [apply wp_credit_order_drop_frame| |].
    2:{ intros f db1 H1. wp_step; [|by wp_step]. wp_step.
        apply wp_bind, wp_attempt. eapply wp_mono;
          [apply wp_release_held; [by eapply books_frame_books| |done]| |done].
        - by destruct H1 as (_ & -> & _).
        - intros [] db2 H2. wp_step. by eapply released_frame. }
    intros [] db1 H1. wp_step. apply wp_bind, wp_attempt. eapply wp_mono;
      [apply wp_release_held; [by eapply books_frame_books| |done]| |done].
    + by destruct H1 as (_ & -> & _).
    + intros [] db2 H2. wp_step. by eapply released_frame.
  - wp_step. split; [|done]. eapply books_ext; [|exact Hb]. intros L.
    unfold order_hold. rewrite Hh. lia.
Qed.

(** The cleared row settles the books. *)
Lemma books_settle_alike db o o' :
  books_off (fun L => - order_hold L o) db -> orders db !! o_id o = Some o ->
  o_id o' = o_id o -> map asks (o_lines o') = map asks (o_lines o) ->
  o_auction_aggregate_id o' = o_auction_aggregate_id o -> o_stock_held o' = false ->
  books (upd orders (<[o_id o := o']>) db).
Proof.
  intros Hb Ho Hid Hl Ha Hh. destruct (bk_order _ _ Hb _ _ Ho) as [_ Hob].
  eapply books_ext; [|eapply (books_put_order _ _ Hb (o_id o) o' (Some o)); try done].
  - intros L. unfold order_hold at 2. rewrite Hh. lia.
  - eapply order_books_alike; [done|done| |exact Hob]. congruence.
Qed.

Lemma books_settle db o o' :
  books_off (fun L => - order_hold L o) db -> orders db !! o_id o = Some o ->
  o_id o' = o_id o -> o_lines o' = o_lines o ->
  o_auction_aggregate_id o' = o_auction_aggregate_id o -> o_stock_held o' = false ->
  books (upd orders (<[o_id o := o']>) db).
Proof. intros ? ? ? Hl. apply books_settle_alike; [done..|by rewrite Hl]. Qed.

(** [order.cancel_approve] and the unilateral exit return sold units. *)
Lemma wp_release_sold db o o' now :
  books db -> orders db !! o_id o = Some o -> (forall x, In x (o_lines o') -> In x (o_lines o)) ->
  wp (release_sold o' now) (fun _ db' => books db' /\ orders db' = orders db) any_refusal db.
Proof.
  intros Hb Ho Hsub. unfold release_sold. apply wp_bind.
  eapply wp_mono; [apply wp_credit_order_drop_frame| |done]. intros [] db1 H1.
  pose proof H1 as (_ & Eo & _).
  eapply wp_mono; [eapply (wp_release_lines_sold now _ db1 (o_id o) o o')| |done].
  - by eapply books_frame_books.
  - by rewrite Eo.
  - done.
  - intros [] db2 [Hb2 Hf]. destruct (listings_only_frame _ _ Hf) as [Eo2 _].
    split; [done|congruence].
Qed.

(** ** Releases and the drop ledger *)

Lemma order_units_nonneg o : (forall x, In x (o_lines o) -> 0 < ln_quantity x) -> 0 <= order_units o.
Proof.
  intros Hx. apply sum_list_nonneg, List.Forall_forall. intros z Hz.
  apply in_map_iff in Hz as (x & <- & Hin). specialize (Hx x Hin). lia.
Qed.

Lemma stored_units d db id o o' :
  books_off d db -> orders db !! id = Some o -> (forall x, In x (o_lines o') -> In x (o_lines o)) ->
  0 <= order_units o'.
Proof.
  intros Hb Ho Hsub. apply order_units_nonneg. intros x Hx.
  destruct (stored_line _ _ _ _ x Hb Ho (Hsub x Hx)). lia.
Qed.

(** Moving lines leaves the drop ledger alone. *)
Definition drop_tables_same (db db' : Db) : Prop :=
  drops db' = drops db /\ drop_purchases db' = drop_purchases db.

Lemma wp_drop_tables_release_lines o held now db :
  wp (release_lines o held now) (fun _ => drop_tables_same db) (fun _ => drop_tables_same db) db.
Proof.
  apply (wp_for_each (fun _ => drop_tables_same db)); [done|].
  intros x _ db' [Hd Hp]. unfold release_line, fetch_listing_for_update.
  do 4 wp_step; [done|]. wp_step. apply wp_debug_assert; [apply listing_can_available|].
  repeat wp_step; by split.
Qed.

Lemma wp_drops_release_lines o held now db :
  drops_ok now db -> wp (release_lines o held now) (fun _ => drops_ok now) any_refusal db.
Proof.
  intros Hok. eapply wp_mono; [apply wp_drop_tables_release_lines| |done].
  intros [] db' [? ?]. by eapply drops_ok_same.
Qed.

Lemma wp_drops_release_sold o now db :
  drops_ok now db -> 0 <= order_units o ->
  wp (release_sold o now) (fun _ => drops_ok now) any_refusal db.
Proof.
  intros Hok Hu. unfold release_sold. apply wp_bind.
  eapply wp_mono; [by apply wp_drops_credit_order| |done].
  intros [] db' [Hok' _]. by apply wp_drops_release_lines.
Qed.

Lemma wp_drops_release_unpaid o now db :
  drops_ok now db -> 0 <= order_units o -> modern o ->
  wp (release_unpaid o now) (fun _ => drops_ok now) any_refusal db.
Proof.
  intros Hok Hu Hm. unfold release_unpaid.
  destruct (o_auction_aggregate_id o) as [L|] eqn:Ea.
  { rewrite bool_decide_true by done. unfold release_reserved_hold. rewrite Ea.
    unfold flip_winning_reservation. do 6 wp_step.
    assert (drops_ok now (upd reservations (fmap (end_winning L (o_buyer_pubky o) RReleased now)) db))
      by (by eapply drops_ok_same; [..|exact Hok]).
    wp_step; [by wp_step|by apply wp_drops_release_lines]. }
  rewrite bool_decide_false by (intros [? ?]; discriminate).
  destruct (o_stock_held o) eqn:Hh; [|by wp_step].
  destruct (Hm Hh) as [e He].
  assert (Hleg : forall f, legacy_null_expiry_unaccounted o f = false).
  { intros f. unfold legacy_null_expiry_unaccounted. by rewrite He. }
  unfold tolerate_legacy. apply wp_bind, wp_bind, wp_attempt.
  eapply wp_mono with (R' := any_refusal); [by apply wp_drops_credit_order| |].
  2:{ intros f db1 _. cbn beta iota. rewrite Hleg. by wp_step. }
  intros [] db1 [Hok1 _]. wp_step. apply wp_bind, wp_attempt.
  eapply wp_mono with (R' := any_refusal); [by apply wp_drops_release_lines| |].
  - intros [] db2 Hok2. by wp_step.
  - intros f db2 _. cbn beta iota. rewrite Hleg. by wp_step.
Qed.

(** ** The order commands *)

(** An entry of the negotiation that set terms. *)
Definition proposes (e : OfferHistory) : bool :=
  (oh_action e =? "created")%string || (oh_action e =? "countered")%string.

(** A conversion and an expiry bump the revision without an entry. *)
Definition closing_bump (s : OfferState) : Z :=
  match s with OfConverted | OfExpired => 1 | _ => 0 end.

(** An offer is about a listing of its seller; its history is numbered and ends
    with the current terms; an award carries exactly those terms. *)
Record offer_wf (o : OfferRow) : Prop := mkOfferWf {
  ow_listing : exists listing_id,
    of_listing_aggregate_id o = listing_aggregate_id (of_seller_pubky o) listing_id;
  ow_numbered : map oh_revision (of_history o) = seqZ 1 (Z.of_nat (length (of_history o)));
  ow_revision : of_revision o = Z.of_nat (length (of_history o)) + closing_bump (of_state o);
  ow_terms : exists e, list.last (of_history o) = Some e /\ oh_amount e = offer_amount o /\
    oh_quantity e = of_quantity o;
  ow_author : exists e, list.last (List.filter proposes (of_history o)) = Some e /\
    oh_actor e = of_offered_by o;
  ow_award : forall a, of_award o = Some a ->
    of_state o <> OfPending /\ of_state o <> OfCountered /\
    aw_listing_aggregate_id a = of_listing_aggregate_id o /\
    mkMoney (aw_unit_price_minor a) (aw_currency a) (aw_exponent a) = offer_amount o /\
    aw_quantity a = of_quantity o /\
    aw_subtotal_minor a = of_amount_minor o * of_quantity o /\
    aw_total_minor a = aw_subtotal_minor a + aw_shipping_minor a;
}.

Definition offers_wf (db : Db) : Prop :=
  forall id o, offers db !! id = Some o -> of_id o = id /\ offer_wf o.

(** The invariant: stock and drops add up, rows are well formed. *)
Record inv (now : Time) (db : Db) : Prop := mkInv {
  inv_books : books db;
  inv_orders : orders_wf db;
  inv_modern : forall id o, orders db !! id = Some o -> modern o;
  inv_drops : drops_ok now db;
  inv_payments : forall k p, payments db !! k = Some p -> p_id p = k;
  inv_offers : offers_wf db;
}.

Lemma payments_kept db db' :
  payment_key <$> payments db' = payment_key <$> payments db ->
  (forall k p, payments db !! k = Some p -> p_id p = k) ->
  forall k p, payments db' !! k = Some p -> p_id p = k.
Proof.
  intros He Hk k p Hp. assert ((payment_key <$> payments db') !! k = Some (payment_key p)) as Hf
    by (by rewrite lookup_fmap, Hp).
  rewrite He, lookup_fmap in Hf. destruct (payments db !! k) as [q|] eqn:Hq; [|done].
  injection Hf as Hid _. rewrite <- Hid. by apply Hk.
Qed.

Section OrderCommands.
Context `{!UuidCrate, !JsonText, !Base32Crate, LC : !LocksCrates}.

(** A row that held nothing and holds nothing is replaced. *)
Lemma books_idle_row dbx db' o o' :
  books dbx -> orders dbx !! o_id o = Some o -> o_stock_held o = false ->
  orders db' = <[o_id o := o']> (orders dbx) -> stock_same dbx db' ->
  same_deal o o' -> o_stock_held o' = false -> books db'.
Proof.
  intros Hb Ho Hh Eo [El Er _ _ _ _] (Hid & _ & _ & Hl & _ & Ha & _) Hh'.
  eapply (books_same _ (upd orders (<[o_id o := o']>) dbx)); [exact El|exact Eo|exact Er|].
  eapply books_settle; [|done..]. eapply books_ext; [|exact Hb].
  intros L. unfold order_hold. rewrite Hh. lia.
Qed.

Lemma idle_unless_pending d db id o :
  books_off d db -> orders db !! id = Some o -> o_state o <> OPendingPayment ->
  o_stock_held o = false.
Proof.
  intros Hb Ho Hs. destruct (bk_order _ _ Hb id o Ho) as (_ & _ & Hh & _).
  destruct (o_stock_held o); [|done]. by destruct (Hh eq_refl).
Qed.

(** A row that holds what it held is replaced. *)
Lemma books_staying_row dbx db' o o' :
  books dbx -> orders dbx !! o_id o = Some o -> stays o o' ->
  orders db' = <[o_id o := o']> (orders dbx) -> stock_same dbx db' -> same_deal o o' -> books db'.
Proof.
  intros Hb Ho (Hst & Hh & _) Eo [El Er _ _ _ _] (Hid & _ & _ & Hl & _ & Ha & _).
  eapply (books_same _ (upd orders (<[o_id o := o']>) dbx)); [exact El|exact Eo|exact Er|].
  destruct (bk_order _ _ Hb _ _ Ho) as (_ & Hob). pose proof Hob as (_ & Hpend & _).
  eapply books_ext; [|eapply (books_put_order _ _ Hb (o_id o) o' (Some o)); try done].
  - intros L. unfold order_hold. rewrite Hh, Hl. lia.
  - eapply order_books_same; [done|done| |exact Hob]. rewrite Hst, Hh. exact Hpend.
Qed.

(** An order action that touches no stock: the row held nothing, or stays. *)
Lemma books_order_step actor command id db dbx db' :
  order_step actor command id db db' -> books dbx -> orders dbx = orders db ->
  stock_same dbx db' ->
  (forall t, Machines.declared Machines.order_machine "pending_payment" (order_state_str t)
     (Machines.Command (kind (c_payload command))) = false) ->
  books db'.
Proof.
  intros [(o & o' & Ho & Ho' & [Hd _ Hdecl _ Hheld] & _) Hoth] Hb Eo Hs Hk.
  rewrite <- Eo in Ho. destruct (bk_order _ _ Hb id o Ho) as [Hid _]. subst id.
  assert (Eo' : orders db' = <[o_id o := o']> (orders dbx)).
  { apply map_eq. intros k. destruct (decide (k = o_id o)) as [->|Hne].
    - by rewrite lookup_insert_eq.
    - by rewrite lookup_insert_ne, Hoth, Eo. }
  destruct Hdecl as [Hdecl|[_ Hstay]]; [|by eapply books_staying_row].
  assert (o_stock_held o = false) as Hh.
  { eapply idle_unless_pending; [exact Hb..|exact Ho|]. intros Hp. rewrite Hp in Hdecl.
    specialize (Hk (o_state o')). simpl in Hdecl, Hk. congruence. }
  eapply (books_idle_row dbx db' o o'); try done.
  destruct (o_stock_held o'); [|done]. specialize (Hheld eq_refl). congruence.
Qed.

Lemma books_row_cleared dbx db' o :
  books_off (fun L => - order_hold L o) dbx -> orders dbx !! o_id o = Some o ->
  row_cleared (o_id o) dbx db' -> books db'.
Proof.
  intros Hb Ho ([El Er _ _ _ _] & o' & Eo & Hh & Hd).
  destruct (Hd o Ho) as (Hid & _ & _ & Hl & _ & Ha & _).
  eapply (books_same _ (upd orders (<[o_id o := o']>) dbx)); [exact El|exact Eo|exact Er|].
  by eapply books_settle.
Qed.

Context (now : Time) (db : Db) (Hinv : inv now db).

Lemma wp_books_cancel_request actor command payload :
  c_payload command = RequestCancellation payload ->
  wp (Cancellation.request actor command payload now)
    (fun _ db' => books db' /\ drops_ok now db' /\
       payment_key <$> payments db' = payment_key <$> payments db /\ offers db' = offers db)
    any_refusal db.
Proof.
  intros Hp. destruct Hinv as [Hb Hwf Hm Hok _ _]. eapply wp_mono;
    [apply (wp_cancel_request_with actor command now db Hwf
              (fun o db' => released o db db' /\ drops_ok now db')
              (fun _ db' => (books db' /\ orders db' = orders db) /\ drops_ok now db') payload Hp)
    | |done].
  - intros o Ho. apply wp_both.
    + by apply wp_release_unpaid.
    + apply wp_drops_release_unpaid; [done| |by eapply Hm]. by eapply stored_units.
  - intros o Ho. apply wp_both.
    + by eapply wp_release_sold.
    + apply wp_drops_release_sold; [done|]. by eapply stored_units.
  - intros ? db' (_ & o & dbx & Ho & Hc & Eo & Ep & Ef & Hx). destruct (Hwf _ _ Ho) as [Hid _].
    rewrite <- Hid in *.
    assert (books_off (fun L => - order_hold L o) dbx /\ drops_ok now dbx) as [Hbx Hokx].
    { destruct Hx as [[[Hb' _] ?]|[Hs Hx]]; [done|].
      assert (books dbx /\ drops_ok now dbx) as [Hbx ?] by (destruct Hx as [[[? _] ?]| ->]; done).
      split; [|done]. eapply books_ext; [|exact Hbx]. intros L. unfold order_hold.
      rewrite (idle_unless_pending _ _ _ _ Hb Ho Hs). lia. }
    split; [eapply (books_row_cleared dbx); [exact Hbx|by rewrite Eo|exact Hc]|].
    destruct Hc as [[_ _ Hd Hpu Hpa Hof] _]. split; [by eapply drops_ok_same|]. split; congruence.
Qed.

Lemma wp_books_cancel_approve actor command payload :
  c_payload command = ApproveCancellation payload ->
  wp (Cancellation.approve actor command payload now)
    (fun _ db' => books db' /\ drops_ok now db' /\
       payment_key <$> payments db' = payment_key <$> payments db /\ offers db' = offers db)
    any_refusal db.
Proof.
  intros Hp. destruct Hinv as [Hb Hwf Hm Hok _ _]. eapply wp_mono;
    [apply (wp_cancel_approve_with actor command now db Hwf
              (fun db' => (books db' /\ orders db' = orders db) /\ drops_ok now db') payload Hp)
    | |done].
  - intros o o' Ho Hsub. apply wp_both.
    + by eapply wp_release_sold.
    + apply wp_drops_release_sold; [done|]. by eapply stored_units.
  - intros ? db' (Hs & dbx & [[Hbx _] Hokx] & Hsame & Eo & Ep & Ef). split.
    + eapply books_order_step; [exact Hs|exact Hbx|exact Eo|exact Hsame|].
      rewrite Hp. by intros [].
    + destruct Hsame. split; [by eapply drops_ok_same|]. split; congruence.
Qed.

Lemma order_command_settles payload s :
  is_Some (order_target payload) ->
  Machines.declared Machines.order_machine (order_state_str s) (order_state_str OPendingPayment)
    (Machines.Command (kind payload)) = false.
Proof.
  intros [id Ht]. destruct payload; try discriminate Ht; clear Ht; destruct s; reflexivity.
Qed.

Lemma wp_inv_order_action state actor command prefetched id :
  order_payload_ok (c_payload command) -> order_target (c_payload command) = Some id ->
  wp (dispatch state actor command prefetched now) (fun _ => inv now) any_refusal db.
Proof.
  intros Hpok Ht. pose proof Hinv as [Hb Hwf Hm Hok Hpay Hoff].
  assert (wp (dispatch state actor command prefetched now)
            (fun _ db' => books db' /\ drops_ok now db' /\
               payment_key <$> payments db' = payment_key <$> payments db /\
               offers db' = offers db) any_refusal db) as Hw.
  { destruct (moves_no_stock (c_payload command)) eqn:Hmv.
    - eapply wp_mono; [by apply wp_plain_action| |done]. intros ? db' [Hs Hsame]. split.
      + eapply books_order_step; [exact Hs|exact Hb|done|exact Hsame|].
        destruct (c_payload command); try discriminate; by intros [].
      + destruct Hsame. by split; [eapply drops_ok_same|].
    - unfold dispatch. destruct (c_payload command) eqn:Hp; simplify_eq/=; try discriminate;
        eauto using wp_books_cancel_request, wp_books_cancel_approve. }
  eapply wp_mono; 
    [exact (wp_both _ _ _ _ Hw (wp_order_action state actor command prefetched now db id Hwf Hpok Ht))
    | |done].
  intros ? db' [(Hb' & Hok' & Hpay' & Eoff) Hs].
  split; [done|by eapply order_step_wf| |done|by eapply payments_kept|unfold offers_wf; by rewrite Eoff].
  destruct Hs as [(o & o' & Ho & Ho' & [_ _ Hd _ _] & _) Hoth]. intros k x Hx.
  destruct (decide (k = id)) as [->|Hne]; [|rewrite Hoth in Hx by done; by eapply Hm].
  intros Hh. destruct (bk_order _ _ Hb' _ _ Hx) as (_ & _ & Hpend & _).
  destruct (Hpend Hh) as [Hst _]. assert (x = o') as -> by congruence.
  destruct Hd as [Hd|(_ & _ & Eh & Ee)].
  - rewrite Hst, order_command_settles in Hd by (by rewrite Ht). discriminate.
  - rewrite Ee. apply (Hm _ _ Ho). congruence.
Qed.
End OrderCommands.
