(* ===== verification/PaymentBooks.v ===== *)
(** * The books through payment

    [payment.sandbox_advance] and [confirm_order] keep the invariant: a
    confirmation turns exactly the units the order held into sold units and
    issues one receipt; money for an order that cannot be delivered releases
    the hold and cancels the order. *)

From S2P Require Import Prelude Domain StateMachines Store Commands Actions Drops Holds Pickup.
From S2P Require Import DigitalManual Cancellation Payment Auction Executor Samples DropBooks.
From S2P Require Import OrderActions Ledger Books.

(** The tables the invariant reads are untouched. *)
Record inv_frame (db db' : Db) : Prop := mkInvFrame {
  if_books : books_frame db db';
  if_drops : drop_tables_same db db';
  if_payments : payment_key <$> payments db' = payment_key <$> payments db;
  if_offers : offers db' = offers db;
}.

#[export] Instance inv_frame_preorder : PreOrder inv_frame.
Proof.
  split; [by repeat split|].
  intros ? ? ? [(? & ? & ?) [? ?] ? ?] [(? & ? & ?) [? ?] ? ?]. repeat split; congruence.
Qed.

Lemma inv_frame_off d now db db' :
  inv_frame db db' -> books_off d db -> drops_ok now db -> books_off d db' /\ drops_ok now db'.
Proof.
  intros [Hf [? ?] _ _] ? ?. split; [by eapply books_frame_books|by eapply drops_ok_same].
Qed.

Lemma inv_frame_inv now db db' : inv_frame db db' -> inv now db -> inv now db'.
Proof.
  intros Hf [Hb Hwf Hm Hok Hpay Hoff]. destruct (inv_frame_off _ _ _ _ Hf Hb Hok).
  destruct Hf as [(_ & Eo & _) _ Hp Ef].
  split; unfold orders_wf, offers_wf; rewrite ?Eo, ?Ef; try done.
  by eapply payments_kept.
Qed.

Section Payment.
Context {crate : UuidCrate} (now : Time).

(** ** Confirmation *)

(** After the guards the books are off by what the lines still ask for. *)
Lemma wp_confirm_guards db o :
  books db -> drops_ok now db -> orders db !! o_id o = Some o ->
  wp (confirm_guards o now)
    (fun _ db' => books_off (fun L => line_units L (o_lines o) - order_hold L o) db' /\
       drops_ok now db' /\ orders db' = orders db /\ listings db' = listings db /\
       receipts db' = receipts db /\ payments db' = payments db /\ offers db' = offers db)
    any_refusal db.
Proof.
  intros Hb Hok Ho. unfold confirm_guards, unpinnable. do 8 wp_step.
  destruct (bk_order _ _ Hb _ _ Ho) as (_ & _ & Hheld & Hauc).
  destruct (o_auction_aggregate_id o) as [L|] eqn:Ea.
  - destruct (Hauc L eq_refl) as [Hunits (l & Hl & Hf)].
    assert (Hns : o_stock_held o = false).
    { destruct (o_stock_held o); [|done]. by destruct (Hheld eq_refl). }
    apply wp_bind. eapply wp_mono; [by apply (wp_flip_winning_reservation _ _ _ _ _ _ Hb)| |done].
    intros n db' (Hb' & Hn0 & Hn1 & Hro). wp_step. reflect_bools.
    assert (winning_units db L (o_buyer_pubky o) = 1) as Hu.
    { pose proof (winning_units_le _ _ Hb L (o_buyer_pubky o)).
      pose proof (bk_auction _ _ Hb L l Hl Hf). specialize (Hn1 ltac:(done)).
      destruct (running_auction l); lia. }
    rewrite Hu in Hb'. unfold reservations_only in Hro. split; [|split; [|by rewrite Hro; repeat split]].
    + eapply books_ext; [|exact Hb']. intros L'. cbn beta. unfold order_hold.
      rewrite Hns, Hunits. destruct (L =? L')%string; lia.
    + eapply drops_ok_same; [..|exact Hok]; by rewrite Hro.
  - wp_step. split; [|done]. eapply books_ext; [|exact Hb]. intros L. unfold order_hold.
    rename select (bool_decide _ && negb (o_stock_held o) = false) into Hh.
    rewrite bool_decide_true in Hh by done. apply negb_false_iff in Hh. rewrite Hh. lia.
Qed.

Lemma wp_assign_edition db o actor command_id :
  drops_ok now db ->
  wp (assign_edition o actor command_id now)
    (fun edition db' => drops_ok now db' /\ drops_only db db' /\
       (is_Some edition <-> is_Some (o_drop_aggregate_id o))) any_refusal db.
Proof.
  intros Hok. unfold assign_edition. destruct (o_drop_aggregate_id o) as [k|].
  - apply wp_bind. eapply wp_mono; [by apply wp_record_paid_unit| |done].
    intros e db' (Hok' & Hf & _ & d & d' & Hd & Hd' & -> & Hone).
    pose proof (drop_check_bounds _ (dk_check _ _ _ _ (dk_row _ _ Hok' _ _ Hd'))) as Hbd.
    apply wp_bind, wp_expect_i32; [lia|]. wp_step. by rewrite !is_Some_alt.
  - wp_step. split; [done|]. split; [done|]. by split; intros [? [=]].
Qed.
Lemma wp_issue_receipt db payment o :
  wp (issue_receipt payment o now)
    (fun r db' => inv_frame db db' /\ receipts db' !! rc_id r = Some r /\
       rc_order_id r = o_id o /\ rc_payment_id r = p_id payment /\
       rc_recipient_pubky r = o_buyer_pubky o /\ rc_issuer_pubky r = o_seller_pubky o /\
       mkMoney (rc_total_minor r) (rc_currency r) (rc_exponent r) = receipt_money o /\
       forall k x, receipts db !! k = Some x -> rc_order_id x <> o_id o /\ receipts db' !! k = Some x)
    any_refusal db.
Proof.
  unfold issue_receipt. apply wp_bind, wp_fresh_uuid. do 3 wp_step.
  split; [by repeat split|]. split; [exact (lookup_insert_eq _ _ _)|].
  do 4 (split; [done|]). split; [by destruct (receipt_money o)|].
  intros k x Hx. rename select (table_any _ _ = false) into Hclash. split.
  - intros Heq. apply not_true_iff_false in Hclash. apply Hclash, table_any_true.
    exists k, x. split; [exact Hx|]. by rewrite Heq, N.eqb_refl.
  - etransitivity; [apply (lookup_insert_ne (receipts db))|exact Hx]. intros Heq.
    rename select (receipts _ !! _ = None) into Hn.
    change (receipts db !! new_v4 (draws db) = None) in Hn. congruence.
Qed.

(** Pins keep what the lines ask for. *)
Lemma wp_pin_pickup_lines db id lines adapter keys :
  wp (pin_pickup_lines id lines adapter keys now)
    (fun lines' db' => map asks lines' = map asks lines /\ inv_frame db db' /\
                       receipts db' = receipts db) any_refusal db.
Proof.
  unfold pin_pickup_lines. destruct keys as [opens|]; [|by wp_step].
  pose (I := fun (rest : list (nat * OrderLine)) (done : list OrderLine) (db' : Db) =>
    map asks done ++ map (fun kx => asks (snd kx)) rest = map asks lines /\ inv_frame db db' /\
    receipts db' = receipts db).
  eapply wp_mono; [apply (wp_map_each I any_refusal _ _ [])| |done].
  - unfold I. simpl. split; [|done]. clear I. generalize 0%nat. intros n.
    change (imap pair lines) with (imap (fun i => pair i) lines). clear.
    assert (forall f : nat -> nat, map (fun kx => asks (snd kx)) (imap (fun i x => (f i, x)) lines)
      = map asks lines) as Hg.
    { induction lines as [|x lines IH]; [done|]. intros f. simpl. f_equal. apply (IH (fun i => f (S i))). }
    exact (Hg (fun i => i)).
  - intros [i x] rest done' db' (Hm & Hf & Hr). unfold pin_pickup_line. wp_step.
    { wp_step. unfold I. rewrite map_app, <- app_assoc. done. }
    do 3 wp_step; [|wp_step; unfold I; by rewrite map_app, <- app_assoc].
    wp_step; [|wp_step]. unfold insert_pickup_pin. do 5 wp_step. unfold I.
    rewrite map_app, <- app_assoc. split; [exact Hm|]. split; [|exact Hr].
    etransitivity; [exact Hf|by repeat split].
  - intros lines' db' (Hm & Hf & Hr). simpl in Hm. by rewrite app_nil_r in Hm.
Qed.

Lemma wp_pin_digital_lines db o adapter keys :
  wp (pin_digital_lines o adapter keys now)
    (fun _ db' => inv_frame db db' /\ receipts db' = receipts db) any_refusal db.
Proof.
  unfold pin_digital_lines. destruct (instant_lines o) as [|x lines]; [by wp_step|].
  destruct keys as [opens|]; [|by wp_step].
  apply (wp_for_each (fun _ db' => inv_frame db db' /\ receipts db' = receipts db)); [done|].
  intros [[i listing] k] _ db' [Hf Hr]. unfold pin_digital_line.
  do 3 wp_step; [|by wp_step]. wp_step; [|by wp_step]. do 5 wp_step; wp_step.
  split; [|exact Hr]. etransitivity; [exact Hf|by repeat split].
Qed.

Lemma wp_pin_terms db o adapter keys :
  wp (pin_terms o adapter keys now)
    (fun lines' db' => map asks lines' = map asks (o_lines o) /\ inv_frame db db' /\
                       receipts db' = receipts db) any_refusal db.
Proof.
  unfold pin_terms. apply wp_bind. eapply wp_mono with (R' := any_refusal)
    (Q' := fun lines' db' => map asks lines' = map asks (o_lines o) /\ inv_frame db db' /\
                       receipts db' = receipts db); [| |done].
  { wp_step; [apply wp_pin_pickup_lines|by wp_step]. }
  intros lines' db1 (Hm & Hf & Hr). apply wp_bind.
  eapply wp_mono with (R' := any_refusal)
    (Q' := fun _ db' => inv_frame db1 db' /\ receipts db' = receipts db1); [| |done].
  { wp_step; [apply wp_pin_digital_lines|by wp_step]. }
  intros [] db2 [Hf2 Hr2]. wp_step. split; [done|]. split; [by etransitivity|congruence].
Qed.
(** Each listing's units of [lines] went from reserved to sold. *)
Definition units_sold (lines : list OrderLine) (db db' : Db) : Prop :=
  forall L l, listings db !! L = Some l -> exists l', listings db' !! L = Some l' /\
    l_available_quantity l' = l_available_quantity l /\
    l_total_quantity l' = l_total_quantity l /\
    l_reserved_quantity l' = l_reserved_quantity l - line_units L lines /\
    l_sold_quantity l' = l_sold_quantity l + line_units L lines.

(** Selling one listing's units, in place. *)
Lemma units_sold_one x db l state :
  listings db !! ln_listing_aggregate_id x = Some l ->
  units_sold [x] db
    (upd listings (<[ln_listing_aggregate_id x := sell_listing state (ln_quantity x) now l]>) db).
Proof.
  intros Hl L l0 Hl0. rewrite line_units_one.
  change (listings (upd listings ?f db)) with (f (listings db)). cbn beta.
  destruct (String.eqb_spec (ln_listing_aggregate_id x) L) as [<-|Hne].
  - rewrite lookup_insert_eq. rewrite Hl in Hl0. injection Hl0 as <-. eexists. split; [done|].
    by repeat split.
  - rewrite lookup_insert_ne by done. exists l0. split; [done|]. repeat split; lia.
Qed.

Lemma sell_line_Done x db db' : sell_line now x db = Done tt db' -> units_sold [x] db db'.
Proof.
  intros E. apply bind_Done in E as (row & db1 & [= <- <-] & E).
  apply bind_Done in E as (l & db2 & E1 & E).
  destruct (listings db !! ln_listing_aggregate_id x) as [l'|] eqn:Hl; [|discriminate].
  injection E1 as -> <-. apply bind_Done in E as (? & db3 & E2 & E).
  destruct (_ <? _); [discriminate|]. injection E2 as <- <-.
  apply bind_Done in E as (? & db4 & E3 & E).
  destruct (listing_can _ _); [|discriminate]. injection E3 as <- <-.
  apply bind_Done in E as (? & db5 & E4 & [= ->]).
  enough (wp (update_where listings listing_check (ln_listing_aggregate_id x) always
            (sell_listing (state_after_sale l (ln_quantity x)) (ln_quantity x) now))
            (fun _ => units_sold [x] db) any_refusal db) as Hw
    by exact (wp_Done _ _ _ _ _ _ Hw E4).
  wp_step.
  - assert (v = l) as -> by congruence. by apply units_sold_one.
  - rename select (forall v, _ -> _ = false) into Hn. by specialize (Hn l Hl).
Qed.

Lemma units_sold_app l1 l2 db1 db2 db3 :
  units_sold l1 db1 db2 -> units_sold l2 db2 db3 -> units_sold (l1 ++ l2) db1 db3.
Proof.
  intros H1 H2 L l Hl. destruct (H1 L l Hl) as (l' & Hl' & ? & ? & ? & ?).
  destruct (H2 L l' Hl') as (l'' & ? & ? & ? & ? & ?). exists l''.
  rewrite line_units_app. repeat split; [done|lia..].
Qed.

Lemma sell_lines_Done lines db u db' :
  for_each lines (sell_line now) db = Done u db' -> units_sold lines db db'.
Proof.
  revert db. induction lines as [|x lines IH]; intros db E; simpl in E.
  - injection E as <- <-. intros L l Hl. exists l. unfold line_units, sum_list. simpl.
    repeat split; [done|lia..].
  - apply bind_Done in E as ([] & db1 & E1 & E2).
    apply (units_sold_app [x] lines db db1); [by apply sell_line_Done|by apply IH].
Qed.
(** An order a confirmation may pay: the order machine leads from its state
    to paid, every instant line has its deliverable, and its units are held,
    by the order or, for an auction, by the winner's active reservation. *)
Definition payable (o : OrderRow) (db : Db) : Prop :=
  Machines.can_transition Machines.order_machine (order_state_str (o_state o)) "paid" = true /\
  (o_fulfillment o = Digital -> forallb (deliverable db) (instant_lines o) = true) /\
  match o_auction_aggregate_id o with
  | None => o_stock_held o = true
  | Some L => exists id r, reservations db !! id = Some r /\ is_winning L (o_buyer_pubky o) r = true
  end.

Lemma confirm_guards_payable db o db' : confirm_guards o now db = Done tt db' -> payable o db.
Proof.
  unfold confirm_guards. intros E. apply bind_Done in E as ([] & db1 & E1 & E).
  unfold refuse_if in E1. destruct (negb (Machines.can_transition _ _ _)) eqn:Hc; [discriminate|]. injection E1 as <-.
  apply bind_Done in E as (und & db1 & E1 & E). injection E1 as Eu <-. apply bind_Done in E as ([] & db2 & E2 & E).
  unfold refuse_if in E2. destruct und; [discriminate|]. injection E2 as <-.
  apply bind_Done in E as ([] & db3 & E3 & E). unfold refuse_if in E3.
  destruct (bool_decide (o_auction_aggregate_id o = None) && negb (o_stock_held o)) eqn:Hh; [discriminate|]. injection E3 as <-.
  split; [by apply negb_false_iff|]. split.
  - intros Hd. rewrite bool_decide_eq_true_2 in Eu by done. by apply negb_false_iff.
  - destruct (o_auction_aggregate_id o) as [L|].
    + apply bind_Done in E as (n & db4 & E4 & E). injection E4 as <- _. unfold refuse_if in E.
      destruct (_ =? 0) eqn:Hn; [discriminate|]. apply Z.eqb_neq in Hn.
      destruct (List.filter _ _) as [|[id r] rest] eqn:Hf; [by destruct Hn|]. exists id, r.
      assert (Hin : In (id, r) (List.filter (fun kv => is_winning L (o_buyer_pubky o) (snd kv)) (map_to_list (reservations db))))
        by (rewrite Hf; by left).
      apply filter_In in Hin as [Hin Hw]. split; [by apply elem_of_map_to_list, list_elem_of_In|done].
    + rewrite bool_decide_eq_true_2 in Hh by done. by apply negb_false_iff.
Qed.

(** What a confirmation does to the order, its receipt and the stock. *)
Record confirmation (o o' : OrderRow) (payment : PaymentRow) (r : ReceiptRow) (db db' : Db)
    : Prop := mkConfirmation {
  cf_orders : orders db' = <[o_id o := o']> (orders db);
  cf_row : exists edition lines,
    o' = confirm_row (if bool_decide (o_fulfillment o = Digital) && all_lines_instant o
                      then ODelivered else OPaid) (rc_id r) edition lines now o /\
    map asks lines = map asks (o_lines o) /\
    (is_Some edition <-> is_Some (o_drop_aggregate_id o));
  cf_receipt : receipts db' !! rc_id r = Some r /\ rc_order_id r = o_id o /\
    rc_payment_id r = p_id payment /\ rc_recipient_pubky r = o_buyer_pubky o /\
    rc_issuer_pubky r = o_seller_pubky o /\
    mkMoney (rc_total_minor r) (rc_currency r) (rc_exponent r) = receipt_money o;
  cf_first : forall k x, receipts db !! k = Some x -> rc_order_id x <> o_id o;
  cf_units : units_sold (o_lines o) db db';
}.

(** The row of an order that was confirmed fits the invariant. *)
Lemma inv_confirmed db o o' :
  books_off (fun L => - order_hold L o) db -> drops_ok now db -> orders_wf db ->
  (forall id o, orders db !! id = Some o -> modern o) -> orders db !! o_id o = Some o ->
  o_id o' = o_id o -> map asks (o_lines o') = map asks (o_lines o) ->
  o_auction_aggregate_id o' = o_auction_aggregate_id o -> o_stock_held o' = false ->
  order_wf o' -> (forall k p, payments db !! k = Some p -> p_id p = k) ->
  o_seller_pubky o' = o_seller_pubky o -> offers_wf db ->
  inv now (upd orders (<[o_id o := o']>) db).
Proof.
  intros Hb Hok Hwf Hm Ho Hid Hl Ha Hh Hw' Hpay Hsel Hoff. split; [| | | |exact Hpay|exact Hoff].
  - by eapply books_settle_alike.
  - intros k x Hx. change ((<[o_id o:=o']> (orders db)) !! k = Some x) in Hx.
    apply lookup_insert_Some in Hx as [[<- <-]|[Hne Hx]]; [|by apply Hwf].
    split; [done|]. split; [done|]. eapply attestable_asks; [exact Hsel|exact Hl|]. by apply (Hwf _ _ Ho).
  - intros k x Hx. change ((<[o_id o:=o']> (orders db)) !! k = Some x) in Hx.
    apply lookup_insert_Some in Hx as [[<- <-]|[Hne Hx]]; [|by eapply Hm].
    intros Hh'. congruence.
  - by eapply drops_ok_same; [..|exact Hok].
Qed.

(** The guards, the edition and the sale of the lines. *)
Lemma wp_confirm_stock {A} (k : option Z -> H A) Q db o actor command_id :
  books db -> drops_ok now db -> orders db !! o_id o = Some o ->
  (forall edition db3, books_off (fun L => - order_hold L o) db3 -> drops_ok now db3 ->
     orders db3 = orders db -> receipts db3 = receipts db -> payments db3 = payments db ->
     offers db3 = offers db -> units_sold (o_lines o) db db3 ->
     (is_Some edition <-> is_Some (o_drop_aggregate_id o)) -> wp (k edition) Q any_refusal db3) ->
  wp (do* confirm_guards o now in
      let* edition := assign_edition o actor command_id now in
      do* for_each (o_lines o) (sell_line now) in
      k edition) Q any_refusal db.
Proof.
  intros Hb Hok Ho Hk. apply wp_bind. eapply wp_mono; [by apply wp_confirm_guards| |done].
  intros [] db1 (Hb1 & Hok1 & Eo1 & El1 & Er1 & Ep1 & Ef1). apply wp_bind.
  eapply wp_mono; [by apply wp_assign_edition| |done].
  intros edition db2 (Hok2 & [El2 Ers2 Eo2 Ep2 Er2 _ _ Ef2] & Hed). apply wp_bind.
  pose proof (books_same _ _ _ El2 Eo2 Ers2 Hb1) as Hb2.
  assert (Ho2 : orders db2 !! o_id o = Some o) by (by rewrite Eo2, Eo1).
  eapply wp_mono;
    [exact (wp_Done_and _ _ _ _ _ (wp_sell_lines now _ db2 (o_id o) o Hb2 Ho2)
              (fun a s => sell_lines_Done _ _ a s))| |done].
  intros [] db3 [[Hb3 Hf3] Hsold]. destruct (listings_only_frame _ _ Hf3) as [Eo3 _].
  unfold listings_only in Hf3. apply Hk.
  - eapply books_ext; [|exact Hb3]. intros L. unfold minus_units. lia.
  - eapply drops_ok_same; [..|exact Hok2]; by rewrite Hf3.
  - congruence.
  - transitivity (receipts db2); [by rewrite Hf3|congruence].
  - transitivity (payments db2); [by rewrite Hf3|congruence].
  - transitivity (offers db2); [by rewrite Hf3|congruence].
  - intros L l Hl. apply Hsold. by rewrite El2, El1.
  - exact Hed.
Qed.

Lemma wp_confirm_order db o actor command_id payment keys :
  inv now db -> orders db !! o_id o = Some o ->
  wp (confirm_order actor command_id payment o keys now)
    (fun '(o', r, _) db' => inv now db' /\ confirmation o o' payment r db db') any_refusal db.
Proof.
  intros [Hb Hwf Hm Hok Hpay Hoff] Ho. unfold confirm_order. apply wp_confirm_stock; [done..|].
  intros edition db3 Hb3 Hok3 Eo3 Er3 Ep3 Ef3 Hsold Hed. apply wp_bind.
  eapply wp_mono; [apply wp_issue_receipt| |done].
  intros r db4 (Hf4 & Hr4 & Hro & Hrp & Hrb & Hrs & Hrm & Hfirst). apply wp_bind.
  eapply wp_mono; [apply wp_pin_terms| |done].
  intros lines db5 (Hasks & Hf5 & Er5). do 2 wp_step.
  assert (Hf : inv_frame db3 db5) by (by etransitivity). destruct (inv_frame_off _ _ _ _ Hf Hb3 Hok3).
  destruct Hf as [(El5 & Eo5 & _) _ Ep5 Ef5]. assert (v = o) as -> by congruence.
  set (o' := confirm_row _ _ _ _ _ _) in *.
  assert (Hinv : inv now (upd orders (<[o_id o := o']>) db5)).
  { apply inv_confirmed; try done; rewrite ?Eo5, ?Eo3; try done.
    - intros k x. rewrite Eo5, Eo3. apply Hwf.
    - split; intros Hs; exfalso; revert Hs; simpl; destruct (_ && _); discriminate.
    - eapply payments_kept; [exact Ep5|]. by rewrite Ep3.
    - unfold offers_wf. by rewrite Ef5, Ef3. }
  assert (Hconf : confirmation o o' payment r db (upd orders (<[o_id o := o']>) db5)).
  { split.
    - change (<[o_id o:=o']> (orders db5) = <[o_id o:=o']> (orders db)). congruence.
    - exists edition, lines. done.
    - change (receipts (upd orders _ db5)) with (receipts db5). by rewrite Er5.
    - intros k x Hx. rewrite <- Er3 in Hx. by destruct (Hfirst k x Hx).
    - intros L l Hl. change (listings (upd orders _ db5)) with (listings db5). rewrite El5.
      by apply Hsold. }
  apply wp_bind, wp_insert_event. intros e _ _. apply wp_bind.
  unfold insert_notification_intent, enqueue.
  wp_step; repeat wp_step; (split; [eapply inv_frame_inv; [|exact Hinv]; by repeat split|]);
    destruct Hconf; by split.
Qed.

Lemma confirm_order_payable db o actor command_id payment keys out db' :
  confirm_order actor command_id payment o keys now db = Done out db' -> payable o db.
Proof. unfold confirm_order. intros E. apply bind_Done in E as ([] & db1 & E & _). by eapply confirm_guards_payable. Qed.

(** ** The refund route *)

Lemma wp_internal_failure {A} (m : H A) Q db :
  wp m Q any_refusal db -> wp (internal_failure m) Q any_refusal db.
Proof.
  intros Hw. unfold internal_failure. apply wp_bind, wp_attempt.
  eapply wp_mono; [exact Hw| |]; intros; cbn beta; by wp_step.
Qed.

Lemma wp_stamp_review_reason payment reason target cid actor db :
  wp (stamp_review_reason payment reason target cid actor now) (fun _ => inv_frame db)
    any_refusal db.
Proof.
  unfold stamp_review_reason. wp_step. wp_step.
  - apply wp_insert_event. intros e _ _. split; [by repeat split..| |done]. by eapply payment_key_put.
  - by wp_step.
Qed.

Lemma stock_internal_failure {A} (m : H A) : stock_step m -> stock_step (internal_failure m).
Proof.
  intros Hm. apply stock_step_bind; [by apply stock_step_attempt|]. intros []; stock_leaf.
Qed.

Definition release_undeliverable (o : OrderRow) : H unit :=
  if o_stock_held o && bool_decide (o_auction_aggregate_id o = None) then
    do* internal_failure (credit_order_drop o now) in
    internal_failure (release_lines o HReserved now)
  else ret tt.

Lemma wp_release_undeliverable db o :
  books db -> drops_ok now db -> orders db !! o_id o = Some o ->
  wp (release_undeliverable o)
    (fun _ db' => (released o db db' /\ drops_ok now db') /\
       (payments db' = payments db /\ offers db' = offers db)) any_refusal db.
Proof.
  intros Hb Hok Ho. unfold release_undeliverable. apply wp_both.
  - destruct (o_stock_held o) eqn:Hh; simpl.
    + destruct (bk_order _ _ Hb _ _ Ho) as (_ & _ & Hheld & _). destruct (Hheld Hh) as [_ Ha].
      rewrite bool_decide_true by done. apply wp_bind, wp_internal_failure.
      assert (0 <= order_units o) by (by eapply stored_units).
      eapply wp_mono; [apply wp_both; [by apply wp_drops_credit_order|]| |done].
      { eapply wp_mono; [apply wp_credit_order_drop_frame|intros ? ? Hf; exact Hf|done]. }
      intros [] db1 [[Hok1 _] Hf1]. apply wp_internal_failure, wp_both;
        [|by apply wp_drops_release_lines].
      eapply wp_mono; [apply (wp_release_held db1 o now); [|by destruct Hf1 as (_ & -> & _)|done]
                      |intros ? db2; by apply released_frame|done].
      by eapply books_frame_books.
    + wp_step. split; [|done]. split; [|done]. eapply books_ext; [|exact Hb].
      intros L. unfold order_hold. rewrite Hh. lia.
  - eapply wp_mono with (Q' := fun _ => stock_only db) (R' := any_refusal);
      [|intros ? ? Hs; split; [by apply stock_only_payments|by apply stock_only_offers]|done].
    eapply wp_mono; [|intros ? ? Hq; exact Hq|done].
    destruct (_ && _); [|stock_leaf].
    apply stock_step_bind; intros; apply stock_internal_failure; auto with stock.
Qed.

Lemma wp_cancel_undeliverable db o reason cid actor :
  inv now db -> orders db !! o_id o = Some o -> o_state o = OPendingPayment ->
  wp (cancel_undeliverable o reason cid actor now)
    (fun _ db' => inv now db' /\ is_Some (orders db' !! o_id o) /\ payments db' = payments db)
    any_refusal db.
Proof.
  intros [Hb Hwf Hm Hok Hpay Hoff] Ho Hs. apply wp_bind.
  eapply wp_mono; [by apply wp_release_undeliverable| |done].
  intros [] db1 [[[Hb1 Eo1] Hok1] [Ep1 Ef1]]. do 2 wp_step.
  - assert (v = o) as -> by congruence. wp_step. apply wp_insert_event. intros e _ _. wp_step.
    unfold orders_wf in Hwf. rewrite <- Eo1 in Ho, Hm, Hwf. rewrite <- Ep1 in Hpay.
    set (o' := cancel_row _ _ _ _) in *.
    split; [|split; [by exists o'; apply (lookup_insert_eq (orders db1))|exact Ep1]].
    eapply inv_frame_inv; [|apply (inv_confirmed db1 o o'); try done; unfold offers_wf; by rewrite Ef1].
    by repeat split.
  - rewrite <- Eo1 in Ho. no_row Ho. by rewrite Hs in *.
Qed.

Lemma wp_refund_required db o reason cid actor payment :
  inv now db -> orders db !! o_id o = Some o ->
  wp (refund_required payment o reason cid actor now)
    (fun _ db' => inv now db' /\ is_Some (orders db' !! o_id o) /\
       payment_key <$> payments db' = payment_key <$> payments db) any_refusal db.
Proof.
  intros Hinv Ho. unfold refund_required. apply wp_bind.
  eapply wp_mono; [apply wp_stamp_review_reason| |done].
  intros ev db1 Hf1. pose proof (inv_frame_inv _ _ _ Hf1 Hinv) as Hinv1.
  destruct Hf1 as [(_ & Eo1 & _) _ Ep1 _]. apply wp_bind.
  eapply wp_mono with (R' := any_refusal) (Q' := fun _ db' => inv now db' /\
    is_Some (orders db' !! o_id o) /\ payments db' = payments db1); [| |done].
  { wp_step; [|wp_step; rewrite Eo1, Ho; by eauto]. reflect_bools.
    apply wp_cancel_undeliverable; [done|by rewrite Eo1|done]. }
  intros [] db2 (Hinv2 & [o2 Ho2] & Ep2).
  unfold insert_notification_intent, enqueue. cbn [for_each]. repeat wp_step.
  split; [|split; [by exists o2|by rewrite <- Ep1, <- Ep2]].
  eapply inv_frame_inv; [|exact Hinv2]. by repeat split.
Qed.

Lemma wp_route_refund db o actor command payment :
  inv now db -> orders db !! o_id o = Some o -> p_order_id payment = o_id o ->
  payments db !! p_id payment = Some payment ->
  wp (route_refund actor command payment o now) (fun _ => inv now) any_refusal db.
Proof.
  intros Hinv Ho Hpo Hp. unfold route_refund, fetch_order_for_update. apply wp_bind.
  eapply wp_mono; [by apply wp_refund_required| |done].
  intros ev db1 (Hinv1 & [o1 Ho1] & Ep1). do 6 wp_step.
  assert (p_order_id a = o_id o) as Hao.
  { assert ((payment_key <$> payments db1) !! p_id payment = Some (payment_key payment)) as Hk
      by (by rewrite Ep1, lookup_fmap, Hp).
    rewrite lookup_fmap, H in Hk. injection Hk as _ Hk. congruence. }
  rewrite Hao, Ho1. by wp_step.
Qed.

(** ** [payment.sandbox_advance] *)

Lemma target_transition s t :
  target_allowed s t = true ->
  Machines.can_transition Machines.payment_machine (payment_state_str s)
    (payment_state_str (target_state t)) = true.
Proof. destruct s, t; try discriminate; reflexivity. Qed.

Lemma wp_load_payment db actor command payload :
  wp (load_payment actor command payload)
    (fun '(payment, o) db' => db' = db /\ payments db !! ap_payment_id payload = Some payment /\
       orders db !! p_order_id payment = Some o /\
       p_buyer_pubky payment = actor /\ p_adapter payment = "sandbox" /\
       c_expected_revision command = p_revision payment) any_refusal db.
Proof.
  unfold load_payment, fetch_order_for_update. do 14 wp_step. reflect_bools.
  apply wp_bind, wp_debug_assert; [by apply target_transition|]. do 7 wp_step. auto 8.
Qed.

(** The hold of a lock point keeps the invariant. *)
Lemma wp_inv_acquire db o window source :
  inv now db -> orders db !! o_id o = Some o ->
  wp (acquire_payment_hold o window source now)
    (fun o' db' => inv now db' /\ orders db' !! o_id o' = Some o' /\ armed o o' /\
       payments db' = payments db) any_refusal db.
Proof.
  intros [Hb Hwf Hm Hok Hpay Hoff] Ho. eapply wp_mono; [by apply wp_acquire_payment_hold| |done].
  intros o' db' (Hb' & Eo & Ha & Hfr).
  pose proof Ha as (Hid & Hlin & Hst & _ & _ & _ & _ & Hret & Hsel & Hmod & _).
  assert (Hrow : forall P : OrderRow -> Prop, P o' -> (forall k x, orders db !! k = Some x -> P x) ->
    forall k x, orders db' !! k = Some x -> P x).
  { intros P Ho' Hall k x Hx. rewrite Eo in Hx.
    apply lookup_insert_Some in Hx as [[_ <-]|[_ Hx]]; [done|by eapply Hall]. }
  split; [split|].
  - done.
  - intros k x Hx. rewrite Eo in Hx. apply lookup_insert_Some in Hx as [[<- <-]|[_ Hx]]; [|by apply Hwf].
    split; [done|]. destruct (Hwf _ _ Ho) as (_ & [? ?] & ?).
    unfold order_wf, return_in, attestable. by rewrite Hst, Hret, Hlin, Hsel.
  - apply Hrow; [|done]. apply Hmod. by eapply Hm.
  - eapply drops_ok_same; [..|exact Hok]; by rewrite Hfr.
  - by rewrite Hfr.
  - unfold offers_wf. by rewrite Hfr.
  - split; [by rewrite Eo, Hid, lookup_insert_eq|]. split; [done|by rewrite Hfr].
Qed.

(** A payment advance: the payment row moves, and a confirmation confirms. *)
Lemma wp_apply_advance db o actor command payload keys payment :
  inv now db -> orders db !! o_id o = Some o -> payments db !! p_id payment = Some payment ->
  0 <= ap_confirmations payload <= 6 ->
  wp (apply_advance actor command payload keys payment o now) (fun _ => inv now) any_refusal db.
Proof.
  intros Hinv Ho Hp Hc. unfold apply_advance. apply wp_bind, wp_expect_i32; [lia|].
  do 2 wp_step. assert (v = payment) as -> by congruence.
  apply wp_bind, wp_insert_event. intros e _ _.
  match goal with |- wp _ _ _ ?db1 => assert (Hinv1 : inv now db1) end.
  { eapply inv_frame_inv; [|exact Hinv]. split; [by repeat split..| |done]. by eapply payment_key_put. }
  wp_step; [|by wp_step]. apply wp_bind.
  eapply wp_mono; [apply wp_confirm_order; [exact Hinv1|exact Ho]| |done].
  intros [[o' r] ev] db' [Hinv' _]. unfold insert_notification_intent, enqueue. do 3 wp_step.
  eapply inv_frame_inv; [|exact Hinv']. by repeat split.
Qed.

Lemma wp_inv_advance db actor command payload window keys :
  inv now db -> 0 <= ap_confirmations payload <= 6 ->
  wp (advance actor command payload window keys now) (fun _ => inv now) any_refusal db.
Proof.
  intros Hinv Hc. unfold advance. apply wp_bind. eapply wp_mono; [apply wp_load_payment| |done].
  intros [payment o] ? (-> & Hp & Ho & _). rewrite <- (inv_payments _ _ Hinv _ _ Hp) in Hp.
  assert (Hid : o_id o = p_order_id payment) by (by apply (inv_orders _ _ Hinv) in Ho as [? _]).
  rewrite <- Hid in Ho. apply wp_bind.
  eapply wp_mono with (R' := any_refusal) (Q' := fun o' db' => inv now db' /\
    orders db' !! o_id o' = Some o' /\ o_id o' = o_id o /\ payments db' = payments db); [| |done].
  { wp_step; [|by wp_step]. eapply wp_mono; [by apply wp_inv_acquire| |done].
    intros o' db' (? & ? & (? & _) & ?). done. }
  intros o' db' (Hinv' & Ho' & Hid' & Ep). apply wp_bind.
  eapply wp_mono with (R' := any_refusal) (Q' := fun _ => eq db');
    [unfold unpinnable; by repeat wp_step| |done].
  intros u ? <-. wp_step.
  - apply wp_route_refund; [done|done|congruence|congruence].
  - apply wp_apply_advance; [done|done|congruence|done].
Qed.
End Payment.
