(* ===== verification/LateMoneyContract.v ===== *)
(** * What late money does ([bitcoin_review.rs] [apply_late_money])

    Each of the three outcomes with what it leaves behind, and a defect: the
    units a failed attempt took back stay reserved for nobody. *)

From S2P Require Import Prelude StateMachines Domain Json Seal Store Commands Actions Text.
From S2P Require Import LocksKeys Drops Holds Pickup DigitalManual Cancellation Payment Locks.
From S2P Require Import ListingDeletion Within Executor Samples Outbox LateMoney.
From S2P Require Import BitcoinReview LocksVerification ReviewContract Ledger PaymentBooks.

(** A transaction that leaves some tables alone, statement by statement. *)
Ltac papers_run :=
  repeat (cbn beta zeta;
          first [solve [auto with same]|apply within_internally|
                 within_step ltac:(intros; reflexivity)]).

Section LateMoney.
Context {crate : UuidCrate}.

Lemma insert_event_Done cid agg rev actor kind now db id db' :
  insert_event cid agg rev actor kind now db = Done id db' ->
  exists e, id = e_id e /\ db' = upd events (fun l => l ++ [e]) (upd draws N.succ db).
Proof.
  intros E. refine (wp_Done _ (fun id db' => exists e, id = e_id e /\
    db' = upd events (fun l => l ++ [e]) (upd draws N.succ db)) any_refusal _ _ _ _ E).
  apply wp_insert_event. intros e _ _. by exists e.
Qed.

(** The payment as a review leaves it. *)
Definition in_review (reason : string) (now : Time) (p : PaymentRow) : PaymentRow :=
  p <| p_state := PManualReview |> <| p_revision := p_revision p + 1 |>
    <| p_review_reason := Some reason |> <| p_manual_review_entered_at := Some now |>
    <| p_updated_at := now |>.

Lemma stamp_review_Done payment reason cid actor now db ev db' :
  stamp_review_reason payment reason PManualReview cid actor now db = Done ev db' ->
  exists p, payments db !! p_id payment = Some p /\ p_state p <> PConfirmed /\
    p_resolution_outcome p = None /\
    payments db' = <[p_id payment := in_review reason now p]> (payments db) /\
    orders db' = orders db /\ receipts db' = receipts db /\ listings db' = listings db.
Proof.
  unfold stamp_review_reason. intros E. apply bind_Done in E as (cas & db1 & E1 & E).
  apply update_where_Done in E1. destruct cas as [w|]; [|discriminate].
  destruct E1 as (p & Hp & Hc & _ & -> & ->). reflect_bools. exists p. split; [done|].
  split; [by destruct (p_state p)|]. split; [done|].
  apply insert_event_Done in E as (e & _ & ->). done.
Qed.

(** The tables an outcome is read from. *)
Definition deal (db : Db) := (payments db, orders db, receipts db, listings db).

Lemma deal_notify_each event_id kind recipients actor agg now :
  within (same deal) (for_each recipients (fun recipient =>
    insert_notification_intent event_id kind recipient actor agg None now)).
Proof. unfold insert_notification_intent, enqueue. same_run. Qed.

(** Releasing a hold touches none of the papers of a sale. *)
Lemma papers_release o now :
  within (same (fun db => (payments db, orders db, receipts db)))
    (if o_stock_held o && bool_decide (o_auction_aggregate_id o = None) then
       do* internal_failure (credit_order_drop o now) in
       internal_failure (release_lines o HReserved now)
     else ret tt).
Proof.
  unfold internal_failure, credit_order_drop, credit_drop_release, fetch_drop_for_update,
    update_drop, release_lines, release_line, fetch_listing_for_update. same_run.
Qed.

(** The refund route, for an order that is not held. *)
Lemma refund_required_Done payment o reason cid actor now db ev db' :
  refund_required payment o reason cid actor now db = Done ev db' ->
  orders db !! o_id o = Some o ->
  (exists p, payments db !! p_id payment = Some p /\ p_resolution_outcome p = None /\
     payments db' = <[p_id payment := in_review "refund_required" now p]> (payments db)) /\
  receipts db' = receipts db /\
  exists o', orders db' = <[o_id o := o']> (orders db) /\
    o_state o' = (if bool_decide (o_state o = OPendingPayment) then OCancelled else o_state o) /\
    o_receipt_id o' = o_receipt_id o.
Proof.
  unfold refund_required. intros E Ho. apply bind_Done in E as (ev0 & db1 & E1 & E).
  apply stamp_review_Done in E1 as (p & Hp & _ & Hs & Ep1 & Eo1 & Er1 & _).
  apply bind_Done in E as ([] & db2 & E2 & E). apply bind_Done in E as ([] & db3 & E3 & E).
  injection E as _ <-. apply (within_Done _ _ _ _ _ (deal_notify_each _ _ _ _ _ _)) in E3.
  injection E3 as Ep3 Eo3 Er3 _.
  enough (payments db2 = payments db1 /\ receipts db2 = receipts db1 /\
    exists o', orders db2 = <[o_id o := o']> (orders db1) /\
      o_state o' = (if bool_decide (o_state o = OPendingPayment) then OCancelled else o_state o) /\
      o_receipt_id o' = o_receipt_id o) as (Ep2 & Er2 & o' & Eo2 & Hst & Hrc).
  { split; [exists p; split; [done|split; [done|congruence]]|]. split; [congruence|].
    exists o'. split; [congruence|done]. }
  destruct (bool_decide (o_state o = OPendingPayment)) eqn:Hpend.
  - unfold cancel_undeliverable in E2. apply bind_Done in E2 as ([] & db4 & E4 & E2).
    apply (within_Done _ _ _ _ _ (papers_release o now)) in E4. injection E4 as Ep4 Eo4 Er4.
    apply bind_Done in E2 as (cas & db5 & E5 & E2). apply update_where_Done in E5.
    destruct cas as [w|].
    + destruct E5 as (o0 & Ho0 & _ & _ & -> & ->). rewrite Eo4, Eo1, Ho in Ho0. injection Ho0 as <-.
      apply bind_Done in E2 as (ev2 & db6 & E6 & [= <-]). apply insert_event_Done in E6 as (e & _ & ->).
      split; [exact Ep4|]. split; [exact Er4|].
      exists (cancel_row OCancelled reason now (o <| o_revision := o_revision o + 1 |>)).
      split; [|split; reflexivity].
      change (<[o_id o := cancel_row OCancelled reason now (o <| o_revision := o_revision o + 1 |>)]>
                (orders db4) = <[o_id o := cancel_row OCancelled reason now
                                   (o <| o_revision := o_revision o + 1 |>)]> (orders db1)).
      by rewrite Eo4.
    + destruct E5 as [_ Hno]. rewrite Eo4, Eo1 in Hno. specialize (Hno _ Ho). congruence.
  - injection E2 as <-. split; [done|]. split; [done|]. exists o. split; [|done].
    by rewrite insert_id; [|rewrite Eo1].
Qed.

Definition papers (db : Db) := (payments db, orders db, receipts db).

Lemma papers_event cid agg rev actor kind now :
  within (same papers) (insert_event cid agg rev actor kind now).
Proof. unfold insert_event, fresh_uuid. same_run. Qed.
#[local] Hint Resolve papers_event : same.

(** Before its last statement, and whenever it is refused, taking the units
    back touches none of the papers. *)
Lemma reacquire_papers o now db :
  match reacquire_hold o now db with
  | Done _ db' => payments db' = payments db
  | Refused _ db' => papers db' = papers db
  | _ => True
  end.
Proof.
  unfold reacquire_hold.
  set (m1 := match o_drop_aggregate_id o with
             | Some k => reacquire_drop o k now | None => ret tt end).
  set (m2 := match o_auction_aggregate_id o with
             | Some k => reacquire_reservation o k now | None => ret tt end).
  assert (H1 : within (same papers) m1).
  { subst m1. unfold reacquire_drop, fetch_drop_for_update, fresh_uuid, apply_time_transitions,
      update_drop, deactivate_drop_listing_bindings. papers_run. }
  assert (H2 : within (same papers) m2) by (subst m2; unfold reacquire_reservation; papers_run).
  assert (H3 : within (same papers) (for_each (o_lines o) (reacquire_line (o_created_at o) now)))
    by (unfold reacquire_line; papers_run).
  clearbody m1 m2. unfold bind. specialize (H1 db). destruct (m1 db) as [[] db1|f db1|e|m]; [|done..].
  specialize (H2 db1). destruct (m2 db1) as [[] db2|f db2|e|m]; [|unfold same in *; congruence|done..].
  specialize (H3 db2). destruct (for_each _ _ db2) as [[] db3|f db3|e|m];
    [|unfold same in *; congruence|done..].
  assert (Hp : papers db3 = papers db) by (unfold same in *; congruence).
  injection Hp as Ep Eo Er. destruct (bool_decide _); [|done].
  unfold internally. destruct (update_where _ _ _ _ _ db3) as [v db4|f db4|e|m] eqn:E; [|done..].
  apply update_where_Done in E. destruct v as [v|]; [|by destruct E as [-> _]].
  by destruct E as (o0 & _ & _ & _ & -> & ->).
Qed.

(** ** The units *)

(** The units the lines ask for move between the columns of their listings,
    [a], [r] and [s] times into available, reserved and sold. *)
Definition units_moved (a r s : Z) (lines : list OrderLine) (db db' : Db) : Prop :=
  forall L l, listings db !! L = Some l -> exists l', listings db' !! L = Some l' /\
    l_total_quantity l' = l_total_quantity l /\
    l_available_quantity l' = l_available_quantity l + a * line_units L lines /\
    l_reserved_quantity l' = l_reserved_quantity l + r * line_units L lines /\
    l_sold_quantity l' = l_sold_quantity l + s * line_units L lines.

Lemma units_moved_same a r s db db' : same listings db db' -> units_moved a r s [] db db'.
Proof. intros E L l Hl. exists l. unfold same in E. rewrite E. split; [done|]. cbn. lia. Qed.

Lemma units_moved_app a r s l1 l2 db1 db2 db3 :
  units_moved a r s l1 db1 db2 -> units_moved a r s l2 db2 db3 -> units_moved a r s (l1 ++ l2) db1 db3.
Proof.
  intros H1 H2 L l Hl. destruct (H1 L l Hl) as (l' & Hl' & ? & ? & ? & ?).
  destruct (H2 L l' Hl') as (l'' & ? & ? & ? & ? & ?). exists l''. rewrite line_units_app.
  split; [done|]. lia.
Qed.

Lemma units_moved_trans a r s a' r' s' lines db1 db2 db3 :
  units_moved a r s lines db1 db2 -> units_moved a' r' s' lines db2 db3 ->
  units_moved (a + a') (r + r') (s + s') lines db1 db3.
Proof.
  intros H1 H2 L l Hl. destruct (H1 L l Hl) as (l' & Hl' & ? & ? & ? & ?).
  destruct (H2 L l' Hl') as (l'' & ? & ? & ? & ? & ?). exists l''. split; [done|]. lia.
Qed.

Lemma units_moved_framed a r s lines db1 db2 db3 db4 :
  same listings db1 db2 -> units_moved a r s lines db2 db3 -> same listings db3 db4 ->
  units_moved a r s lines db1 db4.
Proof. unfold same, units_moved. by intros <- H1 ->. Qed.

Lemma reacquire_line_Done created_at now x db db' :
  reacquire_line created_at now x db = Done tt db' -> units_moved (-1) 1 0 [x] db db'.
Proof.
  unfold reacquire_line. intros E. apply bind_Done in E as (v & db1 & E1 & E).
  apply refuse_if_Done in E as [Hv ->]. apply internally_Done, update_where_Done in E1.
  destruct v as [w|]; [|done]. destruct E1 as (l & Hl & _ & _ & -> & ->). intros L l0 Hl0.
  rewrite line_units_one. change (listings (upd listings ?f db)) with (f (listings db)). cbn beta.
  destruct (String.eqb_spec (ln_listing_aggregate_id x) L) as [<-|Hne].
  - rewrite lookup_insert_eq. rewrite Hl in Hl0. injection Hl0 as <-. eexists. split; [done|].
    unfold reserve_listing. simpl. lia.
  - rewrite lookup_insert_ne by done. exists l0. split; [done|]. lia.
Qed.

Lemma reacquire_lines_Done created_at now lines db u db' :
  for_each lines (reacquire_line created_at now) db = Done u db' -> units_moved (-1) 1 0 lines db db'.
Proof.
  revert db. induction lines as [|x lines IH]; intros db E.
  - injection E as <- <-. by apply units_moved_same.
  - apply bind_Done in E as ([] & db1 & E1 & E).
    apply (units_moved_app _ _ _ [x] lines db db1); [by eapply reacquire_line_Done|by apply IH].
Qed.

(** The units an order takes back were available and are reserved. *)
Lemma reacquire_units_Done o now db db' :
  reacquire_hold o now db = Done tt db' -> units_moved (-1) 1 0 (o_lines o) db db'.
Proof.
  unfold reacquire_hold. intros E. apply bind_Done in E as ([] & db1 & E1 & E).
  apply bind_Done in E as ([] & db2 & E2 & E). apply bind_Done in E as ([] & db3 & E3 & E).
  apply reacquire_lines_Done in E3. eapply units_moved_framed; [|exact E3|].
  - transitivity (listings db1).
    + eapply (within_Done (same listings)); [|exact E2].
      destruct (o_auction_aggregate_id o); unfold reacquire_reservation; papers_run.
    + eapply (within_Done (same listings)); [|exact E1].
      destruct (o_drop_aggregate_id o); unfold reacquire_drop, fetch_drop_for_update, apply_time_transitions,
        update_drop, deactivate_drop_listing_bindings, insert_event, fresh_uuid; papers_run.
  - eapply (within_Done (same listings)); [|exact E]. papers_run.
Qed.

(** The units of a confirmed order were reserved and are sold. *)
Lemma confirm_units_Done actor cid payment o keys now db o' r e db' :
  confirm_order actor cid payment o keys now db = Done (o', r, e) db' ->
  units_moved 0 (-1) 1 (o_lines o) db db'.
Proof.
  unfold confirm_order. intros E.
  apply bind_Done in E as ([] & db1 & E1 & E). apply bind_Done in E as (edition & db2 & E2 & E).
  apply bind_Done in E as ([] & db3 & E3 & E).
  assert (H1 : same listings db db1).
  { eapply (within_Done (same listings)); [|exact E1].
    unfold confirm_guards, unpinnable, flip_winning_reservation. papers_run. }
  assert (H2 : same listings db1 db2).
  { eapply (within_Done (same listings)); [|exact E2].
    unfold assign_edition, record_paid_unit, fetch_drop_for_update, apply_time_transitions, update_drop,
      deactivate_drop_listing_bindings, insert_notification_intent, enqueue, insert_event, fresh_uuid.
    papers_run. }
  assert (H3 : same listings db3 db').
  { eapply (within_Done (same listings)); [|exact E].
    unfold issue_receipt, pin_terms, pin_pickup_lines, pin_pickup_line, insert_pickup_pin, pin_digital_lines,
      pin_digital_line, insert_event, fresh_uuid, fresh_nonce, insert_notification_intent, enqueue. papers_run. }
  apply sell_lines_Done in E3. eapply units_moved_framed; [by etransitivity| |exact H3].
  intros L l Hl. destruct (E3 L l Hl) as (l' & ? & ? & ? & ? & ?). exists l'. split; [done|]. lia.
Qed.

(** What each outcome leaves behind. *)
Definition late_outcome (outcome : LateMoneyOutcome) (now : Time) (payment : PaymentRow)
    (o : OrderRow) (db db' : Db) : Prop :=
  match outcome with
  | LmCompleted =>
      payments db' = <[p_id payment := late_confirmed now payment]> (payments db) /\
      exists o' r, orders db' = <[o_id o := o']> (orders db) /\
        (o_state o' = OPaid \/ o_state o' = ODelivered) /\ o_receipt_id o' = Some r /\
        units_moved (-1) 0 1 (o_lines o) db db'
  | LmRefundRequired =>
      payments db' = <[p_id payment := in_review "refund_required" now payment]> (payments db) /\
      receipts db' = receipts db /\
      exists o', orders db' = <[o_id o := o']> (orders db) /\
        o_state o' = (if bool_decide (o_state o = OPendingPayment) then OCancelled else o_state o) /\
        o_receipt_id o' = o_receipt_id o
  | LmHeldLateSettlement =>
      o_state o = OPendingPayment /\ o_stock_held o = true /\
      payments db' = <[p_id payment := in_review "late_settlement" now payment]> (payments db) /\
      orders db' = orders db /\ receipts db' = receipts db /\ listings db' = listings db
  end.

Lemma complete_late_Done keys payment o cid actor now db db' :
  complete_late_order keys payment o cid actor now db = Done tt db' ->
  is_Some (orders db !! o_id o) ->
  (forall id x, orders db !! id = Some x -> o_id x = id) ->
  exists p, payments db !! p_id payment = Some p /\ p_resolution_outcome p = None /\
    payments db' = <[p_id payment := late_confirmed now p]> (payments db) /\
    exists o0 o' r, orders db !! o_id o = Some o0 /\ orders db' = <[o_id o := o']> (orders db) /\
      (o_state o' = OPaid \/ o_state o' = ODelivered) /\ o_receipt_id o' = Some r /\
      units_moved 0 (-1) 1 (o_lines o0) db db'.
Proof.
  unfold complete_late_order. intros E [o0 Ho0] Hid. apply bind_Done in E as (cas & db1 & E1 & E).
  apply internally_Done, update_where_Done in E1. destruct cas as [w|]; [|discriminate].
  destruct E1 as (p & Hp & Hc & _ & -> & ->). reflect_bools.
  apply bind_Done in E as (ev & db2 & E2 & E). apply internally_Done, insert_event_Done in E2.
  destruct E2 as (e & _ & ->). apply bind_Done in E as (row & db3 & E3 & E). injection E3 as <- <-.
  apply bind_Done in E as (o1 & db3 & E3 & E). apply or_fail_Done in E3 as [Ho1 ->].
  change (orders db !! o_id o = Some o1) in Ho1. rewrite Ho0 in Ho1. injection Ho1 as <-.
  apply bind_Done in E as ([[o' r] ev'] & db4 & E4 & E). apply internally_Done in E4.
  pose proof (within_Done (same payments) _ _ _ _ (kept_confirm_order payments ltac:(done) _ _ _ _ _ _) E4) as Ep4.
  pose proof (confirm_units_Done _ _ _ _ _ _ _ _ _ _ _ E4) as Hu.
  apply confirm_order_Done in E4 as [Eo4 (o2 & ed & lines & _ & ->)].
  assert (Hn : same deal db4 db').
  { eapply (within_Done (same deal)); [|exact E]. unfold insert_notification_intent, enqueue.
    papers_run. }
  injection Hn as Ep5 Eo5 _ El5. rewrite (Hid _ _ Ho0) in Eo4. exists p. split; [done|].
  split; [done|]. split; [rewrite Ep5; exact Ep4|].
  eexists o0, _, (rc_id r). split; [done|]. split; [rewrite Eo5; exact Eo4|].
  split; [cbn; destruct (_ && _); auto|]. split; [reflexivity|].
  eapply units_moved_framed; [|exact Hu|exact El5]. reflexivity.
Qed.

Lemma late_money_outcome_of keys payment o cid actor now db outcome db' :
  orders db !! o_id o = Some o -> payments db !! p_id payment = Some payment ->
  (forall id x, orders db !! id = Some x -> o_id x = id) ->
  apply_late_money keys payment o cid actor now db = Done outcome db' ->
  awaits_seller o = false /\ p_resolution_outcome payment = None /\
  late_outcome outcome now payment o db db'.
Proof.
  unfold apply_late_money. intros Ho Hp Hid E. destruct (awaits_seller o); [discriminate|].
  split; [done|]. apply bind_Done in E as (und & db1 & E1 & E). apply internally_Done in E1.
  assert (db1 = db) as -> by (by injection E1).
  assert (Hrefund : forall reason (db0 : Db), papers db0 = papers db ->
    (do* internally (refund_required payment o reason cid actor now) in ret LmRefundRequired) db0
      = Done outcome db' ->
    p_resolution_outcome payment = None /\ late_outcome outcome now payment o db db').
  { intros reason db0 E0 Er. injection E0 as Ep0 Eo0 Er0. apply bind_Done in Er as (ev & db2 & E2 & Er).
    apply internally_Done, refund_required_Done in E2; [|by rewrite Eo0]. injection Er as <- <-.
    destruct E2 as ((p & Hp2 & Ho2 & Ep2) & Er2 & o' & Eo2 & Hs & Hr).
    rewrite Ep0, Hp in Hp2. injection Hp2 as <-. split; [exact Ho2|].
    split; [congruence|]. split; [congruence|]. exists o'. split; [congruence|done]. }
  destruct und; [by eapply Hrefund|]. destruct (_ && _) eqn:Hheld.
  - reflect_bools. unfold hold_late_settlement in E. apply bind_Done in E as (ev & db2 & E2 & E).
    apply internally_Done, stamp_review_Done in E2 as (p & Hp2 & _ & Ho2 & Ep2 & Eo2 & Er2 & El2).
    rewrite Hp in Hp2. injection Hp2 as <-. split; [exact Ho2|].
    apply bind_Done in E as ([] & db3 & E3 & E). injection E as <- <-.
    assert (Hn : same deal db2 db3).
    { eapply (within_Done (same deal)); [|exact E3].
      unfold insert_bitcoin_manual_review_intent, enqueue. papers_run. }
    injection Hn as Ep3 Eo3 Er3 El3. repeat (split; [congruence|]). congruence.
  - apply bind_Done in E as (result & db2 & E2 & E). unfold attempt in E2.
    pose proof (reacquire_papers o now db) as Hpap.
    destruct (reacquire_hold o now db) as [[] dbx|f dbx| |] eqn:Er; simplify_eq.
    + destruct (reacquire_stock_Done _ _ _ _ Er Ho) as (o1 & Eox & Hid1 & Hl1).
      apply bind_Done in E as ([] & db3 & E3 & E). injection E as <- <-.
      apply complete_late_Done in E3.
      * destruct E3 as (p & Hp3 & Ho3 & Ep3 & o2 & o' & r & Ho2 & Eo3 & Hs & Hr & Hu). rewrite Hpap, Hp in Hp3.
        injection Hp3 as <-. split; [exact Ho3|]. split; [congruence|]. exists o', r.
        rewrite Eox, lookup_insert_eq in Ho2. injection Ho2 as <-. rewrite Hl1 in Hu.
        rewrite Eo3, Eox, insert_insert_eq. split; [done|]. split; [done|]. split; [done|].
        exact (units_moved_trans (-1) 1 0 0 (-1) 1 _ _ _ _ (reacquire_units_Done _ _ _ _ Er) Hu).
      * rewrite Eox, lookup_insert_eq. by eexists.
      * rewrite Eox. intros id x [[<- <-]|[_ Hx]]%lookup_insert_Some; [done|by apply Hid].
    + destruct f; try discriminate E. eapply (Hrefund _ db2); [by apply (f_equal3 (fun a b c => (a, b, c)))|exact E].
Qed.

(** C19. Late money ends in one of three ways.  Either the order takes its
    units back: for each of its listings exactly the units its lines ask for
    went from available to sold, with the reserved units as before, the order
    is paid (or delivered) with a receipt and its payment confirmed.  Or the
    payment waits for a refund, no receipt is issued and the order is not
    paid.  Or an order that still held its stock keeps it and its payment waits
    for the seller.  A payment that was already resolved and an order that
    waits for its seller's answer are never touched. *)
Theorem late_money_outcomes keys payment o cid actor now db outcome db' :
  orders db !! o_id o = Some o -> payments db !! p_id payment = Some payment ->
  (forall id x, orders db !! id = Some x -> o_id x = id) ->
  apply_late_money keys payment o cid actor now db = Done outcome db' ->
  awaits_seller o = false /\ p_resolution_outcome payment = None /\
  late_outcome outcome now payment o db db'.
Proof. apply late_money_outcome_of. Qed.

(** ** The units of a failed attempt *)

(** The lines before the first one that cannot be taken back keep what they
    took. *)
Lemma reacquire_stops created_at now pre y post db db1 :
  for_each pre (reacquire_line created_at now) db = Done tt db1 ->
  (forall l, listings db1 !! ln_listing_aggregate_id y = Some l -> l_available_quantity l < ln_quantity y) ->
  for_each (pre ++ y :: post) (reacquire_line created_at now) db = Refused RStockUnavailable db1.
Proof.
  intros Hpre Hy. revert db Hpre. induction pre as [|x pre IH]; intros db Hpre.
  - injection Hpre as <-. simpl. unfold bind, reacquire_line, internally, update_where, select, gets, bind, ret.
    destruct (listings db !! ln_listing_aggregate_id y) as [l|] eqn:Hl; [|done].
    assert (Hlt : (ln_quantity y <=? l_available_quantity l) = false) by (apply Z.leb_gt; auto).
    by rewrite Hlt.
  - apply bind_Done in Hpre as ([] & db2 & E1 & E). simpl. unfold bind. rewrite E1. by apply IH.
Qed.

(** What the refund of an order that is over leaves alone. *)
Definition stock (db : Db) := (listings db, orders db, reservations db).

Lemma refund_over_keeps payment o reason cid actor now :
  o_state o <> OPendingPayment -> within (same stock) (refund_required payment o reason cid actor now).
Proof.
  intros Hs. unfold refund_required. rewrite bool_decide_false by done.
  unfold stamp_review_reason, insert_event, fresh_uuid, insert_notification_intent, enqueue. same_run.
Qed.

(** Late money strands stock.  Take a cancelled order of physical goods,
    outside auctions and drops, whose lines are [pre ++ y :: post]: the units of
    [pre] can be taken back, those of [y] cannot any more.  Whenever the late
    payment of such an order commits, it asks for a refund; but for every
    listing the units [pre] asks for have gone from available to reserved,
    while what orders and reservations hold is as before: they are reserved
    for nobody. *)
Theorem late_money_strands_stock keys payment o cid actor now db pre y post db1 outcome db' :
  o_state o = OCancelled -> o_fulfillment o <> Digital ->
  o_auction_aggregate_id o = None -> o_drop_aggregate_id o = None ->
  o_lines o = pre ++ y :: post ->
  for_each pre (reacquire_line (o_created_at o) now) db = Done tt db1 ->
  (forall l, listings db1 !! ln_listing_aggregate_id y = Some l -> l_available_quantity l < ln_quantity y) ->
  apply_late_money keys payment o cid actor now db = Done outcome db' ->
  outcome = LmRefundRequired /\
  forall L, held db' L = held db L /\
    forall l, listings db !! L = Some l -> exists l', listings db' !! L = Some l' /\
      l_available_quantity l' = l_available_quantity l - line_units L pre /\
      l_reserved_quantity l' = l_reserved_quantity l + line_units L pre.
Proof.
  intros Hs Hf Ha Hd Hl Hpre Hy. unfold apply_late_money. destruct (awaits_seller o); [discriminate|].
  intros E. apply bind_Done in E as (und & db2 & E1 & E). apply internally_Done in E1.
  unfold unpinnable in E1. rewrite bool_decide_false in E1 by done. injection E1 as <- <-.
  rewrite bool_decide_false in E by congruence. simpl in E. unfold reacquire_hold in E.
  rewrite Ha, Hd, Hl in E. apply bind_Done in E as (result & db2 & E2 & E).
  unfold attempt, bind, ret in E2. rewrite (reacquire_stops _ _ _ _ _ _ _ Hpre Hy) in E2.
  injection E2 as <- <-. apply bind_Done in E as (ev & db3 & E3 & E). injection E as <- <-.
  apply internally_Done, (within_Done (same stock)) in E3; [|apply refund_over_keeps; congruence].
  assert (Hkept : same (fun db => (orders db, reservations db)) db db1).
  { eapply (within_Done (same _)); [|exact Hpre]. unfold reacquire_line. papers_run. }
  injection E3 as El Eo Er. injection Hkept as Eo1 Er1. split; [done|]. intros L. split.
  - unfold held, reservations_hold. by rewrite Eo, Er, Eo1, Er1.
  - intros l Hll. destruct (reacquire_lines_Done _ _ _ _ _ _ Hpre L l Hll) as (l' & Hl' & _ & H1 & H2 & _).
    exists l'. rewrite El. split; [done|]. lia.
Qed.
End LateMoney.

(** ** Samples *)

#[local] Existing Instance sample_crate.

(** A cancelled order of [alice] whose payment window is over. *)
Definition late_order (lines : list OrderLine) : OrderRow :=
  (sample_order 7 8 alice lines) <| o_state := OCancelled |>.

Definition late_payment : PaymentRow :=
  (sample_payment 8 7 alice 1000) <| p_adapter := "locks" |> <| p_state := PExpired |>.

Definition late_shelf (o : OrderRow) (shelf : list ListingRow) : Db :=
  with_payment late_payment (with_order o empty_db)
    <| listings := list_to_map (map (fun l => (l_aggregate_id l, l)) shelf) |>.

Definition one_vase : Db :=
  late_shelf (late_order [sample_line "vase" 1]) [sample_listing "vase" LAvailable 1 0 0].

Lemma one_vase_orders :
  orders one_vase = ({[7%N := late_order [sample_line "vase" 1]]} : gmap Uuid OrderRow).
Proof. reflexivity. Qed.

Lemma late_money_outcomes_witness :
  exists outcome db',
    apply_late_money sample_keys late_payment (late_order [sample_line "vase" 1]) 30 alice 50 one_vase
      = Done outcome db' /\ outcome = LmCompleted /\
    late_outcome outcome 50 late_payment (late_order [sample_line "vase" 1]) one_vase db'.
Proof.
  destruct (apply_late_money sample_keys late_payment (late_order [sample_line "vase" 1]) 30 alice 50
              one_vase) as [outcome db'|f s|e|m] eqn:E.
  2,3,4: exfalso; assert (Hd : ended (apply_late_money sample_keys late_payment
    (late_order [sample_line "vase" 1]) 30 alice 50 one_vase) = true) by (vm_compute; reflexivity);
    rewrite E in Hd; discriminate Hd.
  exists outcome, db'. split; [reflexivity|]. split.
  - assert (Ho : match apply_late_money sample_keys late_payment (late_order [sample_line "vase" 1])
                         30 alice 50 one_vase with Done LmCompleted _ => true | _ => false end = true)
      by (vm_compute; reflexivity). rewrite E in Ho. by destruct outcome.
  - apply (late_money_outcomes sample_keys late_payment (late_order [sample_line "vase" 1]) 30 alice 50
             one_vase outcome db'); [vm_compute; reflexivity..| |exact E].
    intros id x. rewrite one_vase_orders. intros [<- <-]%lookup_singleton_Some. reflexivity.
Defined.

(** A vase in stock and a lamp that is sold out. *)
Definition vase_and_lamp : Db :=
  late_shelf (late_order [sample_line "vase" 1; sample_line "lamp" 1])
    [sample_listing "vase" LAvailable 1 0 0; sample_listing "lamp" LSold 0 0 1].

Lemma late_money_strands_stock_witness :
  exists db' l', apply_late_money sample_keys late_payment
      (late_order [sample_line "vase" 1; sample_line "lamp" 1]) 30 alice 50 vase_and_lamp
      = Done LmRefundRequired db' /\
    held db' (listing_aggregate_id sally "vase") = 0 /\
    listings db' !! listing_aggregate_id sally "vase" = Some l' /\ l_reserved_quantity l' = 1.
Proof.
  set (o := late_order [sample_line "vase" 1; sample_line "lamp" 1]).
  destruct (for_each [sample_line "vase" 1] (reacquire_line (o_created_at o) 50) vase_and_lamp)
    as [[] db1| | |] eqn:E1; [|vm_compute in E1; discriminate E1..].
  destruct (apply_late_money sample_keys late_payment o 30 alice 50 vase_and_lamp) as [outcome db'| | |] eqn:E.
  2,3,4: exfalso; assert (Hd : ended (apply_late_money sample_keys late_payment o 30 alice 50 vase_and_lamp)
    = true) by (vm_compute; reflexivity); rewrite E in Hd; discriminate Hd.
  assert (Hy : forall l, listings db1 !! ln_listing_aggregate_id (sample_line "lamp" 1) = Some l ->
    l_available_quantity l < ln_quantity (sample_line "lamp" 1)).
  { intros l. vm_compute in E1. injection E1 as <-. vm_compute. intros [= <-]. reflexivity. }
  destruct (late_money_strands_stock sample_keys late_payment o 30 alice 50 vase_and_lamp [sample_line "vase" 1]
    (sample_line "lamp" 1) [] db1 outcome db' eq_refl ltac:(discriminate) eq_refl eq_refl eq_refl E1 Hy E)
    as [-> Hst].
  destruct (Hst (listing_aggregate_id sally "vase")) as [Hh Hl].
  destruct (Hl (sample_listing "vase" LAvailable 1 0 0) eq_refl) as (l' & Hl' & _ & Hr).
  exists db', l'. split; [reflexivity|]. split; [rewrite Hh; reflexivity|]. split; [exact Hl'|].
  rewrite Hr. reflexivity.
Defined.

(** ** What Locks verification does ([workers.rs])

    A payment moves only when the Lock Server reports its bundle completed,
    and then once; a row that fails does not stop the others. *)

Definition is_done (c : CorrelationRow) : Prop := cr_verification_state c <> VfPending.

Section Worker.
Context {crate : UuidCrate}.

(** Marking a correlation leaves the papers alone and ends its polling. *)
Lemma mark_completed_Done id outcome now db db' :
  mark_correlation_completed id outcome now db = Done tt db' ->
  papers db' = papers db /\
  forall c, locks_correlations db' !! id = Some c -> is_done c.
Proof.
  unfold mark_correlation_completed. intros E. apply bind_Done in E as (flipped & db1 & E1 & E).
  apply update_where_Done in E1. destruct flipped as [w|].
  - destruct E1 as (c & Hc & _ & _ & -> & ->). rewrite bool_decide_false in E by done.
    injection E as <-. split; [done|].
    intros c'. change (<[id := completed_correlation now c]> (locks_correlations db) !! id = Some c' -> is_done c').
    rewrite lookup_insert_eq. by intros [= <-].
  - destruct E1 as [-> Hno]. rewrite bool_decide_true in E by done. injection E as <-. split; [done|].
    intros c Hc. specialize (Hno c Hc). unfold pending_correlation in Hno. by reflect_bools.
Qed.

(** ** Lookups that are not completed *)

Lemma record_status_papers row s now : within (same papers) (record_status_observation row s now).
Proof. unfold record_status_observation, insert_observation. papers_run. Qed.

Lemma record_terminal_papers row s v now :
  within (same papers) (record_upstream_terminal row s v now).
Proof. unfold record_upstream_terminal, insert_observation. papers_run. Qed.

(** ** A payment that moves *)

(** From waiting or expired to confirmed, with a paid order and its receipt,
    or to the review. *)
Definition advanced (pid : Uuid) (db db' : Db) : Prop :=
  exists p p', payments db !! pid = Some p /\
    payments db' = <[pid := p']> (payments db) /\
    (p_state p = PAwaitingEntitlement \/ p_state p = PExpired) /\
    (p_state p' = PManualReview \/
     p_state p' = PConfirmed /\
     exists o r, orders db' !! p_order_id p = Some o /\
       (o_state o = OPaid \/ o_state o = ODelivered) /\ o_receipt_id o = Some r).

Lemma manual_review_Done row now db applied db' p :
  apply_manual_review row PAwaitingEntitlement now db = Done applied db' ->
  payments db !! cl_payment_id row = Some p -> p_state p = PAwaitingEntitlement ->
  applied = true /\ advanced (cl_payment_id row) db db' /\
  forall c, locks_correlations db' !! cl_id row = Some c -> is_done c.
Proof.
  unfold apply_manual_review. intros E Hp Hs. apply bind_Done in E as (u & db1 & E1 & E).
  apply update_where_Done in E1. destruct u as [w|].
  - destruct E1 as (p0 & Hp0 & _ & _ & -> & ->). rewrite Hp in Hp0. injection Hp0 as <-.
    apply bind_Done in E as ([] & db2 & E2 & E). apply bind_Done in E2 as (ev & db3 & E3 & [= <-]).
    apply insert_event_Done in E3 as (e & _ & ->). apply bind_Done in E as ([] & db4 & E4 & [= <- <-]).
    apply mark_completed_Done in E4 as [Ep Hd]. injection Ep as Ep _ _. split; [done|].
    split; [|exact Hd]. eexists p, _. split; [exact Hp|]. split; [exact Ep|]. split; [by left|by left].
  - destruct E1 as [_ Hno]. specialize (Hno _ Hp). by rewrite bool_decide_true in Hno.
Qed.

Lemma confirm_verified_Done row keys payment order now db db' :
  confirm_verified row keys payment order now db = Done tt db' ->
  payments db !! p_id payment = Some payment -> p_state payment = PAwaitingEntitlement ->
  o_id order = p_order_id payment ->
  advanced (p_id payment) db db' /\
  forall c, locks_correlations db' !! cl_id row = Some c -> is_done c.
Proof.
  unfold confirm_verified. intros E Hp Hs Hoid. apply bind_Done in E as ([[o' r] ev] & db1 & E1 & E).
  pose proof (within_Done (same payments) _ _ _ _ (kept_confirm_order payments ltac:(done) _ _ _ _ _ _) E1) as Ep1.
  apply confirm_order_Done in E1 as [Eo1 (o0 & ed & lines & _ & ->)].
  apply bind_Done in E as (p & db2 & E2 & E). apply update_one_Done in E2 as (p0 & Hp0 & _ & _ & -> & ->).
  unfold same in Ep1. rewrite Ep1, Hp in Hp0. injection Hp0 as <-.
  apply bind_Done in E as (ev2 & db3 & E3 & E). apply insert_event_Done in E3 as (e & _ & ->).
  apply bind_Done in E as ([] & db4 & E4 & E). injection E4 as <-.
  apply mark_completed_Done in E as [Ep Hd]. injection Ep as Ep Eo _. split; [|exact Hd].
  exists payment, (confirmed_payment now payment). split; [exact Hp|].
  split; [by rewrite Ep, Ep1|].
  split; [by left|]. right. split; [done|]. eexists _, (rc_id r). split.
  - rewrite Eo, Eo1, <- Hoid. apply lookup_insert_eq.
  - split; [|reflexivity]. cbn. destruct (_ && _); auto.
Qed.

Lemma completed_lifecycle_Done row keys now db applied db' :
  apply_completed_lifecycle row keys now db = Done applied db' ->
  (forall k p, payments db !! k = Some p -> p_id p = k) ->
  (forall id o, orders db !! id = Some o -> o_id o = id) ->
  (if applied then advanced (cl_payment_id row) db db' else papers db' = papers db) /\
  forall c, locks_correlations db' !! cl_id row = Some c -> is_done c.
Proof.
  unfold apply_completed_lifecycle. intros E Hk Hid. apply bind_Done in E as (found & db1 & [= <- <-] & E).
  apply bind_Done in E as (payment & db1 & E1 & E). apply or_fail_Done in E1 as [Hp ->].
  pose proof (Hk _ _ Hp) as Hpid.
  assert (Hidle : (do* mark_correlation_completed (cl_id row) "none" now in ret false) db
      = Done applied db' ->
    (if applied then advanced (cl_payment_id row) db db' else papers db' = papers db) /\
    forall c, locks_correlations db' !! cl_id row = Some c -> is_done c).
  { intros Em. apply bind_Done in Em as ([] & db2 & E2 & [= <- <-]). by apply mark_completed_Done in E2. }
  destruct (p_state payment) eqn:Hs; [|by apply Hidle|by apply Hidle| |by apply Hidle].
  - apply bind_Done in E as (found & db1 & [= <- <-] & E). apply bind_Done in E as (order & db1 & E1 & E).
    apply or_fail_Done in E1 as [Ho ->]. apply bind_Done in E as (result & db1 & E1 & E).
    unfold or_rolled_back in E1.
    destruct (confirm_verified row keys payment order now db) as [[] db2|f db2| |] eqn:Ec; simplify_eq.
    + injection E as <- <-. rewrite <- Hpid in *.
      eapply confirm_verified_Done; [exact Ec|done|done|by apply Hid].
    + eapply manual_review_Done in E as (-> & Ha & Hd); [|done|done]. done.
  - apply bind_Done in E as (found & db1 & [= <- <-] & E). apply bind_Done in E as (order & db1 & E1 & E).
    apply or_fail_Done in E1 as [Ho ->]. apply bind_Done in E as (outcome & db1 & E1 & E).
    unfold or_bail in E1.
    destruct (apply_late_money keys payment order (cl_id row) (p_buyer_pubky payment) now db)
      as [oc db2|f db2| |] eqn:El; simplify_eq.
    apply bind_Done in E as ([] & db3 & E3 & [= <- <-]). apply mark_completed_Done in E3 as [Epp Hd].
    injection Epp as Ep Eo _. split; [|exact Hd].
    pose proof (Hid _ _ Ho) as Hoid.
    apply late_money_outcome_of in El as (_ & _ & Hout); [|by rewrite Hoid|by rewrite Hpid|done].
    rewrite <- Hpid in *. destruct outcome; simpl in Hout.
    + destruct Hout as (Epx & o' & r & Eox & Hst & Hr & _). exists payment, (late_confirmed now payment).
      split; [done|]. split; [congruence|]. split; [by right|]. right. split; [done|].
      exists o', r. rewrite Eo, Eox, Hoid, lookup_insert_eq. done.
    + destruct Hout as (Epx & _). exists payment, (in_review "refund_required" now payment).
      split; [done|]. split; [congruence|]. split; [by right|by left].
    + destruct Hout as (_ & _ & Epx & _). exists payment, (in_review "late_settlement" now payment).
      split; [done|]. split; [congruence|]. split; [by right|by left].
Qed.

(** C20. Locks verification is sound.  Whatever the Lock Server answers for a
    claimed correlation, no other payment changes; the correlation's own
    payment changes only when the sealed bundle opens and its lookup is
    completed, and then exactly from waiting or expired to confirmed, with
    its order paid and its receipt issued, or to the review; and a completed
    lookup that was applied ends the polling of the correlation. *)
Theorem locks_outcome_sound lookup locks keys row now db applied db' :
  (forall k p, payments db !! k = Some p -> p_id p = k) ->
  (forall id o, orders db !! id = Some o -> o_id o = id) ->
  apply_locks_lookup_outcome lookup locks keys row now db = Done applied db' ->
  exists bundle, decrypt_bundle_id locks (cl_payment_id row) (cl_bundle_id_ciphertext row) = Some bundle /\
    if applied then
      lookup (cl_creator_pubky row) bundle = LookupStatus TaskCompleted /\
      advanced (cl_payment_id row) db db' /\
      forall c, locks_correlations db' !! cl_id row = Some c -> is_done c
    else papers db' = papers db.
Proof.
  unfold apply_locks_lookup_outcome. intros Hk Hid E. apply bind_Done in E as (bundle & db1 & E1 & E).
  apply or_fail_Done in E1 as [Hb ->]. exists bundle. split; [exact Hb|].
  assert (Hidle : forall m : H unit, within (same papers) m ->
    (do* m in ret false) db = Done applied db' -> applied = false /\ papers db' = papers db).
  { intros m Hm Em. apply bind_Done in Em as ([] & db2 & E2 & [= <- <-]).
    split; [done|]. exact (within_Done _ _ _ _ _ Hm E2). }
  destruct (lookup (cl_creator_pubky row) bundle) as [status| |] eqn:El; [destruct status|..];
    first [ by eapply completed_lifecycle_Done in E as [Ha Hd]; [destruct applied|..]
          | by eapply Hidle in E as [-> ?]; [|apply record_status_papers]
          | by eapply Hidle in E as [-> ?]; [|apply record_terminal_papers]
          | by injection E as <- <- ].
Qed.

(** Every claimed row is tried, whatever the others did. *)
Lemma verify_never_stalls lookup locks keys poll_seconds now db :
  (exists n db', verify_due_locks_lifecycles lookup locks keys poll_seconds now db = Done n db') \/
  (exists message, verify_due_locks_lifecycles lookup locks keys poll_seconds now db = Panicked message).
Proof.
  unfold verify_due_locks_lifecycles, claim_due_correlations, bind, gets, modify, ret.
  set (rows := omap _ _). set (db1 := upd _ _ db). clearbody rows db1.
  assert (Hm : (exists l db', map_each rows (fun row =>
      isolated (apply_locks_lookup_outcome lookup locks keys row now)) db1 = Done l db') \/
    exists message, map_each rows (fun row =>
      isolated (apply_locks_lookup_outcome lookup locks keys row now)) db1 = Panicked message).
  { revert db1. induction rows as [|row rows IH]; intros db1; [by left; eexists _, _|].
    cbn [map_each]. unfold bind, isolated at 1 3.
    destruct (apply_locks_lookup_outcome lookup locks keys row now db1) as [a db2|f db2|e|m];
      [destruct (IH db2) as [(l & db3 & ->)|[m ->]]|destruct (IH db1) as [(l & db3 & ->)|[m ->]]
      |destruct (IH db1) as [(l & db3 & ->)|[m ->]]|]; eauto. }
  destruct Hm as [(l & db' & ->)|[m ->]]; eauto.
Qed.
End Worker.

#[local] Existing Instance sample_crate.

(** A bundle of [alice]'s expired payment, completed at the Lock Server. *)
Definition claimed_vase : ClaimedCorrelation :=
  mkClaimed 30 8 sally (encrypt_bundle_id (lo_keys sample_locks) 0 8 "bundle") None.

Definition completed_vase : Outcome Db CommandFailure bool :=
  apply_locks_lookup_outcome (fun _ _ => LookupStatus TaskCompleted) (lo_keys sample_locks) sample_keys
    claimed_vase 50 one_vase.

Lemma locks_outcome_sound_witness :
  exists db', completed_vase = Done true db' /\ advanced 8 one_vase db'.
Proof.
  destruct completed_vase as [applied db'|f s|e|m] eqn:E.
  2,3,4: exfalso; assert (Hd : ended completed_vase = true) by (vm_compute; reflexivity);
    rewrite E in Hd; discriminate Hd.
  assert (applied = true) as ->.
  { assert (Ho : match completed_vase with Done b _ => b | _ => false end = true)
      by (vm_compute; reflexivity). by rewrite E in Ho. }
  exists db'. split; [reflexivity|].
  destruct (locks_outcome_sound (fun _ _ => LookupStatus TaskCompleted) (lo_keys sample_locks)
              sample_keys claimed_vase 50 one_vase true db') as (bundle & _ & _ & Ha & _); [..|exact E|exact Ha].
  - intros k p. change (payments one_vase) with ({[8%N := late_payment]} : gmap Uuid PaymentRow).
    intros [<- <-]%lookup_singleton_Some. reflexivity.
  - intros id x. rewrite one_vase_orders. intros [<- <-]%lookup_singleton_Some. reflexivity.
Defined.
