(* ===== verification/StockBooks.v ===== *)
(** * The books through reservations

    [inventory.reserve] and the expiry sweep keep the invariant: a
    reservation parks exactly the units it names, and its expiry returns
    them. *)

From stdpp Require Import sorting.
From S2P Require Import Prelude StateMachines Domain Store Commands Actions Drops Holds.
From S2P Require Import Cancellation Payment Auction Executor Samples DropBooks OrderActions.
From S2P Require Import Ledger Books PaymentBooks.

(** ** The drop a listing is bound to *)

Lemma first_binding_in l x : first_binding l = Some x -> In x l.
Proof.
  destruct l as [|y l]; [done|]. intros [= <-]. revert y.
  induction l as [|z l IH]; intros y; simpl; [by left|].
  destruct (binding_before y z).
  - destruct (IH y) as [E|Hin]; [by left|right; by right].
  - right. apply IH.
Qed.

Lemma wp_lock_bound_drop seller listing_id db :
  wp (lock_bound_drop seller listing_id)
    (fun bound db' => db' = db /\
       forall d, bound = Some d -> exists k, drops db !! k = Some d) any_refusal db.
Proof.
  apply wp_gets. split; [done|]. intros d Hd.
  destruct (listings db !! _) as [l|]; [|done]. cbv zeta in Hd.
  apply fmap_Some in Hd as ([b d'] & Hf & ->).
  apply first_binding_in, list_elem_of_In, list_elem_of_omap in Hf as ([[[k s] i] row] & _ & Hk).
  simpl in Hk. destruct (drops db !! k) as [d0|] eqn:Hd0; [|done]. injection Hk as <- <-.
  by exists k.
Qed.

(** Rewriting reservations and listings concerns the books alone. *)
Lemma inv_intro now db db' :
  inv now db -> books db' -> orders db' = orders db -> drops_ok now db' ->
  payment_key <$> payments db' = payment_key <$> payments db -> offers db' = offers db ->
  inv now db'.
Proof.
  intros [Hb Hwf Hm Hok Hpay Hoff] Hb' Eo Hok' Ep Ef.
  split; unfold orders_wf, offers_wf; rewrite ?Eo, ?Ef; try done.
  by eapply payments_kept.
Qed.

Section Stock.
Context {crate : UuidCrate} (now : Time).

(** ** [inventory.reserve] *)

Lemma wp_gate_reservation db actor command payload listing :
  inv now db ->
  wp (gate_reservation actor command payload listing now)
    (fun _ db' => drops_ok now db' /\ drops_only db db') any_refusal db.
Proof.
  intros Hinv. unfold gate_reservation. apply wp_bind.
  eapply wp_mono; [apply wp_lock_bound_drop| |done]. intros bound ? [-> Hbound].
  wp_step; [|wp_step; split; [by apply Hinv|done]]. destruct (Hbound _ eq_refl) as [k Hk].
  do 2 wp_step. apply wp_bind.
  eapply wp_mono; [apply (wp_enforce_drop_gate now db k); [by apply Hinv|done]| |done].
  intros d' db' (? & ? & _). by wp_step.
Qed.

Lemma live_Some row l : live row = Some l -> row = Some l /\ is_deleted l = false.
Proof. destruct row as [l0|]; simpl; [|done]. by destruct (is_deleted l0) eqn:E; intros [= <-]. Qed.

(** Units move from available to one new reservation. *)
Lemma books_reserve db L l r :
  books db -> listings db !! L = Some l -> l_sale_format l = FixedPrice ->
  reservations db !! r_id r = None -> r_status r = RActive -> r_listing_aggregate_id r = L ->
  0 < r_quantity r <= l_available_quantity l ->
  let l' := reserve_listing (state_after_reserve l (r_quantity r)) (r_quantity r) now l in
  listing_check l' = true ->
  books (upd reservations (<[r_id r := r]>) (upd listings (<[L := l']>) db)).
Proof.
  intros Hb Hl Hf Hnew Hs HL Hq l' Hc. destruct (bk_listing _ _ Hb _ _ Hl) as (Hid & Hwf & _).
  assert (Hrun : running_auction l = false).
  { unfold running_auction, parse_auction. by rewrite Hf. }
  assert (Hb1 := books_move_listing _ _ L l l' Hb Hl eq_refl
                   (reserve_listing_wf _ _ _ Hwf Hq Hrun Hc) eq_refl eq_refl).
  eapply books_ext; [|apply (books_put_reservation _ _ Hb1 (r_id r) r None); [done|lia|done| |]].
  - intros L'. unfold reservation_hold. rewrite bool_decide_true, HL by done. simpl.
    destruct (L =? L')%string; lia.
  - rewrite HL. exists l'. exact (lookup_insert_eq _ _ _).
  - intros L0 l0 H0 Hf0. change ((<[L:=l']> (listings db)) !! L0 = Some l0) in H0.
    unfold reservation_hold. rewrite bool_decide_true, HL by done. simpl.
    apply lookup_insert_Some in H0 as [[<- <-]|[Hne H0]]; [simpl in Hf0; congruence|].
    rewrite (proj2 (String.eqb_neq L L0) Hne).
    pose proof (bk_auction _ _ Hb L0 l0 H0 Hf0).
    change (reservations_hold (upd listings _ db) L0) with (reservations_hold db L0). lia.
Qed.

Lemma wp_inv_reserve db actor command payload :
  inv now db ->
  (forall l, listings db !! c_aggregate_id command = Some l -> l_sale_format l = FixedPrice) ->
  wp (Holds.handle actor command payload now) (fun _ => inv now) any_refusal db.
Proof.
  intros Hinv Hfix. unfold Holds.handle, fetch_live_listing, fetch_listing.
  do 12 wp_step. wp_step.
  eapply wp_mono; [by apply wp_gate_reservation| |done].
  intros bound db1 [Hok1 [El1 Er1 Eo1 Ep1 _ _ _ Ef1]]. do 2 wp_step. apply wp_bind.
  unfold reserve_cas, current_listing_revision. do 3 wp_step; [|by repeat wp_step].
  do 3 wp_step. apply wp_bind, wp_insert_event. intros e _ _. wp_step.
  rename select (live _ = Some _) into Hl. apply live_Some in Hl as [Hl _].
  rename select (listings db1 !! _ = Some _) into Hv. rewrite El1 in Hv.
  assert (v = a) as -> by congruence.
  rename select (reservation_check _ = true) into Hrc. unfold reservation_check in Hrc. simpl in Hrc.
  reflect_bools.
  pose proof (books_same _ _ _ El1 Eo1 Er1 (inv_books _ _ Hinv)) as Hb1. rewrite <- El1 in Hl.
  match goal with |- context [upd reservations (<[_ := ?r]>)] =>
    pose proof (books_reserve db1 _ _ r Hb1 Hl) as Hb2 end.
  eapply inv_intro; [exact Hinv| |exact Eo1|by eapply drops_ok_same; [..|exact Hok1]
                    |by rewrite <- Ep1|exact Ef1].
  eapply books_same; [..|apply Hb2]; try done. apply Hfix. by rewrite <- El1.
Qed.

(** ** The expiry sweep *)

(** What the sweep reads of a reservation never changes. *)
Definition claim (r : ReservationRow) : Uuid * string * string * Z * option string :=
  (r_id r, r_listing_aggregate_id r, r_buyer_pubky r, r_quantity r, r_drop_aggregate_id r).

Definition claimed (db : Db) (r : ReservationRow) : Prop :=
  (claim <$> reservations db) !! r_id r = Some (claim r).

(** An expired reservation frees its units in the books. *)
Lemma books_expire db r row t :
  books db -> reservations db !! r_id r = Some row -> claim row = claim r -> r_status row = RActive ->
  books_off (fun L => if (r_listing_aggregate_id r =? L)%string then r_quantity r else 0)
    (upd reservations (<[r_id r := row <| r_status := RExpired |> <| r_updated_at := t |>]>) db).
Proof.
  intros Hb Hr Hc Hs. injection Hc as Hid HL HB Hq Hd.
  destruct (bk_reservation _ _ Hb _ _ Hr) as [_ Hpos].
  assert (Hhold : forall L, reservation_hold L (row <| r_status := RExpired |> <| r_updated_at := t |>)
    - reservation_hold L row = - (if (r_listing_aggregate_id r =? L)%string then r_quantity r else 0)).
  { intros L. unfold reservation_hold. simpl. rewrite Hs, HL, Hq.
    simpl. destruct (_ =? L)%string; lia. }
  eapply books_ext; [|apply (books_put_reservation _ _ Hb (r_id r) _ (Some row)); try done].
  - intros L. cbn beta iota. rewrite Hhold. lia.
  - exact (bk_reserved _ _ Hb _ _ Hr).
  - intros L l Hl Hf. cbn beta iota. rewrite Hhold. pose proof (bk_auction _ _ Hb L l Hl Hf).
    rewrite <- Hq in *. destruct (_ =? L)%string; lia.
Qed.

Definition expired (r : ReservationRow) : ReservationRow :=
  r <| r_status := RExpired |> <| r_updated_at := now |>.

Lemma wp_expire_reservation db r :
  inv now db -> claimed db r ->
  wp (expire_reservation now r)
    (fun b db' => inv now db' /\ claim <$> reservations db' = claim <$> reservations db /\
       (reservations db !! r_id r = Some r -> r_status r = RActive ->
        b = true /\ reservations db' = <[r_id r := expired r]> (reservations db)))
    any_refusal db.
Proof.
  intros Hinv Hcl. unfold claimed in Hcl. rewrite lookup_fmap in Hcl.
  destruct (reservations db !! r_id r) as [row|] eqn:Hr; [|done].
  assert (Hc : claim row = claim r) by (apply (inj Some); exact Hcl).
  injection Hcl as _ _ _ Hq _.
  destruct (bk_reservation _ _ (inv_books _ _ Hinv) _ _ Hr) as [_ Hpos].
  unfold expire_reservation. do 2 wp_step.
  2:{ wp_step. split; [done|]. split; [done|]. intros [= <-] Hs. no_row Hr. done. }
  assert (v = row) as -> by congruence.
  reflect_bools. set (row' := upd r_updated_at _ _) in *.
  pose proof (books_expire db r row now (inv_books _ _ Hinv) Hr Hc ltac:(done)) as Hb1.
  set (db1 := upd reservations _ db) in *.
  apply wp_bind. eapply wp_mono with (R' := any_refusal)
    (Q' := fun _ db2 => drops_ok now db2 /\ drops_only db1 db2); [| |done].
  { assert (drops_ok now db1) by (by eapply drops_ok_same; [..|exact (inv_drops _ _ Hinv)]).
    wp_step; [|by wp_step]. apply wp_bind.
    eapply wp_mono; [apply (wp_credit_drop_release now); [done|lia]| |done].
    intros c db2 [Hcr Hf]. wp_step; [wp_step; auto|by wp_step]. }
  intros [] db2 [Hok2 [El2 Er2 Eo2 Ep2 _ _ _ Ef2]].
  pose proof (books_same _ _ _ El2 Eo2 Er2 Hb1) as Hb2. do 2 wp_step.
  apply wp_bind, wp_insert_event. intros e _ _. wp_step. reflect_bools.
  rename select (listings db2 !! _ = Some _) into Hl.
  destruct (bk_listing _ _ Hb2 _ _ Hl) as (_ & Hwf & _).
  assert (claim <$> reservations db2 = claim <$> reservations db) as Ecl.
  { rewrite Er2. change (claim <$> <[r_id r:=row']> (reservations db) = claim <$> reservations db).
    rewrite fmap_insert. apply insert_id. by rewrite lookup_fmap, Hr. }
  split; [|split; [exact Ecl|]].
  2:{ intros [= Erow] _. split; [done|].
      transitivity (reservations db2); [done|]. rewrite Er2. unfold db1, row', expired.
      by rewrite Erow. }
  eapply inv_intro; [exact Hinv| |exact Eo2
    |by eapply drops_ok_same; [..|exact Hok2]|by f_equal; exact Ep2|exact Ef2].
  eapply books_same; [..|eapply books_ext; [|eapply (books_move_listing _ _ _ _ _ Hb2 Hl)]];
    try reflexivity.
  - intros L. cbn beta. simpl. destruct (_ =? L)%string; lia.
  - apply release_listing_wf; [done|split; [lia|done]|done].
Qed.

Lemma due_claimed db r : In r (due_reservations now db) -> inv now db -> claimed db r.
Proof.
  intros Hr Hinv. unfold due_reservations in Hr.
  apply list_elem_of_In in Hr. rewrite merge_sort_Permutation in Hr.
  apply list_elem_of_In, filter_In in Hr as [Hr _].
  apply in_map_iff in Hr as ([k x] & <- & Hx). apply list_elem_of_In, elem_of_map_to_list in Hx.
  destruct (bk_reservation _ _ (inv_books _ _ Hinv) _ _ Hx) as [Hid _]. simpl in *. unfold claimed.
  by rewrite Hid, lookup_fmap, Hx.
Qed.

Lemma wp_inv_expire db :
  inv now db -> wp (expire_due_reservations now) (fun _ => inv now) any_refusal db.
Proof.
  intros Hinv. unfold expire_due_reservations. do 2 wp_step. apply wp_bind.
  pose (I := fun (rest : list ReservationRow) (_ : list bool) (db' : Db) =>
    inv now db' /\ claim <$> reservations db' = claim <$> reservations db /\
    forall r, In r rest -> claimed db r).
  eapply wp_mono; [apply (wp_map_each I any_refusal _ _ [])| |done].
  - split; [done|]. split; [done|]. intros r Hr. by apply due_claimed.
  - intros r rest done' db' (Hinv' & Ec & Hall).
    eapply wp_mono; [apply (wp_expire_reservation db' r)| |done]; [done| |].
    + unfold claimed. rewrite Ec. apply Hall. by left.
    + intros b db'' (? & ? & _). split; [done|]. split; [congruence|]. intros x Hx. apply Hall. by right.
  - intros flips db' [? _]. by wp_step.
Qed.
End Stock.

(** ** The books through auctions

    [auction.place_bid] moves no unit; [auction.close] turns the only unit of
    a sold auction into the winner's reservation and creates the winner's
    order and payment. *)

Section AuctionBooks.
Context {crate : UuidCrate} (now : Time).

Lemma represent_nonempty bid latest : represent bid latest <> [].
Proof. destruct latest as [|x l]; simpl; [done|]. by destruct (_ =? _)%string. Qed.

Lemma ranked_nonempty bids bid : ranked_bidder_maximums (bids ++ [bid]) <> [].
Proof.
  unfold ranked_bidder_maximums, representatives. rewrite fold_left_app. simpl. intros E.
  assert (Hp := merge_sort_Permutation ranks_before
                  (represent bid (fold_left (fun l b => represent b l) bids []))).
  rewrite E in Hp. apply Permutation_nil in Hp. by apply represent_nonempty in Hp.
Qed.

(** A running auction owns its only unit. *)
Lemma running_row d db L l a :
  books_off d db -> listings db !! L = Some l -> parse_auction l = Some a ->
  a_status a = AActive ->
  l_aggregate_id l = L /\ listing_wf l /\ running_auction l = true /\ l_sale_format l = Auction /\
  l_auction l = Some a /\ l_available_quantity l = 1 /\ l_total_quantity l = 1 /\
  l_reserved_quantity l = 0 /\ l_sold_quantity l = 0.
Proof.
  intros Hb Hl Hp Ha. destruct (bk_listing _ _ Hb L l Hl) as (? & Hwf & _).
  assert (Hr : running_auction l = true).
  { unfold running_auction. by rewrite Hp, bool_decide_true. }
  pose proof Hwf as (Hc & _ & _ & Hrun & _). destruct (Hrun Hr).
  assert (l_sale_format l = Auction /\ l_auction l = Some a) as [? ?].
  { unfold parse_auction in Hp. by destruct (l_sale_format l). }
  unfold listing_check in Hc. reflect_bools. do 7 (split; [done|]). lia.
Qed.

(** A row whose stock columns did not change. *)
Lemma books_touch_listing d db L l l' :
  books_off d db -> listings db !! L = Some l -> l_aggregate_id l' = L -> listing_wf l' ->
  l_sale_format l' = l_sale_format l -> (running_auction l' = true -> running_auction l = true) ->
  l_reserved_quantity l' = l_reserved_quantity l ->
  books_off d (upd listings (<[L := l']>) db).
Proof.
  intros Hb Hl Hid Hwf Hf Hr Hq.
  eapply books_ext; [|by apply (books_put_listing d db Hb L l l')].
  intros L'. cbn beta. rewrite Hq. destruct (_ =? _)%string; lia.
Qed.

Lemma wp_load_bid db actor command payload :
  wp (load_bid actor command payload now)
    (fun '(l, a) db' => db' = db /\ listings db !! c_aggregate_id command = Some l /\
       parse_auction l = Some a /\ a_status a = AActive /\
       a_starts_at a <= now < a_ends_at a) any_refusal db.
Proof.
  unfold load_bid, fetch_live_listing_for_update, fetch_listing_for_update, fetch_auction_reserve.
  do 14 wp_step. do 9 wp_step. reflect_bools.
  rename select (live _ = Some _) into Hl. apply live_Some in Hl as [Hl _]. auto 8.
Qed.

Lemma wp_inv_place_bid db actor command payload :
  inv now db ->
  wp (place_bid actor command payload now) (fun _ => inv now) any_refusal db.
Proof.
  intros Hinv. unfold place_bid. apply wp_bind. eapply wp_mono; [apply wp_load_bid| |done].
  intros [l a] ? (-> & Hl & Hp & Ha & _).
  destruct (running_row _ _ _ _ _ (inv_books _ _ Hinv) Hl Hp Ha)
    as (Hid & Hwf & Hrun & Hfmt & Hauc & Hav & Htot & Hres & Hsold).
  rewrite <- Hid in Hl. do 6 wp_step.
  match goal with |- context [ranked_bidder_maximums ?x] => set (ranked := ranked_bidder_maximums x) in * end.
  pose proof (ranked_nonempty (fetch_bids db (l_aggregate_id l))) as Hne.
  destruct ranked as [|leader rest] eqn:Er; [by edestruct Hne|].
  apply wp_bind. eapply wp_mono with (Q' := fun _ => inv_frame db) (R' := any_refusal);
    [wp_step; by repeat split| |done].
  intros _ db1 Hf1. pose proof (inv_frame_inv _ _ _ Hf1 Hinv) as Hinv1.
  destruct Hf1 as [(El1 & _ & _) _ _ _]. rewrite <- El1 in Hl. do 2 wp_step.
  assert (v = l) as -> by congruence.
  rename select (listing_check _ = true) into Hc. set (l' := upd l_updated_at _ _) in *.
  assert (Hinv2 : inv now (upd listings (<[l_aggregate_id l := l']>) db1)).
  { eapply inv_intro; [exact Hinv1| |done|by eapply drops_ok_same; [..|exact (inv_drops _ _ Hinv1)]|done|done].
    eapply books_touch_listing; [exact (inv_books _ _ Hinv1)|exact Hl|done| |done|done|done].
    destruct Hwf as (_ & ? & ? & _ & ?). do 3 (split; [done|]). by split. }
  apply wp_bind, wp_insert_event. intros e _ _.
  unfold notify_outbid, insert_notification_intent, enqueue.
  repeat wp_step; (eapply inv_frame_inv; [|exact Hinv2]; by repeat split).
Qed.

(** ** [auction.close] *)

(** A closed auction whose unit is not yet anybody's. *)
Definition unclaimed (L : string) (db : Db) : Prop :=
  books_off (fun L' => if (L =? L')%string then 1 else 0) db /\ reservations_hold db L <= 0 /\
  exists l, listings db !! L = Some l /\ running_auction l = false /\ l_sale_format l = Auction.

(** The winner's reservation takes the unit, the order asks for it. *)
Lemma books_winner db L r o :
  unclaimed L db -> reservations db !! r_id r = None -> r_status r = RActive ->
  r_listing_aggregate_id r = L -> r_quantity r = 1 ->
  orders db !! o_id o = None -> o_stock_held o = false -> o_auction_aggregate_id o = Some L ->
  (exists x, o_lines o = [x] /\ ln_listing_aggregate_id x = L /\ ln_quantity x = 1) ->
  books (upd orders (<[o_id o := o]>) (upd reservations (<[r_id r := r]>) db)).
Proof.
  intros (Hb & Hres & l & Hl & Hrun & Hfmt) Hnr Hs HL Hq Hno Hh Ha (x & Hx & HxL & Hxq).
  assert (Hhold : forall L', reservation_hold L' r = if (L =? L')%string then 1 else 0).
  { intros L'. unfold reservation_hold. rewrite Hs, HL, Hq. done. }
  assert (Hb1 : books (upd reservations (<[r_id r := r]>) db)).
  { eapply books_ext; [|apply (books_put_reservation _ _ Hb (r_id r) r None); [done|lia|done|by rewrite HL|]].
    - intros L'. cbn beta iota. rewrite Hhold. destruct (L =? L')%string; lia.
    - intros L0 l0 Hl0 Hf0. cbn beta iota. rewrite Hhold.
      destruct (String.eqb_spec L L0) as [<-|Hne].
      + assert (l0 = l) as -> by congruence. rewrite Hrun. lia.
      + pose proof (bk_auction _ _ Hb L0 l0 Hl0 Hf0). lia. }
  eapply books_ext; [|apply (books_put_order _ _ Hb1 (o_id o) o None); [done| |done]].
  - intros L'. cbn beta iota. unfold order_hold. rewrite Hh. lia.
  - split; [|split; [congruence|]].
    + intros y Hy. rewrite Hx in Hy. destruct Hy as [<-|[]]. split; [lia|]. rewrite HxL. by exists l.
    + intros L0 HL0. rewrite Ha in HL0. injection HL0 as <-. split.
      * intros L'. rewrite Hx, line_units_one, HxL, Hxq. done.
      * by exists l.
Qed.

Lemma wp_create_winner db L l a winner actor cid ev :
  unclaimed L db -> l_aggregate_id l = L ->
  l_aggregate_id l = listing_aggregate_id (l_seller_pubky l) (l_listing_id l) -> orders_wf db ->
  (forall id o, orders db !! id = Some o -> modern o) -> drops_ok now db ->
  (forall k p, payments db !! k = Some p -> p_id p = k) -> offers_wf db ->
  wp (create_winner l a winner actor cid ev now) (fun _ => inv now) any_refusal db.
Proof.
  intros Hun Hid Hform Hwf Hm Hok Hpay Hoff. unfold create_winner. do 2 wp_step.
  apply wp_bind, wp_fresh_uuid, wp_bind, wp_fresh_uuid. do 4 wp_step.
  apply wp_bind, wp_insert_event. intros e _ _.
  unfold insert_notification_intent, enqueue. do 3 wp_step.
  rename select (reservations _ !! _ = None) into Hnr.
  rename select (orders _ !! _ = None) into Hno.
  match goal with |- context [upd reservations (<[_ := ?r]>)] => set (r0 := r) in * end.
  match goal with |- context [upd orders (<[_ := ?o]>)] => set (o0 := o) in * end.
  match goal with |- context [upd payments (<[_ := ?p]>)] => set (p0 := p) in * end.
  assert (Hb : books (upd orders (<[o_id o0 := o0]>) (upd reservations (<[r_id r0 := r0]>) db))).
  { apply (books_winner db L); try done; [by rewrite <- Hid..|]. eexists. by rewrite <- Hid. }
  split.
  - by eapply books_same; [..|exact Hb].
  - intros k x Hx. change ((<[o_id o0:=o0]> (orders db)) !! k = Some x) in Hx.
    apply lookup_insert_Some in Hx as [[<- <-]|[_ Hx]]; [|by apply Hwf].
    do 2 (split; [done|]). do 3 eexists. split; [reflexivity|exact Hform].
  - intros k x Hx. change ((<[o_id o0:=o0]> (orders db)) !! k = Some x) in Hx.
    apply lookup_insert_Some in Hx as [[<- <-]|[_ Hx]]; [by intros [=]|by eapply Hm].
  - by eapply drops_ok_same; [..|exact Hok].
  - intros k x Hx. change ((<[p_id p0:=p0]> (payments db)) !! k = Some x) in Hx.
    apply lookup_insert_Some in Hx as [[<- <-]|[_ Hx]]; [done|by apply Hpay].
  - done.
Qed.

(** The listing an auction close leaves behind. *)
Lemma close_sold_listing db L l a closed :
  books db -> listings db !! L = Some l -> parse_auction l = Some a -> a_status a = AActive ->
  a_status closed = ASold -> let l' := close_listing closed LReserved 1 now l in
  listing_check l' = true -> unclaimed L (upd listings (<[L := l']>) db).
Proof.
  intros Hb Hl Hp Ha Hcl l' Hc.
  destruct (running_row _ _ _ _ _ Hb Hl Hp Ha) as (Hid & Hwf & Hrun & Hfmt & _ & Hav & Htot & Hres & Hsold).
  assert (Hrun' : running_auction l' = false).
  { unfold running_auction, parse_auction. simpl. by rewrite Hfmt, Hcl. }
  split; [|split].
  - eapply books_ext; [|apply (books_put_listing _ _ Hb L l l'); try done].
    + intros L'. simpl. rewrite Hres. destruct (L =? L')%string; lia.
    + split; [done|]. simpl. rewrite Hav. split; [split; [done|lia]|]. split; [done|split; [congruence|apply Hwf]].
  - pose proof (bk_auction _ _ Hb L l Hl Hfmt) as H0. by rewrite Hrun in H0.
  - exists l'. split; [exact (lookup_insert_eq _ _ _)|]. done.
Qed.

Lemma close_unsold_listing db L l a closed :
  books db -> listings db !! L = Some l -> parse_auction l = Some a -> a_status a = AActive ->
  a_status closed = AUnsold -> let l' := close_listing closed LAvailable 0 now l in
  listing_check l' = true -> books (upd listings (<[L := l']>) db).
Proof.
  intros Hb Hl Hp Ha Hcl l' Hc.
  destruct (running_row _ _ _ _ _ Hb Hl Hp Ha) as (Hid & Hwf & Hrun & Hfmt & _ & Hav & Htot & Hres & Hsold).
  assert (Hrun' : running_auction l' = false).
  { unfold running_auction, parse_auction. simpl. by rewrite Hfmt, Hcl. }
  eapply books_touch_listing; [exact Hb|exact Hl|done| |done|congruence|simpl; lia].
  split; [done|]. simpl. rewrite Hav. split; [split; [lia|done]|]. split; [done|split; [congruence|apply Hwf]].
Qed.
Lemma wp_notify_losers winner actor ev l price db :
  inv now db ->
  wp (notify_losers winner actor ev l price now) (fun _ => inv now) any_refusal db.
Proof.
  intros Hinv. unfold notify_losers. do 2 wp_step.
  apply (wp_for_each (fun _ => inv now)); [done|]. intros b _ db' Hinv'.
  unfold insert_notification_intent, enqueue. wp_step; wp_step; [done|].
  eapply inv_frame_inv; [|exact Hinv']. by repeat split.
Qed.

Lemma wp_inv_close_locked db l a actor cid :
  inv now db -> listings db !! l_aggregate_id l = Some l -> parse_auction l = Some a ->
  a_status a = AActive ->
  wp (close_locked_auction l a actor cid now) (fun _ => inv now) any_refusal db.
Proof.
  intros Hinv Hl Hp Ha. unfold close_locked_auction, fetch_auction_reserve. do 5 wp_step.
  eapply wp_mono with (Q' := fun _ => eq db) (R' := any_refusal); [by wp_step; wp_step| |done].
  intros satisfied ? <-.
  set (winner := if satisfied && negb (is_deleted l) then a_leader_pubky a else None).
  apply wp_bind, wp_debug_assert; [by destruct (bool_decide _)|]. do 2 wp_step.
  assert (v = l) as -> by congruence. rename select (listing_check _ = true) into Hc.
  apply wp_bind, wp_insert_event. intros e _ _. apply wp_bind.
  eapply wp_mono with (Q' := fun _ => inv now) (R' := any_refusal).
  - destruct winner as [w|] eqn:Ew.
    + apply wp_bind. eapply wp_mono; [|intros c db' Hc'; apply wp_ret; exact Hc'|done].
      assert (Hun := close_sold_listing db _ l a (a <| a_status := ASold |>)
                       (inv_books _ _ Hinv) Hl Hp Ha eq_refl Hc).
      destruct Hinv as [Hbk Hwf Hm Hok Hpay Hoff]. apply (wp_create_winner _ (l_aggregate_id l)); try done.
      * destruct Hun as (Hb & Hr & Hlst). split; [by eapply books_same; [..|exact Hb]|]. done.
      * by destruct (bk_listing _ _ Hbk _ _ Hl) as (_ & (_ & _ & _ & _ & ?) & _).
      * by eapply drops_ok_same; [..|exact Hok].
    + wp_step. eapply inv_intro; [exact Hinv| |done| |done|done].
      * eapply books_same; [..|exact (close_unsold_listing db _ l a (a <| a_status := AUnsold |>)
                       (inv_books _ _ Hinv) Hl Hp Ha eq_refl Hc)]; done.
      * by eapply drops_ok_same; [..|exact (inv_drops _ _ Hinv)].
  - intros created db' Hinv'. apply wp_bind.
    eapply wp_mono; [by apply wp_notify_losers|intros [] db'' ?; by wp_step|done].
  - done.
Qed.

Lemma wp_inv_close db actor command :
  inv now db -> wp (Auction.close actor command now) (fun _ => inv now) any_refusal db.
Proof.
  intros Hinv. unfold Auction.close, fetch_listing_for_update. do 12 wp_step. apply wp_bind.
  rename select (listings db !! _ = Some _) into Hl.
  rename select (_ = Some a0) into Hp.
  destruct (parse_auction a) as [au|] eqn:Hpa; [|discriminate].
  destruct (bool_decide (a_status au = AActive)) eqn:Hst; [|discriminate]. injection Hp as ->.
  reflect_bools. destruct (bk_listing _ _ (inv_books _ _ Hinv) _ _ Hl) as [Hid _].
  rewrite <- Hid in Hl.
  eapply wp_mono; [by apply wp_inv_close_locked|intros ? db' ?; by wp_step|done].
Qed.
End AuctionBooks.
