(* ===== verification/RegistrationBooks.v ===== *)
(** * The books through registration

    Registering, re-creating, healing and tombstoning a listing keep the
    accounting invariant: a new listing owes nothing, a registered one keeps
    its reserved and sold units. *)

From S2P Require Import LockResource Registration ListingDeletion ListingView Records Validation.
From S2P Require Import Prelude Domain Json StateMachines Store Commands Actions Drops Holds.
From S2P Require Import EventStream Cancellation Payment Auction Checkout Executor Samples DropBooks.
From S2P Require Import OrderActions Ledger Books PaymentBooks StockBooks.

(** ** New listings *)

Lemma line_units_absent db L lines :
  listings db !! L = None -> (forall x, In x lines -> line_ok db x) -> line_units L lines = 0.
Proof.
  intros HL Hok. induction lines as [|x lines IH]; [done|]. rewrite line_units_cons, IH.
  - destruct (String.eqb_spec (ln_listing_aggregate_id x) L) as [E|]; [|done].
    destruct (Hok x (or_introl eq_refl)) as (_ & l & Hl & _). by rewrite E, HL in Hl.
  - intros y Hy. apply Hok. by right.
Qed.

(** Nothing is owed on a listing that does not exist. *)
Lemma held_absent d db L : books_off d db -> listings db !! L = None -> held db L = 0.
Proof.
  intros Hb HL. unfold held, reservations_hold.
  rewrite (map_sum_ext (fun _ r => reservation_hold L r) (fun _ _ => 0)),
    (map_sum_ext (fun _ o => order_hold L o) (fun _ _ => 0)), !map_sum_zero; [done| |].
  - intros id o Ho. destruct (bk_order _ _ Hb id o Ho) as (_ & Hl & _). unfold order_hold.
    destruct (o_stock_held o); [|done]. by eapply line_units_absent.
  - intros id r Hr. destruct (bk_reserved _ _ Hb id r Hr) as [l Hl]. unfold reservation_hold.
    destruct (String.eqb_spec (r_listing_aggregate_id r) L) as [E|]; [|by rewrite andb_false_r].
    by rewrite E, HL in Hl.
Qed.

Lemma books_new_listing db L l :
  books db -> listings db !! L = None -> l_aggregate_id l = L -> listing_wf l ->
  l_reserved_quantity l = 0 -> books (upd listings (<[L := l]>) db).
Proof.
  intros Hb HL Hid Hwf Hr.
  assert (Hold : forall k v, listings db !! k = Some v ->
                   listings (upd listings (<[L := l]>) db) !! k = Some v).
  { intros k v Hk. change ((<[L:=l]> (listings db)) !! k = Some v).
    rewrite lookup_insert_ne; [done|]. congruence. }
  pose proof (held_absent _ _ _ Hb HL) as Hheld. split.
  - intros k v Hk. change ((<[L:=l]> (listings db)) !! k = Some v) in Hk.
    change (held (upd listings _ db) k) with (held db k).
    apply lookup_insert_Some in Hk as [[<- <-]|[_ Hk]]; [|exact (bk_listing _ _ Hb k v Hk)].
    split; [done|]. split; [done|]. rewrite Hr, Hheld. done.
  - intros id o Ho. destruct (bk_order _ _ Hb id o Ho) as (? & H1 & H2 & H3). split; [done|].
    split; [|split; [exact H2|]].
    + intros x Hx. destruct (H1 x Hx) as [? (v & Hv & ?)]. split; [done|]. exists v. eauto.
    + intros A HA. destruct (H3 A HA) as [? (v & Hv & ?)]. split; [done|]. exists v. eauto.
  - exact (bk_reservation _ _ Hb).
  - intros k v Hk Hf. change ((<[L:=l]> (listings db)) !! k = Some v) in Hk.
    change (reservations_hold (upd listings _ db) k) with (reservations_hold db k).
    apply lookup_insert_Some in Hk as [[<- <-]|[_ Hk]]; [|exact (bk_auction _ _ Hb k v Hk Hf)].
    enough (reservations_hold db L <= 0) by (destruct (running_auction l); lia).
    rewrite <- Hheld. unfold held.
    enough (0 <= map_sum (fun _ o => order_hold L o) (orders db)) by lia.
    apply map_sum_nonneg. intros. by eapply order_hold_nonneg.
  - intros id r Hr'. destruct (bk_reserved _ _ Hb id r Hr') as [v Hv]. exists v. by apply Hold.
Qed.

(** ** The triggers *)

(** A row as the triggers see it: everything but their two columns. *)
Definition untriggered (l : ListingRow) : ListingRow :=
  l <| l_revived_from_cursor := None |> <| l_record_epoch := 0 |>.

Lemma triggers_untouched db declared old new row :
  listings_deletion_guard db declared old new = inl row ->
  untriggered (listings_record_epoch old row) = untriggered new.
Proof.
  intros E. assert (Er : untriggered row = untriggered new).
  { unfold listings_deletion_guard in E. destruct (cursor_below _ _); [done|].
    destruct (is_deleted old && _).
    { injection E as <-. by destruct (cursor_below _ _). }
    destruct (_ && is_deleted new); [|by injection E as <-].
    destruct declared as [[authority epoch]|]; [|done].
    destruct (negb (authorized db authority)); [done|]. destruct (negb (_ =? _)); [done|].
    destruct (_ && _); [done|]. by injection E as <-. }
  rewrite <- Er. unfold listings_record_epoch. destruct (_ || _); [done|]. by destruct (negb _).
Qed.

Lemma wp_update_listing declared L cond f (Q : option ListingRow -> Db -> Prop) R db :
  (forall old row, listings db !! L = Some old -> cond old = true ->
     untriggered row = untriggered (f old) -> listing_check row = true ->
     Q (Some row) (upd listings (<[L := row]>) db)) ->
  ((forall old, listings db !! L = Some old -> cond old = false) -> Q None db) ->
  wp (update_listing declared L cond f) Q R db.
Proof.
  intros Hs Hn. unfold update_listing. do 2 wp_step. destruct (listings db !! L) as [old|] eqn:HL.
  - wp_step.
    + do 3 wp_step; [|wp_step]. do 3 wp_step. by eapply Hs; [..|eapply triggers_untouched|].
    + wp_step. apply Hn. intros ? [= <-]. done.
  - wp_step. apply Hn. intros ? [=].
Qed.

(** Rows that differ in the triggers' columns count the same. *)
Lemma untriggered_wf l l' : untriggered l = untriggered l' -> listing_wf l -> listing_wf l'.
Proof.
  intros E. destruct l, l'. unfold untriggered in E. cbn in E. injection E as ->; subst. done.
Qed.

(** The columns the books read. *)
Definition stock_columns (l : ListingRow) :=
  (l_aggregate_id l, l_seller_pubky l, l_listing_id l, l_state l, l_total_quantity l,
   l_available_quantity l, l_reserved_quantity l, (l_sale_format l, l_auction l)).

Lemma stock_columns_wf l l' :
  stock_columns l' = stock_columns l -> listing_check l' = true -> listing_wf l -> listing_wf l'.
Proof.
  intros [= E1 E2 E3 E4 E5 E6 E7 E8 E9] Hc (_ & Hw). split; [exact Hc|].
  unfold running_auction, parse_auction in *. by rewrite E1, E2, E3, E4, E5, E6, E7, E8, E9.
Qed.

Section Registration.
Context `{!UuidCrate, !JsonText, !Base32Crate} (now : Time).

(** A rewritten row that keeps stock, format and auction. *)
Lemma inv_touch_listing db L old new row :
  inv now db -> listings db !! L = Some old -> untriggered row = untriggered new ->
  l_aggregate_id new = L -> listing_wf new -> l_sale_format new = l_sale_format old ->
  (running_auction new = true -> running_auction old = true) ->
  l_reserved_quantity new = l_reserved_quantity old ->
  inv now (upd listings (<[L := row]>) db).
Proof.
  intros Hinv Hl Hu Hid Hwf Hf Hrun Hr.
  eapply inv_intro; [exact Hinv| |done|by eapply drops_ok_same; [..|exact (inv_drops _ _ Hinv)]|done|done].
  assert (Hs : forall B (p : ListingRow -> B), (forall l, p (untriggered l) = p l) -> p row = p new).
  { intros B p Hp. by rewrite <- Hp, Hu, Hp. }
  eapply books_touch_listing; [exact (inv_books _ _ Hinv)|exact Hl|..].
  - rewrite <- Hid. by apply (Hs _ l_aggregate_id).
  - by eapply untriggered_wf.
  - rewrite <- Hf. by apply (Hs _ l_sale_format).
  - intros E. apply Hrun. rewrite <- E. symmetry. by apply (Hs _ running_auction).
  - rewrite <- Hr. by apply (Hs _ l_reserved_quantity).
Qed.

(** A revival changes no stock, format or auction column. *)
Lemma revived_same l :
  let r := revived now l in
  l_aggregate_id r = l_aggregate_id l /\ l_seller_pubky r = l_seller_pubky l /\
  l_listing_id r = l_listing_id l /\ l_reserved_quantity r = l_reserved_quantity l /\
  l_sold_quantity r = l_sold_quantity l.
Proof. unfold revived. by destruct (is_deleted l). Qed.

Lemma registered_state_wf q c :
  0 <= c <= q ->
  (registered_state q c = LAvailable <-> 0 < q - c) /\ (registered_state q c = LSold -> c = 0).
Proof.
  intros Hc. unfold registered_state. destruct (Z.eqb_spec q c), (Z.ltb_spec 0 c);
    (split; [split; try discriminate; try lia; done|try discriminate; lia]).
Qed.

(** What the callers of [apply_registration] have checked: the aggregate is the
    registered listing's, the sale format stays, and a running auction keeps
    its auction state and sells one unit. *)
Record registrable (L : string) (payload : RegisterListingPayload) (current : option ListingRow)
    (db : Db) : Prop := mkRegistrable {
  rg_current : listings db !! L = current;
  rg_id : L = listing_aggregate_id (rl_seller_pubky payload) (rl_listing_id payload);
  rg_format : forall l, current = Some l -> l_sale_format l = rl_sale_format payload;
  rg_auction : rl_sale_format payload = Auction ->
    rl_quantity payload = 1 /\ forall l, current = Some l -> is_Some (l_auction l);
}.

Definition committed_of (current : option ListingRow) : Z :=
  from_option l_reserved_quantity 0 current + from_option l_sold_quantity 0 current.

Lemma inv_register_new db L payload auction row :
  inv now db -> registrable L payload None db ->
  row = registered_row payload 1 0 auction now (unregistered L payload) ->
  listing_check row = true -> inv now (upd listings (<[L := row]>) db).
Proof.
  intros Hinv [HL Hid _ Ha] -> Hc.
  assert (Hq : 0 <= rl_quantity payload).
  { unfold listing_check in Hc. reflect_bools.
    match goal with Ht : 0 <= l_total_quantity _ |- _ => exact Ht end. }
  destruct (registered_state_wf (rl_quantity payload) 0 ltac:(lia)) as [Hs1 Hs2].
  eapply inv_intro; [exact Hinv| |done|by eapply drops_ok_same; [..|exact (inv_drops _ _ Hinv)]|done|done].
  apply books_new_listing; [exact (inv_books _ _ Hinv)|done|done| |done].
  split; [exact Hc|]. split; [exact Hs1|]. split; [done|]. split; [|exact Hid].
  unfold running_auction, parse_auction. cbn.
  destruct (rl_sale_format payload); [done|]. destruct (Ha eq_refl) as [-> _]. done.
Qed.

Lemma running_kept payload l auction revision c terms :
  rl_sale_format payload = l_sale_format l -> is_Some (l_auction l) ->
  auction = (fun terms => auction_json terms payload (Some l ≫= l_auction) now) <$> terms ->
  running_auction (reregistered_row payload revision c auction now l) = true ->
  running_auction l = true.
Proof.
  intros Hf [a Ha] -> . unfold running_auction, parse_auction. cbn. rewrite Hf, Ha.
  destruct (l_sale_format l); [done|]. by destruct terms.
Qed.

Lemma inv_register_again db L payload l terms row :
  inv now db -> registrable L payload (Some l) db ->
  committed_of (Some l) <= rl_quantity payload ->
  untriggered row = untriggered
    (reregistered_row payload (l_server_revision l + 1) (committed_of (Some l))
       ((fun terms => auction_json terms payload (Some l ≫= l_auction) now) <$> terms) now l) ->
  listing_check row = true -> inv now (upd listings (<[L := row]>) db).
Proof.
  intros Hinv [HL Hid Hf Ha] Hq Hu Hc. specialize (Hf l eq_refl). unfold committed_of in *. cbn in Hq, Hu.
  destruct (bk_listing _ _ (inv_books _ _ Hinv) L l HL) as (HidL & Hwf & _).
  pose proof (listing_wf_balance l Hwf) as (Hb1 & Hb2 & Hb3 & Hb4).
  destruct Hwf as (Hck & _ & _ & Hrunl & Hagg).
  set (new := reregistered_row _ _ _ _ _ _) in Hu.
  assert (Hrun : running_auction new = true -> running_auction l = true).
  { intros E. destruct (rl_sale_format payload) eqn:Ef.
    - unfold new, running_auction, parse_auction in E. cbn in E. by rewrite Ef in E.
    - eapply running_kept; [by rewrite Ef| |reflexivity|exact E]. by eapply (proj2 (Ha eq_refl)). }
  destruct (registered_state_wf (rl_quantity payload)
              (l_reserved_quantity l + l_sold_quantity l) ltac:(lia)) as [Hs1 Hs2].
  destruct (revived_same l) as (E1 & E2 & E3 & E4 & E5).
  eapply inv_touch_listing;
    [done|exact HL|exact Hu|by rewrite <- HidL, <- E1| |by symmetry|exact Hrun|exact E4].
  assert (Hcn : listing_check new = true).
  { change (listing_check (untriggered new) = true). by rewrite <- Hu. }
  split; [exact Hcn|]. split; [exact Hs1|].
  split; [intros E; specialize (Hs2 E); etransitivity; [exact E4|lia]|].
  split; [|change (l_aggregate_id (revived now l) =
             listing_aggregate_id (l_seller_pubky (revived now l)) (l_listing_id (revived now l)));
           by rewrite E1, E2, E3].
  intros E. destruct (Hrunl (Hrun E)) as [Hav Htot]. cbn.
  destruct (rl_sale_format payload) eqn:Ef.
  - unfold new, running_auction, parse_auction in E. cbn in E. by rewrite Ef in E.
  - destruct (Ha eq_refl) as [-> _]. lia.
Qed.

Lemma wp_write_registration db L payload current :
  inv now db -> registrable L payload current db ->
  committed_of current <= rl_quantity payload ->
  wp (write_registration L payload current (committed_of current)
        ((fun terms => auction_json terms payload (current ≫= l_auction) now)
           <$> rl_auction_terms payload) now)
    (fun b db' => if b : bool then inv now db' /\ is_Some (listings db' !! L) else True)
    any_refusal db.
Proof.
  intros Hinv Hr Hq. destruct current as [l|]; cbn [write_registration].
  - wp_step. apply wp_update_listing.
    + intros old row Hold Hc Hu Hck. rewrite (rg_current _ _ _ _ Hr) in Hold. injection Hold as <-.
      wp_step. rewrite bool_decide_true by done. split; [by eapply inv_register_again|].
      exists row. exact (lookup_insert_eq _ _ _).
    + intros _. by wp_step.
  - repeat wp_step; try done.
    split; [by eapply inv_register_new|]. eexists. exact (lookup_insert_eq _ _ _).
Qed.

Lemma wp_persist_reserve L revision command_id reserve current db :
  wp (persist_reserve L revision command_id reserve current now)
    (fun _ db' => inv_frame db db') any_refusal db.
Proof. unfold persist_reserve. repeat wp_step; by repeat split. Qed.

Lemma wp_inv_apply db actor command_id L payload current reserve kind :
  inv now db -> registrable L payload current db ->
  wp (Registration.apply_registration actor command_id L payload current reserve kind now)
    (fun _ => inv now) any_refusal db.
Proof.
  intros Hinv Hr. unfold Registration.apply_registration. do 2 wp_step. reflect_bools.
  change (from_option l_reserved_quantity 0 current + from_option l_sold_quantity 0 current)
    with (committed_of current) in *.
  wp_step. eapply wp_mono; [apply (wp_write_registration db L payload current Hinv Hr); lia| |done].
  intros [|] db1 Hw; [destruct Hw as [Hinv1 [l Hl]]|by repeat wp_step].
  do 2 wp_step. apply wp_bind.
  eapply wp_mono with (Q' := fun _ => inv_frame db1) (R' := any_refusal);
    [destruct (rl_auction_reserve payload); [apply wp_persist_reserve|by wp_step]| |done].
  intros [] db2 Hf2. apply wp_bind, wp_insert_event. intros e _ _.
  unfold fetch_listing, fetch_auction_reserve. do 2 wp_step.
  destruct (if_books _ _ Hf2) as (El & _).
  match goal with |- wp (match ?x with _ => _ end) _ _ _ => destruct x as [l'|] eqn:Hl' end.
  - repeat wp_step. eapply inv_frame_inv; [|exact Hinv1]. etransitivity; [exact Hf2|]. by repeat split.
  - change (listings db2 !! L = None) in Hl'. by rewrite El, Hl in Hl'.
Qed.

(** ** [listing.register] *)

Lemma wp_guard_with o db :
  wp (guard_with o) (fun _ db' => db' = db) any_refusal db.
Proof. unfold guard_with. by repeat wp_step. Qed.

Lemma wp_check_revision command payload prefetched current db :
  wp (check_revision command payload prefetched current) (fun _ db' => db' = db) any_refusal db.
Proof.
  unfold check_revision. do 4 wp_step. apply wp_bind.
  eapply wp_mono with (Q' := fun _ db' => db' = db) (R' := any_refusal); [| |done].
  - destruct (from_option is_deleted false current); [apply wp_guard_with|by wp_step].
  - intros [] ? ->. by repeat wp_step.
Qed.

Lemma wp_validate_edit l reserve payload db :
  (rl_sale_format payload = Auction -> is_Some (rl_auction_terms payload)) ->
  wp (validate_edit l reserve payload now)
    (fun _ db' => db' = db /\ l_sale_format l = rl_sale_format payload /\
       (rl_sale_format payload = Auction -> is_Some (l_auction l))) any_refusal db.
Proof.
  intros Ht. unfold validate_edit. do 2 wp_step. reflect_bools.
  rename select (l_sale_format l = _) into Hf. wp_step; [wp_step; split_and!; congruence|].
  do 6 wp_step. destruct (rl_auction_terms payload) as [terms|] eqn:Et.
  - repeat wp_step; split_and!; try done; by eexists.
  - destruct Ht as [? ?]; [congruence|done].
Qed.

Lemma wp_inv_register db actor command payload prefetched :
  inv now db ->
  (rl_sale_format payload = Auction -> rl_quantity payload = 1 /\ is_Some (rl_auction_terms payload)) ->
  wp (register actor command payload prefetched now) (fun _ => inv now) any_refusal db.
Proof.
  intros Hinv Ha. unfold register, fetch_listing_for_update, fetch_auction_reserve.
  do 4 wp_step. reflect_bools.
  rename select (register_addresses_its_own_listing _ _ _ = true) into Hown.
  apply wp_bind. eapply wp_mono; [apply wp_guard_with| |done]. intros [] ? ->.
  apply wp_bind. eapply wp_mono; [apply wp_guard_with| |done]. intros [] ? ->.
  do 2 wp_step. apply wp_bind. eapply wp_mono; [apply wp_check_revision| |done]. intros [] ? ->.
  do 2 wp_step. apply wp_bind. eapply wp_mono; [apply wp_guard_with| |done]. intros [] ? ->.
  unfold register_addresses_its_own_listing in Hown. reflect_bools.
  apply wp_bind. eapply wp_mono with (R' := any_refusal) (Q' := fun _ db' => db' = db /\
    forall l, listings db !! c_aggregate_id command = Some l ->
      l_sale_format l = rl_sale_format payload /\
      (rl_sale_format payload = Auction -> is_Some (l_auction l))); [| |done].
  - destruct (listings db !! c_aggregate_id command) as [l|].
    + eapply wp_mono; [apply wp_validate_edit; intros; by apply Ha| |done].
      intros [] ? (-> & Hf & Hsome). split; [done|]. by intros ? [= <-].
    + wp_step. split; [done|]. intros ? [=].
  - intros [] ? [-> Hedit]. apply wp_inv_apply; [done|]. split; [done|done| |].
    + intros l Hl. by apply Hedit.
    + intros Hf. split; [by apply Ha|]. intros l Hl. by apply Hedit.
Qed.

(** ** [listing.sync] *)

(** A row rewritten in columns the books do not read. *)
Lemma wp_touch declared L cond f db :
  inv now db ->
  (forall l, stock_columns (f l) = stock_columns l) ->
  wp (update_listing declared L cond f)
    (fun row db' => inv now db' /\ (row = None -> db' = db)) any_refusal db.
Proof.
  intros Hinv Hsame. apply wp_update_listing; [|done].
  intros old row Hold _ Hu Hc. split; [|done].
  destruct (bk_listing _ _ (inv_books _ _ Hinv) L old Hold) as (Hid & Hw & _).
  pose proof (Hsame old) as E. injection E as E1 _ _ _ _ _ E4 E2 E3.
  eapply inv_touch_listing; [done|exact Hold|exact Hu|congruence| |done| |done].
  - eapply stock_columns_wf; [exact (Hsame old)| |done]. change (listing_check (untriggered (f old)) = true). by rewrite <- Hu.
  - unfold running_auction, parse_auction. by rewrite E2, E3.
Qed.

Lemma wp_confirm_record L db :
  inv now db -> wp (confirm_record L) (fun _ => inv now) any_refusal db.
Proof.
  intros Hinv. unfold confirm_record. apply wp_bind.
  eapply wp_mono; [apply wp_touch; [done|by intros []]| |done]. intros row db' [? _]. by wp_step.
Qed.

Lemma wp_inv_tombstone authority L cursor epoch actor command_id db :
  inv now db ->
  wp (tombstone authority L cursor epoch actor command_id now) (fun _ => inv now) any_refusal db.
Proof.
  intros Hinv. unfold tombstone, release_bindings. do 3 wp_step; [|by wp_step].
  apply wp_savepoint. do 3 wp_step. eapply wp_mono with (Q' := fun _ => inv now) (R' := any_refusal).
  - eapply wp_mono; [apply wp_touch| |done].
    + eapply inv_frame_inv; [|exact Hinv]. by repeat split.
    + by intros [].
    + by intros ? ? [? _].
  - intros [row|] db' Hinv'; [|by wp_step].
    apply wp_bind, wp_insert_event. intros e _ _. wp_step.
    eapply inv_frame_inv; [|exact Hinv']. by repeat split.
  - done.
Qed.

Lemma wp_settle db actor command payload events :
  inv now db ->
  wp (settle_missing_record actor command payload events now) (fun _ => inv now) any_refusal db.
Proof.
  intros Hinv. unfold settle_missing_record, fetch_listing, observe_live. do 4 wp_step.
  wp_step; [by wp_step|]. do 4 wp_step. wp_step; [|by wp_step..].
  apply wp_bind. eapply wp_mono; [by apply wp_inv_tombstone| |done].
  intros [[row e]|] db' Hinv'; repeat wp_step; done.
Qed.

Lemma wp_viewer_bid l actor db :
  wp (viewer_bid_projection l actor) (fun _ db' => db' = db) any_refusal db.
Proof. unfold viewer_bid_projection. by repeat wp_step. Qed.

Lemma wp_sync_auction actor command registration current db :
  inv now db ->
  wp (sync_auction actor command registration current) (fun _ => inv now) any_refusal db.
Proof.
  intros Hinv. unfold sync_auction, fetch_auction_reserve. do 8 wp_step. apply wp_bind.
  eapply wp_mono; [by apply wp_confirm_record| |done]. intros [] db' Hinv'. apply wp_bind.
  eapply wp_mono; [apply wp_viewer_bid| |done]. intros bid ? ->. by repeat wp_step.
Qed.

Lemma wp_converge actor command registration current db :
  inv now db ->
  wp (converge actor command registration current now) (fun _ => inv now) any_refusal db.
Proof.
  intros Hinv. unfold converge. wp_step.
  - apply wp_bind. eapply wp_mono with (Q' := fun _ => inv now) (R' := any_refusal).
    + eapply wp_mono; [apply wp_touch; [done|]| |done].
      * by intros [].
      * by intros ? ? [? _].
    + intros row db' Hinv'. do 2 wp_step. apply wp_bind, wp_insert_event. intros e _ _.
      repeat wp_step. eapply inv_frame_inv; [|exact Hinv']. by repeat split.
    + done.
  - apply wp_bind. eapply wp_mono; [by apply wp_confirm_record| |done]. intros [] db' Hinv'.
    by repeat wp_step.
Qed.

(** The registration of a record is about the record's listing. *)
Lemma sync_registration_id payload record registration :
  sync_registration payload record = inl registration ->
  rl_seller_pubky registration = sl_seller_pubky payload /\
  rl_listing_id registration = sl_listing_id payload.
Proof.
  unfold sync_registration.
  destruct (registration_payload_from_record _ _ _) as [| |p] eqn:E; try done.
  destruct (_ && _); [done|]. destruct (validate_public_listing_payload p) as [q|] eqn:Ev; [|done].
  intros [= <-].
  assert (rl_seller_pubky q = rl_seller_pubky p /\ rl_listing_id q = rl_listing_id p) as [-> ->].
  { unfold validate_public_listing_payload, validate_listing_payload in Ev.
    destruct (validate_trimmed _ _ _ _), (validate_lock_option _). unfold accept in Ev.
    destruct (_ ++ _); [|done]. by injection Ev as <-. }
  unfold registration_payload_from_record in E. destruct (negb _); [done|].
  destruct (read_listing_record record); [|done]. destruct (negb _); [done|].
  destruct (record_sale _) as [[[? ?] ?]|]; [|done]. destruct (record_lock _); [|done].
  by injection E as <-.
Qed.

Lemma wp_inv_apply_sync db actor command registration :
  inv now db ->
  c_aggregate_id command =
    listing_aggregate_id (rl_seller_pubky registration) (rl_listing_id registration) ->
  wp (apply_sync actor command registration now) (fun _ => inv now) any_refusal db.
Proof.
  intros Hinv Hid. unfold apply_sync, fetch_listing_for_update. do 2 wp_step.
  assert (Hreg : forall current, listings db !! c_aggregate_id command = current ->
            rl_sale_format registration = FixedPrice ->
            (forall l, current = Some l -> l_sale_format l = FixedPrice) ->
            registrable (c_aggregate_id command) registration current db).
  { intros current Hc Hf Hl. split; [done|done| |congruence]. intros l E. rewrite Hf. by apply Hl. }
  wp_step.
  - wp_step; [do 2 wp_step; reflect_bools; apply wp_inv_apply; [done|apply Hreg; [done|done|congruence]]|].
    wp_step; [by apply wp_sync_auction|]. do 2 wp_step. reflect_bools.
    wp_step; [by apply wp_converge|]. apply wp_inv_apply; [done|]. apply Hreg; [done| |].
    + by destruct (rl_sale_format registration).
    + intros ? [= <-]. rename select (l_sale_format _ <> Auction) into Hne.
      by destruct (l_sale_format _).
  - do 2 wp_step. reflect_bools. apply wp_inv_apply; [done|]. apply Hreg; [done| |by intros ? [=]].
    by destruct (rl_sale_format registration).
Qed.

Lemma wp_inv_sync db actor command payload homeserver :
  inv now db ->
  wp (sync_listing actor command payload homeserver now) (fun _ => inv now) any_refusal db.
Proof.
  intros Hinv. unfold sync_listing. do 4 wp_step. reflect_bools. wp_step.
  - wp_step; [|by wp_step]. apply wp_inv_apply_sync; [done|].
    rename select (sync_registration _ _ = _) into Hs. apply sync_registration_id in Hs as [-> ->].
    done.
  - by apply wp_settle.
  - by wp_step.
Qed.
End Registration.
