(* ===== verification/CheckoutBooks.v ===== *)
(** * The books through checkout

    [checkout.create] creates orders that hold nothing, except for a
    drop-bound one, whose only unit is held from its creation. *)

From S2P Require Import LocksKeys Prelude Domain StateMachines Store Commands Actions Drops Holds.
From S2P Require Import DigitalManual Cancellation Payment Auction Text Checkout Executor Samples DropBooks.
From S2P Require Import OrderActions Ledger Books PaymentBooks StockBooks.

(** What command validation guarantees of a checkout: it has lines, and every
    line asks for something. *)
Definition valid_lines (lines : list CheckoutLine) : Prop :=
  lines <> [] /\ forall line, In line lines -> 0 < cl_quantity line.

(** A line paired with the listing under its id. *)
Definition stands_for (db : Db) (entry : CheckoutLine * ListingRow) : Prop :=
  listings db !! cl_listing_aggregate_id (fst entry) = Some (snd entry).

(** A line that may enter an order. *)
Definition sound_entry (db : Db) (entry : CheckoutLine * ListingRow) : Prop :=
  stands_for db entry /\ l_sale_format (snd entry) = FixedPrice /\ 0 < cl_quantity (fst entry).

Definition entry_units (L : string) (entries : list (CheckoutLine * ListingRow)) : Z :=
  sum_list (map (fun e => if (l_aggregate_id (snd e) =? L)%string then cl_quantity (fst e) else 0)
              entries).

Lemma order_lines_units L method entries :
  line_units L (map (order_line method) entries) = entry_units L entries.
Proof.
  unfold line_units, entry_units. rewrite map_map. f_equal. apply map_ext. by intros [line l].
Qed.

Section Checkout.
Context {crate : UuidCrate} {LC : LocksCrates} (now : Time).

(** ** Reading the lines *)

Lemma wp_peek_lines actor lines db :
  wp (map_each lines (peek_line actor))
    (fun peeked db' => db' = db /\ map fst peeked = lines /\
       forall e, In e peeked -> stands_for db e /\ l_sale_format (snd e) = FixedPrice)
    any_refusal db.
Proof.
  eapply wp_mono; [apply (wp_map_each (fun rest seen db' => db' = db /\ map fst seen ++ rest = lines /\
    forall e, In e seen -> stands_for db e /\ l_sale_format (snd e) = FixedPrice)
    any_refusal _ _ [])| |done].
  - done.
  - intros line rest seen ? (-> & Hl & Hs). unfold peek_line, fetch_live_listing, fetch_listing.
    do 11 wp_step. split; [done|]. rewrite map_app, <- app_assoc. split; [done|].
    rename select (live _ = Some _) into Hlv. apply live_Some in Hlv as [Hlv _]. reflect_bools.
    intros e He. apply in_app_iff in He as [He|[<-|[]]]; auto.
  - intros peeked ? (-> & Hl & Hs). by rewrite app_nil_r in Hl.
Qed.

Lemma wp_resolve_lines lines db :
  wp (map_each lines resolve_line)
    (fun resolved db' => db' = db /\ map fst resolved = lines /\
       forall e, In e resolved -> stands_for db e) any_refusal db.
Proof.
  eapply wp_mono; [apply (wp_map_each (fun rest seen db' => db' = db /\ map fst seen ++ rest = lines /\
    forall e, In e seen -> stands_for db e) any_refusal _ _ [])| |done].
  - done.
  - intros line rest seen ? (-> & Hl & Hs).
    unfold resolve_line, fetch_live_listing_for_update, fetch_listing_for_update.
    do 6 wp_step. wp_step. wp_step; try by wp_step. wp_step. do 5 wp_step.
    split; [done|]. rewrite map_app, <- app_assoc. split; [done|].
    rename select (live _ = Some _) into Hlv. apply live_Some in Hlv as [Hlv _].
    intros e He. apply in_app_iff in He as [He|[<-|[]]]; auto.
  - intros peeked ? (-> & Hl & Hs). by rewrite app_nil_r in Hl.
Qed.

(** ** The gate *)

Lemma wp_find_bound_drop peeked db :
  wp (find_bound_drop peeked)
    (fun bound db' => db' = db /\ forall d, bound = Some d -> exists k, drops db !! k = Some d)
    any_refusal db.
Proof.
  induction peeked as [|[line l] peeked IH]; simpl; [by wp_step|]. apply wp_bind.
  eapply wp_mono; [apply wp_lock_bound_drop| |done]. intros bound ? [-> Hb].
  wp_step; [by wp_step|exact IH].
Qed.

Lemma wp_gate_checkout actor cid peeked db :
  inv now db ->
  wp (gate_checkout actor cid peeked now)
    (fun drop db' => drops_ok now db' /\ drops_only db db' /\
       (is_Some drop -> exists e, peeked = [e] /\ cl_quantity (fst e) = 1)) any_refusal db.
Proof.
  intros Hinv. unfold gate_checkout. apply wp_bind.
  eapply wp_mono; [apply wp_find_bound_drop| |done]. intros bound ? [-> Hb].
  wp_step; [|wp_step; split; [apply Hinv|split; [done|by intros [? [=]]]]].
  destruct (Hb _ eq_refl) as [k Hk]. do 2 wp_step. apply wp_bind.
  eapply wp_mono; [apply (wp_enforce_drop_gate now db k); [apply Hinv|done]| |done].
  intros d' db' (? & ? & _). wp_step. do 2 (split; [done|]). intros _.
  rename select (negb _ = false) into Hone. apply negb_false_iff in Hone.
  destruct peeked as [|[line l] [|? ?]]; try discriminate. reflect_bools. by exists (line, l).
Qed.

(** ** Groups *)

Lemma group_entries e groups x :
  In x (concat (map g_lines (add_to_group e groups))) ->
  x = e \/ In x (concat (map g_lines groups)).
Proof.
  induction groups as [|g groups IH]; simpl.
  - intros [<-|[]]. by left.
  - destruct (_ && _); simpl; rewrite !in_app_iff; simpl.
    + intros [[?|[<-|[]]]|?]; auto.
    + intros [?|Hx]; [auto|]. destruct (IH Hx); auto.
Qed.

(** A group's first line is a listing of its seller. *)
Definition shaped (g : Group) : Prop :=
  exists e rest, g_lines g = e :: rest /\ l_seller_pubky (snd e) = g_seller g.

Lemma shaped_add e groups : List.Forall shaped groups -> List.Forall shaped (add_to_group e groups).
Proof.
  induction 1 as [|g groups (e0 & rest & El & Es) Hg IH]; simpl.
  - constructor; [|done]. by exists e, [].
  - destruct (_ && _); constructor; try done.
    + exists e0, (rest ++ [e]). simpl. by rewrite El.
    + by exists e0, rest.
Qed.

Lemma shaped_groups resolved groups :
  List.Forall shaped groups ->
  List.Forall shaped (fold_left (fun gs e => add_to_group e gs) resolved groups).
Proof.
  revert groups. induction resolved as [|e resolved IH]; intros groups Hg; simpl; [done|].
  by apply IH, shaped_add.
Qed.

Lemma wp_group_lines context resolved groups db (P : CheckoutLine * ListingRow -> Prop) :
  (forall x, In x resolved \/ In x (concat (map g_lines groups)) -> P x) ->
  wp (group_lines context resolved groups)
    (fun groups' db' => db' = db /\ (forall x, In x (concat (map g_lines groups')) -> P x) /\
       groups' = fold_left (fun gs e => add_to_group e gs) resolved groups) any_refusal db.
Proof.
  revert groups. induction resolved as [|e resolved IH]; intros groups HP; simpl.
  - wp_step. auto.
  - apply wp_bind. eapply wp_mono with (Q' := fun _ => eq db) (R' := any_refusal); [| |done].
    { unfold check_method. destruct e as [line l]. by repeat wp_step. }
    intros [] ? <-. apply IH. intros x [Hx|Hx].
    + apply HP. left. by right.
    + apply group_entries in Hx as [->|Hx]; apply HP; [left; by left|by right].
Qed.
(** ** Placing the orders *)

(** The invariant with the books off by [d]. *)
Record inv_off (d : string -> Z) (db : Db) : Prop := mkInvOff {
  io_books : books_off d db;
  io_orders : orders_wf db;
  io_modern : forall id o, orders db !! id = Some o -> modern o;
  io_drops : drops_ok now db;
  io_payments : forall k p, payments db !! k = Some p -> p_id p = k;
  io_offers : offers_wf db;
}.

Lemma inv_off_zero d db : inv_off d db -> (forall L, d L = 0) -> inv now db.
Proof. intros [] Hd. split; try done. by eapply books_ext; [|eassumption]. Qed.

Lemma inv_off_frame d db db' :
  listings db' = listings db -> orders db' = orders db -> reservations db' = reservations db ->
  drops db' = drops db -> drop_purchases db' = drop_purchases db -> payments db' = payments db ->
  offers db' = offers db -> inv_off d db -> inv_off d db'.
Proof.
  intros El Eo Er Ed Eu Ep Ef [? Hwf ? ? ? ?]. split; unfold orders_wf, offers_wf;
    rewrite ?Eo, ?Ep, ?Ef; try done.
  - by eapply books_same.
  - by eapply drops_ok_same.
Qed.

(** A new pending order of sound lines. *)
Lemma inv_off_new_order d db o entries method :
  inv_off d db -> (forall e, In e entries -> sound_entry db e) -> orders db !! o_id o = None ->
  o_lines o = map (order_line method) entries -> o_auction_aggregate_id o = None ->
  o_state o = OPendingPayment -> modern o ->
  (exists e rest, entries = e :: rest /\ l_seller_pubky (snd e) = o_seller_pubky o) ->
  inv_off (fun L => d L - (if o_stock_held o then entry_units L entries else 0))
    (upd orders (<[o_id o := o]>) db).
Proof.
  intros [Hb Hwf Hm Hok Hpay Hoff] Hs Hno Hl Ha Hst Hmod (e0 & rest & -> & Es). split; try done.
  - eapply books_ext; [|apply (books_put_order _ _ Hb (o_id o) o None); [done| |done]].
    + intros L. cbn beta iota. unfold order_hold. rewrite Hl, order_lines_units.
      destruct (o_stock_held o); lia.
    + split; [|split; [done|congruence]]. intros x Hx. rewrite Hl in Hx.
      apply in_map_iff in Hx as ([line l] & <- & Hin). destruct (Hs _ Hin) as (Hst' & Hf & Hq).
      unfold stands_for in Hst'. simpl in *. destruct (bk_listing _ _ Hb _ _ Hst') as [Hid _].
      split; [done|]. exists l. simpl. rewrite Hid. split; [done|].
      unfold running_auction, parse_auction. by rewrite Hf.
  - intros k x Hx. change ((<[o_id o:=o]> (orders db)) !! k = Some x) in Hx.
    apply lookup_insert_Some in Hx as [[<- <-]|[_ Hx]]; [|by apply Hwf].
    split; [done|]. split; [split; congruence|].
    destruct (Hs e0 (or_introl eq_refl)) as [Hst0 _]. destruct e0 as [line l]. simpl in *.
    destruct (bk_listing _ _ Hb _ _ Hst0) as (_ & (_ & _ & _ & _ & Hform) & _).
    do 3 eexists. split; [exact Hl|]. simpl. rewrite <- Es. exact Hform.
  - intros k x Hx. change ((<[o_id o:=o]> (orders db)) !! k = Some x) in Hx.
    apply lookup_insert_Some in Hx as [[<- <-]|[_ Hx]]; [done|by eapply Hm].
  - by eapply drops_ok_same; [..|exact Hok].
Qed.

Lemma inv_off_new_payment d db p :
  inv_off d db -> inv_off d (upd payments (<[p_id p := p]>) db).
Proof.
  intros [Hb Hwf Hm Hok Hpay Hoff]. split; try done.
  - by eapply books_same; [..|exact Hb].
  - by eapply drops_ok_same; [..|exact Hok].
  - intros k x Hx. change ((<[p_id p:=p]> (payments db)) !! k = Some x) in Hx.
    apply lookup_insert_Some in Hx as [[<- <-]|[_ Hx]]; [done|by apply Hpay].
Qed.

Definition claimed_units (drop : option string) (L : string)
    (entries : list (CheckoutLine * ListingRow)) : Z :=
  if bool_decide (is_Some drop) then entry_units L entries else 0.

Lemma wp_create_group d db actor command payload locks context drop cur exp g :
  inv_off d db -> (forall e, In e (g_lines g) -> sound_entry db e) -> shaped g ->
  wp (create_group actor command payload locks context drop cur exp now g)
    (fun _ db' => inv_off (fun L => d L - claimed_units drop L (g_lines g)) db' /\
       listings db' = listings db) any_refusal db.
Proof.
  intros Hinv Hs Hsh. unfold create_group. apply wp_bind, wp_fresh_uuid, wp_bind, wp_fresh_uuid.
  do 2 wp_step. rename select (orders _ !! _ = None) into Hno.
  set (o := group_order _ _ _ _ _ _ _ _ _ _ g) in *.
  set (db2 := upd draws N.succ (upd draws N.succ db)) in *.
  assert (Hid : o_id o = new_v4 (draws db)) by (unfold o, group_order; by destruct (bool_decide _)).
  assert (Hinv1 : inv_off (fun L => d L - claimed_units drop L (g_lines g))
                    (upd orders (<[o_id o := o]>) db2)).
  { assert (Hheld : o_stock_held o = bool_decide (is_Some drop)).
    { unfold o, group_order. by destruct (bool_decide _). }
    unfold claimed_units. rewrite <- Hheld.
    apply (inv_off_new_order d db2 o (g_lines g) (g_method g)); try done.
    - by eapply inv_off_frame; [..|exact Hinv].
    - by rewrite Hid.
    - unfold o, group_order. by destruct (bool_decide _).
    - unfold o, group_order. by destruct (bool_decide _).
    - unfold o, group_order. by destruct (bool_decide _).
    - intros Hh. rewrite Hheld in Hh. unfold o, group_order. rewrite Hh. by eexists.
    - destruct Hsh as (e & rest & El & Es). exists e, rest. split; [done|].
      rewrite Es. unfold o, group_order. by destruct (bool_decide _). }
  rewrite Hid in Hinv1. apply wp_bind. eapply wp_mono with (R' := any_refusal) (Q' := fun _ db3 =>
    inv_off (fun L => d L - claimed_units drop L (g_lines g)) db3 /\ listings db3 = listings db);
    [| |done].
  { unfold store_delivery_email. repeat wp_step; (split; [|done]); [|done].
    by eapply inv_off_frame; [..|exact Hinv1]. }
  intros [] db3 [Hinv3 El3]. do 2 wp_step.
  match goal with |- context [upd payments (<[_ := ?p]>)] =>
    pose proof (inv_off_new_payment _ db3 p Hinv3) as Hinv3' end. apply wp_bind.
  eapply wp_mono with (R' := any_refusal) (Q' := fun _ db4 =>
    inv_off (fun L => d L - claimed_units drop L (g_lines g)) db4 /\ listings db4 = listings db);
    [| |done].
  { unfold snapshot_locks. repeat wp_step; (split; [|done]);
      (eapply inv_off_frame; [..|exact Hinv3']); done. }
  intros [] db4 [Hinv4 El4]. apply wp_bind, wp_insert_event. intros e _ _. wp_step.
  split; [|done]. by eapply inv_off_frame; [..|exact Hinv4].
Qed.
Lemma entry_units_app L l1 l2 : entry_units L (l1 ++ l2) = entry_units L l1 + entry_units L l2.
Proof. unfold entry_units. by rewrite map_app, sum_list_app. Qed.

Lemma claimed_units_app drop L l1 l2 :
  claimed_units drop L (l1 ++ l2) = claimed_units drop L l1 + claimed_units drop L l2.
Proof. unfold claimed_units. destruct (bool_decide _); [apply entry_units_app|done]. Qed.

Lemma inv_off_ext d d' db : (forall L, d L = d' L) -> inv_off d db -> inv_off d' db.
Proof. intros He []. split; try done. by eapply books_ext. Qed.

Lemma wp_create_groups db actor command payload locks context drop cur exp groups :
  inv now db -> (forall e, In e (concat (map g_lines groups)) -> sound_entry db e) ->
  List.Forall shaped groups ->
  wp (map_each groups (create_group actor command payload locks context drop cur exp now))
    (fun _ db' => inv_off (fun L => - claimed_units drop L (concat (map g_lines groups))) db' /\
       listings db' = listings db) any_refusal db.
Proof.
  intros Hinv Hs Hsh.
  pose (I := fun (rest : list Group) (_ : list (OrderRow * PaymentRow * Uuid)) db' =>
    exists seen, groups = seen ++ rest /\
      inv_off (fun L => - claimed_units drop L (concat (map g_lines seen))) db' /\
      listings db' = listings db).
  eapply wp_mono; [apply (wp_map_each I any_refusal _ _ [])| |done].
  - exists []. split; [done|]. split; [|done]. destruct Hinv. split; try done.
    eapply books_ext; [|eassumption]. intros L. unfold claimed_units, entry_units. simpl.
    by destruct (bool_decide _).
  - intros g rest made db' (seen & -> & Hoff & El).
    eapply wp_mono; [apply wp_create_group; [exact Hoff| |]| |done].
    + intros e He. destruct (Hs e) as (Hst & ?).
      { rewrite map_app, concat_app, in_app_iff. right. simpl. rewrite in_app_iff. by left. }
      split; [|done]. unfold stands_for in *. by rewrite El.
    + by apply List.Forall_app in Hsh as [_ ?%Forall_inv].
    + intros c db'' [Hoff'' El'']. exists (seen ++ [g]). rewrite <- app_assoc. split; [done|].
      split; [|congruence]. eapply inv_off_ext; [|exact Hoff'']. intros L. cbn beta.
      rewrite map_app, concat_app, claimed_units_app. simpl. rewrite app_nil_r. lia.
  - intros made db' (seen & -> & Hoff & El). by rewrite app_nil_r.
Qed.

(** The claimed unit leaves the shelf. *)
Lemma wp_claim_line d db e :
  inv_off d db -> sound_entry db e ->
  wp (claim_line now e)
    (fun _ db' => inv_off (fun L => d L + entry_units L [e]) db') any_refusal db.
Proof.
  destruct e as [line l]. intros [Hb Hwf Hm Hok Hpay Hoff] (Hst & Hf & Hq). unfold stands_for in Hst.
  simpl in *. destruct (bk_listing _ _ Hb _ _ Hst) as (Hid & Hlwf & _). rewrite <- Hid in Hst.
  unfold claim_line, current_listing_revision. do 4 wp_step; [|by repeat wp_step]. wp_step.
  assert (v = l) as -> by congruence. reflect_bools.
  assert (Hrun : running_auction l = false).
  { unfold running_auction, parse_auction. by rewrite Hf. }
  split; try done; [|by eapply drops_ok_same; [..|exact Hok]].
  eapply books_ext; [|eapply (books_move_listing _ _ _ _ _ Hb Hst); try done].
  - intros L. unfold entry_units, sum_list. simpl. destruct (_ =? L)%string; lia.
  - by apply reserve_listing_wf.
Qed.

Lemma wp_place_orders db actor command payload locks context drop resolved first :
  inv now db -> (forall e, In e resolved -> sound_entry db e) ->
  (is_Some drop -> exists e, resolved = [e]) ->
  wp (place_orders actor command payload locks context drop resolved first now)
    (fun _ => inv now) any_refusal db.
Proof.
  intros Hinv Hs Hone. unfold place_orders. do 2 wp_step. apply wp_bind.
  eapply wp_mono; [apply (wp_group_lines _ _ _ _ (sound_entry db))| |done].
  { intros x [Hx|[]]. by apply Hs. }
  intros groups ? (-> & Hg & Hgroups). apply wp_bind, wp_guard. intros _.
  apply wp_bind, wp_guard. intros _. apply wp_bind.
  eapply wp_mono; [apply wp_create_groups; [done|done|subst groups; by apply shaped_groups]| |done]. intros created db' [Hoff El]. apply wp_bind.
  destruct (bool_decide (is_Some drop)) eqn:Hd.
  - apply bool_decide_eq_true in Hd. destruct (Hone Hd) as [e ->]. cbn [for_each]. apply wp_bind.
    eapply wp_mono; [apply (wp_claim_line _ db' e Hoff)| |done].
    { destruct (Hs e (or_introl eq_refl)) as [? ?]. split; [|done]. unfold stands_for in *. by rewrite El. }
    intros [] db'' Hoff''. do 2 wp_step. eapply inv_off_zero; [exact Hoff''|]. intros L. cbn beta.
    subst groups. unfold claimed_units. rewrite bool_decide_true by done. simpl. lia.
  - do 2 wp_step. eapply inv_off_zero; [exact Hoff|]. intros L. unfold claimed_units.
    by rewrite Hd.
Qed.

Lemma wp_inv_checkout db actor command payload locks context :
  inv now db -> valid_lines (cc_lines payload) ->
  wp (Checkout.handle actor command payload locks context now) (fun _ => inv now) any_refusal db.
Proof.
  intros Hinv [Hne Hpos]. unfold Checkout.handle. do 2 wp_step. apply wp_bind.
  eapply wp_mono; [apply wp_peek_lines| |done]. intros peeked ? (-> & Hfst & Hpk). apply wp_bind.
  eapply wp_mono; [by apply wp_gate_checkout| |done].
  intros drop db1 (Hok1 & [El1 Er1 Eo1 Ep1 _ _ _ Ef1] & Hone). apply wp_bind.
  assert (Hinv1 : inv now db1).
  { eapply inv_intro; [exact Hinv| |done|done|by rewrite Ep1|done].
    eapply books_same; [exact El1|exact Eo1|exact Er1|exact (inv_books _ _ Hinv)]. }
  eapply wp_mono; [apply wp_resolve_lines| |done]. intros resolved ? (-> & Hfst2 & Hres).
  destruct resolved as [|[line0 first] rest] eqn:Hr.
  { exfalso. apply Hne. rewrite <- Hfst, <- Hfst2. done. }
  rewrite <- Hr in *. clear Hr. apply wp_bind.
  eapply wp_mono; [apply wp_place_orders; [exact Hinv1| |]|intros ? ? ?; by wp_step|done].
  - intros e He. split; [by apply Hres|].
    assert (In (fst e) (map fst peeked)) as Hin by (rewrite <- Hfst2; by apply in_map).
    split; [|rewrite Hfst in Hin; by apply Hpos].
    apply in_map_iff in Hin as (e' & He' & Hin'). destruct (Hpk e' Hin') as [Hst' Hf'].
    pose proof (Hres e He) as Hst. unfold stands_for in *. rewrite El1, <- He' in Hst.
    assert (snd e' = snd e) as <- by congruence. done.
  - intros Hd. destruct (Hone Hd) as (e & -> & _). destruct resolved as [|x [|y t]]; try discriminate.
    by exists x.
Qed.
End Checkout.
