(* ===== verification/OfferBooks.v ===== *)
(** * The books through offers

    Creating, countering, rejecting and withdrawing an offer moves no unit.
    [offer.accept] parks the offered units in the award's reservation;
    [checkout.create_from_offer] hands the same units over to the order. *)

From S2P Require Import Prelude Domain StateMachines Store Commands Actions Drops Holds AwardTerms.
From S2P Require Import Cancellation Payment Auction Checkout Offers OfferCheckout Executor Samples.
From S2P Require Import DropBooks OrderActions Ledger Books PaymentBooks StockBooks CheckoutBooks.

(** Everything the invariant reads is the same, the offers apart. *)
Record off_offers (db db' : Db) : Prop := mkOffOffers {
  oo_books : books_frame db db';
  oo_drops : drop_tables_same db db';
  oo_payments : payments db' = payments db;
}.

Lemma inv_off_offers now db db' : inv now db -> off_offers db db' -> offers_wf db' -> inv now db'.
Proof.
  intros [Hb Hwf Hm Hok Hp Hoff] [Hf [Ed Eu] Ep] Hoff'. pose proof Hf as (_ & Eo & _).
  split; unfold orders_wf; rewrite ?Eo, ?Ep; try done.
  - by eapply books_frame_books.
  - by eapply drops_ok_same.
Qed.

(** An offer keeps its identity. *)
Lemma offers_wf_put db db' id o :
  offers_wf db -> offers db' = <[id := o]> (offers db) -> of_id o = id -> offer_wf o -> offers_wf db'.
Proof.
  intros Hwf E Hid Ho k x Hx. rewrite E in Hx.
  apply lookup_insert_Some in Hx as [[<- <-]|[_ Hx]]; [done|by apply Hwf].
Qed.

(** ** The life of an offer *)

Lemma offer_wf_created id agg actor seller lid amount quantity message expires now variant terms :
  offer_wf (mkOffer id agg (listing_aggregate_id seller lid) actor seller 1 OfPending actor
    (amount_minor amount) (currency amount) (exponent amount) quantity message
    [history_entry 1 actor "created" amount quantity message now] expires now now variant terms
    None None None).
Proof.
  split; simpl; try done; [by eexists|eexists; split; [done|]; by destruct amount|].
  eexists. by split.
Qed.

Lemma numbered_snoc h e :
  map oh_revision h = seqZ 1 (Z.of_nat (length h)) -> oh_revision e = Z.of_nat (length h) + 1 ->
  map oh_revision (h ++ [e]) = seqZ 1 (Z.of_nat (length (h ++ [e]))).
Proof.
  intros Hh He. rewrite map_app, Hh, length_app. simpl.
  replace (Z.of_nat (length h + 1)) with (Z.of_nat (length h) + 1) by lia.
  rewrite seqZ_app by lia. f_equal. rewrite He. unfold seqZ. simpl. f_equal. lia.
Qed.

Lemma no_award o : offer_wf o -> of_state o = OfPending \/ of_state o = OfCountered -> of_award o = None.
Proof.
  intros Hw Hs. destruct (of_award o) as [a|] eqn:Ea; [|done].
  destruct (ow_award _ Hw a Ea) as (? & ? & _). by destruct Hs.
Qed.

(** One more entry: the negotiation goes on or ends. *)
Lemma offer_wf_entry o o' e :
  offer_wf o -> of_state o = OfPending \/ of_state o = OfCountered ->
  closing_bump (of_state o') = 0 ->
  of_listing_aggregate_id o' = of_listing_aggregate_id o -> of_seller_pubky o' = of_seller_pubky o ->
  of_history o' = of_history o ++ [e] -> of_revision o' = of_revision o + 1 ->
  oh_revision e = of_revision o + 1 -> oh_amount e = offer_amount o' -> oh_quantity e = of_quantity o' ->
  (if proposes e then of_offered_by o' = oh_actor e else of_offered_by o' = of_offered_by o) ->
  (forall a, of_award o' = Some a ->
     of_state o' <> OfPending /\ of_state o' <> OfCountered /\
     aw_listing_aggregate_id a = of_listing_aggregate_id o' /\
     mkMoney (aw_unit_price_minor a) (aw_currency a) (aw_exponent a) = offer_amount o' /\
     aw_quantity a = of_quantity o' /\
     aw_subtotal_minor a = of_amount_minor o' * of_quantity o' /\
     aw_total_minor a = aw_subtotal_minor a + aw_shipping_minor a) ->
  offer_wf o'.
Proof.
  intros [Hl Hn Hr Ht Ha _] Hs Hc El Es Eh Er Ee Eam Eq Eb Haw.
  assert (Hrev : of_revision o = Z.of_nat (length (of_history o)))
    by (rewrite Hr; destruct Hs as [-> | ->]; simpl; lia).
  rewrite El in Haw. split; rewrite ?El, ?Es, ?Eh; try done.
  - apply numbered_snoc; [done|lia].
  - rewrite Er, Hrev, Hc, length_app. simpl. lia.
  - exists e. by rewrite list.last_snoc.
  - rewrite List.filter_app. simpl. destruct (proposes e).
    + exists e. by rewrite list.last_snoc.
    + rewrite app_nil_r. destruct Ha as (x & Hx & Hb). exists x. split; [done|congruence].
Qed.

(** Only the state and its bookkeeping change. *)
Lemma offer_wf_closed o o' :
  offer_wf o -> closing_bump (of_state o) = 0 -> of_state o' = OfConverted \/ of_state o' = OfExpired ->
  of_revision o' = of_revision o + 1 ->
  of_listing_aggregate_id o' = of_listing_aggregate_id o -> of_seller_pubky o' = of_seller_pubky o ->
  of_history o' = of_history o -> offer_amount o' = offer_amount o -> of_quantity o' = of_quantity o ->
  of_offered_by o' = of_offered_by o -> of_award o' = of_award o -> offer_wf o'.
Proof.
  intros [Hl Hn Hr Ht Ha Haw] Hc Hs Er El Es Eh Eam Eq Eb Ea.
  assert (Eamt : of_amount_minor o' = of_amount_minor o) by (by injection Eam).
  split; rewrite ?El, ?Es, ?Eh, ?Eam, ?Eq, ?Eb, ?Ea; try done.
  - rewrite Er, Hr, Hc. destruct Hs as [-> | ->]; simpl; lia.
  - intros a Ea'. destruct (Haw a Ea') as (_ & _ & ?). rewrite Eamt.
    split; [by destruct Hs as [-> | ->]|]. split; [by destruct Hs as [-> | ->]|]. done.
Qed.

Section Offers.
Context {crate : UuidCrate} (now : Time).

Lemma wp_inv_offer_create db actor command payload homeserver :
  inv now db ->
  wp (Offers.create actor command payload homeserver now) (fun _ => inv now) any_refusal db.
Proof.
  intros Hinv. unfold Offers.create, fetch_live_listing, fetch_listing. do 16 wp_step.
  rename select (live _ = Some _) into Hl. apply live_Some in Hl as [Hl _].
  destruct (bk_listing _ _ (inv_books _ _ Hinv) _ _ Hl) as (_ & (_ & _ & _ & _ & Hform) & _).
  apply wp_bind. eapply wp_mono with (Q' := fun _ => eq db) (R' := any_refusal); [| |done].
  { unfold create_terms. by repeat wp_step. }
  intros terms ? <-. do 2 wp_step. apply wp_bind, wp_insert_event. intros e _ _.
  unfold insert_notification_intent, enqueue.
  repeat wp_step; (eapply inv_off_offers; [exact Hinv|by repeat split|]);
    (eapply offers_wf_put; [exact (inv_offers _ _ Hinv)|reflexivity|done|]);
    (rewrite Hform; apply offer_wf_created).
Qed.

Lemma wp_actionable_offer db actor offer_id aggregate_id :
  wp (actionable_offer actor offer_id aggregate_id now)
    (fun o db' => db' = db /\ offers db !! offer_id = Some o /\
       (of_state o = OfPending \/ of_state o = OfCountered)) any_refusal db.
Proof.
  unfold actionable_offer. do 13 wp_step. split; [done|]. split; [done|].
  rename select (_ && negb (bool_decide (_ = OfCountered)) = false) into Hs.
  apply andb_false_iff in Hs as [Hs|Hs]; reflect_bools; auto.
Qed.

Lemma wp_update_offer db o f :
  offers_wf db -> offers db !! of_id o = Some o -> of_id (f o) = of_id o -> offer_wf (f o) ->
  wp (update_offer o f)
    (fun o' db' => off_offers db db' /\ offers_wf db' /\ o' = f o) any_refusal db.
Proof.
  intros Hwf Ho Hid Hw. unfold update_offer. wp_step. assert (v = o) as -> by congruence.
  split; [by repeat split|]. split; [|done].
  eapply offers_wf_put; [exact Hwf|reflexivity|exact Hid|exact Hw].
Qed.

Lemma wp_counter_terms db actor offer_id homeserver :
  wp (counter_terms actor offer_id homeserver) (fun _ => eq db) any_refusal db.
Proof. unfold counter_terms, fetch_offer_record, require_terms. by repeat wp_step. Qed.

Lemma wp_counter_variant db offer payload terms :
  wp (counter_variant offer payload terms) (fun _ => eq db) any_refusal db.
Proof. unfold counter_variant. by repeat wp_step. Qed.

Lemma wp_offer_listing db offer :
  wp (offer_listing offer)
    (fun l db' => db' = db /\ listings db !! of_listing_aggregate_id offer = Some l) any_refusal db.
Proof.
  unfold offer_listing, fetch_live_listing, fetch_listing. repeat wp_step.
  split; [done|]. rename select (live _ = Some _) into Hl. by apply live_Some in Hl as [Hl _].
Qed.

Lemma wp_inv_offer_counter db actor command payload homeserver :
  inv now db ->
  wp (Offers.counter actor command payload homeserver now) (fun _ => inv now) any_refusal db.
Proof.
  intros Hinv. unfold Offers.counter. apply wp_bind.
  eapply wp_mono; [apply wp_counter_terms| |done]. intros terms ? <-. apply wp_bind.
  eapply wp_mono; [apply wp_actionable_offer| |done]. intros o ? (-> & Ho & Hs). do 6 wp_step.
  rename select (_ || _ = false) into Hasset.
  apply wp_bind. eapply wp_mono; [apply wp_counter_variant| |done]. intros variant ? <-.
  apply wp_bind. eapply wp_mono; [apply wp_offer_listing| |done]. intros l ? [-> _].
  do 2 wp_step. destruct (inv_offers _ _ Hinv _ _ Ho) as [Hid Hw]. rewrite <- Hid in Ho.
  apply wp_bind. eapply wp_mono; [apply wp_update_offer; [apply Hinv|exact Ho|done|]| |done].
  { reflect_bools. eapply (offer_wf_entry o); try done; simpl.
    - destruct (co_amount payload). simpl in *. unfold offer_amount. simpl. congruence.
    - intros a Ha. by rewrite (no_award _ Hw Hs) in Ha. }
  intros o' db' (Hoo & Hwf' & ->). apply wp_bind, wp_insert_event. intros e _ _.
  unfold insert_notification_intent, enqueue. pose proof (inv_off_offers _ _ _ Hinv Hoo Hwf') as Hinv'.
  repeat wp_step; (eapply inv_frame_inv; [|exact Hinv']; by repeat split).
Qed.

Lemma wp_finish_offer db o actor state :
  inv now db -> offers db !! of_id o = Some o ->
  (of_state o = OfPending \/ of_state o = OfCountered) -> state = OfRejected \/ state = OfWithdrawn ->
  wp (finish_offer o actor state now) (fun _ => inv now) any_refusal db.
Proof.
  intros Hinv Ho Hs Ht. unfold finish_offer. apply wp_bind, wp_debug_assert.
  { destruct Hs as [-> | ->], Ht as [-> | ->]; reflexivity. }
  destruct (inv_offers _ _ Hinv _ _ Ho) as [_ Hw].
  eapply wp_mono; [apply wp_update_offer; [apply Hinv|exact Ho|done|]| |done].
  { eapply (offer_wf_entry o); try done; simpl; try (by destruct Ht as [-> | ->]).
    intros a Ha. by rewrite (no_award _ Hw Hs) in Ha. }
  intros o' db' (Hoo & Hwf' & ->). by eapply inv_off_offers.
Qed.

Lemma wp_inv_offer_reject db actor command payload :
  inv now db -> wp (Offers.reject actor command payload now) (fun _ => inv now) any_refusal db.
Proof.
  intros Hinv. unfold Offers.reject. apply wp_bind.
  eapply wp_mono; [apply wp_actionable_offer| |done]. intros o ? (-> & Ho & Hs). do 4 wp_step.
  destruct (inv_offers _ _ Hinv _ _ Ho) as [Hid _]. rewrite <- Hid in Ho. apply wp_bind.
  eapply wp_mono; [apply wp_finish_offer; auto| |done].
  intros o' db' Hinv'. apply wp_bind, wp_insert_event. intros e _ _.
  unfold insert_notification_intent, enqueue.
  repeat wp_step; (eapply inv_frame_inv; [|exact Hinv']; by repeat split).
Qed.

Lemma wp_inv_offer_withdraw db actor command payload :
  inv now db -> wp (Offers.withdraw actor command payload now) (fun _ => inv now) any_refusal db.
Proof.
  intros Hinv. unfold Offers.withdraw. apply wp_bind.
  eapply wp_mono; [apply wp_actionable_offer| |done]. intros o ? (-> & Ho & Hs). do 4 wp_step.
  destruct (inv_offers _ _ Hinv _ _ Ho) as [Hid _]. rewrite <- Hid in Ho. apply wp_bind.
  eapply wp_mono; [apply wp_finish_offer; auto| |done].
  intros o' db' Hinv'. apply wp_bind, wp_insert_event. intros e _ _.
  wp_step. eapply inv_frame_inv; [|exact Hinv']; by repeat split.
Qed.

(** ** [offer.accept] *)

Lemma checked_mul_exact a b c : checked_mul a b = Some c -> c = a * b.
Proof. unfold checked_mul. destruct (in_i64 _); [by intros [= <-]|discriminate]. Qed.
Lemma checked_add_exact a b c : checked_add a b = Some c -> c = a + b.
Proof. unfold checked_add. destruct (in_i64 _); [by intros [= <-]|discriminate]. Qed.

Lemma wp_accept_snapshot db locator homeserver :
  wp (accept_snapshot locator homeserver) (fun _ => eq db) any_refusal db.
Proof. unfold accept_snapshot, fetch_offer_record, require_terms. by repeat wp_step. Qed.

Lemma wp_check_identity db offer fetched :
  wp (check_identity offer fetched) (fun _ => eq db) any_refusal db.
Proof. unfold check_identity, fetch_listing. by repeat wp_step. Qed.

(** The units leave the shelf for the award's reservation. *)
Lemma wp_hold_award db command offer l expires_at :
  inv now db -> listings db !! l_aggregate_id l = Some l -> l_sale_format l = FixedPrice ->
  wp (hold_award command offer l expires_at now)
    (fun held db' => inv now db' /\ offers db' = offers db /\
       r_listing_aggregate_id (snd (fst held)) = l_aggregate_id l /\
       r_quantity (snd (fst held)) = of_quantity offer) any_refusal db.
Proof.
  intros Hinv Hl Hf. unfold hold_award. do 3 wp_step. wp_step.
  assert (v = l) as -> by congruence. apply wp_bind, wp_fresh_uuid. do 3 wp_step.
  split; [|done]. reflect_bools.
  rename select (reservation_check _ = true) into Hrc. unfold reservation_check in Hrc. simpl in Hrc.
  reflect_bools.
  match goal with |- context [upd reservations (<[_ := ?r]>)] =>
    pose proof (books_reserve now db _ _ r (inv_books _ _ Hinv) Hl Hf) as Hb end.
  eapply inv_intro; [exact Hinv| |done|by eapply drops_ok_same; [..|exact (inv_drops _ _ Hinv)]|done|done].
  eapply books_same; [..|apply Hb]; try done.
Qed.

Lemma wp_inv_offer_accept db actor command payload homeserver :
  inv now db ->
  (forall o l, offers db !! oa_offer_id payload = Some o ->
     listings db !! of_listing_aggregate_id o = Some l -> l_sale_format l = FixedPrice) ->
  wp (Offers.accept actor command payload homeserver now) (fun _ => inv now) any_refusal db.
Proof.
  intros Hinv Hfix. unfold Offers.accept. do 4 wp_step. apply wp_bind.
  eapply wp_mono; [apply wp_accept_snapshot| |done]. intros fetched ? <-. apply wp_bind.
  eapply wp_mono; [apply wp_actionable_offer| |done]. intros o ? (-> & Ho & Hs). apply wp_bind.
  eapply wp_mono; [apply wp_check_identity| |done]. intros [] ? <-. do 10 wp_step.
  apply wp_bind. eapply wp_mono; [apply wp_offer_listing| |done]. intros l ? [-> Hl]. do 2 wp_step.
  destruct (bk_listing _ _ (inv_books _ _ Hinv) _ _ Hl) as [HL _].
  destruct (inv_offers _ _ Hinv _ _ Ho) as [Hid Hw]. rewrite <- Hid in Ho.
  pose proof (Hfix o l) as Hf. rewrite <- Hid in Hf. specialize (Hf Ho Hl). rewrite <- HL in Hl.
  apply wp_bind. eapply wp_mono; [apply (wp_hold_award db); [done|done|done]| |done].
  intros held db' (Hinv' & Eo & HrL & Hq). do 4 wp_step. apply wp_bind.
  eapply wp_mono; [apply wp_update_offer; [apply Hinv'|by rewrite Eo|done|]| |done].
  { eapply (offer_wf_entry o); try done. intros aw Haw. injection Haw as <-. simpl.
    rename select (checked_mul _ _ = Some _) into Hmul. apply checked_mul_exact in Hmul as ->.
    rename select (checked_add _ _ = Some _) into Hadd. apply checked_add_exact in Hadd as ->.
    done. }
  intros o' db2 (Hoo & Hwf' & ->). pose proof (inv_off_offers _ _ _ Hinv' Hoo Hwf') as Hinv2.
  apply wp_bind, wp_insert_event. intros e _ _. apply wp_bind, wp_insert_event. intros e2 _ _.
  unfold insert_notification_intent, enqueue.
  repeat wp_step; (eapply inv_frame_inv; [|exact Hinv2]; by repeat split).
Qed.

(** ** [checkout.create_from_offer] *)

(** A reserved listing is not being auctioned. *)
Lemma reserved_not_running db L l k r :
  books db -> listings db !! L = Some l -> reservations db !! k = Some r -> r_status r = RActive ->
  r_listing_aggregate_id r = L -> running_auction l = false.
Proof.
  intros Hb Hl Hr Hs HL. destruct (l_sale_format l) eqn:Hf.
  - unfold running_auction, parse_auction. by rewrite Hf.
  - pose proof (bk_auction _ _ Hb L l Hl Hf) as Hle. destruct (running_auction l); [|done].
    destruct (bk_reservation _ _ Hb k r Hr).
    assert (reservation_hold L r <= reservations_hold db L).
    { apply (map_sum_ge (fun _ r => reservation_hold L r) _ k); [|done].
      intros. by eapply reservation_hold_nonneg. }
    assert (reservation_hold L r = r_quantity r); [|lia].
    unfold reservation_hold. by rewrite bool_decide_true, HL, String.eqb_refl by done.
Qed.

(** The reservation's units become the order's. *)
Lemma books_convert db k r o x t :
  books db -> reservations db !! k = Some r -> r_status r = RActive ->
  is_Some (listings db !! r_listing_aggregate_id r) -> orders db !! o_id o = None ->
  o_state o = OPendingPayment -> o_auction_aggregate_id o = None -> o_stock_held o = true ->
  o_lines o = [x] -> ln_listing_aggregate_id x = r_listing_aggregate_id r ->
  ln_quantity x = r_quantity r ->
  books (upd orders (<[o_id o := o]>)
           (upd reservations (<[k := r <| r_status := RConverted |> <| r_updated_at := t |>]>) db)).
Proof.
  intros Hb Hr Hs [l Hl] Hno Hst Ha Hh Hx HxL Hxq. destruct (bk_reservation _ _ Hb _ _ Hr) as [Hk Hpos].
  set (r' := r <| r_status := RConverted |> <| r_updated_at := t |>).
  assert (Hhold : forall L, reservation_hold L r' - reservation_hold L r
                  = - (if (r_listing_aggregate_id r =? L)%string then r_quantity r else 0)).
  { intros L. unfold reservation_hold. simpl. rewrite Hs. simpl. destruct (_ =? L)%string; lia. }
  pose proof (reserved_not_running _ _ _ _ _ Hb Hl Hr Hs eq_refl) as Hrun.
  assert (Hb1 := books_put_reservation _ _ Hb k r' (Some r) Hk ltac:(done) Hr (bk_reserved _ _ Hb _ _ Hr)).
  match type of Hb1 with ?P -> _ => assert (Hq : P) end.
  { intros L0 l0 Hl0 Hf0. cbn beta iota. rewrite Hhold. pose proof (bk_auction _ _ Hb L0 l0 Hl0 Hf0).
    destruct (_ =? L0)%string; lia. }
  eapply books_ext; [|apply (books_put_order _ _ (Hb1 Hq) (o_id o) o None); [done| |done]].
  - intros L. cbn beta iota. rewrite Hhold. unfold order_hold.
    rewrite Hh, Hx, line_units_one, HxL, Hxq. destruct (_ =? L)%string; lia.
  - split; [|split; [done|congruence]]. intros y Hy. rewrite Hx in Hy. destruct Hy as [<-|[]].
    split; [lia|]. rewrite HxL. by exists l.
Qed.

Lemma wp_load_award db actor command payload :
  offers_wf db ->
  wp (load_award actor command payload now)
    (fun loaded db' => db' = db /\ offers db !! of_id (fst loaded) = Some (fst loaded) /\
       of_award (fst loaded) = Some (snd loaded) /\
       aw_listing_aggregate_id (snd loaded) = oc_listing_aggregate_id payload /\
       aw_quantity (snd loaded) = oc_quantity payload /\ of_state (fst loaded) = OfAccepted /\
       of_buyer_pubky (fst loaded) = actor /\ of_id (fst loaded) = oc_offer_id payload /\
       now < aw_award_expires_at (snd loaded)) any_refusal db.
Proof.
  intros Hwf. unfold load_award. do 25 wp_step. simpl.
  rename select (offers db !! _ = Some _) into Ho. destruct (Hwf _ _ Ho) as [Hid _].
  rename select (of_award _ = Some _) into Ha. rewrite Hid. do 3 (split; [done|]).
  match goal with Hm : negb (bool_decide (aw_award_id <$> _ = _)) || _ || _ || _ = false |- _ =>
    rewrite Ha in Hm; simpl in Hm end.
  match goal with Hm : negb (bool_decide (aw_quantity <$> _ = _)) = false |- _ =>
    rewrite Ha in Hm; simpl in Hm end.
  rename select (award_lapsed _ _ = false) into Hlap. unfold award_lapsed in Hlap.
  rewrite Ha in Hlap. reflect_bools. repeat split; try congruence.
  rename select (_ && _ = false) into Hlate. rewrite bool_decide_true in Hlate by done.
  simpl in Hlate. reflect_bools. lia.
Qed.

Lemma wp_load_hold db offer award payload :
  wp (load_hold offer award payload now)
    (fun r db' => db' = db /\ reservations db !! aw_reservation_id award = Some r /\
       r_status r = RActive /\ is_Some (listings db !! r_listing_aggregate_id r) /\
       r_listing_aggregate_id r = oc_listing_aggregate_id payload /\
       r_quantity r = oc_quantity payload) any_refusal db.
Proof.
  unfold load_hold, fetch_listing_for_update. do 15 wp_step. reflect_bools. eauto 8.
Qed.

Lemma wp_award_delivery db award payload :
  wp (award_delivery award payload) (fun _ => eq db) any_refusal db.
Proof. unfold award_delivery. by repeat wp_step. Qed.

(** A new order and its payment, on settled books. *)
Lemma inv_new_order db db' o p :
  inv now db -> books db' -> orders db' = <[o_id o := o]> (orders db) ->
  payments db' = <[p_id p := p]> (payments db) -> drop_tables_same db db' -> offers_wf db' ->
  order_wf o -> attestable o -> modern o -> inv now db'.
Proof.
  intros [_ Hwf Hm Hok Hpay _] Hb Eo Ep [Ed Eu] Hoff How Hat Hmod.
  split; [done| | |by eapply drops_ok_same| |done].
  - intros k x Hx. rewrite Eo in Hx. apply lookup_insert_Some in Hx as [[<- <-]|[_ Hx]]; [done|].
    by apply Hwf.
  - intros k x Hx. rewrite Eo in Hx. apply lookup_insert_Some in Hx as [[<- <-]|[_ Hx]]; [done|].
    by eapply Hm.
  - intros k x Hx. rewrite Ep in Hx. apply lookup_insert_Some in Hx as [[<- <-]|[_ Hx]]; [done|].
    by apply Hpay.
Qed.

(** What one sale of an award does. *)
Record award_sale (actor : string) (offer : OfferRow) (award : OfferAward) (r : ReservationRow)
    (o : OrderRow) (p : PaymentRow) (db db' : Db) : Prop := mkAwardSale {
  as_offer : offers db !! of_id offer = Some offer /\ of_state offer = OfAccepted /\
    of_award offer = Some award;
  as_buyer : of_buyer_pubky offer = actor;
  as_in_time : now < aw_award_expires_at award;
  as_held : reservations db !! aw_reservation_id award = Some r /\ r_status r = RActive;
  as_converted : reservations db' = <[aw_reservation_id award :=
    r <| r_status := RConverted |> <| r_updated_at := now |>]> (reservations db);
  as_stock : listings db' = listings db;
  as_order : orders db !! o_id o = None /\ orders db' = <[o_id o := o]> (orders db);
  as_parties : o_buyer_pubky o = actor /\ o_seller_pubky o = of_seller_pubky offer;
  as_unpaid : o_state o = OPendingPayment /\ o_stock_held o = true;
  as_line : exists x, o_lines o = [x] /\
    ln_listing_aggregate_id x = of_listing_aggregate_id offer /\
    ln_quantity x = of_quantity offer /\ ln_unit_price x = offer_amount offer;
  as_subtotal : o_subtotal_minor o = of_amount_minor offer * of_quantity offer;
  as_total : o_total_minor o = o_subtotal_minor o + o_shipping_minor o;
  as_payment : payments db' = <[p_id p := p]> (payments db) /\ p_order_id p = o_id o /\
    p_amount_minor p = o_total_minor o;
  as_closed : exists c, offers db' = <[of_id offer := c]> (offers db) /\ of_state c = OfConverted;
}.

Lemma wp_offer_checkout db actor command payload window :
  inv now db ->
  wp (OfferCheckout.handle actor command payload window now)
    (fun _ db' => inv now db' /\ exists offer award r o p,
       of_id offer = oc_offer_id payload /\ award_sale actor offer award r o p db db')
    any_refusal db.
Proof.
  intros Hinv. unfold OfferCheckout.handle. apply wp_bind.
  eapply wp_mono; [apply wp_load_award; apply Hinv| |done].
  intros [offer award] ? (-> & Ho & Ha & HaL & Haq & Hst & Hbuy & Hid & Htime). simpl in *.
  apply wp_bind. eapply wp_mono; [apply wp_load_hold| |done].
  intros r ? (-> & Hr & Hs & Hl & HrL & Hrq). apply wp_bind.
  eapply wp_mono; [apply wp_award_delivery| |done]. intros delivery ? <-.
  apply wp_bind, wp_fresh_uuid, wp_bind, wp_fresh_uuid. do 2 wp_step; [|by do 2 wp_step].
  rename select (_ = Some v) into Hv. change (reservations (upd draws _ _)) with (reservations db) in Hv.
  assert (v = r) as -> by congruence. do 7 wp_step.
  rename select (orders _ !! _ = None) into Hno.
  match goal with |- context [upd orders (<[_ := ?o]>)] => set (o0 := o) in * end.
  match goal with |- context [upd payments (<[_ := ?p]>)] => set (p0 := p) in * end.
  destruct (inv_offers _ _ Hinv _ _ Ho) as [_ Hw]. destruct (ow_listing _ Hw) as [lid Hlid].
  destruct (ow_award _ Hw _ Ha) as (_ & _ & Haw & Hprice & Hqty & Hsub & Htot).
  pose proof (books_convert db _ r o0 (award_line award payload r (fst delivery)) now (inv_books _ _ Hinv)
                Hr Hs Hl Hno eq_refl eq_refl eq_refl eq_refl (eq_trans HaL (eq_sym HrL)) eq_refl) as Hb.
  assert (Hat : attestable o0).
  { do 3 eexists. split; [reflexivity|]. simpl. by rewrite Haw. }
  do 2 wp_step.
  2:{ exfalso. rename select (forall v, _ -> _ = false) into Hn. by specialize (Hn offer Ho). }
  rename select (offers _ !! _ = Some v) into Hv0. change (offers db !! of_id offer = Some v) in Hv0.
  assert (v = offer) as -> by congruence.
  apply wp_bind, wp_insert_event. intros e _ _. apply wp_bind, wp_insert_event. intros e2 _ _.
  unfold insert_notification_intent, enqueue.
  repeat wp_step; (split;
    [eapply (inv_new_order db _ o0 p0 Hinv);
      [by eapply books_same; [..|exact Hb]|reflexivity|reflexivity|by split
      | |by split|exact Hat|intros _; by eexists];
      (eapply offers_wf_put; [exact (inv_offers _ _ Hinv)|reflexivity|done|]);
      (eapply (offer_wf_closed offer); try done; [by rewrite Hst|by left])
    |exists offer, award, r, o0, p0; split; [done|]]).
  all: split; try done.
  all: try (by eexists).
  all: try (eexists; split; [reflexivity|]; simpl; repeat split; congruence).
  all: simpl; destruct (bool_decide (fst delivery = Pickup)); lia.
Qed.

Lemma wp_inv_offer_checkout db actor command payload window :
  inv now db ->
  wp (OfferCheckout.handle actor command payload window now) (fun _ => inv now) any_refusal db.
Proof.
  intros Hinv. eapply wp_mono; [by apply wp_offer_checkout|by intros ? ? [? _]|done].
Qed.

(** A converted offer is never sold again. *)
Lemma converted_refused db actor command payload window offer :
  offers db !! oc_offer_id payload = Some offer -> of_state offer = OfConverted ->
  exists f, OfferCheckout.handle actor command payload window now db = Refused f db.
Proof.
  intros Ho Hs. unfold OfferCheckout.handle, load_award, bind, select, gets. rewrite Ho. simpl.
  unfold refuse_if. repeat (destruct (negb _); [by eexists|]). rewrite Hs. simpl. by eexists.
Qed.
End Offers.
