(* ===== verification/DetailsBooks.v ===== *)
(** * The books through the Locks binding

    A preparation acquires the order's hold and otherwise writes tables the
    accounting invariant does not read; an attachment writes only those. *)

From S2P Require Import Prelude StateMachines Domain Json Seal Store Commands Actions.
From S2P Require Import LocksKeys EventStream Reviews Drops Holds PickupDetails Digital.
From S2P Require Import Cancellation Payment Auction LockResource Checkout ContentLock Locks.
From S2P Require Import Executor Samples DropBooks OrderActions Ledger Books PaymentBooks.
From S2P Require Import StockBooks.

Section Locks.
Context `{!UuidCrate, LC : !LocksCrates, B32 : !Base32Crate} (now : Time).


Lemma wp_load_locks_payment actor command id text db :
  wp (load_locks_payment actor command id text)
    (fun payment db' => db' = db /\ payments db !! id = Some payment /\
       p_buyer_pubky payment = actor /\
       c_aggregate_id command = payment_aggregate_id (p_id payment)) any_refusal db.
Proof. unfold load_locks_payment. repeat wp_step. reflect_bools. auto. Qed.

Lemma wp_locks_revision_guard command payment text db :
  wp (locks_revision_guard command payment text)
    (fun _ db' => db' = db /\ c_expected_revision command = p_revision payment /\
       p_state payment = PAwaitingEntitlement) any_refusal db.
Proof. unfold locks_revision_guard. repeat wp_step. reflect_bools. auto. Qed.

Lemma wp_pin_locks_adapter id db :
  wp (pin_locks_adapter id now)
    (fun p' db' => exists p, payments db !! id = Some p /\
       p' = p <| p_revision := p_revision p + 1 |> <| p_adapter := "locks" |>
              <| p_updated_at := now |> /\
       db' = upd payments (<[id := p']>) db) any_refusal db.
Proof. unfold pin_locks_adapter. repeat wp_step. eauto. Qed.

(** What a pinned payment keeps. *)
Lemma pinned_frame id p db :
  payments db !! id = Some p ->
  inv_frame db (upd payments (<[id := p <| p_revision := p_revision p + 1 |>
                                        <| p_adapter := "locks" |> <| p_updated_at := now |>]>) db).
Proof.
  intros Hp. split; [by repeat split|by repeat split| |done].
  simpl. rewrite fmap_insert. apply insert_id. by rewrite lookup_fmap, Hp.
Qed.

(** An attachment writes only tables the invariant does not read. *)
Lemma wp_frame_register_locks actor command payload keys db :
  wp (register_locks actor command payload keys now) (fun _ => inv_frame db) any_refusal db.
Proof.
  unfold register_locks. do 2 wp_step. apply wp_bind.
  eapply wp_mono; [apply wp_load_locks_payment| |done]. intros payment ? (-> & Hp & _).
  apply wp_bind. eapply wp_mono; [apply wp_locks_revision_guard| |done]. intros [] ? [-> _].
  unfold fetch_order_for_update, window_guard.
  do 19 wp_step.
  eapply wp_mono with (R' := any_refusal) (Q' := fun _ db' => inv_frame db db' /\
    payments db' = payments db); [| |done].
  { wp_step; [wp_step|]. do 2 wp_step; wp_step; by repeat split. }
  intros [] db1 [Hf Ep]. unfold record_binding_outcome. do 2 wp_step.
  apply wp_fresh_uuid. wp_step. apply wp_bind. eapply wp_mono; [apply wp_pin_locks_adapter| |done].
  intros p' db2 (p & Hp' & -> & ->). apply wp_bind, wp_insert_event. intros e _ _. wp_step.
  etransitivity; [exact Hf|]. etransitivity; [|etransitivity; [apply pinned_frame; exact Hp'|]];
    by repeat split.
Qed.

(** ** Preparation *)

Lemma wp_snapshot_resource keys payment order snapshot db :
  wp (snapshot_resource keys payment order snapshot)
    (fun resource db' => db' = db /\ o_payment_method order = None /\
       ls_order_id snapshot = p_order_id payment /\
       ls_expected_reader_pubky snapshot = p_buyer_pubky payment /\
       ls_expected_recipient_pubky snapshot = p_seller_pubky payment /\
       snapshot_matches_price_of_record snapshot payment = true /\
       open_prepared_value keys (p_id payment) CHECKOUT_RESOURCE_DOMAIN
         (ls_expected_resource_ciphertext snapshot) = Some resource /\
       to_hex (blake3_hash resource) = ls_expected_resource_hash snapshot) any_refusal db.
Proof.
  unfold snapshot_resource. repeat wp_step. reflect_bools.
  destruct (o_payment_method order); [by exfalso; eauto|]. auto 10.
Qed.

(** The document the seller published answers for the snapshot. *)
Record matching_lock (fetch : Pubky -> string -> HomeserverFetchOutcome) (payment : PaymentRow)
    (snapshot : LocksSnapshot) (resource : string) (lock : ContentLock) : Prop := mkMatching {
  ml_fetched : exists path document, fetch (p_seller_pubky payment) path = FetchFound document /\
    validate_content_lock_value document resource = inl lock;
  ml_policy : validate_paykit_payment_v1_policy lock = inl tt;
  ml_economics : criterion_matches_payment lock (ls_criterion_id snapshot)
    (ls_amount_minor snapshot) (ls_asset snapshot) (ls_exponent snapshot) = true;
}.

Lemma wp_fetch_matching_lock fetch payment snapshot resource db :
  wp (fetch_matching_lock fetch payment snapshot resource)
    (fun lock db' => db' = db /\ matching_lock fetch payment snapshot resource lock)
    any_refusal db.
Proof.
  unfold fetch_matching_lock. do 4 wp_step. destruct a0 as [[creator prefix] path].
  do 3 wp_step. destruct (fetch creator _) as [document| |] eqn:Ef; [|by wp_step..]. wp_step.
  destruct (validate_content_lock_value document resource) as [lock|] eqn:Ev; [|by wp_step].
  destruct (validate_paykit_payment_v1_policy lock) as [[]|] eqn:Ep; [|by wp_step].
  do 3 wp_step. reflect_bools. subst creator. split; [done|]. split; eauto.
Qed.

(** A repeated preparation only reads. *)
Lemma replay_reads k payment existing db success db' :
  replay_preparation k payment existing now db = Done success db' -> db' = db.
Proof.
  unfold replay_preparation, bind, refuse_if, refuse, ret.
  repeat (case_match; try discriminate); congruence.
Qed.

Lemma replay_panics k payment existing db msg :
  replay_preparation k payment existing now db = Panicked msg -> False.
Proof.
  unfold replay_preparation, bind, refuse_if, refuse, ret.
  repeat (case_match; try discriminate).
Qed.

(** The lock point, with its window. *)
Lemma wp_acquire_window db o window source :
  inv now db -> orders db !! o_id o = Some o ->
  wp (acquire_payment_hold o window source now)
    (fun o' db' => orders db' !! o_id o = Some o' /\
       o_guarantee_policy_version o' = o_guarantee_policy_version o /\
       (o_auction_aggregate_id o = None -> o_stock_held o' = true /\
          o_hold_expires_at o' = Some (now + seconds window))) any_refusal db.
Proof.
  intros Hinv Ho. unfold acquire_payment_hold. wp_step; [wp_step; reflect_bools|do 3 wp_step].
  - split; [done|]. split; [done|]. intros E. rewrite E in *. by destruct Heqb as [? ?].
  - wp_step. assert (v = o) as -> by congruence. split; [exact (lookup_insert_eq (orders db) _ _)|done].
  - wp_step. eapply wp_mono;
      [exact (wp_acquire_lines now _ _ _ _ _ (inv_books _ _ Hinv) Ho)|intros [] db' [_ Hf]|done].
    destruct (listings_only_frame _ _ Hf) as [Eo _]. wp_step.
    assert (v = o) as -> by congruence. split; [exact (lookup_insert_eq (orders db') _ _)|done].
Qed.

(** The effect of a preparation: the correlation of the snapshot's terms, the
    pinned payment, the held order. *)
Record prepared (keys : LocksKeys) (payment : PaymentRow) (order : OrderRow)
    (snapshot : LocksSnapshot) (resource : string) (window : Z) (success : HandlerSuccess)
    (db db' : Db) : Prop := mkPrepared {
  pd_correlation : exists n n' r id,
    let c := prepared_correlation id payment snapshot (o_guarantee_policy_version order)
      (encrypt_prepared_value keys n (p_id payment) RESOURCE_DOMAIN resource)
      (encrypt_prepared_value keys n' (p_id payment) CLIENT_REFERENCE_DOMAIN
         (mint_client_reference r)) (now + seconds window) now in
    locks_correlations db !! id = None /\ correlation_clash c db = false /\
    correlation_check c = true /\
    locks_correlations db' = <[id := c]> (locks_correlations db) /\
    hs_result success = VPrepareLocks (mint_client_reference r) (now + seconds window);
  pd_payment : payments db' = <[p_id payment := payment <| p_revision := p_revision payment + 1 |>
    <| p_adapter := "locks" |> <| p_updated_at := now |>]> (payments db);
  pd_order : o_auction_aggregate_id order = None ->
    exists o', orders db' !! o_id order = Some o' /\ o_stock_held o' = true /\
      o_hold_expires_at o' = Some (now + seconds window);
}.

Lemma wp_bind_preparation command keys payment order snapshot resource window db :
  inv now db -> payments db !! p_id payment = Some payment ->
  orders db !! o_id order = Some order -> ls_order_id snapshot = o_id order ->
  wp (bind_preparation command keys payment order snapshot resource window now)
    (fun success db' => inv now db' /\
       prepared keys payment order snapshot resource window success db db') any_refusal db.
Proof.
  intros Hinv Hp Ho Hsn. unfold bind_preparation. do 2 apply wp_bind. eapply wp_mono;
    [apply (wp_both _ _ _ _ (wp_inv_acquire now db order window HOLD_SOURCE_LOCKS Hinv Ho)
       (wp_both _ _ _ _ (wp_acquire_window db order window HOLD_SOURCE_LOCKS Hinv Ho)
          (wp_acquire_payment_hold db order window HOLD_SOURCE_LOCKS now (inv_books _ _ Hinv) Ho)))
    | |done].
  intros o' db1 ((Hinv1 & _ & _ & Ep1) & (Ho1 & Hpol & Hheld) & (_ & _ & _ & Hdb1)).
  assert (Ec : locks_correlations db1 = locks_correlations db) by (by rewrite Hdb1).
  wp_step. do 2 wp_step. apply wp_bind, wp_fresh_uuid. do 8 wp_step.
  assert (a = o_guarantee_policy_version order) as ->.
  { rename select (_ <$> _ = Some a) into Ea. rewrite Hsn in Ea.
    change (o_guarantee_policy_version <$> (orders db1 !! o_id order) = Some a) in Ea.
    rewrite Ho1 in Ea. injection Ea as <-. exact Hpol. }
  do 2 wp_step. rename select (correlation_clash _ _ = false) into Hcl.
  rename select (correlation_check _ = true) into Hck.
  rename select (locks_correlations _ !! _ = None) into Hnew.
  unfold record_binding_outcome. do 2 wp_step. apply wp_fresh_uuid. wp_step. apply wp_bind.
  eapply wp_mono; [apply wp_pin_locks_adapter| |done].
  intros p' db2 (p & Hp' & -> & ->). wp_step.
  assert (p = payment) as ->.
  { change (payments db1 !! p_id payment = Some p) in Hp'. rewrite Ep1 in Hp'. congruence. }
  split.
  - eapply inv_frame_inv; [apply pinned_frame; exact Hp'|].
    eapply inv_frame_inv; [|exact Hinv1]. by repeat split.
  - split.
    + do 4 eexists. split; [rewrite <- Ec; exact Hnew|]. split; [|split; [exact Hck|]].
      * unfold correlation_clash in *. rewrite <- Ec. exact Hcl.
      * rewrite <- Ec. by split.
    + rewrite <- Ep1. reflexivity.
    + intros Ha. exists o'. split; [exact Ho1|]. by apply Hheld.
Qed.

Lemma wp_prepare_locks actor command payload keys fetch window db :
  inv now db ->
  wp (prepare_locks actor command payload keys fetch window now)
    (fun success db' => inv now db' /\
       exists k f payment, keys = Some k /\ fetch = Some f /\
         payments db !! pl_payment_id payload = Some payment /\ p_buyer_pubky payment = actor /\
         match correlation_of (pl_payment_id payload) db with
         | Some existing => db' = db /\ replay_preparation k payment existing now db = Done success db
         | None => exists order snapshot resource lock,
             orders db !! p_order_id payment = Some order /\
             locks_snapshots db !! pl_payment_id payload = Some snapshot /\
             c_expected_revision command = p_revision payment /\
             p_state payment = PAwaitingEntitlement /\ o_state order = OPendingPayment /\
             o_payment_method order = None /\ ls_order_id snapshot = p_order_id payment /\
             ls_expected_reader_pubky snapshot = actor /\
             ls_expected_recipient_pubky snapshot = p_seller_pubky payment /\
             snapshot_matches_price_of_record snapshot payment = true /\
             to_hex (blake3_hash resource) = ls_expected_resource_hash snapshot /\
             matching_lock f payment snapshot resource lock /\
             prepared k payment order snapshot resource window success db db'
         end) any_refusal db.
Proof.
  intros Hinv. unfold prepare_locks. destruct keys as [k|]; [|by wp_step].
  destruct fetch as [f|]; [|by wp_step]. apply wp_bind.
  eapply wp_mono; [apply wp_load_locks_payment| |done]. intros payment ? (-> & Hp & Hbuyer & _).
  pose proof (inv_payments _ _ Hinv _ _ Hp) as Hid. do 2 wp_step. rewrite Hid.
  destruct (correlation_of (pl_payment_id payload) db) as [existing|].
  - unfold wp. destruct (replay_preparation k payment existing now db) as [success db'| | |] eqn:Er;
      try done; [|by apply replay_panics in Er].
    apply replay_reads in Er as Hdb. subst db'. split; [done|]. by exists k, f, payment.
  - apply wp_bind. eapply wp_mono; [apply wp_locks_revision_guard| |done].
    intros [] ? (-> & Hrev & Hst). unfold fetch_order_for_update. do 10 wp_step. apply wp_bind.
    eapply wp_mono; [apply wp_snapshot_resource| |done].
    intros resource ? (-> & Hm & Hon & Hr & Hrc & Hpr & _ & Hh). apply wp_bind.
    eapply wp_mono; [apply wp_fetch_matching_lock| |done]. intros lock ? [-> Hl].
    rename select (orders db !! _ = Some _) into Ho.
    assert (Hoid : o_id a = p_order_id payment) by (by apply (inv_orders _ _ Hinv) in Ho as [? _]).
    rewrite <- Hid in Hp.
    eapply wp_mono; [apply wp_bind_preparation; [done|done|by rewrite Hoid|by rewrite Hoid]| |done].
    intros success db' [Hinv' Hpd]. split; [done|]. exists k, f, payment. reflect_bools.
    do 3 (split; [congruence|]). split; [done|]. exists a, a0, resource, lock.
    do 12 (split; [first [done|congruence|by rewrite <- Hid]|]). congruence.
Qed.

Lemma wp_inv_prepare actor command payload keys fetch window db :
  inv now db ->
  wp (prepare_locks actor command payload keys fetch window now) (fun _ => inv now) any_refusal db.
Proof. intros Hinv. eapply wp_mono; [by apply wp_prepare_locks|by intros ? ? [? _]|done]. Qed.
End Locks.

(** ** The books through delivery details

    Pickup details, digital deliverables and the amount-band consent live in
    tables the accounting invariant does not read; a digital delivery rewrites
    the public columns of its listing and no stock column. *)

Section Details.
Context `{!UuidCrate, !JsonText} (now : Time).

(** ** Pickup details *)

Lemma wp_frame_lock_counter listing expected db :
  wp (lock_counter_cas listing expected now) (fun _ => inv_frame db) any_refusal db.
Proof. unfold lock_counter_cas. repeat wp_step; by repeat split. Qed.

Lemma wp_frame_notify_paid_buyers command kind listing actor db :
  wp (notify_paid_buyers command kind listing actor now) (fun _ => inv_frame db) any_refusal db.
Proof.
  unfold notify_paid_buyers, next_details_event_revision. do 3 wp_step; [wp_step; reflexivity|].
  do 2 wp_step. apply (wp_for_each (fun _ => inv_frame db)); [reflexivity|].
  intros [i [buyer order_id]] _ db' Hf. apply wp_bind, wp_insert_event. intros e _ _.
  unfold insert_notification_intent, enqueue.
  repeat wp_step; (etransitivity; [exact Hf|by repeat split]).
Qed.

Lemma wp_frame_details_event actor command listing kind notification db :
  wp (details_event actor command listing kind notification now)
    (fun _ => inv_frame db) any_refusal db.
Proof.
  unfold details_event, next_details_event_revision. do 2 wp_step.
  apply wp_bind, wp_insert_event. intros e _ _. apply wp_bind.
  eapply wp_mono; [apply wp_frame_notify_paid_buyers| |done].
  intros [] db' Hf. wp_step. etransitivity; [|exact Hf]. by repeat split.
Qed.

Lemma wp_guard_details actor command pickup sandbox db :
  wp (guard_details_command actor command pickup sandbox)
    (fun l db' => db' = db /\ is_Some pickup) any_refusal db.
Proof.
  unfold guard_details_command, fetch_listing_for_update. do 9 wp_step. split; [done|].
  rename select (_ || sandbox = false) into Hp. reflect_bools. by destruct pickup.
Qed.

Lemma wp_frame_set_pickup actor command payload pickup sandbox db :
  wp (PickupDetails.set actor command payload pickup sandbox now)
    (fun _ => inv_frame db) any_refusal db.
Proof.
  unfold PickupDetails.set. apply wp_bind. eapply wp_mono; [apply wp_guard_details| |done].
  intros l ? [-> [keys ->]]. do 4 wp_step. apply wp_bind.
  eapply wp_mono; [apply wp_frame_lock_counter| |done]. intros counter db1 Hf1. do 6 wp_step.
  all: apply wp_bind; eapply wp_mono; [apply wp_frame_details_event| |done].
  all: intros id db2 Hf2; wp_step; (etransitivity; [exact Hf1|]); (etransitivity; [|exact Hf2]).
  all: by repeat split.
Qed.

Lemma wp_frame_clear_pickup actor command payload pickup sandbox db :
  wp (PickupDetails.clear actor command payload pickup sandbox now)
    (fun _ => inv_frame db) any_refusal db.
Proof.
  unfold PickupDetails.clear, delete_unpinned. apply wp_bind.
  eapply wp_mono; [apply wp_guard_details| |done].
  intros l ? [-> _]. apply wp_bind.
  eapply wp_mono; [apply wp_frame_lock_counter| |done]. intros counter db1 Hf1. do 4 wp_step.
  all: apply wp_bind; eapply wp_mono; [apply wp_frame_details_event| |done].
  all: intros id db2 Hf2; wp_step; (etransitivity; [exact Hf1|]); (etransitivity; [|exact Hf2]).
  all: by repeat split.
Qed.

Lemma wp_frame_band_consent actor command payload db :
  wp (set_band_consent actor command payload now) (fun _ => inv_frame db) any_refusal db.
Proof.
  unfold set_band_consent. do 7 wp_step. wp_step. apply wp_bind, wp_insert_event. intros e _ _.
  wp_step. by repeat split.
Qed.

(** ** Digital deliverables *)

Lemma wp_frame_lock_digital listing expected db :
  wp (lock_digital_counter listing expected now) (fun _ => inv_frame db) any_refusal db.
Proof. unfold lock_digital_counter. repeat wp_step; by repeat split. Qed.

Lemma wp_in_use listing_aggregate_id db :
  wp (listing_digital_in_use listing_aggregate_id) (fun _ => eq db) any_refusal db.
Proof. unfold listing_digital_in_use. by repeat wp_step. Qed.

Lemma wp_frame_supersede listing_aggregate_id db :
  wp (supersede_versions listing_aggregate_id now) (fun _ => inv_frame db) any_refusal db.
Proof. unfold supersede_versions. repeat wp_step; by repeat split. Qed.

(** The listing the command names, owned by the actor. *)
Lemma wp_digital_listing actor row db :
  wp (digital_listing actor row) (fun l db' => db' = db /\ row = Some l) any_refusal db.
Proof. unfold digital_listing. do 7 wp_step. done. Qed.

Lemma wp_columns db L f kind content_type size :
  inv now db -> f = set_delivery_columns kind content_type size ->
  wp (update_where listings listing_check L (fun _ => true) f) (fun _ => inv now) any_refusal db.
Proof.
  intros Hinv ->. wp_step; [|done]. rename select (listings db !! _ = Some _) into Hl.
  destruct (bk_listing _ _ (inv_books _ _ Hinv) _ _ Hl) as (Hid & Hwf & _).
  eapply inv_intro; [exact Hinv| |done|by eapply drops_ok_same; [..|exact (inv_drops _ _ Hinv)]|done|done].
  eapply books_touch_listing; [exact (inv_books _ _ Hinv)|exact Hl|done| |done|done|done].
  destruct Hwf as (_ & ? & ? & ? & ?). do 4 (split; [done|]). done.
Qed.

Lemma wp_frame_digital_event actor command listing kind db :
  wp (digital_event actor command listing kind now) (fun _ => inv_frame db) any_refusal db.
Proof.
  unfold digital_event, next_details_event_revision. do 2 wp_step. apply wp_insert_event.
  intros e _ _. by repeat split.
Qed.

(** Writing the columns and the event, from a state the invariant holds in. *)
Lemma wp_publish {A} db L kind content_type size actor command listing event (k : Uuid -> A) :
  inv now db ->
  wp (do* update_where listings listing_check L (fun _ => true)
            (set_delivery_columns kind content_type size) in
      let* id := digital_event actor command listing event now in ret (k id))
    (fun _ => inv now) any_refusal db.
Proof.
  intros Hinv. apply wp_bind. eapply wp_mono; [by eapply wp_columns| |done]. intros ? db1 Hinv1.
  apply wp_bind. eapply wp_mono; [apply wp_frame_digital_event| |done]. intros id db2 Hf.
  wp_step. exact (inv_frame_inv _ _ _ Hf Hinv1).
Qed.

Lemma wp_inv_clear_digital actor command payload keys db :
  inv now db ->
  wp (clear_delivery actor command payload keys now) (fun _ => inv now) any_refusal db.
Proof.
  intros Hinv. unfold clear_delivery, fetch_listing_for_update. do 8 wp_step. apply wp_bind.
  eapply wp_mono; [apply wp_frame_lock_digital| |done]. intros v db1 Hf1. apply wp_bind.
  eapply wp_mono; [apply wp_in_use| |done]. intros used ? <-. do 2 wp_step. apply wp_bind.
  eapply wp_mono; [apply wp_frame_supersede| |done]. intros [] db2 Hf2.
  pose proof (inv_frame_inv now db db2 (transitivity Hf1 Hf2) Hinv) as Hinv2.
  apply wp_bind. eapply wp_mono with (Q' := fun _ => inv now) (R' := any_refusal); [| |done].
  - wp_step; [|done]. eapply inv_frame_inv; [|exact Hinv2]. by repeat split.
  - intros ? db3 Hinv3. by apply (wp_publish _ _ _ _ _ _ _ _ _ (fun id => mkSuccess _ [id] _)).
Qed.

Lemma wp_frame_check_kind listing kind db :
  wp (check_kind_change listing kind) (fun _ => eq db) any_refusal db.
Proof. unfold check_kind_change, listing_digital_in_use. by repeat wp_step. Qed.

Lemma wp_frame_insert_version v db :
  wp (insert_version v) (fun _ => inv_frame db) any_refusal db.
Proof. unfold insert_version. repeat wp_step; by repeat split. Qed.

Lemma wp_check_file homeserver max_bytes listing delivery db :
  wp (check_file homeserver max_bytes listing delivery) (fun _ => eq db) any_refusal db.
Proof. unfold check_file. repeat wp_step; try done. by apply wp_guard. Qed.

Lemma wp_inv_set_digital actor command payload keys homeserver max_bytes db :
  inv now db ->
  wp (set_delivery actor command payload keys homeserver max_bytes now)
    (fun _ => inv now) any_refusal db.
Proof.
  intros Hinv. unfold set_delivery, fetch_listing, fetch_listing_for_update. do 4 wp_step.
  apply wp_bind. eapply wp_mono; [apply wp_digital_listing| |done]. intros l0 ? [-> _]. apply wp_bind.
  eapply wp_mono; [apply wp_check_file| |done]. intros [] ? <-. do 2 wp_step. apply wp_bind.
  eapply wp_mono; [apply wp_digital_listing| |done]. intros l ? [-> _]. apply wp_bind.
  eapply wp_mono; [apply wp_frame_lock_digital| |done]. intros v db1 Hf1. apply wp_bind.
  eapply wp_mono; [apply wp_frame_check_kind| |done]. intros [] ? <-. apply wp_bind.
  eapply wp_mono with (Q' := fun _ => inv_frame db1) (R' := any_refusal); [| |done].
  { destruct (sg_delivery payload); try (apply wp_bind, wp_fresh_uuid);
      apply wp_ret; by repeat split. }
  intros id db2 Hf2. do 2 wp_step.
  destruct (match sg_delivery payload with DeliverFile _ => _ | _ => _ end) as [[b3 sz] ct].
  apply wp_bind. eapply wp_mono; [apply wp_frame_supersede| |done]. intros [] db3 Hf3. apply wp_bind.
  eapply wp_mono; [apply wp_frame_insert_version| |done]. intros [] db4 Hf4.
  assert (Hinv4 : inv now db4).
  { eapply inv_frame_inv; [|exact Hinv]. etransitivity; [exact Hf1|]. etransitivity; [exact Hf2|].
    etransitivity; [|exact Hf4]. etransitivity; [|exact Hf3]. by repeat split. }
  apply wp_bind. eapply wp_mono with (Q' := fun _ => inv now) (R' := any_refusal); [| |done].
  - wp_step; [|done]. eapply inv_frame_inv; [|exact Hinv4]. by repeat split.
  - intros ? db5 Hinv5. by apply (wp_publish _ _ _ _ _ _ _ _ _ (fun id => mkSuccess _ [id] _)).
Qed.

Lemma wp_inv_framed {A} (m : H A) db :
  wp m (fun _ => inv_frame db) any_refusal db -> inv now db -> wp m (fun _ => inv now) any_refusal db.
Proof.
  intros Hm Hinv. eapply wp_mono; [exact Hm| |done]. intros ? db' Hf.
  exact (inv_frame_inv _ _ _ Hf Hinv).
Qed.
End Details.
