(* ===== verification/WorkerBooks.v ===== *)
(** * The books through the worker sweeps

    Offers, awards, drops, auctions, lapsed holds and idle checkouts: every
    pass of [Workers] keeps the invariant and never
    dies, whatever Paykit answers. *)

From stdpp Require Import sorting.
From S2P Require Import Prelude Domain StateMachines Store Commands Actions Drops Holds.
From S2P Require Import Cancellation Payment Auction Offers Outbox LocksVerification ListingDeletion.
From S2P Require Import Within Workers Executor Samples DropBooks OrderActions.
From S2P Require Import Ledger Books PaymentBooks StockBooks CheckoutBooks OfferBooks.

(** ** Lists of rows *)

Lemma elem_of_ordered {A B} (before : B -> B -> Prop) `{!RelDecision before} (key : A -> B) l x :
  In x (ordered_by before key l) <-> In x l.
Proof.
  unfold ordered_by. by rewrite <- !list_elem_of_In, merge_sort_Permutation.
Qed.

Lemma in_rows {K V} `{Countable K} (m : gmap K V) v : In v (rows m) <-> exists k, m !! k = Some v.
Proof.
  unfold rows. rewrite in_map_iff. split.
  - intros ([k x] & <- & Hin). exists k. by apply list_elem_of_In, elem_of_map_to_list in Hin.
  - intros [k Hk]. exists (k, v). split; [done|]. by apply list_elem_of_In, elem_of_map_to_list.
Qed.

Lemma nodup_map_filter {A B} (f : A -> B) (P : A -> bool) l :
  NoDup (map f l) -> NoDup (map f (List.filter P l)).
Proof.
  induction l as [|x l IH]; simpl; [done|]. rewrite list.NoDup_cons. intros [Hx Hl].
  destruct (P x); simpl; [|by apply IH]. rewrite list.NoDup_cons. split; [|by apply IH].
  intros Hin. apply Hx. apply list_elem_of_In, in_map_iff in Hin as (y & <- & Hy).
  apply filter_In in Hy as [Hy _]. by apply list_elem_of_In, in_map.
Qed.

(** A selection of rows stored under their key has each key once. *)
Lemma selected_once {K V B} `{Countable K} (m : gmap K V) (key : V -> K) (P : V -> bool)
    (before : B -> B -> Prop) `{!RelDecision before} (by_ : V -> B) :
  (forall k v, m !! k = Some v -> key v = k) ->
  NoDup (map key (ordered_by before by_ (List.filter P (rows m)))).
Proof.
  intros Hk. unfold ordered_by. rewrite merge_sort_Permutation. apply nodup_map_filter.
  assert (map key (rows m) = map fst (map_to_list m)) as ->; [|apply NoDup_fst_map_to_list].
  unfold rows. rewrite map_map. apply map_ext_in. intros [k v] Hin.
  apply list_elem_of_In, elem_of_map_to_list in Hin. by apply Hk.
Qed.

Lemma selected_stored {K V B} `{Countable K} (m : gmap K V) (key : V -> K) (P : V -> bool)
    (before : B -> B -> Prop) `{!RelDecision before} (by_ : V -> B) v :
  (forall k v, m !! k = Some v -> key v = k) ->
  In v (ordered_by before by_ (List.filter P (rows m))) -> m !! key v = Some v /\ P v = true.
Proof.
  intros Hk Hin. apply elem_of_ordered, filter_In in Hin as [Hin HP].
  apply in_rows in Hin as [k Hm]. by rewrite (Hk _ _ Hm).
Qed.

Section Workers.
Context {crate : UuidCrate} (now : Time).

(** ** Offers *)

Lemma wp_lapse db id cond reason :
  inv now db -> (forall o, cond o = true -> closing_bump (of_state o) = 0) ->
  wp (update_where offers offer_check id cond (lapse_offer reason now))
    (fun _ => inv now) any_refusal db.
Proof.
  intros Hinv Hc. wp_step; [|done]. rename select (offers db !! _ = Some _) into Ho.
  destruct (inv_offers _ _ Hinv _ _ Ho) as [Hid Hw].
  eapply inv_off_offers; [exact Hinv|by repeat split|].
  eapply offers_wf_put; [apply Hinv|reflexivity|exact Hid|].
  eapply (offer_wf_closed v); try done; [by apply Hc|by right].
Qed.

Lemma negotiating_open o : negotiating o = true -> closing_bump (of_state o) = 0.
Proof. unfold negotiating. by destruct (of_state o). Qed.

Lemma wp_inv_expire_negotiations db :
  inv now db -> wp (expire_negotiations now) (fun _ => inv now) any_refusal db.
Proof.
  intros Hinv. unfold expire_negotiations. do 2 wp_step. apply wp_bind.
  eapply wp_mono; [apply (wp_map_each (fun _ _ => inv now) any_refusal _ _ [])| |done]; [done| |].
  - intros o rest seen db' Hinv'. unfold expire_negotiation. apply wp_bind.
    eapply wp_mono; [apply wp_lapse; [done|apply negotiating_open]| |done].
    intros [w|] db1 H1; [|by wp_step]. apply wp_bind, wp_insert_event. intros e _ _. wp_step.
    eapply inv_frame_inv; [|exact H1]. by repeat split.
  - intros flips db' Hinv'. by wp_step.
Qed.

Lemma return_award_wf l q :
  listing_wf l -> 0 < q <= l_reserved_quantity l -> listing_check (return_award q now l) = true ->
  listing_wf (return_award q now l).
Proof.
  intros Hwf Hq Hc. split; [exact Hc|]. clear Hc. pose proof (listing_wf_balance l Hwf).
  destruct Hwf as (_ & Hs & _ & Hr & Hid).
  assert (Hrun : running_auction l = false)
    by (destruct (running_auction l); [destruct (Hr eq_refl); lia|done]).
  rewrite (running_same l) by reflexivity. rewrite Hrun. simpl.
  destruct (l_available_quantity l =? 0) eqn:E; reflect_bools.
  - split; [split; [lia|done]|]. by split.
  - assert (l_state l = LAvailable) as -> by (apply Hs; lia).
    split; [split; [lia|done]|]. by split.
Qed.

(** The units of the award's reservation are back; the rest is as it was. *)
Lemma books_return_award db r l L :
  books db -> reservations db !! r_id r = Some r -> r_status r = RActive ->
  r_listing_aggregate_id r = L -> listings db !! L = Some l -> r_quantity r <= l_reserved_quantity l ->
  listing_check (return_award (r_quantity r) now l) = true ->
  books (upd listings (<[L := return_award (r_quantity r) now l]>)
           (upd reservations (<[r_id r := r <| r_status := RExpired |> <| r_updated_at := now |>]>) db)).
Proof.
  intros Hb Hr Hs HL Hl Hq Hc. pose proof (books_expire db r r now Hb Hr eq_refl Hs) as Hb1.
  destruct (bk_reservation _ _ Hb _ _ Hr) as [_ Hpos].
  destruct (bk_listing _ _ Hb _ _ Hl) as (_ & Hwf & _).
  eapply books_ext; [|eapply (books_move_listing _ _ L l _ Hb1 Hl)]; try done.
  - intros L'. cbn beta. rewrite HL. simpl. destruct (L =? L')%string; lia.
  - by apply return_award_wf.
Qed.

Lemma wp_inv_expire_due_award db id :
  inv now db -> wp (expire_due_award id now) (fun _ => inv now) any_refusal db.
Proof.
  intros Hinv. unfold expire_due_award. do 2 wp_step.
  destruct (offers db !! id) as [o|] eqn:Ho; [|by wp_step]. simpl.
  destruct (lapsed_award now o) as [a|] eqn:Ea; [|by wp_step]. simpl.
  do 2 wp_step; [|by wp_step]. rename select (reservations db !! _ = Some v) into Hr.
  destruct (bk_reservation _ _ (inv_books _ _ Hinv) _ _ Hr) as [Hrid _]. rewrite <- Hrid in *.
  reflect_bools. do 2 wp_step. simplify_eq. apply wp_bind.
  destruct (negb _ || negb _) eqn:Em; [by wp_step|]. reflect_bools. simpl in *. wp_step.
  do 2 wp_step; [|by wp_step]. do 2 wp_step. apply wp_bind.
  rename select (listings _ !! _ = Some _) into Hl. change (listings db !! of_listing_aggregate_id o = Some v0) in Hl.
  reflect_bools. rename select (r_quantity v = of_quantity o) into Hq. rewrite <- Hq in *.
  eapply wp_mono; [apply wp_lapse| |done].
  - eapply inv_intro; [exact Hinv| |done|by eapply drops_ok_same; [..|exact (inv_drops _ _ Hinv)]|done|done].
    by apply books_return_award; [apply Hinv|..].
  - intros x Hx. reflect_bools. by rewrite Hx.
  - intros w db' Hinv'. do 2 wp_step. apply wp_bind, wp_insert_event. intros e _ _. wp_step.
    eapply inv_frame_inv; [|exact Hinv']. by repeat split.
Qed.

Lemma keeps_expire_due_offers : keeps (inv now) (expire_due_offers now).
Proof.
  apply keeps_and_then; [by apply keeps_transaction, wp_inv_expire_negotiations|]. intros n.
  apply keeps_and_then; [apply keeps_reading|]. intros due. apply keeps_and_then.
  - apply keeps_each. intros id _. apply keeps_caught, keeps_transaction.
    intros db Hinv. by apply wp_inv_expire_due_award.
  - intros awards. apply keeps_finished.
Qed.
(** ** Drops *)

(** Server time moves one drop at a time. *)
Lemma wp_transitions_alone db d command_id :
  drops_ok now db -> drops db !! d_aggregate_id d = Some d ->
  wp (apply_time_transitions d command_id now)
    (fun _ db' => forall k, k <> d_aggregate_id d -> drops db' !! k = drops db !! k) any_refusal db.
Proof.
  intros Hok Hd. pose proof (dk_row _ _ Hok _ d Hd) as Hrow.
  unfold apply_time_transitions, update_drop, deactivate_drop_listing_bindings.
  destruct (is_active_state (d_state d)) eqn:Ha; cbn [negb]; [|by wp_step].
  case_bool_decide as Et; [by wp_step|].
  apply wp_bind, wp_debug_assert; [by eapply drop_can_derived|]. do 2 wp_step.
  apply wp_bind. eapply wp_mono with (R' := any_refusal) (Q' := fun _ db' =>
    forall k, k <> d_aggregate_id d -> drops db' !! k = drops db !! k); [| |done].
  - assert (Hne : forall d' k, k <> d_aggregate_id d ->
      drops (upd drops (<[d_aggregate_id d := d']>) db) !! k = drops db !! k).
    { intros d' k Hk. by apply (lookup_insert_ne (drops db)). }
    wp_step; wp_step; intros k Hk; by apply Hne.
  - intros [] db' Hk. apply wp_bind, wp_insert_event. intros e _ _. by wp_step.
Qed.

Lemma wp_inv_transition_drop db d :
  inv now db -> drops db !! d_aggregate_id d = Some d ->
  wp (transition_drop now d)
    (fun _ db' => inv now db' /\
       forall k, k <> d_aggregate_id d -> drops db' !! k = drops db !! k) any_refusal db.
Proof.
  intros Hinv Hd. unfold transition_drop. apply wp_bind, wp_fresh_uuid.
  set (db0 := upd draws _ db).
  assert (H0 : inv now db0) by (eapply inv_frame_inv; [|exact Hinv]; by repeat split).
  apply wp_bind. eapply wp_mono; [|intros d' db' Hpost; apply wp_ret; exact Hpost|done].
  eapply wp_mono; [apply (wp_both _ _ _ _
    (wp_apply_time_transitions now db0 _ d _ (inv_drops _ _ H0) Hd)
    (wp_transitions_alone db0 d _ (inv_drops _ _ H0) Hd))| |done].
  intros d' db' [(Hok & [El Er Eo Ep _ _ _ Ef] & _) Hk]. split; [|exact Hk].
  eapply inv_intro; [exact H0| |done|done|by rewrite Ep|done].
  eapply books_same; [exact El|exact Eo|exact Er|exact (inv_books _ _ H0)].
Qed.

Lemma keeps_transition_due_drops : keeps (inv now) (transition_due_drops now).
Proof.
  apply keeps_transaction. intros db Hinv. do 2 wp_step. apply wp_bind.
  assert (Hkey : forall k d, drops db !! k = Some d -> d_aggregate_id d = k).
  { intros k d Hd. by destruct (dk_row _ _ (inv_drops _ _ Hinv) k d Hd). }
  pose (I := fun (rest : list DropRow) (_ : list bool) (db' : Db) =>
    inv now db' /\ NoDup (map d_aggregate_id rest) /\
    forall d, In d rest -> drops db' !! d_aggregate_id d = Some d).
  eapply wp_mono; [apply (wp_map_each I any_refusal _ _ [])| |done].
  - split; [done|]. split; [by apply selected_once|]. intros d Hd.
    by apply (selected_stored (drops db) d_aggregate_id) in Hd as [? _].
  - intros d rest seen db' (Hinv' & Hnd & Hall). simpl in Hnd. apply list.NoDup_cons in Hnd as [Hnot Hnd].
    eapply wp_mono; [apply wp_inv_transition_drop; [done|apply Hall; by left]| |done].
    intros b db'' [H2 Hk]. split; [done|]. split; [done|]. intros x Hx. rewrite Hk; [apply Hall; by right|].
    intros E. apply Hnot. rewrite <- E. by apply list_elem_of_In, in_map.
  - intros moved db' [? _]. by wp_step.
Qed.

(** ** Auctions *)

Lemma wp_inv_close_one db id :
  inv now db -> wp (close_one_due_auction id now) (fun _ => inv now) any_refusal db.
Proof.
  intros Hinv. unfold close_one_due_auction, fetch_listing_for_update. do 2 wp_step.
  destruct (listings db !! id) as [l|] eqn:Hl; [|by wp_step]. simpl.
  destruct (parse_auction l) as [a|] eqn:Hp; [|by wp_step]. simpl.
  case_bool_decide as Ha; [|by wp_step]. wp_step; [by wp_step|].
  apply wp_bind, wp_fresh_uuid. destruct (bk_listing _ _ (inv_books _ _ Hinv) _ _ Hl) as [Hid _].
  apply wp_bind. eapply wp_mono; [apply wp_inv_close_locked; [|by rewrite Hid|done|done]| |done].
  - eapply inv_frame_inv; [|exact Hinv]. by repeat split.
  - intros outcome db' Hinv'. by wp_step.
Qed.

Lemma keeps_close_due_auctions : keeps (inv now) (close_due_auctions now).
Proof.
  apply keeps_and_then; [apply keeps_reading|]. intros due. apply keeps_and_then.
  - apply keeps_each. intros id _. apply keeps_caught, keeps_transaction.
    intros db Hinv. by apply wp_inv_close_one.
  - intros results. apply keeps_finished.
Qed.
(** ** Lapsed holds *)

(** One order row is replaced. *)
Lemma inv_put_order db db' o o' :
  inv now db -> books db' -> orders db !! o_id o = Some o -> orders db' = <[o_id o := o']> (orders db) ->
  o_id o' = o_id o -> order_wf o' -> attestable o' -> modern o' -> drops_ok now db' ->
  payment_key <$> payments db' = payment_key <$> payments db -> offers db' = offers db -> inv now db'.
Proof.
  intros [_ Hwf Hm _ Hpay Hoff] Hb Ho Eo Hid How Hat Hmod Hok Ep Ef.
  split; [done| | |done|by eapply payments_kept|unfold offers_wf; by rewrite Ef].
  - intros k x Hx. rewrite Eo in Hx. apply lookup_insert_Some in Hx as [[<- <-]|[_ Hx]]; [done|].
    by apply Hwf.
  - intros k x Hx. rewrite Eo in Hx. apply lookup_insert_Some in Hx as [[<- <-]|[_ Hx]]; [done|].
    by eapply Hm.
Qed.

(** Only labels of an order change. *)
Lemma inv_relabel db o o' :
  inv now db -> orders db !! o_id o = Some o ->
  o_id o' = o_id o -> o_lines o' = o_lines o -> o_auction_aggregate_id o' = o_auction_aggregate_id o ->
  o_stock_held o' = o_stock_held o -> o_state o' = o_state o ->
  o_hold_expires_at o' = o_hold_expires_at o -> o_return_request o' = o_return_request o ->
  o_seller_pubky o' = o_seller_pubky o -> inv now (upd orders (<[o_id o := o']>) db).
Proof.
  intros Hinv Ho Hid Hl Ha Hh Hs He Hr Hse. destruct (inv_orders _ _ Hinv _ _ Ho) as (_ & How & Hat).
  destruct (bk_order _ _ (inv_books _ _ Hinv) _ _ Ho) as (_ & Hob). pose proof Hob as (_ & Hpend & _).
  eapply (inv_put_order db _ o); [exact Hinv| |exact Ho|reflexivity|exact Hid| | | | |done|done].
  - eapply books_ext; [|eapply (books_put_order _ _ (inv_books _ _ Hinv) (o_id o) o' (Some o)); try done].
    + intros L. unfold order_hold. rewrite Hh, Hl. lia.
    + eapply order_books_same; [done|done| |exact Hob]. by rewrite Hs, Hh.
  - unfold order_wf, return_in. by rewrite Hs, Hr.
  - unfold attestable. by rewrite Hl, Hse.
  - unfold modern. rewrite Hh, He. exact (inv_modern _ _ Hinv _ _ Ho).
  - by eapply drops_ok_same; [..|exact (inv_drops _ _ Hinv)].
Qed.

Lemma inv_void_prepared db o :
  inv now db -> orders db !! o_id o = Some o ->
  inv now (upd orders (<[o_id o := void_prepared now o]>) db).
Proof. intros Hinv Ho. by apply inv_relabel. Qed.

Lemma expired_payment_key db id p :
  payments db !! id = Some p ->
  payment_key <$> <[id := expire_payment now p]> (payments db) = payment_key <$> payments db.
Proof.
  intros Hp. rewrite fmap_insert. apply insert_id. by rewrite lookup_fmap, Hp.
Qed.

Lemma wp_expire_waiting_payment db id state correlation cid buyer :
  wp (expire_waiting_payment id state correlation cid buyer now)
    (fun _ => inv_frame db) any_refusal db.
Proof.
  unfold expire_waiting_payment, insert_observation. wp_step; [|by wp_step]. do 2 wp_step.
  apply wp_bind, wp_insert_event. intros e _ _.
  wp_step; wp_step; repeat split; by apply expired_payment_key.
Qed.

(** With a recorded end of the hold, a failed release ends the transaction. *)
Lemma wp_unless_legacy o m message Q db :
  is_Some (o_hold_expires_at o) -> wp m Q any_refusal db -> wp (unless_legacy o m message) Q any_refusal db.
Proof.
  intros [e He] Hm. unfold unless_legacy. apply wp_bind, wp_attempt.
  eapply wp_mono with (R' := any_refusal); [exact Hm| |].
  - intros [] db' Hq. by wp_step.
  - intros f db' _. rewrite bool_decide_false by congruence. by wp_step.
Qed.

Lemma wp_inv_expire_held db o pid state buyer :
  inv now db -> orders db !! o_id o = Some o -> o_stock_held o = true ->
  wp (expire_held_order (o_id o) pid state buyer now)
    (fun _ db' => inv now db' /\
       orders db' = <[o_id o := cancel_lapsed "payment window elapsed" now o]> (orders db))
    any_refusal db.
Proof.
  intros Hinv Ho Hh. unfold expire_held_order, fetch_order_for_update. do 2 wp_step. rewrite Ho.
  do 2 wp_step. apply wp_bind.
  eapply wp_mono with (R' := any_refusal) (Q' := fun _ => inv_frame db); [| |done].
  { wp_step; [by wp_step|]. apply wp_fresh_uuid. by repeat split. }
  intros cid db1 F1. apply wp_bind. eapply wp_mono; [apply wp_expire_waiting_payment| |done].
  intros [] db2 F2. assert (F : inv_frame db db2) by (by etransitivity). clear F1 F2.
  pose proof (inv_frame_inv _ _ _ F Hinv) as H2. destruct F as [(_ & Eo2 & _) _ Ep2 Ef2].
  rewrite <- Eo2 in Ho. pose proof (inv_modern _ _ H2 _ _ Ho Hh) as Hmod.
  apply wp_bind, wp_unless_legacy; [done|].
  eapply wp_mono; [apply (wp_drops_credit_order now); [apply H2|by eapply stored_units; [apply H2|..]]| |done].
  intros [] db3 [Hok3 [El3 Er3 Eo3 Ep3 _ _ _ Ef3]].
  pose proof (books_same _ _ _ El3 Eo3 Er3 (inv_books _ _ H2)) as Hb3. rewrite <- Eo3 in Ho.
  apply wp_bind, wp_unless_legacy; [done|]. eapply wp_mono with (R' := fun _ _ => False);
    [apply (wp_release_lines_reserved now _ _ _ _ Hb3 Ho)| |done].
  { intros L. pose proof (order_hold_le _ _ Hb3 L _ _ Ho) as Hle. unfold order_hold in Hle.
    rewrite Hh in Hle. lia. }
  intros [] db4 [Hb4 Hf4]. apply wp_bind, wp_debug_assert; [done|]. do 2 wp_step.
  assert (Eo4 : orders db4 = orders db3) by (by rewrite Hf4).
  rename select (orders db4 !! _ = Some _) into Hv. rewrite Eo4, Ho in Hv. injection Hv as <-.
  apply wp_bind, wp_insert_event. intros e _ _. wp_step.
  set (o' := cancel_lapsed "payment window elapsed" now o) in *.
  assert (E42 : orders db4 = orders db2) by congruence.
  split; [|transitivity (<[o_id o := o']> (orders db4)); [done|by rewrite E42, Eo2]].
  destruct (inv_orders _ _ H2 (o_id o) o) as (Hid & How & Hat); [by rewrite <- Eo3|].
  eapply (inv_put_order db2 _ o); [exact H2| |by rewrite <- Eo3|by rewrite <- E42|done|..].
  - eapply (books_same _ (upd orders (<[o_id o := o']>) db4)); [done..|]. eapply books_settle; [|by rewrite Eo4|done..].
    eapply books_ext; [|exact Hb4]. intros L. unfold minus_units, order_hold. rewrite Hh. lia.
  - by split.
  - exact Hat.
  - done.
  - eapply (drops_ok_same _ db3); [..|exact Hok3]; by rewrite Hf4.
  - transitivity (payment_key <$> payments db4); [done|]. by rewrite Hf4, <- Ep3.
  - transitivity (offers db4); [done|]. by rewrite Hf4, <- Ef3.
Qed.
Lemma wp_lock_sweep_order db predicate id :
  wp (lock_sweep_order predicate id)
    (fun due db' => db' = db /\ (due = true -> exists o, orders db !! id = Some o /\ predicate o = true))
    any_refusal db.
Proof.
  unfold lock_sweep_order. do 3 wp_step. split; [done|].
  destruct (orders db !! id) as [o|]; [|done]. intros Hp. by exists o.
Qed.

Lemma wp_inv_expire_held_windows db :
  inv now db -> wp (expire_held_windows now) (fun _ => inv now) any_refusal db.
Proof.
  intros Hinv. unfold expire_held_windows. do 2 wp_step. apply wp_bind.
  eapply wp_mono; [apply (wp_map_each (fun _ _ => inv now) any_refusal _ _ [])| |done]; [done| |].
  - intros [o p] rest seen db' Hinv'. unfold expire_due_row. apply wp_bind.
    eapply wp_mono; [apply wp_lock_sweep_order| |done]. intros due ? [-> Hdue].
    destruct due; [|by wp_step]. destruct (Hdue eq_refl) as (x & Hx & Hd).
    destruct (inv_orders _ _ Hinv' _ _ Hx) as [Hid _]. rewrite <- Hid in *.
    unfold HELD_DUE_ORDER in Hd. reflect_bools. apply wp_bind.
    eapply wp_mono; [by apply wp_inv_expire_held| |done]. intros [] db'' [? _]. by wp_step.
  - intros flips db' Hinv'. by wp_step.
Qed.

Lemma wp_inv_cancel_idle db cutoff op :
  inv now db -> wp (cancel_idle now cutoff op) (fun _ => inv now) any_refusal db.
Proof.
  intros Hinv. destruct op as [o p]. unfold cancel_idle. apply wp_bind.
  eapply wp_mono; [apply wp_lock_sweep_order| |done]. intros due ? [-> Hdue].
  destruct due; [|by wp_step]. destruct (Hdue eq_refl) as (x & Hx & Hd).
  destruct (inv_orders _ _ Hinv _ _ Hx) as (Hid & How & Hat). rewrite <- Hid in *.
  unfold IDLE_UNBOUND_ORDER in Hd. reflect_bools. apply wp_bind, wp_fresh_uuid. do 2 wp_step.
  rename select (payments _ !! _ = Some _) into Hp. change (payments db !! p_id p = Some v) in Hp.
  apply wp_bind, wp_insert_event. intros e _ _. apply wp_bind, wp_debug_assert; [done|]. do 2 wp_step.
  rename select (orders _ !! _ = Some _) into Hv. change (orders db !! o_id x = Some v0) in Hv.
  assert (v0 = x) as -> by congruence. apply wp_bind, wp_insert_event. intros e' _ _. wp_step.
  eapply (inv_put_order db _ x); [exact Hinv| |done|reflexivity|done|by split|exact Hat|done| | |done].
  - eapply (books_same _ (upd orders (<[o_id x := cancel_lapsed "checkout idle elapsed" now x]>) db));
      [done..|]. eapply books_settle; [|done..]. eapply books_ext; [|exact (inv_books _ _ Hinv)].
    intros L. unfold order_hold. destruct (o_stock_held x); [done|lia].
  - by eapply drops_ok_same; [..|exact (inv_drops _ _ Hinv)].
  - exact (expired_payment_key db _ _ Hp).
Qed.

Lemma wp_inv_expire_idle db window :
  inv now db -> wp (expire_idle_unbound_checkouts window now) (fun _ => inv now) any_refusal db.
Proof.
  intros Hinv. unfold expire_idle_unbound_checkouts. do 2 wp_step. apply wp_bind.
  eapply wp_mono; [apply (wp_map_each (fun _ _ => inv now) any_refusal _ _ [])| |done]; [done| |].
  - intros op rest seen db' Hinv'. by apply wp_inv_cancel_idle.
  - intros flips db' Hinv'. by wp_step.
Qed.

(** ** Prepared invoices *)

(** An order that is still preparing holds its stock. *)
Definition prepared_held (id : Uuid) (db : Db) : Prop :=
  forall o, orders db !! id = Some o -> is_preparing o = true -> o_stock_held o = true.

(** No order starts preparing. *)
Definition none_prepares (db db' : Db) : Prop :=
  forall k o, orders db' !! k = Some o -> is_preparing o = true -> orders db !! k = Some o.

Lemma prepared_held_kept id db db' : none_prepares db db' -> prepared_held id db -> prepared_held id db'.
Proof. intros Hn Hp o Ho Hpr. by apply Hp; [apply Hn|]. Qed.

Lemma none_prepares_row db db' id o' :
  orders db' = <[id := o']> (orders db) -> is_preparing o' = false -> none_prepares db db'.
Proof.
  intros E Hn k o Ho Hpr. rewrite E in Ho. apply lookup_insert_Some in Ho as [[_ <-]|[_ Ho]]; [congruence|done].
Qed.

(** An order that is not preparing any more fails the final guard. *)
Lemma wp_release_lines_orders o held db :
  wp (release_lines o held now) (fun _ db' => orders db' = orders db)
    (fun _ db' => orders db' = orders db) db.
Proof.
  apply (wp_for_each (fun _ db' => orders db' = orders db)); [done|].
  intros x _ db' Ho. unfold release_line, fetch_listing_for_update.
  do 4 wp_step; [done|]. wp_step. apply wp_debug_assert; [apply listing_can_available|].
  by repeat wp_step.
Qed.

Lemma wp_unless_legacy_orders o m message db :
  wp m (fun _ db' => orders db' = orders db) (fun _ db' => orders db' = orders db) db ->
  wp (unless_legacy o m message) (fun _ db' => orders db' = orders db) any_refusal db.
Proof.
  intros Hm. unfold unless_legacy. apply wp_bind, wp_attempt. eapply wp_mono; [exact Hm| |].
  - intros [] db' E. by wp_step.
  - intros f db' E. wp_step; by wp_step.
Qed.

Lemma wp_expire_held_row db o pid state buyer :
  orders db !! o_id o = Some o ->
  wp (expire_held_order (o_id o) pid state buyer now)
    (fun _ db' => orders db' !! o_id o = Some (cancel_lapsed "payment window elapsed" now o))
    any_refusal db.
Proof.
  intros Ho. unfold expire_held_order, fetch_order_for_update. do 2 wp_step. rewrite Ho.
  do 2 wp_step. apply wp_bind.
  eapply wp_mono with (R' := any_refusal) (Q' := fun _ => inv_frame db); [| |done].
  { wp_step; [by wp_step|]. apply wp_fresh_uuid. by repeat split. }
  intros cid db1 F1. apply wp_bind. eapply wp_mono; [apply wp_expire_waiting_payment| |done].
  intros [] db2 F2. assert (Eo2 : orders db2 = orders db).
  { destruct F1 as [(_ & E1 & _) _ _ _], F2 as [(_ & E2 & _) _ _ _]. congruence. }
  apply wp_bind. eapply wp_mono; [apply wp_unless_legacy_orders| |done].
  { eapply wp_mono; [apply wp_credit_order_drop_frame| |]; by intros ? ? (_ & ? & _). }
  intros [] db3 Eo3. apply wp_bind.
  eapply wp_mono; [apply wp_unless_legacy_orders, wp_release_lines_orders| |done].
  intros [] db4 Eo4. apply wp_bind, wp_debug_assert; [done|]. do 2 wp_step.
  apply wp_bind, wp_insert_event. intros e _ _. wp_step.
  assert (v = o) as -> by congruence. exact (lookup_insert_eq _ _ _).
Qed.

Lemma wp_voided_row {A} db id (k : OrderRow -> H A) Q :
  (forall o, orders db !! id = Some o -> is_preparing o = true ->
     wp (k (void_prepared now o)) Q any_refusal (upd orders (<[id := void_prepared now o]>) db)) ->
  wp (let* voided := update_one orders order_check id is_preparing (void_prepared now) in k voided)
    Q any_refusal db.
Proof. intros Hk. do 2 wp_step. by apply Hk. Qed.

Lemma wp_inv_void_and_expire db id pid i retry :
  inv now db -> prepared_held id db ->
  wp (void_and_expire_preparing_order id pid i now retry)
    (fun _ db' => inv now db' /\ none_prepares db db') any_refusal db.
Proof.
  intros Hinv Hprep. unfold void_and_expire_preparing_order. do 4 wp_step.
  rename select (orders db !! id = Some _) into Ho.
  destruct (inv_orders _ _ Hinv _ _ Ho) as (Hid & How & Hat). subst id. apply wp_bind.
  destruct (is_preparing a) eqn:Hpr.
  2:{ eapply wp_mono; [by apply wp_expire_held_row| |done]. intros [] db1 H1.
      apply wp_voided_row. intros x Hx Hp. rewrite H1 in Hx. injection Hx as <-.
      change (is_preparing a = true) in Hp. congruence. }
  eapply wp_mono; [apply wp_inv_expire_held; [done|done|by apply Hprep]| |done].
  intros [] db1 [H1 Eo1]. apply wp_voided_row. intros x Hx _.
  set (o1 := cancel_lapsed "payment window elapsed" now a) in *.
  assert (x = o1) as -> by (rewrite Eo1, lookup_insert_eq in Hx; congruence).
  set (db2 := upd orders _ db1).
  assert (H2 : inv now db2 /\ none_prepares db db2).
  { split.
    - exact (inv_void_prepared db1 o1 H1 Hx).
    - apply (none_prepares_row _ _ (o_id a) (void_prepared now o1)); [|done].
      transitivity (<[o_id a := void_prepared now o1]> (orders db1)); [done|].
      rewrite Eo1. apply insert_insert_eq. }
  clearbody db2. generalize (void_prepared now o1) as voided. intros voided.
  eapply wp_mono with (R' := any_refusal) (Q' := fun _ => inv_frame db2).
  - unfold record_released_attempt, insert_notification_intent, enqueue_paykit_void, enqueue,
      stamp_delivered.
    apply wp_bind. eapply wp_mono with (R' := any_refusal) (Q' := fun _ => inv_frame db2);
      [by repeat wp_step; repeat split| |done].
    intros [] db3 F3. apply wp_bind, wp_fresh_uuid, wp_bind, wp_insert_event. intros e _ _.
    do 2 wp_step. apply wp_bind. destruct retry; repeat wp_step;
      (etransitivity; [exact F3|by repeat split]).
  - intros [] db3 F3. split; [exact (inv_frame_inv _ _ _ F3 (proj1 H2))|].
    intros k x. destruct F3 as [(_ & -> & _) _ _ _]. apply H2.
  - done.
Qed.

Lemma wp_inv_adopt_active db id i :
  inv now db ->
  wp (adopt_active id i now)
    (fun _ db' => inv now db' /\ none_prepares db db') any_refusal db.
Proof.
  intros Hinv. unfold adopt_active, stamp_delivered. apply wp_bind, wp_bind. wp_step.
  - rename select (orders db !! _ = Some _) into Ho. destruct (inv_orders _ _ Hinv _ _ Ho) as [Hid _].
    subst id. do 2 wp_step. split.
    + eapply inv_frame_inv; [|apply (inv_relabel db v); [exact Hinv|exact Ho|..]]; [by repeat split|done..].
    + eapply none_prepares_row; [reflexivity|done].
  - do 2 wp_step. split; [|by intros k x Hx _]. eapply inv_frame_inv; [|exact Hinv]. by repeat split.
Qed.

Lemma wp_frame_lease_activate db id lease :
  wp (lease_activate id lease now) (fun _ => inv_frame db) any_refusal db.
Proof. unfold lease_activate. repeat wp_step; by repeat split. Qed.

(** The invariant of the loop over the preparing orders. *)
Definition preparing_inv (due : list Uuid) (db : Db) : Prop :=
  inv now db /\ forall id, In id due -> prepared_held id db.

Lemma preparing_inv_kept due db db' :
  preparing_inv due db -> inv now db' -> none_prepares db db' -> preparing_inv due db'.
Proof. intros [_ Hp] Hinv Hn. split; [done|]. intros id Hid. eapply prepared_held_kept; eauto. Qed.

Lemma preparing_inv_frame due db db' :
  preparing_inv due db -> inv_frame db db' -> preparing_inv due db'.
Proof.
  intros Hp Hf. eapply preparing_inv_kept; [exact Hp|exact (inv_frame_inv _ _ _ Hf (proj1 Hp))|].
  intros k o. by destruct Hf as [(_ & -> & _) _ _ _].
Qed.

Lemma keeps_expire_preparing paykit lease due id :
  In id due -> keeps (preparing_inv due) (expire_preparing_order paykit lease id now).
Proof.
  intros Hin.
  assert (Hvoid : forall pid i retry, keeps (preparing_inv due)
    (let! _ := transaction (void_and_expire_preparing_order id pid i now retry) in finished true)).
  { intros pid i retry. apply keeps_and_then; [|intros []; apply keeps_finished].
    apply keeps_transaction. intros db Hp.
    eapply wp_mono; [apply wp_inv_void_and_expire; [apply Hp|by apply Hp]| |done].
    intros [] db' [? ?]. by eapply preparing_inv_kept. }
  unfold expire_preparing_order. apply keeps_and_then.
  { apply keeps_transaction. intros db Hp. eapply wp_mono; [apply wp_frame_lease_activate| |done].
    intros i db' Hf. by eapply preparing_inv_frame. }
  intros [i|]; [|apply keeps_finished]. apply keeps_and_then; [apply keeps_reading|].
  intros found. destruct (_ ≫= _) as [[[o p] pin]|];
    [|apply keeps_transaction; intros; by wp_step].
  destruct paykit as [void|]; [|apply keeps_finished].
  destruct (void _ _ _ _) as [[]|[]]; try apply Hvoid.
  - apply keeps_and_then; [|intros []; apply keeps_finished]. apply keeps_transaction. intros db Hp.
    eapply wp_mono; [apply wp_inv_adopt_active, Hp| |done]. intros [] db' [? ?].
    by eapply preparing_inv_kept.
  - destruct (match o_hold_expires_at o with Some _ => _ | None => _ end); [apply Hvoid|].
    apply keeps_and_then; [|intros []; apply keeps_finished]. apply keeps_transaction.
    intros db Hp. wp_step. eapply preparing_inv_frame; [exact Hp|by repeat split].
Qed.

Lemma due_preparing_held db id : inv now db -> In id (due_preparing now db) -> prepared_held id db.
Proof.
  intros Hinv Hin. unfold due_preparing in Hin. apply in_map_iff in Hin as ([o p] & <- & Hin).
  apply elem_of_ordered, filter_In in Hin as [Hin Hd]. unfold order_payments in Hin.
  apply list_elem_of_In, list_elem_of_omap in Hin as (p' & _ & E).
  destruct (orders db !! p_order_id p') as [o'|] eqn:Ho; [|done]. injection E as -> ->.
  destruct (inv_orders _ _ Hinv _ _ Ho) as [Hid _]. simpl. rewrite Hid.
  unfold preparing_due in Hd. reflect_bools. intros x Hx _. by simplify_eq.
Qed.

Lemma keeps_expire_payment_windows paykit lease window :
  keeps (inv now) (expire_due_payment_windows paykit lease window now).
Proof.
  apply keeps_and_then; [by apply keeps_transaction, wp_inv_expire_held_windows|]. intros expired db Hinv.
  unfold and_then, reading. set (due := due_preparing now db).
  assert (Hp : preparing_inv due db) by (split; [done|]; intros id; by apply due_preparing_held).
  destruct (keeps_each (preparing_inv due) due
    (fun id => caught (expire_preparing_order paykit lease id now))
    (fun id Hin => keeps_caught _ _ (keeps_expire_preparing paykit lease due id Hin)) db Hp)
    as [[H1 _] Hnd].
  destruct (each due _ db) as [[voided|e|m] db1]; simpl in *; [|by split|by destruct (Hnd m)].
  apply (keeps_and_then (inv now)); [|intros idle; apply keeps_finished|exact H1].
  apply keeps_transaction. intros db2 H2. by apply wp_inv_expire_idle.
Qed.
End Workers.
