(* ===== verification/InventoryBooks.v ===== *)
(** * Adjustments are exact and keep the books

    An adjustment of [Inventory] is applied once per key: it moves the total
    and the available units of the seller's own listing by the amount asked,
    at the revision asked, and nothing else; its repetition is answered from
    the stored result.  The accounting invariant is kept for every listing
    that is not being auctioned. *)

From Stdlib Require Import SpecFloat.
From S2P Require Import Prelude Domain Json Text Store Commands Actions AwardTerms Offers LocksKeys Fx.
From S2P Require Import Records Inventory Samples DropBooks Ledger Books PaymentBooks StockBooks.

(** ** Specifications *)

(** Only rate limits and evidence of conflicts changed. *)
Definition quiet (db db' : Db) : Prop :=
  db' = upd inventory_rate_limits (fun _ => inventory_rate_limits db')
          (upd adjustment_conflicts (fun _ => adjustment_conflicts db') db).

(** The columns an adjustment does not write. *)
Record bystanders (db db' : Db) : Prop := mkBystanders {
  by_orders : orders db' = orders db;
  by_payments : payments db' = payments db;
  by_reservations : reservations db' = reservations db;
  by_offers : offers db' = offers db;
  by_drops : drops db' = drops db;
  by_purchases : drop_purchases db' = drop_purchases db;
  by_receipts : receipts db' = receipts db;
  by_results : command_results db' = command_results db;
}.

Section Adjustments.
Context `{!UuidCrate, JT : !JsonText, LC : !LocksCrates, IC : !InventoryCrates}.

Definition adjusted (delta : Z) (now : Time) (l : ListingRow) : ListingRow :=
  adjust_listing (l_total_quantity l + delta) (l_available_quantity l + delta) (l_server_revision l + 1)
    (adjusted_state (l_available_quantity l + delta) (l_reserved_quantity l)) now l.

(** What an applied adjustment did. *)
Record applied (session : AuthSession) (request : ValidatedAdjustRequest) (now : Time)
    (response : HttpResponse) (l : ListingRow) (event : Event) (db db' : Db) : Prop := mkApplied {
  ap_listing : listings db !! aj_aggregate_id (vr_wire request) = Some l /\ is_deleted l = false;
  ap_owner : l_seller_pubky l = as_actor session /\ l_listing_id l = aj_listing_id (vr_wire request);
  ap_revision : l_server_revision l = aj_expected_revision (vr_wire request);
  ap_stock : listing_check (adjusted (aj_delta (vr_wire request)) now l) = true;
  ap_written : listings db' = <[aj_aggregate_id (vr_wire request) :=
                                  adjusted (aj_delta (vr_wire request)) now l]> (listings db);
  ap_event : events db' = events db ++ [event] /\ e_command_id event = vr_idempotency_key request /\
             e_aggregate_id event = aj_aggregate_id (vr_wire request) /\
             e_revision event = l_server_revision l + 1 /\ e_kind event = "inventory.adjusted";
  ap_reference : forall r, aj_external_ref (vr_wire request) = Some r ->
                   external_refs db !! reference_key session r = None /\
                   is_Some (external_refs db' !! reference_key session r);
  ap_result : let key := (as_actor session, vr_idempotency_key request) in
              adjustment_results db !! key = None /\
              exists row, adjustment_results db' = <[key := row]> (adjustment_results db) /\
                ar_request_hash row = vr_request_hash request /\
                from_slice (ar_result_json row) = Some (rp_body response);
  ap_response : rp_status response = 200 /\ rp_retry_after response = None;
  ap_bystanders : bystanders db db';
}.

(** ** Rules for early answers *)

Lemma wp_flow_bind {A B} (m : Flow A) (k : A -> Flow B) Q R db :
  wp m (fun r db' => match r with inl response => Q (inl response) db' | inr a => wp (k a) Q R db' end) R db ->
  wp (flow_bind m k) Q R db.
Proof.
  intros Hm. unfold flow_bind. apply wp_bind. eapply wp_mono; [exact Hm| |done].
  intros [response|a] db' Hq; [by apply wp_ret|exact Hq].
Qed.

Lemma wp_finish_if b response (Q : HttpResponse + unit -> Db -> Prop) R db :
  (b = true -> Q (inl response) db) -> (b = false -> Q (inr tt) db) -> wp (finish_if b response) Q R db.
Proof. intros H1 H2. destruct b; apply wp_ret; auto. Qed.

Lemma wp_ok_answer json (Q : HttpResponse -> Db -> Prop) db :
  (forall response, from_slice json = Some (rp_body response) -> rp_status response = 200 ->
     rp_retry_after response = None -> Q response db) ->
  wp (ok_answer json) Q any_refusal db.
Proof.
  intros HQ. unfold ok_answer, roll_back. destruct (from_slice json) eqn:E; [|apply wp_sql_fail].
  apply wp_ret. by apply HQ.
Qed.

Lemma quiet_refl db : quiet db db.
Proof. by destruct db. Qed.
Lemma quiet_rates f db : quiet db (upd inventory_rate_limits f db).
Proof. by destruct db. Qed.
Lemma quiet_conflicts f db : quiet db (upd adjustment_conflicts f db).
Proof. by destruct db. Qed.

Lemma wp_take_token session class config now db :
  wp (take_token session class config now)
    (fun r db' => quiet db db' /\ match r with inl response => rp_status response = 429 | inr _ => True end)
    any_refusal db.
Proof.
  unfold take_token, consume_rate. do 4 wp_step.
  - wp_step; [|apply wp_ret, wp_finish_if; [intros _|discriminate]; by split; [apply quiet_refl|]].
    apply wp_bind. wp_step. apply wp_ret, wp_finish_if; [discriminate|]. intros _. split; [apply quiet_rates|done].
  - apply wp_bind. wp_step. apply wp_ret, wp_finish_if; [discriminate|]. intros _. split; [apply quiet_rates|done].
Qed.

(** ** The parts of the handler *)

(** The key has no result yet, or the request is answered. *)
Lemma wp_classified session request now db :
  wp (let* stored := classify_stored_adjustment session request now in continue_or_finish_stored stored)
    (fun r db' => match r with
       | inl response => quiet db db' /\ (rp_status response = 200 ->
           exists row, adjustment_results db !! (as_actor session, vr_idempotency_key request) = Some row)
       | inr _ => db' = db /\ adjustment_results db !! (as_actor session, vr_idempotency_key request) = None
       end) any_refusal db.
Proof.
  unfold classify_stored_adjustment. do 4 wp_step.
  - wp_step.
    + apply wp_ret. simpl. apply wp_bind, wp_ok_answer. intros. apply wp_ret. split; [apply quiet_refl|by eauto].
    + apply wp_bind, wp_modify, wp_ret, wp_ret. split; [apply quiet_conflicts|done].
  - apply wp_ret, wp_ret. by split.
Qed.

Lemma wp_check_listing session request binding db :
  wp (check_listing session request binding)
    (fun r db' => db' = db /\ match r with
       | inl response => rp_status response <> 200
       | inr l => listings db !! aj_aggregate_id (vr_wire request) = Some l /\ is_deleted l = false /\
           l_seller_pubky l = as_actor session /\ l_listing_id l = aj_listing_id (vr_wire request) /\
           l_server_revision l = aj_expected_revision (vr_wire request)
       end) any_refusal db.
Proof.
  unfold check_listing, fetch_live_listing_for_update, fetch_listing_for_update. do 4 wp_step. wp_step; [|by apply wp_ret].
  rename select (live _ = Some _) into Hl. apply live_Some in Hl as [Hl Hd].
  apply wp_flow_bind, wp_finish_if; [done|]. intros E1. apply wp_flow_bind, wp_finish_if; [done|]. intros _.
  apply wp_flow_bind, wp_finish_if; [done|]. intros E2. apply wp_ret. reflect_bools.
  auto 7.
Qed.

Lemma wp_check_reference session request db :
  wp (check_reference session request)
    (fun r db' => db' = db /\ match r with
       | inl response => rp_status response <> 200
       | inr _ => forall x, aj_external_ref (vr_wire request) = Some x ->
           external_refs db !! reference_key session x = None
       end) any_refusal db.
Proof.
  unfold check_reference. wp_step; [|by apply wp_ret]. do 2 wp_step. apply wp_finish_if; [done|]. intros E.
  split; [done|]. intros x [= <-]. apply bool_decide_eq_false in E. by apply eq_None_not_Some.
Qed.

Lemma adjusted_stock_exact l delta t a r :
  adjusted_stock l delta = inr (t, a, r) ->
  t = l_total_quantity l + delta /\ a = l_available_quantity l + delta /\ r = l_server_revision l + 1.
Proof. unfold adjusted_stock, checked_i64. repeat case_match; intros; by simplify_eq. Qed.

Lemma adjusted_stock_refused l delta response : adjusted_stock l delta = inl response -> rp_status response = 409.
Proof. unfold adjusted_stock. repeat case_match; by intros [= <-]. Qed.

Lemma wp_store_reference session request event_id now (Q : unit -> Db -> Prop) db :
  (forall refs, let db' := upd external_refs (fun _ => refs) db in
     (forall x, aj_external_ref (vr_wire request) = Some x ->
        is_Some (refs !! reference_key session x)) -> Q tt db') ->
  wp (store_reference session request event_id now) Q any_refusal db.
Proof.
  intros HQ. unfold store_reference. destruct (aj_external_ref _) as [x|].
  - wp_step. replace (upd external_refs _ db) with (upd external_refs (fun _ => (<[reference_key session x :=
        mkExternalRef (aj_aggregate_id (vr_wire request)) event_id (vr_request_hash request) now]> (external_refs db))) db)
      by by destruct db.
    apply HQ. intros ? [= <-]. exists (mkExternalRef (aj_aggregate_id (vr_wire request)) event_id (vr_request_hash request) now).
    exact (lookup_insert_eq _ _ _).
  - apply wp_ret. replace db with (upd external_refs (fun _ => external_refs db) db) by by destruct db. by apply HQ.
Qed.

Lemma insert_upd_listings L l' db :
  upd listings (<[L := l']>) db = upd listings (fun _ => <[L := l']> (listings db)) db.
Proof. by destruct db. Qed.

Lemma wp_apply_adjustment session request l stock now db :
  listings db !! aj_aggregate_id (vr_wire request) = Some l -> is_deleted l = false ->
  l_seller_pubky l = as_actor session -> l_listing_id l = aj_listing_id (vr_wire request) ->
  l_server_revision l = aj_expected_revision (vr_wire request) ->
  adjusted_stock l (aj_delta (vr_wire request)) = inr stock ->
  (forall x, aj_external_ref (vr_wire request) = Some x -> external_refs db !! reference_key session x = None) ->
  wp (apply_adjustment session request l stock now)
    (fun r db' => match r with
       | inl response => False
       | inr response => exists event, applied session request now response l event db db'
       end) any_refusal db.
Proof.
  intros Hl Hd Ho Hid Hrev Hs Hfresh. destruct stock as [[t a] r].
  apply adjusted_stock_exact in Hs as (-> & -> & ->). unfold apply_adjustment. do 2 wp_step.
  2:{ specialize (H l Hl). simpl in H. rewrite Z.eqb_refl in H. discriminate. }
  rename select (listings db !! _ = Some v) into Hv. assert (v = l) as -> by congruence.
  rename select (listing_check _ = true) into Hc. clear Hv. wp_step. apply wp_insert_event. intros e _ _.
  apply wp_bind, wp_store_reference. intros refs db1 Hrefs. do 2 wp_step. unfold go_on.
  apply wp_bind, wp_ok_answer. intros response Hbody Hst Hra. apply wp_ret. exists e.
  split; try done.
  - intros x Hx. split; [by apply Hfresh|]. by apply Hrefs.
  - split; [done|]. eexists. split; [reflexivity|]. split; [reflexivity|]. exact Hbody.
Qed.

Lemma wp_mutate session request binding now db :
  wp (mutate session request binding now)
    (fun r db' => match r with
       | inl response => db' = db /\ rp_status response <> 200
       | inr response => exists l event, applied session request now response l event db db'
       end) any_refusal db.
Proof.
  unfold mutate. apply wp_flow_bind. eapply wp_mono; [apply wp_check_listing| |done].
  intros [response|l] db' [-> Hl]; [done|]. destruct Hl as (Hl & Hd & Ho & Hid & Hrev).
  apply wp_flow_bind. eapply wp_mono; [apply wp_check_reference| |done].
  intros [response|[]] db' [-> Hx]; [done|]. destruct (adjusted_stock _ _) as [response|stock] eqn:Es.
  - apply wp_ret. apply adjusted_stock_refused in Es. split; [done|]. by rewrite Es.
  - eapply wp_mono; [by apply wp_apply_adjustment| |done]. intros [response|response] db' Hq; [done|]. by exists l.
Qed.

(** What a transaction of the handler leaves behind. *)
Definition adjustment_outcome (session : AuthSession) (request : ValidatedAdjustRequest) (now : Time)
    (db : Db) (r : HttpResponse + HttpResponse) (db' : Db) : Prop :=
  match r with
  | inl response => quiet db db' /\ (rp_status response = 200 ->
      is_Some (adjustment_results db !! (as_actor session, vr_idempotency_key request)))
  | inr response => exists l event, applied session request now response l event db db'
  end.

Lemma quiet_applied session request now response l event db db1 db2 :
  quiet db db1 -> applied session request now response l event db1 db2 ->
  applied session request now response l event db db2.
Proof. intros Hq [? ? ? ? ? ? ? ? ? []]. rewrite Hq in *. split; try done. Qed.

Lemma quiet_trans db db1 db2 : quiet db db1 -> quiet db1 db2 -> quiet db db2.
Proof. unfold quiet. intros -> ->. by destruct db. Qed.

Lemma quiet_result db db' k : quiet db db' -> adjustment_results db' !! k = adjustment_results db !! k.
Proof. by intros ->. Qed.

Lemma adjust_entered {A} session request now (k : unit -> Flow A) Q db :
  (forall response db', quiet db db' ->
     (rp_status response = 200 ->
      is_Some (adjustment_results db !! (as_actor session, vr_idempotency_key request))) ->
     Q (inl response) db') ->
  (adjustment_results db !! (as_actor session, vr_idempotency_key request) = None ->
   wp (k tt) Q any_refusal db) ->
  wp (let* stored := classify_stored_adjustment session request now in
      flow_bind (continue_or_finish_stored stored) k) Q any_refusal db.
Proof.
  intros Hdone Hgo. pose proof (wp_classified session request now db) as Hc. apply wp_bind. unfold wp, bind in *.
  destruct (classify_stored_adjustment session request now db) as [stored db1| | |]; try done.
  unfold flow_bind, bind. destruct (continue_or_finish_stored stored db1) as [[response|[]] db2| | |]; try done.
  - destruct Hc as [Hq Hr]. apply Hdone; [done|]. intros E. destruct (Hr E) as [row ->]. by eexists.
  - destruct Hc as [-> Hn]. by apply Hgo.
Qed.

Lemma wp_enter session request now db :
  wp (enter session request now)
    (fun r db' => match r with
       | inl response => quiet db db' /\ (rp_status response = 200 ->
           is_Some (adjustment_results db !! (as_actor session, vr_idempotency_key request)))
       | inr _ => db' = db /\ adjustment_results db !! (as_actor session, vr_idempotency_key request) = None
       end) any_refusal db.
Proof.
  unfold enter. apply adjust_entered; [by intros|]. intros Hn.
  apply wp_finish_if; [|done]. intros _. split; [apply quiet_refl|done].
Qed.

Lemma wp_adjust_preflight session request config now db :
  wp (adjust_preflight session request config now)
    (fun r db' => quiet db db' /\ match r with
       | inl response => rp_status response = 200 ->
           is_Some (adjustment_results db !! (as_actor session, vr_idempotency_key request))
       | inr _ => True
       end) any_refusal db.
Proof.
  unfold adjust_preflight. apply wp_flow_bind. eapply wp_mono; [apply wp_enter| |done].
  intros [response|[]] db' Hq; [done|]. destruct Hq as [-> _].
  eapply wp_mono; [apply wp_take_token| |done]. intros [response|] db' [? Hs]; [|done]. split; [done|]. by rewrite Hs.
Qed.

Lemma wp_adjust_directly session request config now db :
  wp (adjust_directly session request config now) (adjustment_outcome session request now db) any_refusal db.
Proof.
  unfold adjust_directly. apply wp_flow_bind. eapply wp_mono; [apply wp_enter| |done].
  intros [response|[]] db' Hq; [exact Hq|]. destruct Hq as [-> _].
  apply wp_flow_bind. eapply wp_mono; [apply wp_take_token| |done].
  intros [response|[]] db1 [Hq Hs]; [split; [done|]; by rewrite Hs|].
  eapply wp_mono; [apply wp_mutate| |done]. intros [response|response] db' Hr.
  - destruct Hr as [-> Hr]. by split.
  - destruct Hr as (l & event & Hr). exists l, event. by eapply quiet_applied.
Qed.

Lemma wp_adjust_bound session request binding now db :
  wp (adjust_bound session request binding now) (adjustment_outcome session request now db) any_refusal db.
Proof.
  unfold adjust_bound. apply adjust_entered; [by intros|]. intros _.
  eapply wp_mono; [apply wp_mutate| |done]. intros [response|response] db' Hr; [|done].
  destruct Hr as [-> Hr]. split; [apply quiet_refl|done].
Qed.

Lemma committed_wp {A} (m : Flow A) (Q : HttpResponse + A -> Db -> Prop) db :
  wp m Q any_refusal db -> Q (inl internal_error) db -> Q (fst (committed m db)) (snd (committed m db)).
Proof. unfold wp, committed. destruct (m db); auto; by intros []. Qed.

Lemma committed_outcome (m : Flow HttpResponse) session request now db :
  wp m (adjustment_outcome session request now db) any_refusal db ->
  adjustment_outcome session request now db (fst (committed m db)) (snd (committed m db)).
Proof. intros Hm. apply committed_wp; [done|]. split; [apply quiet_refl|discriminate]. Qed.

(** ** The accounting invariant *)

Lemma adjusted_wf delta now l :
  listing_wf l -> running_auction l = false -> listing_check (adjusted delta now l) = true ->
  listing_wf (adjusted delta now l).
Proof.
  intros Hwf Hrun Hc. split; [exact Hc|]. pose proof (listing_wf_balance l Hwf) as (_ & Hr & _).
  destruct Hwf as (_ & _ & _ & _ & Hid). rewrite (running_same l) by reflexivity. rewrite Hrun.
  unfold adjusted, adjust_listing, adjusted_state. simpl.
  destruct (0 <? _) eqn:E1; [|destruct (0 <? l_reserved_quantity l) eqn:E2]; reflect_bools;
    (split; [split; [discriminate || done|lia || done]|]); (split; [intros; discriminate || lia|done]).
Qed.

Lemma inv_applied session request now response l event t db db' :
  inv t db -> running_auction l = false -> applied session request now response l event db db' -> inv t db'.
Proof.
  intros Hinv Hrun [[Hl _] _ _ Hc Hw _ _ _ _ [Eo Ep Er Ef Ed Epu _ _]].
  pose proof (inv_books _ _ Hinv) as Hb. destruct (bk_listing _ _ Hb _ _ Hl) as (Hid & Hwf & _).
  eapply inv_intro; [exact Hinv| |exact Eo|by eapply drops_ok_same; [..|exact (inv_drops _ _ Hinv)]
                    |by rewrite Ep|exact Ef].
  eapply (books_same _ (upd listings (<[_ := adjusted (aj_delta (vr_wire request)) now l]>) db));
    [exact Hw|exact Eo|exact Er|].
  eapply books_ext; [|apply (books_put_listing _ _ Hb _ l); [exact Hl|exact Hid|by apply adjusted_wf|done|]].
  - intros L. simpl. destruct (_ =? _)%string; lia.
  - by rewrite (running_same l).
Qed.

Lemma inv_quiet t db db' : quiet db db' -> inv t db -> inv t db'.
Proof. intros Hq. apply inv_frame_inv. rewrite Hq. by repeat split. Qed.

(** The listing a request names is not being auctioned. *)
Definition not_auctioned (db : Db) (request : ValidatedAdjustRequest) : Prop :=
  forall l, listings db !! aj_aggregate_id (vr_wire request) = Some l -> running_auction l = false.

Lemma inv_outcome session request now t db r db' :
  inv t db -> not_auctioned db request -> adjustment_outcome session request now db r db' -> inv t db'.
Proof.
  intros Hinv Hrun. destruct r as [response|response]; simpl.
  - intros [Hq _]. by eapply inv_quiet.
  - intros (l & event & Ha). eapply inv_applied; [done| |exact Ha]. apply Hrun. apply (ap_listing _ _ _ _ _ _ _ _ Ha).
Qed.

Lemma inv_adjust_directly session request config now t db :
  inv t db -> not_auctioned db request ->
  inv t (snd (committed (adjust_directly session request config now) db)).
Proof. intros Hinv Hrun. eapply inv_outcome; [done|done|]. apply committed_outcome, wp_adjust_directly. Qed.

Lemma inv_adjust_bound session request binding now t db :
  inv t db -> not_auctioned db request ->
  inv t (snd (committed (adjust_bound session request binding now) db)).
Proof. intros Hinv Hrun. eapply inv_outcome; [done|done|]. apply committed_outcome, wp_adjust_bound. Qed.

Lemma quiet_adjust_preflight session request config now db :
  quiet db (snd (committed (adjust_preflight session request config now) db)).
Proof.
  apply (committed_wp _ (fun _ db' => quiet db db')); [|apply quiet_refl].
  eapply wp_mono; [apply wp_adjust_preflight| |done]. by intros r db' [? _].
Qed.

Lemma quiet_project session aggregate_id config now db :
  quiet db (snd (committed (project session aggregate_id config now) db)).
Proof.
  apply (committed_wp _ (fun _ db' => quiet db db')); [|apply quiet_refl].
  unfold project, fetch_live_listing, fetch_listing. apply wp_flow_bind.
  eapply wp_mono; [apply wp_take_token| |done]. intros [response|[]] db' [Hq _]; [done|].
  repeat wp_step; by apply wp_ret.
Qed.

Lemma check_variant_status assertion variant response :
  check_variant assertion variant = Some response -> rp_status response <> 200.
Proof. unfold check_variant. repeat case_match; by intros [= <-]. Qed.

Lemma validate_variant_status homeserver seller listing_id assertion response :
  validate_variant_assertion homeserver seller listing_id assertion = inl response -> rp_status response <> 200.
Proof.
  unfold validate_variant_assertion, bind_variant. destruct homeserver as [fetch|]; [|by intros [= <-]].
  destruct (fetch _ _); try by intros [= <-]. destruct (raw_json raw); [|by intros [= <-]].
  destruct (_ || _); [by intros [= <-]|]. destruct (get "revision" _ ≫= _); [|by intros [= <-]].
  destruct (get "variants" _ ≫= _); [|by intros [= <-]].
  destruct (enabled_variants _) as [|v [|]]; try by intros [= <-].
  destruct (check_variant assertion v) eqn:Ec; [|done]. intros [= <-]. by apply check_variant_status in Ec.
Qed.

(** ** The handler *)

(** Where the transaction that answered began: at [db], or after what others
    did while the homeserver was asked. *)
Definition began (meanwhile : Db -> Db) (db before : Db) : Prop :=
  before = db \/ exists d, quiet db d /\ before = meanwhile d.

(** C11. An adjustment is applied as asked or leaves the stock alone.  When
    it is applied, it ran for the seller's own live listing at the expected
    revision, moved its total and available units by the amount asked, and
    stored its event, its external reference and its result; nothing else
    changed.  Otherwise only rate limits and evidence of conflicts changed, and
    a success was answered from a stored result. *)
Theorem adjustment_exact settings homeserver session body now later meanwhile db request :
  validate_request body = Some request ->
  let '(response, db') := adjust_inventory settings homeserver session (Some body) now later meanwhile db in
  exists before t, began meanwhile db before /\ (t = now \/ t = later) /\
    ((exists l event, applied session request t response l event before db') \/
     (quiet before db' /\
      (rp_status response = 200 ->
       is_Some (adjustment_results before !! (as_actor session, vr_idempotency_key request))))).
Proof.
  intros Hv. unfold adjust_inventory. rewrite Hv.
  assert (Hnone : forall d response, began meanwhile db d -> rp_status response <> 200 ->
    exists before t, began meanwhile db before /\ (t = now \/ t = later) /\
     ((exists l event, applied session request t response l event before d) \/
      (quiet before d /\ (rp_status response = 200 ->
         is_Some (adjustment_results before !! (as_actor session, vr_idempotency_key request)))))).
  { intros d response Hd Hs. exists d, now. split; [done|]. split; [by left|]. right. split; [apply quiet_refl|done]. }
  destruct (covers_inventory_service session); cbn [negb]; [|apply Hnone; [by left|done]].
  destruct (from_values settings) as [config|]; [|apply Hnone; [by left|done]].
  destruct (aj_variant (vr_wire request)) as [assertion|].
  - pose proof (committed_wp _ _ db (wp_adjust_preflight session request config now db)
      ltac:(split; [apply quiet_refl|discriminate])) as Hp.
    destruct (committed (adjust_preflight session request config now) db) as [[response|[]] d]; cbn [fst snd] in Hp;
      destruct Hp as [Hq Hs].
    + exists db, now. split; [by left|]. split; [by left|]. by right.
    + destruct (validate_variant_assertion _ _ _ _) as [response|binding] eqn:Eb.
      { exists db, now. split; [by left|]. split; [by left|]. right. split; [done|].
        intros E. by apply validate_variant_status in Eb. }
      pose proof (committed_outcome _ _ _ _ _ (wp_adjust_bound session request binding later (meanwhile d))) as Ho.
      destruct (committed _ _) as [r d']. exists (meanwhile d), later. split; [right; by exists d|].
      split; [by right|]. destruct r; simpl in *; auto.
  - pose proof (committed_outcome _ _ _ _ _ (wp_adjust_directly session request config now db)) as Ho.
    destruct (committed _ _) as [r d']. exists db, now. split; [by left|]. split; [by left|]. destruct r; simpl in *; auto.
Qed.

(** A stored result answers its request, whoever asks when. *)
Lemma enter_replays session request now db row response :
  adjustment_results db !! (as_actor session, vr_idempotency_key request) = Some row ->
  ar_request_hash row = vr_request_hash request -> from_slice (ar_result_json row) = Some (rp_body response) ->
  rp_status response = 200 -> rp_retry_after response = None ->
  enter session request now db = Done (inl response) db.
Proof.
  intros Hrow Hh Hb Hs Hr. unfold enter, classify_stored_adjustment, flow_bind, bind, select, gets. rewrite Hrow.
  rewrite Hh, String.eqb_refl. unfold ret. simpl. unfold ok_answer, bind. rewrite Hb. simpl.
  destruct response as [st bd ra]. simpl in *. by subst.
Qed.

Lemma stored_adjustment_answers settings homeserver session body now later meanwhile t response l event request before db' db :
  validate_request body = Some request -> covers_inventory_service session = true ->
  is_Some (from_values settings) ->
  applied session request t response l event before db' ->
  adjustment_results db !! (as_actor session, vr_idempotency_key request) =
    adjustment_results db' !! (as_actor session, vr_idempotency_key request) ->
  adjust_inventory settings homeserver session (Some body) now later meanwhile db = (response, db).
Proof.
  intros Hv Hc [config Hs] Ha Hsame. destruct (ap_result _ _ _ _ _ _ _ _ Ha) as (_ & row & Hw & Hh & Hb).
  destruct (ap_response _ _ _ _ _ _ _ _ Ha) as [Hst Hra].
  rewrite Hw, lookup_insert_eq in Hsame.
  pose proof (enter_replays session request now db row response Hsame Hh Hb Hst Hra) as He.
  unfold adjust_inventory. rewrite Hc, Hv, Hs. simpl.
  unfold adjust_directly, adjust_preflight, committed, flow_bind at 1, bind at 1.
  destruct (aj_variant (vr_wire request)); unfold flow_bind, bind; by rewrite He.
Qed.

(** ** Evidence of conflicts *)

(** A key has at most sixteen pieces of evidence, each for another request. *)
Definition evidence_bounded (db : Db) : Prop :=
  forall seller key,
    (length (List.filter (same_key seller key) (adjustment_conflicts db))
       <= MAX_CONFLICT_EVIDENCE_PER_IDEMPOTENCY_KEY)%nat.

Lemma record_conflict_bounded c seller key l :
  (length (List.filter (same_key seller key) l) <= MAX_CONFLICT_EVIDENCE_PER_IDEMPOTENCY_KEY)%nat ->
  (length (List.filter (same_key seller key) (record_conflict c l)) <= MAX_CONFLICT_EVIDENCE_PER_IDEMPOTENCY_KEY)%nat.
Proof.
  intros Hl. unfold record_conflict. destruct (_ && _) eqn:E; [|done]. apply andb_true_iff in E as [E _].
  rewrite filter_app, length_app. simpl. destruct (same_key seller key c) eqn:Ek; simpl; [|lia].
  unfold same_key in Ek. reflect_bools. apply Nat.ltb_lt in E. subst. lia.
Qed.
End Adjustments.

(** ** A sample adjustment *)

#[local] Existing Instance sample_crate.
#[local] Existing Instance sample_locks_crates.

(** Two more units, from a shop's order 17. *)
Definition sample_wire : InventoryAdjustRequest :=
  mkAdjustRequest 1 "inventory.adjust" (listing_aggregate_id sally "a") "a" 1 2
    "00000000-0000-4000-8000-000000000007" None (Some (mkExternalReference "shop" "order-17")).

Definition wire_reader : JsonText := {|
  to_vec := fun _ => "{}";
  from_slice := fun s => Some (if (s =? "body")%string then adjust_request_json sample_wire else JNull);
  parse_datetime := fun _ => Some 0;
|}.

#[local] Existing Instance wire_reader.

Definition sample_inventory : InventoryCrates := {|
  parse_capabilities := fun _ => Some [mkCapability "/" [ARead; AWrite]];
  scope_covers_path := fun _ _ => true;
  parse_uuid := fun _ => Some 7%N;
  sha256_hex := fun s => s;
|}.

#[local] Existing Instance sample_inventory.

Definition seller_session : AuthSession := mkAuthSession sally "/:rw" "token".

Definition stocked : Db := with_listing (sample_listing "a" LAvailable 3 0 0) empty_db.

Definition adjust_sample (now : Time) (db : Db) : HttpResponse * Db :=
  adjust_inventory (mkRateSettings None None None) None seller_session (Some "body") now now id db.

Lemma adjustment_exact_witness :
  exists request before t, validate_request "body" = Some request /\
    (exists l event, applied seller_session request t (fst (adjust_sample 100 stocked)) l event before
                       (snd (adjust_sample 100 stocked))) /\
    (l_available_quantity <$> listings (snd (adjust_sample 100 stocked)) !! listing_aggregate_id sally "a") = Some 5.
Proof.
  destruct (validate_request "body") as [request|] eqn:Ev; [|vm_compute in Ev; discriminate].
  pose proof (adjustment_exact (mkRateSettings None None None) None seller_session "body" 100 100 id stocked request Ev) as He.
  fold (adjust_sample 100 stocked) in He.
  destruct (adjust_sample 100 stocked) as [response db'] eqn:Ea.
  destruct He as (before & t & Hb & _ & [Happlied|[Hq _]]).
  - exists request, before, t. split; [reflexivity|]. split; [exact Happlied|].
    change db' with (snd (response, db')). rewrite <- Ea. vm_compute. reflexivity.
  - exfalso. assert (Hn : events db' = events stocked).
    { rewrite Hq. destruct Hb as [->|(d & Hd & ->)]; [reflexivity|]. unfold id. by rewrite Hd. }
    change db' with (snd (response, db')) in Hn. rewrite <- Ea in Hn. vm_compute in Hn. discriminate.
Defined.
