(* ===== verification/System.v ===== *)
(** * The service as a transition system

    One step is a command executed and committed by [executor.rs], a task of
    the worker loop of [workers.rs] run under its lease, a transaction of the
    inventory automation of [inventory.rs], or time passing.  The
    accounting invariant holds in every state reachable from one where it
    holds, and neither a command nor a task makes the service panic. *)

From S2P Require Import LocksKeys LockResource Registration.
From S2P Require Import Prelude Domain Pubky StateMachines Store Commands Actions Drops Holds.
From S2P Require Import Holds Cancellation Payment Auction Checkout Executor.
From S2P Require Import Samples DropBooks OrderActions Ledger Books PaymentBooks StockBooks.
From S2P Require Import StockBooks RegistrationBooks DetailsBooks CheckoutBooks OfferBooks Json.
From S2P Require Import Leases Outbox ListingDeletion Within Workers WorkerBooks Inventory InventoryBooks.

(** ** Commands *)

(** What command validation guarantees of a payload ([commands.rs]). *)
Definition validated (payload : CommandPayload) : Prop :=
  match payload with
  | RegisterListing p => rl_sale_format p = Auction -> is_Some (rl_auction_terms p)
  | CreateCheckout p => valid_lines (cc_lines p)
  | AdvanceSandboxPayment p => 0 <= ap_confirmations p <= 6
  | p => order_payload_ok p
  end.

(** What validation does not guarantee and the results below assume: an
    auction is registered with one unit, and only a fixed-price listing is
    reserved directly or promised by an accepted offer.  The handlers do not
    look at the sale format there; [offered_auction_panics] is a run of valid
    commands outside this condition that ends in a failed assertion. *)
Definition auctions_apart (db : Db) (command : Command) : Prop :=
  match c_payload command with
  | RegisterListing p => rl_sale_format p = Auction -> rl_quantity p = 1
  | ReserveInventory _ =>
      forall l, listings db !! c_aggregate_id command = Some l -> l_sale_format l = FixedPrice
  | AcceptOffer p =>
      forall o l, offers db !! oa_offer_id p = Some o ->
        listings db !! of_listing_aggregate_id o = Some l -> l_sale_format l = FixedPrice
  | _ => True
  end.

Definition admissible (db : Db) (command : Command) : Prop :=
  validated (c_payload command) /\ auctions_apart db command.

Section System.
Context `{!UuidCrate, !JsonText, !Base32Crate, LC : !LocksCrates}.

Lemma inv_drop_kept now db db' : inv now db -> drop_kept now db db' -> inv now db'.
Proof.
  intros Hinv [Hok [El Er Eo Ep _ _ _ Ef]]. eapply inv_intro; [exact Hinv| |done|done|by rewrite Ep|done].
  eapply books_same; [exact El|exact Eo|exact Er|exact (inv_books _ _ Hinv)].
Qed.

Lemma wp_inv_drop_command {A} (m : H A) now db :
  inv now db -> (drops_ok now db -> wp m (fun _ => drop_kept now db) any_refusal db) ->
  wp m (fun _ => inv now) any_refusal db.
Proof.
  intros Hinv Hm. eapply wp_mono; [apply Hm, (inv_drops _ _ Hinv)| |done].
  intros ? db' Hk. by eapply inv_drop_kept.
Qed.

(** Every handler keeps the invariant. *)
Lemma wp_inv_dispatch state actor command prefetched now db :
  inv now db -> admissible db command ->
  wp (dispatch state actor command prefetched now) (fun _ => inv now) any_refusal db.
Proof.
  intros Hinv Ha. destruct (order_target (c_payload command)) as [id|] eqn:Ht;
    [eapply wp_inv_order_action; [done| |done]; destruct Ha as [Ha _];
     by destruct (c_payload command)|].
  destruct Ha as [Hval Hapart]. unfold dispatch, validated, auctions_apart in *.
  destruct (c_payload command); try discriminate; simpl in *;
    eauto using wp_inv_reserve, wp_inv_checkout, wp_inv_place_bid, wp_inv_close,
      wp_inv_offer_create, wp_inv_offer_counter, wp_inv_offer_accept, wp_inv_offer_reject,
      wp_inv_offer_withdraw, wp_inv_offer_checkout, wp_inv_set_digital, wp_inv_clear_digital,
      wp_inv_register, wp_inv_sync, wp_inv_prepare, wp_frame_register_locks, wp_inv_framed, wp_frame_set_pickup, wp_frame_clear_pickup, wp_frame_band_consent.
  - apply wp_inv_drop_command; [done|apply wp_drop_sync].
  - apply wp_inv_drop_command; [done|apply wp_drop_cancel].
  - apply wp_inv_drop_command; [done|apply wp_drop_release].
  - wp_step; [by wp_step|by apply wp_inv_advance].
Qed.

(** The executor adds the result row, or changes nothing. *)
Lemma inv_execute state actor parsed hash now db :
  inv now db ->
  (forall command, parsed = inl command ->
     admissible db command) ->
  inv now (snd (execute state actor parsed hash now db)) /\
  forall msg, fst (execute state actor parsed hash now db) <> Crashed msg.
Proof.
  intros Hinv Hc. unfold execute. destruct (negb _); [done|].
  destruct parsed as [command|]; [|done]. pose proof (Hc command eq_refl) as Ha.
  destruct (command_results db !! _) as [stored|].
  { split; [done|]. unfold stored_result_response. simpl. repeat case_match; discriminate. }
  pose proof (wp_inv_dispatch state actor command (prefetch state actor command db) now db Hinv Ha) as Hw. unfold wp in Hw.
  destruct (dispatch _ _ _ _ _ db) as [success after| |e|]; [|done|by destruct e|done].
  destruct (commit_result_cases state actor command hash success now db after)
    as [(Es & Hn & _)|(stored & db' & _ & Hdb & _ & Ec)]; [by rewrite Es|].
  rewrite Ec. split; [|done]. eapply inv_frame_inv; [|exact Hw].
  destruct Hdb as [-> | ->]; by repeat split.
Qed.

(** ** Tasks *)

Lemma wp_frame_drain_outbox now lease db :
  wp (drain_outbox now lease) (fun _ => inv_frame db) any_refusal db.
Proof.
  unfold drain_outbox, claim_outbox_batch, deliver_claimed.
  apply wp_bind, wp_bind, wp_gets. destruct (claim_rows _ _ _ _ _) as [rows claimed]. do 3 wp_step.
  apply wp_bind. eapply wp_mono;
    [apply (wp_map_each (fun _ _ => inv_frame db) any_refusal _ _ [])| |done]; [by repeat split| |].
  - intros [i row] rest seen db' Hf. unfold deliver_row, quarantine_outbox_row, deliver_notification, set_row.
    wp_step; [by wp_step|]. wp_step.
    + apply wp_bind, wp_bind, wp_fresh_uuid. repeat wp_step; (etransitivity; [exact Hf|by repeat split]).
    + repeat wp_step. etransitivity; [exact Hf|by repeat split].
  - intros bs db' Hf. by wp_step.
Qed.

(** Every task keeps the invariant and ends. *)
Lemma keeps_run_task config t now : keeps (inv now) (run_task config t now).
Proof.
  destruct t; simpl.
  - apply keeps_transaction. intros db. apply wp_inv_expire.
  - apply keeps_transition_due_drops.
  - apply keeps_expire_due_offers.
  - apply keeps_counting, keeps_close_due_auctions.
  - apply keeps_counting, keeps_transaction. intros db Hinv.
    eapply wp_mono; [apply wp_frame_drain_outbox| |done]. intros n db' Hf.
    exact (inv_frame_inv _ _ _ Hf Hinv).
  - apply keeps_expire_payment_windows.
Qed.

Lemma keeps_under_lease config holder t now :
  keeps (inv now) (under_lease config holder t now).
Proof.
  apply keeps_and_then.
  - apply keeps_transaction. intros db Hinv. unfold try_acquire_lease, try_acquire_fenced_lease.
    repeat wp_step; (eapply inv_frame_inv; [|exact Hinv]; by repeat split).
  - intros [|]; [|apply keeps_finished].
    apply keeps_and_then; [apply keeps_finally; [apply keeps_run_task|]|intros n; apply keeps_finished].
    apply keeps_transaction. intros db Hinv. unfold release_lease.
    repeat wp_step; (eapply inv_frame_inv; [|exact Hinv]; by repeat split).
Qed.

(** ** Steps *)

Inductive step : Time * Db -> Time * Db -> Prop :=
| step_command now db state actor command hash :
    admissible db command ->
    step (now, db) (now, snd (execute state actor (inl command) hash now db))
| step_task now db config holder t :
    step (now, db) (now, snd (under_lease config holder t now db))
| step_adjust now db session request config :
    not_auctioned db request ->
    step (now, db) (now, snd (committed (adjust_directly session request config now) db))
| step_adjust_preflight now db session request config :
    step (now, db) (now, snd (committed (adjust_preflight session request config now) db))
| step_adjust_bound now db session request binding :
    not_auctioned db request ->
    step (now, db) (now, snd (committed (adjust_bound session request binding now) db))
| step_project now db session aggregate_id config :
    step (now, db) (now, snd (committed (project session aggregate_id config now) db))
| step_tick now now' db : now <= now' -> step (now, db) (now', db).

Lemma inv_later now now' db : now <= now' -> inv now db -> inv now' db.
Proof. intros Hle []. split; try done. by eapply drops_ok_later. Qed.

Lemma inv_step s s' : step s s' -> inv (fst s) (snd s) -> inv (fst s') (snd s').
Proof.
  destruct 1 as [now db state actor command hash Ha|now db config holder t|now db session request config Ha
    |now db session request config|now db session request binding Ha|now db session L config|now now' db Hle];
    simpl; intros Hinv.
  - apply inv_execute; [done|]. by intros ? [= <-].
  - by apply keeps_under_lease.
  - by apply inv_adjust_directly.
  - eapply inv_quiet; [apply quiet_adjust_preflight|exact Hinv].
  - by apply inv_adjust_bound.
  - eapply inv_quiet; [apply quiet_project|exact Hinv].
  - by eapply inv_later.
Qed.

Lemma inv_reachable s s' : rtc step s s' -> inv (fst s) (snd s) -> inv (fst s') (snd s').
Proof. induction 1; eauto using inv_step. Qed.

Lemma inv_run now db now' db' : rtc step (now, db) (now', db') -> inv now db -> inv now' db'.
Proof. exact (inv_reachable (now, db) (now', db')). Qed.

(** C1. Stock is never lost, duplicated or oversold as long as auctions are
    kept apart.  Start from a state where the accounting invariant holds and
    run, in any order, validated commands, worker tasks, inventory adjustments
    and projections, where no auction is registered with more than one unit, no
    direct reservation and no accepted offer is of an auction listing, and no
    adjustment is of a running auction (conditions the handlers do not check
    themselves; late Bitcoin money, which does not go through these steps, is
    treated apart).  Then each listing's available, reserved and sold units are
    non-negative and add up to its total, its reserved units are exactly those
    of its active reservations and of the orders that hold stock, and it is
    shown as available exactly while a unit can be bought. *)
Theorem reachable_stock_accounted now db now' db' :
  inv now db -> rtc step (now, db) (now', db') ->
  forall L l, listings db' !! L = Some l ->
    0 <= l_available_quantity l /\ 0 <= l_reserved_quantity l /\ 0 <= l_sold_quantity l /\
    l_available_quantity l + l_reserved_quantity l + l_sold_quantity l = l_total_quantity l /\
    l_reserved_quantity l = held db' L /\
    (l_state l = LAvailable <-> 0 < l_available_quantity l).
Proof.
  intros Hinv Hr L l Hl. apply (inv_run _ _ _ _ Hr) in Hinv.
  destruct (bk_listing _ _ (inv_books _ _ Hinv) L l Hl) as (_ & (Hc & Hs & _) & Hq).
  unfold listing_check in Hc. reflect_bools. repeat split; try apply Hs; lia.
Qed.

(** C2. No drop sells more than it announced: in every reachable state the
    remaining units of a drop and the units counted against its buyers add up
    to its total, no buyer is over the per-buyer limit, at most [total]
    editions were paid, and a drop that has not started has sold nothing. *)
Theorem reachable_drops_accounted now db now' db' :
  inv now db -> rtc step (now, db) (now', db') ->
  forall k d, drops db' !! k = Some d ->
    0 <= d_remaining_quantity d /\
    d_remaining_quantity d + purchased db' k = d_total_quantity d /\
    0 <= d_paid_quantity d <= d_total_quantity d /\
    (forall b p, drop_purchases db' !! (k, b) = Some p ->
       0 <= dp_quantity p <= d_per_buyer_limit d) /\
    (d_state d = DAnnounced -> d_remaining_quantity d = d_total_quantity d) /\
    (d_state d = DLive -> d_starts_at d <= now').
Proof.
  intros Hinv Hr k d Hd. apply (inv_run _ _ _ _ Hr) in Hinv.
  pose proof (inv_drops _ _ Hinv) as Hok. destruct (dk_row _ _ Hok k d Hd) as [_ Hc Hl Hs Ha].
  destruct (drop_check_bounds d Hc) as (Hrem & Hpaid & _).
  repeat split; try lia; try done.
  - destruct (dk_purchase _ _ Hok k b p H) as [Hp _]. unfold drop_purchase_check, between in Hp.
    reflect_bools. lia.
  - destruct (dk_purchase _ _ Hok k b p H) as (Hp & d' & Hd' & Hlim).
    assert (d' = d) as -> by congruence. unfold drop_purchase_check, between in Hp.
    reflect_bools. lia.
  - intros Hann. rewrite <- Hs. unfold purchased. rewrite (map_sum_ext _ (fun _ _ => 0)).
    + rewrite map_sum_zero. lia.
    + intros [k' b] p Hp. unfold purchased_in. simpl.
      destruct (String.eqb_spec k' k) as [->|]; [|done]. by rewrite (Ha Hann b) in Hp.
Qed.


End System.

(** C6. A confirmation is exact: it runs only for an order it can pay (the
    order machine leads from its state to paid, its instant lines have their
    deliverables, its units are held by the order or by the winner's active
    reservation), turns precisely the units the order's lines ask for from
    reserved into sold (and no other stock), moves the order to paid, or to
    delivered when every line is released instantly, and issues the order's
    first and only receipt over the amount charged; the accounting invariant
    holds afterwards. *)
Theorem confirm_order_correct {crate : UuidCrate} now db o actor command_id payment keys o' r ev db' :
  inv now db -> orders db !! o_id o = Some o ->
  confirm_order actor command_id payment o keys now db = Done (o', r, ev) db' ->
  payable o db /\ inv now db' /\ confirmation now o o' payment r db db'.
Proof.
  intros Hinv Ho E. split; [exact (confirm_order_payable _ _ _ _ _ _ _ _ _ E)|].
  exact (wp_Done _ _ _ _ _ _ (wp_confirm_order now db o actor command_id payment keys Hinv Ho) E).
Qed.

(** ** A sample run: a buyer reserves two of three units. *)

#[local] Existing Instance sample_crate.
#[local] Existing Instance sample_locks_crates.

Definition shelf : Db := with_listing (sample_listing "a" LAvailable 3 0 0) empty_db.

Definition reserve_two : Command :=
  sample_command 7 (listing_aggregate_id sally "a") 1 (ReserveInventory (mkReserveInventory 2 600)).

Definition run_reserve : Reply * Db :=
  execute sample_state buyer_key (inl reserve_two) "hash" 100 shelf.

Lemma one_listing_inv now l :
  listing_wf l -> l_sale_format l = FixedPrice -> l_reserved_quantity l = 0 ->
  inv now (with_listing l empty_db).
Proof.
  intros Hwf Hf Hr.
  assert (Hnone : forall L, held (with_listing l empty_db) L = 0) by (intros; reflexivity).
  assert (Hone : forall L l', listings (with_listing l empty_db) !! L = Some l' ->
                   l_aggregate_id l = L /\ l' = l).
  { intros L l' Hl. change (({[l_aggregate_id l := l]} : gmap string ListingRow) !! L = Some l') in Hl.
    by apply lookup_singleton_Some in Hl as [<- <-]. }
  split; try done. split; try done.
  - intros L l' Hl. destruct (Hone L l' Hl) as [<- ->]. rewrite Hnone. split; [done|].
    split; [done|lia].
  - intros L l' Hl Ha. destruct (Hone L l' Hl) as [_ ->]. congruence.
Qed.

Lemma shelf_inv : inv 100 shelf.
Proof. apply one_listing_inv; [|done|done]. split; [done|]. split; [by split|]. by split. Qed.

Lemma reserve_step :
  rtc step (100, shelf) (100, snd run_reserve).
Proof.
  apply rtc_once, step_command. split; [exact I|]. intros l Hl.
  change (({[listing_aggregate_id sally "a" := sample_listing "a" LAvailable 3 0 0]}
      : gmap string ListingRow) !! listing_aggregate_id sally "a" = Some l) in Hl.
  by apply lookup_singleton_Some in Hl as [_ <-].
Qed.

Lemma reachable_stock_accounted_witness :
  exists l, listings (snd run_reserve) !! listing_aggregate_id sally "a" = Some l /\
    l_available_quantity l = 1 /\
    l_reserved_quantity l = held (snd run_reserve) (listing_aggregate_id sally "a").
Proof.
  destruct (listings (snd run_reserve) !! listing_aggregate_id sally "a") as [l|] eqn:Hl;
    [|vm_compute in Hl; discriminate].
  exists l. split; [reflexivity|].
  destruct (reachable_stock_accounted 100 shelf 100 (snd run_reserve) shelf_inv
              reserve_step _ l Hl) as (_ & _ & _ & _ & Hheld & _).
  split; [|exact Hheld]. vm_compute in Hl. injection Hl as <-. reflexivity.
Defined.

(** A buyer checks two units out, and their payment is detected: from then on
    the order holds them. *)
Definition buy_two : Command :=
  sample_command 8 (checkout_aggregate_id 8) 0
    (CreateCheckout (mkCreateCheckout
       [mkCheckoutLine (listing_aggregate_id sally "a") 1 2 None None (Some Pickup)] None None 1)).

Definition run_checkout : Reply * Db :=
  execute sample_state buyer_key (inl buy_two) "hash" 100 shelf.

(** The first two UUIDs drawn are the order and its payment. *)
Definition detect : Command :=
  sample_command 9 (payment_aggregate_id 1001) 1
    (AdvanceSandboxPayment (mkAdvancePayment 1001 TDetected 0)).

Definition run_detect : Reply * Db :=
  execute sample_state buyer_key (inl detect) "hash" 110 (snd run_checkout).

Lemma detect_steps : rtc step (100, shelf) (110, snd run_detect).
Proof.
  eapply rtc_l; [apply (step_command 100 shelf sample_state buyer_key buy_two "hash")|].
  - split; [|exact I]. split; [discriminate|]. intros line [<-|[]]. reflexivity.
  - eapply rtc_l; [apply (step_tick 100 110); lia|].
    apply rtc_once, (step_command 110 (snd run_checkout) sample_state buyer_key detect "hash").
    split; [simpl; lia|exact I].
Qed.




(** A live drop of five units, two per buyer. *)
Definition sample_drop : DropRow :=
  mkDrop (drop_aggregate_id sally "d") sally "d" 1 1 DLive 50 None 5 2 5 0 "exact" ["a"] 0 0.

Definition drop_shelf : Db :=
  shelf <| drops := {[ drop_aggregate_id sally "d" := sample_drop ]} |>
        <| drop_listings := {[ (drop_aggregate_id sally "d", sally, "a") :=
                               mkDropListing true false 0 ]} |>.

Lemma drop_shelf_inv : inv 100 drop_shelf.
Proof.
  destruct shelf_inv as [Hb Hwf Hm _ Hp Hof]. split; try done.
  - by eapply books_same; [..|exact Hb].
  - split; [|done]. intros k d Hd.
    change (({[drop_aggregate_id sally "d" := sample_drop]} : gmap string DropRow) !! k = Some d) in Hd.
    by apply lookup_singleton_Some in Hd as [<- <-].
Qed.

Definition buy_drop : Command :=
  sample_command 8 (checkout_aggregate_id 8) 0
    (CreateCheckout (mkCreateCheckout
       [mkCheckoutLine (listing_aggregate_id sally "a") 1 1 None None (Some Pickup)] None None 1)).

Definition run_drop : Reply * Db :=
  execute sample_state buyer_key (inl buy_drop) "hash" 100 drop_shelf.

Lemma drop_step : rtc step (100, drop_shelf) (100, snd run_drop).
Proof.
  apply rtc_once, step_command. split; [|exact I]. split; [discriminate|].
  intros line [<-|[]]. reflexivity.
Qed.

Lemma reachable_drops_accounted_witness :
  exists d, drops (snd run_drop) !! drop_aggregate_id sally "d" = Some d /\
    d_remaining_quantity d = 4 /\
    d_remaining_quantity d + purchased (snd run_drop) (drop_aggregate_id sally "d") = 5.
Proof.
  destruct (drops (snd run_drop) !! drop_aggregate_id sally "d") as [d|] eqn:Hd;
    [|vm_compute in Hd; discriminate].
  exists d. split; [reflexivity|].
  assert (d_remaining_quantity d = 4 /\ d_total_quantity d = 5) as [Hr Ht]
    by (vm_compute in Hd; injection Hd as <-; split; reflexivity).
  destruct (reachable_drops_accounted 100 drop_shelf 100 (snd run_drop)
              drop_shelf_inv drop_step _ d Hd) as (_ & Hs & _).
  split; [exact Hr|]. rewrite Hs. exact Ht.
Defined.

Lemma confirm_order_correct_witness :
  exists o p o' r ev db',
    orders (snd run_detect) !! o_id o = Some o /\
    confirm_order buyer_key 11 p o sample_keys 110 (snd run_detect) = Done (o', r, ev) db' /\
    confirmation 110 o o' p r (snd run_detect) db' /\ o_state o' = OPaid.
Proof.
  destruct (orders (snd run_detect) !! 1000%N) as [o|] eqn:Ho; [|vm_compute in Ho; discriminate].
  destruct (payments (snd run_detect) !! 1001%N) as [p|] eqn:Hp; [|vm_compute in Hp; discriminate].
  assert (Hinv : inv 110 (snd run_detect)) by
    exact (inv_run 100 shelf 110 (snd run_detect) detect_steps shelf_inv).
  assert (Hid : o_id o = 1000%N) by (exact (proj1 (inv_orders _ _ Hinv _ _ Ho))).
  rewrite <- Hid in Ho.
  assert (E : exists o' r ev db',
    confirm_order buyer_key 11 p o sample_keys 110 (snd run_detect) = Done (o', r, ev) db' /\
    o_state o' = OPaid).
  { rewrite Hid in Ho. vm_compute in Ho, Hp. injection Ho as <-. injection Hp as <-.
    vm_compute. do 4 eexists. split; reflexivity. }
  destruct E as (o' & r & ev & db' & E & Hs). exists o, p, o', r, ev, db'.
  split; [exact Ho|]. split; [exact E|]. split; [|exact Hs].
  exact (proj2 (proj2 (confirm_order_correct 110 (snd run_detect) o buyer_key 11 p sample_keys o' r ev
                         db' Hinv Ho E))).
Defined.
