(* ===== verification/OfferContract.v ===== *)
(** * What an offer promises

    In every reachable state an offer is its negotiation; an award is sold at
    most once, to its buyer, on exactly the terms that were accepted. *)

From S2P Require Import LocksKeys LockResource Registration.
From S2P Require Import Prelude Domain StateMachines Store Commands Actions Drops Holds AwardTerms.
From S2P Require Import Cancellation Payment Auction Checkout Offers OfferCheckout Executor Samples.
From S2P Require Import OrderActions Ledger Books OfferBooks System Json.

Section Offers.
Context `{!UuidCrate, !JsonText, !Base32Crate, LC : !LocksCrates}.

(** C8. In every reachable state the revision of an offer counts the entries of
    its history, which are numbered from one, and one more once the offer was
    converted or expired; the current price and quantity are those of the last entry, their
    author is that of the last proposal, and an award carries exactly the
    offered price and quantity, with the exact subtotal and total. *)
Theorem reachable_offers_consistent now db now' db' :
  inv now db -> rtc step (now, db) (now', db') ->
  forall id o, offers db' !! id = Some o ->
    of_id o = id /\
    map oh_revision (of_history o) = seqZ 1 (Z.of_nat (length (of_history o))) /\
    of_revision o = Z.of_nat (length (of_history o)) + closing_bump (of_state o) /\
    (exists e, list.last (of_history o) = Some e /\ oh_amount e = offer_amount o /\
       oh_quantity e = of_quantity o) /\
    (exists e, list.last (List.filter proposes (of_history o)) = Some e /\
       oh_actor e = of_offered_by o) /\
    (forall a, of_award o = Some a ->
       mkMoney (aw_unit_price_minor a) (aw_currency a) (aw_exponent a) = offer_amount o /\
       aw_quantity a = of_quantity o /\
       aw_subtotal_minor a = of_amount_minor o * of_quantity o /\
       aw_total_minor a = aw_subtotal_minor a + aw_shipping_minor a).
Proof.
  intros Hinv Hr id o Ho. apply (inv_run _ _ _ _ Hr) in Hinv.
  destruct (inv_offers _ _ Hinv id o Ho) as [Hid [_ Hn Hrev Ht Ha Haw]].
  do 5 (split; [done|]). intros a Ea. destruct (Haw a Ea) as (_ & _ & _ & ?). done.
Qed.
End Offers.

(** C7. The checkout of an offer sells the award once: it runs only for the
    buyer of an accepted offer inside the award's window, turns the award's
    reservation into one pending order that holds the same units, at the
    accepted price and quantity and with a payment over exactly the total,
    moves no stock, and afterwards every checkout of the same offer is
    refused without a trace. *)
Theorem award_sold_once {crate : UuidCrate} now db actor command payload window success db' :
  inv now db ->
  OfferCheckout.handle actor command payload window now db = Done success db' ->
  inv now db' /\
  (exists offer award r o p, of_id offer = oc_offer_id payload /\
     award_sale now actor offer award r o p db db') /\
  forall now2 actor2 command2 payload2 window2 db2,
    oc_offer_id payload2 = oc_offer_id payload ->
    offers db2 !! oc_offer_id payload = offers db' !! oc_offer_id payload ->
    exists f, OfferCheckout.handle actor2 command2 payload2 window2 now2 db2 = Refused f db2.
Proof.
  intros Hinv E.
  destruct (wp_Done _ _ _ _ _ _ (wp_offer_checkout now db actor command payload window Hinv) E)
    as (Hinv' & offer & award & r & o & p & Hid & Hsale).
  split; [done|]. split; [by exists offer, award, r, o, p|].
  intros now2 actor2 command2 payload2 window2 db2 Hid2 Ho2.
  destruct (as_closed _ _ _ _ _ _ _ _ _ Hsale) as (c & Hc & Hcs).
  apply (converted_refused now2 db2 actor2 command2 payload2 window2 c); [|done].
  rewrite Hid2, Ho2, Hc, <- Hid. exact (lookup_insert_eq _ _ _).
Qed.

(** ** A sample sale: an offer of two units, accepted and bought *)

#[local] Existing Instance sample_crate.
#[local] Existing Instance sample_locks_crates.

Definition stall : Db := with_listing (listing_of seller_key "a" LAvailable 3 0 0) empty_db.

Lemma stall_inv : inv 100 stall.
Proof. apply one_listing_inv; [|done|done]. split; [done|]. split; [by split|]. by split. Qed.

Definition offer_two : Command :=
  sample_command 7 (listing_aggregate_id seller_key "a") 1
    (CreateOffer (mkOfferTerms (mkMoney 450 "USD" 2) 2 3600 "Two?")).

Definition run_offer : Reply * Db :=
  execute sample_state buyer_key (inl offer_two) "hash" 100 stall.

Definition accept_two : Command :=
  sample_command 9 (offer_aggregate_id 7) 1 (AcceptOffer (mkOfferAction 7)).

Definition run_accept : Reply * Db :=
  execute sample_state seller_key (inl accept_two) "hash" 110 (snd run_offer).

Lemma accept_steps : rtc step (100, stall) (110, snd run_accept).
Proof.
  eapply rtc_l; [apply (step_command 100 stall sample_state buyer_key offer_two "hash")|].
  - split; exact I.
  - eapply rtc_l; [apply (step_tick 100 110); lia|].
    apply rtc_once, (step_command 110 (snd run_offer) sample_state seller_key accept_two "hash").
    split; [exact I|]. intros o l Ho Hl. vm_compute in Ho. injection Ho as <-.
    vm_compute in Hl. injection Hl as <-. reflexivity.
Qed.

Lemma reachable_offers_consistent_witness :
  exists o a, offers (snd run_accept) !! 7%N = Some o /\ of_award o = Some a /\
    of_revision o = 2 /\ aw_subtotal_minor a = of_amount_minor o * of_quantity o.
Proof.
  destruct (offers (snd run_accept) !! 7%N) as [o|] eqn:Ho; [|vm_compute in Ho; discriminate].
  destruct (of_award o) as [a|] eqn:Ea; [|vm_compute in Ho; injection Ho as <-; discriminate].
  exists o, a. do 2 (split; [reflexivity || exact Ea|]).
  destruct (reachable_offers_consistent 100 stall 110 (snd run_accept) stall_inv
              accept_steps _ o Ho) as (_ & _ & Hrev & _ & _ & Haw).
  split; [|exact (proj1 (proj2 (proj2 (Haw a Ea))))].
  assert (of_state o = OfAccepted /\ length (of_history o) = 2%nat) as [Hs Hlen]
    by (vm_compute in Ho; injection Ho as <-; split; reflexivity).
  rewrite Hrev, Hlen, Hs. reflexivity.
Defined.

Definition doorstep : DeliveryAddress :=
  mkDeliveryAddress "A" "Street 1" "" "Town" "" "1000" "CH".

(** The award was the second UUID drawn; without a homeserver the record is
    known by the listing's aggregate id. *)
Definition collect_two : OfferCheckoutPayload :=
  let L := listing_aggregate_id seller_key "a" in
  mkOfferCheckout 7 1001 L 1 L L 2 (Some doorstep) None 1.

Definition collect_command : Command :=
  sample_command 11 (offer_aggregate_id 7) 2 (Commands.OfferCheckout collect_two).

Lemma award_sold_once_witness :
  exists success db' offer award r o p,
    OfferCheckout.handle buyer_key collect_command collect_two 900 120 (snd run_accept)
      = Done success db' /\
    award_sale 120 buyer_key offer award r o p (snd run_accept) db' /\
    exists f, OfferCheckout.handle buyer_key collect_command collect_two 900 130 db' = Refused f db'.
Proof.
  destruct (OfferCheckout.handle buyer_key collect_command collect_two 900 120 (snd run_accept))
    as [success db'| | |] eqn:E; [|vm_compute in E; discriminate..].
  destruct (award_sold_once 120 (snd run_accept) buyer_key collect_command collect_two 900 success db'
              (inv_later 110 120 _ ltac:(lia)
                 (inv_run 100 stall 110 (snd run_accept) accept_steps stall_inv)) E)
    as (_ & (offer & award & r & o & p & _ & Hsale) & Hagain).
  exists success, db', offer, award, r, o, p. split; [reflexivity|]. split; [exact Hsale|].
  exact (Hagain 130 buyer_key collect_command collect_two 900 db' eq_refl eq_refl).
Defined.

(** ** An offer on an auction

    The handlers of offers do not look at the sale format.  A seller who
    accepts an offer on a running auction and then closes it unsold has sold
    the unit of a listing that has left the market: once the buyer checks out,
    the payment finds the listing unsold and the assertion on its transition
    fails. *)

Definition auction_stall : Db :=
  let l := listing_of seller_key "a" LAvailable 1 0 0 in
  let a := mkAuctionState 0 (seconds 60) (mkMoney 10 "USD" 2) 0 0 AActive (mkMoney 500 "USD" 2)
             None 0 in
  (with_listing (l <| l_sale_format := Auction |> <| l_auction := Some a |>) empty_db)
    <| auction_reserves := {[ l_aggregate_id l := mkAuctionReserve (l_aggregate_id l) 1 1 None 0%N 0 ]} |>.

(** Commands run one after the other, each at its instant. *)
Fixpoint run_all (commands : list (Time * Pubky * Command)) (db : Db) : list Reply :=
  match commands with
  | [] => []
  | (now, actor, command) :: rest =>
      let (reply, db') := execute sample_state actor (inl command) "hash" now db in
      reply :: run_all rest db'
  end.

Definition offered_auction : list (Time * Pubky * Command) :=
  let L := listing_aggregate_id seller_key "a" in
  let advance id revision state confirmations := sample_command id (payment_aggregate_id 1006) revision
    (AdvanceSandboxPayment (mkAdvancePayment 1006 state confirmations)) in
  [(10, buyer_key, sample_command 7 L 1 (CreateOffer (mkOfferTerms (mkMoney 450 "USD" 2) 1 3600 "One?")));
   (20, seller_key, sample_command 9 (offer_aggregate_id 7) 1 (AcceptOffer (mkOfferAction 7)));
   (seconds 70, seller_key, sample_command 10 L 2 CloseAuction);
   (seconds 80, buyer_key, sample_command 11 (offer_aggregate_id 7) 2
      (Commands.OfferCheckout (mkOfferCheckout 7 1001 L 1 L L 1 (Some doorstep) None 1)));
   (seconds 90, buyer_key, advance 12%N 1 TDetected 0);
   (seconds 91, buyer_key, advance 13%N 2 TConfirmed 1)].

Example offered_auction_panics :
  list.last (run_all offered_auction auction_stall) = Some (Crashed "listing transition").
Proof. vm_compute. reflexivity. Qed.
