(* ===== verification/Logs.v ===== *)
(** * The event log and the stored results

    No handler rewrites history: events are only appended, and the results of
    accepted commands are written by the executor alone, once. *)

From S2P Require Import Prelude StateMachines Domain Json Seal Pubky Store Commands Actions.
From S2P Require Import Text LocksKeys Reviews Drops Holds.
From S2P Require Import Pickup PickupDetails DigitalManual Digital Fulfillment.
From S2P Require Import Fulfillment Cancellation Payment Auction ListingView LockResource.
From S2P Require Import AwardTerms Checkout Locks ListingDeletion Within Registration Offers.
From S2P Require Import OfferCheckout Executor Samples Leases Outbox LocksVerification.
From S2P Require Import Workers.

(** ** History *)

Record history (db db' : Db) : Prop := mkHistory {
  hi_events : exists new, events db' = events db ++ new;
  hi_results : command_results db' = command_results db;
  hi_adjustments : adjustment_results db' = adjustment_results db;
}.

#[export] Instance history_preorder : PreOrder history.
Proof.
  split.
  - intros db. split; [exists []; by rewrite app_nil_r|done..].
  - intros db1 db2 db3 [[n1 E1] R1 A1] [[n2 E2] R2 A2]. split; [|congruence..].
    exists (n1 ++ n2). by rewrite E2, E1, app_assoc.
Qed.

(** A statement on another table. *)
Lemma history_same db db' :
  events db' = events db -> command_results db' = command_results db ->
  adjustment_results db' = adjustment_results db -> history db db'.
Proof. intros E R A. split; [exists []; by rewrite app_nil_r|done..]. Qed.

Create HintDb history.

Ltac other_table := intros; apply history_same; reflexivity.

Ltac history_run :=
  repeat (cbn beta zeta;
          first [solve [auto with history]|within_step ltac:(other_table)]).

Section History.
Context {crate : UuidCrate} {LC : LocksCrates}.

(** *** Shared steps *)

Lemma history_fresh_uuid : within history fresh_uuid.
Proof. unfold fresh_uuid. history_run. Qed.
#[local] Hint Resolve history_fresh_uuid : history.

Lemma history_insert_event cid agg rev actor ek now :
  within history (insert_event cid agg rev actor ek now).
Proof.
  unfold insert_event. history_run. apply within_modify. intros db. split; [by eexists|done..].
Qed.

Lemma history_notify ev nt recipient actor agg amount now :
  within history (insert_notification_intent ev nt recipient actor agg amount now).
Proof. unfold insert_notification_intent, enqueue. history_run. Qed.
#[local] Hint Resolve history_insert_event history_notify : history.

Lemma history_finish actor command o ek nt recipient now :
  within history (finish_order_action actor command o ek nt recipient now).
Proof. unfold finish_order_action, fetch_order_reviews. history_run. Qed.

Lemma history_load actor command id : within history (load_order_action actor command id).
Proof. unfold load_order_action, fetch_order_for_update. history_run. Qed.

Lemma history_bump o f : within history (bump_order o f).
Proof. unfold bump_order. history_run. Qed.

Lemma history_assert f t : within history (assert_order_transition f t).
Proof. unfold assert_order_transition. history_run. Qed.
#[local] Hint Resolve history_finish history_load history_bump history_assert : history.

(** *** Stock *)

Lemma history_release_lines o held now : within history (release_lines o held now).
Proof. unfold release_lines, release_line, fetch_listing_for_update. history_run. Qed.

Lemma history_credit_drop k buyer units now :
  within history (credit_drop_release k buyer units now).
Proof. unfold credit_drop_release, fetch_drop_for_update. history_run. Qed.
#[local] Hint Resolve history_release_lines history_credit_drop : history.

Lemma history_credit_order o now : within history (credit_order_drop o now).
Proof. unfold credit_order_drop. history_run. Qed.
#[local] Hint Resolve history_credit_order : history.

Lemma history_release_unpaid o now : within history (release_unpaid o now).
Proof.
  unfold release_unpaid, release_reserved_hold, flip_winning_reservation, tolerate_legacy.
  history_run.
Qed.

Lemma history_release_sold o now : within history (release_sold o now).
Proof. unfold release_sold. history_run. Qed.

Lemma history_acquire o window source now :
  within history (acquire_payment_hold o window source now).
Proof. unfold acquire_payment_hold, acquire_line, fetch_listing_for_update. history_run. Qed.
#[local] Hint Resolve history_release_unpaid history_release_sold history_acquire : history.

Lemma history_time d cid now : within history (apply_time_transitions d cid now).
Proof.
  unfold apply_time_transitions, update_drop, deactivate_drop_listing_bindings. history_run.
Qed.
#[local] Hint Resolve history_time : history.

Lemma history_gate d buyer units cid now : within history (enforce_drop_gate d buyer units cid now).
Proof. unfold enforce_drop_gate, update_drop. history_run. Qed.

Lemma history_paid k actor cid now : within history (record_paid_unit k actor cid now).
Proof.
  unfold record_paid_unit, fetch_drop_for_update, update_drop, deactivate_drop_listing_bindings.
  history_run.
Qed.

Lemma history_bindings d ids active : within history (insert_drop_listing_bindings d ids active).
Proof. unfold insert_drop_listing_bindings, insert_binding, fetch_listing. history_run. Qed.
#[local] Hint Resolve history_gate history_paid history_bindings : history.

(** *** Handlers *)

Lemma history_order_actions actor command now :
  (forall p, within history (ship actor command p now)) /\
  (forall p, within history (confirm_delivery actor command p now)) /\
  (forall p, within history (mark_ready actor command p now)) /\
  (forall p, within history (confirm_pickup actor command p now)) /\
  (forall p, within history (Fulfillment.request actor command p now)) /\
  (forall p, within history (Fulfillment.approve actor command p now)) /\
  (forall p, within history (Fulfillment.receive actor command p now)) /\
  (forall p a, within history (record_external_refund actor command p a now)).
Proof.
  unfold ship, confirm_delivery, mark_ready, confirm_pickup, record_handover,
    order_has_unresolved_terms_change, Fulfillment.request, Fulfillment.approve, Fulfillment.receive,
    advance_return, assert_return_transition, record_external_refund, insert_annotation.
  repeat split; intros; history_run.
Qed.

Lemma history_cancel actor command now :
  (forall p, within history (Cancellation.request actor command p now)) /\
  (forall p, within history (Cancellation.approve actor command p now)).
Proof.
  unfold Cancellation.request, Cancellation.approve, lock_payment, unilateral_exit,
    order_has_unresolved_terms_change, end_paykit_request, void_preparing_request,
    record_released_attempt, enqueue_void_of, enqueue_paykit_void, enqueue, releasable_lines.
  split; intros; history_run.
Qed.

Lemma history_drops actor command now :
  (forall p f, within history (Drops.sync actor command p f now)) /\
  within history (Drops.cancel actor command now) /\
  within history (Drops.release_listings actor command now).
Proof.
  unfold Drops.sync, apply_resync, Drops.apply_registration, Drops.cancel, Drops.release_listings,
    fetch_drop_for_update, update_drop, deactivate_drop_listing_bindings.
  repeat split; intros; history_run.
Qed.
Lemma history_payment actor command p window keys now :
  within history (advance actor command p window keys now).
Proof.
  unfold advance, load_payment, fetch_order_for_update, unpinnable, route_refund, refund_required,
    stamp_review_reason, cancel_undeliverable, internal_failure, apply_advance, confirm_order,
    confirm_guards, flip_winning_reservation, assign_edition, sell_line, issue_receipt, pin_terms,
    pin_pickup_lines, pin_pickup_line, insert_pickup_pin, pin_digital_lines, pin_digital_line,
    fetch_listing_for_update, unpinnable, fetch_order_for_update.
  history_run.
Qed.

Lemma history_reserve actor command p now :
  within history (Holds.handle actor command p now).
Proof.
  unfold Holds.handle, fetch_live_listing, fetch_listing, gate_reservation,
    lock_bound_drop, reserve_cas, current_listing_revision. history_run.
Qed.

Lemma history_close_locked l a actor cid now : within history (close_locked_auction l a actor cid now).
Proof.
  unfold close_locked_auction, create_winner, notify_losers, fetch_auction_reserve. history_run.
Qed.
#[local] Hint Resolve history_close_locked : history.

Lemma history_auction actor command now :
  (forall p, within history (place_bid actor command p now)) /\
  within history (Auction.close actor command now).
Proof.
  unfold place_bid, load_bid, fetch_live_listing_for_update, fetch_listing_for_update,
    fetch_auction_reserve, notify_outbid, Auction.close, fetch_listing_for_update.
  split; intros; history_run.
Qed.

Lemma history_find_bound peeked : within history (find_bound_drop peeked).
Proof.
  induction peeked as [|[line l] peeked IH]; cbn [find_bound_drop]; unfold lock_bound_drop; history_run.
Qed.

Lemma history_group_lines context resolved groups :
  within history (group_lines context resolved groups).
Proof.
  revert groups. induction resolved as [|e resolved IH]; intros groups; simpl; [history_run|].
  unfold check_method. history_run.
Qed.
#[local] Hint Resolve history_find_bound history_group_lines : history.

Lemma history_checkout actor command p locks context now :
  within history (Checkout.handle actor command p locks context now).
Proof.
  unfold Checkout.handle, peek_line, fetch_live_listing, fetch_listing, gate_checkout,
    resolve_line, fetch_live_listing_for_update, fetch_listing_for_update, place_orders,
    create_group, store_delivery_email, snapshot_locks, claim_line, current_listing_revision.
  history_run.
Qed.

(** *** Offers *)

Lemma history_actionable actor id agg now : within history (actionable_offer actor id agg now).
Proof. unfold actionable_offer. history_run. Qed.

Lemma history_offer_listing o : within history (offer_listing o).
Proof. unfold offer_listing, fetch_live_listing, fetch_listing. history_run. Qed.

Lemma history_update_offer o f : within history (update_offer o f).
Proof. unfold update_offer. history_run. Qed.
#[local] Hint Resolve history_actionable history_offer_listing history_update_offer : history.

Lemma history_offers actor command now :
  (forall p f, within history (Offers.create actor command p f now)) /\
  (forall p f, within history (counter actor command p f now)) /\
  (forall p f, within history (accept actor command p f now)) /\
  (forall p, within history (reject actor command p now)) /\
  (forall p, within history (withdraw actor command p now)) /\
  (forall p w, within history (OfferCheckout.handle actor command p w now)).
Proof.
  unfold Offers.create, fetch_live_listing, create_terms, counter, counter_terms, counter_variant,
    accept, accept_snapshot, check_identity, fetch_offer_record, require_terms, fetch_listing,
    hold_award, reject, withdraw, finish_offer, OfferCheckout.handle, load_award, load_hold,
    award_delivery, fetch_listing_for_update.
  repeat split; intros; history_run.
Qed.

(** *** Delivery details, reviews and consents *)

Context `{!JsonText}.

Lemma history_fresh_nonce : within history fresh_nonce.
Proof. unfold fresh_nonce. history_run. Qed.
#[local] Hint Resolve history_fresh_nonce : history.

Lemma history_details actor command now :
  (forall p k b, within history (PickupDetails.set actor command p k b now)) /\
  (forall p k b, within history (PickupDetails.clear actor command p k b now)) /\
  (forall p k f n, within history (set_delivery actor command p k f n now)) /\
  (forall p k, within history (clear_delivery actor command p k now)).
Proof.
  unfold PickupDetails.set, PickupDetails.clear, guard_details_command, lock_counter_cas,
    delete_unpinned, details_event, next_details_event_revision, notify_paid_buyers,
    set_delivery, clear_delivery, digital_listing, check_file, lock_digital_counter,
    check_kind_change, listing_digital_in_use, supersede_versions, insert_version, digital_event,
    fetch_listing, fetch_listing_for_update, next_details_event_revision.
  repeat split; intros; history_run.
Qed.

Lemma history_reviews actor command now :
  (forall p a, within history (Reviews.create actor command p a now)) /\
  (forall p, within history (Reviews.update actor command p now)) /\
  (forall p, within history (set_band_consent actor command p now)) /\
  (forall p k, within history (set_delivery_email actor command p k now)) /\
  (forall p, within history (deliver_digital actor command p now)).
Proof.
  unfold Reviews.create, Reviews.update, set_band_consent, set_delivery_email, deliver_digital,
    fetch_order, issue_attestation, listing_uri_from_order, review_result, fetch_attestation_json,
    fetch_order_reviews, email_row, store_delivery_email, order_action_success, mark_channel,
    fetch_order_reviews.
  repeat split; intros; history_run.
Qed.

(** *** Listings *)

Lemma history_update_listing declared L cond f : within history (update_listing declared L cond f).
Proof. unfold update_listing. history_run. Qed.
#[local] Hint Resolve history_update_listing : history.

Context `{!Base32Crate}.

Lemma history_registration actor cid agg p current reserve ek now :
  within history (Registration.apply_registration actor cid agg p current reserve ek now).
Proof.
  unfold Registration.apply_registration, write_registration, persist_reserve,
    current_listing_revision, fetch_listing, fetch_auction_reserve. history_run.
Qed.

Lemma history_tombstone authority agg cursor epoch actor cid now :
  within history (tombstone authority agg cursor epoch actor cid now).
Proof. unfold tombstone, release_bindings. history_run. Qed.
#[local] Hint Resolve history_registration history_tombstone : history.

Lemma history_listings actor command now :
  (forall p prefetched, within history (register actor command p prefetched now)) /\
  (forall p h, within history (sync_listing actor command p h now)).
Proof.
  unfold register, guard_with, check_revision, guard_with, validate_edit, sync_listing, settle_missing_record,
    apply_sync, sync_auction, confirm_record, converge, viewer_bid_projection, observe_live,
    confirm_record, fetch_listing_for_update, fetch_listing, fetch_auction_reserve.
  split; intros; history_run.
Qed.

Lemma history_locks actor command now :
  (forall p keys, within history (register_locks actor command p keys now)) /\
  (forall p keys fetch window, within history (prepare_locks actor command p keys fetch window now)).
Proof.
  unfold register_locks, prepare_locks, load_locks_payment, locks_revision_guard, window_guard,
    replay_preparation, snapshot_resource, fetch_matching_lock, bind_preparation,
    fetch_order_for_update.
  split; intros; history_run; unfold record_binding_outcome, pin_locks_adapter; history_run.
Qed.
End History.

(** ** The log through the worker tasks

    Whatever a task of the worker loop does, it only appends events and it
    never touches a stored command result. *)

Section WorkerLogs.
Context {crate : UuidCrate}.

#[local] Hint Resolve history_fresh_uuid history_insert_event history_notify history_credit_drop
  history_credit_order history_release_lines history_time history_close_locked : history.

Lemma history_sweep now : within history (expire_due_reservations now).
Proof. unfold expire_due_reservations, expire_reservation. history_run. Qed.

Lemma history_negotiations now : within history (expire_negotiations now).
Proof. unfold expire_negotiations, expire_negotiation. history_run. Qed.

Lemma history_award id now : within history (expire_due_award id now).
Proof. unfold expire_due_award. history_run. Qed.

Lemma history_close_one id now : within history (close_one_due_auction id now).
Proof. unfold close_one_due_auction, fetch_listing_for_update. history_run. Qed.

Lemma history_expire_held id pid ps buyer now : within history (expire_held_order id pid ps buyer now).
Proof.
  unfold expire_held_order, fetch_order_for_update, expire_waiting_payment, unless_legacy,
    insert_observation. history_run; apply within_attempt; auto with history.
Qed.
#[local] Hint Resolve history_expire_held : history.

Lemma history_held_windows now : within history (expire_held_windows now).
Proof. unfold expire_held_windows, expire_due_row, lock_sweep_order. history_run. Qed.

Lemma history_idle window now : within history (expire_idle_unbound_checkouts window now).
Proof. unfold expire_idle_unbound_checkouts, cancel_idle, lock_sweep_order. history_run. Qed.

Lemma history_void_and_expire id pid i now retry :
  within history (void_and_expire_preparing_order id pid i now retry).
Proof.
  unfold void_and_expire_preparing_order, record_released_attempt, enqueue_paykit_void, enqueue,
    stamp_delivered. history_run.
Qed.

Lemma history_drain now lease : within history (drain_outbox now lease).
Proof.
  unfold drain_outbox, claim_outbox_batch, deliver_claimed, deliver_row, quarantine_outbox_row,
    deliver_notification, set_row. history_run.
Qed.

(** ** Passes *)

Ltac along_run :=
  repeat lazymatch goal with
  | |- along _ (and_then _ _) => apply along_and_then; [apply _| |intros ?]
  | |- along _ (finished _) => apply along_finished; apply _
  | |- along _ (reading _) => apply along_reading; apply _
  | |- along _ (caught _) => apply along_caught
  | |- along _ (each _ _) => apply along_each; [apply _|intros ?]
  | |- along _ (transaction _) => apply along_transaction; [apply _|]
  | |- along _ (if ?b then _ else _) => destruct b
  | |- along _ (match ?x with _ => _ end) => destruct x
  end.

Lemma history_expire_preparing paykit lease id now :
  along history (expire_preparing_order paykit lease id now).
Proof.
  unfold expire_preparing_order, adopt_active, stamp_delivered, lease_activate.
  along_run; try apply history_void_and_expire; history_run.
Qed.

Lemma history_run_task config t now : along history (run_task config t now).
Proof.
  destruct t; simpl; [apply along_transaction; [apply _|]; apply history_sweep| | |apply along_counting; [apply _|]
                     |apply along_counting; [apply _|];
                      apply along_transaction; [apply _|]; apply history_drain|].
  - unfold transition_due_drops, transition_drop. along_run. history_run.
  - unfold expire_due_offers. along_run; [apply history_negotiations|apply history_award].
  - unfold close_due_auctions. along_run. apply history_close_one.
  - unfold expire_due_payment_windows.
    along_run; [apply history_held_windows|apply history_expire_preparing|apply history_idle].
Qed.

Lemma history_under_lease config holder t now :
  along history (under_lease config holder t now).
Proof.
  unfold under_lease, try_acquire_lease, try_acquire_fenced_lease, release_lease. along_run.
  - history_run.
  - apply along_finally; [apply _|apply history_run_task|along_run; history_run].
Qed.
End WorkerLogs.
