(* ===== verification/Idempotency.v ===== *)
(** * Idempotency and atomicity of the executor

    [executor.rs] keeps one result per actor and command id: a replay answers
    with it, different input is a conflict, a refused or failed command
    changes nothing, and history only grows. *)

From S2P Require Import Seal Text LocksKeys LockResource Locks Registration.
From S2P Require Import Prelude Domain Pubky StateMachines Store Commands Actions Drops Holds.
From S2P Require Import Holds Cancellation Payment Auction Checkout Executor.
From S2P Require Import Samples OrderActions Books System Within Logs Json.
From S2P Require Import Within Workers Logs Inventory InventoryBooks.

Section Executor.
Context `{!UuidCrate, !JsonText, !Base32Crate, LC : !LocksCrates}.

(** ** Replays *)

(** The sealing contract of [locks.rs]: the configured key opens what it
    sealed. *)
Definition seals_open (state : AppState) : Prop :=
  forall locks, st_locks state = Some locks -> SealLaws (lk_sealing (lo_keys locks)).

(** A checkout answers with projections that carry no address. *)
Lemma checkout_result actor command p locks context now db success db' :
  Checkout.handle actor command p locks context now db = Done success db' ->
  exists rows payments, hs_result success = VCheckout (map command_view rows) payments.
Proof.
  unfold Checkout.handle. intros E.
  apply bind_Done in E as (? & ? & _ & E). apply bind_Done in E as (peeked & ? & _ & E).
  apply bind_Done in E as (drop & ? & _ & E). apply bind_Done in E as (resolved & ? & _ & E).
  destruct resolved as [|[line first] rest]; [discriminate|].
  apply bind_Done in E as (created & ? & _ & E). injection E as <- _.
  exists (map (fun c => fst (fst c)) created), (map (fun c => snd (fst c)) created).
  by rewrite map_map.
Qed.

Lemma redact_checkout body rows payments :
  sb_result body = VCheckout (map command_view rows) payments ->
  redact_command_result body = Some body.
Proof.
  destruct body as [cid agg rev evs res]. simpl. intros ->. unfold redact_command_result. simpl.
  do 3 f_equal. rewrite map_map. apply map_ext. intros o. vm_compute. reflexivity.
Qed.

(** A preparation answers with a reference minted by the server. *)
Lemma prepare_result actor command p keys fetch window now db success db' :
  (forall k, keys = Some k -> SealLaws (lk_sealing k)) ->
  prepare_locks actor command p keys fetch window now db = Done success db' ->
  exists reference window_expires_at,
    hs_result success = VPrepareLocks reference window_expires_at /\
    from_utf8 reference = Some reference.
Proof.
  unfold prepare_locks. intros Hl E. destruct keys as [k|]; [|discriminate].
  destruct fetch as [f|]; [|discriminate]. apply bind_Done in E as (payment & ? & _ & E).
  apply bind_Done in E as (existing & ? & _ & E). destruct existing as [c|].
  - unfold replay_preparation in E. destruct (cr_preparation_state c); [|discriminate].
    destruct (cr_client_reference_ciphertext c) as [sealed|]; [|discriminate].
    apply bind_Done in E as (? & ? & _ & E).
    destruct (open_prepared_value _ _ _ _) as [r|] eqn:Eo; [|discriminate]. injection E as <- _.
    do 2 eexists. split; [reflexivity|]. unfold open_prepared_value in Eo.
    apply bind_Some in Eo as (t & _ & Et). unfold from_utf8 in *. destruct (valid_utf8 (bytes t)) eqn:Ev;
      [|discriminate]. injection Et as <-. by rewrite Ev.
  - repeat (apply bind_Done in E as (? & ? & _ & E)). unfold bind_preparation in E.
    repeat (apply bind_Done in E as (? & ? & _ & E)). injection E as <- _.
    do 2 eexists. split; [reflexivity|]. apply from_utf8_ascii, minted_ascii.
Qed.

(** What the stored form of an accepted result answers a replay with. *)
Lemma stored_answer state actor command prefetched hash now db success after stored after' :
  seals_open state ->
  dispatch state actor command prefetched now db = Done success after ->
  stored_form state actor command (success_body command success) after = Done stored after' ->
  stored_result_response state actor command hash (mkStoredResult hash stored now) =
    Response 200 (OkBody (success_body command success)).
Proof.
  intros Hseal Hd Hs.
  destruct (stored_form_cases state actor command (success_body command success) after)
    as [(? & ? & E)|(? & ? & E & Hc)]; rewrite Hs in E; [discriminate|]. injection E as <- <-.
  unfold stored_result_response. simpl. rewrite String.eqb_refl. simpl.
  unfold dispatch in Hd.
  destruct (c_payload command) eqn:Hp; try (by destruct Hc as [_ ->]).
  - destruct Hc as [_ ->]. apply checkout_result in Hd as (rows & payments & Hr).
    by rewrite (redact_checkout _ rows payments).
  - destruct Hc as (_ & locks & Hl & Hs'). rewrite Hl in *.
    apply prepare_result in Hd as (reference & window & Hr & Hu);
      [|by intros ? [= <-]; apply (Hseal locks Hl)].
    unfold seal_prepare_locks_result, unseal_prepare_locks_result in *. rewrite Hp in *.
    simpl in *. rewrite Hr in Hs'. injection Hs' as <-. simpl.
    unfold open_result_client_reference, seal_result_client_reference.
    rewrite (Hseal locks Hl). simpl. rewrite Hu. unfold with_result, success_body. simpl.
    by rewrite Hr.
Qed.

(** C9. Exactly-once: when a command was accepted, sending it again (same
    actor, command id and request) at any later time, whatever happened in
    between, answers with the same body and changes nothing. *)
Theorem exact_replay state actor command hash now db body db' now' db'' :
  seals_open state ->
  execute state actor (inl command) hash now db = (Response 200 (OkBody body), db') ->
  command_results db'' !! (actor, c_command_id command) =
    command_results db' !! (actor, c_command_id command) ->
  execute state actor (inl command) hash now' db'' = (Response 200 (OkBody body), db'').
Proof.
  intros Hseal. unfold execute. destruct (negb _); [discriminate|].
  destruct (command_results db !! _) as [stored|] eqn:Hk.
  - intros [= E <-] ->. rewrite Hk. by rewrite E.
  - destruct (dispatch _ _ _ _ _ db) as [success after| |e|] eqn:Hd; [|discriminate|by destruct e|discriminate].
    destruct (commit_result_cases state actor command hash success now db after)
      as [(_ & _ & Hno)|(stored & after' & Hs & _ & _ & ->)];
      [intros E; exfalso; eapply Hno; by rewrite E|].
    intros [= <- <-] Hk''.
    assert (command_results db'' !! (actor, c_command_id command)
            = Some (mkStoredResult hash stored now)) as ->
      by (rewrite Hk''; exact (lookup_insert_eq _ _ _)).
    f_equal. by eapply stored_answer.
Qed.

(** C10. Atomicity: every answer other than an acceptance leaves the store
    exactly as it was; a command id that was used before never runs again, and
    with different input it is answered with a conflict. *)
Theorem refused_leaves_no_trace state actor parsed hash now db :
  ((forall body, fst (execute state actor parsed hash now db) <> Response 200 (OkBody body)) ->
     snd (execute state actor parsed hash now db) = db) /\
  (forall command stored, parsed = inl command -> Pubky.is_valid_pubky actor = true ->
     command_results db !! (actor, c_command_id command) = Some stored ->
     snd (execute state actor parsed hash now db) = db /\
     (sr_request_hash stored <> hash ->
      fst (execute state actor parsed hash now db) = failure_response CONFLICT)).
Proof.
  split.
  - unfold execute. destruct (negb _); [done|]. destruct parsed as [command|]; [|done].
    destruct (command_results db !! _); [done|].
    destruct (dispatch _ _ _ _ _ db) as [success after| |e|]; [|done|by destruct e|done].
    destruct (commit_result_cases state actor command hash success now db after)
      as [(Es & _)|(stored & after' & _ & _ & _ & ->)]; [done|].
    intros Hno. by specialize (Hno _ eq_refl).
  - intros command stored -> Hv Hk. unfold execute. rewrite Hv, Hk. simpl. split; [done|].
    intros Hne. unfold stored_result_response. by rewrite (proj2 (String.eqb_neq _ _) Hne).
Qed.
(** ** History *)

Lemma history_dispatch state actor command prefetched now :
  within history (dispatch state actor command prefetched now).
Proof.
  unfold dispatch.
  pose proof (history_order_actions actor command now) as (?&?&?&?&?&?&?&?).
  pose proof (history_cancel actor command now) as [? ?].
  pose proof (history_drops actor command now) as (?&?&?).
  pose proof (history_auction actor command now) as [? ?].
  pose proof (history_offers actor command now) as (?&?&?&?&?&?).
  pose proof (history_details actor command now) as (?&?&?&?).
  pose proof (history_reviews actor command now) as (?&?&?&?&?).
  pose proof (history_listings actor command now) as [? ?].
  pose proof (history_locks actor command now) as [? ?].
  destruct (c_payload command); auto using history_reserve, history_checkout.
  destruct (negb (st_sandbox_payments_enabled state)); [apply within_refuse; apply _|apply history_payment].
Qed.

(** Events are appended; a stored result never changes. *)
Definition append_only (db db' : Db) : Prop :=
  (exists new, events db' = events db ++ new) /\
  (forall k r, command_results db !! k = Some r -> command_results db' !! k = Some r) /\
  (forall k r, adjustment_results db !! k = Some r -> adjustment_results db' !! k = Some r).

#[export] Instance append_only_preorder : PreOrder append_only.
Proof.
  split.
  - intros db. split; [exists []; by rewrite app_nil_r|done].
  - intros db1 db2 db3 ([n1 E1] & R1 & A1) ([n2 E2] & R2 & A2). split; [|auto].
    exists (n1 ++ n2). by rewrite E2, E1, app_assoc.
Qed.

Lemma history_append_only db db' : history db db' -> append_only db db'.
Proof. intros [? Hr Ha]. split; [done|]. by rewrite Hr, Ha. Qed.

Lemma execute_append_only state actor command hash now db :
    append_only db (snd (execute state actor (inl command) hash now db)).
Proof.
  unfold execute. destruct (negb _); [reflexivity|].
  destruct (command_results db !! _) eqn:Hk; [reflexivity|].
  pose proof (history_dispatch state actor command (prefetch state actor command db) now db) as Hh.
  destruct (dispatch _ _ _ _ _ db) as [success after| |e|];
    [|reflexivity|by destruct e|reflexivity].
  destruct (commit_result_cases state actor command hash success now db after)
    as [(-> & _)|(stored & after' & _ & Ha & Hka & ->)]; [reflexivity|]. simpl.
  destruct (history_append_only _ _ Hh) as ([new He] & Hr & Hadj).
  assert (events after' = events after /\ command_results after' = command_results after /\
          adjustment_results after' = adjustment_results after)
    as (Ee & Ec & Ea) by (by destruct Ha as [-> | ->]).
  split; [exists new; by rewrite <- He, <- Ee|]. split; [|intros k r Hkr; specialize (Hadj k r Hkr); by rewrite <- Ea in Hadj].
  intros k r Hkr. specialize (Hr k r Hkr). rewrite <- Ec in Hr.
  etransitivity; [apply (lookup_insert_ne (command_results after'))|exact Hr]. congruence.
Qed.

Lemma quiet_append_only db db' : quiet db db' -> append_only db db'.
Proof. intros ->. split; [exists []; by rewrite app_nil_r|by split]. Qed.

Lemma outcome_append_only session request now db r db' :
  adjustment_outcome session request now db r db' -> append_only db db'.
Proof.
  destruct r as [response|response]; simpl; [intros [Hq _]; by apply quiet_append_only|].
  intros (l & event & [_ _ _ _ _ (He & _) _ (Hn & row & Hw & _) _ [? ? ? ? ? ? ? Hc]]).
  split; [by eexists|]. split; [by rewrite Hc|]. intros k r Hk. rewrite Hw.
  rewrite lookup_insert_ne; [done|]. congruence.
Qed.

Lemma append_only_run s s' : rtc step s s' -> append_only (snd s) (snd s').
Proof.
  induction 1 as [s|s1 s2 s3 Hs _ IH]; [reflexivity|]. etransitivity; [|exact IH].
  destruct Hs as [now db state actor command hash Ha|now db config holder t|now db session request config Ha
    |now db session request config|now db session request binding Ha|now db session L config|now now' db Hle]; simpl.
  - by apply execute_append_only.
  - apply history_append_only, history_under_lease.
  - eapply outcome_append_only, committed_outcome, wp_adjust_directly.
  - apply quiet_append_only, quiet_adjust_preflight.
  - eapply outcome_append_only, committed_outcome, wp_adjust_bound.
  - apply quiet_append_only, quiet_project.
  - reflexivity.
Qed.

(** History is append-only: along every run no event is changed or removed
    and every stored result, of a command or of an inventory adjustment, stays
    what it was, so what was accepted once is answered the same for ever. *)
Theorem history_append now db now' db' :
  rtc step (now, db) (now', db') -> append_only db db'.
Proof. exact (append_only_run (now, db) (now', db')). Qed.

(** After an adjustment was applied, and whatever commands, tasks and
    adjustments ran since, the same body is answered with the same response,
    and nothing changes. *)
Theorem adjustment_replayed `{IC : !InventoryCrates} settings homeserver session body later meanwhile
    t response l event request before db' now db :
  validate_request body = Some request -> covers_inventory_service session = true ->
  is_Some (from_values settings) ->
  applied session request t response l event before db' -> rtc step (t, db') (now, db) ->
  adjust_inventory settings homeserver session (Some body) now later meanwhile db = (response, db).
Proof.
  intros Hv Hc Hs Ha Hrun. eapply stored_adjustment_answers; [done..|exact Ha|].
  destruct (append_only_run _ _ Hrun) as (_ & _ & Hk). destruct (ap_result _ _ _ _ _ _ _ _ Ha) as (_ & row & Hw & _).
  rewrite Hw, lookup_insert_eq. apply Hk. simpl. by rewrite Hw, lookup_insert_eq.
Qed.
End Executor.

(** ** Sample runs *)

#[local] Existing Instance sample_crate.
#[local] Existing Instance sample_locks_crates.

(** A locked item is checked out, and its payment prepared. *)
Definition buy_locked : Command :=
  sample_command 8 (checkout_aggregate_id 8) 0
    (CreateCheckout (mkCreateCheckout
       [mkCheckoutLine (listing_aggregate_id seller_key "a") 1 1 None None (Some Pickup)]
       None None 1)).

Definition run_locked : Reply * Db :=
  execute locks_state buyer_key (inl buy_locked) "hash" 100 lock_shelf.

Definition prepare : Command :=
  sample_command 9 (payment_aggregate_id 1001) 1 (PrepareLocks (mkPrepareLocks 1001)).

Lemma exact_replay_witness :
  exists body db', execute locks_state buyer_key (inl prepare) "h" 110 (snd run_locked)
    = (Response 200 (OkBody body), db') /\
  execute locks_state buyer_key (inl prepare) "h" 999 db' = (Response 200 (OkBody body), db').
Proof.
  destruct (execute locks_state buyer_key (inl prepare) "h" 110 (snd run_locked)) as [r db'] eqn:E.
  assert (Hr : exists body, r = Response 200 (OkBody body)).
  { assert (r = fst (execute locks_state buyer_key (inl prepare) "h" 110 (snd run_locked))) as ->
      by (by rewrite E). vm_compute. eauto. }
  destruct Hr as [body ->]. exists body, db'. split; [reflexivity|].
  apply (exact_replay locks_state buyer_key prepare "h" 110 (snd run_locked) body db' 999 db');
    [|exact E|reflexivity].
  intros locks [= <-]. exact sample_seals_laws.
Defined.

Lemma history_append_witness :
  append_only shelf (snd run_detect) /\ length (events (snd run_detect)) = 2%nat.
Proof.
  split; [exact (history_append 100 shelf 110 (snd run_detect) detect_steps)|vm_compute; reflexivity].
Defined.

Lemma refused_leaves_no_trace_witness :
  is_Some (command_results (snd run_reserve) !! (buyer_key, 7%N)) /\
  fst (execute sample_state buyer_key (inl reserve_two) "other" 100
         (snd run_reserve)) = failure_response CONFLICT.
Proof.
  destruct (command_results (snd run_reserve) !! (buyer_key, 7%N)) as [r|] eqn:Hr;
    [|vm_compute in Hr; discriminate].
  split; [by exists r|].
  apply (proj2 (refused_leaves_no_trace sample_state buyer_key (inl reserve_two)
                  "other" 100 (snd run_reserve)) reserve_two r); [reflexivity|reflexivity|exact Hr|].
  vm_compute in Hr. injection Hr as <-. discriminate.
Defined.

(** The adjustment of [InventoryBooks], and fifteen minutes later. *)
#[local] Existing Instance wire_reader.
#[local] Existing Instance sample_inventory.

Lemma adjustment_replayed_witness :
  adjust_sample 900 (snd (adjust_sample 100 stocked)) = adjust_sample 100 stocked.
Proof.
  destruct (validate_request "body") as [request|] eqn:Ev; [|vm_compute in Ev; discriminate].
  pose proof (committed_outcome _ _ _ _ _
    (wp_adjust_directly seller_session request (mkRateConfig 120 20 2) 100 stocked)) as Ho.
  assert (Hr : request = mkValidated sample_wire 7 "{}") by (vm_compute in Ev; by injection Ev as <-). subst request.
  assert (Es : committed (adjust_directly seller_session (mkValidated sample_wire 7 "{}") (mkRateConfig 120 20 2) 100) stocked
               = (inr (fst (adjust_sample 100 stocked)), snd (adjust_sample 100 stocked))) by (vm_compute; reflexivity).
  rewrite Es in Ho. destruct Ho as (l & event & Ha). clear Es.
  generalize dependent (adjust_sample 100 stocked). intros [response db'] Ha. unfold adjust_sample.
  assert (Hc : covers_inventory_service seller_session = true) by (vm_compute; reflexivity).
  assert (Hs : is_Some (from_values (mkRateSettings None None None)))
    by (exists (mkRateConfig 120 20 2); vm_compute; reflexivity).
  apply (adjustment_replayed (mkRateSettings None None None) None seller_session "body" 900 id 100
    response l event (mkValidated sample_wire 7 "{}") stocked db' 900 db' Ev Hc Hs Ha).
  apply rtc_once, step_tick. lia.
Defined.
