(* ===== verification/LocksContract.v ===== *)
(** * What a Locks preparation promises

    A preparation binds a payment to the terms its buyer saw at checkout and
    to the document the seller published for them; asking again returns the
    same secret to the same buyer and nobody else. *)

From stdpp Require Import pretty.
From S2P Require Import Prelude Domain Seal Json StateMachines Pubky LocksKeys LockResource Store.
From S2P Require Import Commands Actions Holds EventStream ContentLock Locks Checkout Executor Samples.
From S2P Require Import DropBooks OrderActions Ledger Books PaymentBooks DetailsBooks System Idempotency.

(** ** The correlation of a payment *)

Lemma correlation_of_Some payment_id db c :
  correlation_of payment_id db = Some c ->
  cr_payment_id c = payment_id /\ exists id, locks_correlations db !! id = Some c.
Proof.
  intros Hf. apply find_some in Hf as [Hin Hp]. apply N.eqb_eq in Hp. split; [done|].
  apply in_map_iff in Hin as ([id c'] & <- & Hin). exists id.
  by apply elem_of_map_to_list, list_elem_of_In.
Qed.

Lemma correlation_of_None payment_id db id c :
  correlation_of payment_id db = None -> locks_correlations db !! id = Some c ->
  cr_payment_id c <> payment_id.
Proof.
  intros Hn Hc He. apply (find_none _ _) with (x := c) in Hn.
  - by rewrite He, N.eqb_refl in Hn.
  - apply in_map_iff. exists (id, c). split; [done|].
    by apply list_elem_of_In, elem_of_map_to_list.
Qed.

Lemma correlation_of_insert payment_id db db' id c :
  correlation_of payment_id db = None -> cr_payment_id c = payment_id ->
  locks_correlations db' = <[id := c]> (locks_correlations db) ->
  correlation_of payment_id db' = Some c.
Proof.
  intros Hn Hp E. destruct (correlation_of payment_id db') as [x|] eqn:Hx.
  - apply correlation_of_Some in Hx as (Hxp & i & Hi). rewrite E in Hi.
    apply lookup_insert_Some in Hi as [[_ <-]|[_ Hi]]; [done|].
    by destruct (correlation_of_None _ _ _ _ Hn Hi).
  - exfalso. refine (correlation_of_None _ _ id c Hx _ Hp). rewrite E. apply lookup_insert_eq.
Qed.

(** ** The document *)

(** A matching document has one criterion, a payment of the price to the
    seller. *)
Definition asks_price (lock : ContentLock) (criterion_id asset : string) (exponent amount : Z)
  `{LC : !LocksCrates} : Prop :=
  exists criterion lock_asset,
    cl_criteria lock = [criterion] /\ ct_criterion_id criterion = criterion_id /\
    ct_verifier_type criterion = PaykitPayment /\
    logic_criteria (cl_lock_logic lock) = [criterion_id] /\
    (param criterion "recipient_pubky" ≫= public_key) = Some (cl_creator lock) /\
    param criterion "asset" = Some lock_asset /\
    param criterion "amount" = Some (pretty amount) /\
    ((asset = "USD" /\ exponent = 2 /\ lock_asset = "USD") \/
     (asset = "BTC" /\ exponent = 8 /\ lock_asset = "BTC") \/
     (asset = "SAT" /\ exponent = 0 /\ lock_asset = "BTC")).

Section Locks.
Context `{!UuidCrate, LC : !LocksCrates, B32 : !Base32Crate}.

Lemma denomination_cases asset exponent amount lock_asset lock_amount :
  locks_denomination asset exponent amount = Some (lock_asset, lock_amount) ->
  lock_amount = amount /\
  ((asset = "USD" /\ exponent = 2 /\ lock_asset = "USD") \/
   (asset = "BTC" /\ exponent = 8 /\ lock_asset = "BTC") \/
   (asset = "SAT" /\ exponent = 0 /\ lock_asset = "BTC")).
Proof.
  unfold locks_denomination. intros E.
  repeat match type of E with
         | context [if ?b then _ else _] => destruct b eqn:?
         end; try discriminate; injection E as <- <-; reflect_bools;
    repeat match goal with
           | H : (_ && _)%bool = true |- _ => apply andb_true_iff in H as [? ?]
           | H : (_ || _)%bool = true |- _ => apply orb_true_iff in H as [?|?]
           | H : (_ =? _)%string = true |- _ => apply String.eqb_eq in H
           | H : (_ =? _) = true |- _ => apply Z.eqb_eq in H
           end; auto 8.
Qed.

Lemma matching_asks_price fetch payment snapshot resource lock :
  matching_lock fetch payment snapshot resource lock ->
  asks_price lock (ls_criterion_id snapshot) (ls_asset snapshot) (ls_exponent snapshot)
    (ls_amount_minor snapshot).
Proof.
  intros [_ Hpol Hec]. unfold criterion_matches_payment in Hec.
  destruct (locks_denomination _ _ _) as [[lock_asset lock_amount]|] eqn:Hd; [|discriminate].
  destruct (cl_criteria lock) as [|criterion [|]] eqn:Hc; try discriminate.
  apply denomination_cases in Hd as [-> Hd]. reflect_bools.
  exists criterion, lock_asset. do 3 (split; [done|]). split; [|by repeat split].
  unfold validate_paykit_payment_v1_policy in Hpol. rewrite Hc in Hpol. simpl in Hpol.
  rewrite bool_decide_true in Hpol by done.
  repeat (case_match; try discriminate). reflect_bools. congruence.
Qed.

(** A payment's price of record. *)
Lemma price_of_record snapshot payment :
  snapshot_matches_price_of_record snapshot payment = true ->
  p_merchandise_amount_minor payment = Some (ls_amount_minor snapshot) /\
  p_amount_minor payment = ls_amount_minor snapshot /\ p_currency payment = ls_asset snapshot /\
  p_exponent payment = ls_exponent snapshot.
Proof. unfold snapshot_matches_price_of_record. intros Hm. reflect_bools. auto. Qed.

(** C16. A first preparation binds a payment to exactly what its buyer saw: it
    is the buyer's own payment, still awaiting entitlement; the seller's
    published document asks, as its only criterion, for the payment's price to
    that seller; the one correlation carries the order, the parties and the
    price of the payment and opens to the reference the buyer receives; the
    order holds its stock for the same window; the payment does not advance. *)
Theorem preparation_binds_checkout_terms keys fetch actor command payload window now db success db' :
  SealLaws (lk_sealing keys) -> inv now db ->
  prepare_locks actor command payload (Some keys) (Some fetch) window now db = Done success db' ->
  correlation_of (pl_payment_id payload) db = None ->
  exists payment lock c criterion_id reference,
    payments db !! pl_payment_id payload = Some payment /\ p_buyer_pubky payment = actor /\
    p_state payment = PAwaitingEntitlement /\
    asks_price lock criterion_id (p_currency payment) (p_exponent payment) (p_amount_minor payment) /\
    (exists path document resource, fetch (p_seller_pubky payment) path = FetchFound document /\
       validate_content_lock_value document resource = inl lock /\
       cr_expected_resource_hash c = Some (to_hex (blake3_hash resource))) /\
    correlation_of (pl_payment_id payload) db' = Some c /\
    cr_order_id c = p_order_id payment /\ cr_buyer_pubky c = actor /\
    cr_creator_pubky c = p_seller_pubky payment /\ cr_amount_minor c = p_amount_minor payment /\
    cr_asset c = p_currency payment /\ cr_exponent c = p_exponent payment /\
    cr_criterion_id c = Some criterion_id /\ cr_preparation_state c = PrPrepared /\
    hs_result success = VPrepareLocks reference (cr_window_expires_at c) /\
    (cr_client_reference_ciphertext c
       ≫= open_prepared_value keys (p_id payment) CLIENT_REFERENCE_DOMAIN) = Some reference /\
    (exists order, orders db !! p_order_id payment = Some order /\
       (o_auction_aggregate_id order = None -> exists order',
          orders db' !! p_order_id payment = Some order' /\ o_stock_held order' = true /\
          o_hold_expires_at order' = Some (cr_window_expires_at c))) /\
    (forall id p', payments db' !! id = Some p' ->
       exists p, payments db !! id = Some p /\ p_state p' = p_state p).
Proof.
  intros Hseal Hinv E Hnone.
  pose proof (wp_Done _ _ _ _ _ _ (wp_prepare_locks now actor command payload _ _ window db Hinv) E)
    as (_ & k & f & payment & [= <-] & [= <-] & Hp & Hbuyer & Hcase).
  rewrite Hnone in Hcase. destruct Hcase as (order & snapshot & resource & lock & Ho & _ & _ & Hst & _
    & _ & Hon & Hr & Hrc & Hpr & Hh & Hl & [(n & n' & r & id & _ & _ & _ & Hc & Hres) Hpay Hord]).
  pose proof (price_of_record _ _ Hpr) as (_ & Ha & Hcur & Hexp).
  pose proof (inv_payments _ _ Hinv _ _ Hp) as Hid.
  assert (Hoid : o_id order = p_order_id payment) by (by apply (inv_orders _ _ Hinv) in Ho as [? _]).
  match type of Hc with _ = <[_ := ?x]> _ => exists payment, lock, x end.
  exists (ls_criterion_id snapshot), (mint_client_reference r).
  do 3 (split; [done|]). split; [rewrite Ha, Hcur, Hexp; by eapply matching_asks_price|].
  split; [destruct Hl as [(path & doc & ? & ?) _ _]; exists path, doc, resource;
          split; [done|]; split; [done|]; cbn; by rewrite Hh|].
  split; [apply (correlation_of_insert _ _ _ _ _ Hnone) in Hc; [exact Hc|exact Hid]|].
  do 8 (split; [first [done|by cbn; congruence]|]). split; [exact Hres|].
  split; [cbn; apply open_encrypted_prepared; [done|]; apply from_utf8_ascii, minted_ascii|].
  split; [exists order; split; [done|]; intros Hau; rewrite <- Hoid; by apply Hord|].
  intros id' p' Hp'. rewrite Hpay in Hp'.
  apply lookup_insert_Some in Hp' as [[<- <-]|[_ Hp']]; [|eauto].
  exists payment. by rewrite Hid.
Qed.

(** A preparation is recoverable and private to its buyer: as long as its
    correlation stands, before its window ends any further preparation by the
    buyer answers with the same reference and window and changes nothing,
    whatever revision the command names; from then on it is refused, and
    every other actor is refused at any time. *)
Theorem preparation_replays keys fetch actor command payload window now db success db'
    command' window' now' db'' actor' p'' :
  SealLaws (lk_sealing keys) -> inv now db ->
  prepare_locks actor command payload (Some keys) (Some fetch) window now db = Done success db' ->
  correlation_of (pl_payment_id payload) db = None ->
  correlation_of (pl_payment_id payload) db'' = correlation_of (pl_payment_id payload) db' ->
  payments db'' !! pl_payment_id payload = Some p'' -> p_id p'' = pl_payment_id payload ->
  p_buyer_pubky p'' = actor ->
  c_aggregate_id command' = payment_aggregate_id (pl_payment_id payload) ->
  prepare_locks actor' command' payload (Some keys) (Some fetch) window' now' db'' =
    if negb (actor =? actor')%string then
      Refused (refused Unauthorized "Only the buyer may prepare the Locks payment.") db''
    else if now + seconds window <=? now' then
      Refused (refused InvalidState "The Locks preparation has expired.") db''
    else Done (mkSuccess (p_revision p'') [] (hs_result success)) db''.
Proof.
  intros Hseal Hinv E Hnone Hsame Hp'' Hid'' Hb Hagg.
  pose proof (wp_Done _ _ _ _ _ _ (wp_prepare_locks now actor command payload _ _ window db Hinv) E)
    as (_ & k & f & payment & [= <-] & [= <-] & Hp & _ & Hcase).
  rewrite Hnone in Hcase. destruct Hcase as (order & snapshot & resource & lock & _ & _ & _ & _ & _
    & _ & _ & _ & _ & _ & _ & _ & [(n & n' & r & id & _ & _ & _ & Hc & Hres) _ _]).
  pose proof (inv_payments _ _ Hinv _ _ Hp) as Hid.
  apply (correlation_of_insert _ _ _ _ _ Hnone) in Hc; [|exact Hid]. rewrite Hc in Hsame.
  unfold prepare_locks, load_locks_payment. unfold bind at 1 2 3, select, gets at 1.
  rewrite Hp''. cbn [or_refuse ret]. unfold refuse_if at 1. rewrite Hb.
  destruct (String.eqb_spec actor actor') as [<-|]; cbn [negb]; [|reflexivity].
  unfold bind at 1, ret at 1. unfold refuse_if at 1. rewrite Hagg, Hid'', String.eqb_refl. cbn [negb].
  unfold bind at 1, ret at 1 2. unfold bind at 1, gets at 1.
  rewrite ?Hid'', Hsame. unfold replay_preparation.
  cbn [cr_preparation_state cr_client_reference_ciphertext prepared_correlation cr_window_expires_at].
  unfold bind, refuse_if. destruct (now + seconds window <=? now'); [reflexivity|]. unfold ret at 1.
  rewrite Hid'', <- Hid. rewrite open_encrypted_prepared; [|done|apply from_utf8_ascii, minted_ascii].
  unfold ret. by rewrite Hres.
Qed.
End Locks.

(** ** A sample preparation *)

#[local] Existing Instance sample_crate.
#[local] Existing Instance sample_locks_crates.

Definition sample_fetch : Pubky -> string -> HomeserverFetchOutcome :=
  hc_fetch_content_lock sample_homeserver.

Definition prepare_locked (now : Time) (db : Db) : Outcome Db CommandFailure HandlerSuccess :=
  prepare_locks buyer_key prepare (mkPrepareLocks 1001) (Some (lo_keys sample_locks))
    (Some sample_fetch) 900 now db.

Lemma locked_inv : inv 110 (snd run_locked).
Proof.
  apply (inv_run 100 lock_shelf 110 (snd run_locked)).
  - eapply rtc_l; [apply (step_command 100 lock_shelf locks_state buyer_key buy_locked "hash")|].
    + split; [|exact I]. split; [discriminate|]. intros line [<-|[]]. reflexivity.
    + apply rtc_once, (step_tick 100 110). lia.
  - apply one_listing_inv; [|done|done]. split; [done|]. split; [by split|]. by split.
Qed.

(** The preparation of payment 1001 is accepted in this store. *)
Definition locked_ok (db : Db) : bool :=
  match correlation_of 1001 db, payments db !! 1001%N with
  | None, Some p => p_amount_minor p =? 500
  | _, _ => false
  end &&
  match prepare_locked 110 db with
  | Done success db' =>
      match hs_result success with
      | VPrepareLocks reference w => (reference =? "reference")%string && (w =? 110 + seconds 900)
      | _ => false
      end &&
      match payments db' !! 1001%N with
      | Some p => N.eqb (p_id p) 1001 && (p_buyer_pubky p =? buyer_key)%string && (p_revision p =? 2)
      | None => false
      end
  | _ => false
  end.

Lemma locked_ok_facts db :
  locked_ok db = true ->
  correlation_of 1001 db = None /\
  (exists p, payments db !! 1001%N = Some p /\ p_amount_minor p = 500) /\
  exists success db' p, prepare_locked 110 db = Done success db' /\
    hs_result success = VPrepareLocks "reference" (110 + seconds 900) /\
    payments db' !! 1001%N = Some p /\ p_id p = 1001%N /\ p_buyer_pubky p = buyer_key /\
    p_revision p = 2.
Proof.
  unfold locked_ok. intros Hok. apply andb_true_iff in Hok as [Ha Hok].
  destruct (correlation_of 1001 db); [discriminate|].
  destruct (payments db !! 1001%N) as [p|]; [|discriminate]. apply Z.eqb_eq in Ha.
  split; [done|]. split; [by exists p|].
  destruct (prepare_locked 110 db) as [success db'| | |]; try discriminate.
  apply andb_true_iff in Hok as [Hr Hp]. destruct (hs_result success) eqn:Er; try discriminate.
  destruct (payments db' !! 1001%N) as [p'|] eqn:Ep; [|discriminate].
  reflect_bools. exists success, db', p'. subst. auto 8.
Qed.

Lemma locked_run_ok : locked_ok (snd run_locked) = true.
Proof. vm_compute. reflexivity. Qed.

Lemma preparation_binds_checkout_terms_witness :
  exists success db' c, prepare_locked 110 (snd run_locked) = Done success db' /\
    correlation_of 1001 db' = Some c /\ cr_amount_minor c = 500 /\
    hs_result success = VPrepareLocks "reference" (cr_window_expires_at c).
Proof.
  destruct (locked_ok_facts _ locked_run_ok) as (Hn & (p & Hp' & Ha) & success & db' & _ & E & Hr & _).
  destruct (preparation_binds_checkout_terms (lo_keys sample_locks) sample_fetch buyer_key prepare
              (mkPrepareLocks 1001) 900 110 (snd run_locked) success db' sample_seals_laws
              locked_inv E Hn) as (payment & _ & c & _ & r & Hp & _ & _ & _ & _ & Hc & _ & _ & _ & Hca
              & _ & _ & _ & _ & Hres & _).
  exists success, db', c. split; [exact E|]. split; [exact Hc|].
  split; [|rewrite Hres in *; injection Hr as -> _; reflexivity].
  assert (payment = p) as -> by (apply (inj Some); by rewrite <- Hp, <- Hp').
  by rewrite Hca.
Defined.

Lemma preparation_replays_witness :
  exists success db', prepare_locked 110 (snd run_locked) = Done success db' /\
    prepare_locked 200 db' = Done (mkSuccess 2 [] (hs_result success)) db' /\
    prepare_locked (110 + seconds 900) db' =
      Refused (refused InvalidState "The Locks preparation has expired.") db'.
Proof.
  destruct (locked_ok_facts _ locked_run_ok) as (Hn & _ & success & db' & p & E & _ & Hp & Hid & Hb & Hrev).
  exists success, db'. split; [exact E|].
  pose proof (fun now' => preparation_replays (lo_keys sample_locks) sample_fetch buyer_key prepare
    (mkPrepareLocks 1001) 900 110 (snd run_locked) success db' prepare 900 now' db' buyer_key p
    sample_seals_laws locked_inv E Hn eq_refl Hp Hid Hb eq_refl) as Hr.
  unfold prepare_locked. rewrite !Hr, Hrev. split; reflexivity.
Defined.
