(* ===== verification/Sweep.v ===== *)
(** * The expiry sweep, completely

    [expire_due_reservations] against its specification: every due
    reservation expires, every other one is untouched, and the count it
    reports is the number expired. *)

From stdpp Require Import sorting.
From S2P Require Import Prelude Domain StateMachines Store Commands Actions Drops Holds.
From S2P Require Import Holds Cancellation Payment Auction Executor Samples.
From S2P Require Import DropBooks OrderActions Ledger Books PaymentBooks StockBooks System.

Section Sweep.
Context {crate : UuidCrate} (now : Time).

(** The reservations table after these rows expired. *)
Definition expire_rows (seen : list ReservationRow) (m : gmap Uuid ReservationRow)
    : gmap Uuid ReservationRow :=
  fold_left (fun m r => <[r_id r := expired now r]> m) seen m.

Lemma expire_rows_app seen r m :
  expire_rows (seen ++ [r]) m = <[r_id r := expired now r]> (expire_rows seen m).
Proof. unfold expire_rows. by rewrite fold_left_app. Qed.

Lemma expire_rows_other seen m k :
  ~ In k (map r_id seen) -> expire_rows seen m !! k = m !! k.
Proof.
  revert m. induction seen as [|r seen IH]; intros m Hk; simpl; [done|].
  rewrite IH by (intros ?; apply Hk; by right).
  apply lookup_insert_ne. intros E. apply Hk. by left.
Qed.

Lemma expire_rows_hit seen m r :
  List.NoDup (map r_id seen) -> In r seen -> expire_rows seen m !! r_id r = Some (expired now r).
Proof.
  revert m. induction seen as [|x seen IH]; intros m Hnd Hr; simpl; [done|].
  inversion Hnd as [|? ? Hnot Hnd']; subst. destruct Hr as [->|Hr].
  - change (expire_rows seen (<[r_id r := expired now r]> m) !! r_id r = Some (expired now r)).
    rewrite expire_rows_other by done. apply lookup_insert_eq.
  - by apply IH.
Qed.

(** What the sweep selects: the due rows of the table, each once. *)
Lemma due_spec db r :
  inv now db ->
  In r (due_reservations now db) <-> reservations db !! r_id r = Some r /\ is_due db now r = true.
Proof.
  intros Hinv. unfold due_reservations.
  rewrite <- list_elem_of_In, merge_sort_Permutation, list_elem_of_In, filter_In, in_map_iff.
  split.
  - intros [([k x] & <- & Hx) Hd]. apply list_elem_of_In, elem_of_map_to_list in Hx.
    destruct (bk_reservation _ _ (inv_books _ _ Hinv) _ _ Hx) as [Hid _]. simpl in *. by subst k.
  - intros [Hr Hd]. split; [|done]. exists (r_id r, r). split; [done|].
    by apply list_elem_of_In, elem_of_map_to_list.
Qed.

Lemma due_ids db : inv now db -> List.NoDup (map r_id (due_reservations now db)).
Proof.
  intros Hinv. apply NoDup_ListNoDup.
  assert (Hp : map r_id (due_reservations now db) ≡ₚ
    map r_id (List.filter (is_due db now) (map snd (map_to_list (reservations db)))))
    by (unfold due_reservations; by rewrite merge_sort_Permutation).
  rewrite Hp.
  assert (Hids : map r_id (map snd (map_to_list (reservations db)))
                 = map fst (map_to_list (reservations db))).
  { rewrite map_map. apply map_ext_in. intros [k r] Hin.
    apply list_elem_of_In, elem_of_map_to_list in Hin.
    by destruct (bk_reservation _ _ (inv_books _ _ Hinv) _ _ Hin). }
  assert (Hnd : NoDup (map r_id (map snd (map_to_list (reservations db)))))
    by (rewrite Hids; apply NoDup_fst_map_to_list).
  clear Hp Hids. induction (map snd _) as [|x l IH]; simpl; [constructor|].
  simpl in Hnd. apply list.NoDup_cons in Hnd as [Hnot Hnd].
  destruct (is_due db now x); simpl; [|by apply IH]. apply list.NoDup_cons. split; [|by apply IH].
  intros Hin. apply Hnot. apply list_elem_of_In, in_map_iff in Hin as (y & Hy & Hin).
  apply filter_In in Hin as [Hin _]. apply list_elem_of_In, in_map_iff. by exists y.
Qed.

Lemma wp_sweep db :
  inv now db ->
  wp (expire_due_reservations now)
    (fun n db' => reservations db' = expire_rows (due_reservations now db) (reservations db) /\
       n = Z.of_nat (length (due_reservations now db))) any_refusal db.
Proof.
  intros Hinv. unfold expire_due_reservations. do 2 wp_step. apply wp_bind.
  set (due := due_reservations now db). pose proof (due_ids db Hinv) as Hnd. fold due in Hnd.
  pose (I := fun (rest : list ReservationRow) (flips : list bool) (db' : Db) =>
    exists seen, due = seen ++ rest /\ inv now db' /\
      claim <$> reservations db' = claim <$> reservations db /\
      reservations db' = expire_rows seen (reservations db) /\
      flips = repeat true (length seen)).
  eapply wp_mono; [apply (wp_map_each I any_refusal _ _ [])| |done].
  - by exists [].
  - intros r rest flips db' (seen & Hdue & Hinv' & Ec & Er & Hf).
    assert (Hr : In r due) by (rewrite Hdue; apply in_or_app; right; by left).
    destruct (proj1 (due_spec db r Hinv) Hr) as [Hrow Hd].
    assert (Hnot : ~ In (r_id r) (map r_id seen)).
    { rewrite Hdue, map_app in Hnd. apply NoDup_remove_2 in Hnd.
      intros Hin. apply Hnd. apply in_or_app. by left. }
    eapply wp_mono; [apply (wp_expire_reservation now db' r); [done|]| |done].
    + unfold claimed. rewrite Ec, lookup_fmap, Hrow. done.
    + intros b db'' (Hinv'' & Ec'' & Hflip). unfold is_due in Hd. reflect_bools.
      destruct Hflip as [-> Er'']; [by rewrite Er, expire_rows_other|done|].
      exists (seen ++ [r]). rewrite <- app_assoc. split; [done|]. split; [done|].
      split; [congruence|]. rewrite expire_rows_app, <- Er. split; [done|].
      rewrite Hf, length_app, repeat_app. done.
  - intros flips db' (seen & Hdue & _ & _ & Er & Hf). rewrite app_nil_r in Hdue. wp_step.
    split; [by rewrite Hdue|]. simpl in Hf. rewrite Hf, Hdue. clear. f_equal.
    induction seen as [|x seen IH]; simpl; [done|]. by rewrite IH.
Qed.

(** C27. The expiry sweep is complete and exact: when it commits, every
    reservation that was due (active, past its instant, not of an offer award,
    not protected by a Paykit payment in review) has expired, every other one
    is as it was, none was added, and the count it reports is the number
    expired; it never panics. *)
Theorem sweep_expires_exactly_the_due db :
  inv now db ->
  (forall msg, expire_due_reservations now db <> Panicked msg) /\
  forall n db', expire_due_reservations now db = Done n db' ->
    n = Z.of_nat (length (due_reservations now db)) /\
    forall k, reservations db' !! k =
      (fun r => if is_due db now r then expired now r else r) <$> reservations db !! k.
Proof.
  intros Hinv. pose proof (wp_sweep db Hinv) as Hw.
  split; [intros msg; exact (wp_no_panic _ _ _ _ msg Hw)|].
  intros n db' E. destruct (wp_Done _ _ _ _ _ _ Hw E) as [Er ->]. split; [done|]. intros k.
  rewrite Er. pose proof (due_ids db Hinv) as Hnd.
  destruct (in_dec N.eq_dec k (map r_id (due_reservations now db))) as [Hin|Hnot].
  - apply in_map_iff in Hin as (r & <- & Hr). rewrite (expire_rows_hit _ _ r Hnd Hr).
    apply (due_spec db r Hinv) in Hr as [Hrow Hd]. by rewrite Hrow; simpl; rewrite Hd.
  - rewrite expire_rows_other by done. destruct (reservations db !! k) as [r|] eqn:Hk; [|done].
    destruct (bk_reservation _ _ (inv_books _ _ Hinv) _ _ Hk) as [Hid _]. simpl.
    destruct (is_due db now r) eqn:Hd; [|done]. exfalso. apply Hnot, in_map_iff. exists r.
    split; [done|]. apply due_spec; [done|]. by rewrite Hid.
Qed.
End Sweep.

(** The reservation of the sample run is due ten minutes later. *)
#[local] Existing Instance sample_crate.
#[local] Existing Instance sample_locks_crates.

Lemma reserved_inv now : 100 <= now -> inv now (snd run_reserve).
Proof.
  intros Hle. eapply inv_later; [exact Hle|].
  exact (inv_run 100 shelf 100 (snd run_reserve) reserve_step shelf_inv).
Qed.

Lemma sweep_expires_exactly_the_due_witness :
  let later := 100 + seconds 600 in
  exists db', expire_due_reservations later (snd run_reserve) = Done 1 db' /\
    r_status <$> reservations db' !! 7%N = Some RExpired.
Proof.
  cbv zeta. set (later := 100 + seconds 600).
  assert (Hinv : inv later (snd run_reserve)) by (apply reserved_inv; unfold later, seconds; lia).
  assert (E : exists db', expire_due_reservations later (snd run_reserve) = Done 1 db')
    by (vm_compute; eauto).
  destruct E as (db' & E). exists db'. split; [exact E|].
  rewrite (proj2 (proj2 (sweep_expires_exactly_the_due later (snd run_reserve) Hinv) 1 db' E) 7%N).
  vm_compute. reflexivity.
Defined.
