(* ===== verification/Totals.v ===== *)
(** * Checkout totals

    The totals of [handlers/checkout.rs] are exact wherever they fit 64 bits,
    and validation does not keep them there. *)

From S2P Require Import Prelude StateMachines Domain Store Commands Actions Auction Checkout.
From S2P Require Import Samples.

(** ** Checkout totals at their width

    [checkout.rs] multiplies and sums [i64]s.  When the true amounts fit, the
    order charges exactly them; a release build wraps around when they do
    not, and command validation does not exclude that. *)

(** The true amounts of a group. *)
Definition true_subtotal (g : Group) : Z :=
  sum_list (map (fun e => l_unit_price_amount_minor (snd e) * cl_quantity (fst e)) (g_lines g)).

Definition true_shipping (g : Group) : Z :=
  if bool_decide (g_method g = Shipping)
  then sum_list (map (fun e => l_shipping_minor (snd e)) (g_lines g)) else 0.

Lemma sum_i64_acc l acc :
  Forall (fun x => 0 <= x) l -> 0 <= acc -> acc + sum_list l <= i64_max ->
  fold_left (fun a x => wrap64 (a + x)) l acc = acc + sum_list l.
Proof.
  intros Hl. revert acc. induction Hl as [|x l Hx Hl IH]; intros acc Hacc Hle; simpl.
  - unfold sum_list. simpl. lia.
  - pose proof (sum_list_nonneg l Hl) as Hn. change (sum_list (x :: l)) with (x + sum_list l) in *.
    rewrite wrap64_id by (apply in_i64_spec; unfold i64_min, i64_max in *; lia).
    rewrite IH; lia.
Qed.

Lemma sum_i64_exact l :
  Forall (fun x => 0 <= x) l -> sum_list l <= i64_max -> sum_i64 l = sum_list l.
Proof. intros Hl Hle. unfold sum_i64. rewrite sum_i64_acc; lia || done. Qed.

Lemma sum_list_ge l x : Forall (fun y => 0 <= y) l -> In x l -> x <= sum_list l.
Proof.
  induction 1 as [|y l Hy Hl IH]; [done|]. change (sum_list (y :: l)) with (y + sum_list l).
  pose proof (sum_list_nonneg l Hl). intros [->|Hx]; [lia|]. specialize (IH Hx). lia.
Qed.

(** When the true amounts fit in 64 bits, an order charges exactly them:
    every line its price times its quantity, the order the sum of its lines
    plus, for a shipped order, each listing's shipping. *)
Theorem checkout_total_exact actor command payload context drop cur exp order_id payment_id now g :
  (forall e, In e (g_lines g) -> 0 <= l_unit_price_amount_minor (snd e) /\
     0 <= cl_quantity (fst e) /\ 0 <= l_shipping_minor (snd e)) ->
  true_subtotal g + true_shipping g <= i64_max ->
  let o := group_order actor command payload context drop cur exp order_id payment_id now g in
  o_subtotal_minor o = true_subtotal g /\ o_shipping_minor o = true_shipping g /\
  o_total_minor o = true_subtotal g + true_shipping g /\
  Forall2 (fun line e => amount_minor (ln_subtotal line) =
                         l_unit_price_amount_minor (snd e) * cl_quantity (fst e))
    (o_lines o) (g_lines g).
Proof.
  intros Hpos Hle.
  assert (Hsub : Forall (fun x => 0 <= x)
    (map (fun e => l_unit_price_amount_minor (snd e) * cl_quantity (fst e)) (g_lines g))).
  { apply List.Forall_forall. intros x Hx. apply in_map_iff in Hx as (e & <- & He).
    destruct (Hpos e He) as (? & ? & _). nia. }
  assert (Hship : Forall (fun x => 0 <= x) (map (fun e => l_shipping_minor (snd e)) (g_lines g))).
  { apply List.Forall_forall. intros x Hx. apply in_map_iff in Hx as (e & <- & He).
    by destruct (Hpos e He) as (_ & _ & ?). }
  pose proof (sum_list_nonneg _ Hsub) as Hn1. fold (true_subtotal g) in Hn1.
  assert (Hn2 : 0 <= true_shipping g).
  { unfold true_shipping. destruct (bool_decide _); [by apply sum_list_nonneg|lia]. }
  assert (Hline : forall e, In e (g_lines g) ->
    line_subtotal e = l_unit_price_amount_minor (snd e) * cl_quantity (fst e)).
  { intros e He. apply wrap64_id, in_i64_spec. destruct (Hpos e He) as (? & ? & _).
    assert (Hge := sum_list_ge _ (l_unit_price_amount_minor (snd e) * cl_quantity (fst e)) Hsub
                     (in_map (fun e => l_unit_price_amount_minor (snd e) * cl_quantity (fst e)) _ e He)).
    fold (true_subtotal g) in Hge. unfold i64_min, i64_max in *. nia. }
  assert (Hs : group_subtotal g = true_subtotal g).
  { unfold group_subtotal. rewrite (map_ext_in _ _ _ Hline). apply sum_i64_exact; [done|].
    fold (true_subtotal g). lia. }
  assert (Hh : group_shipping g = true_shipping g).
  { unfold group_shipping, true_shipping in *. destruct (bool_decide _); [|done].
    apply sum_i64_exact; [done|lia]. }
  assert (Ht : wrap64 (group_subtotal g + group_shipping g) = true_subtotal g + true_shipping g).
  { rewrite Hs, Hh. apply wrap64_id, in_i64_spec. unfold i64_min, i64_max in *. lia. }
  intros o. unfold o, group_order.
  destruct (bool_decide (is_Some drop)); simpl; rewrite Ht, Hs, Hh;
    (do 3 (split; [done|])); clear -Hline; induction (g_lines g) as [|[line l] lines IH]; simpl;
    constructor; try (apply IH; intros; apply Hline; by right); simpl;
    exact (Hline (line, l) (or_introl eq_refl)).
Qed.

Definition sample_checkout_line (quantity : Z) : CheckoutLine :=
  mkCheckoutLine (listing_aggregate_id sally "a") 1 quantity None None (Some Shipping).

Definition sample_group : Group :=
  mkGroup sally Shipping [(sample_checkout_line 3, sample_listing "a" LAvailable 3 0 0)].

Lemma checkout_total_exact_witness :
  true_subtotal sample_group + true_shipping sample_group = 1600 /\
  o_total_minor (group_order alice
    (sample_command 1 "c" 0 (CreateCheckout (mkCreateCheckout [sample_checkout_line 3] None None 1)))
    (mkCreateCheckout [sample_checkout_line 3] None None 1) (mkCheckoutContext 600 None)
    None "USD" 2 5 6 0 sample_group)
  = true_subtotal sample_group + true_shipping sample_group.
Proof.
  split; [reflexivity|].
  refine (proj1 (proj2 (proj2 (checkout_total_exact alice _ _ _ None "USD" 2 5 6 0 sample_group _ _)))).
  - intros e [<-|[]]. simpl. lia.
  - vm_compute. discriminate.
Defined.

(** ** Amounts that do not fit *)

(** A price and a quantity that both pass validation. *)
Definition dear_listing : ListingRow :=
  (sample_listing "a" LAvailable 1000000 0 0) <| l_unit_price_amount_minor := 9002803354665472 |>.

(** Validation bounds a price by [MAX_SAFE_INTEGER] and a quantity by a
    million, not their product: there is a valid line whose charge wraps around
    to a tiny amount instead of being refused. *)
Theorem checkout_subtotal_wraps :
  exists line l,
    1 <= cl_quantity line <= 1000000 /\ 1 <= l_unit_price_amount_minor l <= MAX_SAFE_INTEGER /\
    cl_quantity line <= l_available_quantity l /\
    0 < line_subtotal (line, l) < 2049 /\
    i64_max < l_unit_price_amount_minor l * cl_quantity line.
Proof.
  exists (sample_checkout_line 2049), dear_listing. vm_compute. repeat split; discriminate || done.
Qed.
