(* ===== verification/Disclosure.v ===== *)
(** * Who sees a delivery address

    The projections of [model.rs] and the answers of [executor.rs]: a buyer's
    delivery address leaves the service only in the seller's own view of one
    paid, shipped order; no command answer and no stored result carries it. *)

From S2P Require Import LocksKeys Locks LockResource Registration.
From S2P Require Import Prelude Domain Pubky StateMachines Store Commands Actions Drops Holds.
From S2P Require Import Holds Pickup DigitalManual Fulfillment Cancellation.
From S2P Require Import Payment Auction Checkout Executor Samples OrderActions System Logs.
From S2P Require Import Idempotency Seal Reviews Json DigitalManual PickupDetails Digital.
From S2P Require Import AwardTerms Offers OfferCheckout.

(** A projection discloses the delivery address exactly to the
    authenticated seller of that order, looking at the single order, while it
    is a shipped order that is paid or being processed; the rest of the view
    never contains it. *)
Theorem projection_discloses_address_iff o context address :
  (ov_delivery_address (project o context) = Some address <->
     exists actor, context = SellerSingleOrder actor /\ actor = o_seller_pubky o /\
       o_fulfillment o = Shipping /\ (o_state o = OPaid \/ o_state o = OProcessing) /\
       o_delivery_address o = Some address) /\
  o_delivery_address (ov_order (project o context)) = None.
Proof.
  split; [|done]. unfold project. simpl. split.
  - destruct context as [|actor| | | | |]; try discriminate.
    unfold eligible_delivery_address, can_reveal_delivery_address.
    destruct (actor =? _)%string eqn:Ea; [|discriminate].
    destruct (bool_decide (o_fulfillment o = Shipping)) eqn:Ef; [|discriminate]. reflect_bools.
    destruct (o_state o) eqn:Es; simpl; try discriminate; eauto 10.
  - intros (actor & -> & -> & Hf & Hs & Ha). unfold eligible_delivery_address,
      can_reveal_delivery_address. rewrite String.eqb_refl, Hf. simpl.
    by destruct Hs as [-> | ->].
Qed.

(** ** Answers *)

Definition hides (v : OrderView) : Prop :=
  ov_delivery_address v = None /\ o_delivery_address (ov_order v) = None.

Definition private (v : HandlerValue) : Prop :=
  match v with
  | VOrder o _ => hides o
  | VReview o _ _ _ => hides o
  | VAuctionResult _ _ _ o _ => forall x, o = Some x -> hides x
  | VPayment _ o _ => hides o
  | VCheckout os _ => Forall hides os
  | _ => True
  end.

Lemma command_view_hides o : hides (command_view o).
Proof. done. Qed.

(** Every answer of [m] satisfies [P]. *)
Definition answers {A} (P : A -> Prop) (m : H A) : Prop :=
  forall db, match m db with Done a _ => P a | _ => True end.

Lemma answers_ret {A} (P : A -> Prop) a : P a -> answers P (ret a).
Proof. intros Ha db. exact Ha. Qed.
Lemma answers_refuse {A} (P : A -> Prop) f : answers P (refuse f).
Proof. done. Qed.
Lemma answers_panic {A} (P : A -> Prop) msg : answers P (panic msg).
Proof. done. Qed.
Lemma answers_bind {A B} (P : B -> Prop) (m : H A) (k : A -> H B) :
  (forall a, answers P (k a)) -> answers P (bind m k).
Proof. intros Hk db. unfold bind. destruct (m db); auto. apply Hk. Qed.

Definition keeps_private (m : H HandlerSuccess) : Prop :=
  answers (fun s => private (hs_result s)) m.

Section Answers.
Context `{!UuidCrate, !JsonText, !Base32Crate, LC : !LocksCrates}.

Lemma private_finish actor command o ek nt recipient now :
  keeps_private (finish_order_action actor command o ek nt recipient now).
Proof.
  unfold finish_order_action. do 2 (apply answers_bind; intros ?). apply answers_ret, command_view_hides.
Qed.

(** The answer is passed through a later write. *)
Lemma private_then (m : H HandlerSuccess) (k : HandlerSuccess -> H unit) :
  keeps_private m -> keeps_private (let* success := m in do* k success in ret success).
Proof.
  intros Hm db. specialize (Hm db). unfold bind. destruct (m db) as [s db'| | |]; [|done..].
  by destruct (k s db').
Qed.

(** Walk to the last statement of a handler. *)
Ltac answer :=
  repeat (cbv zeta; lazymatch goal with
    | |- answers _ (finish_order_action _ _ _ _ _ _ _) => apply private_finish
    | |- answers _ (bind (finish_order_action _ _ _ _ _ _ _) _) =>
        apply private_then, private_finish
    | |- answers _ (refuse _) => apply answers_refuse
    | |- answers _ (panic _) => apply answers_panic
    | |- answers _ (ret (mkSuccess _ _ (VCheckout _ _))) => fail
    | |- answers _ (ret (mkSuccess _ _ (VAuctionResult _ _ _ _ _))) => fail
    | |- answers _ (ret _) => apply answers_ret; first [exact I | apply command_view_hides]
    | |- answers _ (bind _ _) => apply answers_bind; intros ?
    | |- answers _ (if ?b then _ else _) => destruct b
    | |- answers _ (match ?x with _ => _ end) => destruct x
    end).

Lemma private_checkout actor command p locks context now :
  keeps_private (Checkout.handle actor command p locks context now).
Proof.
  unfold Checkout.handle, keeps_private. answer. apply answers_ret. simpl.
  apply List.Forall_forall. intros v Hv. apply in_map_iff in Hv as (row & <- & _).
  apply command_view_hides.
Qed.

Lemma private_close actor command now : keeps_private (Auction.close actor command now).
Proof.
  unfold Auction.close, keeps_private. answer. apply answers_ret. simpl. intros v Hv.
  apply fmap_Some in Hv as (row & _ & ->). apply command_view_hides.
Qed.

Lemma private_offers actor command now :
  (forall p f, keeps_private (Offers.create actor command p f now)) /\
  (forall p f, keeps_private (counter actor command p f now)) /\
  (forall p f, keeps_private (accept actor command p f now)) /\
  (forall p, keeps_private (reject actor command p now)) /\
  (forall p, keeps_private (withdraw actor command p now)) /\
  (forall p w, keeps_private (OfferCheckout.handle actor command p w now)).
Proof.
  repeat split; intros; unfold keeps_private.
  - unfold Offers.create. answer.
  - unfold counter. answer.
  - unfold accept. answer.
  - unfold reject. answer.
  - unfold withdraw. answer.
  - unfold OfferCheckout.handle. answer.
Qed.

Lemma private_details actor command now :
  (forall p k b, keeps_private (PickupDetails.set actor command p k b now)) /\
  (forall p k b, keeps_private (PickupDetails.clear actor command p k b now)) /\
  (forall p k f n, keeps_private (set_delivery actor command p k f n now)) /\
  (forall p k, keeps_private (clear_delivery actor command p k now)) /\
  (forall p, keeps_private (set_band_consent actor command p now)).
Proof.
  repeat split; intros; unfold keeps_private.
  - unfold PickupDetails.set. answer.
  - unfold PickupDetails.clear. answer.
  - unfold set_delivery. answer.
  - unfold clear_delivery. answer.
  - unfold set_band_consent. answer.
Qed.

Lemma private_reviews actor command now :
  (forall p a, keeps_private (Reviews.create actor command p a now)) /\
  (forall p, keeps_private (Reviews.update actor command p now)) /\
  (forall p k, keeps_private (set_delivery_email actor command p k now)) /\
  (forall p, keeps_private (deliver_digital actor command p now)).
Proof.
  repeat split; intros; unfold keeps_private.
  - unfold Reviews.create, review_result. answer.
  - unfold Reviews.update, review_result. answer.
  - unfold set_delivery_email, order_action_success. answer.
  - unfold deliver_digital, order_action_success. answer.
Qed.

Lemma private_listings actor command now :
  (forall p prefetched, keeps_private (register actor command p prefetched now)) /\
  (forall p h, keeps_private (sync_listing actor command p h now)).
Proof.
  repeat split; intros; unfold keeps_private.
  - unfold register, Registration.apply_registration. answer.
  - unfold sync_listing, settle_missing_record, apply_sync, sync_auction, converge,
      Registration.apply_registration, deleted_success. answer.
Qed.

Lemma private_locks actor command now :
  (forall p k, keeps_private (register_locks actor command p k now)) /\
  (forall p k f w, keeps_private (prepare_locks actor command p k f w now)).
Proof.
  repeat split; intros; unfold keeps_private.
  - unfold register_locks. answer.
  - unfold prepare_locks, replay_preparation, bind_preparation. answer.
Qed.

Lemma private_dispatch state actor command prefetched now :
  keeps_private (dispatch state actor command prefetched now).
Proof.
  unfold dispatch.
  pose proof (private_offers actor command now) as (?&?&?&?&?&?).
  pose proof (private_details actor command now) as (?&?&?&?&?).
  pose proof (private_reviews actor command now) as (?&?&?&?).
  pose proof (private_listings actor command now) as [? ?].
  pose proof (private_locks actor command now) as [? ?].
  destruct (c_payload command); auto using private_checkout, private_close;
    unfold keeps_private, Drops.sync, apply_resync, Drops.apply_registration, Drops.cancel,
      Drops.release_listings, Holds.handle, place_bid, advance, route_refund,
      apply_advance, ship, confirm_delivery, mark_ready, confirm_pickup, Fulfillment.request,
      Fulfillment.approve, Fulfillment.receive, advance_return, record_external_refund,
      Cancellation.request, Cancellation.approve; answer.
Qed.

Definition is_checkout (payload : CommandPayload) : bool :=
  match payload with CreateCheckout _ => true | _ => false end.

(** The durable form of an answer carries no more than the answer. *)
Lemma private_stored state actor command body db stored db' :
  stored_form state actor command body db = Done stored db' ->
  private (sb_result body) -> private (sb_result stored).
Proof.
  intros E Hp. destruct (stored_form_cases state actor command body db)
    as [(? & ? & E')|(? & ? & E' & Hc)]; rewrite E in E'; [discriminate|]. injection E' as <- <-.
  destruct (c_payload command) eqn:Ep; try (by destruct Hc as [_ ->]).
  destruct Hc as (_ & locks & _ & Hs). unfold seal_prepare_locks_result in Hs. rewrite Ep in Hs.
  destruct (sb_result body); try discriminate. by injection Hs as <-.
Qed.

(** Whatever was stored for a checkout, its replay hides the address. *)
Lemma redacted_private stored body :
  redact_command_result stored = Some body -> private (sb_result body).
Proof.
  unfold redact_command_result. destruct (sb_result stored); try discriminate. intros [= <-]. simpl.
  apply List.Forall_forall. intros v (x & <- & _)%in_map_iff. done.
Qed.

(** A replay of another command repeats what was stored. *)
Lemma replayed_private state actor command hash stored body :
  (is_checkout (c_payload command) = false -> private (sb_result (sr_result stored))) ->
  stored_result_response state actor command hash stored = Response 200 (OkBody body) ->
  private (sb_result body).
Proof.
  intros Hp E. unfold stored_result_response in E. destruct (negb _); [done|].
  destruct (c_payload command) eqn:Ep; simpl in Hp; try (injection E as <-; exact (Hp eq_refl)).
  - destruct (redact_command_result (sr_result stored)) as [b|] eqn:Er; [|discriminate].
    injection E as <-. by eapply redacted_private.
  - destruct (st_locks state) as [locks|]; [|discriminate].
    unfold unseal_prepare_locks_result in E. rewrite Ep in E.
    destruct (sb_result (sr_result stored)); try discriminate.
    destruct (open_result_client_reference _ _ _ _); [|discriminate]. by injection E as <-.
Qed.

(** C29. No answer to a command carries a delivery address, in the projection
    or in the row behind it, and no result that is stored does.  This covers the
    replay of a checkout whatever its stored result contains, the addresses of
    legacy results included; the replay of another command repeats its stored
    result, which has to be free of addresses, as every result this executor
    stores is. *)
Theorem no_answer_discloses_address state actor command hash now db :
  (is_checkout (c_payload command) = false ->
   forall r, command_results db !! (actor, c_command_id command) = Some r -> private (sb_result (sr_result r))) ->
  (forall body, fst (execute state actor (inl command) hash now db)
                  = Response 200 (OkBody body) -> private (sb_result body)) /\
  forall k r, command_results (snd (execute state actor (inl command) hash now db)) !! k = Some r ->
    command_results db !! k = Some r \/ private (sb_result (sr_result r)).
Proof.
  intros Hr. unfold execute. destruct (negb _); [split; [done|by left]|].
  destruct (command_results db !! _) as [stored|] eqn:Hk.
  - split; [|by left]. intros body E. simpl in E. eapply replayed_private; [|exact E].
    intros Hc. by apply (Hr Hc).
  - pose proof (private_dispatch state actor command (prefetch state actor command db) now db) as Hp.
    pose proof (history_dispatch state actor command (prefetch state actor command db) now db) as Hh.
    destruct (dispatch _ _ _ _ _ db) as [success after| |e|];
      [|split; [done|by left]|split; [by destruct e|destruct e; by left]|split; [done|by left]].
    destruct (commit_result_cases state actor command hash success now db after)
      as [(Es & _ & Hno)|(stored & after' & Hs & Ha & _ & Ec)].
    { rewrite Es. split; [|by left]. intros body E. by apply Hno in E. }
    rewrite Ec. split; [by intros body [= <-]|]. intros k r Hkr.
    assert (Er : command_results after' = command_results after) by (by destruct Ha as [-> | ->]).
    change ((<[(actor, c_command_id command) := mkStoredResult hash stored now]>
        (command_results after')) !! k = Some r) in Hkr.
    apply lookup_insert_Some in Hkr as [[_ <-]|[_ Hkr]]; [right|left].
    + by apply (private_stored state actor command (success_body command success) after stored after').
    + by rewrite Er, (hi_results _ _ Hh) in Hkr.
Qed.
End Answers.

#[local] Existing Instance sample_crate.
#[local] Existing Instance sample_locks_crates.

(** A shipped checkout: its answer keeps the address to itself. *)
Definition home : DeliveryAddress := mkDeliveryAddress "A" "Street 1" "" "Town" "" "1000" "CH".

Definition buy_shipped : Command :=
  sample_command 8 (checkout_aggregate_id 8) 0
    (CreateCheckout (mkCreateCheckout
       [mkCheckoutLine (listing_aggregate_id sally "a") 1 2 None None (Some Shipping)]
       (Some home) None 1)).

(** The stored result of a legacy checkout with an address. *)
Definition legacy_result : StoredResult :=
  let o := (sample_order 7 8 buyer_key [sample_line "a" 2]) <| o_delivery_address := Some home |> in
  mkStoredResult "h" (mkSuccessBody 8 (checkout_aggregate_id 8) 1 [] (VCheckout [mkOrderView o 0 (Some home)] [])) 0.

Definition legacy_shelf : Db := shelf <| command_results := {[ (buyer_key, 8%N) := legacy_result ]} |>.

Lemma no_answer_discloses_address_witness :
  (exists body, fst (execute sample_state buyer_key (inl buy_shipped) "h" 100 shelf)
    = Response 200 (OkBody body) /\ private (sb_result body)) /\
  exists body, fst (execute sample_state buyer_key (inl buy_shipped) "h" 100 legacy_shelf)
    = Response 200 (OkBody body) /\ private (sb_result body).
Proof.
  assert (E : exists body, fst (execute sample_state buyer_key (inl buy_shipped) "h" 100
    shelf) = Response 200 (OkBody body)) by (vm_compute; eauto).
  assert (E' : exists body, fst (execute sample_state buyer_key (inl buy_shipped) "h" 100
    legacy_shelf) = Response 200 (OkBody body)) by (vm_compute; eauto).
  destruct E as (body & E), E' as (body' & E'). split.
  - exists body. split; [exact E|].
    exact (proj1 (no_answer_discloses_address sample_state buyer_key buy_shipped "h" 100
                    shelf ltac:(discriminate)) body E).
  - exists body'. split; [exact E'|].
    exact (proj1 (no_answer_discloses_address sample_state buyer_key buy_shipped "h" 100
                    legacy_shelf ltac:(discriminate)) body' E').
Defined.
