(* ===== verification/DropContract.v ===== *)
(** * What a drop promises

    The gate of [handlers/drops.rs] and the editions it numbers, and the one
    promise its books do not keep after a paid order is cancelled. *)

From S2P Require Import Prelude Domain StateMachines Store Commands Actions Drops Holds Pickup.
From S2P Require Import DigitalManual Cancellation Payment Within Executor Samples ReviewContract DropBooks System.

Section Contract.
Context {crate : UuidCrate} (now : Time).

(** The drop gate: a hold is accepted only while the drop is live by
    server time, takes exactly its units from what remains (never below zero),
    counts them against the buyer and keeps the buyer within the limit; every
    other drop is untouched by the accounting. *)
Theorem drop_gate_sound db k d buyer units command_id d' db' :
  drops_ok now db -> drops db !! k = Some d ->
  enforce_drop_gate d buyer units command_id now db = Done d' db' ->
  gated now buyer units k d d' db db' /\ drops_ok now db' /\ drops_only db db' /\
  derived_state (d_starts_at d) (d_ends_at d) now = DLive.
Proof.
  intros Hok Hk E.
  destruct (wp_Done _ _ _ _ _ _ (wp_enforce_drop_gate now db k d buyer units command_id Hok Hk) E)
    as (Hok' & Hf & _ & Hg).
  do 3 (split; [done|]). destruct Hg as (_ & Hl & _). unfold effective_state in Hl.
  destruct (is_active_state (d_state d)) eqn:Ha; [done|]. by destruct (d_state d).
Qed.

(** Editions are numbered without gaps: a confirmation gives the order
    the next number after the drop's paid count, at most the total, and ends
    the drop as sold out exactly when that was the last one of a live drop. *)
Theorem edition_is_next db k actor command_id e db' :
  drops_ok now db -> record_paid_unit k actor command_id now db = Done e db' ->
  exists d d', drops db !! k = Some d /\ drops db' !! k = Some d' /\
    e = d_paid_quantity d + 1 /\ 1 <= e <= d_total_quantity d /\ d_paid_quantity d' = e /\
    (d_state d' = DEndedSoldOut <->
       (e = d_total_quantity d /\ effective_state d now = DLive) \/ d_state d = DEndedSoldOut) /\
    drops_ok now db'.
Proof.
  intros Hok E.
  destruct (wp_Done _ _ _ _ _ _ (wp_record_paid_unit now db k actor command_id Hok) E)
    as (Hok' & _ & _ & d & d' & Hd & Hd' & -> & Hp & Hle & _ & _ & Hs).
  destruct (drop_check_bounds d (dk_check _ _ _ _ (dk_row _ _ Hok k d Hd))) as (_ & Hb & _).
  exists d, d'. do 2 (split; [done|]). split; [done|]. split; [lia|]. split; [done|].
  split; [|done]. rewrite Hs, Hp.
  destruct (_ =? _) eqn:E1; reflect_bools; simpl.
  - case_bool_decide as E2; [tauto|]. split; [|intros [[_ ?]|Hd2]; [done|]].
    + unfold effective_state, derived_state in *. destruct (d_state d); simpl in *; try done;
        repeat case_match; try done; auto.
    + unfold effective_state. by rewrite Hd2.
  - split; [|intros [[? _]|Hd2]; [done|]].
    + unfold effective_state, derived_state in *. destruct (d_state d); simpl in *; try done;
        repeat case_match; try done; auto.
    + unfold effective_state. by rewrite Hd2.
Qed.
(** A confirmation numbers an edition after the guards, which touch no drop. *)
Lemma confirm_counts_edition db k o actor command_id payment keys result db' :
  drops_ok now db -> o_drop_aggregate_id o = Some k ->
  confirm_order actor command_id payment o keys now db = Done result db' ->
  exists d, drops db !! k = Some d /\ d_paid_quantity d + 1 <= d_total_quantity d.
Proof.
  intros Hok Ho E. unfold confirm_order in E. apply bind_Done in E as ([] & db1 & E1 & E).
  apply bind_Done in E as (edition & db2 & E2 & _).
  assert (Hsame : same (fun db => (drops db, drop_purchases db)) db db1).
  { eapply (within_Done (same _)); [|exact E1].
    unfold confirm_guards, unpinnable, flip_winning_reservation. same_run. }
  injection Hsame as Ed Ep. unfold assign_edition in E2. rewrite Ho in E2.
  apply bind_Done in E2 as (e & db3 & E3 & _).
  destruct (edition_is_next db1 k actor command_id e db3 (drops_ok_same now db db1 Ed Ep Hok) E3)
    as (d & _ & Hd & _ & -> & Hb & _).
  exists d. rewrite <- Ed. split; [done|lia].
Qed.

(** The paid count of a drop is not taken back when a paid order is
    cancelled.  Returning units to a drop puts them back on sale and leaves the
    count of paid units as it was; and when that count has reached the drop's
    total, no order of the drop can be confirmed any more, by any actor or
    payment, although returned units can still be held.  So the last buyers of
    a drop whose units were resold cannot complete their purchase. *)
Theorem resold_unit_cannot_be_confirmed db k d :
  drops_ok now db -> drops db !! k = Some d ->
  (forall buyer units db', credit_drop_release k buyer units now db = Done true db' ->
     exists d', drops db' !! k = Some d' /\
       d_remaining_quantity d' = d_remaining_quantity d + units /\
       d_paid_quantity d' = d_paid_quantity d /\ d_total_quantity d' = d_total_quantity d) /\
  (d_paid_quantity d = d_total_quantity d ->
   forall actor command_id payment o keys result db', o_drop_aggregate_id o = Some k ->
     confirm_order actor command_id payment o keys now db <> Done result db').
Proof.
  intros Hok Hd. split.
  - intros buyer units db' E. unfold credit_drop_release in E. apply bind_Done in E as (row & db1 & E1 & E).
    injection E1 as <- <-. rewrite Hd in E. apply bind_Done in E as (credited & db1 & E1 & E).
    apply update_where_Done in E1. destruct credited as [w|]; [|discriminate].
    destruct E1 as (d0 & Hd0 & _ & _ & -> & ->). rewrite Hd in Hd0. injection Hd0 as <-.
    apply bind_Done in E as (debited & db2 & E2 & [= _ ->]). apply update_where_Done in E2.
    assert (Ed : drops db' = <[k := d <| d_remaining_quantity := d_remaining_quantity d + units |>
      <| d_revision := d_revision d + 1 |> <| d_updated_at := now |>]> (drops db)).
    { destruct debited as [p|]; [by destruct E2 as (? & _ & _ & _ & _ & ->)|by destruct E2 as [-> _]]. }
    rewrite Ed, lookup_insert_eq. by eexists.
  - intros Hp actor command_id payment o keys result db' Ho E.
    destruct (confirm_counts_edition _ _ _ _ _ _ _ _ _ Hok Ho E) as (d' & Hd' & Hlt).
    rewrite Hd in Hd'. injection Hd' as <-. lia.
Qed.
End Contract.

#[local] Existing Instance sample_crate.
#[local] Existing Instance sample_locks_crates.

Abbreviation sample_key := (drop_aggregate_id sally "d").

Lemma drop_gate_sound_witness :
  exists d' db', enforce_drop_gate sample_drop alice 2 5 100 drop_shelf = Done d' db' /\
    gated 100 alice 2 sample_key sample_drop d' drop_shelf db'.
Proof.
  assert (E : exists d' db', enforce_drop_gate sample_drop alice 2 5 100 drop_shelf = Done d' db')
    by (vm_compute; eauto).
  destruct E as (d' & db' & E). exists d', db'. split; [exact E|].
  exact (proj1 (drop_gate_sound 100 drop_shelf sample_key sample_drop alice 2 5 d' db'
                  (Books.inv_drops _ _ drop_shelf_inv) eq_refl E)).
Defined.

Lemma edition_is_next_witness :
  exists e db', record_paid_unit sample_key sally 5 100 drop_shelf = Done e db' /\ 1 <= e <= 5.
Proof.
  assert (E : exists e db', record_paid_unit sample_key sally 5 100 drop_shelf = Done e db')
    by (vm_compute; eauto).
  destruct E as (e & db' & E). exists e, db'. split; [exact E|].
  destruct (edition_is_next 100 drop_shelf sample_key sally 5 e db'
              (Books.inv_drops _ _ drop_shelf_inv) E) as (d & d' & Hd & _ & _ & Hb & _).
  assert (d_total_quantity d = 5) as <-; [|exact Hb].
  assert (drops drop_shelf !! sample_key = Some sample_drop) as Hs by reflexivity.
  rewrite Hs in Hd. injection Hd as <-. reflexivity.
Defined.

(** ** A paid unit that comes back *)

Definition claim_of (buyer : Pubky) (command_id : Uuid) : H unit :=
  let* row := fetch_drop_for_update sample_key in
  let* drop := or_fail row RowNotFound in
  do* enforce_drop_gate drop buyer 1 command_id 100 in
  ret tt.

(** Two units, both paid once; the order of the first was cancelled, so one
    is on sale again. *)
Definition returned_unit : Db :=
  drop_shelf
    <| drops := {[ sample_key := sample_drop <| d_total_quantity := 2 |>
                                   <| d_remaining_quantity := 1 |> <| d_paid_quantity := 2 |> ]} |>
    <| drop_purchases := {[ (sample_key, bob) := mkDropPurchase 1 2 ]} |>.

Lemma returned_unit_ok : drops_ok 100 returned_unit.
Proof.
  split.
  - intros k d Hd.
    change (({[sample_key := sample_drop <| d_total_quantity := 2 |> <| d_remaining_quantity := 1 |>
      <| d_paid_quantity := 2 |>]} : gmap string DropRow) !! k = Some d) in Hd.
    by apply lookup_singleton_Some in Hd as [<- <-].
  - intros k b p Hp.
    change (({[(sample_key, bob) := mkDropPurchase 1 2]} : gmap (string * string) DropPurchaseRow) !! (k, b)
      = Some p) in Hp.
    apply lookup_singleton_Some in Hp as [[= <- <-] <-]. split; [reflexivity|]. eexists.
    split; [vm_compute; reflexivity|reflexivity].
Qed.

(** [carol] may hold the unit, but not pay for it. *)
Lemma resold_unit_cannot_be_confirmed_witness :
  (exists db', claim_of carol 4 returned_unit = Done tt db') /\
  forall payment keys result db', confirm_order carol 5 payment
    ((sample_order 7 8 carol [sample_line "a" 1]) <| o_drop_aggregate_id := Some sample_key |>)
    keys 100 returned_unit <> Done result db'.
Proof.
  split; [vm_compute; by eexists|]. intros payment keys result db'.
  apply (resold_unit_cannot_be_confirmed 100 returned_unit sample_key
    (sample_drop <| d_total_quantity := 2 |> <| d_remaining_quantity := 1 |> <| d_paid_quantity := 2 |>)
    returned_unit_ok); reflexivity.
Defined.
