(* ===== verification/Ranking.v ===== *)
(** * Who leads an auction, and at what price

    The proxy-bid ranking of [handlers/auction.rs] against its specification:
    the highest maximum leads, the first accepted wins a tie, every bidder is
    ranked once; the visible price never exceeds the leader's maximum and
    always covers the runner-up's. *)

From stdpp Require Import sorting.
From S2P Require Import Json LocksKeys Inventory.
From S2P Require Import Prelude StateMachines Domain Store Commands Actions Drops Holds.
From S2P Require Import Holds Auction Executor Samples.

#[export] Instance ranks_before_refl : Reflexive ranks_before.
Proof. intros x. right. split; [done|lia]. Qed.
#[export] Instance ranks_before_trans : Transitive ranks_before.
Proof. intros x y z. unfold ranks_before. lia. Qed.
#[export] Instance ranks_before_total : Total ranks_before.
Proof. intros x y. unfold ranks_before. lia. Qed.

(** One representative per bidder, ranked before all of that bidder's bids. *)
Record represents (seen latest : list BidRow) : Prop := mkRepresents {
  rp_among : forall r, In r latest -> In r seen;
  rp_once : NoDup (map b_bidder_pubky latest);
  rp_best : forall b, In b seen ->
    exists r, In r latest /\ b_bidder_pubky r = b_bidder_pubky b /\ ranks_before r b;
}.

Lemma represent_bidders bid latest :
  map b_bidder_pubky (represent bid latest) =
  if existsb (fun r => (b_bidder_pubky r =? b_bidder_pubky bid)%string) latest
  then map b_bidder_pubky latest else map b_bidder_pubky latest ++ [b_bidder_pubky bid].
Proof.
  induction latest as [|r latest IH]; simpl; [done|].
  destruct (String.eqb_spec (b_bidder_pubky r) (b_bidder_pubky bid)) as [E|E]; simpl.
  - destruct (supersedes bid r); simpl; [by rewrite E|done].
  - rewrite IH. by destruct (existsb _ latest).
Qed.

Lemma represent_in bid latest r : In r (represent bid latest) -> r = bid \/ In r latest.
Proof.
  induction latest as [|x latest IH]; simpl; [intros [<-|[]]; by left|].
  destruct (_ =? _)%string; simpl.
  - destruct (supersedes bid x); intros [<-|?]; auto.
  - intros [<-|Hr]; [auto|]. destruct (IH Hr); auto.
Qed.

Lemma supersedes_false bid current :
  supersedes bid current = false -> ranks_before current bid.
Proof.
  unfold supersedes, ranks_before. intros H. apply orb_false_iff in H as [H1 H2]. reflect_bools.
  destruct (Z.eqb_spec (b_maximum_amount_minor bid) (b_maximum_amount_minor current)); simpl in H2;
    reflect_bools; lia.
Qed.

Lemma supersedes_true bid current :
  supersedes bid current = true -> ranks_before bid current.
Proof.
  unfold supersedes, ranks_before. intros H. apply orb_true_iff in H as [H|H]; reflect_bools; lia.
Qed.

(** Every earlier representative is kept or outranked by its bidder's new one. *)
Lemma represent_keeps bid latest r :
  In r latest -> exists r', In r' (represent bid latest) /\
    b_bidder_pubky r' = b_bidder_pubky r /\ ranks_before r' r.
Proof.
  induction latest as [|x latest IH]; simpl; [done|].
  destruct (String.eqb_spec (b_bidder_pubky x) (b_bidder_pubky bid)) as [E|E]; simpl.
  - intros [->|Hr].
    + destruct (supersedes bid r) eqn:Es.
      * exists bid. split; [by left|]. split; [done|by apply supersedes_true].
      * exists r. split; [by left|]. done.
    + exists r. split; [by right|]. done.
  - intros [->|Hr].
    + exists r. split; [by left|]. done.
    + destruct (IH Hr) as (r' & ? & ?). exists r'. split; [by right|done].
Qed.

Lemma represent_covers bid latest :
  exists r, In r (represent bid latest) /\ b_bidder_pubky r = b_bidder_pubky bid /\
    ranks_before r bid.
Proof.
  induction latest as [|x latest IH]; simpl; [exists bid; split; [by left|done]|].
  destruct (String.eqb_spec (b_bidder_pubky x) (b_bidder_pubky bid)) as [E|E].
  - destruct (supersedes bid x) eqn:Es.
    + exists bid. split; [by left|done].
    + exists x. split; [by left|]. split; [done|by apply supersedes_false].
  - destruct IH as (r & ? & ?). exists r. split; [by right|done].
Qed.

Lemma represents_step seen latest bid :
  represents seen latest -> represents (seen ++ [bid]) (represent bid latest).
Proof.
  intros [Ha Ho Hb]. split.
  - intros r Hr. apply in_or_app. apply represent_in in Hr as [->|Hr]; [right; by left|auto].
  - rewrite represent_bidders. destruct (existsb _ latest) eqn:Ex; [done|].
    apply list.NoDup_app. split; [done|]. split; [|apply NoDup_singleton].
    intros b Hb1 Hb2. apply list_elem_of_singleton in Hb2 as ->.
    apply list_elem_of_In, in_map_iff in Hb1 as (r & Hr & Hin).
    apply not_true_iff_false in Ex. apply Ex, existsb_exists. exists r.
    split; [done|]. by apply String.eqb_eq.
  - intros b Hin. apply in_app_iff in Hin as [Hin|[<-|[]]]; [|apply represent_covers].
    destruct (Hb b Hin) as (r & Hr & Hbid & Hrank).
    destruct (represent_keeps bid latest r Hr) as (r' & ? & ? & ?).
    exists r'. split; [done|]. split; [congruence|by etransitivity].
Qed.

Lemma representatives_spec bids : represents bids (representatives bids).
Proof.
  unfold representatives.
  enough (forall seen latest, represents seen latest ->
    represents (seen ++ bids) (fold_left (fun l b => represent b l) bids latest)) as Hg.
  { apply (Hg [] []). split; [done|constructor|done]. }
  induction bids as [|b bids IH]; intros seen latest Hr; simpl; [by rewrite app_nil_r|].
  specialize (IH (seen ++ [b]) (represent b latest) (represents_step _ _ _ Hr)).
  by rewrite <- app_assoc in IH.
Qed.

(** C28. The auction leader is the bid with the highest maximum, and among
    equal maximums the one accepted first; every bidder appears exactly once in
    the ranking, with a bid at least as good as any other of theirs. *)
Theorem leader_is_highest_first_bid bids leader rest :
  ranked_bidder_maximums bids = leader :: rest ->
  In leader bids /\ (forall b, In b bids -> ranks_before leader b) /\
  represents bids (leader :: rest) /\ Sorted ranks_before (leader :: rest).
Proof.
  intros E. pose proof (representatives_spec bids) as [Ha Ho Hb].
  pose proof (merge_sort_Permutation ranks_before (representatives bids)) as Hp.
  pose proof (Sorted_merge_sort ranks_before (representatives bids)) as Hs.
  unfold ranked_bidder_maximums in E. rewrite E in Hp, Hs.
  assert (Hin : forall r, In r (leader :: rest) <-> In r (representatives bids)).
  { intros r. by rewrite <- !list_elem_of_In, Hp. }
  assert (Hr : represents bids (leader :: rest)).
  { split.
    - intros r Hr. by apply Ha, Hin.
    - eapply NoDup_Permutation_proper; [|exact Ho]. by rewrite Hp.
    - intros b Hib. destruct (Hb b Hib) as (r & ? & ?). exists r. by rewrite Hin. }
  split; [apply (rp_among _ _ Hr); by left|]. split; [|done].
  intros b Hib. destruct (rp_best _ _ Hr b Hib) as (r & Hri & _ & Hrank).
  etransitivity; [|exact Hrank]. destruct Hri as [<-|Hri]; [reflexivity|].
  apply Sorted_StronglySorted in Hs; [|apply _]. apply StronglySorted_inv in Hs as [_ Hall].
  rewrite List.Forall_forall in Hall. by apply Hall.
Qed.

(** The visible price is fair to the leader: with at least two bidders
    it covers the runner-up's maximum and never exceeds the leader's own. *)
Theorem visible_price_fair bids leader runner_up rest increment opening :
  ranked_bidder_maximums bids = leader :: runner_up :: rest ->
  (forall b, In b bids -> 0 < b_maximum_amount_minor b <= MAX_SAFE_INTEGER) ->
  0 <= increment <= MAX_SAFE_INTEGER ->
  let visible := visible_amount (leader :: runner_up :: rest) increment opening in
  b_maximum_amount_minor runner_up <= visible <= b_maximum_amount_minor leader /\
  visible <= b_maximum_amount_minor runner_up + increment /\
  b_bidder_pubky leader <> b_bidder_pubky runner_up.
Proof.
  intros E Hpos Hinc.
  pose proof (representatives_spec bids) as [Ha Ho _].
  pose proof (merge_sort_Permutation ranks_before (representatives bids)) as Hp.
  pose proof (Sorted_merge_sort ranks_before (representatives bids)) as Hs.
  unfold ranked_bidder_maximums in E. rewrite E in Hp, Hs.
  assert (Hin : forall r, In r (leader :: runner_up :: rest) -> In r bids).
  { intros r Hr. apply Ha. apply list_elem_of_In. rewrite <- Hp. by apply list_elem_of_In. }
  pose proof (Hpos leader (Hin _ (or_introl eq_refl))).
  pose proof (Hpos runner_up (Hin _ (or_intror (or_introl eq_refl)))).
  assert (Hrank : ranks_before leader runner_up) by (inversion Hs as [|? ? ? Hd]; by inversion Hd).
  intros visible. unfold visible, visible_amount. rewrite wrap64_id.
  - unfold ranks_before in Hrank. split; [lia|]. split; [lia|]. intros Eq.
    assert (NoDup (map b_bidder_pubky (leader :: runner_up :: rest))) as Hnd
      by (eapply NoDup_Permutation_proper; [by rewrite Hp|exact Ho]).
    simpl in Hnd. apply list.NoDup_cons in Hnd as [Hnot _]. apply Hnot. rewrite Eq. left.
  - apply in_i64_spec. unfold i64_min, i64_max, MAX_SAFE_INTEGER in *. lia.
Qed.

Definition sample_bid (bidder : Pubky) (maximum sequence : Z) : BidRow :=
  mkBid (Z.to_N sequence) "auction" bidder maximum "USD" 2 sequence 0 None.

Definition sample_bids : list BidRow :=
  [sample_bid alice 100 1; sample_bid bob 150 2; sample_bid carol 150 3; sample_bid alice 120 4].

Lemma leader_is_highest_first_bid_witness :
  ranked_bidder_maximums sample_bids
    = [sample_bid bob 150 2; sample_bid carol 150 3; sample_bid alice 120 4] /\
  forall b, In b sample_bids -> ranks_before (sample_bid bob 150 2) b.
Proof.
  assert (E : ranked_bidder_maximums sample_bids
    = [sample_bid bob 150 2; sample_bid carol 150 3; sample_bid alice 120 4])
    by (vm_compute; reflexivity).
  split; [exact E|]. exact (proj1 (proj2 (leader_is_highest_first_bid _ _ _ E))).
Defined.

Lemma visible_price_fair_witness :
  150 <= visible_amount (ranked_bidder_maximums sample_bids) 10 50 <= 150.
Proof.
  assert (E : ranked_bidder_maximums sample_bids
    = [sample_bid bob 150 2; sample_bid carol 150 3; sample_bid alice 120 4])
    by (vm_compute; reflexivity).
  rewrite E. refine (proj1 (visible_price_fair _ _ _ _ 10 50 E _ _)); [|unfold MAX_SAFE_INTEGER; lia].
  intros b Hb. unfold MAX_SAFE_INTEGER. repeat destruct Hb as [<-|Hb]; simpl; try lia. destruct Hb.
Defined.

(** ** What an auction promises its bidders

    The anti-sniping extension of [handlers/auction.rs], and what happens to
    an auction whose unit was reserved through [inventory.reserve]. *)

(** Anti-sniping: after every accepted bid of an auction with a window,
    at least the smaller of window and extension is left to answer it; and when
    the seller's extension covers the window, a bid never moves the end
    earlier. *)
Theorem anti_sniping_leaves_time a leader visible now :
  let a' := auction_after_bid a leader visible now in
  (0 < a_anti_sniping_window_seconds a ->
     now + seconds (Z.min (a_anti_sniping_window_seconds a) (a_anti_sniping_extension_seconds a))
       <= a_ends_at a') /\
  (a_anti_sniping_window_seconds a <= a_anti_sniping_extension_seconds a ->
     a_ends_at a <= a_ends_at a').
Proof.
  unfold auction_after_bid, should_extend, seconds. simpl.
  destruct (0 <? a_anti_sniping_window_seconds a) eqn:E1;
    [destruct (_ <=? _) eqn:E2|]; simpl; reflect_bools; lia.
Qed.

(** A running auction with a ten-minute window and no extension. *)
Definition no_extension : AuctionState :=
  mkAuctionState 0 (seconds 3600) (mkMoney 10 "USD" 2) 600 0 AActive (mkMoney 500 "USD" 2) None 0.

(** An extension shorter than the window is accepted at registration and
    shortens the auction: a first bid placed five minutes before the published
    end closes bidding at that very instant. *)
Theorem late_bid_ends_auction :
  exists a now leader visible,
    0 <= a_anti_sniping_window_seconds a <= 3600 /\
    0 <= a_anti_sniping_extension_seconds a <= 3600 /\
    a_starts_at a <= now < a_ends_at a /\
    a_ends_at (auction_after_bid a leader visible now) <= now.
Proof.
  exists no_extension, (seconds 3300), alice, 500. vm_compute. repeat split; discriminate.
Qed.

(** ** A reserved auction unit *)

(** The bidder who wins when the auction closes. *)
Definition wins (db : Db) (l : ListingRow) (a : AuctionState) (leader : Pubky) : Prop :=
  a_leader_pubky a = Some leader /\ is_deleted l = false /\
  exists reserve, auction_reserves db !! l_aggregate_id l = Some reserve /\
    reserve_satisfied l a reserve = inl true.

Section Reserved.
Context {crate : UuidCrate}.

Lemma close_locked_fails db l a leader actor command_id now :
  listings db !! l_aggregate_id l = Some l -> l_auction l = Some a -> a_status a = AActive ->
  wins db l a leader -> l_available_quantity l = 0 ->
  close_locked_auction l a actor command_id now db = Failed CheckViolation.
Proof.
  intros Hl Ha Hs (Hlead & Hdel & reserve & Hr & Hsat) Hq.
  unfold close_locked_auction, fetch_auction_reserve, update_one, update_where, select, write, or_fail,
    debug_assert, gets, bind, ret.
  rewrite Hr, Hsat, Hdel, Hlead. cbn [andb negb bool_decide decide_rel is_Some_dec].
  replace (Machines.can_transition _ _ _) with true by (vm_compute; reflexivity).
  rewrite Hl, Ha, bool_decide_true by done.
  replace (listing_check _) with false; [done|].
  unfold listing_check, close_listing. simpl. rewrite Hq. simpl. by rewrite !andb_false_r.
Qed.

(** An auction whose last unit is gone cannot be closed.  Take any running
    auction past its end, with a leader who met the reserve, and no unit
    available: [inventory.reserve] and inventory adjustments take units of an
    auction as of any listing.  Then closing it fails on the quantity check of
    the listings table, whether the worker closes it or its seller does;
    nothing is awarded and the auction stays open. *)
Theorem reserved_auction_cannot_close db l a leader command now :
  listings db !! l_aggregate_id l = Some l -> parse_auction l = Some a -> a_status a = AActive ->
  a_ends_at a <= now -> wins db l a leader -> l_available_quantity l = 0 ->
  (forall actor command_id, close_locked_auction l a actor command_id now db = Failed CheckViolation) /\
  (c_aggregate_id command = l_aggregate_id l -> c_expected_revision command = l_server_revision l ->
   close (l_seller_pubky l) command now db = Failed CheckViolation).
Proof.
  intros Hl Hp Hs He Hw Hq. assert (Ha : l_auction l = Some a) by
    (unfold parse_auction in Hp; by destruct (l_sale_format l)).
  split; [intros; by eapply close_locked_fails|]. intros Hc Hr.
  unfold close, fetch_listing_for_update, or_refuse, refuse_if. unfold bind at 1, select, gets.
  rewrite Hc, Hl. unfold bind at 1, ret at 1. rewrite String.eqb_refl. cbn [negb]. unfold bind at 1, ret at 1.
  rewrite Hp, bool_decide_true by done. unfold bind at 1, ret at 1. rewrite Hr, Z.eqb_refl. cbn [negb].
  unfold bind at 1, ret at 1. replace (now <? a_ends_at a) with false by (symmetry; by apply Z.ltb_ge).
  unfold bind at 1, ret at 1. unfold bind at 1. by rewrite (close_locked_fails db l a leader).
Qed.
End Reserved.

#[local] Existing Instance sample_crate.
#[local] Existing Instance sample_locks_crates.

Abbreviation auction_key := (listing_aggregate_id sally "a").

Definition auctioned : ListingRow :=
  (sample_listing "a" LAvailable 1 0 0) <| l_sale_format := Auction |>
    <| l_auction := Some (no_extension <| a_anti_sniping_window_seconds := 0 |>) |>.

Definition auction_house : Db :=
  (with_listing auctioned empty_db)
    <| auction_reserves := {[ auction_key := mkAuctionReserve auction_key 1 1 None 0%N 0 ]} |>.

Definition bid_for_it : H HandlerSuccess :=
  place_bid bob (sample_command 2 auction_key 2 (PlaceBid (mkPlaceBid (mkMoney 600 "USD" 2))))
    (mkPlaceBid (mkMoney 600 "USD" 2)) (seconds 3100).

(** [alice] reserves the unit, [bob] bids for it. *)
Definition reserved_auction : H unit :=
  do* Holds.handle alice
        (sample_command 1 auction_key 1 (ReserveInventory (mkReserveInventory 1 1800)))
        (mkReserveInventory 1 1800) (seconds 3000) in
  do* bid_for_it in ret tt.

(** [sally] takes the unit out of stock, [bob] bids for it. *)
Definition withdrawn_auction : H unit :=
  do* adjust_directly (mkAuthSession sally "" "token")
        (mkValidated (mkAdjustRequest 1 "inventory.adjust" auction_key "a" 1 (-1) "" None None) 1 "hash")
        (mkRateConfig 120 20 2) (seconds 3000) in
  do* bid_for_it in ret tt.

Definition state_after (m : H unit) : Db := match m auction_house with Done _ db => db | _ => auction_house end.

Definition close_it : Command := sample_command 3 auction_key 3 CloseAuction.

Lemma reserved_auction_cannot_close_witness :
  close sally close_it (seconds 3600) (state_after reserved_auction) = Failed CheckViolation /\
  close sally close_it (seconds 3600) (state_after withdrawn_auction) = Failed CheckViolation.
Proof.
  assert (Hcase : forall m, match listings (state_after m) !! auction_key with
    | Some l => bool_decide (l_aggregate_id l = auction_key) && bool_decide (l_seller_pubky l = sally) &&
        (l_server_revision l =? 3) && (l_available_quantity l =? 0) && negb (is_deleted l) &&
        match parse_auction l, auction_reserves (state_after m) !! auction_key with
        | Some a, Some reserve => bool_decide (a_status a = AActive) && (a_ends_at a <=? seconds 3600) &&
            bool_decide (a_leader_pubky a = Some bob) && bool_decide (reserve_satisfied l a reserve = inl true)
        | _, _ => false
        end
    | None => false end = true -> close sally close_it (seconds 3600) (state_after m) = Failed CheckViolation).
  { intros m. destruct (listings (state_after m) !! auction_key) as [l|] eqn:Hl; [|discriminate].
    destruct (parse_auction l) as [a|] eqn:Hp; [|rewrite andb_false_r; discriminate].
    destruct (auction_reserves (state_after m) !! auction_key) as [reserve|] eqn:Hr; [|rewrite andb_false_r; discriminate].
    intros Hb. reflect_bools.
    match goal with E : l_seller_pubky l = sally |- _ => rewrite <- E end.
    eapply (reserved_auction_cannot_close (state_after m) l a bob close_it (seconds 3600)); try congruence;
      [|symmetry; assumption|symmetry; assumption].
    split; [congruence|]. split; [congruence|]. exists reserve. split; congruence. }
  split; apply Hcase; vm_compute; reflexivity.
Defined.
