(* ===== verification/GrantContract.v ===== *)
(** * The contract of grant flows

    The statements and transactions of [grant.rs] and [auth.rs] interleave
    freely: requests, workers holding leases, the reaper and time are the
    steps of one relation.  Along every run a flow follows its life cycle and
    keeps secrets only while it needs them, its ticket and its claim are each
    served once, the bearer a claim hands out opens the session of the pubky
    the flow was created for, and an AuthToken is accepted once. *)

From stdpp Require Import sorting pretty.
From S2P Require Import Prelude Domain Json Seal Text Pubky Store LocksKeys Records Inventory Samples Grants.

(** ** Rows *)

Definition flow_edge (a b : FlowStatus) : bool :=
  match a, b with
  | FAwaiting, (FAwaiting | FVerifying | FCancelled | FExpired) => true
  | FVerifying, (FVerifying | FAwaiting | FComplete | FMismatch | FInvalid | FFailed) => true
  | FComplete, FComplete | FMismatch, FMismatch | FExpired, FExpired
  | FCancelled, FCancelled | FInvalid, FInvalid | FFailed, FFailed => true
  | _, _ => false
  end.

(** What no statement changes of a row. *)
Definition flow_identity (f : FlowRow) :=
  (g_expected_pubky f, g_assertion_jti f, g_client_id f, g_cpk f, g_result_cpk f,
   (g_key_epoch f, g_hash_epoch f, g_delivery_hash f, g_created_at f, g_expires_at f)).

(** A row before and after a step; [fresh] are the owners drawn by it,
    [served] says that it may deliver a ticket. *)
Record row_edge (served : Prop) (fresh : Uuid -> Prop) (f f' : FlowRow) : Prop := {
  re_identity : flow_identity f' = flow_identity f;
  re_status : flow_edge (g_status f) (g_status f') = true;
  re_version : g_version f <= g_version f';
  re_delivered : g_token_delivered_at f' = g_token_delivered_at f \/
                 (served /\ g_token_delivered_at f = None);
  re_claimed : forall t, g_claimed_at f = Some t -> g_claimed_at f' = Some t;
  re_owner : g_lease_owner f' = g_lease_owner f \/ g_lease_owner f' = None \/
             exists o, g_lease_owner f' = Some o /\ fresh o;
}.

Definition no_result (f : FlowRow) : Prop :=
  g_token_hash f = None /\ g_token_expires_at f = None /\ g_token_delivered_at f = None /\
  g_payload_sealed f = None /\ g_session_id f = None /\ g_claimed_at f = None.

Definition unowned (f : FlowRow) : Prop := g_lease_owner f = None /\ g_lease_until f = None.

(** Over without a result: no secret is left. *)
Definition row_over (f : FlowRow) : Prop :=
  g_state_sealed f = None /\ unowned f /\ is_Some (g_terminal_at f) /\ is_Some (g_terminal_code f) /\
  no_result f.

(** The columns of a row follow its status.  Who approved the grant is written
    before the session is exchanged, so a row being verified, and one whose
    verification failed afterwards, may name any pubky or none. *)
Definition row_ok (f : FlowRow) : Prop :=
  match g_status f with
  | FAwaiting =>
      is_Some (g_state_sealed f) /\ unowned f /\ g_approved_pubky f = None /\
      g_terminal_at f = None /\ no_result f
  | FVerifying =>
      is_Some (g_state_sealed f) /\ is_Some (g_lease_owner f) /\ is_Some (g_lease_until f) /\
      g_terminal_at f = None /\ no_result f
  | FComplete =>
      g_state_sealed f = None /\ unowned f /\ g_approved_pubky f = Some (g_expected_pubky f) /\
      is_Some (g_terminal_at f) /\
      (is_Some (g_payload_sealed f) <-> is_Some (g_token_hash f)) /\
      (is_Some (g_payload_sealed f) -> g_claimed_at f = None /\ is_Some (g_token_expires_at f)) /\
      (is_Some (g_claimed_at f) -> is_Some (g_token_delivered_at f))
  | FMismatch =>
      row_over f /\ exists approved, g_approved_pubky f = Some approved /\ approved <> g_expected_pubky f
  | FExpired | FCancelled => row_over f /\ g_approved_pubky f = None
  | FInvalid | FFailed => row_over f
  end.

Lemma flow_edge_refl s : flow_edge s s = true.
Proof. by destruct s. Qed.

Lemma row_edge_refl served fresh f : row_edge served fresh f f.
Proof. split; auto using flow_edge_refl; lia. Qed.

#[export] Hint Resolve row_edge_refl : core.

Section Rows.
Context (served : Prop) (fresh : Uuid -> Prop).

(** Case analysis of a row by its columns. *)
Ltac row_cases :=
  lazy beta iota zeta delta [
    row_ok row_over no_result unowned flow_identity ended unleased leased claimed withdrawn completed upd
    g_expected_pubky g_assertion_jti g_client_id g_cpk g_relay_url g_state_sealed g_key_epoch g_hash_epoch
    g_status g_version g_lease_owner g_lease_until g_approved_pubky g_terminal_code g_delivery_hash
    g_result_cpk g_token_hash g_token_expires_at g_token_delivered_at g_payload_sealed g_session_id
    g_created_at g_expires_at g_terminal_at g_claimed_at] in *.

Lemma row_ok_awaiting_ended f status code now :
  row_ok f -> g_status f = FAwaiting -> status = FCancelled \/ status = FExpired ->
  row_edge served fresh f (ended status code now f) /\ row_ok (ended status code now f).
Proof.
  intros Hok Hs Hst. destruct f. row_cases. subst. destruct Hok as (_ & [-> ->] & -> & -> & -> & -> & -> & -> & -> & ->).
  split; [split|]; row_cases; auto; [by destruct Hst as [-> | ->]|lia|].
  destruct Hst as [-> | ->]; repeat split; eauto.
Qed.

Lemma row_ok_leased f owner until :
  row_ok f -> g_status f = FAwaiting -> fresh owner ->
  row_edge served fresh f (leased owner until f) /\ row_ok (leased owner until f).
Proof.
  intros Hok Hs Hfr. destruct f. row_cases. subst. destruct Hok as (? & [-> ->] & -> & -> & -> & -> & -> & -> & -> & ->).
  split; [split|]; row_cases; eauto; [lia|]. repeat split; eauto.
Qed.

(** A verifying row ends, without a result. *)
Lemma row_ok_terminalized f status code approved now :
  row_ok f -> g_status f = FVerifying ->
  status = FInvalid \/ status = FFailed \/
    (status = FMismatch /\ exists a, approved = Some a /\ a <> g_expected_pubky f) ->
  let f' := unleased ((ended status code now f) <| g_approved_pubky := approved |>) in
  row_edge served fresh f f' /\ row_ok f'.
Proof.
  intros Hok Hs Hst f'. subst f'. destruct f. row_cases. subst.
  destruct Hok as (? & ? & ? & -> & -> & -> & -> & -> & -> & ->).
  split; [split|]; row_cases; auto; [by destruct Hst as [-> | [-> | [-> _]]]|lia|].
  destruct Hst as [-> | [-> | [-> ?]]]; repeat split; eauto.
Qed.

Lemma row_ok_stale f code now :
  row_ok f -> g_status f = FVerifying ->
  row_edge served fresh f (unleased (ended FFailed code now f)) /\ row_ok (unleased (ended FFailed code now f)).
Proof.
  intros Hok Hs. destruct f. row_cases. subst.
  destruct Hok as (? & ? & ? & -> & -> & -> & -> & -> & -> & ->).
  split; [split|]; row_cases; auto; [lia|]. repeat split; eauto.
Qed.

Lemma row_ok_returned f :
  row_ok f -> g_status f = FVerifying -> g_approved_pubky f = None ->
  row_edge served fresh f (unleased (f <| g_status := FAwaiting |>)) /\
  row_ok (unleased (f <| g_status := FAwaiting |>)).
Proof.
  intros Hok Hs Ha. destruct f. row_cases. subst.
  destruct Hok as (? & ? & ? & -> & -> & -> & -> & -> & -> & ->).
  split; [split|]; row_cases; auto; [lia|]. repeat split; eauto.
Qed.

(** A verifying row keeps its owner; its deadline, approval or version move. *)
Lemma row_ok_verifying f f' :
  row_ok f -> g_status f = FVerifying ->
  (exists approved until version, f' = f <| g_approved_pubky := approved |>
     <| g_lease_until := Some until |> <| g_version := version |> /\ g_version f <= version) ->
  row_edge served fresh f f' /\ row_ok f'.
Proof.
  intros Hok Hs (approved & until & version & -> & Hv). destruct f. row_cases. subst.
  destruct Hok as (? & ? & ? & -> & -> & -> & -> & -> & -> & ->).
  split; [split|]; row_cases; auto. repeat split; eauto.
Qed.

Lemma row_ok_completed f session_id sealed token_hash now :
  row_ok f -> g_status f = FVerifying ->
  let f' := completed (g_expected_pubky f) session_id sealed token_hash now f in
  row_edge served fresh f f' /\ row_ok f'.
Proof.
  intros Hok Hs f'. subst f'. destruct f. row_cases. subst.
  destruct Hok as (? & ? & ? & -> & -> & -> & -> & -> & -> & ->).
  split; [split|]; row_cases; auto; [lia|]. repeat split; eauto.
Qed.

Lemma row_ok_delivered f now :
  served -> row_ok f -> g_status f = FComplete -> g_token_delivered_at f = None ->
  row_edge served fresh f (f <| g_token_delivered_at := Some now |>) /\
  row_ok (f <| g_token_delivered_at := Some now |>).
Proof.
  intros Hsv Hok Hs Hd. destruct f. row_cases. subst. destruct Hok as (-> & [-> ->] & -> & ? & ? & ? & ?).
  split; [split|]; row_cases; auto; try lia; try done; repeat split; naive_solver.
Qed.

Lemma row_ok_claimed f now :
  row_ok f -> g_status f = FComplete -> g_claimed_at f = None -> is_Some (g_token_delivered_at f) ->
  row_edge served fresh f (claimed now f) /\ row_ok (claimed now f).
Proof.
  intros Hok Hs Hc Hd. destruct f. row_cases. subst. destruct Hok as (-> & [-> ->] & -> & ? & ? & ? & ?).
  split; [split|]; row_cases; auto; try lia; try done; repeat split; try done; by intros [].
Qed.

Lemma row_ok_withdrawn f :
  row_ok f -> g_status f = FComplete -> row_edge served fresh f (withdrawn f) /\ row_ok (withdrawn f).
Proof.
  intros Hok Hs. destruct f. row_cases. subst. destruct Hok as (-> & [-> ->] & -> & ? & ? & ? & ?).
  split; [split|]; row_cases; auto; [lia|]. repeat split; try done; by intros [].
Qed.

Lemma row_ok_forgot f :
  row_ok f -> g_status f = FComplete ->
  row_edge served fresh f (f <| g_session_id := None |>) /\ row_ok (f <| g_session_id := None |>).
Proof.
  intros Hok Hs. destruct f. row_cases. subst. destruct Hok as (-> & [-> ->] & -> & ? & ? & ? & ?).
  split; [split|]; row_cases; auto; [lia|]. repeat split; naive_solver.
Qed.
End Rows.

(** ** The interleaved statements *)

(** What a statement keeps of a session. *)
Definition session_identity (s : SessionRow) :=
  (se_session_id s, se_pubky s, se_capabilities s, se_created_at s, se_expires_at s).

Definition phase_lease (phase : LeasePhase) : FlowLease :=
  match phase with Leased lease | Polling lease _ | Exchanging lease _ _ => lease end.

(** The store, the workers' leases, and what was served so far. *)
Record AuthWorld := mkAuthWorld {
  w_now : Time;
  w_db : AuthDb;
  w_phases : list LeasePhase;
  w_tickets : list Uuid;
  w_claims : list Uuid;
  (** Signer and instant of the accepted tokens. *)
  w_accepted : list (Pubky * Z);
}.

Definition auth_start : AuthWorld := mkAuthWorld 0 empty_auth_db [] [] [] [].

Section Contract.
Context `{UC : !UuidCrate, JT : !JsonText, LC : !LocksCrates, SC : !SealCrates, IC : !InventoryCrates,
          AC : !AuthCrates, CC : !CapabilityCrate, GC : !GrantCrates, RC : !ResultCodec}.
Context (config : AuthConfig) (runtime : GrantRuntime).

(** The statements that serve nothing. *)
Inductive db_op (now : Time) (db : AuthDb) : AuthDb -> Prop :=
| op_use header : db_op now db (snd (resolve_header_session header now db))
| op_automation actor class : db_op now db (snd (consume_automation_rate config actor class now db))
| op_metadata actor id label metadata :
    db_op now db (snd (update_session_metadata actor id label metadata db))
| op_revoke actor id : db_op now db (snd (revoke_session actor id now db))
| op_rate class bucket limit : db_op now db (snd (admit_rate runtime class bucket limit now db))
| op_request principal class id : db_op now db (snd (consume_service_request principal class id now db))
| op_draws n : db_op now db (upd auth_draws (N.add n) db)
| op_flow assertion expected started sealed delivery_hash :
    db_op now db (snd (insert_flow (gr_config runtime) (new_v4 (auth_draws db))
      (new_flow runtime assertion expected started sealed delivery_hash now) now
      (upd auth_draws (N.add 2) db)))
| op_nonce flow_id purpose principal db' :
    insert_nonce flow_id purpose principal (new_v4 (N.succ (auth_draws db))) (random32 (auth_draws db)) now
      (upd auth_draws (N.add 2) db) = Some db' ->
    db_op now db db'
| op_cancel flow_id : db_op now db (snd (cancel_awaiting flow_id now db))
| op_heartbeat lease until : db_op now db (snd (heartbeat_lease lease until db))
| op_reap_expired locked batch : db_op now db (snd (reap_expired locked batch now db))
| op_reap_stale exchanging locked batch : db_op now db (snd (reap_stale exchanging locked batch now db))
| op_reap_results locked batch : db_op now db (snd (reap_results locked batch now db))
| op_purge_nonces : db_op now db (purge_nonces now db)
| op_purge_rates : db_op now db (purge_rates now db)
| op_purge_requests : db_op now db (purge_requests (gr_config runtime) now db)
| op_purge_flows : db_op now db (snd (purge_flows (gr_config runtime) now db)).

Inductive auth_step : AuthWorld -> AuthWorld -> Prop :=
| step_time now now' db phases tickets claims accepted :
    now <= now' ->
    auth_step (mkAuthWorld now db phases tickets claims accepted)
              (mkAuthWorld now' db phases tickets claims accepted)
| step_db now db db' phases tickets claims accepted :
    db_op now db db' ->
    auth_step (mkAuthWorld now db phases tickets claims accepted)
              (mkAuthWorld now db' phases tickets claims accepted)
| step_session now db body response db' phases tickets claims accepted :
    create_session config body now db = (response, db') ->
    auth_step (mkAuthWorld now db phases tickets claims accepted)
      (mkAuthWorld now db' phases tickets claims
         (accepted ++ match verify_auth_token body now (cf_auth_token_window_seconds config) with
                      | inl v => if rp_status response =? 201 then [(vt_pubky v, vt_timestamp_micros v)] else []
                      | inr _ => []
                      end))
| step_ticket now db flow_id principal path request delivery_id token expires db' phases tickets claims accepted :
    deliver_ticket runtime flow_id principal path request delivery_id now db = Some (token, expires, db') ->
    auth_step (mkAuthWorld now db phases tickets claims accepted)
              (mkAuthWorld now db' phases (tickets ++ [flow_id]) claims accepted)
| step_claim now db flow_id principal path request delivery_id token capabilities pubky result db'
    phases tickets claims accepted :
    redeem_claim runtime flow_id principal path request delivery_id token now db =
      Some (capabilities, pubky, result, db') ->
    auth_step (mkAuthWorld now db phases tickets claims accepted)
              (mkAuthWorld now db' phases tickets (claims ++ [flow_id]) accepted)
| step_acquire locked now db leases db' phases tickets claims accepted :
    acquire_flows (gr_config runtime) locked now db = (leases, db') ->
    auth_step (mkAuthWorld now db phases tickets claims accepted)
              (mkAuthWorld now db' (phases ++ map Leased leases) tickets claims accepted)
| step_lease event now db before phase after next db' tickets claims accepted :
    process_lease runtime phase event now db = (next, db') ->
    auth_step (mkAuthWorld now db (before ++ phase :: after) tickets claims accepted)
              (mkAuthWorld now db' (before ++ option_list next ++ after) tickets claims accepted)
| step_crash now db before phase after tickets claims accepted :
    auth_step (mkAuthWorld now db (before ++ phase :: after) tickets claims accepted)
              (mkAuthWorld now db (before ++ after) tickets claims accepted).

Definition auth_reachable : AuthWorld -> Prop := rtc auth_step auth_start.

(** ** The invariant *)

Definition drawn (db : AuthDb) (id : Uuid) : Prop := exists n, (n < auth_draws db)%N /\ id = new_v4 n.

(** The sealed result of a flow is the bearer of the session it created. *)
Definition result_linked (db : AuthDb) (id : Uuid) (f : FlowRow) (sealed : string) : Prop :=
  exists draw result key aad row granted,
    result_aad id (g_result_cpk f) (g_key_epoch f) = Some aad /\
    encryption_key runtime (g_key_epoch f) = Some key /\
    sealed = seal draw key aad (result_text result) /\
    auth_sessions db !! hash_token (sr_bearer result) = Some row /\
    g_session_id f = Some (se_session_id row) /\
    se_pubky row = g_expected_pubky f /\
    se_expires_at row = sr_session_expires_at result /\
    se_capabilities row = capabilities_text granted /\ allowlisted granted = true /\
    g_token_expires_at f = Some (se_created_at row + seconds 60) /\
    se_expires_at row = se_created_at row + seconds (gc_session_ttl_seconds (gr_config runtime)).

Record links (db : AuthDb) : Prop := {
  lk_unique : forall h h' r r', auth_sessions db !! h = Some r -> auth_sessions db !! h' = Some r' ->
    se_session_id r = se_session_id r' -> h = h';
  lk_exists : forall id f sid, grant_flows db !! id = Some f -> g_session_id f = Some sid ->
    exists h r, auth_sessions db !! h = Some r /\ se_session_id r = sid;
  lk_flow : forall id id' f f' sid, grant_flows db !! id = Some f -> grant_flows db !! id' = Some f' ->
    g_session_id f = Some sid -> g_session_id f' = Some sid -> id = id';
  lk_result : forall id f sealed, grant_flows db !! id = Some f -> g_payload_sealed f = Some sealed ->
    result_linked db id f sealed;
}.

Record db_inv (db : AuthDb) : Prop := {
  di_row : forall id f, grant_flows db !! id = Some f -> row_ok f;
  di_id : forall id f, grant_flows db !! id = Some f -> drawn db id;
  di_owner : forall id f o, grant_flows db !! id = Some f -> g_lease_owner f = Some o -> drawn db o;
  di_links : links db;
}.

(** What a step does to the rows. *)
Record evolves (served : Prop) (db db' : AuthDb) : Prop := {
  ev_draws : (auth_draws db <= auth_draws db')%N;
  ev_row : forall id f', grant_flows db' !! id = Some f' ->
    (exists f, grant_flows db !! id = Some f /\ row_edge served (fun o => ~ drawn db o) f f') \/
    (~ drawn db id /\ g_status f' = FAwaiting /\ no_result f' /\ unowned f');
}.

(** The token at the earlier instant is the token at the later one. *)
Definition use_kept (now : Time) (db : AuthDb) (use : Pubky * Z) : Prop :=
  exists at_, at_ <= now /\
    Z.abs (snd use - at_) <= saturating_mul (cf_auth_token_window_seconds config) 1000000 /\
    (auth_token_uses db !! use = Some at_ \/ at_ < now - seconds (retention config)).

Definition lease_matches (lease : FlowLease) (f : FlowRow) : Prop :=
  fl_expected_pubky lease = g_expected_pubky f /\ fl_result_cpk lease = g_result_cpk f /\
  fl_key_epoch lease = g_key_epoch f /\ fl_hash_epoch lease = g_hash_epoch f.

Record world_inv (w : AuthWorld) : Prop := {
  wi_db : db_inv (w_db w);
  wi_owner : forall p, p ∈ w_phases w -> drawn (w_db w) (fl_lease_owner (phase_lease p));
  wi_lease : forall p f, p ∈ w_phases w -> grant_flows (w_db w) !! fl_flow_id (phase_lease p) = Some f ->
    g_lease_owner f = Some (fl_lease_owner (phase_lease p)) -> lease_matches (phase_lease p) f;
  wi_drawn : forall id, id ∈ w_tickets w -> drawn (w_db w) id;
  wi_ticket : forall id f, id ∈ w_tickets w -> grant_flows (w_db w) !! id = Some f ->
    is_Some (g_token_delivered_at f);
  wi_delivered : forall id f, grant_flows (w_db w) !! id = Some f -> is_Some (g_token_delivered_at f) ->
    id ∈ w_tickets w;
  wi_claim : forall id f, id ∈ w_claims w -> grant_flows (w_db w) !! id = Some f -> is_Some (g_claimed_at f);
  wi_order : forall id, id ∈ w_claims w -> id ∈ w_tickets w;
  wi_tickets : NoDup (w_tickets w);
  wi_claims : NoDup (w_claims w);
  wi_uses : forall use, use ∈ w_accepted w -> use_kept (w_now w) (w_db w) use;
  wi_accepted : NoDup (w_accepted w);
}.

(** ** Steps keep the invariant of the store *)

Lemma drawn_mono db db' id : (auth_draws db <= auth_draws db')%N -> drawn db id -> drawn db' id.
Proof. intros Hle (n & Hn & ->). exists n. split; [lia|done]. Qed.

(** What may become of a row's result. *)
Definition result_kept (f f' : FlowRow) : Prop :=
  (g_session_id f' = g_session_id f \/ g_session_id f' = None) /\
  (g_payload_sealed f' = None \/
   (g_payload_sealed f' = g_payload_sealed f /\ g_session_id f' = g_session_id f /\
    g_token_expires_at f' = g_token_expires_at f)).

(** Whether the step may deliver a ticket. *)
Context (served : Prop).

Lemma evolves_refl db : evolves served db db.
Proof. split; [lia|]. intros id f' Hf. left. eauto. Qed.

Lemma result_linked_frame db db' id f f' sealed :
  auth_sessions db' = auth_sessions db -> flow_identity f' = flow_identity f ->
  g_session_id f' = g_session_id f -> g_token_expires_at f' = g_token_expires_at f ->
  result_linked db id f sealed -> result_linked db' id f' sealed.
Proof.
  intros Hs Hid Hsid Hexp (draw & result & key & aad & row & granted & H1 & H2 & H3 & H4 & H5 & H6 & Hr).
  unfold flow_identity in Hid. injection Hid as E1 E2 E3 E4 E5 E6 E7 E8 E9 E10.
  exists draw, result, key, aad, row, granted. rewrite Hs, Hsid, Hexp, E1, E5, E6. tauto.
Qed.

(** One row changes. *)
Lemma change_row db0 db id f f' :
  db_inv db -> evolves served db0 db -> grant_flows db0 !! id = Some f -> grant_flows db !! id = Some f ->
  row_edge served (fun o => ~ drawn db0 o) f f' -> row_ok f' -> result_kept f f' ->
  (forall o, g_lease_owner f' = Some o -> drawn db o) ->
  let db' := upd grant_flows (<[id := f']>) db in db_inv db' /\ evolves served db0 db'.
Proof.
  intros Hinv Hev Hf0 Hf He Hok [Hsid Hpay] Ho db'.
  assert (Hin : forall k v, grant_flows db' !! k = Some v ->
    (k = id /\ v = f') \/ (k <> id /\ grant_flows db !! k = Some v)).
  { intros k v Hk. change ((<[id := f']> (grant_flows db)) !! k = Some v) in Hk.
    apply lookup_insert_Some in Hk as [[-> ->]|[? ?]]; auto. }
  split; [split|split].
  - intros k v [[-> ->]|[_ Hk]]%Hin; [done|]. by eapply di_row.
  - intros k v [[-> ->]|[_ Hk]]%Hin; by eapply (di_id _ Hinv).
  - intros k v o [[-> ->]|[_ Hk]]%Hin Hv; [by apply Ho|by eapply (di_owner _ Hinv)].
  - destruct (di_links _ Hinv) as [L1 L2 L3 L4]. split.
    + exact L1.
    + intros k v sid [[-> ->]|[_ Hk]]%Hin Hv; [|by eapply L2].
      destruct Hsid as [E|E]; [|congruence]. eapply L2; [exact Hf|congruence].
    + intros k k' v v' sid Hk Hk' Hv Hv'.
      assert (Hback : forall k v, grant_flows db' !! k = Some v -> g_session_id v = Some sid ->
                exists w, grant_flows db !! k = Some w /\ g_session_id w = Some sid).
      { intros a b [[-> ->]|[_ Ha]]%Hin Hb; [|eauto]. destruct Hsid as [E|E]; [|congruence].
        exists f. split; [done|congruence]. }
      destruct (Hback k v Hk Hv) as (w & Hw & ?), (Hback k' v' Hk' Hv') as (w' & Hw' & ?).
      by eapply (L3 k k' w w').
    + intros k v sealed [[-> ->]|[_ Hk]]%Hin Hv.
      * destruct Hpay as [E|(E1 & E2 & E3)]; [congruence|].
        eapply (result_linked_frame db db' id f f'); try done; [apply He|]. apply L4; [done|congruence].
      * eapply (result_linked_frame db db' k v v); try done. by apply L4.
  - apply Hev.
  - intros k v [[-> ->]|[_ Hk]]%Hin; [left; eauto|]. by eapply ev_row in Hk.
Qed.

(** [UPDATE .. WHERE flow_id = $1 AND ..]. *)
Lemma update_flow_inv id cond change db :
  db_inv db ->
  (forall f, grant_flows db !! id = Some f -> cond f = true ->
     row_edge served (fun o => ~ drawn db o) f (change f) /\ row_ok (change f) /\ result_kept f (change f) /\
     (g_lease_owner (change f) = g_lease_owner f \/ g_lease_owner (change f) = None)) ->
  db_inv (snd (update_flow id cond change db)) /\ evolves served db (snd (update_flow id cond change db)).
Proof.
  intros Hinv Hc. unfold update_flow.
  destruct (grant_flows db !! id) as [f|] eqn:Hf; [|auto using evolves_refl].
  destruct (cond f) eqn:Hcond; [|auto using evolves_refl].
  destruct (Hc f eq_refl Hcond) as (He & Hok & Hr & Ho).
  apply (change_row db db id f (change f)); auto using evolves_refl.
  intros o Hco. apply (di_owner _ Hinv id f); [done|]. destruct Ho; congruence.
Qed.

Lemma update_flow_missed id cond change db db' : update_flow id cond change db = (false, db') -> db' = db.
Proof.
  unfold update_flow. destruct (grant_flows db !! id) as [f|]; [|by intros [= <-]].
  destruct (cond f); [done|]. by intros [= <-].
Qed.

(** Statements over several rows, each touched once. *)
Lemma fold_rows (P : AuthDb -> Prop) (op : AuthDb -> Uuid * FlowRow -> AuthDb) l db :
  base.NoDup (l.*1) -> (forall k v, (k, v) ∈ l -> grant_flows db !! k = Some v) -> P db ->
  (forall db' k v, (k, v) ∈ l -> P db' -> grant_flows db' !! k = Some v ->
     P (op db' (k, v)) /\ forall k', k' <> k -> grant_flows (op db' (k, v)) !! k' = grant_flows db' !! k') ->
  P (foldl op db l).
Proof.
  revert db. induction l as [|[k v] l IH]; intros db Hnd Hl HP Hop; [done|].
  simpl in Hnd |- *. apply list.NoDup_cons in Hnd as [Hk Hnd].
  destruct (Hop db k v (list_elem_of_here _ _) HP) as [HP' Hoth]; [by apply Hl, list_elem_of_here|].
  apply IH; [done| |done|].
  - intros k' v' Hin. rewrite Hoth; [apply Hl; by right|]. intros ->. apply Hk.
    apply list_elem_of_fmap. by exists (k, v').
  - intros db' k' v' Hin. apply Hop. by right.
Qed.
(** A [SELECT .. ORDER BY .. LIMIT] returns rows that are there, once. *)
Lemma selected_rows (R : Uuid * FlowRow -> Uuid * FlowRow -> Prop) `{!RelDecision R} p n db :
  let l := take n (merge_sort R (List.filter p (map_to_list (grant_flows db)))) in
  base.NoDup (l.*1) /\ forall k v, (k, v) ∈ l -> grant_flows db !! k = Some v /\ p (k, v) = true.
Proof.
  intros l.
  assert (Hsub : forall x, x ∈ l -> x ∈ List.filter p (map_to_list (grant_flows db))).
  { intros x Hx. rewrite <- (merge_sort_Permutation R). by apply (subseteq_take n). }
  split.
  - unfold l. rewrite fmap_take. eapply sublist_NoDup; [|apply sublist_take].
    rewrite merge_sort_Permutation. pose proof (NoDup_fst_map_to_list (grant_flows db)) as Hnd.
    revert Hnd. generalize (map_to_list (grant_flows db)) as m. induction m as [|x m IH]; [done|].
    simpl. intros [Hx Hm]%list.NoDup_cons. destruct (p x); [|auto]. simpl. apply list.NoDup_cons.
    split; [|auto]. intros (y & E & Hy)%list_elem_of_fmap. apply Hx, list_elem_of_fmap. exists y.
    split; [done|]. apply list_elem_of_In, filter_In in Hy as [Hy _]. by apply list_elem_of_In.
  - intros k v Hx. apply Hsub in Hx. apply list_elem_of_In, filter_In in Hx as [Hx Hp].
    split; [|done]. by apply elem_of_map_to_list, list_elem_of_In.
Qed.

(** Every selected row changes. *)
Lemma change_rows_inv change l db :
  db_inv db -> base.NoDup (l.*1) -> (forall k v, (k, v) ∈ l -> grant_flows db !! k = Some v) ->
  (forall k f, (k, f) ∈ l ->
     row_edge served (fun o => ~ drawn db o) f (change f) /\ row_ok (change f) /\ result_kept f (change f) /\
     g_lease_owner (change f) = None) ->
  db_inv (change_rows change l db) /\ evolves served db (change_rows change l db).
Proof.
  intros Hinv Hnd Hl Hc. unfold change_rows.
  apply (fold_rows (fun db' => db_inv db' /\ evolves served db db')); auto using evolves_refl.
  intros db' k v Hin [Hi He] Hk. destruct (Hc k v Hin) as (H1 & H2 & H3 & H4). split.
  - apply (change_row db db' k v (change v)); auto. intros o Ho. congruence.
  - intros k' Hne. by apply lookup_insert_ne.
Qed.

Ltac row_kept :=
  unfold result_kept;
  lazy beta iota zeta delta [ended unleased leased claimed withdrawn completed upd g_payload_sealed g_session_id g_token_expires_at
                             g_lease_owner]; auto.

Lemma reap_expired_inv locked batch now db :
  db_inv db -> db_inv (snd (reap_expired locked batch now db)) /\
               evolves served db (snd (reap_expired locked batch now db)).
Proof.
  intros Hinv. unfold reap_expired, first_rows.
  edestruct (selected_rows (by_key g_expires_at)) as [Hnd Hl]. apply change_rows_inv; [done|exact Hnd| |].
  - intros k v Hin. by apply (Hl k v).
  - intros k f Hin. destruct (Hl k f Hin) as [Hk Hp]. simpl in Hp. unfold expired_flow in Hp.
    apply andb_true_iff in Hp as [[Hs _]%andb_true_iff _]. apply bool_decide_eq_true in Hs.
    pose proof (di_row _ Hinv k f Hk) as Hok.
    destruct (row_ok_awaiting_ended served (fun o => ~ drawn db o) f FExpired "flow_expired" now Hok Hs) as [He Hok'];
      [auto|]. split; [done|]. split; [done|]. split; [row_kept|].
    unfold row_ok in Hok. rewrite Hs in Hok. destruct Hok as (_ & [Ho _] & _). by rewrite <- Ho.
Qed.

Lemma reap_stale_inv exchanging locked batch now db :
  db_inv db -> db_inv (snd (reap_stale exchanging locked batch now db)) /\
               evolves served db (snd (reap_stale exchanging locked batch now db)).
Proof.
  intros Hinv. unfold reap_stale, first_rows.
  edestruct (selected_rows (by_key (fun f => default 0 (g_lease_until f)))) as [Hnd Hl].
  apply change_rows_inv; [done|exact Hnd| |].
  - intros k v Hin. by apply (Hl k v).
  - intros k f Hin. destruct (Hl k f Hin) as [Hk Hp]. simpl in Hp. unfold stale_flow in Hp.
    apply andb_true_iff in Hp as [[[Hs _]%andb_true_iff _]%andb_true_iff _]. apply bool_decide_eq_true in Hs.
    pose proof (di_row _ Hinv k f Hk) as Hok.
    edestruct (row_ok_stale served (fun o => ~ drawn db o) f) as [He Hok']; [done|done|].
    split; [exact He|]. split; [exact Hok'|]. split; row_kept.
Qed.
(** Withdrawing a result deletes its session and nothing else. *)
Lemma withdraw_rows db k f :
  links db -> grant_flows db !! k = Some f ->
  grant_flows (withdraw_result db (k, f)) = <[k := withdrawn f]> (grant_flows db).
Proof.
  intros HL Hk. unfold withdraw_result. simpl. destruct (g_session_id f) as [sid|] eqn:Hsid.
  2: { unfold update_flow. by rewrite Hk. }
  set (forget := fun g => if bool_decide (g_session_id g = Some sid) then g <| g_session_id := None |> else g).
  assert (Hf : grant_flows (delete_session sid db) !! k = Some (f <| g_session_id := None |>)).
  { change (grant_flows (delete_session sid db)) with (forget <$> grant_flows db).
    rewrite lookup_fmap, Hk. simpl. unfold forget. by rewrite bool_decide_eq_true_2. }
  unfold update_flow. rewrite Hf. simpl.
  change (<[k := withdrawn (f <| g_session_id := None |>)]> (forget <$> grant_flows db) =
          <[k := withdrawn f]> (grant_flows db)).
  replace (withdrawn (f <| g_session_id := None |>)) with (withdrawn f) by (destruct f; vm_compute; reflexivity).
  apply map_eq. intros k'. destruct (decide (k' = k)) as [->|Hne]; [by rewrite !lookup_insert_eq|].
  rewrite !lookup_insert_ne, lookup_fmap by done. destruct (grant_flows db !! k') as [g|] eqn:Hg; [|done].
  simpl. unfold forget. rewrite bool_decide_eq_false_2; [done|]. intros Hs.
  apply Hne. by eapply (lk_flow _ HL k' k g f sid).
Qed.

Lemma withdraw_sessions db k f h row :
  auth_sessions (withdraw_result db (k, f)) !! h = Some row <->
  auth_sessions db !! h = Some row /\ g_session_id f <> Some (se_session_id row).
Proof.
  assert (Hup : forall db', auth_sessions (snd (update_flow k (fun _ => true) withdrawn db')) = auth_sessions db').
  { intros db'. unfold update_flow. by destruct (grant_flows db' !! k). }
  unfold withdraw_result. simpl. rewrite Hup. destruct (g_session_id f) as [sid|]; [|naive_solver].
  change (auth_sessions (delete_session sid db)) with
    (filter (fun kv : string * SessionRow => se_session_id (snd kv) <> sid) (auth_sessions db)).
  rewrite map_lookup_filter_Some. simpl. naive_solver.
Qed.

Lemma withdraw_draws db kf : auth_draws (withdraw_result db kf) = auth_draws db.
Proof.
  unfold withdraw_result, update_flow. destruct (g_session_id _); simpl; by destruct (_ !! _).
Qed.

Lemma withdraw_inv db0 db k f :
  db_inv db -> evolves served db0 db -> grant_flows db0 !! k = Some f -> grant_flows db !! k = Some f ->
  g_status f = FComplete ->
  db_inv (withdraw_result db (k, f)) /\ evolves served db0 (withdraw_result db (k, f)).
Proof.
  intros Hinv Hev Hk0 Hk Hs. pose proof (di_row _ Hinv k f Hk) as Hok.
  destruct (row_ok_withdrawn served (fun o => ~ drawn db0 o) f Hok Hs) as [He Hok'].
  destruct (change_row db0 db k f (withdrawn f)) as [[H1 H2 H3 H4] H5]; try done.
  { row_kept. }
  { intros o Ho. unfold row_ok in Hok. rewrite Hs in Hok. destruct Hok as (_ & [Hno _] & _).
    change (g_lease_owner f = Some o) in Ho. congruence. }
  pose proof (withdraw_rows db k f (di_links _ Hinv) Hk) as Hrows.
  pose proof (withdraw_draws db (k, f)) as Hdr. pose proof (withdraw_sessions db k f) as Hses.
  assert (Hgone : g_session_id (withdrawn f) = None) by (vm_compute; reflexivity).
  set (db' := withdraw_result db (k, f)) in *.
  assert (Hrow : forall id g, grant_flows db' !! id = Some g ->
                   grant_flows (upd grant_flows (<[k := withdrawn f]>) db) !! id = Some g).
  { intros id g Hg. by rewrite Hrows in Hg. }
  assert (Hdrawn : forall id, drawn (upd grant_flows (<[k := withdrawn f]>) db) id -> drawn db' id).
  { intros id. apply drawn_mono. rewrite Hdr. done. }
  assert (Hlive : forall id g row, grant_flows db' !! id = Some g -> g_session_id g = Some (se_session_id row) ->
            g_session_id f <> Some (se_session_id row)).
  { intros id g row Hg Hgs Hfs. rewrite Hrows in Hg. apply lookup_insert_Some in Hg as [[<- <-]|[Hne Hg]];
      [congruence|]. apply Hne. by eapply (lk_flow _ (di_links _ Hinv) k id f g). }
  split; [split|].
  - intros id g. rewrite Hrows. apply H1.
  - intros id g. rewrite Hrows. intros Hg. eapply Hdrawn, H2, Hg.
  - intros id g o. rewrite Hrows. intros Hg Ho. eapply Hdrawn, H3; [exact Hg|exact Ho].
  - split.
    + intros h h' r r' [Hr _]%Hses [Hr' _]%Hses. by apply (lk_unique _ H4).
    + intros id g sid Hg Hsid. destruct (lk_exists _ H4 id g sid) as (h & r & Hr & <-); [by apply Hrow|done|].
      exists h, r. split; [|done]. apply Hses. split; [done|]. by eapply Hlive.
    + intros id id' g g' sid. rewrite Hrows. apply (lk_flow _ H4).
    + intros id g sealed Hg Hp.
      destruct (lk_result _ H4 id g sealed) as (d & res & ky & ad & row & gr & E1 & E2 & E3 & E4 & E5 & Hr);
        [by apply Hrow|done|].
      exists d, res, ky, ad, row, gr. repeat (split; [done|]). split; [|done]. apply Hses.
      split; [done|]. by eapply Hlive.
  - destruct H5 as [H51 H52]. split; [rewrite Hdr; exact H51|]. intros id g. rewrite Hrows. apply H52.
Qed.

Lemma reap_results_inv locked batch now db :
  db_inv db -> db_inv (snd (reap_results locked batch now db)) /\
               evolves served db (snd (reap_results locked batch now db)).
Proof.
  intros Hinv. unfold reap_results, first_rows.
  edestruct (selected_rows (by_key (fun f => default 0 (g_token_expires_at f)))) as [Hnd Hl].
  apply (fold_rows (fun db' => db_inv db' /\ evolves served db db')); [exact Hnd| | |].
  - intros k v Hin. by apply (Hl k v).
  - auto using evolves_refl.
  - intros db' k f Hin [Hi He] Hk. destruct (Hl k f Hin) as [Hk0 Hp]. simpl in Hp. unfold unclaimed_result in Hp.
    apply andb_true_iff in Hp as [Hp _]. apply andb_true_iff in Hp as [Hp _].
    apply andb_true_iff in Hp as [Hp _]. apply andb_true_iff in Hp as [Hs _].
    apply bool_decide_eq_true in Hs. split; [by apply withdraw_inv|].
    intros k' Hne. rewrite (withdraw_rows _ _ _ (di_links _ Hi) Hk). by apply lookup_insert_ne.
Qed.
(** Flows stay, and so does what identifies each session. *)
Lemma frame_inv db db' :
  grant_flows db' = grant_flows db -> (auth_draws db <= auth_draws db')%N ->
  (forall h, session_identity <$> auth_sessions db' !! h = session_identity <$> auth_sessions db !! h) ->
  db_inv db -> db_inv db' /\ evolves served db db'.
Proof.
  intros Hf Hd Hs [H1 H2 H3 H4].
  assert (Hfw : forall h r, auth_sessions db !! h = Some r ->
    exists r', auth_sessions db' !! h = Some r' /\ session_identity r' = session_identity r).
  { intros h r Hr. specialize (Hs h). rewrite Hr in Hs. simpl in Hs. by apply fmap_Some in Hs as (r' & ? & ?); eauto. }
  assert (Hbw : forall h r, auth_sessions db' !! h = Some r ->
    exists r', auth_sessions db !! h = Some r' /\ session_identity r = session_identity r').
  { intros h r Hr. specialize (Hs h). rewrite Hr in Hs. simpl in Hs. symmetry in Hs.
    by apply fmap_Some in Hs as (r' & ? & ?); eauto. }
  split; [split|split].
  - rewrite Hf. exact H1.
  - intros id f. rewrite Hf. intros Hk. eapply drawn_mono; [exact Hd|]. by eapply H2.
  - intros id f o. rewrite Hf. intros Hk Ho. eapply drawn_mono; [exact Hd|]. by eapply H3.
  - destruct H4 as [L1 L2 L3 L4]. split.
    + intros h h' r r' Hr Hr' E. destruct (Hbw _ _ Hr) as (a & Ha & Ea), (Hbw _ _ Hr') as (b & Hb & Eb).
      injection Ea as Ea _ _ _ _. injection Eb as Eb _ _ _ _. eapply (L1 h h' a b); congruence.
    + intros id f sid. rewrite Hf. intros Hk Hsid. destruct (L2 id f sid Hk Hsid) as (h & r & Hr & <-).
      destruct (Hfw _ _ Hr) as (r' & Hr' & E). injection E as E _ _ _ _. eauto.
    + intros id id' f f' sid. rewrite Hf. apply L3.
    + intros id f sealed. rewrite Hf. intros Hk Hp.
      destruct (L4 id f sealed Hk Hp) as (d & res & ky & ad & r & gr & E1 & E2 & E3 & E4 & Hrest).
      destruct (Hfw _ _ E4) as (r' & Hr' & E). injection E as I1 I2 I3 I4 I5.
      exists d, res, ky, ad, r', gr. rewrite I1, I2, I3, I4, I5. tauto.
  - exact Hd.
  - intros id f'. rewrite Hf. eauto.
Qed.

(** Statements on other tables. *)
Lemma frame_inv_eq db db' :
  grant_flows db' = grant_flows db -> auth_sessions db' = auth_sessions db ->
  (auth_draws db <= auth_draws db')%N -> db_inv db -> db_inv db' /\ evolves served db db'.
Proof. intros Hf Hs Hd. apply frame_inv; [done|done|]. by rewrite Hs. Qed.

Lemma frame_sessions (change : SessionRow -> SessionRow) db :
  (forall r, session_identity (change r) = session_identity r) -> db_inv db ->
  db_inv (upd auth_sessions (fmap change) db) /\ evolves served db (upd auth_sessions (fmap change) db).
Proof.
  intros Hc. apply frame_inv; [done|apply N.le_refl|]. intros h.
  change (auth_sessions (upd auth_sessions (fmap change) db)) with (change <$> auth_sessions db).
  rewrite lookup_fmap. destruct (auth_sessions db !! h); simpl; [by rewrite Hc|done].
Qed.

Lemma record_session_use_inv h now db :
  db_inv db -> db_inv (record_session_use h now db) /\ evolves served db (record_session_use h now db).
Proof.
  intros Hinv. unfold record_session_use. destruct (auth_sessions db !! h) as [row|] eqn:Hr; [|auto using evolves_refl].
  destruct (stale_use now row); [|auto using evolves_refl]. revert Hinv. apply frame_inv; [done|apply N.le_refl|].
  intros h'. change (auth_sessions (upd auth_sessions ?g db)) with (g (auth_sessions db)). cbv beta.
  destruct (decide (h' = h)) as [->|]; [|by rewrite lookup_insert_ne]. by rewrite lookup_insert_eq, Hr.
Qed.

Lemma purge_flow_inv db0 db kf :
  db_inv db -> evolves served db0 db -> db_inv (purge_flow db kf) /\ evolves served db0 (purge_flow db kf).
Proof.
  intros [H1 H2 H3 [L1 L2 L3 L4]] [E1 E2].
  assert (Hsub : forall id f, grant_flows (purge_flow db kf) !! id = Some f -> grant_flows db !! id = Some f).
  { intros id f Hk. change (delete (fst kf) (grant_flows db) !! id = Some f) in Hk.
    by apply lookup_delete_Some in Hk as [_ ?]. }
  split; [split|split].
  - intros id f Hk%Hsub. eauto.
  - intros id f Hk%Hsub. by apply (H2 id f).
  - intros id f o Hk%Hsub. by apply (H3 id f).
  - split; [exact L1| | |].
    + intros id f sid Hk%Hsub. by apply (L2 id f).
    + intros id id' f f' sid Hk%Hsub Hk'%Hsub. by apply (L3 id id' f f' sid).
    + intros id f sealed Hk%Hsub. by apply L4.
  - exact E1.
  - intros id f Hk%Hsub. by apply E2.
Qed.

Lemma purge_flows_inv cfg now db :
  db_inv db -> db_inv (snd (purge_flows cfg now db)) /\ evolves served db (snd (purge_flows cfg now db)).
Proof.
  intros Hinv. unfold purge_flows. simpl. generalize (first_rows (purgeable cfg now)
    (fun f => default 0 (g_terminal_at f)) (fun _ => false) (gc_reaper_batch_size cfg) db) as l.
  enough (Hg : forall l db', db_inv db' -> evolves served db db' ->
            db_inv (foldl purge_flow db' l) /\ evolves served db (foldl purge_flow db' l)) by auto using evolves_refl.
  induction l as [|kf l IH]; [done|]. intros db' Hi He. simpl. destruct (purge_flow_inv db db' kf Hi He). auto.
Qed.

Hypothesis draws_fresh : forall a b, new_v4 a = new_v4 b -> a = b.

Lemma fresh_draw db n : (auth_draws db <= n)%N -> ~ drawn db (new_v4 n).
Proof. intros Hn (m & Hm & E). apply draws_fresh in E. lia. Qed.

Lemma insert_flow_inv db assertion expected started sealed delivery_hash now :
  let db' := snd (insert_flow (gr_config runtime) (new_v4 (auth_draws db))
    (new_flow runtime assertion expected started sealed delivery_hash now) now
    (upd auth_draws (N.add 2) db)) in
  db_inv db -> db_inv db' /\ evolves served db db'.
Proof.
  intros db' Hinv. subst db'. set (f := new_flow _ _ _ _ _ _ _). set (id := new_v4 (auth_draws db)).
  assert (Hbase : db_inv (upd auth_draws (N.add 2) db) /\ evolves served db (upd auth_draws (N.add 2) db)).
  { revert Hinv. apply frame_inv_eq; [done|done|]. change (auth_draws db <= 2 + auth_draws db)%N. lia. }
  unfold insert_flow. destruct (_ <=? _); [done|]. destruct (negb _); [done|].
  destruct (flow_clash _ _ _) eqn:Hcl; [done|]. simpl. clear Hcl.
  set (db1 := upd grant_flows (<[id := f]>) (upd auth_draws (N.add 2) db)).
  assert (Hin : forall k v, grant_flows db1 !! k = Some v -> (k = id /\ v = f) \/ (grant_flows db !! k = Some v)).
  { intros k v Hk. change ((<[id := f]> (grant_flows db)) !! k = Some v) in Hk.
    apply lookup_insert_Some in Hk as [[-> ->]|[_ ?]]; auto. }
  destruct Hbase as [[H1 H2 H3 [L1 L2 L3 L4]] [E1 E2]]. split; [split|split].
  - intros k v [[-> ->]|Hk]%Hin; [|by eapply H1]. vm_compute. by repeat split; eauto.
  - intros k v [[-> ->]|Hk]%Hin; [|by eapply H2]. exists (auth_draws db).
    split; [|done]. change (auth_draws db < 2 + auth_draws db)%N. lia.
  - intros k v o [[-> ->]|Hk]%Hin; [done|by eapply H3].
  - split; [exact L1| | |].
    + intros k v sid [[-> ->]|Hk]%Hin; [done|by eapply L2].
    + intros k k' v v' sid [[-> ->]|Hk]%Hin [[-> ->]|Hk']%Hin; try done. by apply (L3 k k' v v' sid).
    + intros k v sld [[-> ->]|Hk]%Hin; [done|]. by apply L4.
  - exact E1.
  - intros k v [[-> ->]|Hk]%Hin; [|by apply E2]. right. split; [by apply fresh_draw|].
    split; [done|]. split; [by repeat split|done].
Qed.
(** A new session, under an id and a hash of its own. *)
Lemma session_id_free_spec sid db :
  session_id_free sid db = true -> forall h r, auth_sessions db !! h = Some r -> se_session_id r <> sid.
Proof.
  intros Hfree h r Hr E. unfold session_id_free in Hfree. apply negb_true_iff in Hfree.
  apply not_true_iff_false in Hfree. apply Hfree, table_any_true. exists h, r.
  split; [done|]. by apply N.eqb_eq.
Qed.

Lemma links_session db db' h row :
  links db -> grant_flows db' = grant_flows db -> auth_sessions db' = <[h := row]> (auth_sessions db) ->
  auth_sessions db !! h = None -> session_id_free (se_session_id row) db = true -> links db'.
Proof.
  intros [L1 L2 L3 L4] Hf Hs Hh Hfree. pose proof (session_id_free_spec _ _ Hfree) as Hne.
  assert (Hfw : forall h' r, auth_sessions db !! h' = Some r -> auth_sessions db' !! h' = Some r).
  { intros h' r Hr. rewrite Hs, lookup_insert_ne; [done|]. congruence. }
  split.
  - intros a b r r'. rewrite Hs. intros [[<- <-]|[Ha Hr]]%lookup_insert_Some [[<- <-]|[Hb Hr']]%lookup_insert_Some E;
      [done| | |by eapply (L1 a b)].
    + by destruct (Hne _ _ Hr').
    + by destruct (Hne _ _ Hr).
  - intros id f sid. rewrite Hf. intros Hk Hsid. destruct (L2 id f sid Hk Hsid) as (a & r & Hr & E). eauto.
  - intros id id' f f' sid. rewrite Hf. apply L3.
  - intros id f sealed. rewrite Hf. intros Hk Hp.
    destruct (L4 id f sealed Hk Hp) as (d & res & ky & ad & r & gr & E1 & E2 & E3 & E4 & Hrest).
    exists d, res, ky, ad, r, gr. apply Hfw in E4. tauto.
Qed.

Lemma create_session_inv body now db :
  let db' := snd (create_session config body now db) in db_inv db -> db_inv db' /\ evolves served db db'.
Proof.
  intros db' Hinv. subst db'. unfold create_session.
  destruct (verify_auth_token _ _ _) as [v|]; [|auto using evolves_refl].
  destruct (bool_decide (is_Some _)); [auto using evolves_refl|].
  destruct (bool_decide (is_Some (auth_sessions db !! _)) || _) eqn:Hg; [auto using evolves_refl|].
  apply orb_false_iff in Hg as [Hh Hid]. apply bool_decide_eq_false, eq_None_not_Some in Hh.
  apply negb_false_iff in Hid. simpl. destruct Hinv as [H1 H2 H3 H4].
  match goal with |- db_inv ?d /\ _ => set (db' := d) end.
  assert (Hle : (auth_draws db <= auth_draws db')%N) by (change (auth_draws db <= auth_draws db + 2)%N; lia).
  split; [split|split].
  - exact H1.
  - intros id f Hk. eapply drawn_mono, H2, Hk. done.
  - intros id f o Hk Ho. eapply drawn_mono, H3; done.
  - by eapply (links_session db db'); [exact H4|reflexivity|reflexivity| |].
  - exact Hle.
  - intros id f Hk. left. exists f. auto.
Qed.

Lemma seal_result_spec lease result draw sealed token_hash :
  seal_result runtime lease result draw = Some (sealed, token_hash) ->
  exists aad key, result_aad (fl_flow_id lease) (fl_result_cpk lease) (fl_key_epoch lease) = Some aad /\
    encryption_key runtime (fl_key_epoch lease) = Some key /\
    sealed = seal draw key aad (result_text result).
Proof.
  unfold seal_result. intros E. apply bind_Some in E as (h & _ & E). apply bind_Some in E as (aad & Ha & E).
  apply bind_Some in E as (key & Hk & [= <- _]). eauto.
Qed.

(** The row of a completed flow among the others. *)
Lemma links_completed db db' id f sid sealed token_hash now h row :
  links db -> grant_flows db !! id = Some f -> result_linked db' id (completed (g_expected_pubky f) sid sealed token_hash now f) sealed ->
  grant_flows db' = <[id := completed (g_expected_pubky f) sid sealed token_hash now f]> (grant_flows db) ->
  auth_sessions db' = <[h := row]> (auth_sessions db) -> se_session_id row = sid ->
  auth_sessions db !! h = None -> session_id_free sid db = true -> links db'.
Proof.
  intros HL Hf Hres Hfl Hs Hsid Hh Hfree. set (f' := completed _ _ _ _ _ _) in *.
  pose proof (session_id_free_spec _ _ Hfree) as Hne.
  assert (Hnew : g_session_id f' = Some sid) by (vm_compute; reflexivity).
  assert (HL' : links (db <| auth_sessions := <[h := row]> (auth_sessions db) |>)).
  { eapply (links_session db); [done|reflexivity|reflexivity|done|by rewrite Hsid]. }
  destruct HL as [_ L2 L3 _], HL' as [M1 M2 _ M4]. split.
  - intros a b r r'. rewrite Hs. apply M1.
  - intros k g s Hk Hg. rewrite Hfl in Hk. apply lookup_insert_Some in Hk as [[<- <-]|[_ Hk]].
    + exists h, row. rewrite Hs, lookup_insert_eq. split; [done|]. congruence.
    + destruct (M2 k g s Hk Hg) as (a & r & Hr & E). exists a, r. by rewrite Hs.
  - assert (Hold : forall k g, grant_flows db !! k = Some g -> g_session_id g <> Some sid).
    { intros k g Hk Hg. destruct (L2 k g sid Hk Hg) as (a & r & Hr & E). by destruct (Hne a r Hr). }
    intros k k' g g' s. rewrite Hfl. intros [[<- <-]|[_ Hk]]%lookup_insert_Some [[<- <-]|[_ Hk']]%lookup_insert_Some Hg Hg';
      [done| | |by eapply (L3 k k' g g')].
    + destruct (Hold _ _ Hk'). congruence.
    + destruct (Hold _ _ Hk). congruence.
  - intros k g s Hk Hg. rewrite Hfl in Hk. apply lookup_insert_Some in Hk as [[<- <-]|[_ Hk]].
    + change (Some sealed = Some s) in Hg. by injection Hg as <-.
    + eapply result_linked_frame; [..|exact (M4 k g s Hk Hg)]; [exact Hs|done|done|done].
Qed.

Lemma complete_owned_inv lease granted now db :
  let db' := snd (complete_owned runtime lease (fl_expected_pubky lease) (capabilities_text granted) now db) in
  allowlisted granted = true ->
  (forall f, grant_flows db !! fl_flow_id lease = Some f -> g_lease_owner f = Some (fl_lease_owner lease) ->
     lease_matches lease f) ->
  db_inv db -> db_inv db' /\ evolves served db db'.
Proof.
  intros db' Hgr Hm Hinv. subst db'. unfold complete_owned.
  assert (Hbase : db_inv (upd auth_draws (N.add 4) db) /\ evolves served db (upd auth_draws (N.add 4) db)).
  { revert Hinv. apply frame_inv_eq; [done|done|]. change (auth_draws db <= 4 + auth_draws db)%N. lia. }
  set (result := mkSealedResult _ _ _ _). set (sid := new_v4 _).
  destruct (seal_result _ _ _ _) as [[sealed token_hash]|] eqn:Hseal; [|done].
  destruct (grant_flows db !! fl_flow_id lease) as [f|] eqn:Hf; [|done].
  destruct (owns lease f) eqn:Hown; [|done]. simpl.
  destruct (bool_decide (is_Some _) || _) eqn:Hg; [done|].
  apply orb_false_iff in Hg as [Hh Hid]. apply bool_decide_eq_false, eq_None_not_Some in Hh.
  apply negb_false_iff in Hid. simpl. unfold owns in Hown.
  apply andb_true_iff in Hown as [[Hs Ho]%andb_true_iff _]. apply bool_decide_eq_true in Hs, Ho.
  destruct (Hm f eq_refl Ho) as (M1 & M2 & M3 & M4). rewrite M1.
  pose proof (di_row _ Hinv _ _ Hf) as Hok.
  destruct (row_ok_completed served (fun o => ~ drawn db o) f sid sealed token_hash now Hok Hs) as [He Hok'].
  destruct (seal_result_spec _ _ _ _ _ Hseal) as (aad & key & Haad & Hkey & ->).
  match goal with |- db_inv ?d /\ _ => set (db' := d) end.
  assert (Hrows : grant_flows db' = <[fl_flow_id lease := completed (g_expected_pubky f) sid
    (seal (auth_draws db + 2) key aad (result_text result)) token_hash now f]> (grant_flows db)) by reflexivity.
  set (f' := completed _ _ _ _ _ f) in *.
  assert (Hown' : g_lease_owner f' = None) by (vm_compute; reflexivity).
  set (row := mkSession sid _ _ _ _ _ _ _ _) in db'.
  assert (Hses : auth_sessions db' = <[hash_token (sr_bearer result) := row]> (auth_sessions db)) by reflexivity.
  assert (Hle : (auth_draws db <= auth_draws db')%N) by (change (auth_draws db <= 4 + auth_draws db)%N; lia).
  clearbody db'. split; [split|split].
  - intros k g. rewrite Hrows. intros [[<- <-]|[_ Hk]]%lookup_insert_Some; [done|by eapply di_row].
  - intros k g. rewrite Hrows. intros [[<- _]|[_ Hk]]%lookup_insert_Some;
      (eapply drawn_mono; [exact Hle|by eapply (di_id _ Hinv)]).
  - intros k g o. rewrite Hrows. intros [[<- <-]|[_ Hk]]%lookup_insert_Some Hg; [congruence|].
    eapply drawn_mono; [exact Hle|by eapply (di_owner _ Hinv)].
  - eapply (links_completed db db' _ f sid _ token_hash now _ row); try done; [apply Hinv|].
    exists (auth_draws db + 2)%N, result, key, aad, row, granted.
    change (g_result_cpk (completed _ _ _ _ _ f)) with (g_result_cpk f).
    change (g_key_epoch (completed _ _ _ _ _ f)) with (g_key_epoch f). rewrite <- M2, <- M3, Hses, lookup_insert_eq.
    by repeat split.
  - exact Hle.
  - intros k g. rewrite Hrows. intros [[<- <-]|[_ Hk]]%lookup_insert_Some; left; eauto.
Qed.
(** ** The worker's statements *)

Lemma owns_spec lease f :
  owns lease f = true ->
  g_status f = FVerifying /\ g_lease_owner f = Some (fl_lease_owner lease) /\ g_version f = fl_version lease.
Proof.
  unfold owns. rewrite !andb_true_iff, !bool_decide_eq_true, Z.eqb_eq. tauto.
Qed.

Lemma terminalize_inv lease status code approved now db :
  db_inv db ->
  (forall f, grant_flows db !! fl_flow_id lease = Some f -> g_lease_owner f = Some (fl_lease_owner lease) ->
     status = FInvalid \/ status = FFailed \/
     (status = FMismatch /\ exists a, approved = Some a /\ a <> g_expected_pubky f)) ->
  let db' := snd (terminalize_owned lease status code approved now db) in db_inv db' /\ evolves served db db'.
Proof.
  intros Hinv Hst. apply update_flow_inv; [done|]. intros f Hf Hown.
  apply owns_spec in Hown as (Hs & Ho & _). pose proof (di_row _ Hinv _ _ Hf) as Hok.
  destruct (row_ok_terminalized served (fun o => ~ drawn db o) f status code approved now Hok Hs (Hst f Hf Ho)) as [He Hok'].
  split; [exact He|]. split; [exact Hok'|]. split; row_kept.
Qed.

Lemma return_inv lease db :
  db_inv db -> let db' := snd (return_owned_to_awaiting lease db) in db_inv db' /\ evolves served db db'.
Proof.
  intros Hinv. apply update_flow_inv; [done|]. intros f Hf [Hown Ha]%andb_true_iff.
  apply owns_spec in Hown as (Hs & _). apply bool_decide_eq_true in Ha.
  destruct (row_ok_returned served (fun o => ~ drawn db o) f (di_row _ Hinv _ _ Hf) Hs Ha) as [He Hok'].
  split; [exact He|]. split; [exact Hok'|]. split; row_kept.
Qed.

Lemma enter_exchanging_inv lease approved until db :
  db_inv db -> let db' := snd (enter_exchanging lease approved until db) in db_inv db' /\ evolves served db db'.
Proof.
  intros Hinv. apply update_flow_inv; [done|]. intros f Hf [Hown _]%andb_true_iff.
  apply owns_spec in Hown as (Hs & _).
  edestruct (row_ok_verifying served (fun o => ~ drawn db o) f) as [He Hok']; [by eapply di_row|done| |].
  { exists (Some approved), until, (g_version f + 1). split; [reflexivity|lia]. }
  split; [exact He|]. split; [exact Hok'|]. split; row_kept.
Qed.

Lemma heartbeat_inv lease until db :
  db_inv db -> let db' := snd (heartbeat_lease lease until db) in db_inv db' /\ evolves served db db'.
Proof.
  intros Hinv. apply update_flow_inv; [done|]. intros f Hf [Hs%bool_decide_eq_true _]%andb_true_iff.
  edestruct (row_ok_verifying served (fun o => ~ drawn db o) f) as [He Hok']; [by eapply di_row|done| |].
  { exists (g_approved_pubky f), until, (g_version f). split; [reflexivity|lia]. }
  assert (E : f <| g_lease_until := Some until |> =
    f <| g_approved_pubky := g_approved_pubky f |> <| g_lease_until := Some until |> <| g_version := g_version f |>)
    by (destruct f; vm_compute; reflexivity).
  rewrite E. split; [exact He|]. split; [exact Hok'|]. split; row_kept.
Qed.

Lemma cancel_inv flow_id now db :
  db_inv db -> let db' := snd (cancel_awaiting flow_id now db) in db_inv db' /\ evolves served db db'.
Proof.
  intros Hinv. apply update_flow_inv; [done|]. intros f Hf Hs%bool_decide_eq_true.
  destruct (row_ok_awaiting_ended served (fun o => ~ drawn db o) f FCancelled "cancelled" now (di_row _ Hinv _ _ Hf) Hs)
    as [He Hok']; [auto|]. split; [exact He|]. split; [exact Hok'|]. split; row_kept.
Qed.

(** What a settlement needs of the lease. *)
Definition lease_held (lease : FlowLease) (db : AuthDb) : Prop :=
  forall f, grant_flows db !! fl_flow_id lease = Some f -> g_lease_owner f = Some (fl_lease_owner lease) ->
    lease_matches lease f.

Lemma grant_capabilities_allowlisted verified requested granted :
  grant_capabilities verified requested = inl granted -> allowlisted granted = true.
Proof.
  unfold grant_capabilities. destruct (capabilities_for_grant_url requested); [|done].
  destruct (parse_verified verified) as [v|]; [|done]. destruct (allowlisted v) eqn:E; [|done]. simpl.
  destruct (granted_subseteq_requested _ _); simpl; [|done]. by intros [= <-].
Qed.

Lemma settle_inv lease approved requested verified now db :
  lease_held lease db -> db_inv db ->
  let db' := snd (settle_verified runtime lease approved requested verified now db) in
  db_inv db' /\ evolves served db db'.
Proof.
  intros Hheld Hinv. unfold settle_verified.
  assert (Hsnd : forall r : bool * AuthDb, snd (let '(applied, db) := r in (Some applied, db)) = snd r)
    by (by intros []).
  destruct (String.eqb_spec approved (fl_expected_pubky lease)) as [->|Hne]; simpl.
  - unfold session_capabilities_for_grant.
    destruct (grant_capabilities verified requested) as [granted|] eqn:Hg.
    + apply complete_owned_inv; [by eapply grant_capabilities_allowlisted|exact Hheld|done].
    + rewrite Hsnd. apply terminalize_inv; auto.
  - rewrite Hsnd. apply terminalize_inv; [done|]. intros f Hf Ho. right; right. split; [done|].
    exists approved. split; [done|]. destruct (Hheld f Hf Ho) as (<- & _). done.
Qed.

Lemma process_lease_inv phase event now db :
  lease_held (phase_lease phase) db -> db_inv db ->
  let db' := snd (process_lease runtime phase event now db) in db_inv db' /\ evolves served db db'.
Proof.
  intros Hheld Hinv. pose proof (evolves_refl db) as Hrefl.
  destruct phase as [lease|lease started|lease approved requested], event; simpl in *; auto;
    try apply return_inv; try (apply terminalize_inv; auto); try done.
  - destruct (_ =? 0); [|done]. by apply return_inv.
  - pose proof (enter_exchanging_inv lease approved
      (now + seconds (gc_verify_lease_seconds (gr_config runtime))) db Hinv) as He.
    destruct (enter_exchanging _ _ _ _) as [[] d] eqn:E; [done|].
    rewrite (update_flow_missed _ _ _ _ _ E). by apply return_inv.
  - destruct (exchange_error error) as [st code] eqn:E. simpl. apply terminalize_inv; [done|].
    intros f _ _. destruct error; simpl in E; injection E as <- <-; auto.
  - by apply settle_inv.
Qed.

Lemma acquire_inv locked now db :
  let db' := snd (acquire_flows (gr_config runtime) locked now db) in
  db_inv db -> db_inv db' /\ evolves served db db' /\ auth_draws db' = N.succ (auth_draws db).
Proof.
  intros db' Hinv. subst db'. unfold acquire_flows, due_flows. simpl.
  destruct (selected_rows expires_first (fun kv => acquirable now (snd kv) && negb (locked (fst kv)))
    (gc_worker_batch_size (gr_config runtime)) db) as [Hnd Hl].
  set (l := take _ _) in *. set (until := now + _). set (owner := new_v4 (auth_draws db)).
  match goal with |- db_inv ?d /\ _ =>
    enough (Hall : (db_inv d /\ evolves served db d) /\ auth_draws d = N.succ (auth_draws db)) by tauto end.
  apply (fold_rows (fun db' => (db_inv db' /\ evolves served db db') /\ auth_draws db' = N.succ (auth_draws db)));
    [exact Hnd|..].
  - intros k v Hin. by destruct (Hl k v Hin).
  - split; [|done]. revert Hinv. apply frame_inv_eq; [done|done|].
    change (auth_draws db <= N.succ (auth_draws db))%N. lia.
  - intros db' k f Hin [[Hi He] Hd] Hk. destruct (Hl k f Hin) as [Hk0 Hp]. split.
    2: { intros k' Hne. by apply lookup_insert_ne. }
    simpl in Hp. apply andb_true_iff in Hp as [[Hs%bool_decide_eq_true _]%andb_true_iff _].
    destruct (row_ok_leased served (fun o => ~ drawn db o) f owner until (di_row _ Hinv _ _ Hk0) Hs) as [Hedge Hok'];
      [by apply fresh_draw|]. split; [|exact Hd].
    apply (change_row db db' k f); try done; [row_kept|].
    intros o Ho. change (Some owner = Some o) in Ho. injection Ho as <-. exists (auth_draws db).
    rewrite Hd. split; [lia|done].
Qed.
End Contract.

(** ** Runs *)

Section Runs.
Context `{UC : !UuidCrate, JT : !JsonText, LC : !LocksCrates, SC : !SealCrates, IC : !InventoryCrates,
          AC : !AuthCrates, CC : !CapabilityCrate, GC : !GrantCrates, RC : !ResultCodec}.
Context (config : AuthConfig) (runtime : GrantRuntime).
Hypothesis draws_fresh : forall a b, new_v4 a = new_v4 b -> a = b.

Lemma db_op_inv now db db' :
  db_op config runtime now db db' -> db_inv runtime db -> db_inv runtime db' /\ evolves False db db'.
Proof.
  intros Hop Hinv. pose proof (evolves_refl False db) as Hrefl. destruct Hop.
  - unfold resolve_header_session. destruct (bearer_from_headers header) as [[token|]|]; [|done|done].
    destruct (resolve_active_session token now db); [|done]. by apply record_session_use_inv.
  - unfold consume_automation_rate. destruct (match automation_rates db !! _ with Some _ => _ | None => _ end).
    destruct (if SpecFloat.SFleb _ _ then _ else _). revert Hinv. by apply frame_inv_eq.
  - unfold update_session_metadata. destruct (negb _ || negb _); [done|]. destruct (table_any _ _); [|done].
    destruct (_ <? _); [done|]. apply frame_sessions; [|done]. intros r. by destruct (_ && _).
  - unfold revoke_session. destruct (table_any _ _); [|done]. apply frame_sessions; [|done].
    intros r. by destruct (owned_session _ _ _).
  - unfold admit_rate. destruct (result_keys _ _); [|done]. destruct (_ <? _); [done|].
    revert Hinv. by apply frame_inv_eq.
  - unfold consume_service_request. destruct (grant_requests db !! id); [done|].
    revert Hinv. by apply frame_inv_eq.
  - revert Hinv. apply frame_inv_eq; [done|done|]. change (auth_draws db <= n + auth_draws db)%N. lia.
  - by apply insert_flow_inv.
  - unfold insert_nonce in *. destruct (grant_flows _ !! flow_id); [|done].
    destruct (grant_nonces _ !! _); [done|]. simplify_eq. revert Hinv. apply frame_inv_eq; [done|done|].
    change (auth_draws db <= 2 + auth_draws db)%N. lia.
  - by apply cancel_inv.
  - by apply heartbeat_inv.
  - by apply reap_expired_inv.
  - by apply reap_stale_inv.
  - by apply reap_results_inv.
  - revert Hinv. by apply frame_inv_eq.
  - revert Hinv. by apply frame_inv_eq.
  - revert Hinv. by apply frame_inv_eq.
  - by apply purge_flows_inv.
Qed.

Lemma pop_frame flow_id principal purpose path delivery_id cpk proof now db db' :
  verify_pop_and_consume flow_id principal purpose path delivery_id cpk proof now db = Some db' ->
  grant_flows db' = grant_flows db /\ auth_sessions db' = auth_sessions db /\
  auth_draws db' = auth_draws db /\ auth_token_uses db' = auth_token_uses db.
Proof.
  unfold verify_pop_and_consume. intros E. apply bind_Some in E as (ck & _ & E).
  apply bind_Some in E as (row & _ & E). destruct (nonce_usable _ _ _ _ _ _); [|done]. by injection E as <-.
Qed.

(** A ticket is delivered once, to a complete flow. *)
Lemma deliver_spec flow_id principal path request delivery_id now db token expires db' :
  deliver_ticket runtime flow_id principal path request delivery_id now db = Some (token, expires, db') ->
  exists f, grant_flows db !! flow_id = Some f /\ g_status f = FComplete /\ g_token_delivered_at f = None /\
    grant_flows db' = <[flow_id := f <| g_token_delivered_at := Some now |>]> (grant_flows db) /\
    auth_sessions db' = auth_sessions db /\ auth_draws db' = auth_draws db /\
    auth_token_uses db' = auth_token_uses db.
Proof.
  unfold deliver_ticket. intros E. apply bind_Some in E as (f & Hf & E). apply bind_Some in E as (dh & _ & E).
  destruct (ticket_open f dh now) eqn:Ht; [|done]. simpl in E.
  apply bind_Some in E as (db1 & Hpop%pop_frame & E). apply bind_Some in E as (sealed & _ & E).
  apply bind_Some in E as (result & _ & E). apply bind_Some in E as (ex & _ & [= <- <- <-]).
  destruct Hpop as (H1 & H2 & H3 & H4). unfold ticket_open in Ht.
  rewrite !andb_true_iff, !bool_decide_eq_true in Ht. destruct Ht as [[[[Hs _] Hd] _] _].
  exists f. split; [done|]. split; [done|]. split; [done|]. rewrite <- H1. done.
Qed.

(** A claim needs a delivered ticket and has not been made before. *)
Lemma redeem_spec flow_id principal path request delivery_id token now db capabilities pubky result db' :
  redeem_claim runtime flow_id principal path request delivery_id token now db =
    Some (capabilities, pubky, result, db') ->
  exists f sealed expires, grant_flows db !! flow_id = Some f /\ g_status f = FComplete /\
    g_claimed_at f = None /\ is_Some (g_token_delivered_at f) /\
    g_payload_sealed f = Some sealed /\ g_token_expires_at f = Some expires /\ now < expires /\
    open_result runtime flow_id (g_result_cpk f) (g_key_epoch f) sealed = Some result /\
    flow_capabilities f db = Some capabilities /\ pubky = g_expected_pubky f /\
    grant_flows db' = <[flow_id := claimed now f]> (grant_flows db) /\
    auth_sessions db' = auth_sessions db /\ auth_draws db' = auth_draws db /\
    auth_token_uses db' = auth_token_uses db.
Proof.
  unfold redeem_claim. intros E. apply bind_Some in E as (f & Hf & E). apply bind_Some in E as (dh & _ & E).
  apply bind_Some in E as (th & _ & E).
  destruct (claim_open f dh th now) eqn:Ht; [|done]. simpl in E.
  apply bind_Some in E as (db1 & Hpop%pop_frame & E). apply bind_Some in E as (sealed & Hsealed & E).
  apply bind_Some in E as (res & Hres & E). apply bind_Some in E as (caps & Hcaps & [= <- <- <- <-]).
  destruct Hpop as (H1 & H2 & H3 & H4). unfold claim_open in Ht.
  rewrite !andb_true_iff, !bool_decide_eq_true in Ht. destruct Ht as [[[[[Hs Hc] Hd] He] _] _].
  destruct (g_token_expires_at f) as [expires|] eqn:Hex; [|done]. apply Z.ltb_lt in He.
  exists f, sealed, expires. unfold flow_capabilities in *. rewrite H2 in Hcaps.
  split; [done|]. split; [done|]. split; [done|]. split; [done|]. split; [done|]. split; [done|].
  split; [done|]. split; [done|]. split; [done|]. split; [done|]. rewrite <- H1. done.
Qed.
(** *** The uses of tokens *)

Lemma update_flow_uses id cond change db :
  auth_token_uses (snd (update_flow id cond change db)) = auth_token_uses db.
Proof. unfold update_flow. destruct (grant_flows db !! id); [|done]. by destruct (cond _). Qed.

Lemma foldl_uses {B} (op : AuthDb -> B -> AuthDb) l db :
  (forall db b, auth_token_uses (op db b) = auth_token_uses db) ->
  auth_token_uses (foldl op db l) = auth_token_uses db.
Proof. intros Hop. revert db. induction l as [|b l IH]; intros db; simpl; [done|]. by rewrite IH. Qed.

Lemma db_op_uses now db db' : db_op config runtime now db db' -> auth_token_uses db' = auth_token_uses db.
Proof.
  intros Hop. destruct Hop; try done; try apply update_flow_uses; try (apply foldl_uses; by intros).
  - unfold resolve_header_session. destruct (bearer_from_headers header) as [[token|]|]; [|done|done].
    destruct (resolve_active_session token now db); [|done]. unfold record_session_use. simpl.
    destruct (auth_sessions db !! _); [|done]. by destruct (stale_use _ _).
  - unfold consume_automation_rate. destruct (match automation_rates db !! _ with Some _ => _ | None => _ end).
    by destruct (if SpecFloat.SFleb _ _ then _ else _).
  - unfold update_session_metadata. destruct (negb _ || negb _); [done|]. destruct (table_any _ _); [|done].
    by destruct (_ <? _).
  - unfold revoke_session. by destruct (table_any _ _).
  - unfold admit_rate. destruct (result_keys _ _); [|done]. by destruct (_ <? _).
  - unfold consume_service_request. by destruct (grant_requests db !! id).
  - unfold insert_flow. destruct (_ <=? _); [done|]. destruct (negb _); [done|]. by destruct (flow_clash _ _ _).
  - unfold insert_nonce in *. destruct (grant_flows _ !! flow_id); [|done].
    destruct (grant_nonces _ !! _); [done|]. by simplify_eq.
  - apply foldl_uses. intros d [k f]. unfold withdraw_result. rewrite update_flow_uses. by destruct (g_session_id _).
Qed.

Lemma process_lease_uses phase event now db :
  auth_token_uses (snd (process_lease runtime phase event now db)) = auth_token_uses db.
Proof.
  destruct phase as [lease|lease started|lease approved requested], event; simpl; try done; try apply update_flow_uses.
  - destruct (_ =? 0); [apply update_flow_uses|done].
  - match goal with |- context [enter_exchanging ?a ?b ?c ?d] =>
      pose proof (update_flow_uses _ _ _ _ : auth_token_uses (snd (enter_exchanging a b c d)) = _) as E;
      destruct (enter_exchanging a b c d) as [[] ?] end; simpl in *; [done|].
    unfold return_owned_to_awaiting. by rewrite update_flow_uses.
  - destruct (exchange_error error). apply update_flow_uses.
  - unfold settle_verified.
    assert (Hsnd : forall r : bool * AuthDb, snd (let '(applied, db) := r in (Some applied, db)) = snd r)
      by (by intros []).
    destruct (negb _); [rewrite Hsnd; apply update_flow_uses|].
    destruct (session_capabilities_for_grant _ _); [|rewrite Hsnd; apply update_flow_uses].
    unfold complete_owned. destruct (seal_result _ _ _ _) as [[]|]; [|done].
    destruct (grant_flows db !! _); [|done]. destruct (negb _); [done|]. by destruct (_ || _).
Qed.

(** Uses that were pruned belong to tokens no longer acceptable. *)
Lemma window_retained (at_ now ts : Z) :
  let window := saturating_mul (cf_auth_token_window_seconds config) 1000000 in
  Z.abs (ts - at_) <= window -> Z.abs (ts - now) <= window -> ~ at_ < now - seconds (retention config).
Proof.
  intros window. unfold retention, seconds, LIBRARY_TIMESTAMP_WINDOW_SECONDS. intros H1 H2 H3.
  assert (0 <= window) by lia. assert (window <= cf_auth_token_window_seconds config * 1000000).
  { unfold window, saturating_mul in *. unfold i64_min in *. lia. }
  lia.
Qed.

Lemma verify_window body now window v :
  verify_auth_token body now window = inl v ->
  Z.abs (vt_timestamp_micros v - now) <= saturating_mul window 1000000.
Proof.
  unfold verify_auth_token. destruct (_ <? _); [done|]. destruct (verify_token body); [|done].
  destruct (i64_max <? _); [done|]. destruct (_ <? Z.abs _) eqn:E; [done|]. intros [= <-].
  simpl. apply Z.ltb_ge in E. done.
Qed.

Lemma prune_kept now db use :
  use_kept config now db use ->
  exists at_, at_ <= now /\
    Z.abs (snd use - at_) <= saturating_mul (cf_auth_token_window_seconds config) 1000000 /\
    (prune_uses config now (auth_token_uses db) !! use = Some at_ \/ at_ < now - seconds (retention config)).
Proof.
  intros (at_ & Hle & Hw & Hd). exists at_. split; [done|]. split; [done|].
  destruct Hd as [Hd|Hd]; [|by right]. destruct (decide (at_ < now - seconds (retention config))); [by right|].
  left. apply map_lookup_filter_Some. auto.
Qed.

Lemma create_session_flows body now db :
  grant_flows (snd (create_session config body now db)) = grant_flows db.
Proof.
  unfold create_session. destruct (verify_auth_token _ _ _); [|done]. destruct (bool_decide _); [done|].
  by destruct (_ || _).
Qed.

(** A token that was accepted is refused for as long as its instant is in the window. *)
Lemma create_session_uses body now db response db' accepted :
  create_session config body now db = (response, db') ->
  (forall use, use ∈ accepted -> use_kept config now db use) -> base.NoDup accepted ->
  let accepted' := accepted ++ match verify_auth_token body now (cf_auth_token_window_seconds config) with
    | inl v => if rp_status response =? 201 then [(vt_pubky v, vt_timestamp_micros v)] else []
    | inr _ => []
    end in
  (forall use, use ∈ accepted' -> use_kept config now db' use) /\ base.NoDup accepted'.
Proof.
  intros Hc Hk Hnd. unfold create_session in Hc.
  destruct (verify_auth_token body now _) as [v|] eqn:Hv; [|injection Hc as <- <-; simpl; by rewrite app_nil_r].
  set (use := (vt_pubky v, vt_timestamp_micros v)) in *.
  destruct (bool_decide (is_Some (_ !! use))) eqn:Hu; [injection Hc as <- <-; simpl; by rewrite app_nil_r|].
  destruct (_ || _); [injection Hc as <- <-; simpl; by rewrite app_nil_r|]. injection Hc as <- <-. simpl.
  apply bool_decide_eq_false, eq_None_not_Some in Hu. apply verify_window in Hv.
  assert (Hnew : use ∉ accepted).
  { intros Hin. destruct (prune_kept now db use (Hk _ Hin)) as (at_ & _ & Hw & [Hd|Hd]); [congruence|].
    by eapply (window_retained at_ now (vt_timestamp_micros v)). }
  split.
  - intros u [Hin|Hin%list_elem_of_singleton]%elem_of_app.
    + destruct (prune_kept now db u (Hk _ Hin)) as (at_ & Hle & Hw & Hd). exists at_. split; [done|].
      split; [done|]. destruct Hd as [Hd|Hd]; [left|by right].
      change ((<[use := now]> (prune_uses config now (auth_token_uses db))) !! u = Some at_).
      rewrite lookup_insert_ne; [done|]. congruence.
    + subst u. exists now. split; [lia|]. split; [exact Hv|]. left.
      change ((<[use := now]> (prune_uses config now (auth_token_uses db))) !! use = Some now).
      apply lookup_insert_eq.
  - apply list.NoDup_app. split; [done|]. split; [|apply NoDup_singleton].
    intros u Hin ->%list_elem_of_singleton. done.
Qed.
(** *** The invariant of a run *)

(** Phases that were there keep their leases. *)
Lemma phases_kept served db db' (phases : list LeasePhase) :
  evolves served db db' ->
  (forall p, p ∈ phases -> drawn db (fl_lease_owner (phase_lease p))) ->
  (forall p, p ∈ phases -> lease_held (phase_lease p) db) ->
  (forall p, p ∈ phases -> drawn db' (fl_lease_owner (phase_lease p))) /\
  (forall p, p ∈ phases -> lease_held (phase_lease p) db').
Proof.
  intros [Hd Hrow] Ho Hl. split; [intros p Hp; by eapply drawn_mono, Ho|].
  intros p Hp f' Hf' Hown. destruct (Hrow _ _ Hf') as [(f & Hf & He)|(_ & _ & _ & [Hn _])]; [|congruence].
  destruct (re_owner _ _ _ _ He) as [E|[E|(o & E & Hfr)]]; [|congruence|].
  - rewrite E in Hown. destruct (Hl p Hp f Hf Hown) as (M1 & M2 & M3 & M4).
    pose proof (re_identity _ _ _ _ He) as I. unfold flow_identity in I.
    injection I as I1 I2 I3 I4 I5 I6 I7 I8 I9 I10. repeat split; congruence.
  - rewrite E in Hown. injection Hown as ->. destruct (Hfr (Ho p Hp)).
Qed.

(** The logs of what was served agree with the rows. *)
Lemma logs_kept served db db' (tickets claims : list Uuid) :
  evolves served db db' ->
  (forall id, id ∈ tickets -> drawn db id) -> (forall id, id ∈ claims -> id ∈ tickets) ->
  (forall id f, id ∈ tickets -> grant_flows db !! id = Some f -> is_Some (g_token_delivered_at f)) ->
  (forall id f, id ∈ claims -> grant_flows db !! id = Some f -> is_Some (g_claimed_at f)) ->
  (forall id, id ∈ tickets -> drawn db' id) /\
  (forall id f, id ∈ tickets -> grant_flows db' !! id = Some f -> is_Some (g_token_delivered_at f)) /\
  (forall id f, id ∈ claims -> grant_flows db' !! id = Some f -> is_Some (g_claimed_at f)).
Proof.
  intros [Hd Hrow] Hdr Hsub Ht Hc. split; [intros id Hid; by eapply drawn_mono, Hdr|]. split.
  - intros id f' Hid Hf'. destruct (Hrow _ _ Hf') as [(f & Hf & He)|(Hn & _)]; [|by destruct (Hn (Hdr id Hid))].
    destruct (Ht id f Hid Hf) as [t E]. destruct (re_delivered _ _ _ _ He) as [->|[_ E']]; [eauto|congruence].
  - intros id f' Hid Hf'. destruct (Hrow _ _ Hf') as [(f & Hf & He)|(Hn & _)];
      [|by destruct (Hn (Hdr id (Hsub id Hid)))].
    destruct (Hc id f Hid Hf) as [t E]. exists t. by apply (re_claimed _ _ _ _ He).
Qed.

Lemma world_step now db db' phases tickets claims accepted :
  db_inv runtime db' -> evolves False db db' -> auth_token_uses db' = auth_token_uses db ->
  world_inv config runtime (mkAuthWorld now db phases tickets claims accepted) ->
  world_inv config runtime (mkAuthWorld now db' phases tickets claims accepted).
Proof.
  intros Hdb He Hu [W1 W2 W3 W4 W5 W6 W7 W8 W9 W10 W11 W12]. simpl in *.
  destruct (phases_kept False db db' phases He W2 (fun p Hp f => W3 p f Hp)) as [P1 P2].
  destruct (logs_kept False db db' tickets claims He W4 W8 W5 W7) as (L1 & L2 & L3).
  split; simpl; auto.
  - intros p f Hp. by apply P2.
  - intros id f' Hf' Hdel. destruct (ev_row _ _ _ He _ _ Hf') as [(f & Hf & Hedge)|(_ & _ & Hno & _)].
    + apply (W6 id f Hf). by destruct (re_delivered _ _ _ _ Hedge) as [<-|[[] _]].
    + destruct Hno as (_ & _ & Hno & _). rewrite Hno in Hdel. by destruct Hdel.
  - intros use Hin. unfold use_kept. rewrite Hu. by apply W11.
Qed.

Lemma deliver_inv flow_id principal path request delivery_id now db token expires db' :
  deliver_ticket runtime flow_id principal path request delivery_id now db = Some (token, expires, db') ->
  db_inv runtime db -> db_inv runtime db' /\ evolves True db db'.
Proof.
  intros Hd Hinv. apply deliver_spec in Hd as (f & Hf & Hs & Hdel & Hrows & Hses & Hdr & _).
  pose proof (di_row _ _ Hinv _ _ Hf) as Hok.
  destruct (row_ok_delivered True (fun o => ~ drawn db o) f now I Hok Hs Hdel) as [He Hok'].
  destruct (change_row runtime True db db flow_id f (f <| g_token_delivered_at := Some now |>)) as [Hi Hev];
    auto using evolves_refl.
  { split; [by left|]. by right. }
  { intros o Ho. by apply (di_owner _ _ Hinv flow_id f). }
  split.
  - match type of Hi with db_inv _ ?d => destruct (frame_inv_eq runtime False d db') as [Hdb _] end;
      [exact Hrows|exact Hses|rewrite Hdr; apply N.le_refl|exact Hi|exact Hdb].
  - destruct Hev as [E1 E2]. split; [by rewrite Hdr|]. intros id f'. rewrite Hrows. apply E2.
Qed.

Lemma redeem_inv flow_id principal path request delivery_id token now db capabilities pubky result db' :
  redeem_claim runtime flow_id principal path request delivery_id token now db =
    Some (capabilities, pubky, result, db') ->
  db_inv runtime db -> db_inv runtime db' /\ evolves False db db'.
Proof.
  intros Hr Hinv.
  apply redeem_spec in Hr as (f & sealed & expires & Hf & Hs & Hc & Hd & _ & _ & _ & _ & _ & _ & Hrows & Hses & Hdr & _).
  pose proof (di_row _ _ Hinv _ _ Hf) as Hok.
  destruct (row_ok_claimed False (fun o => ~ drawn db o) f now Hok Hs Hc Hd) as [He Hok'].
  destruct (change_row runtime False db db flow_id f (claimed now f)) as [Hi Hev]; auto using evolves_refl.
  { split; [by left|by left]. }
  { intros o Ho. by apply (di_owner _ _ Hinv flow_id f). }
  split.
  - match type of Hi with db_inv _ ?d => destruct (frame_inv_eq runtime False d db') as [Hdb _] end;
      [exact Hrows|exact Hses|rewrite Hdr; apply N.le_refl|exact Hi|exact Hdb].
  - destruct Hev as [E1 E2]. split; [by rewrite Hdr|]. intros id f'. rewrite Hrows. apply E2.
Qed.
Lemma world_ticket now db db' phases tickets claims accepted flow_id principal path request delivery_id token expires :
  deliver_ticket runtime flow_id principal path request delivery_id now db = Some (token, expires, db') ->
  world_inv config runtime (mkAuthWorld now db phases tickets claims accepted) ->
  world_inv config runtime (mkAuthWorld now db' phases (tickets ++ [flow_id]) claims accepted).
Proof.
  intros Hd [W1 W2 W3 W4 W5 W6 W7 W8 W9 W10 W11 W12]. simpl in *.
  destruct (deliver_inv _ _ _ _ _ _ _ _ _ _ Hd W1) as [Hdb He].
  apply deliver_spec in Hd as (f & Hf & Hs & Hdel & Hrows & _ & _ & Hu).
  destruct (phases_kept True db db' phases He W2 (fun p Hp f => W3 p f Hp)) as [P1 P2].
  destruct (logs_kept True db db' tickets claims He W4 W8 W5 W7) as (L1 & L2 & L3).
  assert (Hnew : flow_id ∉ tickets).
  { intros Hin. destruct (W5 _ _ Hin Hf). congruence. }
  split; simpl; auto.
  - intros p g Hp. by apply P2.
  - intros id [Hid| ->%list_elem_of_singleton]%elem_of_app; [by apply L1|].
    eapply drawn_mono; [apply He|]. by apply (di_id _ _ W1 flow_id f).
  - intros id g [Hid| ->%list_elem_of_singleton]%elem_of_app; [by apply L2|].
    rewrite Hrows, lookup_insert_eq. intros [= <-]. by exists now.
  - intros id g. rewrite Hrows. intros [[<- _]|[_ Hg]]%lookup_insert_Some Hsome; apply elem_of_app;
      [right; by apply list_elem_of_singleton|left; by apply (W6 id g)].
  - intros id Hid. apply elem_of_app. auto.
  - apply list.NoDup_app. split; [done|]. split; [|apply NoDup_singleton].
    by intros id Hin ->%list_elem_of_singleton.
  - intros use Hin. unfold use_kept. rewrite Hu. by apply W11.
Qed.

Lemma world_claim now db db' phases tickets claims accepted flow_id principal path request delivery_id token
    capabilities pubky result :
  redeem_claim runtime flow_id principal path request delivery_id token now db =
    Some (capabilities, pubky, result, db') ->
  world_inv config runtime (mkAuthWorld now db phases tickets claims accepted) ->
  world_inv config runtime (mkAuthWorld now db' phases tickets (claims ++ [flow_id]) accepted).
Proof.
  intros Hr W. destruct (redeem_inv _ _ _ _ _ _ _ _ _ _ _ _ Hr (wi_db _ _ _ W)) as [Hdb He].
  apply redeem_spec in Hr as (f & sealed & expires & Hf & Hs & Hc & Hd & _ & _ & _ & _ & _ & _ & Hrows & _ & _ & Hu).
  pose proof (wi_claim _ _ _ W flow_id f) as Hlog. pose proof (wi_delivered _ _ _ W flow_id f Hf Hd) as Hin.
  destruct (world_step now db db' phases tickets claims accepted Hdb He Hu W) as [W1 W2 W3 W4 W5 W6 W7 W8 W9 W10 W11 W12].
  simpl in *. split; simpl; auto.
  - intros id g [Hid| ->%list_elem_of_singleton]%elem_of_app; [by apply W7|].
    rewrite Hrows, lookup_insert_eq. intros [= <-]. by exists now.
  - intros id [Hid| ->%list_elem_of_singleton]%elem_of_app; auto.
  - apply list.NoDup_app. split; [done|]. split; [|apply NoDup_singleton].
    intros id Hin' ->%list_elem_of_singleton. destruct (Hlog Hin' Hf). congruence.
Qed.

(** New leases match the rows they were read from. *)
Lemma world_acquire locked now db leases db' phases tickets claims accepted :
  acquire_flows (gr_config runtime) locked now db = (leases, db') ->
  world_inv config runtime (mkAuthWorld now db phases tickets claims accepted) ->
  world_inv config runtime (mkAuthWorld now db' (phases ++ map Leased leases) tickets claims accepted).
Proof.
  intros Ha W. destruct (acquire_inv runtime False draws_fresh locked now db (wi_db _ _ _ W)) as (Hdb & He & Hdr).
  assert (Hu : auth_token_uses (snd (acquire_flows (gr_config runtime) locked now db)) = auth_token_uses db).
  { unfold acquire_flows. simpl. by rewrite foldl_uses. }
  rewrite Ha in Hdb, He, Hdr, Hu. simpl in *.
  pose proof (wi_db _ _ _ W) as Hinv. simpl in Hinv.
  destruct (world_step now db db' phases tickets claims accepted Hdb He Hu W) as [W1 W2 W3 W4 W5 W6 W7 W8 W9 W10 W11 W12].
  assert (Hnew : forall lease, lease ∈ leases -> fl_lease_owner lease = new_v4 (auth_draws db) /\
    exists f, grant_flows db !! fl_flow_id lease = Some f /\ lease_matches lease f).
  { intros lease Hin. unfold acquire_flows in Ha. injection Ha as <- _.
    apply list_elem_of_In, in_map_iff in Hin as ([k f] & <- & Hin). split; [done|]. exists f.
    unfold due_flows in Hin.
    edestruct (selected_rows expires_first) as [_ Hl]. destruct (Hl k f) as [Hk _];
      [apply list_elem_of_In; exact Hin|]. by repeat split. }
  split; simpl in *; auto.
  - intros p [Hp|Hp]%elem_of_app; [by apply W2|].
    apply list_elem_of_In, in_map_iff in Hp as (lease & <- & Hin%list_elem_of_In). simpl.
    destruct (Hnew lease Hin) as [-> _]. exists (auth_draws db). rewrite Hdr. split; [lia|done].
  - intros p f' [Hp|Hp]%elem_of_app; [by apply W3|].
    apply list_elem_of_In, in_map_iff in Hp as (lease & <- & Hin%list_elem_of_In). simpl. intros Hf' _.
    destruct (Hnew lease Hin) as (_ & f & Hf & M1 & M2 & M3 & M4).
    destruct (ev_row _ _ _ He _ _ Hf') as [(f0 & Hf0 & Hedge)|(Hn & _)].
    + rewrite Hf in Hf0. injection Hf0 as <-. pose proof (re_identity _ _ _ _ Hedge) as I.
      unfold flow_identity in I. injection I as I1 I2 I3 I4 I5 I6 I7 I8 I9 I10. repeat split; congruence.
    + destruct Hn. by apply (di_id _ _ Hinv _ f).
Qed.

(** The phase a worker goes on with has the lease it came from. *)
Lemma process_lease_next phase event now db next db' :
  process_lease runtime phase event now db = (next, db') ->
  forall p, p ∈ option_list next -> fl_flow_id (phase_lease p) = fl_flow_id (phase_lease phase) /\
    fl_lease_owner (phase_lease p) = fl_lease_owner (phase_lease phase) /\
    forall f, lease_matches (phase_lease phase) f -> lease_matches (phase_lease p) f.
Proof.
  assert (Hsame : forall p, p ∈ option_list (Some phase) -> fl_flow_id (phase_lease p) = fl_flow_id (phase_lease phase) /\
    fl_lease_owner (phase_lease p) = fl_lease_owner (phase_lease phase) /\
    forall f, lease_matches (phase_lease phase) f -> lease_matches (phase_lease p) f).
  { by intros p ->%list_elem_of_singleton. }
  intros Hp. destruct phase as [lease|lease started|lease approved requested], event; simpl in Hp;
    try (injection Hp as <- _; first [exact Hsame | by intros p ?%not_elem_of_nil]).
  - destruct (_ =? 0); injection Hp as <- _; [by intros p ?%not_elem_of_nil|].
    by intros p ->%list_elem_of_singleton.
  - destruct (enter_exchanging _ _ _ _) as [[] d]; injection Hp as <- _; [|by intros p ?%not_elem_of_nil].
    by intros p ->%list_elem_of_singleton.
  - destruct (exchange_error error). injection Hp as <- _. by intros p ?%not_elem_of_nil.
Qed.

Lemma world_lease event now db before phase after next db' tickets claims accepted :
  process_lease runtime phase event now db = (next, db') ->
  world_inv config runtime (mkAuthWorld now db (before ++ phase :: after) tickets claims accepted) ->
  world_inv config runtime (mkAuthWorld now db' (before ++ option_list next ++ after) tickets claims accepted).
Proof.
  intros Hp W. assert (Hin : phase ∈ before ++ phase :: after) by (apply elem_of_app; right; by left).
  pose proof (process_lease_next _ _ _ _ _ _ Hp) as Hnext.
  destruct (process_lease_inv runtime False phase event now db) as [Hdb He].
  { intros f. by apply (wi_lease _ _ _ W). }
  { apply (wi_db _ _ _ W). }
  pose proof (process_lease_uses phase event now db) as Hu. rewrite Hp in Hdb, He, Hu. simpl in *.
  destruct (world_step now db db' _ tickets claims accepted Hdb He Hu W) as [W1 W2 W3 W4 W5 W6 W7 W8 W9 W10 W11 W12].
  simpl in *.
  assert (Hold : forall p, p ∈ before ++ option_list next ++ after ->
            p ∈ before ++ phase :: after \/ p ∈ option_list next).
  { intros p. rewrite !elem_of_app, elem_of_cons. tauto. }
  split; simpl; auto.
  - intros p [Hp'|Hp']%Hold; [by apply W2|]. destruct (Hnext p Hp') as (_ & -> & _). by apply W2.
  - intros p f [Hp'|Hp']%Hold; [by apply W3|]. destruct (Hnext p Hp') as (-> & -> & Hm). intros Hf Ho.
    apply Hm. by apply W3.
Qed.

Lemma world_inv_step w w' : auth_step config runtime w w' -> world_inv config runtime w -> world_inv config runtime w'.
Proof.
  intros Hs W. destruct Hs as [now now' db phases tickets claims accepted Hle|now db db' phases tickets claims accepted Hop|
    now db body response db' phases tickets claims accepted Hc| | | | |].
  - destruct W as [W1 W2 W3 W4 W5 W6 W7 W8 W9 W10 W11 W12]. simpl in *. split; simpl; auto.
    intros use Hin. destruct (W11 use Hin) as (at_ & H1 & H2 & H3). exists at_. split; [lia|]. split; [done|].
    destruct H3; [by left|right; lia].
  - destruct (db_op_inv _ _ _ Hop (wi_db _ _ _ W)) as [Hdb He].
    revert W. apply world_step; [done|done|]. by eapply db_op_uses.
  - destruct (create_session_inv config runtime False body now db (wi_db _ _ _ W)) as [Hdb He].
    rewrite Hc in Hdb, He. simpl in *.
    destruct (create_session_uses body now db response db' accepted Hc (wi_uses _ _ _ W) (wi_accepted _ _ _ W)) as [U1 U2].
    destruct (phases_kept False db db' phases He (wi_owner _ _ _ W) (fun p Hp f => wi_lease _ _ _ W p f Hp)) as [P1 P2].
    destruct (logs_kept False db db' tickets claims He (wi_drawn _ _ _ W) (wi_order _ _ _ W) (wi_ticket _ _ _ W)
      (wi_claim _ _ _ W)) as (L1 & L2 & L3).
    pose proof (create_session_flows body now db) as Hfl. rewrite Hc in Hfl. simpl in Hfl.
    destruct W as [W1 W2 W3 W4 W5 W6 W7 W8 W9 W10 W11 W12]. simpl in *. split; simpl; auto.
    + intros p f Hp. by apply P2.
    + intros id f. rewrite Hfl. apply W6.
  - by eapply world_ticket.
  - by eapply world_claim.
  - by eapply world_acquire.
  - by eapply world_lease.
  - destruct W as [W1 W2 W3 W4 W5 W6 W7 W8 W9 W10 W11 W12]. simpl in *.
    assert (Hold : forall p, p ∈ before ++ after -> p ∈ before ++ phase :: after).
    { intros p. rewrite !elem_of_app, elem_of_cons. tauto. }
    split; simpl; auto.
Qed.

Lemma world_inv_start : world_inv config runtime auth_start.
Proof.
  split; simpl; try (by intros ? ?%not_elem_of_nil); try (by intros ? ? ?%not_elem_of_nil);
    try apply NoDup_nil_2; try done.
Qed.

Lemma reachable_inv w : auth_reachable config runtime w -> world_inv config runtime w.
Proof.
  intros Hr. unfold auth_reachable in Hr. pose proof world_inv_start as W. revert W.
  generalize Hr. clear Hr. intros Hr. induction Hr; eauto using world_inv_step.
Qed.
Lemma step_evolves w w' :
  auth_step config runtime w w' -> world_inv config runtime w -> exists served, evolves served (w_db w) (w_db w').
Proof.
  intros Hs W. pose proof (wi_db _ _ _ W) as Hinv. destruct Hs; simpl in *.
  - exists False. apply evolves_refl.
  - exists False. by eapply db_op_inv.
  - exists False. destruct (create_session_inv config runtime False body now db Hinv) as [_ He].
    match goal with E : create_session _ _ _ _ = _ |- _ => by rewrite E in He end.
  - exists True. by eapply deliver_inv.
  - exists False. by eapply redeem_inv.
  - exists False. destruct (acquire_inv runtime False draws_fresh locked now db Hinv) as (_ & He & _).
    match goal with E : acquire_flows _ _ _ _ = _ |- _ => by rewrite E in He end.
  - exists False. destruct (process_lease_inv runtime False phase event now db) as [_ He]; [|done|].
    + intros f. apply (wi_lease _ _ _ W). apply elem_of_app. right. by left.
    + match goal with E : process_lease _ _ _ _ _ = _ |- _ => by rewrite E in He end.
  - exists False. apply evolves_refl.
Qed.

(** ** Handlers are runs *)

Definition serves (response : HttpResponse) (flow_id : Uuid) : list Uuid :=
  if rp_status response =? 200 then [flow_id] else [].

Section Handlers.
Context (now : Time) (phases : list LeasePhase) (tickets claims : list Uuid) (accepted : list (Pubky * Z)).

Definition at_db (db : AuthDb) : AuthWorld := mkAuthWorld now db phases tickets claims accepted.

Lemma run_op db db' : db_op config runtime now db db' -> rtc (auth_step config runtime) (at_db db) (at_db db').
Proof. intros Hop. apply rtc_once. by constructor. Qed.

Lemma run_rates principal flow_id db :
  rtc (auth_step config runtime) (at_db db) (at_db (snd (admit_result_rates runtime principal flow_id now db))).
Proof.
  unfold admit_result_rates. set (limit := gc_result_per_principal_per_minute _).
  pose proof (run_op db _ (op_rate config runtime now db "result_principal" principal limit)) as H1.
  destruct (admit_rate runtime "result_principal" principal limit now db) as [[[]|] db1]; [|exact H1|exact H1].
  etransitivity; [exact H1|]. apply run_op. constructor.
Qed.

(** The common start of the result endpoints. *)
Lemma run_enter {T} endpoint path flow_id signatures body (read : Read T) valid db :
  rtc (auth_step config runtime) (at_db db)
    (at_db (snd (enter_result (Some runtime) endpoint path flow_id signatures body read valid now db))) /\
  forall response, fst (enter_result (Some runtime) endpoint path flow_id signatures body read valid now db) =
    inr response -> serves response flow_id = [].
Proof.
  unfold enter_result. destruct (verify_service_request _ _ _ _) as [[principal value]|];
    [|split; [done|by intros r [= <-]]].
  pose proof (run_rates principal flow_id db) as Hr.
  destruct (admit_result_rates _ _ _ _ _) as [admitted db1]. simpl in Hr.
  destruct (rate_gate admitted) as [response|] eqn:Hg.
  { split; [done|]. intros r [= <-]. destruct admitted as [[]|]; simpl in Hg; by simplify_eq. }
  destruct (read value) as [request|]; [|split; [done|by intros r [= <-]]].
  destruct (valid request) as [request_id|]; [|split; [done|by intros r [= <-]]].
  pose proof (run_op db1 _ (op_request config runtime now db1 principal endpoint request_id)) as Hq.
  destruct (consume_service_request _ _ _ _ _) as [[] db2];
    (split; [by etransitivity|by intros r [= <-]]).
Qed.
End Handlers.

Lemma enter_runtime {T} endpoint path flow_id signatures body (read : Read T) valid now db r principal request db1 :
  enter_result (Some runtime) endpoint path flow_id signatures body read valid now db =
    (inl (r, principal, request), db1) -> r = runtime.
Proof.
  unfold enter_result. destruct (verify_service_request _ _ _ _) as [[pr value]|]; [|done].
  destruct (admit_result_rates _ _ _ _ _) as [admitted d]. destruct (rate_gate admitted); [done|].
  destruct (read value) as [q|]; [|done]. destruct (valid q); [|done].
  destruct (consume_service_request _ _ _ _ _) as [[] d2]; [|done]. by intros [= <- _ _ _].
Qed.

(** [claim_result] serves when it answers 200. *)
Lemma claim_result_run flow_id signatures body now db response db' phases tickets claims accepted :
  claim_result (Some runtime) flow_id signatures body now db = (response, db') ->
  rtc (auth_step config runtime) (mkAuthWorld now db phases tickets claims accepted)
    (mkAuthWorld now db' phases tickets (claims ++ serves response flow_id) accepted).
Proof.
  unfold claim_result. set (path := flow_path flow_id "claim").
  destruct (run_enter now phases tickets claims accepted "claim" path flow_id signatures body
    read_claim_request (valid_result_request path) db) as [Hrun Hno].
  destruct (enter_result _ _ _ _ _ _ _ _ _ _) as [[[[r principal] request]|resp] db1] eqn:He; simpl in *.
  2: { intros [= <- <-]. rewrite (Hno resp eq_refl), app_nil_r. exact Hrun. }
  rewrite (enter_runtime _ _ _ _ _ _ _ _ _ _ _ _ _ He).
  match goal with |- context [match ?x with _ => _ end] => destruct x as [[[[caps pubky] result] db2]|] eqn:Hred end.
  - intros [= <- <-]. simpl. apply bind_Some in Hred as (delivery_id & _ & Hred).
    apply bind_Some in Hred as (token & _ & Hred).
    etransitivity; [exact Hrun|]. apply rtc_once. by eapply step_claim.
  - intros [= <- <-]. simpl. rewrite app_nil_r. exact Hrun.
Qed.

(** So does [result_ticket]. *)
Lemma result_ticket_run flow_id signatures body now db response db' phases tickets claims accepted :
  result_ticket (Some runtime) flow_id signatures body now db = (response, db') ->
  rtc (auth_step config runtime) (mkAuthWorld now db phases tickets claims accepted)
    (mkAuthWorld now db' phases (tickets ++ serves response flow_id) claims accepted).
Proof.
  unfold result_ticket. set (path := flow_path flow_id "result-ticket").
  destruct (run_enter now phases tickets claims accepted "ticket" path flow_id signatures body
    read_ticket_request (valid_result_request path) db) as [Hrun Hno].
  destruct (enter_result _ _ _ _ _ _ _ _ _ _) as [[[[r principal] request]|resp] db1] eqn:He; simpl in *.
  2: { intros [= <- <-]. rewrite (Hno resp eq_refl), app_nil_r. exact Hrun. }
  rewrite (enter_runtime _ _ _ _ _ _ _ _ _ _ _ _ _ He).
  match goal with |- context [match ?x with _ => _ end] => destruct x as [[[token expires] db2]|] eqn:Hred end.
  - intros [= <- <-]. simpl. apply bind_Some in Hred as (delivery_id & _ & Hred).
    etransitivity; [exact Hrun|]. apply rtc_once. by eapply step_ticket.
  - intros [= <- <-]. simpl. rewrite app_nil_r. exact Hrun.
Qed.
(** What stays of a row along a run. *)
Definition finished (f : FlowRow) : bool := negb (bool_decide (g_status f ∈ [FAwaiting; FVerifying])).

Record later (f f' : FlowRow) : Prop := {
  lt_identity : flow_identity f' = flow_identity f;
  lt_status : finished f = true -> g_status f' = g_status f;
  lt_delivered : forall t, g_token_delivered_at f = Some t -> g_token_delivered_at f' = Some t;
  lt_claimed : forall t, g_claimed_at f = Some t -> g_claimed_at f' = Some t;
}.

Lemma later_edge served fresh f g g' : later f g -> row_edge served fresh g g' -> later f g'.
Proof.
  intros [H1 H2 H3 H4] [E1 E2 E3 E4 E5 E6]. split.
  - congruence.
  - intros Hfin. specialize (H2 Hfin). unfold finished in Hfin. rewrite <- H2 in Hfin |- *.
    destruct (g_status g), (g_status g'); done.
  - intros t Ht. apply H3 in Ht. destruct E4 as [E4|[_ E4]]; congruence.
  - auto.
Qed.

(** A flow that ended, however it ended, stays as it ended: over any further
    run its row keeps its identity, its final status, and the instants its
    ticket and its claim were served, until it is purged. *)
Theorem finished_flow_final w w' id f f' :
  auth_reachable config runtime w -> rtc (auth_step config runtime) w w' ->
  grant_flows (w_db w) !! id = Some f -> grant_flows (w_db w') !! id = Some f' -> later f f'.
Proof.
  intros Hr Hrun Hf. revert f'.
  enough (Hall : world_inv config runtime w' /\ drawn (w_db w') id /\
            forall f', grant_flows (w_db w') !! id = Some f' -> later f f') by apply Hall.
  apply reachable_inv in Hr. revert w' Hrun. apply rtc_ind_r.
  - split; [done|]. split; [by apply (di_id _ _ (wi_db _ _ _ Hr) id f)|]. intros f' Hf'.
    rewrite Hf in Hf'. injection Hf' as <-. by split.
  - intros w1 w2 _ Hs (W & Hd & Hl). destruct (step_evolves _ _ Hs W) as [served He].
    split; [by eapply world_inv_step|]. split; [by eapply drawn_mono; [apply He|]|].
    intros f2 Hf2. destruct (ev_row _ _ _ He _ _ Hf2) as [(f1 & Hf1 & Hedge)|(Hn & _)]; [|done].
    eapply later_edge; [by apply Hl|exact Hedge].
Qed.

(** C15. Every row a run reaches has the columns of its status: the sealed state
    while the grant is awaited or verified, a lease exactly while it is
    verified, the sealed result and the token's hash together and only while a
    complete flow is unclaimed, no secret in any other status.  A complete flow
    was approved by the expected pubky, a mismatch by another one, and one that
    is awaited, expired or was cancelled by nobody; while a flow is verified,
    and after it ended invalid or failed, the column may name any pubky. *)
Theorem flow_secrets_bounded w id f :
  auth_reachable config runtime w -> grant_flows (w_db w) !! id = Some f -> row_ok f.
Proof. intros Hr Hf. apply reachable_inv in Hr. exact (di_row _ _ (wi_db _ _ _ Hr) id f Hf). Qed.

(** C12. However requests, workers and the reaper interleave, a flow's ticket is
    served once and its claim once, after the ticket; a claim the handler
    answers with 200 is the first for its flow. *)
Theorem result_served_once w flow_id signatures body response db' :
  auth_reachable config runtime w ->
  claim_result (Some runtime) flow_id signatures body (w_now w) (w_db w) = (response, db') ->
  base.NoDup (w_tickets w) /\ base.NoDup (w_claims w) /\ w_claims w ⊆ w_tickets w /\
  (rp_status response = 200 -> (flow_id ∉ w_claims w) /\ flow_id ∈ w_tickets w).
Proof.
  intros Hr Hc. destruct w as [now db phases tickets claims accepted]. simpl in *.
  pose proof (reachable_inv _ Hr) as W. destruct (reachable_inv (mkAuthWorld now db' phases tickets
    (claims ++ serves response flow_id) accepted)) as [_ _ _ _ _ _ _ Hord _ Hnd _ _].
  { unfold auth_reachable in *. etransitivity; [exact Hr|]. by apply claim_result_run with signatures body. }
  simpl in *. split; [apply (wi_tickets _ _ _ W)|]. split; [apply (wi_claims _ _ _ W)|].
  split; [exact (wi_order _ _ _ W)|]. intros Hst. unfold serves in Hnd, Hord. rewrite Hst in Hnd, Hord. simpl in *.
  split.
  - intros Hin. apply list.NoDup_app in Hnd as (_ & Hdis & _). apply (Hdis flow_id Hin). by left.
  - apply Hord, elem_of_app. right. by left.
Qed.

(** C14. An AuthToken, known by its signer and instant, opens one session: over any
    run at times that do not go back, the pruning of old uses included, no
    token is accepted twice. *)
Theorem token_accepted_once w :
  auth_reachable config runtime w -> base.NoDup (w_accepted w).
Proof. intros Hr. apply reachable_inv in Hr. apply (wi_accepted _ _ _ Hr). Qed.

Context `{SCL : !SealCratesLaws}.
Hypothesis codec_law : forall r, read_result (result_text r) = Some r.

Lemma open_linked db id f sealed result :
  result_linked runtime db id f sealed ->
  open_result runtime id (g_result_cpk f) (g_key_epoch f) sealed = Some result ->
  exists row granted, auth_sessions db !! hash_token (sr_bearer result) = Some row /\
    g_session_id f = Some (se_session_id row) /\ se_pubky row = g_expected_pubky f /\
    se_expires_at row = sr_session_expires_at result /\
    se_capabilities row = capabilities_text granted /\ allowlisted granted = true /\
    g_token_expires_at f = Some (se_created_at row + seconds 60) /\
    se_expires_at row = se_created_at row + seconds (gc_session_ttl_seconds (gr_config runtime)).
Proof.
  intros (draw & res & key & aad & row & granted & Haad & Hkey & -> & Hrest).
  unfold open_result. rewrite Haad. simpl. rewrite Hkey. simpl. rewrite open_own_seal. simpl.
  rewrite codec_law. simpl. destruct (_ && _); [|done]. intros [= <-]. exists row, granted. exact Hrest.
Qed.

(** The session of a flow is the one with its id. *)
Lemma flow_capabilities_unique db f h row capabilities :
  links runtime db -> auth_sessions db !! h = Some row -> g_session_id f = Some (se_session_id row) ->
  flow_capabilities f db = Some capabilities -> se_capabilities row = capabilities.
Proof.
  intros HL Hrow Hsid. unfold flow_capabilities. rewrite Hsid. intros E.
  apply fmap_Some in E as (r & Hfind & ->). apply find_some in Hfind as [Hin Hid%N.eqb_eq].
  apply in_map_iff in Hin as ([h' r'] & <- & Hin). simpl in *.
  apply list_elem_of_In, elem_of_map_to_list in Hin.
  assert (h' = h) as -> by (by eapply (lk_unique _ _ HL h' h r' row)). congruence.
Qed.

(** C13. The bearer a claim hands out is the key of the session of the pubky the
    flow was created for: it is stored by the bearer's hash with the answered
    capabilities, all inside the two scopes a grant may cover.  The session
    began less than sixty seconds before the claim, and unless it is revoked
    the bearer resolves to it at exactly the instants before the configured
    time to live has passed since it began (so a time to live under a minute
    can be over by the time of the claim). *)
Theorem claimed_bearer_opens_session w flow_id principal path request delivery_id token
    capabilities pubky result db' :
  auth_reachable config runtime w ->
  redeem_claim runtime flow_id principal path request delivery_id token (w_now w) (w_db w) =
    Some (capabilities, pubky, result, db') ->
  exists row granted, auth_sessions db' !! hash_token (sr_bearer result) = Some row /\
    se_pubky row = pubky /\ se_capabilities row = capabilities /\
    capabilities = capabilities_text granted /\ allowlisted granted = true /\
    (exists f, grant_flows (w_db w) !! flow_id = Some f /\ g_expected_pubky f = pubky) /\
    w_now w < se_created_at row + seconds 60 /\
    forall t, resolve_active_session (sr_bearer result) t db' =
      if bool_decide (se_revoked_at row = None) &&
         (t <? se_created_at row + seconds (gc_session_ttl_seconds (gr_config runtime)))
      then Some (mkAuthSession pubky capabilities (hash_token (sr_bearer result)))
      else None.
Proof.
  intros Hr Hc. apply reachable_inv in Hr. pose proof (di_links _ _ (wi_db _ _ _ Hr)) as HL.
  apply redeem_spec in Hc as (f & sealed & expires & Hf & _ & _ & _ & Hpay & Hexp & Hlt & Hopen & Hcaps & -> & _ & Hses & _).
  destruct (open_linked (w_db w) flow_id f sealed result (lk_result _ _ HL _ _ _ Hf Hpay) Hopen)
    as (row & granted & Hrow & Hsid & Hpk & _ & Hg & Hal & Hte & Hse).
  pose proof (flow_capabilities_unique _ _ _ _ _ HL Hrow Hsid Hcaps) as Hcap.
  exists row, granted. rewrite Hses. split; [done|]. split; [done|]. split; [done|]. split; [congruence|].
  split; [done|]. split; [eauto|]. split; [rewrite Hexp in Hte; by injection Hte as ->|].
  intros t. unfold resolve_active_session. rewrite Hses, Hrow. simpl. unfold session_active. rewrite Hse.
  rewrite andb_comm. destruct (_ && _); [|done]. by rewrite Hpk, Hcap.
Qed.
End Runs.

(** ** A flow from its assertion to its claim *)

Definition flow_locks_crates : LocksCrates := {|
  blake3_hash := sample_hash;
  to_hex := fun _ => "";
  hmac_sha256 := fun _ _ => pad32 "hmac";
  minted := fun _ => "reference";
  minted_ascii := sample_minted_ascii;
  public_key := Some;
  canonicalize := fun _ => Some "{}";
  parse_from_rfc3339 := fun _ => None;
  clock_text := fun _ => "";
  rfc3339_seconds := fun _ => "";
  offset_text := fun _ => "";
|}.

(** The nonce is not used, and the tag is a letter. *)
Definition flow_seal_crates : SealCrates := {|
  encrypt := fun _ _ _ plaintext => "t" +:+ plaintext;
  decrypt := fun _ _ _ ciphertext => strip_prefix "t" ciphertext;
  fill_bytes := fun _ => "nnnnnnnnnnnnnnnnnnnnnnnn";
|}.

#[local] Existing Instance sample_crate.
#[local] Existing Instance flow_locks_crates.
#[local] Existing Instance flow_seal_crates.

#[local] Instance flow_seal_laws : SealCratesLaws.
Proof. split; [|done|done]. intros key nonce aad plaintext. apply strip_prefix_app. Qed.

Definition flow_inventory : InventoryCrates := {|
  parse_capabilities := fun _ => Some [mkCapability INVENTORY_SERVICE_SCOPE [ARead; AWrite]];
  scope_covers_path := fun _ _ => true;
  parse_uuid := fun s => find (fun n => pretty n =? s)%string [1008; 1010; 7; 8]%N;
  sha256_hex := fun s => s;
|}.

Definition flow_auth_crates : AuthCrates := {|
  verify_token := fun _ => Some (mkAuthToken alice 5000000 "caps");
  sha256 := pad32;
  b64_encode := fun s => s;
  b64_decode := Some;
  random32 := fun n => pad32 (pretty n);
  format_timestamp := fun t => pretty t;
  jsonb_text := fun _ => "{}";
|}.

#[local] Existing Instance flow_inventory.
#[local] Existing Instance flow_auth_crates.
#[local] Instance flow_capability_crate : CapabilityCrate :=
  {| normalize := fun l => l; capabilities_text := fun _ => "caps" |}.
#[local] Instance flow_grant_crates : GrantCrates :=
  {| verify_strict := fun _ _ _ => true; hkdf_expand := fun _ _ _ => "key"; parse_public_key := Some;
     pubky_key := Some |}.

#[local] Instance flow_codec : ResultCodec := {|
  result_text := fun r => bits_text (encode (sr_version r, sr_bearer r, sr_result_token r, sr_session_expires_at r));
  read_result := fun s =>
    (fun '(v, b, t, e) => mkSealedResult v b t e) <$> (decode (bits_read s) : option (Z * string * string * Z));
|}.

Lemma flow_codec_law r : read_result (result_text r) = Some r.
Proof. simpl. rewrite bits_read_text, decode_encode. by destruct r. Qed.

Lemma sample_draws_fresh a b : new_v4 (UuidCrate := sample_crate) a = new_v4 b -> a = b.
Proof. simpl. lia. Qed.

Definition flow_runtime : GrantRuntime :=
  mkGrantRuntime
    (mkGrantConfig "client" "relay" 600 60 30 10 10%nat 10%nat 3600 60 60 60 60 "issuer" 86400)
    (mkKeyRing (mkKeySlot 1 "enc") None) (mkKeyRing (mkKeySlot 1 "hash") None)
    (mkVerifyRing (mkVerifySlot "kid" "vk") None) (mkVerifyRing (mkVerifySlot "bff" "vk") None).

Definition flow_config : AuthConfig := mkAuthConfig 60 86400 60 2.

Definition flow_proof (nonce_id nonce : string) : ResultProof := mkProof 0 nonce nonce_id (pad32 "s" +:+ pad32 "s").

Definition ticket_request : ResultRequest :=
  mkResultRequest "POST" (flow_path 1000 "result-ticket") (flow_proof "1008" (pad32 "7")) "7" (pad32 "d") "".

Definition claim_request : ResultRequest :=
  mkResultRequest "POST" (flow_path 1000 "claim") (flow_proof "1010" (pad32 "9")) "8" (pad32 "d") (pad32 "t").

Definition proof_json (p : ResultProof) : Json :=
  JObject [("issued_at", JInt (pf_issued_at p)); ("nonce", JString (pf_nonce p));
           ("nonce_id", JString (pf_nonce_id p)); ("signature", JString (pf_signature p))].

Definition claim_json : Json :=
  JObject [("method", JString "POST"); ("path", JString (rq_path claim_request));
           ("proof", proof_json (rq_proof claim_request)); ("request_id", JString "8");
           ("result_delivery_id", JString (pad32 "d")); ("result_token", JString (pad32 "t"))].

Definition flow_json : JsonText := {|
  to_vec := fun _ => "{}";
  from_slice := fun _ => Some claim_json;
  parse_datetime := fun _ => Some 0;
|}.
#[local] Existing Instance flow_json.

Definition flow_world (db : AuthDb) (phases : list LeasePhase) (tickets : list Uuid) : AuthWorld :=
  mkAuthWorld 0 db phases tickets [] [].

Definition flow_row : FlowRow :=
  new_flow flow_runtime (mkVerifiedAssertion 7 alice buyer_key "d") alice (mkStarted "url" "cpk" JNull) "state"
    (pad32 "hmac") 0.

Definition flow_db1 : AuthDb := Eval vm_compute in
  snd (insert_flow (gr_config flow_runtime) (new_v4 0) flow_row 0 (upd auth_draws (N.add 2) empty_auth_db)).

(** Leased by the third draw for a minute. *)
Definition flow_lease : FlowLease := Eval vm_compute in lease_of 1000 1002 60000000 flow_row.

Definition flow_db2 : AuthDb := Eval vm_compute in
  snd (acquire_flows (gr_config flow_runtime) (fun _ => false) 0 flow_db1).

Definition flow_exchanging : LeasePhase := Eval vm_compute in
  Exchanging (exchanging_lease flow_lease 60000000) alice "caps".

Definition flow_db3 : AuthDb := Eval vm_compute in
  snd (process_lease flow_runtime (Polling flow_lease 0) (ClaimsReceived alice "caps") 0 flow_db2).

Definition flow_db4 : AuthDb := Eval vm_compute in
  snd (process_lease flow_runtime flow_exchanging (SessionVerified alice "caps") 0 flow_db3).

(** The nonce of the next two draws. *)
Definition with_nonce (purpose : string) (db : AuthDb) : AuthDb :=
  default db (insert_nonce 1000 purpose "bff" (new_v4 (N.succ (auth_draws db))) (random32 (auth_draws db)) 0
    (upd auth_draws (N.add 2) db)).

Definition flow_db5 : AuthDb := Eval vm_compute in with_nonce "ticket" flow_db4.

Definition flow_ticket : option (string * Time * AuthDb) := Eval vm_compute in
  deliver_ticket flow_runtime 1000 "bff" (rq_path ticket_request) ticket_request (pad32 "d") 0 flow_db5.

Definition flow_db6 : AuthDb := Eval vm_compute in
  match flow_ticket with Some (_, _, db) => db | None => flow_db5 end.

Definition flow_db7 : AuthDb := Eval vm_compute in with_nonce "claim" flow_db6.

Definition ticketed : AuthWorld := flow_world flow_db7 [] [1000%N].

Definition flow_claim : HttpResponse * AuthDb :=
  claim_result (Some flow_runtime) 1000 [pad32 "s" +:+ pad32 "s"] "{}" 0 flow_db7.

Lemma ticketed_reachable : auth_reachable flow_config flow_runtime ticketed.
Proof.
  unfold auth_reachable, auth_start.
  eapply rtc_l.
  { apply (step_db flow_config flow_runtime 0 empty_auth_db flow_db1).
    exact (op_flow flow_config flow_runtime 0 empty_auth_db (mkVerifiedAssertion 7 alice buyer_key "d") alice
             (mkStarted "url" "cpk" JNull) "state" (pad32 "hmac")). }
  eapply rtc_l.
  { eapply (step_acquire flow_config flow_runtime (fun _ => false) 0 flow_db1 [flow_lease] flow_db2).
    vm_compute. reflexivity. }
  eapply rtc_l.
  { eapply (step_lease flow_config flow_runtime Begin 0 flow_db2 [] (Leased flow_lease) []
              (Some (Polling flow_lease 0)) flow_db2). vm_compute. reflexivity. }
  eapply rtc_l.
  { eapply (step_lease flow_config flow_runtime (ClaimsReceived alice "caps") 0 flow_db2 []
              (Polling flow_lease 0) [] (Some flow_exchanging) flow_db3). vm_compute. reflexivity. }
  eapply rtc_l.
  { eapply (step_lease flow_config flow_runtime (SessionVerified alice "caps") 0 flow_db3 []
              flow_exchanging [] None flow_db4). vm_compute. reflexivity. }
  eapply rtc_l.
  { eapply (step_db flow_config flow_runtime 0 flow_db4 flow_db5).
    apply (op_nonce flow_config flow_runtime 0 flow_db4 1000 "ticket" "bff"). vm_compute. reflexivity. }
  eapply rtc_l.
  { eapply (step_ticket flow_config flow_runtime 0 flow_db5 1000 "bff" (rq_path ticket_request) ticket_request
              (pad32 "d") _ _ flow_db6). vm_compute. reflexivity. }
  eapply rtc_l.
  { eapply (step_db flow_config flow_runtime 0 flow_db6 flow_db7).
    apply (op_nonce flow_config flow_runtime 0 flow_db6 1000 "claim" "bff"). vm_compute. reflexivity. }
  apply rtc_refl.
Qed.

(** The claim of the sample flow is served. *)
Lemma result_served_once_witness :
  rp_status (fst flow_claim) = 200 /\ (1000%N ∉ w_claims ticketed) /\ 1000%N ∈ w_tickets ticketed.
Proof.
  assert (E : rp_status (fst flow_claim) = 200) by (vm_compute; reflexivity).
  split; [exact E|].
  apply (result_served_once flow_config flow_runtime sample_draws_fresh ticketed 1000
    [pad32 "s" +:+ pad32 "s"] "{}" (fst flow_claim) (snd flow_claim) ticketed_reachable); [|exact E].
  unfold flow_claim. apply surjective_pairing.
Defined.

Definition flow_redeemed : option (string * Pubky * SealedResult * AuthDb) := Eval vm_compute in
  redeem_claim flow_runtime 1000 "bff" (rq_path claim_request) claim_request (pad32 "d") (pad32 "t") 0 flow_db7.

Lemma claimed_bearer_opens_session_witness :
  exists result db row, flow_redeemed = Some ("caps", alice, result, db) /\
    auth_sessions db !! hash_token (sr_bearer result) = Some row /\ se_pubky row = alice.
Proof.
  destruct flow_redeemed as [[[[caps pubky] result] db]|] eqn:E; [|vm_compute in E; discriminate].
  pose proof (f_equal (fun r => match r with Some (c, p, _, _) => (c, p) | None => ("", "") end) E) as Ep.
  vm_compute in Ep. injection Ep as <- <-.
  assert (Hr : redeem_claim flow_runtime 1000 "bff" (rq_path claim_request) claim_request (pad32 "d") (pad32 "t") 0
                 flow_db7 = Some ("caps", "alice", result, db)).
  { rewrite <- E. vm_compute. reflexivity. }
  destruct (claimed_bearer_opens_session flow_config flow_runtime sample_draws_fresh flow_codec_law ticketed 1000
    "bff" (rq_path claim_request) claim_request (pad32 "d") (pad32 "t") "caps" "alice" result db ticketed_reachable Hr)
    as (row & granted & Hrow & Hpk & Hc & _).
  exists result, db, row. split; [reflexivity|]. split; [exact Hrow|exact Hpk].
Defined.

Lemma flow_secrets_bounded_witness :
  exists f, grant_flows (w_db ticketed) !! 1000%N = Some f /\ g_status f = FComplete /\ row_ok f.
Proof.
  destruct (grant_flows (w_db ticketed) !! 1000%N) as [f|] eqn:E; [|vm_compute in E; discriminate].
  exists f. split; [reflexivity|]. split; [vm_compute in E; injection E as <-; reflexivity|].
  apply (flow_secrets_bounded flow_config flow_runtime sample_draws_fresh ticketed 1000 f ticketed_reachable E).
Defined.

(** Purging at once changes nothing of a flow that just ended. *)
Lemma finished_flow_final_witness :
  exists f f', grant_flows (w_db ticketed) !! 1000%N = Some f /\
    grant_flows (purge_nonces 0 flow_db7) !! 1000%N = Some f' /\ later f f'.
Proof.
  destruct (grant_flows (w_db ticketed) !! 1000%N) as [f|] eqn:E; [|vm_compute in E; discriminate].
  exists f, f. split; [reflexivity|]. split; [exact E|].
  apply (finished_flow_final flow_config flow_runtime sample_draws_fresh ticketed
    (flow_world (purge_nonces 0 flow_db7) [] [1000%N]) 1000 f f ticketed_reachable); [|exact E|exact E].
  apply rtc_once, step_db, op_purge_nonces.
Defined.

(** A token of alice's, accepted at its instant. *)
Definition token_body : string := pad32 "b" +:+ pad32 "b" +:+ pad32 "b".

Definition signed_in : AuthWorld :=
  mkAuthWorld 5000000 (snd (create_session flow_config token_body 5000000 empty_auth_db)) [] [] []
    [(alice, 5000000)].

Lemma token_accepted_once_witness :
  rp_status (fst (create_session flow_config token_body 5000000 (w_db signed_in))) = 401 /\
  base.NoDup (w_accepted signed_in).
Proof.
  split; [vm_compute; reflexivity|].
  apply (token_accepted_once flow_config flow_runtime sample_draws_fresh signed_in).
  unfold auth_reachable. eapply rtc_l; [apply (step_time _ _ 0 5000000); discriminate|].
  apply rtc_once.
  exact (step_session flow_config flow_runtime 5000000 empty_auth_db token_body
    (fst (create_session flow_config token_body 5000000 empty_auth_db)) _ [] [] [] []
    (surjective_pairing _)).
Defined.
