(* ===== verification/WebhookContract.v ===== *)
(** * The contract of the event feed and of webhooks

    The address filter is equivalent to a list of special-purpose blocks; a
    signed request verifies with the secret it was registered with; a pass
    takes exactly the next events of a seller, and over runs in which events
    become visible in the order of their sequences none is lost or repeated;
    the feed read by its cursors is complete; a delivery ends within its
    attempts. *)

From stdpp Require Import sorting pretty.
From S2P Require Import Prelude Domain Json Seal Text Pubky Store LocksKeys Fx Inventory Samples Grants Webhooks.

(** ** Special-purpose address blocks *)

Definition number (octets : list Z) : Z := fold_left (fun n o => 256 * n + o) octets 0.

(** An address of this width is in the block of this prefix length. *)
Definition in_block (width n : Z) (block : Z * Z) : bool :=
  n / 2 ^ (width - snd block) =? fst block.

(** The leading bits of a block and their number. *)
Definition V4_SPECIAL : list (Z * Z) :=
  [(0, 8); (10, 8); (100 * 4 + 1, 10); (127, 8); (169 * 256 + 254, 16); (172 * 16 + 1, 12);
   (192 * 65536, 24); (192 * 65536 + 2, 24); (192 * 65536 + 88 * 256 + 99, 24); (192 * 256 + 168, 16);
   (198 * 128 + 9, 15); (198 * 65536 + 51 * 256 + 100, 24); (203 * 65536 + 113, 24); (14, 4); (15, 4)].

(** IPv4-compatible addresses, the unspecified and the loopback address among
    them, are the block [::/96]. *)
Definition V6_SPECIAL : list (Z * Z) :=
  [(0, 96); (0x0064ff9b, 32); (0x0100 * 2 ^ 48, 64); (0x0100 * 2 ^ 48 + 1, 64); (0x20010000, 32);
   (0x200100020000, 48); (0x2001001, 28); (0x2001002, 28); (0x20010db8, 32); (0x2002, 16); (0x3fff0, 20);
   (0x5f00, 16); (0x7e, 7); (0x3fa, 10); (0xff, 8)].

Definition is_octet (o : Z) : Prop := 0 <= o < 256.

Definition special (ip : IpAddr) : bool :=
  match ip with
  | V4 a b c d => existsb (in_block 32 (number [a; b; c; d])) V4_SPECIAL
  | V6 o =>
      if in_block 128 (number o) (0xffff, 96) then existsb (in_block 32 (number o mod 2 ^ 32)) V4_SPECIAL
      else existsb (in_block 128 (number o)) V6_SPECIAL
  end.

Lemma shift_out hi lo m : 0 <= lo < m -> (m * hi + lo) / m = hi.
Proof. intros Hlo. symmetry. by apply (Z.div_unique _ m hi lo); [left|]. Qed.

(** Finds the disjunct that follows by arithmetic. *)
Ltac pick_case := first [left; lia | right; pick_case | lia].

Lemma public_v4_reference a b c d :
  is_octet a -> is_octet b -> is_octet c -> is_octet d ->
  public_v4 a b c d = negb (existsb (in_block 32 (number [a; b; c; d])) V4_SPECIAL).
Proof.
  unfold is_octet. intros Ha Hb Hc Hd.
  assert (E8 : number [a; b; c; d] / 2 ^ 24 = a).
  { change (2 ^ 24) with 16777216. etransitivity; [|apply (shift_out a (65536 * b + 256 * c + d) 16777216); lia]. unfold number. cbn [fold_left]. f_equal. lia. }
  assert (E16 : number [a; b; c; d] / 2 ^ 16 = 256 * a + b).
  { change (2 ^ 16) with 65536. etransitivity; [|apply (shift_out (256 * a + b) (256 * c + d) 65536); lia]. unfold number. cbn [fold_left]. f_equal. lia. }
  assert (E24 : number [a; b; c; d] / 2 ^ 8 = 65536 * a + 256 * b + c).
  { change (2 ^ 8) with 256. etransitivity; [|apply (shift_out (65536 * a + 256 * b + c) d 256); lia]. unfold number. cbn [fold_left]. f_equal. lia. }
  assert (E4 : number [a; b; c; d] / 2 ^ 28 = a / 16).
  { change (2 ^ 28) with (2 ^ 24 * 16). by rewrite <- Z.div_div, E8 by lia. }
  assert (E12 : number [a; b; c; d] / 2 ^ 20 = 16 * a + b / 16).
  { change (2 ^ 20) with (2 ^ 16 * 16). rewrite <- Z.div_div, E16 by lia.
    replace (256 * a + b) with (16 * a * 16 + b) by lia. rewrite Z.div_add_l by lia. lia. }
  assert (E10 : number [a; b; c; d] / 2 ^ 22 = 4 * a + b / 64).
  { change (2 ^ 22) with (2 ^ 16 * 64). rewrite <- Z.div_div, E16 by lia.
    replace (256 * a + b) with (4 * a * 64 + b) by lia. rewrite Z.div_add_l by lia. lia. }
  assert (E15 : number [a; b; c; d] / 2 ^ 17 = 128 * a + b / 2).
  { change (2 ^ 17) with (2 ^ 16 * 2). rewrite <- Z.div_div, E16 by lia.
    replace (256 * a + b) with (128 * a * 2 + b) by lia. rewrite Z.div_add_l by lia. lia. }
  unfold V4_SPECIAL, in_block. cbn [existsb fst snd].
  change (32 - 8) with 24. change (32 - 16) with 16. change (32 - 24) with 8. change (32 - 10) with 22.
  change (32 - 12) with 20. change (32 - 15) with 17. change (32 - 4) with 28.
  rewrite E8, E16, E24, E4, E12, E10, E15. clear E8 E16 E24 E4 E12 E10 E15.
  pose proof (Z.div_mod a 16 ltac:(lia)) as Q1. pose proof (Z.mod_pos_bound a 16 ltac:(lia)) as Q1'.
  pose proof (Z.div_mod b 16 ltac:(lia)) as Q2. pose proof (Z.mod_pos_bound b 16 ltac:(lia)) as Q2'.
  pose proof (Z.div_mod b 64 ltac:(lia)) as Q3. pose proof (Z.mod_pos_bound b 64 ltac:(lia)) as Q3'.
  pose proof (Z.div_mod b 2 ltac:(lia)) as Q4. pose proof (Z.mod_pos_bound b 2 ltac:(lia)) as Q4'.
  apply eq_true_iff_eq. unfold public_v4, v4_private, v4_documentation, between.
  rewrite !negb_true_iff, <- !not_true_iff_false, !orb_true_iff. apply not_iff_compat.
  rewrite !andb_true_iff, !Z.eqb_eq, !Z.leb_le. rewrite !Logic.or_assoc.
  split; intros Hx.
  - repeat (destruct Hx as [Hx|Hx]; [pick_case|]). pick_case.
  - repeat (destruct Hx as [Hx|Hx]; [pick_case|]). discriminate Hx.
Qed.

Lemma number_from n l : fold_left (fun n o => 256 * n + o) l n = n * 256 ^ Z.of_nat (length l) + number l.
Proof.
  unfold number. revert n. induction l as [|o l IH]; intros n; cbn [fold_left length]; [simpl; lia|].
  rewrite IH, (IH (256 * 0 + o)), Nat2Z.inj_succ, Z.pow_succ_r by lia. lia.
Qed.

Lemma number_app l l' : number (l ++ l') = number l * 256 ^ Z.of_nat (length l') + number l'.
Proof. unfold number at 1. rewrite fold_left_app. apply number_from. Qed.

Lemma number_bound l : Forall is_octet l -> 0 <= number l < 256 ^ Z.of_nat (length l).
Proof.
  induction l as [|o l IH] using rev_ind; intros Hl; [done|].
  apply list.Forall_app in Hl as [Hl Ho]. apply Forall_cons_1 in Ho as [Ho _]. unfold is_octet in Ho.
  specialize (IH Hl). rewrite number_app, length_app. cbn [length].
  replace (number [o]) with o by (unfold number; cbn [fold_left]; lia).
  change (256 ^ Z.of_nat 1) with 256. rewrite Nat2Z.inj_add, Z.pow_add_r by lia.
  change (256 ^ Z.of_nat 1) with 256. lia.
Qed.

(** A prefix is recognized by its value. *)
Lemma starts_number p o :
  Forall is_octet p -> Forall is_octet o -> (length p <= length o)%nat ->
  starts p o = (number (take (length p) o) =? number p).
Proof.
  revert o. induction p as [|x p IH]; intros [|y o] Hp Ho Hlen; try done; [simpl in Hlen; lia|].
  apply Forall_cons_1 in Hp as [Hx Hp]. apply Forall_cons_1 in Ho as [Hy Ho]. simpl in Hlen. cbn [starts length take].
  rewrite IH by (try done; lia).
  assert (Hn : forall z l, number (z :: l) = z * 256 ^ Z.of_nat (length l) + number l).
  { intros z l. exact (number_app [z] l). }
  rewrite !Hn. pose proof (number_bound p Hp) as B1.
  pose proof (number_bound (take (length p) o) (list.Forall_take _ _ _ Ho)) as B2.
  rewrite length_take, Nat.min_l in B2 |- * by lia. unfold is_octet in *.
  apply eq_true_iff_eq. rewrite andb_true_iff, !Z.eqb_eq. split; [intros [-> ->]; done|].
  intros E. assert (x = y) by nia. subst. split; [done|]. lia.
Qed.

Section V6.
Context (o : list Z) (Ho : Forall is_octet o) (Hlen : length o = 16%nat).

(** The leading octets of an address. *)
Lemma leading_octets k : (k <= 16)%nat -> number o / 2 ^ (128 - 8 * Z.of_nat k) = number (take k o).
Proof.
  intros Hk. rewrite <- (take_drop k o) at 1. rewrite number_app, length_drop, Hlen.
  replace (2 ^ (128 - 8 * Z.of_nat k)) with (256 ^ Z.of_nat (16 - k)).
  - rewrite Z.mul_comm. apply shift_out.
    pose proof (number_bound (drop k o) (list.Forall_drop _ _ _ Ho)) as B. by rewrite length_drop, Hlen in B.
  - change 256 with (2 ^ 8). rewrite <- Z.pow_mul_r by lia. f_equal. lia.
Qed.

Lemma block_aligned p v len :
  Forall is_octet p -> (length p <= 16)%nat -> number p = v -> len = 8 * Z.of_nat (length p) ->
  in_block 128 (number o) (v, len) = starts p o.
Proof.
  intros Hp Hl <- ->. unfold in_block. cbn [fst snd].
  rewrite leading_octets, starts_number by (try done; lia). done.
Qed.

Lemma take_S_octet k : (k < 16)%nat -> take (S k) o = take k o ++ [octet o k].
Proof.
  intros Hk. destruct (lookup_lt_is_Some_2 o k) as [x Hx]; [lia|].
  rewrite (take_S_r o k x Hx). f_equal. f_equal. unfold octet. symmetry. by apply nth_lookup_Some with (d := 0) in Hx.
Qed.

Lemma octet_is k : is_octet (octet o k).
Proof.
  unfold octet. destruct (nth_in_or_default k o 0) as [Hin|E]; [|rewrite E; unfold is_octet; lia].
  revert Hin. generalize (nth k o 0). by apply List.Forall_forall.
Qed.

(** A block that ends inside an octet. *)
Lemma block_partial p r x v len :
  Forall is_octet p -> (length p < 16)%nat -> 0 < r < 8 -> 0 <= x < 2 ^ r ->
  number p * 2 ^ r + x = v -> len = 8 * Z.of_nat (length p) + r ->
  in_block 128 (number o) (v, len) = starts p o && (octet o (length p) / 2 ^ (8 - r) =? x).
Proof.
  intros Hp Hl Hr Hx <- ->. unfold in_block. cbn [fst snd]. rewrite starts_number by (try done; lia).
  replace (128 - (8 * Z.of_nat (length p) + r)) with ((128 - 8 * Z.of_nat (S (length p))) + (8 - r)) by lia.
  rewrite Z.pow_add_r, <- Z.div_div, leading_octets, take_S_octet, number_app by (try apply Z.pow_pos_nonneg; lia).
  change (256 ^ Z.of_nat (length [octet o (length p)])) with 256.
  replace (number [octet o (length p)]) with (octet o (length p)) by (unfold number; cbn [fold_left]; lia).
  pose proof (octet_is (length p)) as Hoct. unfold is_octet in Hoct.
  set (c := octet o (length p)) in *. set (n := number (take (length p) o)).
  assert (E256 : 256 = 2 ^ r * 2 ^ (8 - r)).
  { rewrite <- Z.pow_add_r by lia. by replace (r + (8 - r)) with 8 by lia. }
  assert (Hpos : 0 < 2 ^ (8 - r)) by (apply Z.pow_pos_nonneg; lia).
  replace (n * 256 + c) with (n * 2 ^ r * 2 ^ (8 - r) + c) by (rewrite E256; lia).
  rewrite Z.div_add_l by lia.
  assert (Hc : 0 <= c / 2 ^ (8 - r) < 2 ^ r).
  { split; [apply Z.div_pos; lia|]. apply Z.div_lt_upper_bound; [lia|]. rewrite Z.mul_comm, <- E256. lia. }
  apply eq_true_iff_eq. rewrite andb_true_iff, !Z.eqb_eq. split; [|intros [-> ->]; done].
  intros E. assert (n = number p) by nia. split; [done|]. nia.
Qed.
End V6.

(** A fact about one octet, by cases. *)
Lemma octet_cases (f g : Z -> bool) :
  forallb (fun i => Bool.eqb (f i) (g i)) (map Z.of_nat (seq 0 256)) = true ->
  forall c, is_octet c -> f c = g c.
Proof.
  intros Hall c Hc. rewrite forallb_forall in Hall. apply Bool.eqb_prop, Hall, in_map_iff.
  unfold is_octet in Hc. exists (Z.to_nat c). split; [lia|]. apply in_seq. lia.
Qed.

(** The mapped IPv4 address. *)
Lemma low_octets o :
  Forall is_octet o -> length o = 16%nat ->
  number o mod 2 ^ 32 = number [octet o 12; octet o 13; octet o 14; octet o 15].
Proof.
  intros Ho Hl. do 16 (destruct o as [|? o]; [discriminate|]). destruct o; [|discriminate].
  unfold octet. cbn [nth].
  match goal with |- number [?a; ?b; ?c; ?d; ?e; ?f; ?g; ?h; ?i; ?j; ?k; ?l; ?m; ?n; ?p; ?q] mod _ = _ =>
    change [a; b; c; d; e; f; g; h; i; j; k; l; m; n; p; q] with ([a; b; c; d; e; f; g; h; i; j; k; l] ++ [m; n; p; q]) in *;
    rewrite number_app; change (256 ^ Z.of_nat (length [m; n; p; q])) with (2 ^ 32) end.
  apply Forall_app in Ho as [_ Ho]. apply number_bound in Ho. change (256 ^ Z.of_nat _) with (2 ^ 32) in Ho.
  rewrite Z.add_comm, Z.mod_add, Z.mod_small by lia. done.
Qed.

Ltac pick_disjunct := first [left; assumption | right; pick_disjunct | assumption].

Ltac octets_ok :=
  cbn [repeat app]; repeat first [apply Forall_cons_2 | apply Forall_nil_2]; unfold is_octet; lia.

Ltac block_side := first [done | cbn [length repeat app]; lia | octets_ok | vm_compute; reflexivity].

(** The filter of an IPv6 address, block by block. *)
Lemma v6_blocks o :
  Forall is_octet o -> length o = 16%nat ->
  existsb (in_block 128 (number o)) V6_SPECIAL =
  existsb (fun b => b)
    [starts (repeat 0 12) o; starts [0; 100; 255; 155] o; starts [1; 0; 0; 0; 0; 0; 0; 0] o;
     starts [1; 0; 0; 0; 0; 0; 0; 1] o; starts [32; 1; 0; 0] o; starts [32; 1; 0; 2; 0; 0] o;
     starts [32; 1; 0] o && (Z.land (octet o 3) 240 =? 16);
     starts [32; 1; 0] o && (Z.land (octet o 3) 240 =? 32); starts [32; 1; 13; 184] o; starts [32; 2] o;
     starts [63; 255] o && (Z.land (octet o 2) 240 =? 0); starts [95; 0] o;
     starts [] o && (Z.land (octet o 0) 254 =? 252); starts [254] o && (Z.land (octet o 1) 192 =? 128);
     starts [255] o].
Proof.
  intros Ho Hl. unfold V6_SPECIAL. cbn [existsb].
  rewrite (block_aligned o Ho Hl (repeat 0 12)), (block_aligned o Ho Hl [0; 100; 255; 155]),
    (block_aligned o Ho Hl [1; 0; 0; 0; 0; 0; 0; 0]), (block_aligned o Ho Hl [1; 0; 0; 0; 0; 0; 0; 1]),
    (block_aligned o Ho Hl [32; 1; 0; 0]), (block_aligned o Ho Hl [32; 1; 0; 2; 0; 0]),
    (block_partial o Ho Hl [32; 1; 0] 4 1), (block_partial o Ho Hl [32; 1; 0] 4 2),
    (block_aligned o Ho Hl [32; 1; 13; 184]), (block_aligned o Ho Hl [32; 2]),
    (block_partial o Ho Hl [63; 255] 4 0), (block_aligned o Ho Hl [95; 0]),
    (block_partial o Ho Hl [] 7 126), (block_partial o Ho Hl [254] 2 2), (block_aligned o Ho Hl [255])
    by block_side.
  cbn [length].
  rewrite (octet_cases (fun c => c / 2 ^ (8 - 4) =? 1) (fun c => Z.land c 240 =? 16)),
    (octet_cases (fun c => c / 2 ^ (8 - 4) =? 2) (fun c => Z.land c 240 =? 32)),
    (octet_cases (fun c => c / 2 ^ (8 - 4) =? 0) (fun c => Z.land c 240 =? 0)),
    (octet_cases (fun c => c / 2 ^ (8 - 7) =? 126) (fun c => Z.land c 254 =? 252)),
    (octet_cases (fun c => c / 2 ^ (8 - 2) =? 2) (fun c => Z.land c 192 =? 128))
    by (first [by vm_compute | by apply octet_is]). done.
Qed.

Lemma starts_prefix p q o : starts (p ++ q) o = true -> starts p o = true.
Proof.
  revert o. induction p as [|x p IH]; intros [|y o]; cbn [app starts]; try done.
  rewrite !andb_true_iff. intros [? ?]. eauto.
Qed.

(** C25. An address passes the filter exactly when it is in none of the special-purpose
    blocks: this network, private, shared, loopback, link-local, protocol
    assignments, documentation, 6to4 relays, benchmarking, multicast and
    reserved ones of IPv4, those of IPv6, and an IPv4-mapped address when its
    IPv4 address is in none. *)
Theorem public_ip_reference ip :
  match ip with
  | V4 a b c d => Forall is_octet [a; b; c; d]
  | V6 o => Forall is_octet o /\ length o = 16%nat
  end ->
  public_ip ip = negb (special ip).
Proof.
  destruct ip as [a b c d|o].
  - intros Ho. apply Forall_cons_1 in Ho as [Ha Ho]. apply Forall_cons_1 in Ho as [Hb Ho].
    apply Forall_cons_1 in Ho as [Hc Ho]. apply Forall_cons_1 in Ho as [Hd _]. by apply public_v4_reference.
  - intros [Ho Hl]. unfold special, public_ip.
    rewrite (block_aligned o Ho Hl (repeat 0 10 ++ [255; 255])) by block_side.
    destruct (starts (repeat 0 10 ++ [255; 255]) o).
    { rewrite low_octets by done. apply public_v4_reference; by apply octet_is. }
    rewrite v6_blocks by done. destruct (starts (repeat 0 12) o) eqn:Hc; [done|].
    assert (E1 : starts (repeat 0 15 ++ [1]) o = false).
    { apply not_true_iff_false. intros E. apply (starts_prefix (repeat 0 12) (repeat 0 3 ++ [1])) in E. congruence. }
    assert (E2 : starts (repeat 0 16) o = false).
    { apply not_true_iff_false. intros E. apply (starts_prefix (repeat 0 12) (repeat 0 4)) in E. congruence. }
    assert (E3 : starts [63; 255] o = (octet o 0 =? 63) && (octet o 1 =? 255)).
    { do 2 (destruct o as [|? o]; [discriminate|]). cbn [starts octet nth]. unfold octet. cbn [nth].
      by rewrite andb_true_r, !(Z.eqb_sym _ 63), !(Z.eqb_sym _ 255). }
    assert (E4 : starts [254] o = (octet o 0 =? 254) /\ starts [255] o = (octet o 0 =? 255)).
    { destruct o as [|? o]; [discriminate|]. unfold octet. cbn [starts nth].
      by rewrite !andb_true_r, !(Z.eqb_sym _ 254), !(Z.eqb_sym _ 255). }
    destruct E4 as [E4 E5]. rewrite E1, E2, E3, E4, E5. cbn [existsb]. cbn [starts].
    change (starts [] o) with true. cbn [andb orb].
    apply eq_true_iff_eq. rewrite !negb_true_iff, <- !not_true_iff_false, !orb_true_iff. apply not_iff_compat.
    rewrite !Logic.or_assoc.
    split; intros Hx; repeat (destruct Hx as [Hx|Hx]; [first [pick_disjunct | discriminate Hx]|]); try pick_disjunct;
      discriminate Hx.
Qed.

(** ** Signatures *)

(** What the crates document: a UUID parses from its text, [hex] writes two
    digits a byte, HMAC-SHA-256 has 32 bytes. *)
Class WebhookLaws `{UC : !UuidCrate, LC : !LocksCrates, IC : !InventoryCrates, WC : !WebhookCrates} : Prop := {
  parse_uuid_text : forall u, parse_uuid (uuid_text u) = Some u;
  hex_encode_length : forall s, byte_len (hex_encode s) = 2 * byte_len s;
  hex_encode_digits : forall s, bytes_all is_hexdigit (hex_encode s) = true;
  hmac_length : forall key message, byte_len (hmac_sha256 key message) = 32;
}.

(** A decimal reads back. *)
Lemma split_sign_digits l : forallb is_digit l = true -> split_sign l = (1, l).
Proof.
  destruct l as [|b l]; [done|]. cbn [forallb split_sign]. intros Hd. apply andb_true_iff in Hd as [Hb _].
  destruct (Z.eqb_spec b 43) as [->|]; [discriminate|]. destruct (Z.eqb_spec b 45) as [->|]; [discriminate|]. done.
Qed.

Lemma parse_i64_pretty z : i64_min <= z <= i64_max -> parse_i64 (pretty z) = Some z.
Proof.
  intros Hz. assert (Hspell : forall n : N, Z.of_N n <= 2 ^ 63 -> exists l, bytes (pretty n) = l /\
    forallb is_digit l = true /\ spelled l = Z.of_N n /\ l <> []).
  { intros n Hn. destruct (pretty_spells n 19) as (l & El & Hd & Hs & Hl); [lia|lia|].
    exists l. repeat split; try done. destruct l; [simpl in Hl; lia|done]. }
  assert (Hgood : forall l sign, l <> [] -> forallb is_digit l = true -> i64_min <= sign * spelled l <= i64_max ->
    (if nonempty l && forallb is_digit l && in_range i64_min i64_max (sign * spelled l)
     then Some (sign * spelled l) else None) = Some (sign * spelled l)).
  { intros l sign Hne Hd Hb. rewrite Hd. unfold in_range. destruct l; [done|]. cbn [nonempty andb].
    destruct (Z.leb_spec i64_min (sign * spelled (z0 :: l))), (Z.leb_spec (sign * spelled (z0 :: l)) i64_max); try lia. done. }
  assert (Hnat : forall n : N, Z.of_N n <= i64_max -> parse_i64 (pretty n) = Some (Z.of_N n)).
  { intros n Hn. destruct (Hspell n) as (l & El & Hd & Hs & Hne); [unfold i64_max in Hn; lia|].
    unfold parse_i64. rewrite El, split_sign_digits by done. rewrite Hgood; [|done|done|].
    - f_equal. lia.
    - rewrite Hs. unfold i64_min, i64_max in *. lia. }
  destruct z as [|p|p].
  - reflexivity.
  - exact (Hnat (N.pos p) ltac:(lia)).
  - change (pretty (Z.neg p)) with ("-" +:+ pretty (N.pos p)).
    destruct (Hspell (N.pos p)) as (l & El & Hd & Hs & Hne); [unfold i64_min in Hz; lia|].
    unfold parse_i64. rewrite bytes_app, El. change (split_sign (bytes "-" ++ l)) with (-1, l). cbv iota beta.
    rewrite Hgood; [|done|done|]; rewrite Hs; [f_equal; lia|]. unfold i64_min, i64_max in *. lia.
Qed.

Section Receiver.
Context `{UC : !UuidCrate, JT : !JsonText, LC : !LocksCrates, IC : !InventoryCrates, AC : !AuthCrates,
          WC : !WebhookCrates, WL : !WebhookLaws}.

Lemma supplied_own_signature key timestamp event_id raw :
  supplied_signature ("v1=" +:+ webhook_signature key timestamp event_id raw) =
  Some (webhook_signature key timestamp event_id raw).
Proof.
  unfold supplied_signature. rewrite strip_prefix_app. unfold keep, webhook_signature. cbn.
  rewrite hex_encode_length, hmac_length, hex_encode_digits. done.
Qed.

(** The request as a receiver with this secret reads it. *)
Definition received (secret : string) (expected_key_id : Uuid) (request : SignedWebhookRequest)
    (receiver_now : Time) (max_skew : Z) : WebhookVerifyInput :=
  mkVerifyInput secret expected_key_id (sg_event_id request) (sg_timestamp request) (sg_key_id request)
    (sg_signature request) (sg_raw request) receiver_now max_skew.

(** C23. A receiver that keeps the secret it was given accepts every request the
    service signs with that secret's key, within the clock skew it allows, and
    learns the event, the key and the hash of exactly the body that was sent;
    beyond the skew the request is stale, and under another key id it is
    refused as such. *)
Theorem signed_webhook_verifies d now secret receiver_now max_skew :
  dv_signing_key d = sha256 secret ->
  i64_min <= now / seconds 1 <= i64_max -> i64_min <= now / seconds 1 - receiver_now / seconds 1 <= i64_max ->
  (forall expected, expected <> dv_key_id d ->
     verify_webhook (received secret expected (signed_webhook_request d now) receiver_now max_skew) = inr WWrongKey) /\
  verify_webhook (received secret (dv_key_id d) (signed_webhook_request d now) receiver_now max_skew) =
    if Z.abs (now / seconds 1 - receiver_now / seconds 1) <=? Z.max max_skew 0
    then inl (mkVerifiedWebhook (dv_event_id d) (dv_key_id d) (hex_encode (sha256 (to_vec (dv_body d)))))
    else inr WStale.
Proof.
  intros Hkey Hnow Hdiff. unfold verify_webhook, received, signed_webhook_request. simpl.
  rewrite !parse_uuid_text. split.
  { intros expected Hne. destruct (N.eqb_spec (dv_key_id d) expected); [congruence|done]. }
  rewrite N.eqb_refl. simpl. rewrite parse_i64_pretty by done. unfold skewed, between.
  destruct (Z.leb_spec i64_min (now / seconds 1 - receiver_now / seconds 1)); [|lia].
  destruct (Z.leb_spec (now / seconds 1 - receiver_now / seconds 1) i64_max); [|lia]. simpl.
  rewrite Z.ltb_antisym. destruct (_ <=? Z.max max_skew 0); [|done]. simpl.
  rewrite supplied_own_signature, Hkey, String.eqb_refl. done.
Qed.
End Receiver.

(** ** Enqueueing *)

#[local] Instance by_sequence_trans : Transitive by_sequence.
Proof. intros a b c. unfold by_sequence. lia. Qed.

#[local] Instance by_sequence_total : Total by_sequence.
Proof. intros a b. unfold by_sequence. lia. Qed.

(** Events of the store in the order of their sequences. *)
Definition chosen_events (P : Z * WebhookEvent -> bool) (db : WebhookDb) : list (Z * WebhookEvent) :=
  merge_sort by_sequence (List.filter P (map_to_list (wh_events db))).

Lemma chosen_elem P db s v :
  (s, v) ∈ chosen_events P db <-> wh_events db !! s = Some v /\ P (s, v) = true.
Proof.
  unfold chosen_events. rewrite (merge_sort_Permutation by_sequence), list_elem_of_In, filter_In.
  by rewrite <- list_elem_of_In, elem_of_map_to_list.
Qed.

Lemma seller_events_elem seller after cutoff db s v :
  (s, v) ∈ seller_events seller after cutoff db <->
  wh_events db !! s = Some v /\ event_due seller after cutoff (s, v) = true.
Proof. apply (chosen_elem (event_due seller after cutoff)). Qed.

(** In the order of their sequences, each once. *)
Lemma chosen_sorted P db : StronglySorted Z.lt (map fst (chosen_events P db)).
Proof.
  pose proof (StronglySorted_merge_sort by_sequence
    (List.filter P (map_to_list (wh_events db)))) as Hs.
  assert (Hnd : base.NoDup (map fst (chosen_events P db))).
  { unfold chosen_events. change (map fst ?l) with (fst <$> l). rewrite (merge_sort_Permutation by_sequence).
    pose proof (NoDup_fst_map_to_list (wh_events db)) as Hnd. revert Hnd.
    generalize (map_to_list (wh_events db)) as l. induction l as [|x l IH]; [done|]. simpl.
    intros [Hx Hl]%list.NoDup_cons. destruct (P x); [|auto]. simpl. apply list.NoDup_cons.
    split; [|auto]. intros (y & E & Hy)%list_elem_of_fmap. apply Hx, list_elem_of_fmap. exists y.
    split; [done|]. by apply list_elem_of_In, filter_In, proj1, list_elem_of_In in Hy. }
  unfold chosen_events in *. revert Hs Hnd. generalize (merge_sort by_sequence
    (List.filter P (map_to_list (wh_events db)))) as l.
  induction l as [|x l IH]; intros Hs Hnd; [constructor|]. simpl in *. apply StronglySorted_inv in Hs as [Hs Hx].
  apply list.NoDup_cons in Hnd as [Hn Hnd]. constructor; [auto|].
  apply list.Forall_forall. intros s Hin. rewrite list.Forall_forall in Hx.
  apply list_elem_of_In, in_map_iff in Hin as (y & <- & Hy%list_elem_of_In).
  assert (fst x <> fst y).
  { intros E. apply Hn. apply list_elem_of_In, in_map_iff. exists y. by rewrite <- list_elem_of_In. }
  specialize (Hx y Hy). unfold by_sequence in Hx. lia.
Qed.

Lemma seller_events_sorted seller after cutoff db :
  StronglySorted Z.lt (map fst (seller_events seller after cutoff db)).
Proof. apply (chosen_sorted (event_due seller after cutoff)). Qed.

Lemma fold_max_ge l x s : In s (x :: l) -> s <= fold_left Z.max l x.
Proof.
  revert x s. induction l as [|y l IH]; intros x s Hin; simpl; [destruct Hin as [->|[]]; lia|].
  assert (Hm : forall a b, fold_left Z.max l (Z.max a b) >= Z.max a b) by (intros; apply Z.le_ge, IH; by left).
  destruct Hin as [->|[->|Hin]]; [specialize (Hm s y); lia|specialize (Hm x s); lia|]. apply IH. by right.
Qed.

Lemma max_sequence_ge db s v : wh_events db !! s = Some v -> exists m, max_sequence db = Some m /\ s <= m.
Proof.
  intros Hs. apply elem_of_map_to_list in Hs. unfold max_sequence.
  assert (Hin : In s (map fst (map_to_list (wh_events db)))).
  { apply in_map_iff. exists (s, v). by rewrite <- list_elem_of_In. }
  destruct (map fst (map_to_list (wh_events db))) as [|x l]; [done|]. eexists. split; [done|].
  by apply fold_max_ge.
Qed.

(** A prefix of a sorted list holds whatever is at most its last. *)
Lemma take_prefix (l : list (Z * WebhookEvent)) n x y :
  StronglySorted Z.lt (map fst l) -> x ∈ l -> list.last (take n l) = Some y -> fst x <= fst y -> x ∈ take n l.
Proof.
  intros Hs Hx Hy Hle. rewrite <- (take_drop n l) in Hs, Hx. apply elem_of_app in Hx as [Hx|Hx]; [done|].
  rewrite map_app in Hs. exfalso.
  assert (fst y < fst x); [|lia]. apply last_Some_elem_of in Hy.
  eapply (StronglySorted_app_1_elem_of Z.lt); [exact Hs| |]; apply list_elem_of_In, in_map;
    by apply list_elem_of_In.
Qed.

Lemma take_sorted (l : list (Z * WebhookEvent)) n :
  StronglySorted Z.lt (map fst l) -> StronglySorted Z.lt (map fst (take n l)).
Proof.
  intros Hs. rewrite <- (take_drop n l), map_app in Hs. by eapply StronglySorted_app_1_l.
Qed.

(** What a pass takes for an endpoint. *)
Lemma enqueue_rows_spec config e now db rows cursor :
  0 < wc_enqueue_batch_size config -> enqueue_rows config e now db = (rows, cursor) ->
  StronglySorted Z.lt (map fst rows) /\ we_enqueue_sequence e <= cursor /\
  (forall s v, (s, v) ∈ rows <->
     wh_events db !! s = Some v /\ wv_seller v = Some (we_seller e) /\
     we_enqueue_sequence e < s <= cursor /\ now - days (wc_event_retention_days config) <= wv_occurred_at v).
Proof.
  intros Hb. unfold enqueue_rows. set (room := Z.max _ _). set (limit := Z.min _ _).
  set (cutoff := now - _). destruct (Z.leb_spec room 0) as [|Hroom].
  { intros [= <- <-]. split; [constructor|]. split; [lia|]. intros s v. split; [by intros ?%not_elem_of_nil|].
    intros (_ & _ & ? & _). lia. }
  set (due := seller_events (we_seller e) (we_enqueue_sequence e) cutoff db). intros [= <- <-].
  pose proof (seller_events_sorted (we_seller e) (we_enqueue_sequence e) cutoff db) as Hs. fold due in Hs.
  assert (Hdue : forall s v, (s, v) ∈ due <-> wh_events db !! s = Some v /\ wv_seller v = Some (we_seller e) /\
    we_enqueue_sequence e < s /\ cutoff <= wv_occurred_at v).
  { intros s v. unfold due. rewrite seller_events_elem. unfold event_due, of_seller. simpl.
    rewrite !andb_true_iff, bool_decide_eq_true, Z.ltb_lt, Z.leb_le. tauto. }
  split; [by apply take_sorted|]. destruct (Z.eqb_spec (Z.of_nat (length (take (Z.to_nat limit) due))) limit) as [El|El].
  - destruct (list.last (take (Z.to_nat limit) due)) as [[s0 v0]|] eqn:Hlast.
    2: { apply last_None in Hlast. rewrite Hlast in El. simpl in El. lia. }
    simpl. assert (Hin0 : (s0, v0) ∈ take (Z.to_nat limit) due) by (by apply last_Some_elem_of).
    assert (Hin0' : (s0, v0) ∈ due) by (by apply (subseteq_take (Z.to_nat limit))).
    apply Hdue in Hin0' as (_ & _ & ? & _). split; [lia|]. intros s v. split.
    + intros Hin. pose proof (subseteq_take _ _ _ Hin) as Hin'. apply Hdue in Hin' as (? & ? & ? & ?).
      repeat split; try done. apply last_Some in Hlast as [l' El']. apply take_sorted with (n := Z.to_nat limit) in Hs.
      rewrite El' in Hs, Hin. rewrite map_app in Hs. apply elem_of_app in Hin as [Hin|Hin%list_elem_of_singleton];
        [|injection Hin as -> ->; lia].
      enough (s < s0) by lia. eapply (StronglySorted_app_1_elem_of Z.lt); [exact Hs| |by left].
      apply list_elem_of_In, in_map_iff. exists (s, v). by rewrite <- list_elem_of_In.
    + intros (? & ? & ? & ?). eapply take_prefix; [exact Hs|apply Hdue; repeat split; try done; lia|exact Hlast|simpl; lia].
  - assert (Hall : take (Z.to_nat limit) due = due).
    { apply take_ge. rewrite length_take in El. lia. }
    rewrite Hall. split; [lia|]. intros s v. rewrite Hdue. split; [|intros (? & ? & ? & ?); repeat split; try done; lia].
    intros (Hs' & ? & ? & ?). repeat split; try done. destruct (max_sequence_ge db s v Hs') as (m & -> & Hm). simpl. lia.
Qed.

Lemma max_sequence_in db m : max_sequence db = Some m -> exists v, wh_events db !! m = Some v.
Proof.
  unfold max_sequence. intros Hm.
  assert (Hin : In m (map fst (map_to_list (wh_events db)))).
  { destruct (map fst (map_to_list (wh_events db))) as [|x l]; [done|]. injection Hm as <-.
    revert x. induction l as [|y l IH]; intros x; simpl; [by left|].
    destruct (IH (Z.max x y)) as [E|Hin]; [|by right; right]. destruct (Z.max_spec x y) as [[_ E']|[_ E']]; rewrite E' in *; auto. }
  apply in_map_iff in Hin as ([s v] & <- & Hin). exists v. by apply elem_of_map_to_list, list_elem_of_In.
Qed.

(** The cursor stays at or below what is visible. *)
Lemma enqueue_cursor_visible config e now db rows cursor :
  enqueue_rows config e now db = (rows, cursor) ->
  (we_enqueue_sequence e <= 0 \/ exists s v, wh_events db !! s = Some v /\ we_enqueue_sequence e <= s) ->
  cursor <= 0 \/ exists s v, wh_events db !! s = Some v /\ cursor <= s.
Proof.
  unfold enqueue_rows. destruct (_ <=? 0); [by intros [= <- <-]|]. intros [= <- <-] Hc.
  destruct (_ =? _).
  - destruct (list.last _) as [[s v]|] eqn:Hlast; simpl; [|exact Hc]. apply last_Some_elem_of in Hlast.
    apply (subseteq_take _ _ _), seller_events_elem in Hlast as [Hs _]. right. exists s, v. split; [done|lia].
  - destruct (max_sequence db) as [m|] eqn:Hm; simpl; [|by rewrite Z.max_id].
    destruct (max_sequence_in db m Hm) as [v Hv]. destruct Hc as [Hc|(s & v' & Hs & Hle)].
    + destruct (Z.le_gt_cases (we_enqueue_sequence e) m) as [Hm'|Hm']; [right|left; lia].
      exists m, v. split; [done|lia].
    + right. destruct (Z.le_gt_cases (we_enqueue_sequence e) m); [exists m, v|exists s, v']; split; try done; lia.
Qed.

(** ** Runs *)

(** The store, the delivery rows that were stored so far (purged ones included)
    by endpoint and sequence, and the cursor each endpoint was registered at. *)
Record WebhookWorld := mkWebhookWorld {
  ww_now : Time;
  ww_db : WebhookDb;
  ww_queued : list (Uuid * Z);
  ww_started : gmap Uuid Z;
}.

Definition webhook_start : WebhookWorld := mkWebhookWorld 0 empty_webhook_db [] ∅.

(** A delivery of the event is stored now and was not before. *)
Definition newly_stored (id : Uuid) (db db' : WebhookDb) (row : Z * WebhookEvent) : bool :=
  bool_decide (wh_deliveries db !! (id, wv_id (snd row)) = None) &&
  bool_decide (is_Some (wh_deliveries db' !! (id, wv_id (snd row)))).

(** What one endpoint's transaction enqueued: the sequences of the events
    whose delivery rows it stored. *)
Definition stored_by (id : Uuid) (db db' : WebhookDb) : list (Uuid * Z) :=
  map (fun row => (id, fst row)) (chosen_events (newly_stored id db db') db').

Lemma stored_by_same id db : stored_by id db db = [].
Proof.
  unfold stored_by. destruct (chosen_events _ db) as [|[s v] l] eqn:E; [done|exfalso].
  assert (Hin : (s, v) ∈ chosen_events (newly_stored id db db) db) by (rewrite E; by left).
  apply chosen_elem in Hin as [_ Hin]. unfold newly_stored in Hin.
  apply andb_true_iff in Hin as [->%bool_decide_eq_true Hs%bool_decide_eq_true]. by destruct Hs.
Qed.

Section WebhookRuns.
Context `{UC : !UuidCrate, JT : !JsonText, LC : !LocksCrates, IC : !InventoryCrates, AC : !AuthCrates,
          WC : !WebhookCrates}.
Context (config : WebhookConfig).

(** Events become visible in the order of their sequences. *)
Inductive webhook_step : WebhookWorld -> WebhookWorld -> Prop :=
| hook_time now now' db queued started :
    now <= now' ->
    webhook_step (mkWebhookWorld now db queued started) (mkWebhookWorld now' db queued started)
| hook_event now db queued started s v :
    0 < s -> (forall s' v', wh_events db !! s' = Some v' -> s' < s /\ wv_id v' <> wv_id v) ->
    webhook_step (mkWebhookWorld now db queued started)
                 (mkWebhookWorld now (upd wh_events (<[s := v]>) db) queued started)
| hook_add now db queued started actor url response db' :
    add_webhook config actor url now db = (response, db') ->
    webhook_step (mkWebhookWorld now db queued started)
                 (mkWebhookWorld now db' queued (started ∪ (we_enqueue_sequence <$> wh_endpoints db')))
| hook_rotate now db queued started actor id :
    webhook_step (mkWebhookWorld now db queued started)
                 (mkWebhookWorld now (snd (rotate_webhook actor id now db)) queued started)
| hook_delete now db queued started actor id :
    webhook_step (mkWebhookWorld now db queued started)
                 (mkWebhookWorld now (snd (delete_webhook actor id now db)) queued started)
| hook_enqueue now db queued started id :
    webhook_step (mkWebhookWorld now db queued started)
                 (mkWebhookWorld now (enqueue_endpoint config now db id)
                    (queued ++ stored_by id db (enqueue_endpoint config now db id)) started)
| hook_lease now db queued started :
    webhook_step (mkWebhookWorld now db queued started)
                 (mkWebhookWorld now (snd (lease_deliveries config now db)) queued started)
| hook_outcome now db queued started d status :
    webhook_step (mkWebhookWorld now db queued started)
                 (mkWebhookWorld now (snd (persist_delivery_outcome config d now status db)) queued started)
| hook_purge now db queued started :
    webhook_step (mkWebhookWorld now db queued started)
                 (mkWebhookWorld now (purge_terminal_webhooks config now db) queued started).

Definition webhook_reachable : WebhookWorld -> Prop := rtc webhook_step webhook_start.

(** The sequences enqueued for an endpoint. *)
Definition sequences (id : Uuid) (queued : list (Uuid * Z)) : list Z :=
  map snd (List.filter (fun entry => (fst entry =? id)%N) queued).

Record hook_inv (w : WebhookWorld) : Prop := {
  hi_event : forall s s' v v', wh_events (ww_db w) !! s = Some v -> wh_events (ww_db w) !! s' = Some v' ->
    wv_id v = wv_id v' -> s = s';
  hi_queued : forall id s, (id, s) ∈ ww_queued w ->
    exists e, wh_endpoints (ww_db w) !! id = Some e /\ s <= we_enqueue_sequence e;
  hi_sorted : forall id, StronglySorted Z.lt (sequences id (ww_queued w));
  hi_started : forall id e, wh_endpoints (ww_db w) !! id = Some e ->
    exists s0, ww_started w !! id = Some s0 /\ s0 <= we_enqueue_sequence e;
  hi_delivery : forall id ev d, wh_deliveries (ww_db w) !! (id, ev) = Some d ->
    exists s v, wh_events (ww_db w) !! s = Some v /\ wv_id v = ev /\ (id, s) ∈ ww_queued w;
  hi_complete : forall id e s0 s v, wh_endpoints (ww_db w) !! id = Some e -> ww_started w !! id = Some s0 ->
    wh_events (ww_db w) !! s = Some v -> wv_seller v = Some (we_seller e) ->
    s0 < s <= we_enqueue_sequence e ->
    (id, s) ∈ ww_queued w \/ wv_occurred_at v < ww_now w - days (wc_event_retention_days config);
  hi_cursor : forall id e, wh_endpoints (ww_db w) !! id = Some e ->
    we_enqueue_sequence e <= 0 \/
    exists s v, wh_events (ww_db w) !! s = Some v /\ we_enqueue_sequence e <= s;
  hi_domain : forall id s0, ww_started w !! id = Some s0 -> is_Some (wh_endpoints (ww_db w) !! id);
}.

(** What identifies an endpoint for the log. *)
Definition endpoint_identity (e : EndpointRow) := (we_seller e, we_enqueue_sequence e).

(** Steps that leave events, cursors and the log alone. *)
Lemma hook_frame now db db' queued started :
  wh_events db' = wh_events db ->
  (forall id, endpoint_identity <$> wh_endpoints db' !! id = endpoint_identity <$> wh_endpoints db !! id) ->
  (forall k d, wh_deliveries db' !! k = Some d -> is_Some (wh_deliveries db !! k)) ->
  hook_inv (mkWebhookWorld now db queued started) -> hook_inv (mkWebhookWorld now db' queued started).
Proof.
  intros He Hend Hdel [V1 V2 V3 V4 V5 V6 V7 V8]. simpl in *.
  assert (Hbw : forall id e, wh_endpoints db' !! id = Some e ->
    exists e', wh_endpoints db !! id = Some e' /\ endpoint_identity e = endpoint_identity e').
  { intros id e Hid. specialize (Hend id). rewrite Hid in Hend. simpl in Hend. symmetry in Hend.
    by apply fmap_Some in Hend as (e' & ? & ?); eauto. }
  split; simpl; rewrite ?He; auto.
  - intros id s Hin. destruct (V2 id s Hin) as (e & Hid & Hs). specialize (Hend id). rewrite Hid in Hend.
    apply fmap_Some in Hend as (e' & Hid' & E). injection E as _ E. exists e'. split; [done|]. lia.
  - intros id e (e' & Hid & E)%Hbw. injection E as _ E. rewrite E. by apply V4.
  - intros id ev d Hd. destruct (Hdel _ _ Hd) as [d' Hd']. by eapply V5.
  - intros id e s0 s v (e' & Hid & E)%Hbw. injection E as E1 E2. rewrite E1, E2. by apply V6.
  - intros id e (e' & Hid & E)%Hbw. injection E as _ E. rewrite E. by eapply V7.
  - intros id s0 [e Hid]%V8. specialize (Hend id). rewrite Hid in Hend.
    apply fmap_Some in Hend as (e' & Hid' & _). eauto.
Qed.

Lemma owned_endpoint_spec actor id db e :
  owned_endpoint actor id db = Some e -> wh_endpoints db !! id = Some e /\ we_seller e = actor /\ endpoint_live e = true.
Proof.
  unfold owned_endpoint, keep. destruct (wh_endpoints db !! id) as [e'|]; [|done]. cbn.
  destruct ((we_seller e' =? actor)%string && endpoint_live e') eqn:E; [|done]. intros [= <-].
  apply andb_true_iff in E as [E ?]. by apply String.eqb_eq in E.
Qed.

(** Replacing a row by one with the same identity. *)
Lemma endpoint_replaced (m : gmap Uuid EndpointRow) id e e' id' :
  m !! id = Some e -> endpoint_identity e' = endpoint_identity e ->
  endpoint_identity <$> (<[id := e']> m) !! id' = endpoint_identity <$> m !! id'.
Proof.
  intros Hid E. destruct (decide (id' = id)) as [->|]; [|by rewrite lookup_insert_ne].
  rewrite lookup_insert_eq, Hid. simpl. by rewrite E.
Qed.

Lemma purge_oldest_subset {V} (ended_at : V -> option Time) cutoff batch m k v :
  purge_oldest ended_at cutoff batch m !! k = Some v -> m !! k = Some v.
Proof.
  unfold purge_oldest. generalize (take (Z.to_nat batch) (merge_sort (ends_first ended_at)
    (List.filter (fun kv => match ended_at (snd kv) with Some t => t <? cutoff | None => false end) (map_to_list m)))) as l.
  intros l. revert m. induction l as [|x l IH]; intros m; simpl; [done|].
  intros H. apply IH in H. by apply lookup_delete_Some in H as [_ ?].
Qed.

Lemma update_pending_frame key change db :
  wh_events (update_pending key change db) = wh_events db /\
  wh_endpoints (update_pending key change db) = wh_endpoints db /\
  forall k d, wh_deliveries (update_pending key change db) !! k = Some d -> is_Some (wh_deliveries db !! k).
Proof.
  unfold update_pending, keep. destruct (wh_deliveries db !! key) as [row|] eqn:Hk; cbn; [|eauto].
  destruct (undelivered row); [|eauto]. split; [done|]. split; [done|]. intros k d Hd.
  change ((<[key := change row]> (wh_deliveries db)) !! k = Some d) in Hd.
  apply lookup_insert_Some in Hd as [[<- _]|[_ Hd]]; eauto.
Qed.

Lemma outcome_frame d now status db :
  let db' := snd (persist_delivery_outcome config d now status db) in
  wh_events db' = wh_events db /\ wh_endpoints db' = wh_endpoints db /\
  forall k row, wh_deliveries db' !! k = Some row -> is_Some (wh_deliveries db !! k).
Proof.
  unfold persist_delivery_outcome. destruct (match status with Some s => _ | None => _ end); [apply update_pending_frame|].
  destruct (_ || _); [|apply update_pending_frame]. simpl.
  match goal with |- context [update_pending ?a ?b ?c] => pose proof (update_pending_frame a b c) as H end.
  by destruct (wh_dead_letters _ !! _).
Qed.

Lemma lease_frame now db :
  let db' := snd (lease_deliveries config now db) in
  wh_events db' = wh_events db /\ wh_endpoints db' = wh_endpoints db /\
  forall k row, wh_deliveries db' !! k = Some row -> is_Some (wh_deliveries db !! k).
Proof.
  unfold lease_deliveries. simpl. set (due := take _ _).
  assert (Hdue : forall k d, (k, d) ∈ due -> is_Some (wh_deliveries db !! k)).
  { intros k d Hin. apply (subseteq_take DELIVERY_BATCH_SIZE) in Hin. rewrite (merge_sort_Permutation due_first) in Hin.
    apply list_elem_of_In, filter_In, proj1, list_elem_of_In, elem_of_map_to_list in Hin. eauto. }
  set (taken := omap _ due).
  assert (Htaken : forall k e d, (k, e, d) ∈ taken -> is_Some (wh_deliveries db !! k)).
  { intros k e d Hin. apply list_elem_of_omap in Hin as ([k' d'] & Hin & E). simpl in E.
    apply fmap_Some in E as (e' & _ & [= -> _ ->]). by eapply Hdue. }
  clearbody taken. clear Hdue due.
  enough (Hg : forall db0, (forall k d, wh_deliveries db0 !! k = Some d -> is_Some (wh_deliveries db !! k)) ->
    let db' := foldl (fun db '(key, _, d) => upd wh_deliveries (<[key := d <| dl_lease_until := Some (now + seconds (wc_lease_seconds config)) |>]>) db) db0 taken in
    wh_events db' = wh_events db0 /\ wh_endpoints db' = wh_endpoints db0 /\
    forall k row, wh_deliveries db' !! k = Some row -> is_Some (wh_deliveries db !! k)) by (apply Hg; eauto).
  induction taken as [|[[k e] d] taken IH]; intros db0 H0; simpl; [done|].
  edestruct IH as (E1 & E2 & E3); [intros; eapply Htaken; by right| |split; [exact E1|split; [exact E2|exact E3]]].
  intros k' d' Hd. change ((<[k := d <| dl_lease_until := Some (now + seconds (wc_lease_seconds config)) |>]> (wh_deliveries db0)) !! k' = Some d') in Hd.
  apply lookup_insert_Some in Hd as [[<- _]|[_ Hd]]; [|eauto]. eapply Htaken. by left.
Qed.

(** The rows of a pass are inserted. *)
Lemma insert_deliveries id e now rows db :
  let db' := foldl (insert_delivery id e now) db rows in
  wh_events db' = wh_events db /\ wh_endpoints db' = wh_endpoints db /\
  (forall k d, wh_deliveries db !! k = Some d -> wh_deliveries db' !! k = Some d) /\
  (forall k d, wh_deliveries db' !! k = Some d ->
     wh_deliveries db !! k = Some d \/ exists s v, (s, v) ∈ rows /\ k = (id, wv_id v) /\ dl_attempt_count d = 0) /\
  (forall s v, (s, v) ∈ rows -> is_Some (wh_deliveries db' !! (id, wv_id v))).
Proof.
  revert db. induction rows as [|[s v] rows IH]; intros db; simpl.
  { repeat split; auto. by intros s v ?%not_elem_of_nil. }
  set (db1 := insert_delivery id e now db (s, v)).
  assert (H1 : wh_events db1 = wh_events db /\ wh_endpoints db1 = wh_endpoints db /\
    (forall k d, wh_deliveries db !! k = Some d -> wh_deliveries db1 !! k = Some d) /\
    (forall k d, wh_deliveries db1 !! k = Some d ->
       wh_deliveries db !! k = Some d \/ (k = (id, wv_id v) /\ dl_attempt_count d = 0)) /\
    is_Some (wh_deliveries db1 !! (id, wv_id v))).
  { unfold db1, insert_delivery. simpl. destruct (wh_deliveries db !! (id, wv_id v)) as [d0|] eqn:Hk.
    { repeat split; auto. }
    split; [done|]. split; [done|].
    change (wh_deliveries (upd wh_deliveries ?g db)) with (g (wh_deliveries db)). cbv beta. split; [|split].
    - intros k d Hd. rewrite lookup_insert_ne; [done|]. congruence.
    - intros k d [[<- <-]|[_ Hd]]%lookup_insert_Some; auto.
    - rewrite lookup_insert_eq. eauto. }
  clearbody db1. destruct H1 as (E1 & E2 & E3 & E4 & E5).
  destruct (IH db1) as (F1 & F2 & F3 & F4 & F5). split; [congruence|]. split; [congruence|]. split; [auto|]. split.
  - intros k d Hd. destruct (F4 k d Hd) as [Hd'|(s' & v' & Hin & -> & Ha)].
    + destruct (E4 k d Hd') as [?|[-> Ha]]; [by left|]. right. exists s, v. split; [by left|done].
    + right. exists s', v'. split; [by right|done].
  - intros s' v' [[= -> ->]|Hin]%elem_of_cons; [|by eapply F5]. destruct E5 as [d Hd]. exists d. by apply F3.
Qed.

Lemma hook_event_inv now db queued started s v :
  0 < s -> (forall s' v', wh_events db !! s' = Some v' -> s' < s /\ wv_id v' <> wv_id v) ->
  hook_inv (mkWebhookWorld now db queued started) ->
  hook_inv (mkWebhookWorld now (upd wh_events (<[s := v]>) db) queued started).
Proof.
  intros Hpos Hlast [V1 V2 V3 V4 V5 V6 V7 V8]. simpl in *.
  assert (Hfw : forall s' v', wh_events db !! s' = Some v' -> (<[s := v]> (wh_events db)) !! s' = Some v').
  { intros s' v' Hs'. rewrite lookup_insert_ne; [done|]. intros ->. destruct (Hlast _ _ Hs'). lia. }
  split; simpl; change (wh_events (upd wh_events (<[s := v]>) db)) with (<[s := v]> (wh_events db)); auto.
  - intros a b va vb [[<- <-]|[_ Ha]]%lookup_insert_Some [[<- <-]|[_ Hb]]%lookup_insert_Some E;
      [done| | |by eapply V1].
    + by destruct (Hlast _ _ Hb) as [_ []].
    + by destruct (Hlast _ _ Ha) as [_ []].
  - intros id ev d Hd. destruct (V5 id ev d Hd) as (s' & v' & Hs' & ? & ?). eauto 6.
  - intros id e s0 s' v' Hid Hst [[<- <-]|[_ Hs']]%lookup_insert_Some Hsel Hle; [|by eapply V6].
    destruct (V7 id e Hid) as [Hc|(s1 & v1 & Hs1 & Hc)]; [lia|]. destruct (Hlast _ _ Hs1). lia.
  - intros id e Hid. destruct (V7 id e Hid) as [Hc|(s1 & v1 & Hs1 & Hc)]; [by left|right; eauto].
Qed.

Lemma hook_add_inv now db queued started actor url response db' :
  add_webhook config actor url now db = (response, db') ->
  hook_inv (mkWebhookWorld now db queued started) ->
  hook_inv (mkWebhookWorld now db' queued (started ∪ (we_enqueue_sequence <$> wh_endpoints db'))).
Proof.
  intros Ha W.
  (* Endpoints that were there keep their start. *)
  assert (Hsame : forall db1, wh_events db1 = wh_events db -> wh_endpoints db1 = wh_endpoints db ->
    wh_deliveries db1 = wh_deliveries db ->
    hook_inv (mkWebhookWorld now db1 queued (started ∪ (we_enqueue_sequence <$> wh_endpoints db1)))).
  { intros db1 E1 E2 E3. destruct W as [V1 V2 V3 V4 V5 V6 V7 V8]. simpl in *. split; simpl; rewrite ?E1, ?E2, ?E3; auto.
    - intros id e Hid. destruct (V4 id e Hid) as (s0 & Hs0 & Hle). exists s0. split; [|done].
      by apply lookup_union_Some_l.
    - intros id e s0 s v Hid Hst. destruct (V4 id e Hid) as (s1 & Hs1 & _).
      rewrite (lookup_union_Some_l _ _ _ _ Hs1) in Hst. injection Hst as <-. by eapply V6.
    - intros id s0 [Hs|[_ Hs]]%lookup_union_Some_raw; [by eapply V8|].
      rewrite lookup_fmap in Hs. by apply fmap_Some in Hs as (e & ? & _); eauto. }
  unfold add_webhook in Ha. destruct (validate_webhook_url url) as [parsed|]; [|injection Ha as <- <-; by apply Hsame].
  destruct (new_signing_material (wh_draws db)) as [[secret key_id] signing_key].
  set (id := new_v4 (wh_draws db + 2)) in *. set (db1 := upd wh_draws (N.add 3) db) in *.
  destruct (_ <=? _); [injection Ha as <- <-; by apply Hsame|].
  set (row := new_endpoint _ _ _ _ _ _) in *.
  destruct (negb _); [injection Ha as <- <-; by apply Hsame|].
  destruct (bool_decide (is_Some (wh_endpoints db1 !! id)) || _) eqn:Hg; [injection Ha as <- <-; by apply Hsame|].
  apply orb_false_iff in Hg as [Hfree _]. apply bool_decide_eq_false, eq_None_not_Some in Hfree.
  change (wh_endpoints db !! id = None) in Hfree. injection Ha as <- <-.
  change (wh_endpoints (upd wh_endpoints (<[id := row]>) db1)) with (<[id := row]> (wh_endpoints db)).
  specialize (Hsame db eq_refl eq_refl eq_refl). destruct W as [V1 V2 V3 V4 V5 V6 V7 V8]. simpl in *.
  assert (Hcur : we_enqueue_sequence row <= 0 \/ exists s v, wh_events db !! s = Some v /\ we_enqueue_sequence row <= s).
  { change (we_enqueue_sequence row) with (default 0 (max_sequence db)).
    destruct (max_sequence db) as [m|] eqn:Hm; [right|by left]. destruct (max_sequence_in db m Hm) as [v Hv].
    exists m, v. split; [done|]. simpl. lia. }
  set (started' := started ∪ (we_enqueue_sequence <$> <[id := row]> (wh_endpoints db))).
  assert (Hnew : started !! id = None).
  { apply eq_None_not_Some. intros [s0 [e He]%V8]. congruence. }
  assert (Hst : started' !! id = Some (we_enqueue_sequence row)).
  { unfold started'. rewrite lookup_union_r by done. by rewrite lookup_fmap, lookup_insert_eq. }
  split; simpl; auto.
  - intros id' s Hin. destruct (V2 id' s Hin) as (e & He & Hle). exists e. split; [|done].
    rewrite lookup_insert_ne; [done|]. congruence.
  - intros id' e [[<- <-]|[Hne He]]%lookup_insert_Some.
    + exists (we_enqueue_sequence row). split; [exact Hst|lia].
    + destruct (V4 id' e He) as (s0 & Hs0 & Hle). exists s0. split; [by apply lookup_union_Some_l|done].
  - intros id' e s0 s v [[<- <-]|[Hne He]]%lookup_insert_Some Hs0 Hs Hsel Hle.
    + assert (s0 = we_enqueue_sequence row) by congruence. lia.
    + destruct (V4 id' e He) as (s1 & Hs1 & _). unfold started' in Hs0.
      rewrite (lookup_union_Some_l _ _ _ _ Hs1) in Hs0. injection Hs0 as <-. by eapply V6.
  - intros id' e [[<- <-]|[Hne He]]%lookup_insert_Some; [exact Hcur|by eapply V7].
  - intros id' s0 [Hs|[_ Hs]]%lookup_union_Some_raw.
    + apply V8 in Hs as [e He]. exists e. rewrite lookup_insert_ne; [done|]. congruence.
    + rewrite lookup_fmap in Hs. by apply fmap_Some in Hs as (e & ? & _); eauto.
Qed.

Hypothesis batch_positive : 0 < wc_enqueue_batch_size config.

Lemma sequences_app id q q' : sequences id (q ++ q') = sequences id q ++ sequences id q'.
Proof. unfold sequences. by rewrite filter_app, map_app. Qed.

Lemma sequences_own id (rows : list (Z * WebhookEvent)) :
  sequences id (map (fun row => (id, fst row)) rows) = map fst rows.
Proof.
  unfold sequences. induction rows as [|r rows IH]; [done|]. simpl. by rewrite N.eqb_refl; simpl; rewrite IH.
Qed.

Lemma sequences_other id id' (rows : list (Z * WebhookEvent)) :
  id <> id' -> sequences id (map (fun row => (id', fst row)) rows) = [].
Proof.
  intros Hne. unfold sequences. induction rows as [|r rows IH]; [done|]. simpl.
  by rewrite (proj2 (N.eqb_neq id' id)) by congruence.
Qed.

Lemma in_sequences id s q : s ∈ sequences id q -> (id, s) ∈ q.
Proof.
  unfold sequences. intros Hin. apply list_elem_of_In, in_map_iff in Hin as ([i t] & <- & Hin).
  apply filter_In in Hin as [Hin E]. apply N.eqb_eq in E. simpl in E. subst. by apply list_elem_of_In.
Qed.

(** The rows a pass takes are the ones it stores: none was stored before. *)
Lemma stored_taken now db db1 queued started id e e' cursor (taken : list (Z * WebhookEvent)) :
  hook_inv (mkWebhookWorld now db queued started) -> wh_endpoints db !! id = Some e ->
  (forall s v, (s, v) ∈ taken <-> wh_events db !! s = Some v /\ wv_seller v = Some (we_seller e) /\
     we_enqueue_sequence e < s <= cursor /\ now - days (wc_event_retention_days config) <= wv_occurred_at v) ->
  wh_events db1 = wh_events db ->
  (forall k d, wh_deliveries db1 !! k = Some d ->
     wh_deliveries db !! k = Some d \/ exists s v, (s, v) ∈ taken /\ k = (id, wv_id v) /\ dl_attempt_count d = 0) ->
  (forall s v, (s, v) ∈ taken -> is_Some (wh_deliveries db1 !! (id, wv_id v))) ->
  let db' := upd wh_endpoints (<[id := e']>) db1 in
  forall s v, (s, v) ∈ chosen_events (newly_stored id db db') db' <-> (s, v) ∈ taken.
Proof.
  intros W He Hspec E1 E4 E5 db' s v. rewrite chosen_elem. unfold newly_stored.
  change (wh_events db') with (wh_events db1). change (wh_deliveries db') with (wh_deliveries db1).
  rewrite E1, andb_true_iff, !bool_decide_eq_true. cbn [snd]. split.
  - intros (Hs & Hnone & d & Hd). destruct (E4 _ _ Hd) as [Hd'|(s' & v' & Hin & E & _)]; [congruence|].
    injection E as E. pose proof (proj1 (Hspec s' v') Hin) as (Hs' & _).
    assert (s = s') as <- by (by eapply (hi_event _ W)). simpl in *. by rewrite Hs in Hs'; injection Hs' as <-.
  - intros Hin. pose proof (proj1 (Hspec s v) Hin) as (Hs & _ & Hlt & _). split; [done|].
    split; [|by eapply E5]. destruct (wh_deliveries db !! (id, wv_id v)) as [d|] eqn:Hd; [exfalso|done].
    destruct (hi_delivery _ W id (wv_id v) d Hd) as (s1 & v1 & Hs1 & Hv & Hq).
    assert (s1 = s) as -> by (by eapply (hi_event _ W)).
    destruct (hi_queued _ W id s Hq) as (e0 & He0 & Hle). simpl in He0. rewrite He in He0. injection He0 as <-. lia.
Qed.

Lemma hook_enqueue_inv now db queued started id :
  hook_inv (mkWebhookWorld now db queued started) ->
  hook_inv (mkWebhookWorld now (enqueue_endpoint config now db id)
    (queued ++ stored_by id db (enqueue_endpoint config now db id)) started).
Proof.
  intros W. unfold enqueue_endpoint, keep. destruct (wh_endpoints db !! id) as [e|] eqn:He; cbn.
  2: { by rewrite stored_by_same, app_nil_r. }
  destruct (endpoint_live e) eqn:Hlive; [|by rewrite stored_by_same, app_nil_r].
  destruct (enqueue_rows config e now db) as [taken cursor] eqn:Hrows.
  destruct (enqueue_rows_spec config e now db taken cursor batch_positive Hrows) as (_ & Hcur & Hspec0).
  destruct (insert_deliveries id e now taken db) as (E1 & E2 & E3 & E4 & E5).
  set (db1 := foldl (insert_delivery id e now) db taken) in *. clearbody db1.
  set (e' := e <| we_enqueue_sequence := cursor |> <| we_enqueue_checked_at := Some now |>).
  unfold stored_by. set (rows := chosen_events _ _).
  assert (Hch : forall s v, (s, v) ∈ rows <-> (s, v) ∈ taken).
  { exact (stored_taken _ _ _ _ _ _ _ _ _ _ W He Hspec0 E1 E4 E5). }
  assert (Hsort : StronglySorted Z.lt (map fst rows)) by apply chosen_sorted. clearbody rows.
  assert (Hspec : forall s v, (s, v) ∈ rows <-> wh_events db !! s = Some v /\ wv_seller v = Some (we_seller e) /\
     we_enqueue_sequence e < s <= cursor /\ now - days (wc_event_retention_days config) <= wv_occurred_at v)
    by (intros s v; rewrite Hch; apply Hspec0).
  assert (Hnew : forall s, (id, s) ∈ map (fun row : Z * WebhookEvent => (id, fst row)) rows -> we_enqueue_sequence e < s <= cursor).
  { intros s Hin. apply list_elem_of_In, in_map_iff in Hin as ([s' v] & [= <-] & Hin%list_elem_of_In).
    apply Hspec in Hin. tauto. }
  destruct W as [V1 V2 V3 V4 V5 V6 V7 V8]. simpl in *.
  split; simpl; change (wh_events (upd wh_endpoints (<[id := e']>) db1)) with (wh_events db1);
    change (wh_deliveries (upd wh_endpoints (<[id := e']>) db1)) with (wh_deliveries db1);
    change (wh_endpoints (upd wh_endpoints (<[id := e']>) db1)) with (<[id := e']> (wh_endpoints db1)); rewrite ?E1, ?E2.
  - exact V1.
  - intros id' s Hin. destruct (decide (id' = id)) as [->|Hne].
    + exists e'. rewrite lookup_insert_eq. split; [done|]. change (s <= cursor).
      apply elem_of_app in Hin as [Hin|Hin]; [|apply Hnew in Hin; lia]. destruct (V2 _ _ Hin) as (e0 & He0 & Hle).
      rewrite He in He0. injection He0 as <-. lia.
    + rewrite lookup_insert_ne by done. apply elem_of_app in Hin as [Hin|Hin]; [by apply V2|].
      apply list_elem_of_In, in_map_iff in Hin as (r & E & _). congruence.
  - intros id'. rewrite sequences_app. destruct (decide (id' = id)) as [->|Hne].
    + rewrite sequences_own. apply StronglySorted_app. split; [|split; [apply V3|exact Hsort]].
      intros s s' Hs%in_sequences Hs'. destruct (V2 id s Hs) as (e0 & He0 & Hle). rewrite He in He0. injection He0 as <-.
      apply list_elem_of_In, in_map_iff in Hs' as ([s1 v1] & <- & Hin%list_elem_of_In). apply Hspec in Hin. simpl. lia.
    + rewrite sequences_other, app_nil_r by done. apply V3.
  - intros id' e0 [[<- <-]|[_ He0]]%lookup_insert_Some; [|by apply V4].
    destruct (V4 id e He) as (s0 & Hs0 & Hle). exists s0. split; [done|]. change (s0 <= cursor). lia.
  - intros id' ev d Hd. destruct (E4 _ _ Hd) as [Hd'|(s & v & Hin%Hch & [= -> ->] & _)].
    + destruct (V5 id' ev d Hd') as (s & v & Hs & Hv & Hin). exists s, v. repeat split; try done. apply elem_of_app. by left.
    + exists s, v. pose proof (proj1 (Hspec s v) Hin) as (Hs & _). repeat split; try done. apply elem_of_app. right.
      apply list_elem_of_In, in_map_iff. exists (s, v). split; [done|]. by apply list_elem_of_In.
  - intros id' e0 s0 s v [[<- <-]|[_ He0]]%lookup_insert_Some Hs0 Hs Hsel Hle.
    + change (wv_seller v = Some (we_seller e)) in Hsel. change (s0 < s <= cursor) in Hle.
      destruct (Z.le_gt_cases s (we_enqueue_sequence e)) as [Hold|Hgt].
      * destruct (V6 id e s0 s v He Hs0 Hs Hsel) as [Hin|]; [lia| |by right]. left. apply elem_of_app. by left.
      * destruct (Z.le_gt_cases (now - days (wc_event_retention_days config)) (wv_occurred_at v)) as [Hr|Hr]; [left|right; lia].
        apply elem_of_app. right. apply list_elem_of_In, in_map_iff. exists (s, v). split; [done|].
        apply list_elem_of_In, Hspec. repeat split; try done; lia.
    + destruct (V6 id' e0 s0 s v He0 Hs0 Hs Hsel Hle) as [Hin|]; [|by right]. left. apply elem_of_app. by left.
  - intros id' e0 [[<- <-]|[_ He0]]%lookup_insert_Some; [|by eapply V7]. change (we_enqueue_sequence e') with cursor.
    exact (enqueue_cursor_visible config e now db taken cursor Hrows (V7 id e He)).
  - intros id' s0 Hs0. destruct (decide (id' = id)) as [->|Hne]; [rewrite lookup_insert_eq; eauto|].
    rewrite lookup_insert_ne by done. by eapply V8.
Qed.

Lemma hook_inv_step w w' : webhook_step w w' -> hook_inv w -> hook_inv w'.
Proof.
  intros Hs W. destruct Hs.
  - destruct W as [V1 V2 V3 V4 V5 V6 V7 V8]. simpl in *. split; simpl; auto.
    intros id e s0 s v He Hs0 Hs Hsel Hle. destruct (V6 id e s0 s v He Hs0 Hs Hsel Hle); [by left|right; lia].
  - by apply hook_event_inv.
  - by eapply hook_add_inv.
  - unfold rotate_webhook. destruct (new_signing_material (wh_draws db)) as [[secret key_id] signing_key].
    set (db1 := upd wh_draws (N.add 2) db).
    destruct (owned_endpoint actor id db1) as [e|] eqn:He; simpl; [|revert W; by apply hook_frame; eauto].
    apply owned_endpoint_spec in He as (He & _ & _). revert W.
    apply hook_frame; [done| |intros k d Hd; by exists d].
    intros id'. by apply (endpoint_replaced (wh_endpoints db) id e).
  - unfold delete_webhook. destruct (owned_endpoint actor id db) as [e|] eqn:He; simpl; [|done].
    apply owned_endpoint_spec in He as (He & _ & _). revert W. apply hook_frame; [done| |].
    + intros id'. by apply (endpoint_replaced (wh_endpoints db) id e).
    + intros k d Hd. change (map_imap (fun key d => Some (abandon id now key d)) (wh_deliveries db) !! k = Some d) in Hd.
      rewrite map_lookup_imap in Hd. destruct (wh_deliveries db !! k); [eauto|done].
  - by apply hook_enqueue_inv.
  - destruct (lease_frame now db) as (E1 & E2 & E3). revert W. apply hook_frame; [done| |done]. by rewrite E2.
  - destruct (outcome_frame d now status db) as (E1 & E2 & E3). revert W. apply hook_frame; [done| |done]. by rewrite E2.
  - revert W. apply hook_frame; [done|done|]. intros k d Hd. exists d. exact (purge_oldest_subset delivery_ended _ _ (wh_deliveries db) k d Hd).
Qed.

Lemma hook_reachable_inv w : webhook_reachable w -> hook_inv w.
Proof.
  intros Hr. unfold webhook_reachable in Hr.
  assert (W : hook_inv webhook_start).
  { split; simpl; try done; try (by intros ? ? ?%not_elem_of_nil). intros id. constructor. }
  revert W. induction Hr; eauto using hook_inv_step.
Qed.

(** C22. Along every run in which events become visible in the order of their
    sequences, the deliveries stored for an endpoint over its whole life are of
    increasing sequence: no event is enqueued twice for it, not even after its
    delivery was purged, and none after a later one.  Every delivery in the
    table is of an event that was enqueued; and for each event of the seller
    that the endpoint's cursor has passed since it was registered, a delivery
    was stored, unless the event is older than the retention.  (The batch size
    is positive.  This is the order of enqueuing: a retried delivery can reach
    the endpoint after later ones.) *)
Theorem events_enqueued_in_order w id e :
  webhook_reachable w -> wh_endpoints (ww_db w) !! id = Some e ->
  StronglySorted Z.lt (sequences id (ww_queued w)) /\
  (forall ev d, wh_deliveries (ww_db w) !! (id, ev) = Some d ->
     exists s v, wh_events (ww_db w) !! s = Some v /\ wv_id v = ev /\ s ∈ sequences id (ww_queued w)) /\
  exists start, ww_started w !! id = Some start /\ start <= we_enqueue_sequence e /\
    forall s v, wh_events (ww_db w) !! s = Some v -> wv_seller v = Some (we_seller e) ->
      start < s <= we_enqueue_sequence e ->
      s ∈ sequences id (ww_queued w) \/
      wv_occurred_at v < ww_now w - days (wc_event_retention_days config).
Proof.
  intros Hr He. apply hook_reachable_inv in Hr as [V1 V2 V3 V4 V5 V6 V7 V8].
  assert (Hin : forall s, (id, s) ∈ ww_queued w -> s ∈ sequences id (ww_queued w)).
  { intros s Hin. apply list_elem_of_In, in_map_iff. exists (id, s). split; [done|]. apply filter_In.
    split; [by apply list_elem_of_In|]. apply N.eqb_refl. }
  split; [apply V3|]. split.
  - intros ev d Hd. destruct (V5 id ev d Hd) as (s & v & Hs & Hv & Hq). eauto 6.
  - destruct (V4 id e He) as (start & Hst & Hle). exists start. split; [done|]. split; [done|].
    intros s v Hs Hsel Hrange. destruct (V6 id e start s v He Hst Hs Hsel Hrange); auto.
Qed.
End WebhookRuns.

(** ** An event that becomes visible late *)

Section Late.
Context `{UC : !UuidCrate, JT : !JsonText, LC : !LocksCrates, IC : !InventoryCrates, AC : !AuthCrates,
          WC : !WebhookCrates}.
Context (config : WebhookConfig).
Hypothesis batch_positive : 0 < wc_enqueue_batch_size config.

(** C40. A transaction takes its sequence before it commits.  An event whose
    sequence an endpoint's cursor has passed when it becomes visible is not
    enqueued for that endpoint by any later pass. *)
Theorem late_event_skipped id e s v db passes :
  wh_endpoints db !! id = Some e -> s <= we_enqueue_sequence e ->
  wh_deliveries db !! (id, wv_id v) = None -> wh_events db !! s = None ->
  (forall s' v', wh_events db !! s' = Some v' -> wv_id v' <> wv_id v) ->
  let visible := upd wh_events (<[s := v]>) db in
  wh_deliveries (foldl (fun db now => enqueue_endpoint config now db id) visible passes) !! (id, wv_id v) = None.
Proof.
  intros He Hle Hd _ Hid visible.
  enough (Hg : forall passes db', (exists e', wh_endpoints db' !! id = Some e' /\ s <= we_enqueue_sequence e') ->
    wh_events db' = <[s := v]> (wh_events db) -> wh_deliveries db' !! (id, wv_id v) = None ->
    wh_deliveries (foldl (fun db now => enqueue_endpoint config now db id) db' passes) !! (id, wv_id v) = None).
  { apply Hg; [by exists e|done|done]. }
  clear passes Hd He Hle e. induction passes as [|now passes IH]; intros db' (e & He & Hle) Hev Hnone; simpl; [done|].
  unfold enqueue_endpoint at 2, keep. rewrite He. cbn. destruct (endpoint_live e); [|apply IH; [by exists e|done|done]].
  destruct (enqueue_rows config e now db') as [rows cursor] eqn:Hrows.
  destruct (enqueue_rows_spec config e now db' rows cursor batch_positive Hrows) as (_ & Hcur & Hspec).
  destruct (insert_deliveries id e now rows db') as (E1 & E2 & _ & E4 & _).
  apply IH.
  - exists (e <| we_enqueue_sequence := cursor |> <| we_enqueue_checked_at := Some now |>).
    split; [exact (lookup_insert_eq (wh_endpoints (foldl (insert_delivery id e now) db' rows)) id _)|].
    change (s <= cursor). lia.
  - change (wh_events (foldl (insert_delivery id e now) db' rows) = <[s := v]> (wh_events db)). by rewrite E1.
  - change (wh_deliveries (foldl (insert_delivery id e now) db' rows) !! (id, wv_id v) = None).
    destruct (wh_deliveries (foldl (insert_delivery id e now) db' rows) !! (id, wv_id v)) as [d|] eqn:Hd; [|done].
    destruct (E4 _ _ Hd) as [?|(s' & v' & Hin & [= E] & _)]; [congruence|]. apply Hspec in Hin as (Hs' & _ & Hrange & _).
    rewrite Hev in Hs'. apply lookup_insert_Some in Hs' as [[<- _]|[_ Hs']]; [lia|]. by destruct (Hid _ _ Hs').
Qed.
End Late.

(** ** Retries *)

Section Retries.
Context (config : WebhookConfig).

(** The wait before the next attempt doubles from the base up to the maximum. *)
Lemma webhook_backoff_bounds attempt :
  0 < wc_retry_base_seconds config <= i64_max -> wc_retry_base_seconds config <= wc_retry_max_seconds config <= i64_max ->
  1 <= attempt ->
  wc_retry_base_seconds config <= webhook_backoff config attempt <= wc_retry_max_seconds config /\
  (attempt <= 21 -> wc_retry_base_seconds config * 2 ^ (attempt - 1) <= wc_retry_max_seconds config ->
   webhook_backoff config attempt = wc_retry_base_seconds config * 2 ^ (attempt - 1)).
Proof.
  intros Hb Hm Ha. unfold webhook_backoff, saturating_mul.
  assert (Hp : 1 <= 2 ^ Z.max 0 (Z.min (attempt - 1) 20)).
  { pose proof (Z.pow_pos_nonneg 2 (Z.max 0 (Z.min (attempt - 1) 20))). lia. }
  unfold i64_min. split; [split; [nia|lia]|].
  intros H21 Hfit. replace (Z.max 0 (Z.min (attempt - 1) 20)) with (attempt - 1) by lia. nia.
Qed.

(** The outcomes of a delivery's attempts, one after the other, while it is pending. *)
Fixpoint attempts (e : EndpointRow) (key : Uuid * Uuid) (outcomes : list (Time * option Z)) (db : WebhookDb)
    : WebhookDb :=
  match outcomes, keep undelivered (wh_deliveries db !! key) with
  | (now, status) :: rest, Some row =>
      attempts e key rest (snd (persist_delivery_outcome config (read_delivery key e row) now status db))
  | _, _ => db
  end.

Lemma update_pending_lookup key change db row :
  wh_deliveries db !! key = Some row -> undelivered row = true ->
  wh_deliveries (update_pending key change db) !! key = Some (change row).
Proof.
  intros Hk Hp. unfold update_pending, keep. rewrite Hk. cbn. rewrite Hp.
  exact (lookup_insert_eq (wh_deliveries db) key (change row)).
Qed.

(** One attempt counts, and ends the delivery when it was the last allowed. *)
Lemma attempt_counts e key now status db row :
  wh_deliveries db !! key = Some row -> undelivered row = true ->
  exists row', wh_deliveries (snd (persist_delivery_outcome config (read_delivery key e row) now status db)) !! key
                 = Some row' /\ dl_attempt_count row' = dl_attempt_count row + 1 /\
    (wc_max_attempts config <= dl_attempt_count row + 1 -> undelivered row' = false).
Proof.
  intros Hk Hp. destruct key as [a b]. unfold persist_delivery_outcome, read_delivery. simpl.
  set (attempt := dl_attempt_count row + 1).
  destruct (match status with Some s => _ | None => _ end).
  { eexists. split; [by apply update_pending_lookup|]. split; [done|]. intros _. unfold undelivered. vm_compute. reflexivity. }
  destruct (wc_max_attempts config <=? attempt) eqn:Hm; simpl.
  - eexists. split.
    { match goal with |- context [wh_dead_letters ?d !! ?k] => destruct (wh_dead_letters d !! k) end;
        [by apply update_pending_lookup|].
      match goal with |- wh_deliveries (upd wh_dead_letters _ ?d) !! _ = _ =>
        change (wh_deliveries d !! (a, b) = Some ?row') || idtac end.
      exact (update_pending_lookup (a, b) _ db row Hk Hp). }
    split; [done|]. intros _. unfold undelivered.
    change (bool_decide (dl_delivered_at row = None) && bool_decide (Some now = None) = false).
    by rewrite (bool_decide_eq_false_2 (Some now = None)), andb_false_r.
  - apply Z.leb_gt in Hm. destruct (_ <=? _).
    + eexists. split.
      { match goal with |- context [wh_dead_letters ?d !! ?k] => destruct (wh_dead_letters d !! k) end;
          exact (update_pending_lookup (a, b) _ db row Hk Hp). }
      split; [done|lia].
    + eexists. split; [exact (update_pending_lookup (a, b) _ db row Hk Hp)|]. split; [done|lia].
Qed.

(** A delivery does not retry for ever: after as many attempts as are allowed,
    whatever they met, it is delivered or dead-lettered. *)
Theorem delivery_retries_end e key outcomes db row :
  wh_deliveries db !! key = Some row -> undelivered row = true -> 0 <= dl_attempt_count row < wc_max_attempts config ->
  wc_max_attempts config <= dl_attempt_count row + Z.of_nat (length outcomes) ->
  exists row', wh_deliveries (attempts e key outcomes db) !! key = Some row' /\ undelivered row' = false /\
    dl_attempt_count row' <= wc_max_attempts config.
Proof.
  revert db row. induction outcomes as [|[now status] outcomes IH]; intros db row Hk Hp Hn Hlen; [simpl in Hlen; lia|].
  simpl. unfold keep. rewrite Hk. cbn. rewrite Hp.
  destruct (attempt_counts e key now status db row Hk Hp) as (row' & Hk' & Hc & Hend).
  destruct (undelivered row') eqn:Hp'.
  - destruct (Z.le_gt_cases (wc_max_attempts config) (dl_attempt_count row + 1)) as [Hle|Hgt];
      [by specialize (Hend Hle)|]. apply (IH _ row' Hk' Hp'); [lia|]. rewrite Hc. simpl in Hlen. lia.
  - exists row'. destruct outcomes as [|[now' status'] outcomes]; simpl.
    + split; [exact Hk'|]. split; [done|lia].
    + unfold keep. rewrite Hk'. cbn. rewrite Hp'. split; [exact Hk'|]. split; [done|lia].
Qed.

(** A failed last attempt that another worker's success overtook still leaves a
    dead letter for the delivered event. *)
Lemma overtaken_failure_dead_letters d now status db row t :
  wh_deliveries db !! (dv_endpoint_id d, dv_event_id d) = Some row -> dl_delivered_at row = Some t ->
  wh_dead_letters db !! (dv_endpoint_id d, dv_event_id d) = None ->
  wc_max_attempts config <= dv_attempt_count d + 1 ->
  match status with Some s => between 200 s 299 | None => false end = false ->
  let db' := snd (persist_delivery_outcome config d now status db) in
  wh_deliveries db' !! (dv_endpoint_id d, dv_event_id d) = Some row /\
  is_Some (wh_dead_letters db' !! (dv_endpoint_id d, dv_event_id d)).
Proof.
  intros Hk Hdel Hdl Hmax Hst. unfold persist_delivery_outcome. rewrite Hst.
  apply Z.leb_le in Hmax. rewrite Hmax. simpl.
  assert (E : forall change, update_pending (dv_endpoint_id d, dv_event_id d) change db = db).
  { intros change. unfold update_pending, keep. rewrite Hk. cbn. unfold undelivered. by rewrite Hdel. }
  rewrite E, Hdl. split; [exact Hk|].
  exists (dv_attempt_count d + 1, status, now).
  exact (lookup_insert_eq (wh_dead_letters db) (dv_endpoint_id d, dv_event_id d) _).
Qed.
End Retries.

(** ** Reading the feed *)

Lemma byte_of_small n : (n < 256)%N -> byte_of (Ascii.ascii_of_N n) = Z.of_N n.
Proof. intros Hn. unfold byte_of. by rewrite Ascii.N_ascii_embedding. Qed.

Lemma be_bytes_number k n : number (bytes (be_bytes k n)) = Z.of_N n mod 256 ^ Z.of_nat k.
Proof.
  revert n. induction k as [|k IH]; intros n; [change (256 ^ Z.of_nat 0) with 1; by rewrite Z.mod_1_r|].
  cbn [be_bytes]. rewrite bytes_app, number_app, IH. cbn [bytes length].
  rewrite byte_of_small by (apply N.mod_lt; lia).
  change (256 ^ Z.of_nat 1) with 256. replace (number [Z.of_N (n mod 256)]) with (Z.of_N (n mod 256))
    by (unfold number; cbn [fold_left]; lia).
  rewrite N2Z.inj_div, N2Z.inj_mod, Nat2Z.inj_succ, Z.pow_succ_r by lia. change (Z.of_N 256) with 256.
  rewrite Z.rem_mul_r by lia. lia.
Qed.

Lemma be_bytes_length k n : String.length (be_bytes k n) = k.
Proof.
  revert n. induction k as [|k IH]; intros n; [done|]. cbn [be_bytes].
  rewrite <- length_bytes, bytes_app, length_app, length_bytes, IH. simpl. lia.
Qed.

Section Feed.
Context `{UC : !UuidCrate, JT : !JsonText, LC : !LocksCrates, IC : !InventoryCrates, AC : !AuthCrates,
          WC : !WebhookCrates}.
Hypothesis b64_law : forall s, b64_decode (b64_encode s) = Some s.

Lemma cursor_round_trip s : 0 <= s <= i64_max -> decode_cursor (encode_cursor s) = Some s.
Proof.
  intros Hs. unfold decode_cursor, encode_cursor. rewrite b64_law.
  pose proof (be_bytes_length 8 (Z.to_N (s mod 2 ^ 64))) as Hl.
  pose proof (be_bytes_number 8 (Z.to_N (s mod 2 ^ 64))) as Hv.
  revert Hl Hv. generalize (be_bytes 8 (Z.to_N (s mod 2 ^ 64))) as raw. intros raw Hl Hv. simpl.
  unfold byte_len. rewrite Hl. change (Z.of_nat 8 =? 8) with true. cbv iota.
  change (be_i64 raw) with (number (bytes raw)). rewrite Hv. change (256 ^ Z.of_nat 8) with (2 ^ 64).
  unfold i64_max in Hs. rewrite (Z.mod_small s), Z2N.id, Z.mod_small by lia.
  rewrite wrap64_id by (apply in_i64_spec; unfold i64_min, i64_max; lia).
  destruct (Z.leb_spec 0 s); [done|lia].
Qed.

(** The seller's client: it asks for a page, then for the page after the cursor
    it was given, until there is none, one request at each of the moments. *)
Inductive FeedRead :=
| FeedComplete (events : list Json)
| FeedOpen (events : list Json)
| FeedRefused (events : list Json) (response : HttpResponse).

Definition fr_events (r : FeedRead) : list Json :=
  match r with FeedComplete l | FeedOpen l | FeedRefused l _ => l end.

Definition after_page (page : list Json) (r : FeedRead) : FeedRead :=
  match r with
  | FeedComplete l => FeedComplete (page ++ l)
  | FeedOpen l => FeedOpen (page ++ l)
  | FeedRefused l response => FeedRefused (page ++ l) response
  end.

Fixpoint read_feed (config : WebhookConfig) (seller : Pubky) (limit : option Z)
    (moments : list (Time * WebhookDb)) (cursor : option string) : FeedRead :=
  match moments with
  | [] => FeedOpen []
  | (now, db) :: moments =>
      let response := fst (list_seller_events config seller seller (mkPageQuery limit cursor) None now db) in
      match get "events" (rp_body response), get "next_cursor" (rp_body response) with
      | Some (JArray page), Some JNull => FeedComplete page
      | Some (JArray page), Some (JString next) =>
          after_page page (read_feed config seller limit moments (Some next))
      | _, _ => FeedRefused [] response
      end
  end.

Lemma conditional_fresh body : rp_body (fst (conditional_json None body)) = body.
Proof. done. Qed.

(** A page of the events after a retained one. *)
Lemma feed_page_body config seller query after limit now db page next :
  page_limit query = Some limit ->
  match page_sequence query with Some (Some s) => s = after | Some None => False | None => after = 0 end ->
  check_cursor seller after (now - days (wc_event_retention_days config)) db = None ->
  event_page seller after limit (now - days (wc_event_retention_days config)) db = (page, next) ->
  rp_body (fst (list_seller_events config seller seller query None now db)) =
  event_feed seller page (encode_cursor <$> next).
Proof.
  intros Hl Hs Hc Hp. unfold list_seller_events. rewrite String.eqb_refl, Hl. cbn [negb].
  destruct (page_sequence query) as [[s|]|]; [| done |]; subst; rewrite Hc, Hp; done.
Qed.

(** Time passes and events are added, above the sequences that were visible. *)
Definition later_moment (m m' : Time * WebhookDb) : Prop :=
  fst m <= fst m' /\ wh_events (snd m) ⊆ wh_events (snd m') /\
  forall s v s0 v0, wh_events (snd m') !! s = Some v -> wh_events (snd m) !! s = None ->
    wh_events (snd m) !! s0 = Some v0 -> s0 < s.

Section Pages.
Context (config : WebhookConfig) (seller : Pubky) (limit : Z).
Hypothesis limit_ok : 1 <= limit <= MAX_PAGE_SIZE.

(** The events of the seller that are retained at a moment. *)
Definition retained (m : Time * WebhookDb) (row : Z * WebhookEvent) : Prop :=
  wh_events (snd m) !! fst row = Some (snd row) /\ wv_seller (snd row) = Some seller /\
  fst m - days (wc_event_retention_days config) <= wv_occurred_at (snd row).

Definition values (rows : list (Z * WebhookEvent)) : list Json :=
  map (fun '(sequence, row) => event_value seller sequence row) rows.

(** What was read after a sequence, and how the reading ended. *)
Definition read_after (after : Z) (moments : list (Time * WebhookDb)) (r : FeedRead)
    (rows : list (Z * WebhookEvent)) : Prop :=
  fr_events r = values rows /\ StronglySorted Z.lt (map fst rows) /\
  (forall row, row ∈ rows -> after < fst row /\ exists m, m ∈ moments /\ retained m row) /\
  match r with
  | FeedComplete _ => exists m, m ∈ moments /\ forall row, retained m row -> after < fst row -> row ∈ rows
  | FeedOpen _ => Z.of_nat (length rows) = limit * Z.of_nat (length moments)
  | FeedRefused _ response => rp_status response = 410 /\
      exists m s v, m ∈ moments /\ s = default after (fst <$> list.last rows) /\
        wh_events (snd m) !! s = Some v /\
        wv_occurred_at v < fst m - days (wc_event_retention_days config)
  end.

Lemma retained_listed m after row :
  row ∈ seller_events seller after (fst m - days (wc_event_retention_days config)) (snd m) <->
  retained m row /\ after < fst row.
Proof.
  destruct row as [s v]. rewrite seller_events_elem. unfold event_due, of_seller, retained. simpl.
  rewrite !andb_true_iff, bool_decide_eq_true, Z.ltb_lt, Z.leb_le. tauto.
Qed.

(** A retained event that was passed over is on the page. *)
Lemma passed_on_page m m' after page s v row n :
  later_moment m m' ->
  page = take n (seller_events seller after (fst m - days (wc_event_retention_days config)) (snd m)) ->
  list.last page = Some (s, v) -> retained m' row -> after < fst row -> fst row <= s -> row ∈ page.
Proof.
  intros (Ht & Hsub & Hnew) -> Hlast (Hrow & Hsel & Hret) Ha Hs. destruct row as [x w]. simpl in *.
  assert (Hin : (s, v) ∈ seller_events seller after (fst m - days (wc_event_retention_days config)) (snd m)).
  { eapply (subseteq_take n). by apply last_Some_elem_of. }
  apply retained_listed in Hin as [(Hv & _) _]. simpl in Hv.
  assert (Hx : wh_events (snd m) !! x = Some w).
  { destruct (wh_events (snd m) !! x) as [w'|] eqn:E.
    - rewrite (lookup_weaken _ _ _ _ E Hsub) in Hrow. congruence.
    - pose proof (Hnew x w s v Hrow E Hv). lia. }
  eapply take_prefix; [apply seller_events_sorted| |exact Hlast|exact Hs].
  apply retained_listed. split; [|done]. split; [done|]. split; [done|]. simpl. lia.
Qed.

(** The cursor of an event of the seller: refused only once it expired. *)
Lemma check_cursor_known after m v :
  wh_events (snd m) !! after = Some v -> wv_seller v = Some seller ->
  let cutoff := fst m - days (wc_event_retention_days config) in
  check_cursor seller after cutoff (snd m) =
  if (0 <? after) && (wv_occurred_at v <? cutoff)
  then Some (automation_error 410 "cursor_expired" "The cursor has expired; perform a full pull.") else None.
Proof.
  intros Hv Hsel cutoff. unfold check_cursor, keep. destruct (Z.leb_spec after 0), (Z.ltb_spec 0 after); try lia; [done|].
  assert (Hof : of_seller seller v = true) by (by apply bool_decide_eq_true). rewrite Hv. cbn. rewrite Hof. cbn.
  destruct (wv_occurred_at v <? cutoff); done.
Qed.

Lemma query_limit cursor : page_limit (mkPageQuery (Some limit) cursor) = Some limit.
Proof.
  unfold page_limit, between. simpl. by destruct (Z.leb_spec 1 limit), (Z.leb_spec limit MAX_PAGE_SIZE); try lia.
Qed.

(** Where a request stands: at the start, or after an event it was given. *)
Definition stands (cursor : option string) (after : Z) (moments : list (Time * WebhookDb)) : Prop :=
  match cursor with
  | None => after = 0
  | Some text => text = encode_cursor after /\ 0 < after <= i64_max /\
      exists v, wv_seller v = Some seller /\ Forall (fun m => wh_events (snd m) !! after = Some v) moments
  end.

Lemma stands_sequence cursor after moments :
  stands cursor after moments ->
  match page_sequence (mkPageQuery (Some limit) cursor) with
  | Some (Some s) => s = after | Some None => False | None => after = 0 end.
Proof.
  unfold stands, page_sequence. destruct cursor as [text|]; [|done]. intros (-> & Hr & _). simpl.
  by rewrite cursor_round_trip by lia.
Qed.

(** A page that is not the last. *)
Lemma page_more after (m : Time * WebhookDb) page s :
  event_page seller after limit (fst m - days (wc_event_retention_days config)) (snd m) = (page, Some s) ->
  page = take (Z.to_nat limit) (seller_events seller after (fst m - days (wc_event_retention_days config)) (snd m)) /\
  Z.of_nat (length page) = limit /\ exists v, list.last page = Some (s, v).
Proof.
  unfold event_page. set (rows := seller_events _ _ _ _). rewrite take_take.
  replace (Z.to_nat limit `min` Z.to_nat (limit + 1))%nat with (Z.to_nat limit) by lia.
  destruct (Z.ltb_spec limit (Z.of_nat (length (take (Z.to_nat (limit + 1)) rows)))) as [Hl|]; [|done].
  rewrite length_take in Hl. destruct (list.last (take (Z.to_nat limit) rows)) as [[s' v]|] eqn:E; [|done].
  simpl. intros [= <- <-]. rewrite length_take. split; [done|]. split; [lia|by exists v].
Qed.

Lemma page_last after (m : Time * WebhookDb) page :
  event_page seller after limit (fst m - days (wc_event_retention_days config)) (snd m) = (page, None) ->
  page = seller_events seller after (fst m - days (wc_event_retention_days config)) (snd m).
Proof.
  unfold event_page. set (rows := seller_events _ _ _ _). rewrite take_take.
  replace (Z.to_nat limit `min` Z.to_nat (limit + 1))%nat with (Z.to_nat limit) by lia.
  destruct (Z.ltb_spec limit (Z.of_nat (length (take (Z.to_nat (limit + 1)) rows)))) as [Hl|Hl].
  - rewrite length_take in Hl. destruct (list.last (take (Z.to_nat limit) rows)) as [x|] eqn:E; [done|].
    apply last_None, (f_equal length) in E. rewrite length_take in E. simpl in E. lia.
  - intros [= <-]. rewrite length_take in Hl. apply take_ge. lia.
Qed.

(** The answer at a moment. *)
Lemma feed_answer cursor after m moments :
  stands cursor after (m :: moments) ->
  let response := fst (list_seller_events config seller seller (mkPageQuery (Some limit) cursor) None (fst m) (snd m)) in
  (exists page next, event_page seller after limit (fst m - days (wc_event_retention_days config)) (snd m) = (page, next) /\
     rp_body response = event_feed seller page (encode_cursor <$> next)) \/
  (response = automation_error 410 "cursor_expired" "The cursor has expired; perform a full pull." /\
   exists v, wh_events (snd m) !! after = Some v /\ wv_occurred_at v < fst m - days (wc_event_retention_days config)).
Proof.
  intros Hst response. set (cutoff := fst m - days (wc_event_retention_days config)).
  destruct (check_cursor seller after cutoff (snd m)) as [refusal|] eqn:Hchk.
  - right. unfold stands in Hst. destruct cursor as [text|]; [|by subst].
    destruct Hst as (E & Hr & v & Hsel & Hall). apply Forall_cons_1 in Hall as [Hv _].
    pose proof (check_cursor_known after m v Hv Hsel) as Hk. fold cutoff in Hk. cbn zeta in Hk. rewrite Hchk in Hk.
    destruct (_ && _) eqn:Hexp; [|done]. injection Hk as ->. split; [|exists v; split; [done|]].
    + unfold response, list_seller_events. rewrite String.eqb_refl, query_limit. cbn [negb].
      unfold page_sequence. simpl. rewrite E, cursor_round_trip by lia. fold cutoff. by rewrite Hchk.
    + apply andb_true_iff in Hexp as [_ Hexp]. by apply Z.ltb_lt in Hexp.
  - left. destruct (event_page seller after limit cutoff (snd m)) as [page next] eqn:Hp. exists page, next.
    split; [done|]. eapply feed_page_body; [apply query_limit|by eapply stands_sequence|exact Hchk|exact Hp].
Qed.

Lemma read_feed_after moments cursor after :
  StronglySorted later_moment moments ->
  Forall (fun m => forall s v, wh_events (snd m) !! s = Some v -> 0 < s <= i64_max) moments ->
  stands cursor after moments ->
  exists rows, read_after after moments (read_feed config seller (Some limit) moments cursor) rows.
Proof.
  revert cursor after. induction moments as [|m moments IH]; intros cursor after Hsort Hok Hst.
  { exists []. split; [done|]. split; [constructor|]. split; [by intros ? ?%not_elem_of_nil|]. simpl. lia. }
  apply StronglySorted_inv in Hsort as [Hsort Hm]. apply Forall_cons_1 in Hok as [Hseq Hok].
  pose proof (feed_answer cursor after m moments Hst) as Ha. destruct m as [now db]. cbn [read_feed fst snd] in *.
  set (response := fst (list_seller_events _ _ _ _ _ _ _)) in *. clearbody response.
  destruct Ha as [(page & next & Hp & Hb)|(-> & v & Hv & Hexp)].
  2: { exists []. split; [done|]. split; [constructor|]. split; [by intros ? ?%not_elem_of_nil|]. split; [done|].
       exists (now, db), after, v. split; [by left|]. done. }
  rewrite Hb. destruct next as [s|].
  - pose proof (page_more after (now, db) page s Hp) as (Hpage & Hlen & v & Hlast). clear Hp. simpl in Hpage. cbn.
    assert (Hon : forall row, row ∈ page -> retained (now, db) row /\ after < fst row).
    { intros row Hrow. apply (retained_listed (now, db)). simpl. rewrite Hpage in Hrow. by eapply subseteq_take. }
    destruct (Hon (s, v) (last_Some_elem_of _ _ Hlast)) as [(Hv & Hsel & _) Hlt]. simpl in Hv, Hsel, Hlt.
    destruct (IH (Some (encode_cursor s)) s Hsort Hok) as (rows & Hev & Hrs & Hrows & Hend).
    { split; [done|]. split; [by eapply Hseq|]. exists v. split; [done|]. eapply Forall_impl; [|exact Hm].
      intros m' (_ & Hsub & _). by eapply lookup_weaken. }
    exists (page ++ rows). split; [|split; [|split]].
    + unfold values in *. rewrite map_app. destruct (read_feed _ _ _ moments _); simpl in *; by rewrite Hev.
    + rewrite map_app. apply StronglySorted_app. split; [|split; [|exact Hrs]].
      * intros x y (r1 & -> & H1)%list_elem_of_fmap (r2 & -> & H2)%list_elem_of_fmap.
        destruct (Hrows r2 H2) as [Hs _]. enough (fst r1 <= s) by lia.
        pose proof (seller_events_sorted seller after (now - days (wc_event_retention_days config)) db) as Hss.
        apply take_sorted with (n := Z.to_nat limit) in Hss. rewrite <- Hpage in Hss.
        apply last_Some in Hlast as [l' El]. rewrite El in Hss, H1. rewrite map_app in Hss.
        apply elem_of_app in H1 as [H1|H1%list_elem_of_singleton]; [|by subst].
        assert (fst r1 < s); [|lia]. eapply (StronglySorted_app_1_elem_of Z.lt); [exact Hss| |by left].
        apply list_elem_of_fmap. eauto.
      * rewrite Hpage. apply take_sorted, seller_events_sorted.
    + intros row [Hin|Hin]%elem_of_app.
      * destruct (Hon row Hin). split; [done|]. exists (now, db). split; [by left|done].
      * destruct (Hrows row Hin) as (Hs & m' & Hm' & Hret). split; [lia|]. exists m'. split; [by right|done].
    + destruct (read_feed _ _ _ moments _) as [l|l|l resp]; simpl in Hend |- *.
      * destruct Hend as (m' & Hm' & Hall). exists m'. split; [by right|]. intros row Hret Hafter.
        apply elem_of_app. destruct (Z.le_gt_cases (fst row) s) as [Hle|Hgt]; [left|right; apply Hall; [done|lia]].
        rewrite list.Forall_forall in Hm. exact (passed_on_page (now, db) m' after page s v row (Z.to_nat limit) (Hm m' Hm') Hpage Hlast Hret Hafter Hle).
      * rewrite length_app. lia.
      * destruct Hend as (H410 & m' & s' & v' & Hm' & Hs' & Hrest). split; [done|]. exists m', s', v'.
        split; [by right|]. split; [|exact Hrest]. rewrite last_app, Hs'. destruct (list.last rows); [done|]. by rewrite Hlast.
  - pose proof (page_last after (now, db) page Hp) as Hpage. simpl in Hpage. cbn. exists page.
    split; [done|]. split; [rewrite Hpage; apply seller_events_sorted|].
    assert (Hon : forall row, row ∈ page <-> retained (now, db) row /\ after < fst row)
      by (intros row; rewrite Hpage; apply (retained_listed (now, db))).
    split.
    + intros row Hrow. apply Hon in Hrow as [? ?]. split; [done|]. exists (now, db). split; [by left|done].
    + exists (now, db). split; [by left|]. intros row ? ?. by apply Hon.
Qed.

(** C24. A seller who reads the feed from its start, one page per request, and
    follows the cursors reads their events in the order of the sequences, each
    at most once, while time passes and new events become visible above the
    old ones.  The reading ends in one of three ways.  A page without a cursor
    ends it: then every event that was retained at that last request was read,
    those that became visible meanwhile included.  Or a cursor is refused with
    410, only when the last event read has left the retention period since.  Or
    the requests ran out, and every page so far was full; so the reading comes
    to an end.  (Sequences are positive and fit 64 bits, the page size is in
    its range, and base64 decodes what it encoded.) *)
Theorem feed_read_completely moments :
  StronglySorted later_moment moments ->
  Forall (fun m => forall s v, wh_events (snd m) !! s = Some v -> 0 < s <= i64_max) moments ->
  exists rows,
    let r := read_feed config seller (Some limit) moments None in
    fr_events r = values rows /\ StronglySorted Z.lt (map fst rows) /\
    (forall row, row ∈ rows -> exists m, m ∈ moments /\ retained m row) /\
    match r with
    | FeedComplete _ => exists m, m ∈ moments /\ forall row, retained m row -> row ∈ rows
    | FeedOpen _ => Z.of_nat (length rows) = limit * Z.of_nat (length moments)
    | FeedRefused _ response => rp_status response = 410 /\
        exists m s v, m ∈ moments /\ list.last (map fst rows) = Some s /\
          wh_events (snd m) !! s = Some v /\
          wv_occurred_at v < fst m - days (wc_event_retention_days config)
    end.
Proof.
  intros Hsort Hok. destruct (read_feed_after moments None 0 Hsort Hok eq_refl) as (rows & Hev & Hrs & Hrows & Hend).
  exists rows. cbn zeta. split; [done|]. split; [done|]. split; [intros row Hin; by apply Hrows|].
  destruct (read_feed _ _ _ moments _) as [l|l|l resp].
  - destruct Hend as (m & Hm & Hall). exists m. split; [done|]. intros row Hret. apply Hall; [done|].
    rewrite list.Forall_forall in Hok. destruct (Hok m Hm (fst row) (snd row)) as [? _]; [apply Hret|done].
  - done.
  - destruct Hend as (H410 & m & s & v & Hm & Hs & Hv & Hexp). split; [done|]. exists m, s, v. split; [done|].
    split; [|done]. destruct (list.last rows) as [row|] eqn:El.
    + apply last_Some in El as [l' ->]. rewrite map_app. simpl. by rewrite last_snoc, Hs.
    + simpl in Hs. rewrite list.Forall_forall in Hok. pose proof (Hok m Hm s v Hv). lia.
Qed.
End Pages.
End Feed.

(** ** A seller with one endpoint *)

(** UUIDs in binary, drawn in sequence. *)
Lemma hook_uuid_inj (a b : Uuid) : bits_text (encode a) = bits_text (encode b) -> a = b.
Proof. intros E. apply encode_inj. by rewrite <- (bits_read_text (encode a)), E, bits_read_text. Qed.

Definition hook_uuid : UuidCrate := {|
  uuid_text := fun u => bits_text (encode u);
  uuid_text_inj := hook_uuid_inj;
  new_v4 := fun n => (1000 + n)%N;
|}.
#[local] Existing Instance hook_uuid.

Definition hook_inventory : InventoryCrates := {|
  parse_capabilities := fun _ => None;
  scope_covers_path := fun _ _ => true;
  parse_uuid := fun s => decode (bits_read s);
  sha256_hex := fun s => s;
|}.
#[local] Existing Instance hook_inventory.

Definition hook_locks : LocksCrates := {|
  blake3_hash := sample_hash;
  to_hex := fun _ => "";
  hmac_sha256 := fun key _ => pad32 key;
  minted := fun _ => "reference";
  minted_ascii := sample_minted_ascii;
  public_key := Some;
  canonicalize := fun _ => Some "{}";
  parse_from_rfc3339 := fun _ => None;
  clock_text := fun _ => "";
  rfc3339_seconds := fun _ => "";
  offset_text := fun _ => "";
|}.
#[local] Existing Instance hook_locks.

Definition hook_auth : AuthCrates := {|
  verify_token := fun _ => None;
  sha256 := pad32;
  b64_encode := fun s => s;
  b64_decode := Some;
  random32 := fun n => pad32 (pretty n);
  format_timestamp := fun t => pretty t;
  jsonb_text := fun _ => "{}";
|}.
#[local] Existing Instance hook_auth.

Definition nibble_text (n : Z) : Ascii.ascii := Ascii.ascii_of_nat (Z.to_nat (if n <? 10 then 48 + n else 87 + n)).

Fixpoint hex_text (s : string) : string :=
  match s with
  | EmptyString => ""
  | String c s => String (nibble_text (byte_of c / 16)) (String (nibble_text (byte_of c mod 16)) (hex_text s))
  end.

Definition hook_host : Url := mkUrl "https" "" None None (Some 443) (Some (HIp (V4 93 184 216 34))) "https://93.184.216.34/".

Definition hook_crates : WebhookCrates := {|
  parse_url := fun _ => Some hook_host;
  ip_text := fun _ => "93.184.216.34";
  hex_encode := hex_text;
|}.
#[local] Existing Instance hook_crates.

Lemma hex_digits_ok c : is_hexdigit (byte_of (nibble_text (byte_of c / 16))) && is_hexdigit (byte_of (nibble_text (byte_of c mod 16))) = true.
Proof. by destruct c as [[] [] [] [] [] [] [] []]. Qed.

Lemma pad32_length s : String.length (pad32 s) = 32%nat.
Proof.
  assert (Hsub : forall n t, (n <= String.length t)%nat -> String.length (String.substring 0 n t) = n).
  { induction n as [|n IH]; intros [|c t] Hn; try done; simpl in *; [lia|]. f_equal. apply IH. lia. }
  apply Hsub. induction s as [|c s IH]; [vm_compute; lia|].
  change (String.length (String c s +:+ ?t)) with (S (String.length (s +:+ t))). lia.
Qed.

#[local] Instance hook_laws : WebhookLaws.
Proof.
  split.
  - intros u. simpl. by rewrite bits_read_text, decode_encode.
  - intros s. unfold byte_len. simpl. induction s as [|c s IH]; [done|]. simpl String.length. lia.
  - intros s. unfold bytes_all. simpl. induction s as [|c s IH]; [done|].
    pose proof (hex_digits_ok c) as Hc. apply andb_true_iff in Hc as [H1 H2].
    cbn [hex_text bytes forallb]. by rewrite H1, H2, IH.
  - intros key message. unfold byte_len. simpl. by rewrite pad32_length.
Qed.

Lemma public_ip_reference_witness :
  public_ip (V6 ([32; 1; 0; 39] ++ repeat 0 11 ++ [1])) = false /\
  public_ip (V6 ([32; 1; 0; 39] ++ repeat 0 11 ++ [1])) = negb (special (V6 ([32; 1; 0; 39] ++ repeat 0 11 ++ [1]))).
Proof.
  split; [vm_compute; reflexivity|]. apply public_ip_reference. split; [octets_ok|reflexivity].
Defined.

Definition hook_delivery : Delivery :=
  mkDeliveryRead 5 6 "https://93.184.216.34/" 7 (sha256 "secret") (JObject []) 0 0.

(** Five seconds apart, ten allowed. *)
Lemma signed_webhook_verifies_witness :
  verify_webhook (received "secret" 7 (signed_webhook_request hook_delivery 5000000) 0 10) =
    inl (mkVerifiedWebhook 6 7 (hex_encode (sha256 "{}"))).
Proof.
  destruct (signed_webhook_verifies hook_delivery 5000000 "secret" 0 10) as [_ E];
    [reflexivity|split; vm_compute; discriminate|split; vm_compute; discriminate|].
  exact E.
Defined.

(** One event per pass. *)
Definition hook_config : WebhookConfig := mkWebhookConfig 30 60 3 24 1 10 100 5 30 100 10 60.

Definition hook_event_of (seller : Pubky) (id : Uuid) : WebhookEvent :=
  mkWebhookEvent id (Some seller) "order" 1 "order.paid" 0.

Definition hook_db1 : WebhookDb := Eval vm_compute in snd (add_webhook hook_config seller_key "url" 0 empty_webhook_db).

(** The seller's events 1 and 3, and another's between them. *)
Definition hook_db2 : WebhookDb := upd wh_events (<[1 := hook_event_of seller_key 10]>) hook_db1.
Definition hook_db3 : WebhookDb := upd wh_events (<[2 := hook_event_of buyer_key 11]>) hook_db2.
Definition hook_db4 : WebhookDb := upd wh_events (<[3 := hook_event_of seller_key 12]>) hook_db3.
Definition hook_db5 : WebhookDb := enqueue_endpoint hook_config 0 hook_db4 1002.
Definition hook_db6 : WebhookDb := enqueue_endpoint hook_config 0 hook_db5 1002.

Definition hook_started : gmap Uuid Z := ∅ ∪ (we_enqueue_sequence <$> wh_endpoints hook_db1).

Definition hook_enqueued : WebhookWorld :=
  mkWebhookWorld 0 hook_db6 (([] ++ stored_by 1002 hook_db4 hook_db5) ++ stored_by 1002 hook_db5 hook_db6)
    hook_started.

Lemma events_before (m : gmap Z WebhookEvent) s (id : Uuid) :
  forallb (fun '(s', v) => (s' <? s) && negb (wv_id v =? id)%N) (map_to_list m) = true ->
  forall s' v, m !! s' = Some v -> s' < s /\ wv_id v <> id.
Proof.
  intros Hall s' v Hs. rewrite forallb_forall in Hall.
  specialize (Hall (s', v) ltac:(by apply list_elem_of_In, elem_of_map_to_list)). simpl in Hall.
  apply andb_true_iff in Hall as [Hlt Hne]. apply Z.ltb_lt in Hlt. apply negb_true_iff, N.eqb_neq in Hne. done.
Qed.

Lemma hook_enqueued_reachable : webhook_reachable hook_config hook_enqueued.
Proof.
  unfold webhook_reachable, webhook_start.
  eapply rtc_l.
  { eapply (hook_add hook_config 0 empty_webhook_db [] ∅ seller_key "url" _ hook_db1). vm_compute. reflexivity. }
  eapply rtc_l; [apply (hook_event hook_config 0 hook_db1 [] _ 1 (hook_event_of seller_key 10)); [lia|];
    apply events_before; vm_compute; reflexivity|].
  eapply rtc_l; [apply (hook_event hook_config 0 hook_db2 [] _ 2 (hook_event_of buyer_key 11)); [lia|];
    apply events_before; vm_compute; reflexivity|].
  eapply rtc_l; [apply (hook_event hook_config 0 hook_db3 [] _ 3 (hook_event_of seller_key 12)); [lia|];
    apply events_before; vm_compute; reflexivity|].
  eapply rtc_l; [apply (hook_enqueue hook_config 0 hook_db4 [] _ 1002)|].
  apply rtc_once, (hook_enqueue hook_config 0 hook_db5 _ _ 1002).
Qed.

Lemma events_enqueued_in_order_witness :
  sequences 1002 (ww_queued hook_enqueued) = [1; 3] /\
  StronglySorted Z.lt (sequences 1002 (ww_queued hook_enqueued)) /\
  is_Some (wh_deliveries (ww_db hook_enqueued) !! (1002%N, 12%N)).
Proof.
  split; [vm_compute; reflexivity|].
  destruct (wh_endpoints (ww_db hook_enqueued) !! 1002%N) as [e|] eqn:E; [|vm_compute in E; discriminate].
  split; [|vm_compute; eauto].
  apply (events_enqueued_in_order hook_config eq_refl hook_enqueued 1002 e hook_enqueued_reachable E).
Defined.

(** Event 2 of the seller becomes visible after the cursor has reached 3. *)
Definition hook_late : WebhookDb :=
  enqueue_endpoint hook_config 0 (enqueue_endpoint hook_config 0
    (upd wh_events (<[3 := hook_event_of seller_key 12]>) hook_db2) 1002) 1002.

Lemma late_event_skipped_witness :
  wh_deliveries (foldl (fun db now => enqueue_endpoint hook_config now db 1002)
    (upd wh_events (<[2 := hook_event_of seller_key 11]>) hook_late) [0; 0; 0]) !! (1002%N, 11%N) = None.
Proof.
  destruct (wh_endpoints hook_late !! 1002%N) as [e|] eqn:E; [|vm_compute in E; discriminate].
  apply (late_event_skipped hook_config eq_refl 1002 e 2 (hook_event_of seller_key 11) hook_late [0; 0; 0] E).
  - vm_compute in E. injection E as <-. vm_compute. discriminate.
  - vm_compute. reflexivity.
  - vm_compute. reflexivity.
  - intros s' v' Hs. apply (events_before (wh_events hook_late) 4 11) in Hs as [_ Hne]; [exact Hne|]. vm_compute. reflexivity.
Defined.

Lemma events_within (m : gmap Z WebhookEvent) :
  forallb (fun '(s, _) => (0 <? s) && (s <=? i64_max)) (map_to_list m) = true ->
  forall s v, m !! s = Some v -> 0 < s <= i64_max.
Proof.
  intros Hall s v Hs. rewrite forallb_forall in Hall.
  specialize (Hall (s, v) ltac:(by apply list_elem_of_In, elem_of_map_to_list)). simpl in Hall.
  apply andb_true_iff in Hall as [H1 H2]. apply Z.ltb_lt in H1. by apply Z.leb_le in H2.
Qed.

(** Pages of one event; another event becomes visible between the requests. *)
Definition hook_db7 : WebhookDb := upd wh_events (<[4 := hook_event_of seller_key 13]>) hook_db6.

Definition hook_moments : list (Time * WebhookDb) := [(0, hook_db6); (0, hook_db7); (0, hook_db7)].

Lemma hook_moments_sorted : StronglySorted later_moment hook_moments.
Proof.
  assert (Hgrow : later_moment (0, hook_db6) (0, hook_db7)).
  { split; [done|]. cbn [snd]. assert (E : wh_events hook_db7 = <[4 := hook_event_of seller_key 13]> (wh_events hook_db6))
      by (vm_compute; reflexivity).
    assert (Hn : wh_events hook_db6 !! 4 = None) by (vm_compute; reflexivity).
    rewrite E. split; [by apply insert_subseteq|]. intros s v s0 v0 [[<- _]|[_ Hs]]%lookup_insert_Some Hnone Hs0;
      [|congruence]. by eapply (events_before (wh_events hook_db6) 4 99%N); [vm_compute; reflexivity|]. }
  assert (Hsame : later_moment (0, hook_db7) (0, hook_db7)) by (split; [done|]; split; [done|]; intros; congruence).
  constructor; [|constructor; [exact Hgrow|constructor; [exact Hgrow|constructor]]].
  constructor; [|constructor; [exact Hsame|constructor]]. constructor; constructor.
Qed.

Lemma feed_read_completely_witness :
  exists rows, read_feed hook_config seller_key (Some 1) hook_moments None = FeedComplete (values seller_key rows) /\
    length rows = 3%nat /\ (1, hook_event_of seller_key 10) ∈ rows.
Proof.
  assert (law : forall s, b64_decode (AuthCrates := hook_auth) (b64_encode s) = Some s) by reflexivity.
  assert (Hlen : length (fr_events (read_feed hook_config seller_key (Some 1) hook_moments None)) = 3%nat)
    by (vm_compute; reflexivity).
  assert (Hdone : match read_feed hook_config seller_key (Some 1) hook_moments None with
                  | FeedComplete _ => true | _ => false end = true) by (vm_compute; reflexivity).
  destruct (feed_read_completely law hook_config seller_key 1 ltac:(vm_compute; split; discriminate) hook_moments
    hook_moments_sorted) as (rows & Hev & _ & _ & Hend).
  { constructor; [|constructor; [|constructor; [|constructor]]]; apply events_within; vm_compute; reflexivity. }
  exists rows. cbn zeta in Hev, Hend. rewrite Hev in Hlen. unfold values in Hlen. rewrite length_map in Hlen.
  destruct (read_feed hook_config seller_key (Some 1) hook_moments None) as [l|l|l r]; [|discriminate Hdone..].
  simpl in Hev. subst l. split; [reflexivity|]. split; [exact Hlen|]. destruct Hend as (m & Hm & Hall). apply Hall.
  apply list_elem_of_In in Hm. destruct Hm as [<-|[<-|[<-|[]]]]; vm_compute; repeat split; discriminate.
Defined.
