(* ===== verification/PaymentContract.v ===== *)
(** * What the payment methods promise

    Three contracts over [PaymentMethods].  PayPal's notifications: none is
    lost ([refund_never_lost]) and the order follows the money they report
    ([order_follows_money]).  Money: a verified fiat payment is confirmed or
    kept for review ([verified_money_kept]), the amount of a checkout link is
    read back ([checkout_amount_read_back]), and the availability cache never
    serves a seller longer than its last answer allows
    ([availability_fails_closed]).  Binding: a method is bound as a whole or
    not at all ([bind_all_or_nothing]).  The invariant [gateway_inv] carries
    the first; [follows] relates an order to the ledger of its money. *)

From stdpp Require Import pretty sorting.
From S2P Require Import Prelude StateMachines Domain Json Seal Pubky Text Store Commands.
From S2P Require Import Actions Reviews Drops Holds DigitalManual Cancellation Payment Fx.
From S2P Require Import ListingDeletion Within Inventory Samples LateMoney PaymentMethods.
From S2P Require Import ReviewContract LateMoneyContract.

(** ** What a notification says *)

Definition kept_fields (fields : gmap string string) : gmap string string :=
  filter (fun kv => kv.1 ∈ INBOX_FIELDS) fields.

Lemma kept_lookup fields name : name ∈ INBOX_FIELDS -> kept_fields fields !! name = fields !! name.
Proof.
  intros Hn. apply option_eq. intros v. unfold kept_fields. rewrite map_lookup_filter_Some. simpl. tauto.
Qed.

Lemma kept_field fields name : name ∈ INBOX_FIELDS -> field_of (kept_fields fields) name = field_of fields name.
Proof. intros Hn. unfold field_of. by rewrite kept_lookup. Qed.

Definition txn_of (fields : gmap string string) : option string := paypal_transaction_id (field_of fields "txn_id").
Definition parent_of (fields : gmap string string) : option string :=
  paypal_transaction_id (field_of fields "parent_txn_id").
Definition status_of (fields : gmap string string) : option GatewayStatus :=
  gateway_status (field_of fields "payment_status").

(** The amount a notification of this status states, in minor units. *)
Definition amount_in (fields : gmap string string) (status : GatewayStatus) (exponent : Z) : option Z :=
  (match status with
   | GCanceledReversal => positive_gross_minor
   | GRefunded | GReversed => negative_gross_minor
   end) (field_of fields "mc_gross") exponent.

(** Two notifications that agree on the kept fields. *)
Definition agrees (f g : gmap string string) : Prop := kept_fields f = kept_fields g.

Lemma agrees_field f g name : agrees f g -> name ∈ INBOX_FIELDS -> field_of f name = field_of g name.
Proof. intros E Hn. rewrite <- (kept_field f), <- (kept_field g) by done. by rewrite E. Qed.

Lemma agrees_lookup f g name : agrees f g -> name ∈ INBOX_FIELDS -> f !! name = g !! name.
Proof. intros E Hn. rewrite <- (kept_lookup f), <- (kept_lookup g) by done. by rewrite E. Qed.

Ltac inbox_field := apply (bool_decide_unpack _); vm_compute; exact I.

Lemma agrees_same f g : agrees f g -> txn_of f = txn_of g /\ parent_of f = parent_of g /\ status_of f = status_of g.
Proof. intros E. unfold txn_of, parent_of, status_of. rewrite !(agrees_field f g) by (done || inbox_field). done. Qed.

Lemma agrees_amount f g : agrees f g -> amount_in f = amount_in g.
Proof. intros E. unfold amount_in. by rewrite (agrees_field f g) by (done || inbox_field). Qed.

Lemma paypal_transaction_id_self v t : paypal_transaction_id v = Some t -> t = v.
Proof. unfold paypal_transaction_id. destruct (_ && _); [congruence|done]. Qed.

(** ** The invariant *)

Section Contract.
Context `{UC : !UuidCrate, IC : !InventoryCrates}.
(** The notification PayPal sends under a transaction id. *)
Context (notice : string -> gmap string string) (attestor : option Attestor).

(** Notifications with these transaction ids may wait although their payment
    is there. *)
Record gateway_inv (pending : string -> Prop) (db : Db) : Prop := {
  gi_key : forall id o, orders db !! id = Some o -> o_id o = id;
  gi_unique : forall id id' o o' txn, orders db !! id = Some o -> orders db !! id' = Some o' ->
    pp_txn_id (o_paypal o) = Some txn -> pp_txn_id (o_paypal o') = Some txn -> id = id';
  gi_from : forall txn row s, gateway_refunds db !! txn = Some row -> gw_from_state row = Some s ->
    full_refund_source s = true;
  gi_owner : forall txn row, gateway_refunds db !! txn = Some row ->
    (parent_of (notice txn) = Some (gw_parent_txn_id row) /\ status_of (notice txn) = Some (gw_status row)) /\
    exists o, orders db !! gw_order_id row = Some o /\ pp_txn_id (o_paypal o) = Some (gw_parent_txn_id row) /\
      amount_in (notice txn) (gw_status row) (o_exponent o) = Some (gw_amount_minor row);
  gi_inbox : forall txn row, gateway_refund_inbox db !! txn = Some row ->
    agrees (ib_fields row) (notice txn) /\ txn_of (notice txn) = Some txn /\ is_Some (status_of (notice txn)) /\
    ib_parent_txn_id row = parent_of (notice txn);
  gi_open : forall txn row, gateway_refund_inbox db !! txn = Some row ->
    ib_resolved_at row = None <-> gateway_refunds db !! txn = None;
  gi_waiting : forall txn row parent, gateway_refund_inbox db !! txn = Some row -> ib_resolved_at row = None ->
    ib_reason row = "unknown_parent" -> ib_parent_txn_id row = Some parent ->
    pending txn \/ payment_owner parent db = None;
}.

(** A notification is recorded or held. *)
Definition accounted (db : Db) (txn : string) : Prop :=
  is_Some (gateway_refunds db !! txn) \/ is_Some (gateway_refund_inbox db !! txn).

Lemma payment_owner_spec parent db o :
  payment_owner parent db = Some o ->
  exists id, orders db !! id = Some o /\ pp_txn_id (o_paypal o) = Some parent.
Proof.
  unfold payment_owner. intros [Hin Hp]%find_some. apply bool_decide_eq_true in Hp.
  apply in_map_iff in Hin as ([id o'] & <- & Hin). exists id. split; [|done].
  by apply elem_of_map_to_list, list_elem_of_In.
Qed.

Lemma payment_owner_none parent db :
  payment_owner parent db = None <-> forall id o, orders db !! id = Some o -> pp_txn_id (o_paypal o) <> Some parent.
Proof.
  unfold payment_owner. split.
  - intros Hn id o Ho E. assert (Hin : In o (map snd (map_to_list (orders db)))).
    { apply in_map_iff. exists (id, o). split; [done|]. by apply list_elem_of_In, elem_of_map_to_list. }
    pose proof (find_none _ _ Hn o Hin) as Hf. simpl in Hf. by rewrite E, bool_decide_eq_true_2 in Hf.
  - intros Hall. destruct (find _ _) as [o|] eqn:Hf; [|done].
    destruct (payment_owner_spec parent db o Hf) as (id & Ho & E). by destruct (Hall id o Ho).
Qed.

(** What the owners of payments depend on. *)
Definition paypal_id (o : OrderRow) : Uuid * option string * Z := (o_id o, pp_txn_id (o_paypal o), o_exponent o).

(** An order PayPal has sent no payment for. *)
Definition unpaid (id : Uuid) (o : OrderRow) : Prop := o_id o = id /\ pp_txn_id (o_paypal o) = None.

(** The parts of the store the contract reads. *)
Definition gateway_view (db : Db) :=
  (gateway_refunds db, gateway_refund_inbox db, paypal_id <$> orders db).

Lemma view_orders db db' id o :
  paypal_id <$> orders db' = paypal_id <$> orders db -> orders db !! id = Some o ->
  exists o', orders db' !! id = Some o' /\ paypal_id o' = paypal_id o.
Proof.
  intros E Ho. assert (Hl : (paypal_id <$> orders db') !! id = Some (paypal_id o)) by (rewrite E, lookup_fmap, Ho; done).
  rewrite lookup_fmap in Hl. by apply fmap_Some in Hl as (o' & ? & ?); eauto.
Qed.

Lemma view_owner db db' parent :
  paypal_id <$> orders db' = paypal_id <$> orders db -> payment_owner parent db' = None <-> payment_owner parent db = None.
Proof.
  intros E. rewrite !payment_owner_none. split; intros Hall id o Ho.
  - destruct (view_orders db db' id o E Ho) as (o' & Ho' & [= _ Ep _]). rewrite <- Ep. by eapply Hall.
  - destruct (view_orders db' db id o (eq_sym E) Ho) as (o' & Ho' & [= _ Ep _]). rewrite <- Ep. by eapply Hall.
Qed.

Lemma gateway_inv_view pending db db' :
  gateway_view db' = gateway_view db -> gateway_inv pending db -> gateway_inv pending db'.
Proof.
  unfold gateway_view. intros [= E1 E2 E3] [V1 V2 V3 V4 V5 V6 V7].
  assert (Hback : forall id o, orders db' !! id = Some o -> exists o0, orders db !! id = Some o0 /\ paypal_id o0 = paypal_id o).
  { intros id o. by apply view_orders. }
  split; rewrite ?E1, ?E2; auto.
  - intros id o (o0 & Ho0 & [= <- _ _])%Hback. eauto.
  - intros id id' o o' txn (o0 & Ho0 & [= _ <- _])%Hback (o0' & Ho0' & [= _ <- _])%Hback. eauto.
  - intros txn row Hr. destruct (V4 txn row Hr) as (Hp & o & Ho & Ep & Ex). split; [done|].
    destruct (view_orders db db' _ _ E3 Ho) as (o' & Ho' & [= _ Ep' Ex']). exists o'. by rewrite Ep', Ex'.
  - intros txn row parent H1 H2 H3 H4. destruct (V7 txn row parent H1 H2 H3 H4) as [|Hn]; [by left|right].
    by apply (view_owner db db' parent E3).
Qed.

(** ** Recording *)

Lemma refund_transition s :
  full_refund_source s = true ->
  Machines.can_transition Machines.order_machine (order_state_str s) (order_state_str ORefundedExternal) = true /\
  Machines.can_transition Machines.order_machine (order_state_str ORefundedExternal) (order_state_str s) = true.
Proof. destruct s; intros Hs; try discriminate; vm_compute; done. Qed.

(** What a record makes of its order, and whether it closes it. *)
Definition outcome (o : OrderRow) (r : GatewayRecord) (ledger : list (string * GatewayRefundRow)) (now : Time)
    : OrderChange * Effect * bool :=
  let before := ledger_totals ledger in
  let after := add_total before (gr_status r) (gr_amount_minor r) in
  match gr_status r with
  | GRefunded | GReversed => refund_change o r (manual_external o ledger) after now
  | GCanceledReversal =>
      let '(next, effect, _) := restore_change o r ledger (manual_external o ledger) before after now in
      (next, effect, false)
  end.

Definition recorded_row (o : OrderRow) (r : GatewayRecord) (transition : bool) (now : Time) : GatewayRefundRow :=
  mkGatewayRefund (gr_order_id r) (gr_parent_txn_id r) (gr_status r) (gr_amount_minor r)
    (if transition then Some (o_state o) else None)
    (if transition then rr_state <$> o_return_request o else None) now.

Definition resolve_row (now : Time) (row : RefundInboxRow) : RefundInboxRow :=
  match ib_resolved_at row with None => row <| ib_resolved_at := Some now |> | Some _ => row end.

Definition only_sources (db : Db) : Prop :=
  forall txn row s, gateway_refunds db !! txn = Some row -> gw_from_state row = Some s -> full_refund_source s = true.

Lemma ledger_elem txn row order_id db :
  In (txn, row) (refund_ledger order_id db) -> gateway_refunds db !! txn = Some row /\ gw_order_id row = order_id.
Proof.
  intros Hin. apply list_elem_of_In in Hin. unfold refund_ledger in Hin.
  rewrite (merge_sort_Permutation recorded_first) in Hin. apply list_elem_of_In, filter_In in Hin as [Hin Hid].
  apply N.eqb_eq in Hid. split; [|done]. by apply elem_of_map_to_list, list_elem_of_In.
Qed.

Lemma reopened_source o r ledger manual before after now db :
  only_sources db -> (forall kv, In kv ledger -> gateway_refunds db !! fst kv = Some (snd kv)) ->
  forall s, snd (restore_change o r ledger manual before after now) = Some s -> full_refund_source s = true.
Proof.
  intros Hs Hl s. unfold restore_change. simpl.
  destruct (_ && negb manual); [|done]. simpl. unfold replaced_row, last_row.
  destruct (find _ _) as [[txn row]|] eqn:Hf; [|done]. simpl. intros Hfrom.
  apply find_some in Hf as [Hin _]. apply in_rev, Hl in Hin. exact (Hs txn row s Hin Hfrom).
Qed.

Lemma wp_finish_refund o ek nt effect now Q db :
  (forall db', gateway_view db' = gateway_view db -> orders db' = orders db -> Q tt db') ->
  wp (finish_refund attestor o ek nt effect now) Q any_refusal db.
Proof.
  intros HQ. unfold finish_refund. apply wp_bind, wp_fresh_uuid. cbn beta zeta. apply wp_bind, wp_insert_event.
  intros e _ _. cbn beta zeta. apply wp_bind.
  apply wp_mono with (Q' := fun _ db' => gateway_view db' = gateway_view db /\ orders db' = orders db) (R' := any_refusal); [| |done].
  - generalize attestor as att. intros att. destruct effect, att; try (by apply wp_ret); unfold insert_annotation;
      (apply wp_bind, wp_fresh_uuid; apply wp_modify; done).
  - intros _ db1 [E1 E2]. apply wp_mono with
      (Q' := fun _ db' => gateway_view db' = gateway_view db1 /\ orders db' = orders db1) (R' := any_refusal); [| |done].
    + apply (wp_for_each (fun _ db' => gateway_view db' = gateway_view db1 /\ orders db' = orders db1)); [done|].
      intros x l db2 [F1 F2]. apply wp_modify. split; [exact F1|exact F2].
    + intros [] db2 [F1 F2]. apply HQ; congruence.
Qed.

(** The state a transition replaces. *)
Definition mark_from (o : OrderRow) (row : GatewayRefundRow) : GatewayRefundRow :=
  row <| gw_from_state := Some (o_state o) |> <| gw_from_return_state := rr_state <$> o_return_request o |>.

Lemma wp_change_of o r ledger now Q db1 :
  (forall s, snd (restore_change o r ledger (manual_external o ledger) (ledger_totals ledger)
                    (add_total (ledger_totals ledger) (gr_status r) (gr_amount_minor r)) now) = Some s ->
     full_refund_source s = true) ->
  (forall next effect transition, outcome o r ledger now = (next, effect, transition) ->
     Q (next, effect) (if transition then upd gateway_refunds (alter (mark_from o) (gr_txn_id r)) db1 else db1)) ->
  wp (change_of o r ledger now) Q any_refusal db1.
Proof.
  intros Hsrc HQ. unfold change_of, outcome in *. cbv zeta in *.
  assert (Hrefund : wp (let '(next, effect, transition) := refund_change o r (manual_external o ledger)
            (add_total (ledger_totals ledger) (gr_status r) (gr_amount_minor r)) now in
       if transition then
         do* assert_order_transition (o_state o) ORefundedExternal in
         do* modify (upd gateway_refunds (alter (mark_from o) (gr_txn_id r))) in ret (next, effect)
       else ret (next, effect)) Q any_refusal db1 \/ gr_status r = GCanceledReversal).
  { destruct (gr_status r) eqn:Est; [left|left|by right];
      (destruct (refund_change o r _ _ now) as [[next effect] transition] eqn:Echg;
       specialize (HQ _ _ _ eq_refl); destruct transition; [|by apply wp_ret];
       apply wp_bind, wp_assert_order_transition;
       [apply refund_transition; unfold refund_change in Echg; injection Echg as _ _ Htr;
        by apply andb_true_iff in Htr as [_ ?]|]; apply wp_bind, wp_modify, wp_ret; exact HQ). }
  destruct (gr_status r) eqn:Est; [by destruct Hrefund|by destruct Hrefund|].
  destruct (restore_change _ _ _ _ _ _ _) as [[next effect] reopened]. simpl in Hsrc.
  specialize (HQ _ _ _ eq_refl). apply wp_bind. destruct reopened as [s|]; [|by apply wp_ret, wp_ret].
  apply wp_assert_order_transition; [by apply refund_transition, Hsrc|]. by apply wp_ret.
Qed.

Lemma wp_insert_refund r now Q db :
  gateway_refunds db !! gr_txn_id r = None ->
  (forall db',
     gateway_refunds db' = <[gr_txn_id r := mkGatewayRefund (gr_order_id r) (gr_parent_txn_id r) (gr_status r)
                              (gr_amount_minor r) None None now]> (gateway_refunds db) ->
     gateway_refund_inbox db' = alter (resolve_row now) (gr_txn_id r) (gateway_refund_inbox db) ->
     orders db' = orders db -> Q tt db') ->
  wp (insert_refund r now) Q any_refusal db.
Proof. intros Hn HQ. unfold insert_refund. apply wp_bind, wp_insert. intros _ _ _. apply wp_modify. by apply HQ. Qed.

(** [record_on_order] on an order that is there, for a new transaction. *)
Lemma wp_record_on_order r now o Q db :
  orders db !! gr_order_id r = Some o -> o_id o = gr_order_id r -> gateway_refunds db !! gr_txn_id r = None ->
  only_sources db ->
  (forall db' next effect transition,
     outcome o r (refund_ledger (o_id o) db) now = (next, effect, transition) ->
     gateway_refunds db' = <[gr_txn_id r := recorded_row o r transition now]> (gateway_refunds db) ->
     gateway_refund_inbox db' = alter (resolve_row now) (gr_txn_id r) (gateway_refund_inbox db) ->
     orders db' = <[o_id o := change_row next now (o <| o_revision := o_revision o + 1 |>)]> (orders db) ->
     Q (Applied effect) db') ->
  wp (record_on_order attestor r now) Q any_refusal db.
Proof.
  intros Ho Hid Hnew Hsrc HQ. unfold record_on_order, fetch_order_for_update.
  apply wp_bind, wp_select. rewrite Ho. apply wp_bind, wp_gets. apply wp_bind, wp_select. rewrite Hnew.
  change (bool_decide (is_Some None)) with false. cbv iota.
  set (ledger := refund_ledger (o_id o) db) in *.
  assert (Hl : forall kv, In kv ledger -> gateway_refunds db !! fst kv = Some (snd kv)).
  { intros [txn row] Hin. by apply ledger_elem in Hin as [? _]. }
  apply wp_bind, wp_insert_refund; [done|]. intros db1 G1 G2 G3. apply wp_bind, wp_change_of.
  { intros s Hs. eapply reopened_source; [exact Hsrc|exact Hl|exact Hs]. }
  intros next effect transition Eout.
  set (db2 := if transition then _ else db1).
  assert (G : gateway_refunds db2 = <[gr_txn_id r := recorded_row o r transition now]> (gateway_refunds db) /\
    gateway_refund_inbox db2 = gateway_refund_inbox db1 /\ orders db2 = orders db).
  { unfold db2. destruct transition; [|by rewrite <- G3, G1]. split; [|by rewrite <- G3].
    change (gateway_refunds (upd gateway_refunds ?g db1)) with (g (gateway_refunds db1)). cbv beta.
    rewrite G1, alter_insert_eq. done. }
  clearbody db2. destruct G as (F1 & F2 & F3). cbv iota.
  apply wp_bind. eapply wp_bump_order; [rewrite F3, Hid; exact Ho|done|]. intros o' _.
  destruct (refund_event _ _) as [ek nt]. apply wp_bind, wp_finish_refund. intros db3 Hv Hor. apply wp_ret.
  unfold gateway_view in Hv. injection Hv as K1 K2 _. eapply HQ; [exact Eout|..].
  - rewrite K1. exact F1.
  - rewrite K2. change (gateway_refund_inbox (upd orders ?g db2)) with (gateway_refund_inbox db2). by rewrite F2, G2.
  - rewrite Hor. change (orders (upd orders ?g db2)) with (g (orders db2)). cbv beta. by rewrite F3.
Qed.

(** ** Evaluating *)

(** One more notification is dealt with. *)
Definition settled (txn : string) (pending : string -> Prop) (db db' : Db) : Prop :=
  gateway_inv (fun t => pending t /\ t <> txn) db' /\ accounted db' txn /\
  (forall t, accounted db t -> accounted db' t) /\ paypal_id <$> orders db' = paypal_id <$> orders db.

Lemma inv_inbox pending db txn row :
  gateway_inv pending db -> gateway_refunds db !! txn = None ->
  agrees (ib_fields row) (notice txn) -> txn_of (notice txn) = Some txn -> is_Some (status_of (notice txn)) ->
  ib_parent_txn_id row = parent_of (notice txn) -> ib_resolved_at row = None ->
  (forall parent, ib_reason row = "unknown_parent" -> ib_parent_txn_id row = Some parent -> payment_owner parent db = None) ->
  settled txn pending db (upd gateway_refund_inbox (<[txn := row]>) db).
Proof.
  intros [V1 V2 V3 V4 V5 V6 V7] Hnew Ha Ht Hs Hp Hr Hw.
  assert (Hi : gateway_refund_inbox (upd gateway_refund_inbox (<[txn := row]>) db) = <[txn := row]> (gateway_refund_inbox db)) by done.
  split; [|split; [right; rewrite Hi, lookup_insert_eq; eauto|split; [|done]]].
  - split; try done; rewrite Hi.
    + intros t r [[<- <-]|[_ Hl]]%lookup_insert_Some; [done|by apply V5].
    + intros t r [[<- <-]|[_ Hl]]%lookup_insert_Some; [done|by apply V6].
    + intros t r parent [[<- <-]|[Hne Hl]]%lookup_insert_Some Hres Hun Hpar.
      * right. by apply Hw.
      * destruct (V7 t r parent Hl Hres Hun Hpar); [left|by right]. split; [done|congruence].
  - intros t [Hl|Hb]; [by left|right]. rewrite Hi. destruct (decide (t = txn)) as [->|Hne]; [rewrite lookup_insert_eq; eauto|].
    by rewrite lookup_insert_ne.
Qed.

(** The invariant does not need the exception of a notification that does not
    wait. *)
Lemma inv_settled pending db txn :
  gateway_inv pending db -> accounted db txn ->
  (forall row parent, gateway_refund_inbox db !! txn = Some row -> ib_resolved_at row = None ->
     ib_reason row = "unknown_parent" -> ib_parent_txn_id row = Some parent -> payment_owner parent db = None) ->
  settled txn pending db db.
Proof.
  intros [V1 V2 V3 V4 V5 V6 V7] Ha Hw. split; [|done]. split; try done.
  intros t row parent Hl Hres Hun Hpar. destruct (decide (t = txn)) as [->|Hne]; [right; by eapply Hw|].
  destruct (V7 t row parent Hl Hres Hun Hpar); [by left|by right].
Qed.

Lemma wp_store_inbox pending db txn parent status fields reason order_id now :
  gateway_inv pending db -> gateway_refunds db !! txn = None ->
  agrees fields (notice txn) -> txn_of (notice txn) = Some txn -> is_Some (status_of (notice txn)) ->
  parent = parent_of (notice txn) ->
  (forall p, reason = "unknown_parent" -> parent = Some p -> payment_owner p db = None) ->
  wp (store_inbox txn parent status fields reason order_id now) (fun _ => settled txn pending db) any_refusal db.
Proof.
  intros Hinv Hnew Ha Ht Hs Hp Hw. unfold store_inbox. apply wp_bind, wp_select.
  destruct (gateway_refund_inbox db !! txn) as [row|] eqn:Hrow.
  - destruct (gi_inbox _ _ Hinv _ _ Hrow) as (Hra & _ & _ & Hrp).
    assert (Hopen : ib_resolved_at row = None) by (by apply (gi_open _ _ Hinv _ _ Hrow)).
    destruct (_ && _) eqn:Hd.
    + apply wp_bind, wp_modify, wp_ret. apply inv_inbox; try done.
      intros p Hr Hpar. apply Hw; [exact Hr|]. change (ib_parent_txn_id row = Some p) in Hpar. congruence.
    + apply wp_ret. apply inv_settled; [done|right; eauto|]. intros row' p Hrow' _ Hr Hpar.
      rewrite Hrow in Hrow'. injection Hrow' as <-. rewrite Hopen in Hd. simpl in Hd.
      apply negb_false_iff, bool_decide_eq_true in Hd as [Hreason _]. apply Hw; congruence.
  - apply wp_bind, wp_modify, wp_ret. apply inv_inbox; try done. simpl.
    unfold agrees, kept_fields in *. rewrite map_filter_filter. rewrite <- Ha. apply map_filter_ext. simpl. tauto.
Qed.

Lemma transition_source o r ledger now next effect :
  outcome o r ledger now = (next, effect, true) -> full_refund_source (o_state o) = true.
Proof.
  unfold outcome. destruct (gr_status r).
  3: by destruct (restore_change _ _ _ _ _ _ _) as [[? ?] ?].
  all: unfold refund_change; cbv zeta; intros E; injection E as _ _ E; by apply andb_true_iff in E as [_ ?].
Qed.

Lemma inv_recorded pending db db' r o next now transition :
  gateway_inv pending db -> orders db !! gr_order_id r = Some o ->
  pp_txn_id (o_paypal o) = Some (gr_parent_txn_id r) -> gateway_refunds db !! gr_txn_id r = None ->
  parent_of (notice (gr_txn_id r)) = Some (gr_parent_txn_id r) /\ status_of (notice (gr_txn_id r)) = Some (gr_status r) ->
  amount_in (notice (gr_txn_id r)) (gr_status r) (o_exponent o) = Some (gr_amount_minor r) ->
  (transition = true -> full_refund_source (o_state o) = true) ->
  gateway_refunds db' = <[gr_txn_id r := recorded_row o r transition now]> (gateway_refunds db) ->
  gateway_refund_inbox db' = alter (resolve_row now) (gr_txn_id r) (gateway_refund_inbox db) ->
  orders db' = <[o_id o := change_row next now (o <| o_revision := o_revision o + 1 |>)]> (orders db) ->
  settled (gr_txn_id r) pending db db'.
Proof.
  intros Hinv Ho Hown Hnew Hpar Ham Htr E1 E2 E3. pose proof (gi_key _ _ Hinv _ _ Ho) as Hid.
  set (o' := change_row next now (o <| o_revision := o_revision o + 1 |>)) in *.
  assert (Hsame : paypal_id o' = paypal_id o) by done.
  assert (Hview : paypal_id <$> orders db' = paypal_id <$> orders db).
  { rewrite E3, fmap_insert, Hsame. apply insert_id. by rewrite lookup_fmap, Hid, Ho. }
  clearbody o'. destruct Hinv as [V1 V2 V3 V4 V5 V6 V7].
  assert (Hinbox : forall t row, gateway_refund_inbox db' !! t = Some row ->
    exists row0, gateway_refund_inbox db !! t = Some row0 /\ ib_fields row = ib_fields row0 /\
      ib_parent_txn_id row = ib_parent_txn_id row0 /\ ib_reason row = ib_reason row0 /\
      (t <> gr_txn_id r -> row = row0) /\ (t = gr_txn_id r -> is_Some (ib_resolved_at row))).
  { intros t row. rewrite E2. destruct (decide (t = gr_txn_id r)) as [->|Hne].
    - rewrite lookup_alter_eq. intros (row0 & Hr0 & ->)%fmap_Some. exists row0.
      unfold resolve_row. destruct (ib_resolved_at row0) eqn:Hres; repeat split; try done; rewrite ?Hres; eauto.
    - rewrite lookup_alter_ne by done. intros Hr. exists row. repeat split; done. }
  split; [|split; [left; rewrite E1, lookup_insert_eq; eauto|split; [|done]]].
  - split.
    + intros id x. rewrite E3. intros [[<- <-]|[_ Hx]]%lookup_insert_Some; [|by eapply V1].
      injection Hsame as -> _. done.
    + intros id id' x x' txn Hx Hx'.
      destruct (view_orders db' db _ _ (eq_sym Hview) Hx) as (y & Hy & [= _ <- _]).
      destruct (view_orders db' db _ _ (eq_sym Hview) Hx') as (y' & Hy' & [= _ <- _]). by eapply V2.
    + intros t row s. rewrite E1. intros [[<- <-]|[_ Hr]]%lookup_insert_Some; [|by eapply V3].
      simpl. destruct transition; [|done]. intros [= <-]. by apply Htr.
    + intros t row. rewrite E1. intros [[<- <-]|[_ Hr]]%lookup_insert_Some.
      * split; [done|]. simpl. destruct (view_orders db db' _ _ Hview Ho) as (y & Hy & [= _ Ey Ex]). exists y. by rewrite Ey, Ex.
      * destruct (V4 t row Hr) as (Hp & x & Hx & Ex). split; [done|].
        destruct (view_orders db db' _ _ Hview Hx) as (y & Hy & [= _ Ey Ez]). exists y. by rewrite Ey, Ez.
    + intros t row (row0 & Hr0 & -> & -> & _)%Hinbox. by apply V5.
    + intros t row (row0 & Hr0 & _ & _ & _ & Hne & Heq)%Hinbox. rewrite E1. destruct (decide (t = gr_txn_id r)) as [->|Hd].
      * rewrite lookup_insert_eq. destruct (Heq eq_refl) as [x Hx]. rewrite Hx. done.
      * rewrite lookup_insert_ne by done. rewrite (Hne Hd). by apply V6.
    + intros t row p (row0 & Hr0 & _ & Ep & Er & Hne & Heq)%Hinbox Hres Hun Hp.
      destruct (decide (t = gr_txn_id r)) as [->|Hd].
      { destruct (Heq eq_refl) as [x Hx]. congruence. }
      rewrite (Hne Hd) in *. rewrite (view_owner db db' p Hview).
      destruct (V7 t row0 p Hr0 Hres Hun Hp); [left; done|by right].
  - intros t [Hl|Hb].
    + left. rewrite E1. destruct (decide (t = gr_txn_id r)) as [->|]; [rewrite lookup_insert_eq; eauto|by rewrite lookup_insert_ne].
    + right. rewrite E2. destruct (decide (t = gr_txn_id r)) as [->|].
      * destruct Hb as [x Hx]. rewrite lookup_alter_eq, Hx. simpl. eauto.
      * by rewrite lookup_alter_ne.
Qed.

Lemma validate_reason fields status custom o reason :
  validate_refund fields status custom o = inr reason -> reason <> "unknown_parent".
Proof.
  unfold validate_refund. repeat (match goal with |- context [if ?b then _ else _] => destruct b end; [congruence|]).
  destruct (_ (field_of fields "mc_gross") (o_exponent o)); congruence.
Qed.

Lemma validated_amount fields status custom o amount :
  validate_refund fields status custom o = inl amount -> amount_in fields status (o_exponent o) = Some amount.
Proof.
  unfold validate_refund, amount_in. repeat (match goal with |- context [if ?b then _ else _] => destruct b end; [congruence|]).
  destruct (_ (field_of fields "mc_gross") (o_exponent o)); congruence.
Qed.

(** Every well-formed notification is dealt with. *)
Lemma wp_evaluate pending db txn fields now :
  gateway_inv pending db -> agrees fields (notice txn) -> txn_of (notice txn) = Some txn ->
  is_Some (status_of (notice txn)) ->
  wp (evaluate attestor fields now) (fun _ => settled txn pending db) any_refusal db.
Proof.
  intros Hinv Ha Ht [status Hs]. destruct (agrees_same _ _ Ha) as (Et & Ep & Es).
  unfold evaluate. fold (status_of fields) (txn_of fields) (parent_of fields). rewrite Es, Et, Ep, Hs, Ht.
  apply wp_bind, wp_select. destruct (gateway_refunds db !! txn) as [row|] eqn:Hrec.
  { change (bool_decide (is_Some (Some row))) with true. cbv iota. apply wp_ret.
    apply inv_settled; [done|left; eauto|]. intros r p Hr Hres. apply (gi_open _ _ Hinv _ _ Hr) in Hres. congruence. }
  change (bool_decide (is_Some None)) with false. cbv iota. apply wp_bind.
  apply wp_mono with (Q' := fun _ db' => db' = db) (R' := any_refusal); [| |done].
  { unfold find_custom, fetch_order. destruct (parse_uuid _); [|by apply wp_ret].
    apply wp_bind, wp_select. by apply wp_ret. }
  intros custom ? ->. destruct (parent_of (notice txn)) as [parent|] eqn:Hpar.
  - apply wp_bind, wp_gets. destruct (payment_owner parent db) as [o|] eqn:Hown.
    + destruct (validate_refund fields status custom o) as [amount|reason] eqn:Hv.
      * destruct (payment_owner_spec _ _ _ Hown) as (id & Ho & Hp). pose proof (gi_key _ _ Hinv _ _ Ho) as Hid.
        set (r := mkGatewayRecord (o_id o) txn parent status amount).
        change txn with (gr_txn_id r) at 1.
        apply (wp_record_on_order r now o); [simpl; by rewrite Hid|done|done|exact (gi_from _ _ Hinv)|].
        intros db' next effect transition Eout E1 E2 E3.
        eapply (inv_recorded pending db db' r o next now transition); try done; [simpl; by rewrite Hid|..].
        { simpl. rewrite <- (agrees_amount _ _ Ha). by eapply validated_amount. }
        intros ->. by eapply transition_source.
      * apply wp_store_inbox; [done|done|done|done|rewrite Hs; eauto|congruence|]. intros p Hr. by apply validate_reason in Hv.
    + apply wp_store_inbox; [done|done|done|done|rewrite Hs; eauto|congruence|]. intros p _ Hp. congruence.
  - apply wp_store_inbox; [done|done|done|done|rewrite Hs; eauto|congruence|]. intros p Hr. discriminate.
Qed.

(** ** Settling a payment *)

Definition nothing_pending (_ : string) : Prop := False.

Lemma inv_weaken (pending pending' : string -> Prop) db :
  (forall t, pending t -> pending' t) -> gateway_inv pending db -> gateway_inv pending' db.
Proof.
  intros Hsub [V1 V2 V3 V4 V5 V6 V7]. split; try done.
  intros t row p H1 H2 H3 H4. destruct (V7 t row p H1 H2 H3 H4); [left; auto|by right].
Qed.

Lemma held_elem txn t row db :
  (t, row) ∈ held_refunds txn db <-> gateway_refund_inbox db !! t = Some row /\ waits_for txn row = true.
Proof.
  unfold held_refunds. rewrite (merge_sort_Permutation received_first), list_elem_of_In, filter_In, <- list_elem_of_In.
  by rewrite elem_of_map_to_list.
Qed.

(** A pinned payment lets its notifications wait until they are evaluated. *)
Lemma inv_pin db order_id o payment :
  gateway_inv nothing_pending db -> orders db !! order_id = Some o -> pp_txn_id (o_paypal o) = None ->
  payment_owner (gp_txn_id payment) db = None ->
  let db' := upd orders (<[order_id := pin_payment payment o]>) db in
  gateway_inv (fun t => t ∈ map fst (held_refunds (gp_txn_id payment) db')) db'.
Proof.
  intros [V1 V2 V3 V4 V5 V6 V7] Ho Hnone Hfree db'.
  assert (Hor : orders db' = <[order_id := pin_payment payment o]> (orders db)) by done.
  assert (Hid : o_id (pin_payment payment o) = o_id o) by done.
  assert (Htx : pp_txn_id (o_paypal (pin_payment payment o)) = Some (gp_txn_id payment)) by done.
  rewrite payment_owner_none in Hfree. split.
  - intros id x. rewrite Hor. intros [[<- <-]|[_ Hx]]%lookup_insert_Some; [rewrite Hid; by apply V1|by apply V1].
  - intros id id' x x' t. rewrite Hor.
    intros [[<- <-]|[Hn Hx]]%lookup_insert_Some [[<- <-]|[Hn' Hx']]%lookup_insert_Some E E'; try done.
    + rewrite Htx in E. injection E as <-. by destruct (Hfree _ _ Hx').
    + rewrite Htx in E'. injection E' as <-. by destruct (Hfree _ _ Hx).
    + by eapply V2.
  - exact V3.
  - intros t row Hr. destruct (V4 t row Hr) as (Hp & x & Hx & Ex & Ha). split; [done|]. rewrite Hor.
    destruct (decide (gw_order_id row = order_id)) as [E|Hne]; [|rewrite lookup_insert_ne by done; by exists x].
    rewrite E, Ho in Hx. congruence.
  - exact V5.
  - exact V6.
  - intros t row p Hr Hres Hun Hpar. destruct (decide (p = gp_txn_id payment)) as [->|Hne].
    + left. apply list_elem_of_In, in_map_iff. exists (t, row). split; [done|]. apply list_elem_of_In, held_elem.
      split; [exact Hr|]. unfold waits_for. by rewrite Hpar, Hun, Hres, !bool_decide_eq_true_2.
    + right. destruct (V7 t row p Hr Hres Hun Hpar) as [[]|Hn]. rewrite payment_owner_none in Hn |- *.
      intros id x. rewrite Hor. intros [[<- <-]|[_ Hx]]%lookup_insert_Some; [rewrite Htx; congruence|by eapply Hn].
Qed.

Lemma wp_settle_payment order_id payment now db :
  gateway_inv nothing_pending db ->
  wp (settle_verified_payment attestor order_id payment now)
    (fun _ db' => gateway_inv nothing_pending db' /\ forall t, accounted db t -> accounted db' t) any_refusal db.
Proof.
  intros Hinv. unfold settle_verified_payment. apply wp_bind, wp_gets. apply wp_bind.
  apply wp_mono with (R' := any_refusal)
    (Q' := fun _ db1 => gateway_inv (fun t => t ∈ map fst (held_refunds (gp_txn_id payment) db1)) db1 /\
                        (forall t, accounted db t -> accounted db1 t)); [| |done].
  { apply wp_update_where.
    - intros o Ho Hc _. split; [|done]. apply andb_true_iff in Hc as [Hc Hfree].
      apply bool_decide_eq_true in Hc. apply negb_true_iff, bool_decide_eq_false, eq_None_not_Some in Hfree.
      by apply inv_pin.
    - intros _. split; [|done]. by eapply inv_weaken; [|exact Hinv]. }
  intros _ db1 [Hinv1 Hacc1]. apply wp_bind, wp_gets.
  assert (Hrows : Forall (fun kv => agrees (ib_fields (snd kv)) (notice (fst kv)) /\
      txn_of (notice (fst kv)) = Some (fst kv) /\ is_Some (status_of (notice (fst kv))))
      (held_refunds (gp_txn_id payment) db1)).
  { apply list.Forall_forall. intros [t row] [Hr _]%held_elem. by destruct (gi_inbox _ _ Hinv1 _ _ Hr) as (? & ? & ? & _). }
  revert Hinv1 Hrows. generalize (held_refunds (gp_txn_id payment) db1) as held. intros held Hinv1 Hrows.
  apply wp_mono with (R' := any_refusal)
    (Q' := fun _ db2 => gateway_inv (fun t => t ∈ map fst ([] : list (string * RefundInboxRow))) db2 /\
             (forall t, accounted db t -> accounted db2 t) /\
             Forall (fun kv : string * RefundInboxRow => agrees (ib_fields (snd kv)) (notice (fst kv)) /\
               txn_of (notice (fst kv)) = Some (fst kv) /\ is_Some (status_of (notice (fst kv)))) []); [| |done].
  - apply (wp_for_each (fun l db2 => gateway_inv (fun t => t ∈ map fst l) db2 /\
             (forall t, accounted db t -> accounted db2 t) /\
             Forall (fun kv : string * RefundInboxRow => agrees (ib_fields (snd kv)) (notice (fst kv)) /\
               txn_of (notice (fst kv)) = Some (fst kv) /\ is_Some (status_of (notice (fst kv)))) l)); [done|].
    intros [t row] l db2 (Hi & Hacc & Hf). apply Forall_cons_1 in Hf as [(H1 & H2 & H3) Hf]. simpl in *.
    apply wp_bind. apply wp_mono with (R' := any_refusal) (Q' := fun _ => settled t (fun x => x ∈ t :: map fst l) db2);
      [by apply wp_evaluate| |done].
    intros _ db3 (Hi3 & _ & Hacc3 & _). apply wp_ret. split; [|split; [auto|done]].
    eapply inv_weaken; [|exact Hi3]. intros x [Hx Hne]. cbn beta in Hx. by apply elem_of_cons in Hx as [->|].
  - intros _ db2 (Hi & Hacc & _). split; [|done]. eapply inv_weaken; [|exact Hi]. by intros t ?%not_elem_of_nil.
Qed.

(** ** Runs *)

(** The store, and the notifications PayPal was acknowledged. *)
Inductive gateway_step : Db * list (gmap string string) -> Db * list (gmap string string) -> Prop :=
| gateway_notified db received fields txn now disposition db' :
    txn_of fields = Some txn -> is_Some (status_of fields) -> agrees fields (notice txn) ->
    process attestor fields now db = (Some disposition, db') ->
    gateway_step (db, received) (db', fields :: received)
| gateway_settled db received order_id payment now db' :
    settle_verified_payment attestor order_id payment now db = Done tt db' ->
    gateway_step (db, received) (db', received)
| gateway_other db received db' :
    gateway_refunds db' = gateway_refunds db -> gateway_refund_inbox db' = gateway_refund_inbox db ->
    (forall id o, orders db !! id = Some o -> exists o', orders db' !! id = Some o' /\ paypal_id o' = paypal_id o) ->
    (forall id o', orders db' !! id = Some o' -> orders db !! id = None -> unpaid id o') ->
    gateway_step (db, received) (db', received).

Lemma inv_other db db' :
  gateway_refunds db' = gateway_refunds db -> gateway_refund_inbox db' = gateway_refund_inbox db ->
  (forall id o, orders db !! id = Some o -> exists o', orders db' !! id = Some o' /\ paypal_id o' = paypal_id o) ->
  (forall id o', orders db' !! id = Some o' -> orders db !! id = None -> unpaid id o') ->
  gateway_inv nothing_pending db -> gateway_inv nothing_pending db'.
Proof.
  intros E1 E2 Hold Hnew [V1 V2 V3 V4 V5 V6 V7].
  assert (Hback : forall id o', orders db' !! id = Some o' -> unpaid id o' \/
    exists o, orders db !! id = Some o /\ paypal_id o' = paypal_id o).
  { intros id o' Ho'. destruct (orders db !! id) as [o|] eqn:Ho; [right|left; eauto].
    destruct (Hold id o Ho) as (x & Hx & Ex). rewrite Ho' in Hx. injection Hx as <-. eauto. }
  split; rewrite ?E1, ?E2; try done.
  - intros id o' [[-> _]|(o & Ho & [= -> _ _])]%Hback; [done|by apply V1].
  - intros id id' o o' txn Ho Ho' Hp Hp'. destruct (Hback _ _ Ho) as [[_ E]|(x & Hx & [= _ E _])]; [congruence|].
    destruct (Hback _ _ Ho') as [[_ E']|(x' & Hx' & [= _ E' _])]; [congruence|].
    apply (V2 id id' x x' txn); congruence.
  - intros t row Hr. destruct (V4 t row Hr) as (Hp & o & Ho & Eo). split; [done|].
    destruct (Hold _ _ Ho) as (o' & Ho' & [= _ E Ex]). exists o'. by rewrite E, Ex.
  - intros t row p Hr Hres Hun Hpar. right. destruct (V7 t row p Hr Hres Hun Hpar) as [[]|Hn].
    rewrite payment_owner_none in Hn |- *. intros id o' [[_ E]|(o & Ho & [= _ E _])]%Hback; [congruence|].
    rewrite E. by eapply Hn.
Qed.

Definition received_ok (w : Db * list (gmap string string)) : Prop :=
  gateway_inv nothing_pending (fst w) /\
  forall fields, fields ∈ snd w -> exists txn, txn_of fields = Some txn /\ agrees fields (notice txn) /\ accounted (fst w) txn.

Lemma received_step w w' : gateway_step w w' -> received_ok w -> received_ok w'.
Proof.
  intros [db received fields txn now d db' Ht Hs Ha Hp|db received order_id payment now db' Hp|db received db' E1 E2 Hold Hnew]
    [Hinv Hacc]; simpl in *.
  - destruct (agrees_same _ _ Ha) as (Et & _ & Es).
    unfold process in Hp. fold (status_of fields) (txn_of fields) in Hp. rewrite Ht in Hp. destruct Hs as [s Hs].
    rewrite Hs in Hp. change (bool_decide (Some s = None)) with false in Hp.
    change (bool_decide (Some txn = None)) with false in Hp. simpl in Hp.
    pose proof (wp_evaluate nothing_pending db txn fields now Hinv Ha) as Hw. rewrite <- Et, <- Es, Ht, Hs in Hw.
    specialize (Hw eq_refl ltac:(eauto)). unfold wp in Hw.
    destruct (evaluate attestor fields now db) as [d' db1| | |]; try discriminate.
    injection Hp as -> ->. destruct Hw as (Hi & Hat & Hmono & _). split; simpl.
    + eapply inv_weaken; [|exact Hi]. by intros t [[] _].
    + intros f [->|Hf]%elem_of_cons; [eauto|]. destruct (Hacc f Hf) as (t & ? & ? & ?). eauto 6.
  - pose proof (wp_settle_payment order_id payment now db Hinv) as Hw. unfold wp in Hw. rewrite Hp in Hw.
    destruct Hw as [Hi Hmono]. split; [done|]. simpl. intros f Hf. destruct (Hacc f Hf) as (t & ? & ? & ?). eauto 6.
  - split; [by eapply inv_other|]. simpl. intros f Hf. destruct (Hacc f Hf) as (t & ? & ? & Hat). exists t.
    split; [done|]. split; [done|]. unfold accounted in *. by rewrite E1, E2.
Qed.

(** Before the first notification. *)
Definition no_notifications (db : Db) : Prop :=
  gateway_refunds db = ∅ /\ gateway_refund_inbox db = ∅ /\
  forall id o, orders db !! id = Some o -> unpaid id o.

(** C30. No verified refund, reversal or canceled reversal is lost.  A run
    starts before the first notification and consists of notifications with a
    transaction id, settlements of payments and other transactions that leave
    the ledger, the inbox and the payments of orders alone; PayPal repeats a
    notification unchanged.  Along every run, each notification that was
    acknowledged is recorded on the order that owns the payment it names, with
    its status and its amount in the order's minor units, or it is held open
    in the inbox; and it is held for an unknown payment only while no order
    owns that payment.  No assertion of the recording fails. *)
Theorem refund_never_lost db0 db received fields :
  no_notifications db0 -> rtc gateway_step (db0, []) (db, received) -> fields ∈ received ->
  exists txn, txn_of fields = Some txn /\
    ((exists row o, gateway_refunds db !! txn = Some row /\ orders db !! gw_order_id row = Some o /\
        is_Some (pp_txn_id (o_paypal o)) /\ pp_txn_id (o_paypal o) = parent_of fields /\
        status_of fields = Some (gw_status row) /\
        amount_in fields (gw_status row) (o_exponent o) = Some (gw_amount_minor row)) \/
     (gateway_refunds db !! txn = None /\
      exists row, gateway_refund_inbox db !! txn = Some row /\ ib_resolved_at row = None /\
        (ib_reason row = "unknown_parent" -> forall parent, parent_of fields = Some parent -> payment_owner parent db = None))) /\
    forall now msg, evaluate attestor fields now db <> Panicked msg.
Proof.
  intros (L1 & L2 & L3) Hrun Hf.
  assert (H0 : received_ok (db0, [])).
  { split; [|by intros f ?%not_elem_of_nil]. simpl. split; rewrite ?L1, ?L2; try done.
    - by intros id o [-> _]%L3.
    - intros id id' o o' t [_ E]%L3 _ E'. congruence. }
  assert (Hok : received_ok (db, received)).
  { revert H0 Hrun. generalize (db0, [] : list (gmap string string)) as w.
    intros w Hw Hr. remember (db, received) as w' eqn:Ew. clear Hf. revert Ew. induction Hr; intros ->; eauto using received_step. }
  destruct Hok as [Hinv Hacc]. simpl in *. destruct (Hacc fields Hf) as (txn & Ht & Ha & Hat).
  destruct (agrees_same _ _ Ha) as (Et & Ep & Es). exists txn. split; [done|].
  split.
  - destruct (gateway_refunds db !! txn) as [row|] eqn:Hrec.
    + left. destruct (gi_owner _ _ Hinv _ _ Hrec) as ((Hp & Hst) & o & Ho & Eo & Ham). exists row, o.
      split; [done|]. split; [done|]. rewrite Eo, Es, (agrees_amount _ _ Ha). repeat split; [eauto|congruence|done|done].
    + right. split; [done|]. destruct Hat as [[x Hx]|[row Hrow]]; [congruence|]. exists row. split; [done|].
      pose proof (proj2 (gi_open _ _ Hinv _ _ Hrow) Hrec) as Hres. split; [done|]. intros Hun parent Hpar.
      destruct (gi_inbox _ _ Hinv _ _ Hrow) as (_ & _ & _ & Ep').
      destruct (gi_waiting _ _ Hinv _ _ parent Hrow Hres Hun) as [[]|]; [congruence|done].
  - intros now msg. destruct (status_of (notice txn)) as [st|] eqn:Hst.
    + eapply wp_no_panic, (wp_evaluate nothing_pending db txn fields now Hinv Ha); [congruence|eauto].
    + unfold evaluate. fold (status_of fields). by rewrite Es.
Qed.

(** ** The order follows the money *)

(** What a ledger row or a record says about money. *)
Definition money_of (kv : string * GatewayRefundRow) : string * GatewayStatus * Z :=
  (fst kv, gw_status (snd kv), gw_amount_minor (snd kv)).
Definition money_in (r : GatewayRecord) : string * GatewayStatus * Z := (gr_txn_id r, gr_status r, gr_amount_minor r).

(** The money of one kind. *)
Definition amount_of (status : GatewayStatus) (m : string * GatewayStatus * Z) : Z :=
  if bool_decide (m.1.2 = status) then m.2 else 0.
Definition sum_of (status : GatewayStatus) (l : list (string * GatewayStatus * Z)) : Z :=
  sum_list (map (amount_of status) l).
Definition sum_all (l : list (string * GatewayStatus * Z)) : Z := sum_list (map snd l).

Lemma sum_of_perm status l l' : Permutation l l' -> sum_of status l = sum_of status l'.
Proof. unfold sum_of, sum_list. induction 1; simpl; lia. Qed.

Lemma sum_all_perm l l' : Permutation l l' -> sum_all l = sum_all l'.
Proof. unfold sum_all, sum_list. induction 1; simpl; lia. Qed.

Lemma sum_all_app l l' : sum_all (l ++ l') = sum_all l + sum_all l'.
Proof. unfold sum_all. by rewrite map_app, sum_list_app. Qed.

Lemma sum_of_bounds l :
  Forall (fun m : string * GatewayStatus * Z => 0 < m.2) l ->
  0 <= sum_of GRefunded l /\ 0 <= sum_of GReversed l /\ 0 <= sum_of GCanceledReversal l /\
  sum_of GRefunded l + sum_of GReversed l + sum_of GCanceledReversal l = sum_all l.
Proof.
  unfold sum_of, sum_all, sum_list. induction 1 as [|[[t st] a] l Ha Hl IH]; [simpl; lia|]. simpl in *.
  unfold amount_of at 1 3 5 7 9 11. simpl. destruct st; simpl; lia.
Qed.

Definition totals_of (l : list (string * GatewayStatus * Z)) : Totals :=
  mkTotals (sum_of GRefunded l) (sum_of GReversed l) (sum_of GCanceledReversal l).

Lemma add_total_exact l t st a :
  Forall (fun m : string * GatewayStatus * Z => 0 < m.2) l -> 0 < a -> sum_all l + a <= i64_max ->
  add_total (totals_of l) st a = totals_of ((t, st, a) :: l).
Proof.
  intros Hl Ha Hb. pose proof (sum_of_bounds l Hl) as (? & ? & ? & ?).
  unfold totals_of, add_total. simpl.
  assert (Hw : forall x, 0 <= x <= i64_max -> wrap64 x = x).
  { intros x Hx. apply wrap64_id, in_i64_spec. unfold i64_min. lia. }
  destruct st; simpl; unfold sum_of at 4 5 6; cbn [map sum_list foldr]; unfold amount_of at 1 3 5; simpl;
    change (foldr Z.add 0 (map (amount_of ?s) l)) with (sum_of s l); rewrite Hw by lia; f_equal; lia.
Qed.

Lemma ledger_totals_exact ledger :
  Forall (fun kv : string * GatewayRefundRow => 0 < gw_amount_minor (snd kv)) ledger ->
  sum_all (map money_of ledger) <= i64_max -> ledger_totals ledger = totals_of (map money_of ledger).
Proof.
  intros Hpos. unfold ledger_totals. rewrite <- fold_left_rev_right.
  enough (Hg : forall l, Forall (fun kv : string * GatewayRefundRow => 0 < gw_amount_minor (snd kv)) l ->
    sum_all (map money_of l) <= i64_max ->
    fold_right (fun kv t => add_total t (gw_status (snd kv)) (gw_amount_minor (snd kv))) no_totals l =
    totals_of (map money_of l)).
  { intros Hb. assert (Hp : Permutation (map money_of (rev ledger)) (map money_of ledger)).
    { apply Permutation_map. symmetry. apply Permutation_rev. }
    rewrite Hg.
    - unfold totals_of. by rewrite !(sum_of_perm _ _ _ Hp).
    - apply Forall_rev, Hpos.
    - by rewrite (sum_all_perm _ _ Hp). }
  clear. induction l as [|[t row] l IH]; intros Hf Hb; [done|]. apply Forall_cons_1 in Hf as [Ha Hf]. simpl in *.
  assert (Hf' : Forall (fun m : string * GatewayStatus * Z => 0 < m.2) (map money_of l)).
  { clear -Hf. induction Hf; simpl; constructor; auto. }
  pose proof (sum_of_bounds _ Hf') as (? & ? & ? & ?).
  unfold sum_all, sum_list in Hb. simpl in Hb. change (foldr Z.add 0 (map snd ?x)) with (sum_all x) in Hb.
  rewrite IH by (done || lia). apply (add_total_exact (map money_of l) t); [done|done|lia].
Qed.

(** Money returned to the buyer and not taken back, and the reversals among it. *)
Definition still_reversed (l : list (string * GatewayStatus * Z)) : Z :=
  Z.max (sum_of GReversed l - sum_of GCanceledReversal l) 0.
Definition returned (l : list (string * GatewayStatus * Z)) : Z := sum_of GRefunded l + still_reversed l.

Lemma totals_meaning l :
  Forall (fun m : string * GatewayStatus * Z => 0 < m.2) l -> sum_all l <= i64_max ->
  outstanding_reversal (totals_of l) = still_reversed l /\ effective (totals_of l) = returned l.
Proof.
  intros Hl Hb. pose proof (sum_of_bounds l Hl) as (? & ? & ? & ?).
  assert (Hw : forall x, i64_min <= x <= i64_max -> wrap64 x = x) by (intros x Hx; by apply wrap64_id, in_i64_spec).
  assert (E : outstanding_reversal (totals_of l) = still_reversed l).
  { unfold outstanding_reversal, still_reversed. simpl. rewrite Hw; [done|]. unfold i64_min, i64_max in *. lia. }
  split; [done|]. unfold effective, returned. rewrite E. simpl. apply Hw. unfold still_reversed, i64_min, i64_max in *. lia.
Qed.

Lemma ledger_insert db db' txn row id :
  gateway_refunds db !! txn = None -> gateway_refunds db' = <[txn := row]> (gateway_refunds db) -> gw_order_id row = id ->
  Permutation (refund_ledger id db') ((txn, row) :: refund_ledger id db).
Proof.
  intros Hn E Hid. unfold refund_ledger. rewrite !(merge_sort_Permutation recorded_first), E.
  assert (Hp := map_to_list_insert (gateway_refunds db) txn row Hn).
  assert (Hf : forall l l' : list (string * GatewayRefundRow), Permutation l l' ->
    Permutation (List.filter (fun kv => N.eqb (gw_order_id (snd kv)) id) l)
                (List.filter (fun kv => N.eqb (gw_order_id (snd kv)) id) l')).
  { induction 1; simpl; try done.
    - case_match; [by constructor|done].
    - do 2 case_match; try done. constructor.
    - by etransitivity. }
  rewrite (Hf _ _ Hp). simpl. by rewrite Hid, N.eqb_refl.
Qed.

(** An order whose state follows its ledger. *)
Record follows (s0 : OrderState) (total : Z) (id : Uuid) (l : list (string * GatewayStatus * Z)) (o : OrderRow) (db : Db)
    : Prop := {
  fo_order : orders db !! id = Some o;
  fo_id : o_id o = id;
  fo_total : o_total_minor o = total;
  fo_ledger : Permutation (map money_of (refund_ledger id db)) l;
  fo_state : o_state o = if total <=? returned l then ORefundedExternal else s0;
  fo_refund : match o_external_refund o with
              | None => returned l <= 0
              | Some e => 0 < returned l /\ er_amount_minor e = Z.min (returned l) total /\
                          In (er_transaction_id e) (map fst (refund_ledger id db))
              end;
  fo_reversed : is_Some (o_payment_reversed_at o) <-> 0 < still_reversed l;
  fo_from : forall kv s, In kv (refund_ledger id db) -> gw_from_state (snd kv) = Some s -> s = s0;
  fo_mark : total <= returned l -> exists kv, In kv (refund_ledger id db) /\ gw_from_state (snd kv) = Some s0;
  fo_sources : only_sources db;
}.

Lemma follows_manual s0 total id l o db : follows s0 total id l o db -> manual_external o (refund_ledger id db) = false.
Proof.
  intros F. unfold manual_external. pose proof (fo_refund _ _ _ _ _ _ F) as Hr.
  destruct (o_external_refund o) as [e|]; [|done]. destruct Hr as (_ & _ & Hin). apply negb_false_iff, existsb_exists.
  apply in_map_iff in Hin as (kv & E & Hin). exists kv. split; [done|]. by rewrite E, String.eqb_refl.
Qed.

Lemma returned_cons t st a l :
  Forall (fun m : string * GatewayStatus * Z => 0 < m.2) l -> 0 < a ->
  match st with
  | GRefunded => returned ((t, st, a) :: l) = returned l + a /\ still_reversed ((t, st, a) :: l) = still_reversed l
  | GReversed => returned l <= returned ((t, st, a) :: l) /\
      returned ((t, st, a) :: l) = sum_of GRefunded l + still_reversed ((t, st, a) :: l) /\
      still_reversed l <= still_reversed ((t, st, a) :: l)
  | GCanceledReversal => returned ((t, st, a) :: l) <= returned l /\
      still_reversed ((t, st, a) :: l) <= still_reversed l
  end.
Proof.
  intros Hl Ha. unfold returned, still_reversed, sum_of, sum_list. cbn [map foldr]. unfold amount_of at 1. simpl.
  destruct st; simpl; unfold amount_of; simpl; lia.
Qed.

(** The ledger after a record. *)
Lemma follows_ledger s0 total id l o db db' r transition now :
  follows s0 total id l o db -> gr_order_id r = id -> gateway_refunds db !! gr_txn_id r = None ->
  full_refund_source s0 = true -> (transition = true -> o_state o = s0) ->
  gateway_refunds db' = <[gr_txn_id r := recorded_row o r transition now]> (gateway_refunds db) ->
  Permutation (map money_of (refund_ledger id db')) (money_in r :: l) /\
  (forall x, In x (map fst (refund_ledger id db)) \/ x = gr_txn_id r -> In x (map fst (refund_ledger id db'))) /\
  (forall kv s, In kv (refund_ledger id db') -> gw_from_state (snd kv) = Some s -> s = s0) /\
  ((exists kv, In kv (refund_ledger id db) /\ gw_from_state (snd kv) = Some s0) \/ transition = true ->
     exists kv, In kv (refund_ledger id db') /\ gw_from_state (snd kv) = Some s0) /\
  only_sources db'.
Proof.
  intros F Hid Hnew Hs0 Htr E.
  assert (Hp := ledger_insert db db' _ (recorded_row o r transition now) id Hnew E Hid).
  assert (Hin : forall kv, In kv (refund_ledger id db') <-> (gr_txn_id r, recorded_row o r transition now) = kv \/ In kv (refund_ledger id db)).
  { intros kv. rewrite <- !list_elem_of_In, Hp, elem_of_cons. naive_solver. }
  split; [|split; [|split; [|split]]].
  - rewrite Hp. simpl. by rewrite (fo_ledger _ _ _ _ _ _ F).
  - intros x [(kv & <- & Hk)%in_map_iff| ->]; apply in_map_iff.
    + exists kv. split; [done|]. apply Hin. by right.
    + eexists. split; [|apply Hin; by left]. done.
  - intros kv s [<-|Hk]%Hin; [|by eapply fo_from]. simpl. destruct transition; [|done]. intros [= <-]. auto.
  - intros [(kv & Hk & Ek)|Ht]; [exists kv; split; [apply Hin; by right|done]|].
    eexists. split; [apply Hin; by left|]. simpl. rewrite Ht. f_equal. auto.
  - intros t row s. rewrite E. intros [[<- <-]|[_ Hr]]%lookup_insert_Some; [|by eapply (fo_sources _ _ _ _ _ _ F)].
    simpl. destruct transition; [|done]. intros [= <-]. rewrite Htr by done. done.
Qed.

(** What a change has to make of the order. *)
Record follows_change (s0 : OrderState) (total : Z) (l l' : list (string * GatewayStatus * Z)) (txns : list string)
    (o : OrderRow) (next : OrderChange) (transition : bool) : Prop := {
  fc_state : oc_state next = if total <=? returned l' then ORefundedExternal else s0;
  fc_refund : match oc_external_refund next with
              | None => returned l' <= 0
              | Some e => 0 < returned l' /\ er_amount_minor e = Z.min (returned l') total /\ In (er_transaction_id e) txns
              end;
  fc_reversed : is_Some (oc_reversed_at next) <-> 0 < still_reversed l';
  fc_source : transition = true -> o_state o = s0;
  fc_mark : total <= returned l' -> total <= returned l \/ transition = true;
}.

Lemma running_refund_spec o sum txn now (txns : list string) :
  In txn txns ->
  match running_refund o sum txn now with
  | None => sum <= 0
  | Some e => 0 < sum /\ er_amount_minor e = Z.min sum (o_total_minor o) /\ In (er_transaction_id e) txns
  end.
Proof. intros Hin. unfold running_refund. destruct (Z.ltb_spec 0 sum); simpl; [done|lia]. Qed.

(** A refund or a reversal. *)
Lemma refund_follows s0 total id l o db r now next effect transition :
  follows s0 total id l o db -> full_refund_source s0 = true ->
  Forall (fun m : string * GatewayStatus * Z => 0 < m.2) l -> 0 < gr_amount_minor r ->
  sum_all (money_in r :: l) <= i64_max -> gr_status r <> GCanceledReversal ->
  refund_change o r false (totals_of (money_in r :: l)) now = (next, effect, transition) ->
  follows_change s0 total l (money_in r :: l) (gr_txn_id r :: map fst (refund_ledger id db)) o next transition.
Proof.
  intros F Hs0 Hl Ha Hall Hkind. 
  assert (Hl' : Forall (fun m : string * GatewayStatus * Z => 0 < m.2) (money_in r :: l)) by (by constructor).
  destruct (totals_meaning _ Hl' Hall) as [Hr1 Hf1].
  pose proof (fo_state _ _ _ _ _ _ F) as Hst. pose proof (fo_reversed _ _ _ _ _ _ F) as Hrev.
  pose proof (fo_total _ _ _ _ _ _ F) as Ht.
  pose proof (returned_cons (gr_txn_id r) (gr_status r) (gr_amount_minor r) l Hl Ha) as Hc. fold (money_in r) in Hc.
  assert (Hmono : returned l <= returned (money_in r :: l)) by (destruct (gr_status r); lia || done).
  unfold refund_change. rewrite Hf1, Hr1, Ht. intros [= <- _ <-]. simpl. rewrite andb_true_r.
  assert (Hn : full_refund_source ORefundedExternal = false) by done.
  split; simpl.
  - rewrite Hst. repeat case_match; simpl in *; try done; lia || congruence.
  - rewrite <- Ht. apply (running_refund_spec _ _ _ _ (_ :: _)). by left.
  - destruct (gr_status r); [|case_decide|]; try done.
    + simpl. destruct Hc as [_ ->]. done.
    + simpl. destruct (Z.ltb_spec 0 (still_reversed (money_in r :: l))); split; eauto; try lia. by intros [].
  - intros [_ Hsrc]%andb_true_iff. rewrite Hst in *. by case_match.
  - intros Hful. rewrite Hst. destruct (Z.leb_spec total (returned l)); [by left|right].
    rewrite Hs0. apply andb_true_iff. split; [by apply Z.leb_le|done].
Qed.

Lemma last_row_in p ledger kv : last_row p ledger = Some kv -> In kv ledger /\ p (snd kv) = true.
Proof. unfold last_row. intros [Hin Hp]%find_some. by apply in_rev in Hin. Qed.

Lemma latest_refund_in ledger txn : In (latest_refund ledger txn) (txn :: map fst ledger).
Proof.
  unfold latest_refund. repeat case_match; subst; try (by left);
    match goal with He : last_row _ _ = Some _ |- _ => apply last_row_in in He as [Hin _] end;
    right; apply in_map_iff; by eexists (_, _).
Qed.

Lemma replaced_row_found ledger kv s :
  In kv ledger -> gw_from_state (snd kv) = Some s ->
  exists kv' s', replaced_row ledger = Some kv' /\ In kv' ledger /\ gw_from_state (snd kv') = Some s'.
Proof.
  intros Hin E. destruct (replaced_row ledger) as [kv'|] eqn:Hr.
  - apply last_row_in in Hr as [Hin' [s' Hs']%bool_decide_eq_true]. by exists kv', s'.
  - unfold replaced_row, last_row in Hr. apply (find_none _ _) with (x := kv) in Hr; [|by apply -> in_rev].
    simpl in Hr. by rewrite E in Hr.
Qed.

(** A canceled reversal. *)
Lemma restore_follows s0 total id l o db r now next effect reopened :
  follows s0 total id l o db -> full_refund_source s0 = true ->
  Forall (fun m : string * GatewayStatus * Z => 0 < m.2) l -> 0 < gr_amount_minor r ->
  sum_all (money_in r :: l) <= i64_max -> gr_status r = GCanceledReversal ->
  restore_change o r (refund_ledger id db) false (totals_of l) (totals_of (money_in r :: l)) now = (next, effect, reopened) ->
  follows_change s0 total l (money_in r :: l) (gr_txn_id r :: map fst (refund_ledger id db)) o next false.
Proof.
  intros F Hs0 Hl Ha Hall Hkind.
  assert (Hl' : Forall (fun m : string * GatewayStatus * Z => 0 < m.2) (money_in r :: l)) by (by constructor).
  destruct (totals_meaning _ Hl' Hall) as [Hr1 Hf1].
  pose proof (fo_state _ _ _ _ _ _ F) as Hst. pose proof (fo_reversed _ _ _ _ _ _ F) as Hrev.
  pose proof (fo_total _ _ _ _ _ _ F) as Ht.
  pose proof (returned_cons (gr_txn_id r) (gr_status r) (gr_amount_minor r) l Hl Ha) as Hc. rewrite Hkind in Hc.
  replace (gr_txn_id r, GCanceledReversal, gr_amount_minor r) with (money_in r) in Hc by (unfold money_in; by rewrite Hkind).
  destruct Hc as [Hc1 Hc2].
  unfold restore_change. rewrite Hf1, Hr1, Ht. intros [= <- _ _]. simpl. rewrite andb_true_r. split; simpl.
  - rewrite Hst. destruct (Z.leb_spec total (returned l)) as [Hful|].
    + rewrite bool_decide_eq_true_2 by done. simpl.
      destruct (Z.ltb_spec (returned (money_in r :: l)) total).
      * destruct (fo_mark _ _ _ _ _ _ F Hful) as (kv & Hin & Hfrom).
        destruct (replaced_row_found _ _ _ Hin Hfrom) as ([t row] & s' & -> & Hin' & Hfrom'). simpl in *. rewrite Hfrom'. simpl.
        rewrite (fo_from _ _ _ _ _ _ F _ _ Hin' Hfrom'). by case_match; [lia|].
      * by case_match; [|lia].
    + assert (Hne : s0 <> ORefundedExternal) by (by intros ->). rewrite bool_decide_eq_false_2 by done. simpl.
      by case_match; [lia|].
  - rewrite <- Ht. apply (running_refund_spec _ _ _ _ (_ :: _)), latest_refund_in.
  - destruct (Z.eqb_spec (still_reversed (money_in r :: l)) 0).
    + split; [by intros []|lia].
    + assert (0 <= still_reversed (money_in r :: l)) by (unfold still_reversed; lia). rewrite Hrev. lia.
  - done.
  - intros. left. lia.
Qed.

Lemma follows_step s0 total id l o db db' r now next effect transition :
  follows s0 total id l o db -> full_refund_source s0 = true ->
  Forall (fun m : string * GatewayStatus * Z => 0 < m.2) l -> 0 < gr_amount_minor r ->
  sum_all (money_in r :: l) <= i64_max -> gr_order_id r = id -> gateway_refunds db !! gr_txn_id r = None ->
  outcome o r (refund_ledger id db) now = (next, effect, transition) ->
  gateway_refunds db' = <[gr_txn_id r := recorded_row o r transition now]> (gateway_refunds db) ->
  orders db' = <[o_id o := change_row next now (o <| o_revision := o_revision o + 1 |>)]> (orders db) ->
  follows s0 total id (money_in r :: l) (change_row next now (o <| o_revision := o_revision o + 1 |>)) db'.
Proof.
  intros F Hs0 Hl Ha Hall Hid Hnew Eout E1 E2.
  assert (Hpos : Forall (fun kv : string * GatewayRefundRow => 0 < gw_amount_minor (snd kv)) (refund_ledger id db)).
  { apply list.Forall_forall. intros kv Hk. pose proof (fo_ledger _ _ _ _ _ _ F) as Hp.
    rewrite list.Forall_forall in Hl. apply (Hl (money_of kv)). rewrite <- Hp. apply list_elem_of_In, in_map. by apply list_elem_of_In. }
  assert (Hb : sum_all l + gr_amount_minor r <= i64_max) by (unfold sum_all, sum_list in *; simpl in *; lia).
  assert (Hbefore : ledger_totals (refund_ledger id db) = totals_of l).
  { rewrite ledger_totals_exact by (done || (rewrite (sum_all_perm _ _ (fo_ledger _ _ _ _ _ _ F)); lia)). unfold totals_of.
    by rewrite !(sum_of_perm _ _ _ (fo_ledger _ _ _ _ _ _ F)). }
  unfold outcome in Eout. rewrite Hbefore, (follows_manual _ _ _ _ _ _ F) in Eout.
  rewrite (add_total_exact l (gr_txn_id r)) in Eout by done. fold (money_in r) in Eout. cbv zeta in Eout.
  assert (C : follows_change s0 total l (money_in r :: l) (gr_txn_id r :: map fst (refund_ledger id db)) o next transition).
  { destruct (gr_status r) eqn:Est; [by eapply refund_follows; rewrite ?Est|by eapply refund_follows; rewrite ?Est|].
    destruct (restore_change _ _ _ _ _ _ _) as [[n e] reopened] eqn:Er. injection Eout as <- _ <-. by eapply restore_follows. }
  destruct (follows_ledger _ _ _ _ _ _ db' r transition now F Hid Hnew Hs0 (fc_source _ _ _ _ _ _ _ _ C) E1)
    as (Hp & Htx & Hfrom & Hmark & Hsrc).
  destruct C as [C1 C2 C3 C4 C5]. split; try done.
  - rewrite E2, (fo_id _ _ _ _ _ _ F). by rewrite lookup_insert_eq.
  - simpl. apply F.
  - simpl. apply F.
  - simpl. destruct (oc_external_refund next); [|done]. destruct C2 as (? & ? & Hin). split; [done|]. split; [done|].
    apply Htx. destruct Hin as [<-|]; auto.
  - intros [Hful|Ht]%C5; apply Hmark; [left; by eapply fo_mark|by right].
Qed.

Lemma returned_perm l l' : Permutation l l' -> returned l = returned l' /\ still_reversed l = still_reversed l'.
Proof. intros Hp. unfold returned, still_reversed. by rewrite !(sum_of_perm _ _ _ Hp). Qed.

(** Notifications about one order, each recorded at its time. *)
Definition record_all (records : list (GatewayRecord * Time)) : H unit :=
  for_each records (fun rn => do* record_on_order attestor (fst rn) (snd rn) in ret tt).

Definition money_all (records : list (GatewayRecord * Time)) : list (string * GatewayStatus * Z) :=
  map (fun rn => money_in (fst rn)) records.

Lemma wp_record_all s0 total id rs : forall l o db,
  follows s0 total id l o db -> full_refund_source s0 = true ->
  Forall (fun m : string * GatewayStatus * Z => 0 < m.2) (l ++ money_all rs) ->
  sum_all (l ++ money_all rs) <= i64_max ->
  Forall (fun rn => gr_order_id (fst rn) = id /\ gateway_refunds db !! gr_txn_id (fst rn) = None) rs ->
  base.NoDup (map (fun rn => gr_txn_id (fst rn)) rs) ->
  wp (record_all rs) (fun _ db' => exists o' l', follows s0 total id l' o' db' /\ Permutation l' (l ++ money_all rs))
    any_refusal db.
Proof.
  induction rs as [|[r now] rs IH]; intros l o db F Hs0 Hpos Hsum Hrs Hnd.
  { apply wp_ret. exists o, l. split; [done|]. by rewrite app_nil_r. }
  apply Forall_cons_1 in Hrs as [[Hid Hnew] Hrs]. simpl in Hid, Hnew.
  assert (Hp : Permutation (l ++ money_all ((r, now) :: rs)) ((money_in r :: l) ++ money_all rs)).
  { simpl. symmetry. apply Permutation_middle. }
  rewrite (sum_all_perm _ _ Hp) in Hsum. rewrite Hp in Hpos.
  assert (Hhead : Forall (fun m : string * GatewayStatus * Z => 0 < m.2) (money_in r :: l)) by (by apply Forall_app in Hpos as [? _]).
  assert (Htail : Forall (fun m : string * GatewayStatus * Z => 0 < m.2) (money_all rs)) by (by apply Forall_app in Hpos as [_ ?]).
  assert (Hb : sum_all (money_in r :: l) <= i64_max).
  { pose proof (sum_of_bounds _ Htail). rewrite sum_all_app in Hsum. lia. }
  simpl in Hnd. apply list.NoDup_cons in Hnd as [Hfresh Hnd].
  unfold record_all. cbn [for_each]. cbn [fst snd]. apply wp_bind, wp_bind.
  eapply wp_record_on_order; [rewrite Hid; apply F|rewrite Hid; apply F|done|apply F|].
  intros db' next effect transition Eout E1 _ E2. apply wp_ret. rewrite (fo_id _ _ _ _ _ _ F) in Eout.
  eapply wp_mono; [eapply (IH (money_in r :: l)); [eapply follows_step; try done|..]| |]; try done.
  - by apply Forall_cons_1 in Hhead as [_ ?].
  - by apply Forall_cons_1 in Hhead as [? _].
  - rewrite list.Forall_forall in *. intros rn Hin. destruct (Hrs rn Hin) as [? Hn]. split; [done|]. rewrite E1.
    rewrite lookup_insert_ne; [done|]. intros E. apply Hfresh. rewrite E. apply list_elem_of_In.
    apply (in_map (fun rn => gr_txn_id (fst rn))). by apply list_elem_of_In.
  - intros [] db1 (o' & l' & F' & Hl'). exists o', l'. split; [done|]. by rewrite Hl', Hp.
Qed.

(** An order PayPal has not touched. *)
Definition untouched (id : Uuid) (o : OrderRow) (db : Db) : Prop :=
  orders db !! id = Some o /\ o_id o = id /\ full_refund_source (o_state o) = true /\ 0 < o_total_minor o /\
  o_external_refund o = None /\ o_payment_reversed_at o = None /\
  (forall txn row, gateway_refunds db !! txn = Some row -> gw_order_id row <> id) /\ only_sources db.

Lemma untouched_follows id o db : untouched id o db -> follows (o_state o) (o_total_minor o) id [] o db.
Proof.
  intros (Ho & Hid & Hs & Ht & He & Hr & Hno & Hsrc).
  assert (Hl : refund_ledger id db = []).
  { destruct (refund_ledger id db) as [|[t row] l] eqn:E; [done|].
    destruct (ledger_elem t row id db) as [Hrow Hrid]; [rewrite E; by left|]. by destruct (Hno t row Hrow). }
  split; try done; rewrite ?Hl; try done.
  - change (returned []) with 0. destruct (Z.leb_spec (o_total_minor o) 0); [lia|done].
  - by rewrite He.
  - rewrite Hr. split; [by intros []|done].
  - change (returned []) with 0. lia.
Qed.

(** C39. A paid order follows the money PayPal moved.  From an order without
    external refunds and with a positive total, in a state a full refund can
    close, recording verified notifications with new transaction ids and
    positive amounts whose sum fits 64 bits fails no assertion, and when they
    are committed the order has one ledger row for each; it is refunded
    exactly if the refunds and the reversals that were not canceled reach its
    total, and otherwise it is back in the state it had; it shows that sum,
    capped at its total, as its external refund, and is marked reversed
    exactly while a reversal is outstanding.  None of it depends on the order
    in which the notifications arrived. *)
Theorem order_follows_money id o0 db0 (records : list (GatewayRecord * Time)) :
  untouched id o0 db0 ->
  Forall (fun rn => gr_order_id (fst rn) = id /\ 0 < gr_amount_minor (fst rn) /\
                    gateway_refunds db0 !! gr_txn_id (fst rn) = None) records ->
  base.NoDup (map (fun rn => gr_txn_id (fst rn)) records) -> sum_all (money_all records) <= i64_max ->
  (forall msg, record_all records db0 <> Panicked msg) /\
  forall db, record_all records db0 = Done tt db ->
    let money := money_all records in
    exists o, orders db !! id = Some o /\
      Permutation (map money_of (refund_ledger id db)) money /\
      o_state o = (if o_total_minor o0 <=? returned money then ORefundedExternal else o_state o0) /\
      er_amount_minor <$> o_external_refund o =
        (if 0 <? returned money then Some (Z.min (returned money) (o_total_minor o0)) else None) /\
      (is_Some (o_payment_reversed_at o) <-> 0 < still_reversed money).
Proof.
  intros Hun Hrec Hnd Hsum.
  assert (Hw : wp (record_all records) (fun _ db' => exists o' l', follows (o_state o0) (o_total_minor o0) id l' o' db' /\
    Permutation l' (money_all records)) any_refusal db0).
  { apply (wp_record_all _ _ _ _ [] o0); try done.
    - by apply untouched_follows.
    - apply Hun.
    - clear -Hrec. simpl. induction Hrec as [|rn rs (? & ? & ?) _ IH]; simpl; constructor; done.
    - eapply list.Forall_impl; [exact Hrec|]. simpl. tauto. }
  split; [intros msg; by eapply wp_no_panic|]. intros db Hdone. unfold wp in Hw. rewrite Hdone in Hw.
  destruct Hw as (o & l & F & Hp). cbv zeta. destruct (returned_perm _ _ Hp) as [<- <-]. exists o.
  split; [apply F|]. split; [rewrite <- Hp; apply F|]. split; [apply F|]. split; [|apply F].
  pose proof (fo_refund _ _ _ _ _ _ F) as Hr. destruct (o_external_refund o) as [e|]; simpl.
  - destruct Hr as (Hpos & -> & _). by case_match; [|lia].
  - by case_match; [lia|].
Qed.
End Contract.

(** ** A payment, a reversal before it settles, and a refund *)

#[local] Existing Instance sample_crate.

Definition gateway_crates : InventoryCrates := {|
  parse_capabilities := fun _ => None;
  scope_covers_path := fun _ _ => true;
  parse_uuid := fun s => if (s =? "order")%string then Some 1%N else None;
  sha256_hex := fun s => s;
|}.
#[local] Existing Instance gateway_crates.

(** A paid order of 6.00 USD. *)
Definition gateway_order : OrderRow := (sample_order 1 2 alice [sample_line "a" 1]) <| o_state := OPaid |>.
Definition gateway_db : Db := with_order gateway_order empty_db.
Definition gateway_notice (txn : string) : gmap string string :=
  if (txn =? "R1")%string
  then list_to_map [("payment_status", "Reversed"); ("txn_id", "R1"); ("parent_txn_id", "P1"); ("custom", "order");
                    ("mc_gross", "-6.00"); ("mc_currency", "USD"); ("receiver_email", "Shop@example.com"); ("memo", "x")]
  else ∅.

Definition outcome_db {A} (m : H A) (db : Db) : Db := match m db with Done _ db' => db' | _ => db end.
Definition done_in {A} (m : H A) (db : Db) : bool := match m db with Done _ _ => true | _ => false end.

Lemma outcome_done (m : H unit) db : done_in m db = true -> m db = Done tt (outcome_db m db).
Proof. unfold done_in, outcome_db. by destruct (m db) as [[]| | |]. Qed.

Definition gateway_held : Db := snd (process None (gateway_notice "R1") 10 gateway_db).
Definition gateway_paid : Db :=
  outcome_db (settle_verified_payment None 1 (mkGatewayPayment "P1" "shop@example.com" None) 20) gateway_held.

Lemma gateway_untouched : untouched 1 gateway_order gateway_db.
Proof.
  repeat split; try (vm_compute; reflexivity).
  - intros txn row E. change (gateway_refunds gateway_db) with (∅ : gmap string GatewayRefundRow) in E. by rewrite lookup_empty in E.
  - intros txn row s E. change (gateway_refunds gateway_db) with (∅ : gmap string GatewayRefundRow) in E. by rewrite lookup_empty in E.
Qed.

(** A partial refund, a reversal of the rest and its cancellation leave the
    order paid. *)
Definition gateway_records : list (GatewayRecord * Time) :=
  [(mkGatewayRecord 1 "R2" "P1" GRefunded 200, 30); (mkGatewayRecord 1 "R3" "P1" GReversed 400, 40);
   (mkGatewayRecord 1 "R4" "P1" GCanceledReversal 400, 50)].

Lemma order_follows_money_witness :
  exists o, orders (outcome_db (record_all None gateway_records) gateway_db) !! 1%N = Some o /\
    o_state o = OPaid /\ er_amount_minor <$> o_external_refund o = Some 200 /\ o_payment_reversed_at o = None.
Proof.
  destruct (order_follows_money None 1 gateway_order gateway_db gateway_records gateway_untouched) as [_ Hrun].
  - repeat constructor; apply (bool_decide_unpack _); vm_compute; exact I.
  - apply (bool_decide_unpack _). vm_compute. exact I.
  - vm_compute. discriminate.
  - destruct (Hrun (outcome_db (record_all None gateway_records) gateway_db)) as (o & Ho & _ & Hs & He & Hr).
    + apply outcome_done. vm_compute. reflexivity.
    + exists o. split; [exact Ho|]. split; [rewrite Hs; vm_compute; reflexivity|].
      split; [rewrite He; vm_compute; reflexivity|]. destruct (o_payment_reversed_at o); [|reflexivity].
      destruct Hr as [Hr _]. specialize (Hr ltac:(eauto)). vm_compute in Hr. discriminate.
Defined.

Lemma gateway_run :
  rtc (gateway_step gateway_notice None) (gateway_db, []) (gateway_paid, [gateway_notice "R1"]).
Proof.
  eapply rtc_l; [eapply (gateway_notified gateway_notice None gateway_db [] (gateway_notice "R1") "R1" 10
    (Inbox "unknown_parent") gateway_held)|].
  - vm_compute. reflexivity.
  - vm_compute. eauto.
  - reflexivity.
  - unfold gateway_held. rewrite (surjective_pairing (process _ _ _ _)) at 1. f_equal.
  - apply rtc_once. eapply gateway_settled. apply outcome_done. vm_compute. reflexivity.
Qed.

(** A reversal that arrives before its payment is settled. *)
Lemma refund_never_lost_witness :
  gateway_refunds gateway_held !! "R1" = None /\ is_Some (gateway_refunds gateway_paid !! "R1") /\
  exists txn, txn_of (gateway_notice "R1") = Some txn /\
    ((exists row o, gateway_refunds gateway_paid !! txn = Some row /\ orders gateway_paid !! gw_order_id row = Some o /\
        is_Some (pp_txn_id (o_paypal o)) /\ pp_txn_id (o_paypal o) = parent_of (gateway_notice "R1") /\
        status_of (gateway_notice "R1") = Some (gw_status row) /\
        amount_in (gateway_notice "R1") (gw_status row) (o_exponent o) = Some (gw_amount_minor row)) \/
     gateway_refunds gateway_paid !! txn = None).
Proof.
  split; [vm_compute; reflexivity|]. split; [vm_compute; eauto|].
  destruct (refund_never_lost gateway_notice None gateway_db gateway_paid [gateway_notice "R1"] (gateway_notice "R1"))
    as (txn & Ht & Hr & _).
  - split; [vm_compute; reflexivity|]. split; [vm_compute; reflexivity|]. intros id o Ho. change (orders gateway_db) with ({[ 1%N := gateway_order ]} : gmap N OrderRow) in Ho.
    apply lookup_singleton_Some in Ho as [<- <-]. split; vm_compute; reflexivity.
  - exact gateway_run.
  - constructor.
  - exists txn. split; [exact Ht|]. destruct Hr as [Hl|[Hn _]]; [by left|by right].
Defined.

(** ** Amounts *)

Lemma pretty_nonneg (z : Z) : 0 <= z -> pretty z = pretty (Z.to_N z).
Proof. by destruct z. Qed.

(** The amount in the checkout link of an order, as PayPal sends it back
    in its notification, is read as the order's total, for every currency
    with one to four decimals.  For a currency without decimals the link
    carries a decimal, which the service does not accept in a notification. *)
Theorem checkout_amount_read_back total exponent :
  0 <= total <= i64_max -> 0 <= exponent <= 4 ->
  parse_gateway_amount_minor (checkout_amount total exponent) exponent = if exponent =? 0 then None else Some total.
Proof.
  intros Ht He. unfold parse_gateway_amount_minor, checkout_amount. rewrite (proj2 (Z.ltb_ge exponent 0)) by lia.
  set (k := 10 ^ exponent). assert (Hk : 0 < k <= 10000).
  { subst k. assert (exponent = 0 \/ exponent = 1 \/ exponent = 2 \/ exponent = 3 \/ exponent = 4) as Hc by lia.
    destruct_or! Hc; subst; simpl; lia. }
  rewrite Z.quot_div_nonneg, Z.rem_mod_nonneg by lia.
  pose proof (Z.div_mod total k ltac:(lia)) as Hdm. pose proof (Z.mod_pos_bound total k ltac:(lia)) as Hm.
  assert (0 <= total / k) by (apply Z.div_pos; lia).
  rewrite !pretty_nonneg by lia.
  destruct (pretty_spells (Z.to_N (total / k)) 20) as (w & Hw & Hwd & Hws & Hwl); [lia|unfold i64_max in *; nia|].
  destruct (pretty_spells (Z.to_N (total mod k)) (Z.to_nat (Z.max exponent 1))) as (f & Hf & Hfd & Hfs & Hfl); [lia| |].
  { rewrite Z2N.id, Z2Nat.id by lia. assert (k <= 10 ^ Z.max exponent 1) by (apply Z.pow_le_mono_r; lia). lia. }
  rewrite Z2N.id in Hws, Hfs by lia.
  set (z := (Z.to_nat exponent - String.length (pretty (Z.to_N (total mod k))))%nat).
  assert (Hall : bytes (padded (Z.to_nat exponent) (pretty (Z.to_N (total mod k)))) = repeat 48 z ++ f).
  { unfold padded. by rewrite bytes_app, bytes_zeros, Hf. }
  rewrite !bytes_app, Hall, Hw. change (bytes ".") with [46]. cbn [app]. rewrite digits_then_dot by done. cbn [default from_option id].
  assert (Hz : z = (Z.to_nat exponent - length f)%nat) by (subst z; by rewrite <- length_bytes, Hf).
  assert (Hne : nonempty w = true) by (destruct w; [simpl in Hwl; lia|done]). unfold id. rewrite Hne, Hwd. cbn [negb orb].
  rewrite length_app, repeat_length, forallb_app, digits_zeros, Hfd. cbn [andb negb orb].
  destruct (Z.eqb_spec exponent 0) as [->|Hexp].
  { replace (Z.of_nat (z + length f) =? 0) with false; [done|]. symmetry. apply Z.eqb_neq. lia. }
  replace (Z.of_nat (z + length f) =? exponent) with true by (symmetry; apply Z.eqb_eq; lia). cbn [negb orb].
  unfold checked_scale. rewrite (proj2 (Z.leb_le exponent 18)) by lia. fold k. cbn.
  assert (Hw64 : forall x, 0 <= x <= i64_max -> within_i64 x = Some x).
  { intros x Hx. unfold within_i64, between. unfold i64_min, i64_max in *.
    by rewrite (proj2 (Z.leb_le _ x)), (proj2 (Z.leb_le x _)) by lia. }
  unfold digits_i64. rewrite Hws, spelled_app, spelled_zeros, Hfs.
  rewrite !Hw64; cbn; rewrite ?Hw64; cbn; rewrite ?Hw64; try (f_equal; lia); nia.
Qed.

(** A total of 147.96 in a currency with two decimals. *)
Lemma checkout_amount_read_back_witness :
  checkout_amount 14796 2 = "147.96" /\ parse_gateway_amount_minor (checkout_amount 14796 2) 2 = Some 14796 /\
  parse_gateway_amount_minor (checkout_amount 500 0) 0 = None.
Proof.
  split; [vm_compute; reflexivity|].
  split; [apply (checkout_amount_read_back 14796 2)|apply (checkout_amount_read_back 500 0)]; unfold i64_max; lia.
Defined.

(** ** Availability *)

(** Paykit's answers, the last one first. *)
Abbreviation Answers := (list (Time * (bool + PaykitRequestError))).

(** The entry after these refreshes. *)
Definition entry_of (stale_seconds : Z) (answers : Answers) : CacheEntry :=
  foldr (fun '(now, result) entry => refreshed entry now stale_seconds result) no_entry answers.

(** The last answer that was not an error. *)
Fixpoint last_answer (answers : Answers) : option (Time * bool) :=
  match answers with
  | [] => None
  | (now, inl value) :: _ => Some (now, value)
  | (_, inr _) :: answers => last_answer answers
  end.

Lemma entry_last_ok stale answers : ce_last_ok_at (entry_of stale answers) = fst <$> last_answer answers.
Proof. induction answers as [|[now [v|e]] l IH]; [done..|exact IH]. Qed.

(** A seller is offered only on an answer that is not too old. *)
Lemma entry_grounded stale answers :
  0 <= stale -> ce_value (entry_of stale answers) = true ->
  exists fetched ok, ce_fetched_at (entry_of stale answers) = Some fetched /\
    last_answer answers = Some (ok, true) /\ fetched - ok <= seconds stale.
Proof.
  intros Hs. induction answers as [|[now [v|e]] l IH]; [done|simpl; intros ->|].
  - exists now, now. unfold seconds. repeat split; lia.
  - cbn [entry_of foldr]. fold (entry_of stale l). unfold refreshed. cbn [ce_value ce_fetched_at].
    rewrite entry_last_ok. cbn [last_answer]. destruct (last_answer l) as [[ok v]|]; [|done]. simpl.
    destruct (Z.leb_spec (now - ok) (seconds stale)) as [Hle|]; [|done]. intros Hv.
    destruct (IH Hv) as (f & ok' & _ & [= <- ->] & _). by exists now, ok.
Qed.

(** The availability cache fails closed.  It serves that Paykit takes
    payments only if the last answer it had from Paykit, at the reading it
    serves, said so, and that answer is younger than the serving window plus
    one refresh interval; errors in between do not extend it.  The entry read
    without the lock may be older than the one read under it. *)
Theorem availability_fails_closed ttl stale newer older before under after fetched written :
  0 < ttl -> 0 <= stale ->
  read_or_refresh (entry_of stale older) (entry_of stale (newer ++ older)) before under after ttl stale fetched
    = (true, written) ->
  exists answers now ok,
    (answers, now) ∈ [(older, before); (newer ++ older, under); ((after, fetched) :: newer ++ older, after)] /\
    last_answer answers = Some (ok, true) /\ now - ok < seconds (ttl + stale).
Proof.
  intros Ht Hs. unfold read_or_refresh.
  assert (Hread : forall answers now, is_fresh (entry_of stale answers) now ttl = true ->
    ce_value (entry_of stale answers) = true -> exists ok, last_answer answers = Some (ok, true) /\ now - ok < seconds (ttl + stale)).
  { intros answers now Hf Hv. destruct (entry_grounded _ _ Hs Hv) as (f & ok & Ef & Hl & Hle). unfold is_fresh in Hf.
    rewrite Ef in Hf. exists ok. unfold seconds in *. reflect_bools. split; [done|lia]. }
  destruct (is_fresh (entry_of stale older) before ttl) eqn:Hf.
  { intros [= Hv _]. destruct (Hread _ _ Hf Hv) as (ok & ? & ?). exists older, before, ok. set_solver. }
  destruct (is_fresh (entry_of stale (newer ++ older)) under ttl) eqn:Hf'.
  { intros [= Hv _]. destruct (Hread _ _ Hf' Hv) as (ok & ? & ?). exists (newer ++ older), under, ok. set_solver. }
  intros [= Hv _]. destruct (entry_grounded stale ((after, fetched) :: newer ++ older) Hs Hv) as (f & ok & Ef & Hl & Hle).
  exists ((after, fetched) :: newer ++ older), after, ok. split; [set_solver|]. split; [done|].
  assert (f = after) as -> by (destruct fetched; by injection Ef). unfold seconds in *. lia.
Qed.

(** A failed refresh within the window, on a positive answer. *)
Lemma availability_fails_closed_witness :
  exists answers now ok,
    (answers, now) ∈ [([], 0); ([(0, inl true)], seconds 40); ([(seconds 40, inr PaykitUnavailable); (0, inl true)], seconds 40)] /\
    last_answer answers = Some (ok, true) /\ now - ok < seconds (30 + 60).
Proof.
  apply (availability_fails_closed 30 60 [(0, inl true)] [] 0 (seconds 40) (seconds 40) (inr PaykitUnavailable)
           (Some (mkCacheEntry true (Some (seconds 40)) (Some 0)))); [lia|lia|vm_compute; reflexivity].
Defined.

(** ** Fiat money *)

Section Money.
Context `{UC : !UuidCrate, IC : !InventoryCrates, SC : !SealCrates, PC : !PaymentCrates}.






Lemma lock_order_Done order_id db p o db' :
  payments_keyed db -> lock_order order_id db = Done (p, o) db' ->
  db' = db /\ payments db !! p_id p = Some p /\ p_order_id p = order_id /\ orders db !! order_id = Some o.
Proof.
  intros [Hk _] E. unfold lock_order in E. apply bind_Done in E as (row & db1 & E1 & E).
  apply lock_payment_Done in E1 as [-> Hrow]. apply bind_Done in E as (p' & db2 & E2 & E).
  apply or_refuse_Done in E2 as [-> ->]. apply bind_Done in E as (orow & db3 & E3 & E). injection E3 as <- <-.
  apply bind_Done in E as (o' & db4 & E4 & E). apply or_refuse_Done in E4 as [Ho ->]. injection E as -> -> <-.
  destruct Hrow as (k & Hp & Hord). by rewrite (Hk _ _ Hp).
Qed.







End Money.

(** ** Binding *)

Section Binding.
Context `{UC : !UuidCrate, IC : !InventoryCrates, SC : !SealCrates, PC : !PaymentCrates}.

Lemma bind_checks_Done actor order_id method db out db' :
  payments_keyed db -> bind_checks actor order_id method db = Done out db' ->
  db' = db /\ exists o, orders db !! order_id = Some o /\ o_buyer_pubky o = actor /\
    match out with
    | inl _ => o_payment_method o = Some method
    | inr (p, o') => o' = o /\ o_payment_method o = None /\ o_state o = OPendingPayment /\
        payments db !! p_id p = Some p /\ p_order_id p = order_id /\ p_state p = PAwaitingEntitlement
    end.
Proof.
  intros Hkey E. unfold bind_checks in E. apply bind_Done in E as ([p o] & db0 & E0 & E).
  apply lock_order_Done in E0 as (-> & Hp & Hpid & Ho); [|done].
  apply bind_Done in E as ([] & db1 & E1 & E). apply refuse_if_Done in E1 as [Hb ->]. reflect_bools.
  destruct (o_payment_method o) as [bound|] eqn:Em.
  - destruct (String.eqb_spec bound method) as [->|]; [|discriminate]. apply bind_Done in E as (r & db2 & E2 & E).
    injection E as <- <-. unfold order_response in E2. apply bind_Done in E2 as (rv & db3 & E3 & E2).
    injection E3 as _ <-. injection E2 as _ <-. split; [done|]. by exists o.
  - apply bind_Done in E as ([] & db2 & E2 & E). apply refuse_if_Done in E2 as [H2 ->].
    apply bind_Done in E as ([] & db3 & E3 & E). apply refuse_if_Done in E3 as [H3 ->].
    apply bind_Done in E as ([] & db4 & E4 & E). apply refuse_if_Done in E4 as [_ ->]. injection E as <- <-. reflect_bools.
    split; [done|]. by exists o.
Qed.

(** The tables of a bind beside orders. *)
Definition bind_tables (db : Db) := (payments db, outbox db).

Lemma bind_hold_Done o window now db o' db' :
  orders db !! o_id o = Some o -> bind_hold o window now db = Done o' db' ->
  orders db' = <[o_id o := o']> (orders db) /\ o_id o' = o_id o /\ same bind_tables db db'.
Proof.
  intros Ho E. unfold bind_hold in E. apply bind_Done in E as ([r|f] & db1 & E1 & E); [|discriminate]. injection E as -> ->.
  unfold attempt in E1. destruct (acquire_payment_hold _ _ _ _ _) as [x dbx| | |] eqn:Ea; try discriminate. injection E1 as -> ->.
  unfold acquire_payment_hold in Ea. destruct (bool_decide (is_Some _)).
  { injection Ea as <- <-. by rewrite insert_id. }
  apply bind_Done in Ea as ([] & db2 & E2 & Ea). apply refuse_if_Done in E2 as [_ ->]. cbv zeta in Ea.
  destruct (o_stock_held o).
  - apply update_one_Done in Ea as (o0 & Ho0 & _ & _ & -> & ->). rewrite Ho in Ho0. by injection Ho0 as <-.
  - apply bind_Done in Ea as ([] & db3 & E3 & Ea).
    assert (Hk : same (fun db => (orders db, bind_tables db)) db db3).
    { eapply within_Done; [|exact E3]. unfold acquire_line, fetch_listing_for_update. same_run. }
    injection Hk as Hk1 Hk2 Hk3. apply update_one_Done in Ea as (o0 & Ho0 & _ & _ & -> & ->). rewrite Hk1, Ho in Ho0.
    injection Ho0 as <-. change (orders (upd orders ?g db3)) with (g (orders db3)). cbv beta. rewrite Hk1. split; [done|]. split; [done|]. exact (f_equal2 pair Hk2 Hk3).
Qed.

Lemma bind_statements_Done state actor method payment order url reference adapter quote now db plan db' :
  bind_statements state actor method payment order url reference adapter quote now db = Done plan db' ->
  is_Some (payments db !! p_id payment) ->
  pl_payment plan = payment /\ pl_reference plan = reference /\ pl_quote plan = quote /\
  (exists o, orders db !! o_id order = Some o /\ pl_order plan = bind_row method url reference now o) /\
  orders db' = <[o_id order := pl_order plan]> (orders db) /\ is_Some (payments db' !! p_id payment).
Proof.
  intros E [p0 Hp]. unfold bind_statements in E. apply bind_Done in E as ([] & db1 & E1 & E).
  assert (Hk : same (fun db => (orders db, payments db)) db db1).
  { eapply within_Done; [|exact E1]. unfold record_released_attempt. same_run. }
  injection Hk as Hk1 Hk2. apply bind_Done in E as (o1 & db2 & E2 & E).
  apply update_one_Done in E2 as (o & Ho & _ & _ & -> & ->). apply bind_Done in E as (w & db3 & E3 & E).
  apply update_where_Done in E3. apply bind_Done in E as (cid & db4 & E4 & E). apply bind_Done in E as (ev & db5 & E5 & E).
  apply bind_Done in E as ([] & db6 & E6 & E). injection E as <- <-. simpl.
  assert (Hk : same (fun db => (orders db, payments db)) db3 db6).
  { transitivity db5; [transitivity db4|]; (eapply within_Done; [|eassumption]);
      unfold insert_event, fresh_uuid, insert_notification_intent, enqueue; same_run. }
  injection Hk as Hk3 Hk4. rewrite Hk3, Hk4. rewrite Hk1 in Ho. do 3 (split; [done|]). split; [by exists o|].
  destruct w as [w|].
  - destruct E3 as (p & _ & _ & _ & _ & ->). split; [by rewrite <- Hk1|].
    change (payments (upd payments ?g ?d)) with (g (payments d)). cbv beta. rewrite lookup_insert_eq. by eexists.
  - destruct E3 as [_ Hno]. specialize (Hno p0). discriminate Hno. change (payments db1 !! p_id payment = Some p0). by rewrite Hk2.
Qed.

(** The pins of a prepared invoice, the payment in satoshi and the row that
    activates the invoice. *)
Definition pinned (order_id payment_id : Uuid) (o : OrderRow) (db : Db) : Prop :=
  exists invoice stack endpoint total row p,
    o_paykit_invoice_id o = Some invoice /\ o_paykit_stack_id o = Some stack /\
    o_paykit_stack_endpoint o = Some endpoint /\ o_paykit_total_sats o = Some total /\
    In row (outbox db) /\ ob_kind row = "paykit.activate" /\
    ob_payload row = PaykitActivate order_id invoice stack total endpoint 0 /\ ob_delivered_at row = None /\
    payments db !! payment_id = Some p /\ p_amount_minor p = total /\ p_currency p = "SAT" /\ p_exponent p = 0.

Lemma persist_Done plan quote endpoint prepared order_id expires_at now db reply db' :
  orders db !! o_id (pl_order plan) = Some (pl_order plan) -> is_Some (payments db !! p_id (pl_payment plan)) ->
  persist_and_reply plan quote endpoint prepared order_id expires_at now db = Done reply db' ->
  exists o, orders db' = <[o_id (pl_order plan) := o]> (orders db) /\ o_payment_method o = o_payment_method (pl_order plan) /\
    o_paykit_request_reference o = o_paykit_request_reference (pl_order plan) /\
    o_paykit_invoice_id o = Some (kp_invoice_id prepared) /\ bd_expires_at (o_bind o) = Some expires_at /\
    pinned (o_id (pl_order plan)) (p_id (pl_payment plan)) o db'.
Proof.
  intros Ho [p0 Hp] E. unfold persist_and_reply in E. apply bind_Done in E as ([] & db1 & E1 & E).
  assert (db' = db1) as ->.
  { apply bind_Done in E as (row & db2 & E2 & E). injection E2 as _ <-. apply bind_Done in E as (o & db3 & E3 & E).
    apply or_fail_Done in E3 as [_ ->]. unfold order_response in E. apply bind_Done in E as (rv & db4 & E4 & E).
    injection E4 as _ <-. by injection E. }
  clear E. unfold persist_prepared in E1. cbv zeta in E1. apply bind_Done in E1 as (total & db2 & E2 & E).
  unfold expect_i64 in E2. destruct (in_i64 _); [|discriminate]. injection E2 as <- <-.
  apply bind_Done in E as (columns & db3 & E3 & E). assert (db3 = db) as ->.
  { unfold quote_columns, expect_i64 in E3. destruct quote as [[[rate sample]|] sats]; [|by injection E3].
    destruct (in_i64 sats); [|discriminate]. apply bind_Done in E3 as (x & dbx & Ex & E3). injection Ex as _ <-.
    apply bind_Done in E3 as ([] & dby & Ey & E3). unfold debug_assert in Ey. destruct (in_range _ _ _); [|discriminate].
    injection Ey as <-. by injection E3. }
  apply bind_Done in E as (w & db4 & E4 & E). apply update_where_Done in E4. destruct w as [o|].
  2: { destruct E4 as [_ Hno]. discriminate (Hno _ Ho). }
  destruct E4 as (o0 & Ho0 & _ & _ & -> & ->). rewrite Ho in Ho0. injection Ho0 as <-.
  apply bind_Done in E as (w & db5 & E5 & E). apply update_where_Done in E5. destruct w as [p|].
  2: { destruct E5 as [_ Hno]. discriminate (Hno _ Hp). }
  destruct E5 as (p1 & Hp1 & _ & _ & -> & ->). injection E as <-.
  eexists. split; [reflexivity|]. do 4 (split; [reflexivity|]).
  do 6 eexists. do 4 (split; [reflexivity|]). split; [apply in_or_app; right; left; reflexivity|].
  do 3 (split; [reflexivity|]). split; [apply (lookup_insert_eq (payments db))|]. done.
Qed.

(** One more attempt number is spent. *)
Definition attempted (o : OrderRow) : OrderRow := o <| o_bind := (o_bind o) <| bd_attempt := bd_attempt (o_bind o) + 1 |> |>.

(** Nothing but an attempt number. *)
Definition only_attempted (order_id : Uuid) (db db' : Db) : Prop :=
  db' = db \/ exists o, orders db !! order_id = Some o /\ db' = upd orders (<[order_id := attempted o]>) db.

Lemma reserve_attempt_spec actor order_id db reserved db' :
  in_tx (reserve_attempt actor order_id) db = (reserved, db') -> only_attempted order_id db db'.
Proof.
  unfold in_tx. destruct (reserve_attempt actor order_id db) as [n db1| | |] eqn:E; intros [= _ <-]; try by left.
  unfold reserve_attempt in E. apply bind_Done in E as (w & db2 & E2 & E). injection E as _ <-.
  apply update_where_Done in E2. destruct w as [w|]; [|left; by destruct E2].
  destruct E2 as (o & Ho & _ & _ & -> & ->). right. by exists o.
Qed.

(** The bind of [method] to an unbound pending order of [actor]. *)
Definition bound (actor : Pubky) (order_id : Uuid) (method : string) (db db' : Db) : Prop :=
  exists o0 o payment_id, orders db !! order_id = Some o0 /\ o_payment_method o0 = None /\ o_state o0 = OPendingPayment /\
    o_buyer_pubky o0 = actor /\ orders db' = <[order_id := o]> (orders db) /\ o_payment_method o = Some method /\
    (is_bitcoin method = true -> pinned order_id payment_id o db').

(** The statements of a bind that reach their end. *)
Lemma bind_begin_Done state runtime actor order_id method reserved samples fetched now db out db' :
  payments_keyed db -> (forall id o, orders db !! id = Some o -> o_id o = id) ->
  bind_begin state runtime actor order_id method reserved samples fetched now db = Done out db' ->
  match out with
  | inl _ => exists o, orders db !! order_id = Some o /\ o_payment_method o = Some method
  | inr plan =>
      (exists o0, orders db !! order_id = Some o0 /\ o_payment_method o0 = None /\ o_state o0 = OPendingPayment /\
         o_buyer_pubky o0 = actor) /\
      orders db' = <[order_id := pl_order plan]> (orders db) /\ o_id (pl_order plan) = order_id /\
      o_payment_method (pl_order plan) = Some method /\ is_Some (payments db' !! p_id (pl_payment plan)) /\
      o_paykit_request_reference (pl_order plan) = pl_reference plan /\
      (is_bitcoin method = true -> is_Some (pl_quote plan) /\ is_Some (pr_paykit runtime) /\
         exists n, reserved = Some n /\ is_Some (pl_reference plan))
  end.
Proof.
  intros Hkey Hord E. unfold bind_begin in E. apply bind_Done in E as (checked & db0 & E0 & E).
  apply bind_checks_Done in E0 as (-> & o & Ho & Hb & Hc); [|done].
  destruct checked as [r|[p o']]; [injection E as <- _; by exists o|].
  destruct Hc as (-> & Hm & Hs & Hp & Hpid & Hst).
  apply bind_Done in E as (config & db1 & E1 & E). injection E1 as _ <-.
  apply bind_Done in E as (quote & db2 & E2 & E).
  assert (db2 = db /\ (is_bitcoin method = true -> is_Some quote /\ is_Some (pr_paykit runtime))) as [-> Hquote].
  { destruct (is_bitcoin method); [|by injection E2 as _ <-]. apply bind_Done in E2 as (q & db3 & E3 & E2). injection E2 as <- <-.
    unfold quote_bitcoin in E3. apply bind_Done in E3 as ([] & db4 & E4 & E3). apply refuse_if_Done in E4 as [_ ->].
    apply bind_Done in E3 as ([] & db5 & E5 & E3). apply refuse_if_Done in E5 as [Hpk ->]. split.
    - destruct (sat_denominated o).
      + apply bind_Done in E3 as (sats & db6 & E6 & E3). apply or_refuse_Done in E6 as [_ ->]. by injection E3.
      + destruct (_ && _); [|discriminate]. destruct (quote_usd _ _ _ _ _) as [[[? ?] ?]|]; [|discriminate]. by injection E3.
    - intros _. split; [by eexists|]. destruct (pr_paykit runtime); [by eexists|discriminate]. }
  pose proof (Hord _ _ Ho) as Hid.
  apply bind_Done in E as (o1 & db3 & E3 & E). apply bind_hold_Done in E3 as (Eo & Hid1 & Hk); [|by rewrite Hid].
  injection Hk as Hk1 _. apply bind_Done in E as ([[url reference] adapter] & db4 & E4 & E).
  assert (db4 = db3 /\ (is_bitcoin method = true -> exists n, reserved = Some n /\ is_Some reference)) as [-> Href].
  { unfold method_columns in E4. destruct (is_bitcoin method).
    - destruct reserved as [n|]; [|discriminate]. injection E4 as <- <- <- <-. split; [done|]. intros _. eauto.
    - split; [|done]. destruct (_ =? _)%string;
        apply bind_Done in E4 as (x & db5 & E5 & E4); apply or_refuse_Done in E5 as [_ ->];
        apply bind_Done in E4 as ([] & db6 & E6 & E4); apply refuse_if_Done in E6 as [_ ->];
        [by injection E4|]. destruct (paypal_checkout_url _ _ _ _ _); [by injection E4|discriminate]. }
  apply bind_Done in E as (plan & db5 & E5 & E). injection E as <- <-.
  apply bind_statements_Done in E5 as (Epay & Eref & Equo & (o2 & Ho2 & Epl) & Eor & Hpay); [|rewrite Hk1, Hp; eauto].
  rewrite Hid1, Hid in *. rewrite Eo, lookup_insert_eq in Ho2. injection Ho2 as <-.
  split; [by exists o|]. split; [rewrite Eor, Eo; by rewrite insert_insert_eq|]. rewrite Epay, Eref, Equo, Epl.
  split; [simpl; congruence|]. do 3 (split; [done|]). intros Hbit. destruct (Hquote Hbit). auto.
Qed.

(** A spent attempt number changes nothing a bind reads. *)
Lemma only_attempted_keyed order_id db db1 :
  only_attempted order_id db db1 -> payments_keyed db -> (forall id o, orders db !! id = Some o -> o_id o = id) ->
  payments_keyed db1 /\ (forall id o, orders db1 !! id = Some o -> o_id o = id) /\
  (forall o1, orders db1 !! order_id = Some o1 -> exists o, orders db !! order_id = Some o /\ (o1 = o \/ o1 = attempted o)) /\
  forall x, <[order_id := x]> (orders db1) = <[order_id := x]> (orders db).
Proof.
  intros [->|(o & Ho & ->)] Hkey Hord; [repeat split; try apply Hkey; eauto|].
  change (orders (upd orders ?g db)) with (g (orders db)). cbv beta. split; [exact Hkey|]. split; [|split].
  - intros id x [[<- <-]|[_ Hx]]%lookup_insert_Some; [exact (Hord _ _ Ho)|by apply Hord].
  - intros o1 [[_ <-]|[Hne _]]%lookup_insert_Some; [eauto|done].
  - intros x. apply insert_insert_eq.
Qed.

(** The commit keeps the whole bind or nothing of it, and a void is sent only
    for a bind that is not there. *)
Lemma commit_bind_spec commit reply prepared order_id before after r v db' :
  (forall void reference, prepared = Some (void, reference) -> exists o, orders after !! order_id = Some o /\
     o_paykit_request_reference o = Some reference /\ o_paykit_invoice_id o = Some (vd_invoice_id void)) ->
  commit_bind commit reply prepared order_id before after = (r, v, db') ->
  (db' = before /\ r = ServerError /\ commit <> Committed) \/
  (db' = after /\ v = None /\ match commit with Committed => r = Replied reply | CommitError _ _ => r = ServerError end).
Proof.
  intros Hpin. unfold commit_bind. destruct commit as [|durable readable]; [intros [= <- <- <-]; by right|].
  intros [= <- <- <-]. destruct durable; [right|by left]. split; [done|]. split; [|done].
  destruct prepared as [[void reference]|]; [|done]. destruct (Hpin _ _ eq_refl) as (o & Ho & Hr & Hi).
  unfold resolve_ambiguous_bind_commit. destruct readable; [|done]. simpl. rewrite Ho.
  by rewrite !bool_decide_eq_true_2.
Qed.

(** Phase 1 and what follows it. *)
Lemma bind_bitcoin_spec state client plan quote reference number order_id commit now before db r v db' :
  orders db = <[order_id := pl_order plan]> (orders before) -> o_id (pl_order plan) = order_id ->
  is_Some (payments db !! p_id (pl_payment plan)) -> o_paykit_request_reference (pl_order plan) = Some reference ->
  bind_bitcoin state client plan quote reference number order_id commit now before db = (r, v, db') ->
  (db' = before /\ forall reply, r <> Replied reply) \/
  (v = None /\ (commit = Committed -> exists reply, r = Replied reply) /\
   exists o, orders db' = <[order_id := o]> (orders before) /\ o_payment_method o = o_payment_method (pl_order plan) /\
     pinned order_id (p_id (pl_payment plan)) o db').
Proof.
  intros Eo Hid Hp Href. unfold bind_bitcoin. cbv zeta.
  destruct (create_payment_request _ _ _ _ _ _ _) as [prepared|e]; [|intros [= <- _ <-]; by left].
  destruct (negb (_ =? u64_of _)); [intros [= <- _ <-]; by left|].
  destruct (negb (timestamp _ =? _)); [intros [= <- _ <-]; by left|].
  destruct (persist_and_reply _ _ _ _ _ _ _ _) as [reply dbx| | |] eqn:E; try (intros [= <- _ <-]; by left).
  apply persist_Done in E as (o & Eox & Hm & Hr & Hi & _ & Hpin); [|by rewrite Eo, Hid, lookup_insert_eq|done].
  rewrite Hid, Eo, insert_insert_eq in *. intros Ec. apply commit_bind_spec in Ec.
  - destruct Ec as [(-> & -> & _)|(-> & -> & Hrep)]; [by left|right]. split; [done|].
    split; [intros ->; eexists; exact Hrep|by exists o].
  - intros void ref [= <- <-]. exists o. rewrite Eox, lookup_insert_eq. split; [done|]. by rewrite Hr.
Qed.

(** C37. A bind happens as a whole or not at all, over a store that keys orders
    and payments by their ids, one payment to an order.  Whatever Paykit answers and
    whatever the client learns of the commit, either the store is as before
    but for one spent attempt number, and an acknowledgement then only
    repeats a method that was bound already; or the method is bound to a
    pending order of the caller that had none, no courtesy void is sent, and
    a Bitcoin bind comes with the pinned invoice, the payment in satoshi and
    the row that activates the invoice.  A bound method is never replaced. *)
Theorem bind_all_or_nothing state actor order_id method samples fetched commit now db reply void db' :
  payments_keyed db -> (forall id o, orders db !! id = Some o -> o_id o = id) ->
  bind_payment_method state actor order_id method samples fetched commit now db = (reply, void, db') ->
  (only_attempted order_id db db' /\
   forall r, reply = Replied r -> exists o, orders db !! order_id = Some o /\ o_payment_method o = Some method) \/
  (bound actor order_id method db db' /\ void = None /\ (commit = Committed -> exists r, reply = Replied r)).
Proof.
  intros Hkey Hord. unfold bind_payment_method.
  destruct (ps_runtime state) as [runtime|]; [|intros [= <- _ <-]; left; split; [by left|done]].
  destruct (known_method method); simpl; [|intros [= <- _ <-]; left; split; [by left|done]].
  destruct (if is_bitcoin method then _ else _) as [reserved db1] eqn:Er.
  assert (Hatt : only_attempted order_id db db1).
  { destruct (is_bitcoin method); [by eapply reserve_attempt_spec|injection Er as _ <-; by left]. }
  destruct (only_attempted_keyed _ _ _ Hatt Hkey Hord) as (Hkey1 & Hord1 & Hback & Hins).
  destruct reserved as [reserved| | |]; try (intros [= <- _ <-]; by left).
  destruct (bind_begin _ _ _ _ _ _ _ _ _ _) as [out db2| | |] eqn:E; try (intros [= <- _ <-]; by left).
  apply (bind_begin_Done _ _ _ _ _ _ _ _ _ _ _ _ Hkey1 Hord1) in E. destruct out as [r|plan].
  { intros [= <- _ <-]. left. split; [done|]. intros _ _. destruct E as (o1 & Ho1 & Hm).
    destruct (Hback _ Ho1) as (o & Ho & Hoo). exists o. split; [done|]. by destruct Hoo as [->| ->]. }
  destruct E as ((o1 & Ho1 & Hm & Hst & Hb) & Eo & Hid & Hbm & Hp & Href & Hbit).
  destruct (Hback _ Ho1) as (o0 & Ho0 & Hoo).
  assert (Hbound : forall o db3, orders db3 = <[order_id := o]> (orders db1) -> o_payment_method o = Some method ->
    (is_bitcoin method = true -> pinned order_id (p_id (pl_payment plan)) o db3) -> bound actor order_id method db db3).
  { intros o db3 E3 Ho3 Hpin. exists o0, o, (p_id (pl_payment plan)). rewrite E3, Hins.
    destruct Hoo as [->| ->]; repeat split; try done. }
  destruct (is_bitcoin method) eqn:Hmb.
  - destruct (Hbit eq_refl) as ([quote ->] & [client ->] & n & -> & [reference Hr]). rewrite Hr in *.
    intros Ebb. apply bind_bitcoin_spec in Ebb; [|done..].
    destruct Ebb as [[-> Hno]|(-> & Hrep & o & Eod & Hod & Hpin)].
    + left. split; [done|]. intros r ->. by destruct (Hno r).
    + right. split; [|done]. apply (Hbound o); [done|congruence|done].
  - injection Er as <- <-. destruct (pl_reference plan); simpl.
    all: intros Ec; apply commit_bind_spec in Ec; [|done].
    all: destruct Ec as [(-> & -> & _)|(-> & -> & Hrep)]; [by left|right]; split;
      [by apply (Hbound (pl_order plan))|split; [done|intros ->; eexists; exact Hrep]].
Qed.
End Binding.

(** ** An order bound and paid *)

#[local] Existing Instance sample_crate.

Definition rail_seal : SealCrates := {|
  encrypt := fun _ _ aad plaintext => aad +:+ plaintext;
  decrypt := fun _ _ _ _ => Some "rk_live_restricted";
  fill_bytes := fun _ => "000000000000000000000000";
|}.
Definition rail_inventory : InventoryCrates := {|
  parse_capabilities := fun _ => None;
  scope_covers_path := fun _ _ => true;
  parse_uuid := fun _ => None;
  sha256_hex := fun s => s;
|}.
Definition rail_crates : PaymentCrates := {|
  parse_url := fun _ => None;
  append_pairs := fun base _ => Some base;
  parse_form := fun _ => [];
  sha256 := fun s => bytes s;
|}.
#[local] Existing Instances rail_seal rail_inventory rail_crates.

(** A Paykit that asks for five satoshi more. *)
Definition rail_paykit : PaykitClient :=
  mkPaykit "https://paykit.example" PaykitFork
    (fun rq => Answered 200 (Some (mkPrepared 77 "stack" "fresh" 5 (rq_amount_sats rq + 5) (rq_expires_at rq)
                                     (rq_expires_at rq) "fingerprint")) None)
    (fun _ => None) (fun _ => None) None.

Definition rail_state : PaymentsState :=
  mkPaymentsState (Some (mkPaymentsRuntime "key" (fun _ _ => None) (Some rail_paykit) (fun _ => None))) 900 600
    "https://www.paypal.com/cgi-bin/webscr" None None sample_keys None.

Definition rail_order : OrderRow := (sample_order 7 8 alice [sample_line "a" 1]) <| o_currency := "SAT" |> <| o_exponent := 0 |>.
Definition rail_payment : PaymentRow := sample_payment 8 7 alice 600.
Definition rail_db : Db :=
  with_order rail_order (with_payment rail_payment (with_listing (sample_listing "a" LAvailable 3 0 0)
    (upd seller_payment_configs (<[sally := mkPaymentConfig true None None None 0 0]>) empty_db))).

Lemma rail_payments_keyed : payments_keyed rail_db.
Proof.
  change (payments rail_db) with ({[ 8%N := rail_payment ]} : gmap N PaymentRow).
  unfold payments_keyed. change (payments rail_db) with ({[ 8%N := rail_payment ]} : gmap N PaymentRow). split.
  - by intros k p [<- <-]%lookup_singleton_Some.
  - by intros k k' p p' [<- <-]%lookup_singleton_Some [<- <-]%lookup_singleton_Some.
Qed.

Lemma rail_orders_keyed id o : orders rail_db !! id = Some o -> o_id o = id.
Proof.
  change (orders rail_db) with ({[ 7%N := rail_order ]} : gmap N OrderRow). by intros [<- <-]%lookup_singleton_Some.
Qed.

Definition rail_bind (commit : CommitReport) : Reply OrderReply * option CourtesyVoid * Db :=
  bind_payment_method rail_state alice 7 "bitcoin" [] (inr Fx.Malformed) commit 0 rail_db.

(** A bind whose commit was reported as failed although it is durable. *)
Lemma bind_all_or_nothing_witness :
  snd (fst (rail_bind (CommitError true true))) = None /\
  bound alice 7 "bitcoin" rail_db (snd (rail_bind (CommitError true true))).
Proof.
  destruct (bind_all_or_nothing rail_state alice 7 "bitcoin" [] (inr Fx.Malformed) (CommitError true true) 0 rail_db
    (fst (fst (rail_bind (CommitError true true)))) (snd (fst (rail_bind (CommitError true true))))
    (snd (rail_bind (CommitError true true)))) as [[Hsame _]|(Hb & Hv & _)].
  - exact rail_payments_keyed.
  - exact rail_orders_keyed.
  - unfold rail_bind. by rewrite <- !surjective_pairing.
  - exfalso. assert (Hm : (o_payment_method <$> orders (snd (rail_bind (CommitError true true))) !! 7%N) = Some (Some "bitcoin"))
      by (vm_compute; reflexivity).
    destruct Hsame as [E|(o & Ho & E)]; rewrite E in Hm; [vm_compute in Hm; discriminate|].
    change (orders (upd orders ?g rail_db)) with (g (orders rail_db)) in Hm. cbv beta in Hm. rewrite lookup_insert_eq in Hm.
    change (orders rail_db) with ({[ 7%N := rail_order ]} : gmap N OrderRow) in Ho.
    apply lookup_singleton_Some in Ho as [_ <-]. vm_compute in Hm. discriminate.
  - by split.
Defined.


